(* ===== verification/_CoqProject ===== *)
-Q . S2P
Prelude.v
Types.v
Sbe.v
ILink3.v
Mdp3.v
Dispatcher.v
CodecTheorems.v
OrderedMap.v
Order.v
PriceLevel.v
OrderBook.v
BookSpec.v
BookWf.v
BookRefine.v
BookRefineOps.v
BookInv.v
BookCorrect.v
BookPriority.v
BookReplay.v
BookCommands.v
BookTheorems.v
BookFrame.v
Engine.v
EngineTheorems.v
RetransmitBuffer.v
Session.v
SessionLemmas.v
SessionStep.v
SessionInv.v
SessionTheorems.v
SessionNumbers.v
SessionManager.v
Instrument.v
Text.v
InstrumentManager.v
StatusMachine.v
Validator.v
Risk.v
Typed.v
ExecReport.v
ExecReportTheorems.v
Gateway.v
GatewayTheorems.v
MarketData.v
Publisher.v
Listener.v
ListenerTheorems.v
ListenerMain.v
EngineReplay.v
FeedLemmas.v
FeedChannels.v
PublisherTotal.v
FeedRounds.v
FeedTheorems.v
MpscQueue.v
MpscTheorems.v
TcpConnection.v
TcpTheorems.v
Config.v
ConfigTheorems.v
ListenerProcess.v
ListenerText.v
Exchange.v
ExchangeLemmas.v
ExchangeInv.v
PcapReader.v
PcapTheorems.v
SyntheticEngine.v
SyntheticTheorems.v
SyntheticAudit.v
SyntheticTrades.v
Client.v
ClientTheorems.v
ClientReports.v
Lifecycle.v
LifecycleTheorems.v
ExchangeTheorems.v
BufferPool.v
PoolTheorems.v
SpscQueue.v
