(* ===== verification/Prelude.v ===== *)
(** * A verification of the sim-cme exchange simulator

    sim-cme is a C++ simulator of the CME Globex exchange: clients send orders
    in iLink 3 over TCP, the exchange matches them and publishes market data in
    MDP 3.0 over UDP. This library models the parts of it listed below and
    proves what makes them correct, alone and wired together the way
    src/main.cpp wires them. Everything is executable: the witnesses and the
    counterexamples evaluate the definitions.

    ** The program and where its parts are modelled

    - Wire format. [Sbe.v] is the memory-copy layer of src/sbe (buffers are lists
      of bytes, [memcpy] at an offset, [None] for an access outside the buffer),
      the headers of message_header.h, framing.h and packet_header.h, and the
      repeating groups of mdp3_messages.h. [ILink3.v] has one module per message
      of ilink3_messages.h (19), [Mdp3.v] one per message of mdp3_messages.h (7):
      the struct as a record [t], its initialisers [init], [encode], [decode] and
      [encodedLength]. A message type is an instance of the class [SbeCodec];
      [SbeCodecOk] is its contract (encoding writes exactly the message's bytes,
      decoding them gives the message back) and [SbeBounds] says how much the
      decoder reads. [Dispatcher.v] is dispatcher.h; the handler overload that
      would be called is a constructor of a sum type. Theorems in
      [CodecTheorems.v].
    - Orders. [Types.v] is src/common/types.h; [Order.v] is order.h, trade.h and
      engine_event.h of src/engine. Orders live in a heap addressed by pointers,
      because the engine owns them and the book and its levels link them through
      pointers stored in the orders themselves; dereferencing a pointer that is
      not in the heap is [None].
    - Order book. [OrderedMap.v] is the part of std::map the book uses,
      [PriceLevel.v] is price_level.h (the intrusive doubly linked list and its
      representation predicate), [OrderBook.v] every method of order_book.cpp.
      [BookSpec.v] is the abstract book it implements: per side a sorted list of
      prices, each with its queue of orders. [BookWf.v], [BookRefine.v],
      [BookRefineOps.v], [BookInv.v] and [BookCorrect.v] prove the refinement and
      the book invariant, [BookPriority.v] and [BookReplay.v] the facts about
      fills and market data that the theorems of [BookTheorems.v] combine,
      [BookCommands.v] runs the three commands, [BookFrame.v] says what a command
      leaves alone.
    - Matching engine. [Engine.v] is full_matching_engine.cpp behind the interface
      [IMatchingEngine]: the books by security and the ownership of the orders;
      releasing an order removes it from the heap, so memory safety of the engine
      is that its runs never give [None]. [EngineTheorems.v] has the theorems and
      the engine without pointers they compare it with, an abstract book per
      instrument; [Typed.v] shows that every integer, enum and price of orders,
      books and events keeps a value of its C++ type.
    - FIXP session. [RetransmitBuffer.v] is retransmit_buffer.h, [Session.v] is
      session.cpp and hmac_authenticator.h in a state monad over the session, its
      outputs and its clock reads; [SessionLemmas.v] gives the effect of the send
      helpers, [SessionStep.v] the session as a step relation and the proof that
      the code takes only those steps, [SessionInv.v] the invariant and induction
      on runs, [SessionTheorems.v] and [SessionNumbers.v] the theorems.
      [SessionManager.v] is session_manager.cpp with its theorems.
    - Instruments. [Instrument.v] is instrument.h with its tick arithmetic,
      [InstrumentManager.v] instrument_manager.cpp, [StatusMachine.v]
      security_status_machine.cpp, each with its theorems.
    - Order entry gateway. [Validator.v] is message_validator.cpp, [Risk.v]
      risk_manager.cpp, [ExecReport.v] exec_report_builder.cpp (theorems in
      [ExecReportTheorems.v]), [Gateway.v] order_entry_gateway.cpp over any
      implementation of [IMatchingEngine]; [GatewayTheorems.v] composes it with
      the full matching engine.
    - Command queue. [MpscQueue.v] is mpsc_queue.h, one access to shared memory
      per step and its threads interleaved; [MpscTheorems.v] has the
      invariant of its chain of nodes and the refinement of a FIFO list, which is
      the list [Gateway.v] uses.
    - Buffer pool. [BufferPool.v] is buffer_pool.h in the same style, its lock-free
      free list one access per step; [PoolTheorems.v] relates it to a stack of
      free buffers.
    - Other queue. [SpscQueue.v] is the wrapper of spsc_queue.h over a third-party
      queue given by its laws (a class), with the theorem that it behaves as the
      bounded list; the exchange does not use it.
    - Market data. [MarketData.v] has the three message builders of
      src/market_data, [Publisher.v] the feeds, channel publishers, the snapshot
      cycler and the publisher that routes events to channels. [Listener.v] is
      the packet walk of tools/mdp3_listener.cpp, [ListenerTheorems.v] what it
      does with packets, [ListenerMain.v] its arguments, receive loop, statistics
      and [main] (theorems in [ListenerProcess.v]), [ListenerText.v] the lines it
      prints. [EngineReplay.v] ties the engine's events to the depth
      of its books; [FeedLemmas.v] and [FeedChannels.v] follow them through
      builders, feeds and wire, [FeedRounds.v] does so for the snapshots and the
      instrument definitions; theorems in [FeedTheorems.v]. [PublisherTotal.v] proves that
      no operation of the publisher fails and what all of them keep.
    - Network. [TcpConnection.v] is tcp_connection.cpp, event by event; theorems
      in [TcpTheorems.v].
    - Synthetic engine. [PcapReader.v] is pcap_reader.cpp over the bytes of a
      capture, theorems in [PcapTheorems.v]. [SyntheticEngine.v] is
      synthetic_engine.cpp, the second implementation of [IMatchingEngine]:
      it replays captured packets and invents fills for the orders it is given.
      [SyntheticTheorems.v] follows its quotes, [SyntheticAudit.v] checks whole
      runs against a small automaton on the events, [SyntheticTrades.v] the fills
      of one trade message.
    - Text. [Text.v] is what the programs use of the standard library to read
      words and numbers (stoi, the extraction operators), with the proofs that
      numbers printed in decimal are read back and that prices in quarters are
      exact as doubles.
    - Client. [Client.v] is the state, the messages and the typed commands of
      tools/ilink3_client.cpp; [ClientTheorems.v] simulates client and session side
      by side, [ClientReports.v] feeds it the reports of the exchange.
    - Configuration. [Config.v] is exchange_config.h, channel_config.h and
      config_loader.cpp; theorems in [ConfigTheorems.v].
    - The process. [Exchange.v] is the wiring of src/main.cpp: the callbacks of
      the acceptor and of the connections and the rounds of the engine, timer,
      snapshot and instrument definition threads are the steps of one state that
      holds all components. [ExchangeLemmas.v] says what a step leaves alone,
      [ExchangeInv.v] proves the invariant, [ExchangeTheorems.v] the theorems.
      [Lifecycle.v] is the rest of main.cpp, tcp_acceptor.cpp and
      io_context_pool.cpp: the arguments, start-up, the accept loop with its
      signal, and shutdown; theorems in [LifecycleTheorems.v].

    The parts meet at these interfaces: sessions, gateway, dispatcher and
    listener use messages only through [SbeCodec], [SbeCodecOk] and [SbeBounds];
    the engine uses the book through the refinement lemmas of [BookCorrect.v];
    gateway, publisher and process see the engine as the record
    [IMatchingEngine]; the process uses the invariants of its components.

    ** What the theorems show

    - Order book (C1, C2, C6 to C11): the pointer-based book refines the abstract
      book command by command and never fails; fills follow price-time priority,
      conserve quantity and respect limits; the book is never crossed;
      fill-or-kill, cancel and modify do what they promise; the book updates
      replay to the new depth.
    - Engine (C12, C23): any run is memory safe and gives exactly the events of an
      abstract price-time book per instrument.
    - Codecs (C13, C14): every message of both protocols survives encoding and
      dispatch.
    - Sessions (C15 to C18): the exact life cycle with its authentication and
      timeout conditions, complete accounting of inbound sequence numbers, exact
      retransmission, keep-alive.
    - Instruments and validation (C19 to C22): rounding to ticks, complete status
      events, what exactly the validator accepts, the order rate within any
      window.
    - Gateway (C24, C25): the receiver recovers every event from its report;
      draining the queue reports each event to the sessions it names.
    - Market data (C3, C26 to C28): a listener rebuilds the books of the engine
      from the datagrams and shows its trades; the listener's process listens
      where the exchange sends and prints true counts; at any moment of a run of
      the exchange its snapshots show the depth of the books and its definitions
      the configured instruments; the listener's walk ends on any bytes.
    - Network, queue and pool (C29 to C31, C39): messages are reassembled from a
      byte stream cut up in any way, sending and receiving are inverse, the queue
      is FIFO and the pool a stack under every interleaving.
    - Configuration (C32): the checks accept exactly the valid configurations,
      doubles that are not numbers apart.
    - Synthetic engine (C33 to C35, C38): the events of any run are those an
      observer of the orders expects; a trade message fills each resting order
      whose limit it reaches, and no other; its quotes follow the books that were captured; a
      capture written by the rules of the format is read back.
    - Client (C36, C37): the commands typed reach the gateway one by one, with what
      they say, client and session agree on every sequence number, and the
      client's counts are those of the events reported to it.
    - The process (C4, C5, C40): from an accepted configuration, and as long as
      clients send complete messages, no callback, in any
      order, reads or writes outside a buffer or touches a freed order; no order
      reaches the engine that its session was not authenticated for; start-up,
      the accept loop and shutdown run to the end and close what they opened.

    Theorems outside these groups are further facts about the same components:
    the silence of a terminated session, the HMAC comparison, the registry of
    sessions, look-up of instruments after loading, immediate orders, gap-free
    numbers of book updates, values of their types in every field of the engine, the
    redundancy of the two feeds, everything published
    arriving complete and in order, prices printed to the nearest six digits, the
    bounded queue of spsc_queue.h, the validity of loaded configurations, a capture
    reader that ends on any file. Others state
    what the code does where that differs from its comments: stop orders that are
    lost, fill-or-kill stop-limits that fill in part, finished orders that stay
    owned, truncated messages that are read beyond their end, overlapping writes
    of a connection that interleave, ticks that the configuration accepts and the
    instruments cannot use, buffers of the pool that are handed out twice,
    connections accepted after the shutdown, a maturity that ends the process.

    ** Modelling choices and bounds

    - An integer of the source is a [Z]; assignments and casts reduce it with
      [wrapu] and [wraps]. Arithmetic on [int32_t] quantities wraps; the book
      theorems assume quantities below 2^31 and total quantities per level that
      fit, which is where the source would otherwise overflow. Doubles are the
      standard library's specification of binary64.
    - Undefined behaviour (an access outside a buffer or vector, a freed order, a
      double too large for the integer it is cast to) is [None]. C++ exceptions
      are the left values of a sum.
    - The matching loops carry fuel: at most one iteration per level for the
      outer loop and per order in the heap for the inner one; the refinement
      proves that this suffices. The loops over retransmit requests are bounded by
      the requested count. The listener's walk has the bytes left as fuel, and
      C28 proves that it never runs out; its receive buffer is the 64 KiB of the
      source. The capture reader's loops have the bytes of the file as fuel; every
      iteration consumes at least a packet header, and the theorems prove that
      this is enough.
    - Clocks are functions from the number of the read to a time, so theorems hold
      for every clock. OpenSSL's HMAC is a parameter that returns 32 bytes, the
      YAML library one that returns nodes or throws. The iteration order of an
      unordered_map is an argument wherever it can be observed.
    - Identifiers ([next_order_id_], trade ids, session uuids) are 64-bit
      counters; theorems about runs assume fewer than 2^64 - 1 calls.
    - The command queue and the buffer pool are modelled under sequential
      consistency; the weak compare-and-swap of the pool may fail at random. In [Exchange.v]
      callbacks and rounds do not overlap. For the command queue its theorem
      justifies that; sessions, risk states and books are shared between threads
      without a lock in the source, and races on them are outside the model. A
      callback that the source binds to a connection finds it by the identifier
      of its session.

    ** Not modelled

    What is left has no behaviour of its own to verify: sockets and name
    resolution, which appear as parameters and events; logging, the clock wrapper
    and the console texts other than those of the listener; the start and join of
    the client's threads. The sleeps that pace the replay of a capture and the
    overlap of its thread with the callers of the engine are left out because the
    source does not synchronise them: any interleaving of its accesses is a data
    race, which gives the program no meaning to state theorems about. *)

(** Prelude: machine integers, sums, byte buffers and automation shared by all
    files. *)
From stdpp Require Export gmap list strings.
From coqutil Require Export Byte Word.LittleEndianList.
#[export] Set Default Goal Selector "!".
Open Scope Z_scope.
#[global] Arguments le_split : simpl never.
#[global] Arguments le_combine : simpl never.

(** ** Fixed-width integers

    An integer variable of the source is a [Z]; an assignment or a cast to a
    [w]-bit type is the reduction below (two's complement for signed types). *)
Definition wrapu (w z : Z) : Z := z mod 2 ^ w.
Definition wraps (w z : Z) : Z := (z + 2 ^ (w - 1)) mod 2 ^ w - 2 ^ (w - 1).

Declare Scope width_scope.
Delimit Scope width_scope with width.
Abbreviation u8 := (wrapu 8).
Abbreviation u16 := (wrapu 16).
Abbreviation u32 := (wrapu 32).
Abbreviation u64 := (wrapu 64).
Abbreviation i16 := (wraps 16).
Abbreviation i32 := (wraps 32).
Abbreviation i64 := (wraps 64).
Notation "z ∈u w" := (0 ≤ z < 2 ^ w) (at level 70) : width_scope.
Notation "z ∈i w" := (- 2 ^ (w - 1) ≤ z < 2 ^ (w - 1)) (at level 70) : width_scope.
Open Scope width_scope.

Lemma wrapu_small w z : z ∈u w → wrapu w z = z.
Proof. intros. by apply Z.mod_small. Qed.

Lemma wrapu_range w z : 0 ≤ w → wrapu w z ∈u w.
Proof. intros. apply Z.mod_pos_bound, Z.pow_pos_nonneg; lia. Qed.

Lemma wraps_small w z : 0 < w → z ∈i w → wraps w z = z.
Proof.
  intros Hw Hz. unfold wraps.
  assert (2 ^ w = 2 * 2 ^ (w - 1)) as E
    by (rewrite <-Z.pow_succ_r by lia; f_equal; lia).
  rewrite Z.mod_small; lia.
Qed.

Lemma wraps_range w z : 0 < w → wraps w z ∈i w.
Proof.
  intros Hw. unfold wraps.
  assert (2 ^ w = 2 * 2 ^ (w - 1)) as E
    by (rewrite <-Z.pow_succ_r by lia; f_equal; lia).
  pose proof (Z.mod_pos_bound (z + 2 ^ (w - 1)) (2 ^ w)) as B.
  assert (0 < 2 ^ (w - 1)) by (apply Z.pow_pos_nonneg; lia). lia.
Qed.

Lemma wrapu_wrapu w z : 0 ≤ w → wrapu w (wrapu w z) = wrapu w z.
Proof. intros. by apply wrapu_small, wrapu_range. Qed.

(** Casting to unsigned and back to signed of the same width is the identity
    on signed values. *)
Lemma wraps_wrapu w z : 0 < w → wraps w (wrapu w z) = wraps w z.
Proof. intros. unfold wraps, wrapu. by rewrite Zplus_mod_idemp_l. Qed.

Lemma wraps_of_range w z : 0 < w → z ∈i w → wraps w (z mod 2 ^ w) = z.
Proof. intros. change (z mod 2 ^ w) with (wrapu w z). rewrite wraps_wrapu by lia. by apply wraps_small. Qed.

Lemma wraps_add_l w a b : 0 < w → wraps w (wraps w a + b) = wraps w (a + b).
Proof.
  intros Hw. unfold wraps. f_equal.
  replace ((a + 2 ^ (w - 1)) mod 2 ^ w - 2 ^ (w - 1) + b + 2 ^ (w - 1))
    with ((a + 2 ^ (w - 1)) mod 2 ^ w + b) by lia.
  rewrite Zplus_mod_idemp_l. f_equal. lia.
Qed.

(** Range goals about casts: [auto with width]. *)
Create HintDb width.
#[export] Hint Resolve wrapu_range wraps_range : width.
#[export] Hint Extern 1 (_ ≤ _) => lia : width.
#[export] Hint Extern 1 (_ < _) => lia : width.

(** Drops the casts whose argument is known to be in range. *)
Ltac unwrap := repeat first [rewrite wrapu_small by lia | rewrite wraps_small by lia].

(** ** Sums over lists *)
Fixpoint zsum {A} (f : A → Z) (l : list A) : Z :=
  match l with [] => 0 | x :: l => f x + zsum f l end.

Lemma zsum_app {A} (f : A → Z) l1 l2 : zsum f (l1 ++ l2) = zsum f l1 + zsum f l2.
Proof. induction l1 as [|x l IH]; simpl; lia. Qed.

Lemma zsum_nonneg {A} (f : A → Z) l : Forall (λ x, 0 ≤ f x) l → 0 ≤ zsum f l.
Proof. induction 1; simpl; lia. Qed.

(** ** Options *)
Lemma bind_step {A B} (k : A → option B) (x : option A) v r : x = Some v → k v = r → x ≫= k = r.
Proof. by intros ->. Qed.

(** A fold of a step that may fail. *)
Fixpoint ofold {A B} (f : B → A → option B) (b : B) (l : list A) : option B :=
  match l with [] => Some b | x :: l => b ← f b x; ofold f b l end.

Lemma ofold_app {A B} (f : B → A → option B) b l1 l2 : ofold f b (l1 ++ l2) = b ← ofold f b l1; ofold f b l2.
Proof. revert b. induction l1 as [|x l1 IH]; intros b; [done|]. simpl. by destruct (f b x); [apply IH|]. Qed.

(** ** Byte buffers *)
Abbreviation buffer := (list byte).

(** [slice o n b] is what [memcpy(dst, b + o, n)] copies; reading past the end
    of the buffer is [None]. *)
Definition slice {A} (o n : nat) (b : list A) : option (list A) :=
  if decide (o + n ≤ length b)%nat then Some (take n (drop o b)) else None.

Lemma slice_app {A} (pre s post : list A) :
  slice (length pre) (length s) (pre ++ s ++ post) = Some s.
Proof.
  unfold slice. rewrite decide_True by (rewrite !length_app; lia).
  by rewrite drop_app_length, take_app_length.
Qed.

Lemma slice_app_eq {A} o n (pre s post : list A) :
  o = length pre → n = length s → slice o n (pre ++ s ++ post) = Some s.
Proof. intros -> ->. apply slice_app. Qed.

Lemma slice_None {A} o n (b : list A) : (length b < o + n)%nat → slice o n b = None.
Proof. intros. unfold slice. rewrite decide_False; [done | lia]. Qed.

Lemma slice_length {A} o n (b s : list A) : slice o n b = Some s → length s = n.
Proof.
  unfold slice. case_decide; [|done]. intros [= <-].
  rewrite length_take, length_drop. lia.
Qed.

#[export] Instance byte_eq_dec : EqDecision byte := Byte.byte_eq_dec.

(** The bytes of a [std::string]. *)
Definition chars (s : string) : list byte := String.list_byte_of_string s.
