(* ===== verification/Types.v ===== *)
(** * Shared types (src/common/types.h)

    Scalar aliases, the fixed-point [Price] and the enumerations. A C++
    [enum class] with a fixed underlying type can hold every value of that
    type, and the gateway casts raw wire bytes into [Side], [OrderType] and
    [TimeInForce]: those three carry an extra constructor for a byte that
    names no enumerator. *)
From S2P Require Import Prelude.

Abbreviation OrderId := Z.
Abbreviation SecurityId := Z.
Abbreviation Quantity := Z.
Abbreviation Timestamp := Z.
Abbreviation ClOrdId := (list byte).

(** ** Price: mantissa * 10^-9 *)
Record Price := mkPrice { mantissa : Z }.

Definition INT64_MAX : Z := 2 ^ 63 - 1.
Definition NULL_VALUE : Z := INT64_MAX.
Definition Price_isNull (p : Price) : bool := mantissa p =? NULL_VALUE.
Definition Price_null : Price := mkPrice NULL_VALUE.

Definition Price_lt (a b : Price) : bool := mantissa a <? mantissa b.
Definition Price_gt (a b : Price) : bool := mantissa b <? mantissa a.
Definition Price_eq (a b : Price) : bool := mantissa a =? mantissa b.
Definition Price_ne (a b : Price) : bool := negb (mantissa a =? mantissa b).
Definition Price_le (a b : Price) : bool := mantissa a <=? mantissa b.
Definition Price_ge (a b : Price) : bool := mantissa b <=? mantissa a.
Definition Price_add (a b : Price) : Price := mkPrice (i64 (mantissa a + mantissa b)).
Definition Price_sub (a b : Price) : Price := mkPrice (i64 (mantissa a - mantissa b)).

#[export] Instance Price_eq_dec : EqDecision Price.
Proof. solve_decision. Defined.

Lemma Price_eq_true a b : Price_eq a b = true ↔ a = b.
Proof.
  unfold Price_eq. rewrite Z.eqb_eq. destruct a, b; simpl. split; [by intros -> | by intros [=]].
Qed.

(** ** Enumerations *)
Inductive Side := Buy | Sell | Side_raw (v : Z).
Inductive OrderType := Market | Limit | StopLimit | StopMarket | OrderType_raw (v : Z).
Inductive TimeInForce := Day | GTC | IOC | FOK | GTD | TimeInForce_raw (v : Z).
Inductive OrdStatus := New | PartiallyFilled | Filled | Canceled | Replaced | Rejected.
Inductive MDUpdateAction := MD_New | MD_Change | MD_Delete | MD_DeleteThru | MD_DeleteFrom | MD_Overlay.
Inductive MDEntryType := MDE_Bid | MDE_Offer | MDE_Trade.
Inductive SecurityTradingStatus := PreOpen | Open | Halt | Close.

#[export] Instance Side_eq_dec : EqDecision Side.
Proof. solve_decision. Defined.
#[export] Instance OrderType_eq_dec : EqDecision OrderType.
Proof. solve_decision. Defined.
#[export] Instance TimeInForce_eq_dec : EqDecision TimeInForce.
Proof. solve_decision. Defined.
#[export] Instance OrdStatus_eq_dec : EqDecision OrdStatus.
Proof. solve_decision. Defined.
#[export] Instance MDUpdateAction_eq_dec : EqDecision MDUpdateAction.
Proof. solve_decision. Defined.
#[export] Instance SecurityTradingStatus_eq_dec : EqDecision SecurityTradingStatus.
Proof. solve_decision. Defined.

(** [static_cast<E>(byte)] and [static_cast<uint8_t>(e)]. *)
Definition Side_of_u8 (v : Z) : Side :=
  if v =? 1 then Buy else if v =? 2 then Sell else Side_raw v.
Definition Side_to_u8 (s : Side) : Z :=
  match s with Buy => 1 | Sell => 2 | Side_raw v => v end.
Definition OrderType_of_u8 (v : Z) : OrderType :=
  if v =? 1 then Market else if v =? 2 then Limit
  else if v =? 3 then StopLimit else if v =? 4 then StopMarket else OrderType_raw v.
Definition OrderType_to_u8 (t : OrderType) : Z :=
  match t with Market => 1 | Limit => 2 | StopLimit => 3 | StopMarket => 4 | OrderType_raw v => v end.
Definition TimeInForce_of_u8 (v : Z) : TimeInForce :=
  if v =? 0 then Day else if v =? 1 then GTC else if v =? 3 then IOC
  else if v =? 4 then FOK else if v =? 6 then GTD else TimeInForce_raw v.
Definition TimeInForce_to_u8 (t : TimeInForce) : Z :=
  match t with Day => 0 | GTC => 1 | IOC => 3 | FOK => 4 | GTD => 6 | TimeInForce_raw v => v end.
Definition OrdStatus_to_u8 (s : OrdStatus) : Z :=
  match s with New => 0 | PartiallyFilled => 1 | Filled => 2 | Canceled => 4 | Replaced => 5 | Rejected => 8 end.
Definition MDUpdateAction_to_u8 (a : MDUpdateAction) : Z :=
  match a with
  | MD_New => 0 | MD_Change => 1 | MD_Delete => 2 | MD_DeleteThru => 3 | MD_DeleteFrom => 4 | MD_Overlay => 5
  end.
Definition MDEntryType_to_char (e : MDEntryType) : byte :=
  match e with MDE_Bid => Init.Byte.x30 | MDE_Offer => Init.Byte.x31 | MDE_Trade => Init.Byte.x32 end.
Definition SecurityTradingStatus_to_u8 (s : SecurityTradingStatus) : Z :=
  match s with PreOpen => 2 | Open => 17 | Halt => 18 | Close => 21 end.

(** [ExecType] has the values of its characters. *)
Inductive ExecType := Exec_New | Exec_Canceled | Exec_Replaced | Exec_Trade | Exec_Rejected.
Definition ExecType_to_char (e : ExecType) : byte :=
  match e with
  | Exec_New => Init.Byte.x30 | Exec_Canceled => Init.Byte.x34 | Exec_Replaced => Init.Byte.x35 | Exec_Trade => Init.Byte.x46
  | Exec_Rejected => Init.Byte.x38
  end.

(** Bits of [MatchEventIndicator] (a bit set carried in one byte). *)
Definition LastTradeMsg : Z := 0x01.
Definition LastVolumeMsg : Z := 0x02.
Definition LastQuoteMsg : Z := 0x04.
Definition LastStatsMsg : Z := 0x08.
Definition LastImpliedMsg : Z := 0x10.
Definition RecoveryMsg : Z := 0x20.
Definition EndOfEvent : Z := 0x80.
Definition MatchEventIndicator_or (a b : Z) : Z := u8 (Z.lor a b).
Definition MatchEventIndicator_and (a b : Z) : Z := u8 (Z.land a b).

Lemma Side_to_of_u8 v : Side_to_u8 (Side_of_u8 v) = v.
Proof. unfold Side_of_u8. repeat case_match; simpl; lia. Qed.
Lemma OrderType_to_of_u8 v : OrderType_to_u8 (OrderType_of_u8 v) = v.
Proof. unfold OrderType_of_u8. repeat case_match; simpl; lia. Qed.
Lemma TimeInForce_to_of_u8 v : TimeInForce_to_u8 (TimeInForce_of_u8 v) = v.
Proof. unfold TimeInForce_of_u8. repeat case_match; simpl; lia. Qed.
