(* ===== verification/Sbe.v ===== *)
(** * SBE framing and codec framework
    (src/sbe/message_header.h, src/sbe/framing.h, src/sbe/packet_header.h,
     src/common/endian_utils.h)

    The codecs of the source are sequences of [memcpy] between the fields of a
    struct and fixed offsets of a byte buffer, on a little-endian host. A
    [memcpy] outside its buffer is undefined in C++; here it is [None]. *)
From S2P Require Import Prelude.

(** ** memcpy *)

(** [memcpy(buf + o, src, n)]. *)
Definition memcpy_to (buf : buffer) (o : nat) (src : list byte) (n : nat) : option buffer :=
  if decide (n ≤ length src ∧ o + n ≤ length buf)%nat
  then Some (take o buf ++ take n src ++ drop (o + n) buf) else None.

(** Reading an integer or an array out of a buffer. *)
Definition rd_u (buf : buffer) (o n : nat) : option Z := le_combine <$> slice o n buf.
Definition rd_i (buf : buffer) (o n : nat) : option Z :=
  wraps (8 * Z.of_nat n) ∘ le_combine <$> slice o n buf.
Definition rd_c (buf : buffer) (o n : nat) : option (list byte) := slice o n buf.
Definition rd_b (buf : buffer) (o : nat) : option byte := slice o 1 buf ≫= head.

(** One [memcpy(b + off, src, n)] of an [encode] method. *)
Record cpy := Cpy { cpy_off : nat; cpy_src : list byte; cpy_len : nat }.
Definition put_u (o : nat) (z : Z) (n : nat) : cpy := Cpy o (le_split n z) n.
Definition put_i (o : nat) (z : Z) (n : nat) : cpy := Cpy o (le_split n z) n.
Definition put_c (o : nat) (s : list byte) (n : nat) : cpy := Cpy o s n.
Definition put_b (o : nat) (c : byte) : cpy := Cpy o [c] 1.

Fixpoint run_cpys (buf : buffer) (base : nat) (ws : list cpy) : option buffer :=
  match ws with
  | [] => Some buf
  | w :: ws => buf ← memcpy_to buf (base + cpy_off w) (cpy_src w) (cpy_len w); run_cpys buf base ws
  end.

(** ** endian_utils.h: byte swaps (the host is little-endian) *)
Definition bswap16 (v : Z) : Z := u16 (Z.lor (Z.shiftr v 8) (Z.shiftl v 8)).
Definition bswap32 (v : Z) : Z :=
  Z.lor (Z.lor (Z.shiftr (Z.land v 0xFF000000) 24) (Z.shiftr (Z.land v 0x00FF0000) 8))
        (Z.lor (Z.shiftl (Z.land v 0x0000FF00) 8) (Z.shiftl (Z.land v 0x000000FF) 24)).
Definition bswap64 (v : Z) : Z :=
  Z.lor (Z.lor (Z.lor (Z.shiftr (Z.land v 0xFF00000000000000) 56) (Z.shiftr (Z.land v 0x00FF000000000000) 40))
               (Z.lor (Z.shiftr (Z.land v 0x0000FF0000000000) 24) (Z.shiftr (Z.land v 0x000000FF00000000) 8)))
        (Z.lor (Z.lor (Z.shiftl (Z.land v 0x00000000FF000000) 8) (Z.shiftl (Z.land v 0x0000000000FF0000) 24))
               (Z.lor (Z.shiftl (Z.land v 0x000000000000FF00) 40) (Z.shiftl (Z.land v 0x00000000000000FF) 56))).
Definition native_to_big16 (v : Z) : Z := bswap16 v.
Definition native_to_big32 (v : Z) : Z := bswap32 v.
Definition native_to_big64 (v : Z) : Z := bswap64 v.
Definition big_to_native16 (v : Z) : Z := native_to_big16 v.
Definition big_to_native32 (v : Z) : Z := native_to_big32 v.
Definition big_to_native64 (v : Z) : Z := native_to_big64 v.
Definition native_to_little32 (v : Z) : Z := v.
Definition native_to_little64 (v : Z) : Z := v.

(** ** MessageHeader: blockLength, templateId, schemaId, version *)
Module MessageHeader.
Definition SIZE : nat := 8.
Definition ILINK3_SCHEMA_ID : Z := 8.
Definition ILINK3_VERSION : Z := 8.
Definition MDP3_SCHEMA_ID : Z := 1.
Definition MDP3_VERSION : Z := 9.

Definition encode (buf : buffer) (o : nat) (blockLength templateId schemaId version : Z) : option buffer :=
  run_cpys buf o [put_u 0 blockLength 2; put_u 2 templateId 2; put_u 4 schemaId 2; put_u 6 version 2].
Definition encodeILink3 (buf : buffer) (o : nat) (blockLength templateId : Z) : option buffer :=
  encode buf o blockLength templateId ILINK3_SCHEMA_ID ILINK3_VERSION.
Definition encodeMDP3 (buf : buffer) (o : nat) (blockLength templateId : Z) : option buffer :=
  encode buf o blockLength templateId MDP3_SCHEMA_ID MDP3_VERSION.

Definition decodeBlockLength (buf : buffer) (o : nat) : option Z := rd_u buf o 2.
Definition decodeTemplateId (buf : buffer) (o : nat) : option Z := rd_u buf (o + 2) 2.
Definition decodeSchemaId (buf : buffer) (o : nat) : option Z := rd_u buf (o + 4) 2.
Definition decodeVersion (buf : buffer) (o : nat) : option Z := rd_u buf (o + 6) 2.

(** The eight bytes [encode] writes. *)
Definition bytes (blockLength templateId schemaId version : Z) : list byte :=
  le_split 2 blockLength ++ le_split 2 templateId ++ le_split 2 schemaId ++ le_split 2 version.
End MessageHeader.

(** ** SOFH: big-endian length and encoding type in front of each TCP message *)
Module SOFH.
Definition SIZE : nat := 6.
Definition SBE_ENCODING_TYPE : Z := 0xCAFE.
Definition encode (buf : buffer) (o : nat) (message_length : Z) : option buffer :=
  run_cpys buf o [put_u 0 (native_to_big32 message_length) 4;
                  put_u 4 (native_to_big16 SBE_ENCODING_TYPE) 2].
Definition decodeMessageLength (buf : buffer) (o : nat) : option Z := big_to_native32 <$> rd_u buf o 4.
Definition decodeEncodingType (buf : buffer) (o : nat) : option Z := big_to_native16 <$> rd_u buf (o + 4) 2.
Definition isValidSBE (buf : buffer) (o : nat) : option bool :=
  (λ e, e =? SBE_ENCODING_TYPE) <$> decodeEncodingType buf o.
Definition framedLength (payload_length : Z) : Z := u32 (Z.of_nat SIZE + payload_length).
End SOFH.

(** ** PacketHeader: MDP 3.0 UDP packet header *)
Module PacketHeader.
Definition SIZE : nat := 12.
Definition encode (buf : buffer) (o : nat) (msgSeqNum sendingTime : Z) : option buffer :=
  run_cpys buf o [put_u 0 msgSeqNum 4; put_u 4 sendingTime 8].
Definition decodeMsgSeqNum (buf : buffer) (o : nat) : option Z := rd_u buf o 4.
Definition decodeSendingTime (buf : buffer) (o : nat) : option Z := rd_u buf (o + 4) 8.
End PacketHeader.

(** ** Packed layouts

    A list of copies is packed from [o] when each copy starts where the
    previous one ended and copies its whole source: no gap, no overlap. *)
Fixpoint packed (o : nat) (ws : list cpy) : Prop :=
  match ws with
  | [] => True
  | w :: ws => cpy_off w = o ∧ cpy_len w = length (cpy_src w) ∧ packed (o + length (cpy_src w)) ws
  end.

Fixpoint payload (ws : list cpy) : list byte :=
  match ws with [] => [] | w :: ws => cpy_src w ++ payload ws end.

Lemma memcpy_to_app pre mid post src n o :
  length mid = n → length src = n → o = length pre →
  memcpy_to (pre ++ mid ++ post) o src n = Some (pre ++ src ++ post).
Proof.
  intros Hm Hs ->. unfold memcpy_to.
  rewrite decide_True by (rewrite !length_app; lia).
  rewrite take_app_length, <-Hs, firstn_all. do 3 f_equal.
  replace (length pre + length src)%nat with (length (pre ++ mid)) by (rewrite length_app; lia).
  by rewrite app_assoc, drop_app_length.
Qed.

Lemma memcpy_to_oob buf o src n : (length buf < o + n)%nat → memcpy_to buf o src n = None.
Proof. intros. unfold memcpy_to. rewrite decide_False; [done | lia]. Qed.

Lemma run_cpys_packed ws : ∀ pre mid post base o,
  packed o ws → length mid = length (payload ws) → (base + o)%nat = length pre →
  run_cpys (pre ++ mid ++ post) base ws = Some (pre ++ payload ws ++ post).
Proof.
  induction ws as [|w ws IH]; intros pre mid post base o Hp Hl Hb; simpl in *.
  - by destruct mid.
  - destruct Hp as (Ho & Hn & Hp). rewrite length_app in Hl.
    rewrite <-(take_drop (length (cpy_src w)) mid), <-app_assoc.
    rewrite memcpy_to_app; [| rewrite length_take; lia | lia | lia]. simpl.
    rewrite app_assoc, (IH _ _ _ _ _ Hp).
    + by rewrite <-!app_assoc.
    + rewrite length_drop. lia.
    + rewrite length_app. lia.
Qed.

Lemma packed_elem ws w : ∀ o, packed o ws → w ∈ ws →
  cpy_len w = length (cpy_src w) ∧
  ∃ p q, payload ws = p ++ cpy_src w ++ q ∧ (o + length p)%nat = cpy_off w.
Proof.
  induction ws as [|w' ws IH]; intros o Hp; simpl in *; [by intros ?%elem_of_nil |].
  destruct Hp as (Ho & Hn & Hp).
  intros [<- | Hin]%elem_of_cons.
  - split; [done |]. exists [], (payload ws). simpl. split; [done | lia].
  - destruct (IH _ Hp Hin) as (Hl & p & q & Hpay & Hlen). split; [done |].
    exists (cpy_src w' ++ p), q. rewrite Hpay, <-app_assoc. split; [done |].
    rewrite length_app. lia.
Qed.

(** Reading back a field of a packed block that sits behind [pre]. *)
Lemma slice_packed ws w pre post :
  packed 0 ws → w ∈ ws →
  slice (length pre + cpy_off w) (cpy_len w) (pre ++ payload ws ++ post) = Some (cpy_src w).
Proof.
  intros Hp Hin. destruct (packed_elem _ _ _ Hp Hin) as (Hl & p & q & -> & Ho).
  rewrite <-!app_assoc, app_assoc. apply slice_app_eq; [| done]. rewrite length_app. lia.
Qed.

Section packed_reads.
Context (ws : list cpy) (pre post : list byte) (Hp : packed 0 ws) (base : nat) (Hb : base = length pre).

Lemma rd_u_packed o n z :
  put_u o z n ∈ ws → z ∈u (8 * Z.of_nat n) → rd_u (pre ++ payload ws ++ post) (base + o) n = Some z.
Proof.
  intros Hin Hz. unfold rd_u. subst base. rewrite (slice_packed ws (put_u o z n)) by done. simpl.
  by rewrite le_combine_split, (Z.mul_comm _ 8), Z.mod_small.
Qed.

Lemma rd_i_packed o n z :
  put_i o z n ∈ ws → (0 < n)%nat → z ∈i (8 * Z.of_nat n) →
  rd_i (pre ++ payload ws ++ post) (base + o) n = Some z.
Proof.
  intros Hin Hn Hz. unfold rd_i. subst base. rewrite (slice_packed ws (put_i o z n)) by done. simpl.
  by rewrite le_combine_split, (Z.mul_comm _ 8), wraps_of_range by lia.
Qed.

Lemma rd_c_packed o n s :
  put_c o s n ∈ ws → rd_c (pre ++ payload ws ++ post) (base + o) n = Some s.
Proof. intros Hin. unfold rd_c. subst base. by rewrite (slice_packed ws (put_c o s n)). Qed.

Lemma rd_b_packed o c :
  put_b o c ∈ ws → rd_b (pre ++ payload ws ++ post) (base + o) = Some c.
Proof. intros Hin. unfold rd_b. subst base. by rewrite (slice_packed ws (put_b o c)). Qed.
End packed_reads.

(** ** Codec interface

    What a message type promises to the code that sends, dispatches or decodes
    it: [encode] writes exactly [sbe_bytes m], of length [encodedLength m], and
    touches nothing else of the buffer; [decode] of those bytes is [m]. *)
Class SbeCodec (M : Type) := {
  sbe_template : Z;
  sbe_bytes : M → list byte;
  sbe_encode : M → buffer → nat → option (buffer * nat);
  sbe_decode : buffer → nat → option M;
  sbe_encodedLength : M → nat;
  sbe_wf : M → Prop;
}.

(** A message in a vector of its own: [std::vector<char> buf(msg.encodedLength(), 0);
    msg.encode(buf.data(), 0)]. *)
Definition encode_vec {M} `{SbeCodec M} (msg : M) : option buffer :=
  '(buf, _) ← sbe_encode msg (replicate (sbe_encodedLength msg) Init.Byte.x00) 0; Some buf.

Class SbeCodecOk (M : Type) `{SbeCodec M} : Prop := {
  sbe_bytes_length m : sbe_wf m → length (sbe_bytes m) = sbe_encodedLength m;
  sbe_encode_spec m pre mid post :
    sbe_wf m → length mid = sbe_encodedLength m →
    sbe_encode m (pre ++ mid ++ post) (length pre) =
      Some (pre ++ sbe_bytes m ++ post, sbe_encodedLength m);
  sbe_decode_spec m pre post :
    sbe_wf m → sbe_decode (pre ++ sbe_bytes m ++ post) (length pre) = Some m;
  sbe_template_spec m pre post :
    sbe_wf m → MessageHeader.decodeTemplateId (pre ++ sbe_bytes m ++ post) (length pre) = Some sbe_template;
}.

(** *** Messages with a header and one fixed block *)
Definition header_cpys (bl tid sch ver : Z) : list cpy :=
  [put_u 0 bl 2; put_u 2 tid 2; put_u 4 sch 2; put_u 6 ver 2].

Lemma header_packed bl tid sch ver : packed 0 (header_cpys bl tid sch ver).
Proof. by repeat split. Qed.

Lemma header_payload bl tid sch ver :
  payload (header_cpys bl tid sch ver) = MessageHeader.bytes bl tid sch ver.
Proof. done. Qed.

Lemma header_length bl tid sch ver : length (MessageHeader.bytes bl tid sch ver) = 8%nat.
Proof. done. Qed.

Lemma header_encode bl tid sch ver pre mid post :
  length mid = 8%nat →
  MessageHeader.encode (pre ++ mid ++ post) (length pre) bl tid sch ver =
    Some (pre ++ MessageHeader.bytes bl tid sch ver ++ post).
Proof.
  intros Hm. unfold MessageHeader.encode. rewrite <-header_payload.
  apply (run_cpys_packed _ _ _ _ _ 0 (header_packed bl tid sch ver)); [| lia].
  by rewrite header_payload, header_length.
Qed.

Lemma header_template bl tid sch ver pre post :
  tid ∈u 16 →
  MessageHeader.decodeTemplateId (pre ++ MessageHeader.bytes bl tid sch ver ++ post) (length pre) = Some tid.
Proof.
  intros. unfold MessageHeader.decodeTemplateId. rewrite <-header_payload.
  apply (rd_u_packed _ _ _ (header_packed bl tid sch ver) _ eq_refl); [| done].
  by do 2 constructor.
Qed.

(** Header followed by a packed block of [bl] bytes: the common shape of
    every [encode]. *)
Lemma block_encode bl tid sch ver ws pre mid post :
  packed 0 ws → length mid = (8 + length (payload ws))%nat →
  (buf ← MessageHeader.encode (pre ++ mid ++ post) (length pre) bl tid sch ver;
   run_cpys buf (length pre + MessageHeader.SIZE) ws) =
  Some (pre ++ (MessageHeader.bytes bl tid sch ver ++ payload ws) ++ post).
Proof.
  intros Hp Hm. rewrite <-(take_drop 8 mid), <-!app_assoc.
  rewrite header_encode by (rewrite length_take; lia). cbn [mbind option_bind].
  rewrite (app_assoc pre).
  rewrite (run_cpys_packed ws _ _ _ _ 0 Hp).
  - by rewrite <-!app_assoc.
  - rewrite length_drop. lia.
  - rewrite length_app, header_length. unfold MessageHeader.SIZE. lia.
Qed.

(** The laws of a codec made of a header and one packed block follow from
    three facts about its list of copies and its [decode]. *)
Section flat_codec.
Context {M : Type} (wf : M → Prop) (fields : M → list cpy) (bl tid sch ver : Z).
Context (dec : buffer → nat → option M).
Context (Htid : tid ∈u 16).
Context (Hpacked : ∀ m, wf m → packed 0 (fields m)).
Context (Hlen : ∀ m, wf m → length (payload (fields m)) = Z.to_nat bl).
Context (Hdec : ∀ m pre post base, wf m → length pre = (base + MessageHeader.SIZE)%nat →
  packed 0 (fields m) → dec (pre ++ payload (fields m) ++ post) base = Some m).

Let flat_bytes (m : M) : list byte := MessageHeader.bytes bl tid sch ver ++ payload (fields m).

Lemma flat_bytes_length m : wf m → length (flat_bytes m) = (MessageHeader.SIZE + Z.to_nat bl)%nat.
Proof using Hlen. intros Hw. unfold flat_bytes. by rewrite length_app, header_length, Hlen. Qed.

Lemma flat_encode m pre mid post :
  wf m → length mid = (MessageHeader.SIZE + Z.to_nat bl)%nat →
  (buf ← MessageHeader.encode (pre ++ mid ++ post) (length pre) bl tid sch ver;
   buf ← run_cpys buf (length pre + MessageHeader.SIZE) (fields m);
   Some (buf, (MessageHeader.SIZE + Z.to_nat bl)%nat)) =
  Some (pre ++ flat_bytes m ++ post, (MessageHeader.SIZE + Z.to_nat bl)%nat).
Proof using Hpacked Hlen.
  intros Hw Hm. pose proof (block_encode bl tid sch ver (fields m) pre mid post (Hpacked m Hw)) as E.
  rewrite Hlen in E by done. specialize (E Hm). simpl in E.
  destruct (MessageHeader.encode _ _ _ _ _ _); simpl in *; [| done]. by rewrite E.
Qed.

Lemma flat_decode m pre post :
  wf m → dec (pre ++ flat_bytes m ++ post) (length pre) = Some m.
Proof using Hpacked Hdec.
  intros Hw. unfold flat_bytes. rewrite <-app_assoc, app_assoc.
  apply Hdec; auto. rewrite length_app. by rewrite header_length.
Qed.

Lemma flat_template m pre post :
  MessageHeader.decodeTemplateId (pre ++ flat_bytes m ++ post) (length pre) = Some tid.
Proof using Htid. unfold flat_bytes. rewrite <-app_assoc. by apply header_template. Qed.
End flat_codec.

(** Reads the fields back one by one with the packed-block lemmas; the [k]-th
    read is the [k]-th copy. *)
Ltac rd_step k Hp Hb :=
  let mem := (apply (list_elem_of_lookup_2 _ k); reflexivity) in
  match goal with
  | |- mbind _ (rd_u _ (?b + ?o) ?n) = _ =>
      eapply bind_step; [apply (rd_u_packed _ _ _ Hp b Hb o n); [mem | split; assumption] |]
  | |- mbind _ (rd_i _ (?b + ?o) ?n) = _ =>
      eapply bind_step; [apply (rd_i_packed _ _ _ Hp b Hb o n); [mem | lia | split; assumption] |]
  | |- mbind _ (rd_c _ (?b + ?o) ?n) = _ =>
      eapply bind_step; [apply (rd_c_packed _ _ _ Hp b Hb o n); mem |]
  | |- mbind _ (rd_b _ (?b + ?o)) = _ =>
      eapply bind_step; [apply (rd_b_packed _ _ _ Hp b Hb o); mem |]
  end; cbv beta.
Ltac rd_steps k Hp Hb := tryif rd_step k Hp Hb then rd_steps (S k) Hp Hb else idtac.

(** Packed layout of a literal list of copies whose array lengths are hypotheses. *)
Ltac solve_packed fields :=
  unfold fields; cbn [packed put_u put_i put_c put_b cpy_off cpy_src cpy_len length];
  rewrite ?length_le_split;
  repeat match goal with E : length _ = _ |- _ => rewrite E end; by repeat split.

Ltac solve_payload_length fields :=
  unfold fields; cbn [payload put_u put_i put_c put_b cpy_off cpy_src cpy_len];
  rewrite ?length_app, ?length_le_split;
  repeat match goal with E : length _ = _ |- _ => rewrite E end; reflexivity.

(** Discharges [SbeCodecOk] of a flat message. *)
Ltac flat_codec fields decode wf :=
  assert (∀ m, wf m → packed 0 (fields m)) as Hpk
    by (intros m Hw; unfold wf in Hw; destruct_and?; solve_packed fields);
  split; [ intros m Hw; apply (flat_bytes_length wf); [| exact Hw]
         | intros m pre mid post Hw Hm; apply (flat_encode wf _ _ _ _ _ Hpk); [| exact Hw | exact Hm]
         | intros m pre post Hw; apply (flat_decode wf _ _ _ _ _ decode Hpk); [| exact Hw]
         | intros m pre post Hw; by apply flat_template ];
  [ intros m' Hw'; unfold wf in Hw'; destruct_and?; solve_payload_length fields ..
  | intros m' pre' post' base Hw' Hb Hp; unfold wf in Hw'; destruct_and?; unfold decode;
    symmetry in Hb; rd_steps 0%nat Hp Hb; by destruct m' ].

(** *** Repeating groups (MDP 3.0) *)
Module GroupSize.
Definition SIZE : nat := 3.
Definition encode (buf : buffer) (o : nat) (blockLength numInGroup : Z) : option buffer :=
  run_cpys buf o [put_u 0 blockLength 2; put_u 2 numInGroup 1].
Definition decodeBlockLength (buf : buffer) (o : nat) : option Z := rd_u buf o 2.
Definition decodeNumInGroup (buf : buffer) (o : nat) : option Z := rd_u buf (o + 2) 1.
Definition bytes (blockLength numInGroup : Z) : list byte := le_split 2 blockLength ++ le_split 1 numInGroup.
End GroupSize.

(** [for (const auto& e : entries) { memcpy(b + pos + .., ..); pos += ebl; }] *)
Fixpoint encode_entries {E} (efields : E → list cpy) (ebl : nat) (buf : buffer) (b pos : nat) (es : list E)
    : option (buffer * nat) :=
  match es with
  | [] => Some (buf, pos)
  | e :: es =>
      buf ← run_cpys buf (b + pos) (efields e);
      encode_entries efields ebl buf b (pos + ebl) es
  end.

(** [for (i = 0; i < num; ++i) { memcpy(&entries[i]..., b + pos + ..); pos += blockLen; }] *)
Fixpoint decode_entries {E} (edec : buffer → nat → option E) (num : nat) (ebl : nat) (buf : buffer) (b pos : nat)
    : option (list E * nat) :=
  match num with
  | O => Some ([], pos)
  | S num =>
      e ← edec buf (b + pos)%nat;
      '(es, pos) ← decode_entries edec num ebl buf b (pos + ebl);
      Some (e :: es, pos)
  end.

(** A whole group: size header, then the entries. *)
Definition encode_group {E} (efields : E → list cpy) (ebl : Z) (buf : buffer) (b pos : nat) (es : list E)
    : option (buffer * nat) :=
  buf ← GroupSize.encode buf (b + pos) ebl (u8 (Z.of_nat (length es)));
  encode_entries efields (Z.to_nat ebl) buf b (pos + GroupSize.SIZE) es.

Definition decode_group {E} (edec : buffer → nat → option E) (buf : buffer) (b pos : nat)
    : option (list E * nat) :=
  entryBlockLen ← GroupSize.decodeBlockLength buf (b + pos);
  numEntries ← GroupSize.decodeNumInGroup buf (b + pos);
  decode_entries edec (Z.to_nat numEntries) (Z.to_nat entryBlockLen) buf b (pos + GroupSize.SIZE).

(** [SIZE + entries.size() * ENTRY_BLOCK_LENGTH] *)
Definition group_length {E} (ebl : Z) (es : list E) : nat := (GroupSize.SIZE + length es * Z.to_nat ebl)%nat.

Lemma group_size_length bl n : length (GroupSize.bytes bl n) = 3%nat.
Proof. done. Qed.

Section groups.
Context {E : Type} (ewf : E → Prop) (efields : E → list cpy) (edec : buffer → nat → option E) (ebl : Z).
Context (Hpacked : ∀ e, ewf e → packed 0 (efields e)).
Context (Hlen : ∀ e, ewf e → length (payload (efields e)) = Z.to_nat ebl).
Context (Hdec : ∀ e pre post base, ewf e → length pre = base → packed 0 (efields e) →
  edec (pre ++ payload (efields e) ++ post) base = Some e).
Context (Hebl : ebl ∈u 16).

Definition entries_bytes (es : list E) : list byte := concat (map (payload ∘ efields) es).
Definition group_bytes (es : list E) : list byte :=
  GroupSize.bytes ebl (u8 (Z.of_nat (length es))) ++ entries_bytes es.

Lemma entries_bytes_length es : Forall ewf es → length (entries_bytes es) = (length es * Z.to_nat ebl)%nat.
Proof using Hlen.
  induction 1 as [|e es He Hes IH]; [done |]. unfold entries_bytes in *. simpl.
  rewrite length_app, Hlen, IH by done. lia.
Qed.

Lemma group_bytes_length es : Forall ewf es → length (group_bytes es) = group_length ebl es.
Proof using Hlen. intros. unfold group_bytes. by rewrite length_app, entries_bytes_length. Qed.

Lemma encode_entries_spec b es : ∀ pre mid post pos,
  Forall ewf es → length mid = (length es * Z.to_nat ebl)%nat → length pre = (b + pos)%nat →
  encode_entries efields (Z.to_nat ebl) (pre ++ mid ++ post) b pos es =
    Some (pre ++ entries_bytes es ++ post, (pos + length es * Z.to_nat ebl)%nat).
Proof using Hpacked Hlen.
  induction es as [|e es IH]; intros pre mid post pos Hw Hm Hp; simpl in *.
  - destruct mid; [| done]. by rewrite Nat.add_0_r.
  - inversion_clear Hw as [| ? ? He Hes].
    rewrite <-(take_drop (Z.to_nat ebl) mid), <-app_assoc.
    rewrite (run_cpys_packed _ _ _ _ _ 0 (Hpacked e He)); [| rewrite length_take, Hlen by done; lia | lia].
    cbn [mbind option_bind]. rewrite app_assoc, IH.
    + unfold entries_bytes. simpl. rewrite <-!app_assoc. do 2 f_equal. lia.
    + done.
    + rewrite length_drop. lia.
    + rewrite length_app, Hlen by done. lia.
Qed.

Lemma decode_entries_spec b es : ∀ pre post pos,
  Forall ewf es → length pre = (b + pos)%nat →
  decode_entries edec (length es) (Z.to_nat ebl) (pre ++ entries_bytes es ++ post) b pos =
    Some (es, (pos + length es * Z.to_nat ebl)%nat).
Proof using Hpacked Hlen Hdec.
  induction es as [|e es IH]; intros pre post pos Hw Hp; simpl.
  - by rewrite Nat.add_0_r.
  - inversion_clear Hw as [| ? ? He Hes].
    unfold entries_bytes. cbn [map concat]. rewrite <-app_assoc.
    eapply bind_step; [apply Hdec; auto |]. cbn beta.
    rewrite app_assoc. change (concat _) with (entries_bytes es).
    rewrite IH; [| done | rewrite length_app; cbn; rewrite Hlen by done; lia].
    cbn. do 2 f_equal. lia.
Qed.

Lemma group_size_packed n : packed 0 [put_u 0 ebl 2; put_u 2 n 1].
Proof using. by repeat split. Qed.

Lemma encode_group_spec b pos es pre mid post :
  Forall ewf es → length mid = group_length ebl es → length pre = (b + pos)%nat →
  encode_group efields ebl (pre ++ mid ++ post) b pos es =
    Some (pre ++ group_bytes es ++ post, (pos + group_length ebl es)%nat).
Proof using Hpacked Hlen.
  intros Hw Hm Hp. unfold group_length, GroupSize.SIZE in Hm. unfold encode_group, GroupSize.encode.
  rewrite <-(take_drop 3 mid), <-app_assoc.
  rewrite (run_cpys_packed _ _ _ _ _ 0 (group_size_packed _)); [| rewrite length_take; change (length (payload _)) with 3%nat; lia | lia].
  cbn [mbind option_bind].
  change (payload _) with (GroupSize.bytes ebl (u8 (Z.of_nat (length es)))).
  rewrite app_assoc, encode_entries_spec; [| done | rewrite length_drop; lia | rewrite length_app, group_size_length; unfold GroupSize.SIZE; lia].
  unfold group_bytes, group_length, GroupSize.SIZE. rewrite <-!app_assoc. do 2 f_equal. lia.
Qed.

Lemma decode_group_spec b pos es pre post :
  Forall ewf es → (length es < 256)%nat → length pre = (b + pos)%nat →
  decode_group edec (pre ++ group_bytes es ++ post) b pos = Some (es, (pos + group_length ebl es)%nat).
Proof using Hpacked Hlen Hdec Hebl.
  intros Hw Hn Hp. unfold decode_group, group_bytes.
  set (n := u8 (Z.of_nat (length es))).
  assert (n = Z.of_nat (length es)) as En by (apply wrapu_small; lia).
  change (GroupSize.bytes ebl n) with (payload [put_u 0 ebl 2; put_u 2 n 1]). rewrite <-app_assoc.
  unfold GroupSize.decodeBlockLength, GroupSize.decodeNumInGroup.
  eapply bind_step.
  { replace (b + pos)%nat with (b + pos + 0)%nat by lia.
    apply (rd_u_packed _ _ _ (group_size_packed n) _ (eq_sym Hp) 0 2); [by constructor | done]. }
  eapply bind_step.
  { apply (rd_u_packed _ _ _ (group_size_packed n) _ (eq_sym Hp) 2 1); [by do 2 constructor | cbn; lia]. }
  cbv beta. rewrite En, Nat2Z.id, app_assoc, decode_entries_spec;
    [| done | rewrite length_app; change (length (payload _)) with 3%nat; unfold GroupSize.SIZE; lia].
  unfold group_length, GroupSize.SIZE. do 2 f_equal. lia.
Qed.
End groups.

(** Messages made of a header, a packed root block and one or two groups. *)
Section group_messages.
Context (bl tid sch ver : Z).

Lemma root_encode ws pre mid post :
  packed 0 ws → length (payload ws) = Z.to_nat bl → (MessageHeader.SIZE + Z.to_nat bl ≤ length mid)%nat →
  (buf ← MessageHeader.encode (pre ++ mid ++ post) (length pre) bl tid sch ver;
   run_cpys buf (length pre + MessageHeader.SIZE) ws) =
  Some ((pre ++ MessageHeader.bytes bl tid sch ver ++ payload ws) ++
        drop (MessageHeader.SIZE + Z.to_nat bl) mid ++ post).
Proof.
  intros Hp Hl Hm. set (n := (MessageHeader.SIZE + Z.to_nat bl)%nat) in *.
  rewrite <-(take_drop n mid) at 1. rewrite <-(app_assoc (take n mid)).
  rewrite block_encode; [by rewrite <-!app_assoc | done |].
  rewrite length_take, Hl. unfold n, MessageHeader.SIZE in *. lia.
Qed.

Section one_group.
Context {E1} (wf1 : E1 → Prop) (f1 : E1 → list cpy) (ebl1 : Z).
Context (Hp1 : ∀ e, wf1 e → packed 0 (f1 e)) (Hl1 : ∀ e, wf1 e → length (payload (f1 e)) = Z.to_nat ebl1).

Lemma one_group_encode ws es pre mid post :
  packed 0 ws → length (payload ws) = Z.to_nat bl → Forall wf1 es →
  length mid = (MessageHeader.SIZE + Z.to_nat bl + group_length ebl1 es)%nat →
  (buf ← MessageHeader.encode (pre ++ mid ++ post) (length pre) bl tid sch ver;
   buf ← run_cpys buf (length pre + MessageHeader.SIZE) ws;
   '(buf, pos) ← encode_group f1 ebl1 buf (length pre + MessageHeader.SIZE) (Z.to_nat bl) es;
   Some (buf, (MessageHeader.SIZE + pos)%nat)) =
  Some (pre ++ (MessageHeader.bytes bl tid sch ver ++ payload ws ++ group_bytes f1 ebl1 es) ++ post,
        (MessageHeader.SIZE + Z.to_nat bl + group_length ebl1 es)%nat).
Proof using Hp1 Hl1.
  intros Hp Hl Hw Hm. pose proof (root_encode ws pre mid post Hp Hl ltac:(lia)) as R.
  destruct (MessageHeader.encode _ _ _ _ _ _) as [buf|]; cbn [mbind option_bind] in *; [| done].
  rewrite R. cbn [mbind option_bind].
  rewrite (encode_group_spec wf1 f1 ebl1); [| done | done | done | rewrite length_drop; lia |].
  - cbn. rewrite <-!app_assoc. do 2 f_equal.
  - rewrite !length_app, header_length, Hl. unfold MessageHeader.SIZE. lia.
Qed.

Context {E2} (wf2 : E2 → Prop) (f2 : E2 → list cpy) (ebl2 : Z).
Context (Hp2 : ∀ e, wf2 e → packed 0 (f2 e)) (Hl2 : ∀ e, wf2 e → length (payload (f2 e)) = Z.to_nat ebl2).

Lemma two_group_encode ws es1 es2 pre mid post :
  packed 0 ws → length (payload ws) = Z.to_nat bl → Forall wf1 es1 → Forall wf2 es2 →
  length mid = (MessageHeader.SIZE + Z.to_nat bl + group_length ebl1 es1 + group_length ebl2 es2)%nat →
  (buf ← MessageHeader.encode (pre ++ mid ++ post) (length pre) bl tid sch ver;
   buf ← run_cpys buf (length pre + MessageHeader.SIZE) ws;
   '(buf, pos) ← encode_group f1 ebl1 buf (length pre + MessageHeader.SIZE) (Z.to_nat bl) es1;
   '(buf, pos) ← encode_group f2 ebl2 buf (length pre + MessageHeader.SIZE) pos es2;
   Some (buf, (MessageHeader.SIZE + pos)%nat)) =
  Some (pre ++ (MessageHeader.bytes bl tid sch ver ++ payload ws ++
                group_bytes f1 ebl1 es1 ++ group_bytes f2 ebl2 es2) ++ post,
        (MessageHeader.SIZE + Z.to_nat bl + group_length ebl1 es1 + group_length ebl2 es2)%nat).
Proof using Hp1 Hl1 Hp2 Hl2.
  intros Hp Hl Hw1 Hw2 Hm. pose proof (root_encode ws pre mid post Hp Hl ltac:(lia)) as R.
  destruct (MessageHeader.encode _ _ _ _ _ _) as [buf|]; cbn [mbind option_bind] in *; [| done].
  rewrite R. cbn [mbind option_bind].
  set (mid' := drop _ mid). assert (length mid' = group_length ebl1 es1 + group_length ebl2 es2)%nat as Hm'.
  { unfold mid'. rewrite length_drop. lia. }
  rewrite <-(take_drop (group_length ebl1 es1) mid'), <-(app_assoc (take _ mid')).
  rewrite (encode_group_spec wf1 f1 ebl1); [| done | done | done | rewrite length_take; lia |].
  2: { rewrite !length_app, header_length, Hl. unfold MessageHeader.SIZE. lia. }
  cbn [mbind option_bind]. rewrite app_assoc.
  rewrite (encode_group_spec wf2 f2 ebl2); [| done | done | done | rewrite length_drop; lia |].
  - cbn. rewrite <-!app_assoc. do 2 f_equal.
  - rewrite !length_app, header_length, Hl, (group_bytes_length wf1) by done. unfold MessageHeader.SIZE. lia.
Qed.
End one_group.
End group_messages.

(** ** Bounds of [decode]

    A flat message's [decode] stays inside the buffer exactly when the buffer
    holds the header and the whole block. None of the [decode] methods checks
    this. *)
Class SbeBounds (M : Type) `{SbeCodec M} := {
  sbe_block : nat;
  sbe_decode_bounds buf o : is_Some (sbe_decode buf o) ↔ (o + MessageHeader.SIZE + sbe_block ≤ length buf)%nat;
}.

Lemma bind_is_Some {A B} (x : option A) (k : A → option B) :
  is_Some (x ≫= k) ↔ ∃ v, x = Some v ∧ is_Some (k v).
Proof. destruct x; simpl; naive_solver. Qed.

Lemma slice_is_Some {A} o n (b : list A) : is_Some (slice o n b) ↔ (o + n ≤ length b)%nat.
Proof. unfold slice. case_decide; split; intros; [lia | by eexists | by destruct H0 | lia]. Qed.

Lemma rd_u_is_Some buf o n : is_Some (rd_u buf o n) ↔ (o + n ≤ length buf)%nat.
Proof. unfold rd_u. by rewrite fmap_is_Some, slice_is_Some. Qed.
Lemma rd_i_is_Some buf o n : is_Some (rd_i buf o n) ↔ (o + n ≤ length buf)%nat.
Proof. unfold rd_i. by rewrite fmap_is_Some, slice_is_Some. Qed.
Lemma rd_c_is_Some buf o n : is_Some (rd_c buf o n) ↔ (o + n ≤ length buf)%nat.
Proof. apply slice_is_Some. Qed.
Lemma rd_b_is_Some buf o : is_Some (rd_b buf o) ↔ (o + 1 ≤ length buf)%nat.
Proof.
  unfold rd_b. rewrite bind_is_Some, <-slice_is_Some. split.
  - intros (v & -> & _). by eexists.
  - intros [v Hv]. exists v. split; [done |]. apply slice_length in Hv. destruct v; [done | by eexists].
Qed.

Lemma bind_some_intro {A B} (x : option A) (k : A → option B) :
  is_Some x → (∀ v, is_Some (k v)) → is_Some (x ≫= k).
Proof. intros [v ->] Hk. apply Hk. Qed.

Lemma bind_some_elim {A B} (x : option A) (k : A → option B) (P : Prop) :
  (is_Some x → ∀ v, is_Some (k v) → P) → is_Some (x ≫= k) → P.
Proof. destruct x; simpl; [eauto | by intros _ [? ?]]. Qed.

Ltac rd_bound :=
  first [apply rd_u_is_Some | apply rd_i_is_Some | apply rd_c_is_Some | apply rd_b_is_Some];
  unfold MessageHeader.SIZE in *; lia.

(** Discharges [sbe_decode_bounds] of a flat message of [n] bytes. *)
Ltac flat_bounds decode bl :=
  intros buf o; cbn [sbe_decode]; unfold decode; change (Z.to_nat bl) with (Z.to_nat bl);
  let n := eval compute in (Z.to_nat bl) in change (Z.to_nat bl) with n;
  split;
  [ repeat (let H := fresh "Hr" in apply bind_some_elim; intros H ?);
    intros _;
    match goal with Hr : is_Some _ |- _ =>
      first [rewrite rd_u_is_Some in Hr | rewrite rd_i_is_Some in Hr
            | rewrite rd_c_is_Some in Hr | rewrite rd_b_is_Some in Hr]
    end; unfold MessageHeader.SIZE in *; lia
  | intros Hl; repeat (apply bind_some_intro; [rd_bound | intros ?]); by eexists ].

(** What is read from [n] bytes fits [8 n] bits. *)
Lemma rd_u_range buf o n z : rd_u buf o n = Some z → z ∈u (8 * Z.of_nat n).
Proof.
  unfold rd_u. intros (s & Hs & ->)%fmap_Some. apply slice_length in Hs as <-.
  apply LittleEndianList.le_combine_bound.
Qed.
