(* ===== verification/ILink3.v ===== *)
(** * iLink 3 messages (src/sbe/ilink3_messages.h)

    One module per message struct: the struct as a record, its default member
    values, [encode] and [decode] as the copies the source performs (offsets
    and lengths are listed separately in the two, as there), [encodedLength],
    the range of every field ([wf]), and the codec laws. *)
From S2P Require Import Prelude Sbe.

(** Fixed-size string fields. [src] is a C string: the copy stops at its
    terminating zero, which the argument does not contain. *)
Fixpoint c_str (src : list byte) : list byte :=
  match src with
  | [] => []
  | c :: src => if decide (c = Init.Byte.x00) then [] else c :: c_str src
  end.
Definition writeFixedString (src : list byte) (len : nat) : list byte :=
  let s := take len (c_str src) in s ++ replicate (len - length s) Init.Byte.x00.
(** [readFixedString] copies [len] bytes and terminates them; the callers
    build a [std::string] from the resulting C string. *)
Definition readFixedString (src : list byte) (len : nat) : list byte := c_str (take len src).

(** ** Negotiate500 (template 500) *)
Module Negotiate500.
Definition TEMPLATE_ID : Z := 500.
Definition BLOCK_LENGTH : Z := 76.
Definition ACTUAL_BLOCK_LENGTH : Z := 85.
Record t := mk {
  hmacSignature : list byte;
  accessKeyID : list byte;
  uuid : Z;
  sendingTime : Z;
  session : list byte;
  firm : list byte;
  cancelOnDisconnectIndicator : Z;
  cancelOnRejectConID : Z;
}.

Definition init : t :=
  mk (replicate 32 Init.Byte.x00) (replicate 20 Init.Byte.x00) 0 0 (replicate 3 Init.Byte.x00) (replicate 5 Init.Byte.x00) 0 0.

Definition fields (m : t) : list cpy :=
  [put_c 0 (m.(hmacSignature)) 32;
   put_c 32 (m.(accessKeyID)) 20;
   put_u 52 (m.(uuid)) 8;
   put_u 60 (m.(sendingTime)) 8;
   put_c 68 (m.(session)) 3;
   put_c 71 (m.(firm)) 5;
   put_u 76 (m.(cancelOnDisconnectIndicator)) 1;
   put_u 77 (m.(cancelOnRejectConID)) 8].

Definition encode (m : t) (buf : buffer) (offset : nat) : option (buffer * nat) :=
  buf ← MessageHeader.encodeILink3 buf offset ACTUAL_BLOCK_LENGTH TEMPLATE_ID;
  buf ← run_cpys buf (offset + MessageHeader.SIZE) (fields m);
  Some (buf, (MessageHeader.SIZE + Z.to_nat ACTUAL_BLOCK_LENGTH)%nat).

Definition decode (buf : buffer) (offset : nat) : option t :=
  let b := (offset + MessageHeader.SIZE)%nat in
  hmacSignature ← rd_c buf (b + 0) 32;
  accessKeyID ← rd_c buf (b + 32) 20;
  uuid ← rd_u buf (b + 52) 8;
  sendingTime ← rd_u buf (b + 60) 8;
  session ← rd_c buf (b + 68) 3;
  firm ← rd_c buf (b + 71) 5;
  cancelOnDisconnectIndicator ← rd_u buf (b + 76) 1;
  cancelOnRejectConID ← rd_u buf (b + 77) 8;
  Some (mk hmacSignature accessKeyID uuid sendingTime session firm cancelOnDisconnectIndicator cancelOnRejectConID).

Definition encodedLength (m : t) : nat := (MessageHeader.SIZE + Z.to_nat ACTUAL_BLOCK_LENGTH)%nat.

(** Every field holds a value of its C++ type. *)
Definition wf (m : t) : Prop :=
  length m.(hmacSignature) = 32%nat ∧
  length m.(accessKeyID) = 20%nat ∧
  m.(uuid) ∈u 64 ∧
  m.(sendingTime) ∈u 64 ∧
  length m.(session) = 3%nat ∧
  length m.(firm) = 5%nat ∧
  m.(cancelOnDisconnectIndicator) ∈u 8 ∧
  m.(cancelOnRejectConID) ∈u 64.

Definition bytes (m : t) : list byte :=
  MessageHeader.bytes ACTUAL_BLOCK_LENGTH TEMPLATE_ID MessageHeader.ILINK3_SCHEMA_ID MessageHeader.ILINK3_VERSION ++ payload (fields m).

#[global] Instance codec : SbeCodec t := {|
  sbe_template := TEMPLATE_ID; sbe_bytes := bytes; sbe_encode := encode;
  sbe_decode := decode; sbe_encodedLength := encodedLength; sbe_wf := wf |}.

#[global] Instance codec_ok : SbeCodecOk t.
Proof. flat_codec fields decode wf. Qed.

#[global] Instance bounds : SbeBounds t.
Proof. exists (Z.to_nat ACTUAL_BLOCK_LENGTH). flat_bounds decode ACTUAL_BLOCK_LENGTH. Defined.
End Negotiate500.

(** ** NegotiationResponse501 (template 501) *)
Module NegotiationResponse501.
Definition TEMPLATE_ID : Z := 501.
Definition BLOCK_LENGTH : Z := 32.
Record t := mk {
  uuid : Z;
  requestTimestamp : Z;
  secretKeySecureIDExpiration : Z;
  faultToleranceIndicator : Z;
  splitMsg : Z;
  previousSeqNo : Z;
  previousUUID : Z;
}.

Definition init : t :=
  mk 0 0 0 0 0 0 0.

Definition fields (m : t) : list cpy :=
  [put_u 0 (m.(uuid)) 8;
   put_u 8 (m.(requestTimestamp)) 8;
   put_u 16 (m.(secretKeySecureIDExpiration)) 2;
   put_u 18 (m.(faultToleranceIndicator)) 1;
   put_u 19 (m.(splitMsg)) 1;
   put_u 20 (m.(previousSeqNo)) 4;
   put_u 24 (m.(previousUUID)) 8].

Definition encode (m : t) (buf : buffer) (offset : nat) : option (buffer * nat) :=
  buf ← MessageHeader.encodeILink3 buf offset BLOCK_LENGTH TEMPLATE_ID;
  buf ← run_cpys buf (offset + MessageHeader.SIZE) (fields m);
  Some (buf, (MessageHeader.SIZE + Z.to_nat BLOCK_LENGTH)%nat).

Definition decode (buf : buffer) (offset : nat) : option t :=
  let b := (offset + MessageHeader.SIZE)%nat in
  uuid ← rd_u buf (b + 0) 8;
  requestTimestamp ← rd_u buf (b + 8) 8;
  secretKeySecureIDExpiration ← rd_u buf (b + 16) 2;
  faultToleranceIndicator ← rd_u buf (b + 18) 1;
  splitMsg ← rd_u buf (b + 19) 1;
  previousSeqNo ← rd_u buf (b + 20) 4;
  previousUUID ← rd_u buf (b + 24) 8;
  Some (mk uuid requestTimestamp secretKeySecureIDExpiration faultToleranceIndicator splitMsg previousSeqNo previousUUID).

Definition encodedLength (m : t) : nat := (MessageHeader.SIZE + Z.to_nat BLOCK_LENGTH)%nat.

(** Every field holds a value of its C++ type. *)
Definition wf (m : t) : Prop :=
  m.(uuid) ∈u 64 ∧
  m.(requestTimestamp) ∈u 64 ∧
  m.(secretKeySecureIDExpiration) ∈u 16 ∧
  m.(faultToleranceIndicator) ∈u 8 ∧
  m.(splitMsg) ∈u 8 ∧
  m.(previousSeqNo) ∈u 32 ∧
  m.(previousUUID) ∈u 64.

Definition bytes (m : t) : list byte :=
  MessageHeader.bytes BLOCK_LENGTH TEMPLATE_ID MessageHeader.ILINK3_SCHEMA_ID MessageHeader.ILINK3_VERSION ++ payload (fields m).

#[global] Instance codec : SbeCodec t := {|
  sbe_template := TEMPLATE_ID; sbe_bytes := bytes; sbe_encode := encode;
  sbe_decode := decode; sbe_encodedLength := encodedLength; sbe_wf := wf |}.

#[global] Instance codec_ok : SbeCodecOk t.
Proof. flat_codec fields decode wf. Qed.

#[global] Instance bounds : SbeBounds t.
Proof. exists (Z.to_nat BLOCK_LENGTH). flat_bounds decode BLOCK_LENGTH. Defined.
End NegotiationResponse501.

(** ** Establish503 (template 503) *)
Module Establish503.
Definition TEMPLATE_ID : Z := 503.
Definition BLOCK_LENGTH : Z := 83.
Record t := mk {
  hmacSignature : list byte;
  accessKeyID : list byte;
  uuid : Z;
  sendingTime : Z;
  session : list byte;
  firm : list byte;
  keepAliveInterval : Z;
  nextSeqNo : Z;
  cancelOnDisconnectIndicator : Z;
}.

Definition init : t :=
  mk (replicate 32 Init.Byte.x00) (replicate 20 Init.Byte.x00) 0 0 (replicate 3 Init.Byte.x00) (replicate 5 Init.Byte.x00) 0 0 0.

Definition fields (m : t) : list cpy :=
  [put_c 0 (m.(hmacSignature)) 32;
   put_c 32 (m.(accessKeyID)) 20;
   put_u 52 (m.(uuid)) 8;
   put_u 60 (m.(sendingTime)) 8;
   put_c 68 (m.(session)) 3;
   put_c 71 (m.(firm)) 5;
   put_u 76 (m.(keepAliveInterval)) 2;
   put_u 78 (m.(nextSeqNo)) 4;
   put_u 82 (m.(cancelOnDisconnectIndicator)) 1].

Definition encode (m : t) (buf : buffer) (offset : nat) : option (buffer * nat) :=
  buf ← MessageHeader.encodeILink3 buf offset BLOCK_LENGTH TEMPLATE_ID;
  buf ← run_cpys buf (offset + MessageHeader.SIZE) (fields m);
  Some (buf, (MessageHeader.SIZE + Z.to_nat BLOCK_LENGTH)%nat).

Definition decode (buf : buffer) (offset : nat) : option t :=
  let b := (offset + MessageHeader.SIZE)%nat in
  hmacSignature ← rd_c buf (b + 0) 32;
  accessKeyID ← rd_c buf (b + 32) 20;
  uuid ← rd_u buf (b + 52) 8;
  sendingTime ← rd_u buf (b + 60) 8;
  session ← rd_c buf (b + 68) 3;
  firm ← rd_c buf (b + 71) 5;
  keepAliveInterval ← rd_u buf (b + 76) 2;
  nextSeqNo ← rd_u buf (b + 78) 4;
  cancelOnDisconnectIndicator ← rd_u buf (b + 82) 1;
  Some (mk hmacSignature accessKeyID uuid sendingTime session firm keepAliveInterval nextSeqNo cancelOnDisconnectIndicator).

Definition encodedLength (m : t) : nat := (MessageHeader.SIZE + Z.to_nat BLOCK_LENGTH)%nat.

(** Every field holds a value of its C++ type. *)
Definition wf (m : t) : Prop :=
  length m.(hmacSignature) = 32%nat ∧
  length m.(accessKeyID) = 20%nat ∧
  m.(uuid) ∈u 64 ∧
  m.(sendingTime) ∈u 64 ∧
  length m.(session) = 3%nat ∧
  length m.(firm) = 5%nat ∧
  m.(keepAliveInterval) ∈u 16 ∧
  m.(nextSeqNo) ∈u 32 ∧
  m.(cancelOnDisconnectIndicator) ∈u 8.

Definition bytes (m : t) : list byte :=
  MessageHeader.bytes BLOCK_LENGTH TEMPLATE_ID MessageHeader.ILINK3_SCHEMA_ID MessageHeader.ILINK3_VERSION ++ payload (fields m).

#[global] Instance codec : SbeCodec t := {|
  sbe_template := TEMPLATE_ID; sbe_bytes := bytes; sbe_encode := encode;
  sbe_decode := decode; sbe_encodedLength := encodedLength; sbe_wf := wf |}.

#[global] Instance codec_ok : SbeCodecOk t.
Proof. flat_codec fields decode wf. Qed.

#[global] Instance bounds : SbeBounds t.
Proof. exists (Z.to_nat BLOCK_LENGTH). flat_bounds decode BLOCK_LENGTH. Defined.
End Establish503.

(** ** EstablishmentAck504 (template 504) *)
Module EstablishmentAck504.
Definition TEMPLATE_ID : Z := 504.
Definition BLOCK_LENGTH : Z := 34.
Record t := mk {
  uuid : Z;
  requestTimestamp : Z;
  keepAliveInterval : Z;
  nextSeqNo : Z;
  previousSeqNo : Z;
  previousUUID : Z;
}.

Definition init : t :=
  mk 0 0 0 0 0 0.

Definition fields (m : t) : list cpy :=
  [put_u 0 (m.(uuid)) 8;
   put_u 8 (m.(requestTimestamp)) 8;
   put_u 16 (m.(keepAliveInterval)) 2;
   put_u 18 (m.(nextSeqNo)) 4;
   put_u 22 (m.(previousSeqNo)) 4;
   put_u 26 (m.(previousUUID)) 8].

Definition encode (m : t) (buf : buffer) (offset : nat) : option (buffer * nat) :=
  buf ← MessageHeader.encodeILink3 buf offset BLOCK_LENGTH TEMPLATE_ID;
  buf ← run_cpys buf (offset + MessageHeader.SIZE) (fields m);
  Some (buf, (MessageHeader.SIZE + Z.to_nat BLOCK_LENGTH)%nat).

Definition decode (buf : buffer) (offset : nat) : option t :=
  let b := (offset + MessageHeader.SIZE)%nat in
  uuid ← rd_u buf (b + 0) 8;
  requestTimestamp ← rd_u buf (b + 8) 8;
  keepAliveInterval ← rd_u buf (b + 16) 2;
  nextSeqNo ← rd_u buf (b + 18) 4;
  previousSeqNo ← rd_u buf (b + 22) 4;
  previousUUID ← rd_u buf (b + 26) 8;
  Some (mk uuid requestTimestamp keepAliveInterval nextSeqNo previousSeqNo previousUUID).

Definition encodedLength (m : t) : nat := (MessageHeader.SIZE + Z.to_nat BLOCK_LENGTH)%nat.

(** Every field holds a value of its C++ type. *)
Definition wf (m : t) : Prop :=
  m.(uuid) ∈u 64 ∧
  m.(requestTimestamp) ∈u 64 ∧
  m.(keepAliveInterval) ∈u 16 ∧
  m.(nextSeqNo) ∈u 32 ∧
  m.(previousSeqNo) ∈u 32 ∧
  m.(previousUUID) ∈u 64.

Definition bytes (m : t) : list byte :=
  MessageHeader.bytes BLOCK_LENGTH TEMPLATE_ID MessageHeader.ILINK3_SCHEMA_ID MessageHeader.ILINK3_VERSION ++ payload (fields m).

#[global] Instance codec : SbeCodec t := {|
  sbe_template := TEMPLATE_ID; sbe_bytes := bytes; sbe_encode := encode;
  sbe_decode := decode; sbe_encodedLength := encodedLength; sbe_wf := wf |}.

#[global] Instance codec_ok : SbeCodecOk t.
Proof. flat_codec fields decode wf. Qed.

#[global] Instance bounds : SbeBounds t.
Proof. exists (Z.to_nat BLOCK_LENGTH). flat_bounds decode BLOCK_LENGTH. Defined.
End EstablishmentAck504.

(** ** Sequence506 (template 506) *)
Module Sequence506.
Definition TEMPLATE_ID : Z := 506.
Definition BLOCK_LENGTH : Z := 14.
Record t := mk {
  uuid : Z;
  nextSeqNo : Z;
  faultToleranceIndicator : Z;
  keepAliveIntervalLapsed : Z;
}.

Definition init : t :=
  mk 0 0 0 0.

Definition fields (m : t) : list cpy :=
  [put_u 0 (m.(uuid)) 8;
   put_u 8 (m.(nextSeqNo)) 4;
   put_u 12 (m.(faultToleranceIndicator)) 1;
   put_u 13 (m.(keepAliveIntervalLapsed)) 1].

Definition encode (m : t) (buf : buffer) (offset : nat) : option (buffer * nat) :=
  buf ← MessageHeader.encodeILink3 buf offset BLOCK_LENGTH TEMPLATE_ID;
  buf ← run_cpys buf (offset + MessageHeader.SIZE) (fields m);
  Some (buf, (MessageHeader.SIZE + Z.to_nat BLOCK_LENGTH)%nat).

Definition decode (buf : buffer) (offset : nat) : option t :=
  let b := (offset + MessageHeader.SIZE)%nat in
  uuid ← rd_u buf (b + 0) 8;
  nextSeqNo ← rd_u buf (b + 8) 4;
  faultToleranceIndicator ← rd_u buf (b + 12) 1;
  keepAliveIntervalLapsed ← rd_u buf (b + 13) 1;
  Some (mk uuid nextSeqNo faultToleranceIndicator keepAliveIntervalLapsed).

Definition encodedLength (m : t) : nat := (MessageHeader.SIZE + Z.to_nat BLOCK_LENGTH)%nat.

(** Every field holds a value of its C++ type. *)
Definition wf (m : t) : Prop :=
  m.(uuid) ∈u 64 ∧
  m.(nextSeqNo) ∈u 32 ∧
  m.(faultToleranceIndicator) ∈u 8 ∧
  m.(keepAliveIntervalLapsed) ∈u 8.

Definition bytes (m : t) : list byte :=
  MessageHeader.bytes BLOCK_LENGTH TEMPLATE_ID MessageHeader.ILINK3_SCHEMA_ID MessageHeader.ILINK3_VERSION ++ payload (fields m).

#[global] Instance codec : SbeCodec t := {|
  sbe_template := TEMPLATE_ID; sbe_bytes := bytes; sbe_encode := encode;
  sbe_decode := decode; sbe_encodedLength := encodedLength; sbe_wf := wf |}.

#[global] Instance codec_ok : SbeCodecOk t.
Proof. flat_codec fields decode wf. Qed.

#[global] Instance bounds : SbeBounds t.
Proof. exists (Z.to_nat BLOCK_LENGTH). flat_bounds decode BLOCK_LENGTH. Defined.
End Sequence506.

(** ** Terminate507 (template 507) *)
Module Terminate507.
Definition TEMPLATE_ID : Z := 507.
Definition BLOCK_LENGTH : Z := 19.
Record t := mk {
  uuid : Z;
  requestTimestamp : Z;
  errorCodes : Z;
  splitMsg : Z;
}.

Definition init : t :=
  mk 0 0 0 0.

Definition fields (m : t) : list cpy :=
  [put_u 0 (m.(uuid)) 8;
   put_u 8 (m.(requestTimestamp)) 8;
   put_u 16 (m.(errorCodes)) 2;
   put_u 18 (m.(splitMsg)) 1].

Definition encode (m : t) (buf : buffer) (offset : nat) : option (buffer * nat) :=
  buf ← MessageHeader.encodeILink3 buf offset BLOCK_LENGTH TEMPLATE_ID;
  buf ← run_cpys buf (offset + MessageHeader.SIZE) (fields m);
  Some (buf, (MessageHeader.SIZE + Z.to_nat BLOCK_LENGTH)%nat).

Definition decode (buf : buffer) (offset : nat) : option t :=
  let b := (offset + MessageHeader.SIZE)%nat in
  uuid ← rd_u buf (b + 0) 8;
  requestTimestamp ← rd_u buf (b + 8) 8;
  errorCodes ← rd_u buf (b + 16) 2;
  splitMsg ← rd_u buf (b + 18) 1;
  Some (mk uuid requestTimestamp errorCodes splitMsg).

Definition encodedLength (m : t) : nat := (MessageHeader.SIZE + Z.to_nat BLOCK_LENGTH)%nat.

(** Every field holds a value of its C++ type. *)
Definition wf (m : t) : Prop :=
  m.(uuid) ∈u 64 ∧
  m.(requestTimestamp) ∈u 64 ∧
  m.(errorCodes) ∈u 16 ∧
  m.(splitMsg) ∈u 8.

Definition bytes (m : t) : list byte :=
  MessageHeader.bytes BLOCK_LENGTH TEMPLATE_ID MessageHeader.ILINK3_SCHEMA_ID MessageHeader.ILINK3_VERSION ++ payload (fields m).

#[global] Instance codec : SbeCodec t := {|
  sbe_template := TEMPLATE_ID; sbe_bytes := bytes; sbe_encode := encode;
  sbe_decode := decode; sbe_encodedLength := encodedLength; sbe_wf := wf |}.

#[global] Instance codec_ok : SbeCodecOk t.
Proof. flat_codec fields decode wf. Qed.

#[global] Instance bounds : SbeBounds t.
Proof. exists (Z.to_nat BLOCK_LENGTH). flat_bounds decode BLOCK_LENGTH. Defined.
End Terminate507.

(** ** RetransmitRequest508 (template 508) *)
Module RetransmitRequest508.
Definition TEMPLATE_ID : Z := 508.
Definition BLOCK_LENGTH : Z := 30.
Record t := mk {
  uuid : Z;
  lastUUID : Z;
  requestTimestamp : Z;
  fromSeqNo : Z;
  msgCount : Z;
}.

Definition init : t :=
  mk 0 0 0 0 0.

Definition fields (m : t) : list cpy :=
  [put_u 0 (m.(uuid)) 8;
   put_u 8 (m.(lastUUID)) 8;
   put_u 16 (m.(requestTimestamp)) 8;
   put_u 24 (m.(fromSeqNo)) 4;
   put_u 28 (m.(msgCount)) 2].

Definition encode (m : t) (buf : buffer) (offset : nat) : option (buffer * nat) :=
  buf ← MessageHeader.encodeILink3 buf offset BLOCK_LENGTH TEMPLATE_ID;
  buf ← run_cpys buf (offset + MessageHeader.SIZE) (fields m);
  Some (buf, (MessageHeader.SIZE + Z.to_nat BLOCK_LENGTH)%nat).

Definition decode (buf : buffer) (offset : nat) : option t :=
  let b := (offset + MessageHeader.SIZE)%nat in
  uuid ← rd_u buf (b + 0) 8;
  lastUUID ← rd_u buf (b + 8) 8;
  requestTimestamp ← rd_u buf (b + 16) 8;
  fromSeqNo ← rd_u buf (b + 24) 4;
  msgCount ← rd_u buf (b + 28) 2;
  Some (mk uuid lastUUID requestTimestamp fromSeqNo msgCount).

Definition encodedLength (m : t) : nat := (MessageHeader.SIZE + Z.to_nat BLOCK_LENGTH)%nat.

(** Every field holds a value of its C++ type. *)
Definition wf (m : t) : Prop :=
  m.(uuid) ∈u 64 ∧
  m.(lastUUID) ∈u 64 ∧
  m.(requestTimestamp) ∈u 64 ∧
  m.(fromSeqNo) ∈u 32 ∧
  m.(msgCount) ∈u 16.

Definition bytes (m : t) : list byte :=
  MessageHeader.bytes BLOCK_LENGTH TEMPLATE_ID MessageHeader.ILINK3_SCHEMA_ID MessageHeader.ILINK3_VERSION ++ payload (fields m).

#[global] Instance codec : SbeCodec t := {|
  sbe_template := TEMPLATE_ID; sbe_bytes := bytes; sbe_encode := encode;
  sbe_decode := decode; sbe_encodedLength := encodedLength; sbe_wf := wf |}.

#[global] Instance codec_ok : SbeCodecOk t.
Proof. flat_codec fields decode wf. Qed.

#[global] Instance bounds : SbeBounds t.
Proof. exists (Z.to_nat BLOCK_LENGTH). flat_bounds decode BLOCK_LENGTH. Defined.
End RetransmitRequest508.

(** ** Retransmission509 (template 509) *)
Module Retransmission509.
Definition TEMPLATE_ID : Z := 509.
Definition BLOCK_LENGTH : Z := 31.
Record t := mk {
  uuid : Z;
  lastUUID : Z;
  requestTimestamp : Z;
  fromSeqNo : Z;
  msgCount : Z;
  splitMsg : Z;
}.

Definition init : t :=
  mk 0 0 0 0 0 0.

Definition fields (m : t) : list cpy :=
  [put_u 0 (m.(uuid)) 8;
   put_u 8 (m.(lastUUID)) 8;
   put_u 16 (m.(requestTimestamp)) 8;
   put_u 24 (m.(fromSeqNo)) 4;
   put_u 28 (m.(msgCount)) 2;
   put_u 30 (m.(splitMsg)) 1].

Definition encode (m : t) (buf : buffer) (offset : nat) : option (buffer * nat) :=
  buf ← MessageHeader.encodeILink3 buf offset BLOCK_LENGTH TEMPLATE_ID;
  buf ← run_cpys buf (offset + MessageHeader.SIZE) (fields m);
  Some (buf, (MessageHeader.SIZE + Z.to_nat BLOCK_LENGTH)%nat).

Definition decode (buf : buffer) (offset : nat) : option t :=
  let b := (offset + MessageHeader.SIZE)%nat in
  uuid ← rd_u buf (b + 0) 8;
  lastUUID ← rd_u buf (b + 8) 8;
  requestTimestamp ← rd_u buf (b + 16) 8;
  fromSeqNo ← rd_u buf (b + 24) 4;
  msgCount ← rd_u buf (b + 28) 2;
  splitMsg ← rd_u buf (b + 30) 1;
  Some (mk uuid lastUUID requestTimestamp fromSeqNo msgCount splitMsg).

Definition encodedLength (m : t) : nat := (MessageHeader.SIZE + Z.to_nat BLOCK_LENGTH)%nat.

(** Every field holds a value of its C++ type. *)
Definition wf (m : t) : Prop :=
  m.(uuid) ∈u 64 ∧
  m.(lastUUID) ∈u 64 ∧
  m.(requestTimestamp) ∈u 64 ∧
  m.(fromSeqNo) ∈u 32 ∧
  m.(msgCount) ∈u 16 ∧
  m.(splitMsg) ∈u 8.

Definition bytes (m : t) : list byte :=
  MessageHeader.bytes BLOCK_LENGTH TEMPLATE_ID MessageHeader.ILINK3_SCHEMA_ID MessageHeader.ILINK3_VERSION ++ payload (fields m).

#[global] Instance codec : SbeCodec t := {|
  sbe_template := TEMPLATE_ID; sbe_bytes := bytes; sbe_encode := encode;
  sbe_decode := decode; sbe_encodedLength := encodedLength; sbe_wf := wf |}.

#[global] Instance codec_ok : SbeCodecOk t.
Proof. flat_codec fields decode wf. Qed.

#[global] Instance bounds : SbeBounds t.
Proof. exists (Z.to_nat BLOCK_LENGTH). flat_bounds decode BLOCK_LENGTH. Defined.
End Retransmission509.

(** ** NotApplied513 (template 513) *)
Module NotApplied513.
Definition TEMPLATE_ID : Z := 513.
Definition BLOCK_LENGTH : Z := 16.
Record t := mk {
  uuid : Z;
  fromSeqNo : Z;
  msgCount : Z;
}.

Definition init : t :=
  mk 0 0 0.

Definition fields (m : t) : list cpy :=
  [put_u 0 (m.(uuid)) 8;
   put_u 8 (m.(fromSeqNo)) 4;
   put_u 12 (m.(msgCount)) 4].

Definition encode (m : t) (buf : buffer) (offset : nat) : option (buffer * nat) :=
  buf ← MessageHeader.encodeILink3 buf offset BLOCK_LENGTH TEMPLATE_ID;
  buf ← run_cpys buf (offset + MessageHeader.SIZE) (fields m);
  Some (buf, (MessageHeader.SIZE + Z.to_nat BLOCK_LENGTH)%nat).

Definition decode (buf : buffer) (offset : nat) : option t :=
  let b := (offset + MessageHeader.SIZE)%nat in
  uuid ← rd_u buf (b + 0) 8;
  fromSeqNo ← rd_u buf (b + 8) 4;
  msgCount ← rd_u buf (b + 12) 4;
  Some (mk uuid fromSeqNo msgCount).

Definition encodedLength (m : t) : nat := (MessageHeader.SIZE + Z.to_nat BLOCK_LENGTH)%nat.

(** Every field holds a value of its C++ type. *)
Definition wf (m : t) : Prop :=
  m.(uuid) ∈u 64 ∧
  m.(fromSeqNo) ∈u 32 ∧
  m.(msgCount) ∈u 32.

Definition bytes (m : t) : list byte :=
  MessageHeader.bytes BLOCK_LENGTH TEMPLATE_ID MessageHeader.ILINK3_SCHEMA_ID MessageHeader.ILINK3_VERSION ++ payload (fields m).

#[global] Instance codec : SbeCodec t := {|
  sbe_template := TEMPLATE_ID; sbe_bytes := bytes; sbe_encode := encode;
  sbe_decode := decode; sbe_encodedLength := encodedLength; sbe_wf := wf |}.

#[global] Instance codec_ok : SbeCodecOk t.
Proof. flat_codec fields decode wf. Qed.

#[global] Instance bounds : SbeBounds t.
Proof. exists (Z.to_nat BLOCK_LENGTH). flat_bounds decode BLOCK_LENGTH. Defined.
End NotApplied513.

(** ** NewOrderSingle514 (template 514) *)
Module NewOrderSingle514.
Definition TEMPLATE_ID : Z := 514.
Definition BLOCK_LENGTH : Z := 116.
Record t := mk {
  price : Z;
  orderQty : Z;
  securityID : Z;
  side : Z;
  seqNum : Z;
  senderID : list byte;
  clOrdID : list byte;
  partyDetailsListReqID : Z;
  orderRequestID : Z;
  sendingTimeEpoch : Z;
  stopPx : Z;
  location : list byte;
  minQty : Z;
  displayQty : Z;
  expireDate : Z;
  ordType : Z;
  timeInForce : Z;
  manualOrderIndicator : Z;
  execInst : byte;
  executionMode : byte;
  liquidityFlag : Z;
  managedOrder : Z;
  shortSaleType : Z;
}.

Definition init : t :=
  mk 0 0 0 0 0 (replicate 20 Init.Byte.x00) (replicate 20 Init.Byte.x00) 0 0 0 0 (replicate 5 Init.Byte.x00) 0 0 0 0 0 0 Init.Byte.x00 Init.Byte.x00 0 0 0.

Definition fields (m : t) : list cpy :=
  [put_i 0 (m.(price)) 8;
   put_u 8 (m.(orderQty)) 4;
   put_i 12 (m.(securityID)) 4;
   put_u 16 (m.(side)) 1;
   put_u 17 (m.(seqNum)) 4;
   put_c 21 (m.(senderID)) 20;
   put_c 41 (m.(clOrdID)) 20;
   put_u 61 (m.(partyDetailsListReqID)) 8;
   put_u 69 (m.(orderRequestID)) 8;
   put_u 77 (m.(sendingTimeEpoch)) 8;
   put_i 85 (m.(stopPx)) 8;
   put_c 93 (m.(location)) 5;
   put_u 98 (m.(minQty)) 4;
   put_u 102 (m.(displayQty)) 4;
   put_u 106 (m.(expireDate)) 2;
   put_u 108 (m.(ordType)) 1;
   put_u 109 (m.(timeInForce)) 1;
   put_u 110 (m.(manualOrderIndicator)) 1;
   put_b 111 (m.(execInst));
   put_b 112 (m.(executionMode));
   put_u 113 (m.(liquidityFlag)) 1;
   put_u 114 (m.(managedOrder)) 1;
   put_u 115 (m.(shortSaleType)) 1].

Definition encode (m : t) (buf : buffer) (offset : nat) : option (buffer * nat) :=
  buf ← MessageHeader.encodeILink3 buf offset BLOCK_LENGTH TEMPLATE_ID;
  buf ← run_cpys buf (offset + MessageHeader.SIZE) (fields m);
  Some (buf, (MessageHeader.SIZE + Z.to_nat BLOCK_LENGTH)%nat).

Definition decode (buf : buffer) (offset : nat) : option t :=
  let b := (offset + MessageHeader.SIZE)%nat in
  price ← rd_i buf (b + 0) 8;
  orderQty ← rd_u buf (b + 8) 4;
  securityID ← rd_i buf (b + 12) 4;
  side ← rd_u buf (b + 16) 1;
  seqNum ← rd_u buf (b + 17) 4;
  senderID ← rd_c buf (b + 21) 20;
  clOrdID ← rd_c buf (b + 41) 20;
  partyDetailsListReqID ← rd_u buf (b + 61) 8;
  orderRequestID ← rd_u buf (b + 69) 8;
  sendingTimeEpoch ← rd_u buf (b + 77) 8;
  stopPx ← rd_i buf (b + 85) 8;
  location ← rd_c buf (b + 93) 5;
  minQty ← rd_u buf (b + 98) 4;
  displayQty ← rd_u buf (b + 102) 4;
  expireDate ← rd_u buf (b + 106) 2;
  ordType ← rd_u buf (b + 108) 1;
  timeInForce ← rd_u buf (b + 109) 1;
  manualOrderIndicator ← rd_u buf (b + 110) 1;
  execInst ← rd_b buf (b + 111);
  executionMode ← rd_b buf (b + 112);
  liquidityFlag ← rd_u buf (b + 113) 1;
  managedOrder ← rd_u buf (b + 114) 1;
  shortSaleType ← rd_u buf (b + 115) 1;
  Some (mk price orderQty securityID side seqNum senderID clOrdID partyDetailsListReqID orderRequestID sendingTimeEpoch stopPx location minQty displayQty expireDate ordType timeInForce manualOrderIndicator execInst executionMode liquidityFlag managedOrder shortSaleType).

Definition encodedLength (m : t) : nat := (MessageHeader.SIZE + Z.to_nat BLOCK_LENGTH)%nat.

(** Every field holds a value of its C++ type. *)
Definition wf (m : t) : Prop :=
  m.(price) ∈i 64 ∧
  m.(orderQty) ∈u 32 ∧
  m.(securityID) ∈i 32 ∧
  m.(side) ∈u 8 ∧
  m.(seqNum) ∈u 32 ∧
  length m.(senderID) = 20%nat ∧
  length m.(clOrdID) = 20%nat ∧
  m.(partyDetailsListReqID) ∈u 64 ∧
  m.(orderRequestID) ∈u 64 ∧
  m.(sendingTimeEpoch) ∈u 64 ∧
  m.(stopPx) ∈i 64 ∧
  length m.(location) = 5%nat ∧
  m.(minQty) ∈u 32 ∧
  m.(displayQty) ∈u 32 ∧
  m.(expireDate) ∈u 16 ∧
  m.(ordType) ∈u 8 ∧
  m.(timeInForce) ∈u 8 ∧
  m.(manualOrderIndicator) ∈u 8 ∧
  m.(liquidityFlag) ∈u 8 ∧
  m.(managedOrder) ∈u 8 ∧
  m.(shortSaleType) ∈u 8.

Definition bytes (m : t) : list byte :=
  MessageHeader.bytes BLOCK_LENGTH TEMPLATE_ID MessageHeader.ILINK3_SCHEMA_ID MessageHeader.ILINK3_VERSION ++ payload (fields m).

#[global] Instance codec : SbeCodec t := {|
  sbe_template := TEMPLATE_ID; sbe_bytes := bytes; sbe_encode := encode;
  sbe_decode := decode; sbe_encodedLength := encodedLength; sbe_wf := wf |}.

#[global] Instance codec_ok : SbeCodecOk t.
Proof. flat_codec fields decode wf. Qed.

#[global] Instance bounds : SbeBounds t.
Proof. exists (Z.to_nat BLOCK_LENGTH). flat_bounds decode BLOCK_LENGTH. Defined.
End NewOrderSingle514.

(** ** OrderCancelReplaceRequest515 (template 515) *)
Module OrderCancelReplaceRequest515.
Definition TEMPLATE_ID : Z := 515.
Definition BLOCK_LENGTH : Z := 125.
Record t := mk {
  price : Z;
  orderQty : Z;
  securityID : Z;
  side : Z;
  seqNum : Z;
  senderID : list byte;
  clOrdID : list byte;
  partyDetailsListReqID : Z;
  orderID : Z;
  stopPx : Z;
  orderRequestID : Z;
  sendingTimeEpoch : Z;
  location : list byte;
  minQty : Z;
  displayQty : Z;
  expireDate : Z;
  ordType : Z;
  timeInForce : Z;
  manualOrderIndicator : Z;
  ofmOverride : Z;
  execInst : byte;
  executionMode : byte;
  liquidityFlag : Z;
  managedOrder : Z;
  shortSaleType : Z;
}.

Definition init : t :=
  mk 0 0 0 0 0 (replicate 20 Init.Byte.x00) (replicate 20 Init.Byte.x00) 0 0 0 0 0 (replicate 5 Init.Byte.x00) 0 0 0 0 0 0 0 Init.Byte.x00 Init.Byte.x00 0 0 0.

Definition fields (m : t) : list cpy :=
  [put_i 0 (m.(price)) 8;
   put_u 8 (m.(orderQty)) 4;
   put_i 12 (m.(securityID)) 4;
   put_u 16 (m.(side)) 1;
   put_u 17 (m.(seqNum)) 4;
   put_c 21 (m.(senderID)) 20;
   put_c 41 (m.(clOrdID)) 20;
   put_u 61 (m.(partyDetailsListReqID)) 8;
   put_u 69 (m.(orderID)) 8;
   put_i 77 (m.(stopPx)) 8;
   put_u 85 (m.(orderRequestID)) 8;
   put_u 93 (m.(sendingTimeEpoch)) 8;
   put_c 101 (m.(location)) 5;
   put_u 106 (m.(minQty)) 4;
   put_u 110 (m.(displayQty)) 4;
   put_u 114 (m.(expireDate)) 2;
   put_u 116 (m.(ordType)) 1;
   put_u 117 (m.(timeInForce)) 1;
   put_u 118 (m.(manualOrderIndicator)) 1;
   put_u 119 (m.(ofmOverride)) 1;
   put_b 120 (m.(execInst));
   put_b 121 (m.(executionMode));
   put_u 122 (m.(liquidityFlag)) 1;
   put_u 123 (m.(managedOrder)) 1;
   put_u 124 (m.(shortSaleType)) 1].

Definition encode (m : t) (buf : buffer) (offset : nat) : option (buffer * nat) :=
  buf ← MessageHeader.encodeILink3 buf offset BLOCK_LENGTH TEMPLATE_ID;
  buf ← run_cpys buf (offset + MessageHeader.SIZE) (fields m);
  Some (buf, (MessageHeader.SIZE + Z.to_nat BLOCK_LENGTH)%nat).

Definition decode (buf : buffer) (offset : nat) : option t :=
  let b := (offset + MessageHeader.SIZE)%nat in
  price ← rd_i buf (b + 0) 8;
  orderQty ← rd_u buf (b + 8) 4;
  securityID ← rd_i buf (b + 12) 4;
  side ← rd_u buf (b + 16) 1;
  seqNum ← rd_u buf (b + 17) 4;
  senderID ← rd_c buf (b + 21) 20;
  clOrdID ← rd_c buf (b + 41) 20;
  partyDetailsListReqID ← rd_u buf (b + 61) 8;
  orderID ← rd_u buf (b + 69) 8;
  stopPx ← rd_i buf (b + 77) 8;
  orderRequestID ← rd_u buf (b + 85) 8;
  sendingTimeEpoch ← rd_u buf (b + 93) 8;
  location ← rd_c buf (b + 101) 5;
  minQty ← rd_u buf (b + 106) 4;
  displayQty ← rd_u buf (b + 110) 4;
  expireDate ← rd_u buf (b + 114) 2;
  ordType ← rd_u buf (b + 116) 1;
  timeInForce ← rd_u buf (b + 117) 1;
  manualOrderIndicator ← rd_u buf (b + 118) 1;
  ofmOverride ← rd_u buf (b + 119) 1;
  execInst ← rd_b buf (b + 120);
  executionMode ← rd_b buf (b + 121);
  liquidityFlag ← rd_u buf (b + 122) 1;
  managedOrder ← rd_u buf (b + 123) 1;
  shortSaleType ← rd_u buf (b + 124) 1;
  Some (mk price orderQty securityID side seqNum senderID clOrdID partyDetailsListReqID orderID stopPx orderRequestID sendingTimeEpoch location minQty displayQty expireDate ordType timeInForce manualOrderIndicator ofmOverride execInst executionMode liquidityFlag managedOrder shortSaleType).

Definition encodedLength (m : t) : nat := (MessageHeader.SIZE + Z.to_nat BLOCK_LENGTH)%nat.

(** Every field holds a value of its C++ type. *)
Definition wf (m : t) : Prop :=
  m.(price) ∈i 64 ∧
  m.(orderQty) ∈u 32 ∧
  m.(securityID) ∈i 32 ∧
  m.(side) ∈u 8 ∧
  m.(seqNum) ∈u 32 ∧
  length m.(senderID) = 20%nat ∧
  length m.(clOrdID) = 20%nat ∧
  m.(partyDetailsListReqID) ∈u 64 ∧
  m.(orderID) ∈u 64 ∧
  m.(stopPx) ∈i 64 ∧
  m.(orderRequestID) ∈u 64 ∧
  m.(sendingTimeEpoch) ∈u 64 ∧
  length m.(location) = 5%nat ∧
  m.(minQty) ∈u 32 ∧
  m.(displayQty) ∈u 32 ∧
  m.(expireDate) ∈u 16 ∧
  m.(ordType) ∈u 8 ∧
  m.(timeInForce) ∈u 8 ∧
  m.(manualOrderIndicator) ∈u 8 ∧
  m.(ofmOverride) ∈u 8 ∧
  m.(liquidityFlag) ∈u 8 ∧
  m.(managedOrder) ∈u 8 ∧
  m.(shortSaleType) ∈u 8.

Definition bytes (m : t) : list byte :=
  MessageHeader.bytes BLOCK_LENGTH TEMPLATE_ID MessageHeader.ILINK3_SCHEMA_ID MessageHeader.ILINK3_VERSION ++ payload (fields m).

#[global] Instance codec : SbeCodec t := {|
  sbe_template := TEMPLATE_ID; sbe_bytes := bytes; sbe_encode := encode;
  sbe_decode := decode; sbe_encodedLength := encodedLength; sbe_wf := wf |}.

#[global] Instance codec_ok : SbeCodecOk t.
Proof. flat_codec fields decode wf. Qed.

#[global] Instance bounds : SbeBounds t.
Proof. exists (Z.to_nat BLOCK_LENGTH). flat_bounds decode BLOCK_LENGTH. Defined.
End OrderCancelReplaceRequest515.

(** ** OrderCancelRequest516 (template 516) *)
Module OrderCancelRequest516.
Definition TEMPLATE_ID : Z := 516.
Definition BLOCK_LENGTH : Z := 88.
Record t := mk {
  orderID : Z;
  partyDetailsListReqID : Z;
  manualOrderIndicator : Z;
  seqNum : Z;
  senderID : list byte;
  clOrdID : list byte;
  securityID : Z;
  side : Z;
  orderRequestID : Z;
  sendingTimeEpoch : Z;
  location : list byte;
  liquidityFlag : Z;
}.

Definition init : t :=
  mk 0 0 0 0 (replicate 20 Init.Byte.x00) (replicate 20 Init.Byte.x00) 0 0 0 0 (replicate 5 Init.Byte.x00) 0.

Definition fields (m : t) : list cpy :=
  [put_u 0 (m.(orderID)) 8;
   put_u 8 (m.(partyDetailsListReqID)) 8;
   put_u 16 (m.(manualOrderIndicator)) 1;
   put_u 17 (m.(seqNum)) 4;
   put_c 21 (m.(senderID)) 20;
   put_c 41 (m.(clOrdID)) 20;
   put_i 61 (m.(securityID)) 4;
   put_u 65 (m.(side)) 1;
   put_u 66 (m.(orderRequestID)) 8;
   put_u 74 (m.(sendingTimeEpoch)) 8;
   put_c 82 (m.(location)) 5;
   put_u 87 (m.(liquidityFlag)) 1].

Definition encode (m : t) (buf : buffer) (offset : nat) : option (buffer * nat) :=
  buf ← MessageHeader.encodeILink3 buf offset BLOCK_LENGTH TEMPLATE_ID;
  buf ← run_cpys buf (offset + MessageHeader.SIZE) (fields m);
  Some (buf, (MessageHeader.SIZE + Z.to_nat BLOCK_LENGTH)%nat).

Definition decode (buf : buffer) (offset : nat) : option t :=
  let b := (offset + MessageHeader.SIZE)%nat in
  orderID ← rd_u buf (b + 0) 8;
  partyDetailsListReqID ← rd_u buf (b + 8) 8;
  manualOrderIndicator ← rd_u buf (b + 16) 1;
  seqNum ← rd_u buf (b + 17) 4;
  senderID ← rd_c buf (b + 21) 20;
  clOrdID ← rd_c buf (b + 41) 20;
  securityID ← rd_i buf (b + 61) 4;
  side ← rd_u buf (b + 65) 1;
  orderRequestID ← rd_u buf (b + 66) 8;
  sendingTimeEpoch ← rd_u buf (b + 74) 8;
  location ← rd_c buf (b + 82) 5;
  liquidityFlag ← rd_u buf (b + 87) 1;
  Some (mk orderID partyDetailsListReqID manualOrderIndicator seqNum senderID clOrdID securityID side orderRequestID sendingTimeEpoch location liquidityFlag).

Definition encodedLength (m : t) : nat := (MessageHeader.SIZE + Z.to_nat BLOCK_LENGTH)%nat.

(** Every field holds a value of its C++ type. *)
Definition wf (m : t) : Prop :=
  m.(orderID) ∈u 64 ∧
  m.(partyDetailsListReqID) ∈u 64 ∧
  m.(manualOrderIndicator) ∈u 8 ∧
  m.(seqNum) ∈u 32 ∧
  length m.(senderID) = 20%nat ∧
  length m.(clOrdID) = 20%nat ∧
  m.(securityID) ∈i 32 ∧
  m.(side) ∈u 8 ∧
  m.(orderRequestID) ∈u 64 ∧
  m.(sendingTimeEpoch) ∈u 64 ∧
  length m.(location) = 5%nat ∧
  m.(liquidityFlag) ∈u 8.

Definition bytes (m : t) : list byte :=
  MessageHeader.bytes BLOCK_LENGTH TEMPLATE_ID MessageHeader.ILINK3_SCHEMA_ID MessageHeader.ILINK3_VERSION ++ payload (fields m).

#[global] Instance codec : SbeCodec t := {|
  sbe_template := TEMPLATE_ID; sbe_bytes := bytes; sbe_encode := encode;
  sbe_decode := decode; sbe_encodedLength := encodedLength; sbe_wf := wf |}.

#[global] Instance codec_ok : SbeCodecOk t.
Proof. flat_codec fields decode wf. Qed.

#[global] Instance bounds : SbeBounds t.
Proof. exists (Z.to_nat BLOCK_LENGTH). flat_bounds decode BLOCK_LENGTH. Defined.
End OrderCancelRequest516.

(** ** ExecutionReportNew522 (template 522) *)
Module ExecutionReportNew522.
Definition TEMPLATE_ID : Z := 522.
Definition BLOCK_LENGTH : Z := 180.
Record t := mk {
  seqNum : Z;
  uuid : Z;
  execID : list byte;
  senderID : list byte;
  clOrdID : list byte;
  partyDetailsListReqID : Z;
  orderID : Z;
  price : Z;
  stopPx : Z;
  transactTime : Z;
  sendingTimeEpoch : Z;
  orderRequestID : Z;
  location : list byte;
  securityID : Z;
  orderQty : Z;
  minQty : Z;
  displayQty : Z;
  ordType : Z;
  side : Z;
  timeInForce : Z;
  manualOrderIndicator : Z;
  execInst : byte;
  executionMode : byte;
  liquidityFlag : Z;
  managedOrder : Z;
  shortSaleType : Z;
  expireDate : Z;
}.

Definition init : t :=
  mk 0 0 (replicate 40 Init.Byte.x00) (replicate 20 Init.Byte.x00) (replicate 20 Init.Byte.x00) 0 0 0 0 0 0 0 (replicate 5 Init.Byte.x00) 0 0 0 0 0 0 0 0 Init.Byte.x00 Init.Byte.x00 0 0 0 0.

Definition fields (m : t) : list cpy :=
  [put_u 0 (m.(seqNum)) 4;
   put_u 4 (m.(uuid)) 8;
   put_c 12 (m.(execID)) 40;
   put_c 52 (m.(senderID)) 20;
   put_c 72 (m.(clOrdID)) 20;
   put_u 92 (m.(partyDetailsListReqID)) 8;
   put_u 100 (m.(orderID)) 8;
   put_i 108 (m.(price)) 8;
   put_i 116 (m.(stopPx)) 8;
   put_u 124 (m.(transactTime)) 8;
   put_u 132 (m.(sendingTimeEpoch)) 8;
   put_u 140 (m.(orderRequestID)) 8;
   put_c 148 (m.(location)) 5;
   put_i 153 (m.(securityID)) 4;
   put_u 157 (m.(orderQty)) 4;
   put_u 161 (m.(minQty)) 4;
   put_u 165 (m.(displayQty)) 4;
   put_u 169 (m.(ordType)) 1;
   put_u 170 (m.(side)) 1;
   put_u 171 (m.(timeInForce)) 1;
   put_u 172 (m.(manualOrderIndicator)) 1;
   put_b 173 (m.(execInst));
   put_b 174 (m.(executionMode));
   put_u 175 (m.(liquidityFlag)) 1;
   put_u 176 (m.(managedOrder)) 1;
   put_u 177 (m.(shortSaleType)) 1;
   put_u 178 (m.(expireDate)) 2].

Definition encode (m : t) (buf : buffer) (offset : nat) : option (buffer * nat) :=
  buf ← MessageHeader.encodeILink3 buf offset BLOCK_LENGTH TEMPLATE_ID;
  buf ← run_cpys buf (offset + MessageHeader.SIZE) (fields m);
  Some (buf, (MessageHeader.SIZE + Z.to_nat BLOCK_LENGTH)%nat).

Definition decode (buf : buffer) (offset : nat) : option t :=
  let b := (offset + MessageHeader.SIZE)%nat in
  seqNum ← rd_u buf (b + 0) 4;
  uuid ← rd_u buf (b + 4) 8;
  execID ← rd_c buf (b + 12) 40;
  senderID ← rd_c buf (b + 52) 20;
  clOrdID ← rd_c buf (b + 72) 20;
  partyDetailsListReqID ← rd_u buf (b + 92) 8;
  orderID ← rd_u buf (b + 100) 8;
  price ← rd_i buf (b + 108) 8;
  stopPx ← rd_i buf (b + 116) 8;
  transactTime ← rd_u buf (b + 124) 8;
  sendingTimeEpoch ← rd_u buf (b + 132) 8;
  orderRequestID ← rd_u buf (b + 140) 8;
  location ← rd_c buf (b + 148) 5;
  securityID ← rd_i buf (b + 153) 4;
  orderQty ← rd_u buf (b + 157) 4;
  minQty ← rd_u buf (b + 161) 4;
  displayQty ← rd_u buf (b + 165) 4;
  ordType ← rd_u buf (b + 169) 1;
  side ← rd_u buf (b + 170) 1;
  timeInForce ← rd_u buf (b + 171) 1;
  manualOrderIndicator ← rd_u buf (b + 172) 1;
  execInst ← rd_b buf (b + 173);
  executionMode ← rd_b buf (b + 174);
  liquidityFlag ← rd_u buf (b + 175) 1;
  managedOrder ← rd_u buf (b + 176) 1;
  shortSaleType ← rd_u buf (b + 177) 1;
  expireDate ← rd_u buf (b + 178) 2;
  Some (mk seqNum uuid execID senderID clOrdID partyDetailsListReqID orderID price stopPx transactTime sendingTimeEpoch orderRequestID location securityID orderQty minQty displayQty ordType side timeInForce manualOrderIndicator execInst executionMode liquidityFlag managedOrder shortSaleType expireDate).

Definition encodedLength (m : t) : nat := (MessageHeader.SIZE + Z.to_nat BLOCK_LENGTH)%nat.

(** Every field holds a value of its C++ type. *)
Definition wf (m : t) : Prop :=
  m.(seqNum) ∈u 32 ∧
  m.(uuid) ∈u 64 ∧
  length m.(execID) = 40%nat ∧
  length m.(senderID) = 20%nat ∧
  length m.(clOrdID) = 20%nat ∧
  m.(partyDetailsListReqID) ∈u 64 ∧
  m.(orderID) ∈u 64 ∧
  m.(price) ∈i 64 ∧
  m.(stopPx) ∈i 64 ∧
  m.(transactTime) ∈u 64 ∧
  m.(sendingTimeEpoch) ∈u 64 ∧
  m.(orderRequestID) ∈u 64 ∧
  length m.(location) = 5%nat ∧
  m.(securityID) ∈i 32 ∧
  m.(orderQty) ∈u 32 ∧
  m.(minQty) ∈u 32 ∧
  m.(displayQty) ∈u 32 ∧
  m.(ordType) ∈u 8 ∧
  m.(side) ∈u 8 ∧
  m.(timeInForce) ∈u 8 ∧
  m.(manualOrderIndicator) ∈u 8 ∧
  m.(liquidityFlag) ∈u 8 ∧
  m.(managedOrder) ∈u 8 ∧
  m.(shortSaleType) ∈u 8 ∧
  m.(expireDate) ∈u 16.

Definition bytes (m : t) : list byte :=
  MessageHeader.bytes BLOCK_LENGTH TEMPLATE_ID MessageHeader.ILINK3_SCHEMA_ID MessageHeader.ILINK3_VERSION ++ payload (fields m).

#[global] Instance codec : SbeCodec t := {|
  sbe_template := TEMPLATE_ID; sbe_bytes := bytes; sbe_encode := encode;
  sbe_decode := decode; sbe_encodedLength := encodedLength; sbe_wf := wf |}.

#[global] Instance codec_ok : SbeCodecOk t.
Proof. flat_codec fields decode wf. Qed.

#[global] Instance bounds : SbeBounds t.
Proof. exists (Z.to_nat BLOCK_LENGTH). flat_bounds decode BLOCK_LENGTH. Defined.
End ExecutionReportNew522.

(** ** ExecutionReportReject523 (template 523) *)
Module ExecutionReportReject523.
Definition TEMPLATE_ID : Z := 523.
Definition BLOCK_LENGTH : Z := 184.
Record t := mk {
  seqNum : Z;
  uuid : Z;
  execID : list byte;
  senderID : list byte;
  clOrdID : list byte;
  partyDetailsListReqID : Z;
  orderID : Z;
  price : Z;
  stopPx : Z;
  transactTime : Z;
  sendingTimeEpoch : Z;
  orderRequestID : Z;
  location : list byte;
  securityID : Z;
  orderQty : Z;
  minQty : Z;
  displayQty : Z;
  ordRejReason : Z;
  ordType : Z;
  side : Z;
  timeInForce : Z;
  manualOrderIndicator : Z;
  execInst : byte;
  executionMode : byte;
  liquidityFlag : Z;
  managedOrder : Z;
  shortSaleType : Z;
  ordStatus : byte;
  execType : byte;
  expireDate : Z;
}.

Definition init : t :=
  mk 0 0 (replicate 40 Init.Byte.x00) (replicate 20 Init.Byte.x00) (replicate 20 Init.Byte.x00) 0 0 0 0 0 0 0 (replicate 5 Init.Byte.x00) 0 0 0 0 0 0 0 0 0 Init.Byte.x00 Init.Byte.x00 0 0 0 Init.Byte.x38 Init.Byte.x38 0.

Definition fields (m : t) : list cpy :=
  [put_u 0 (m.(seqNum)) 4;
   put_u 4 (m.(uuid)) 8;
   put_c 12 (m.(execID)) 40;
   put_c 52 (m.(senderID)) 20;
   put_c 72 (m.(clOrdID)) 20;
   put_u 92 (m.(partyDetailsListReqID)) 8;
   put_u 100 (m.(orderID)) 8;
   put_i 108 (m.(price)) 8;
   put_i 116 (m.(stopPx)) 8;
   put_u 124 (m.(transactTime)) 8;
   put_u 132 (m.(sendingTimeEpoch)) 8;
   put_u 140 (m.(orderRequestID)) 8;
   put_c 148 (m.(location)) 5;
   put_i 153 (m.(securityID)) 4;
   put_u 157 (m.(orderQty)) 4;
   put_u 161 (m.(minQty)) 4;
   put_u 165 (m.(displayQty)) 4;
   put_u 169 (m.(ordRejReason)) 2;
   put_u 171 (m.(ordType)) 1;
   put_u 172 (m.(side)) 1;
   put_u 173 (m.(timeInForce)) 1;
   put_u 174 (m.(manualOrderIndicator)) 1;
   put_b 175 (m.(execInst));
   put_b 176 (m.(executionMode));
   put_u 177 (m.(liquidityFlag)) 1;
   put_u 178 (m.(managedOrder)) 1;
   put_u 179 (m.(shortSaleType)) 1;
   put_b 180 (m.(ordStatus));
   put_b 181 (m.(execType));
   put_u 182 (m.(expireDate)) 2].

Definition encode (m : t) (buf : buffer) (offset : nat) : option (buffer * nat) :=
  buf ← MessageHeader.encodeILink3 buf offset BLOCK_LENGTH TEMPLATE_ID;
  buf ← run_cpys buf (offset + MessageHeader.SIZE) (fields m);
  Some (buf, (MessageHeader.SIZE + Z.to_nat BLOCK_LENGTH)%nat).

Definition decode (buf : buffer) (offset : nat) : option t :=
  let b := (offset + MessageHeader.SIZE)%nat in
  seqNum ← rd_u buf (b + 0) 4;
  uuid ← rd_u buf (b + 4) 8;
  execID ← rd_c buf (b + 12) 40;
  senderID ← rd_c buf (b + 52) 20;
  clOrdID ← rd_c buf (b + 72) 20;
  partyDetailsListReqID ← rd_u buf (b + 92) 8;
  orderID ← rd_u buf (b + 100) 8;
  price ← rd_i buf (b + 108) 8;
  stopPx ← rd_i buf (b + 116) 8;
  transactTime ← rd_u buf (b + 124) 8;
  sendingTimeEpoch ← rd_u buf (b + 132) 8;
  orderRequestID ← rd_u buf (b + 140) 8;
  location ← rd_c buf (b + 148) 5;
  securityID ← rd_i buf (b + 153) 4;
  orderQty ← rd_u buf (b + 157) 4;
  minQty ← rd_u buf (b + 161) 4;
  displayQty ← rd_u buf (b + 165) 4;
  ordRejReason ← rd_u buf (b + 169) 2;
  ordType ← rd_u buf (b + 171) 1;
  side ← rd_u buf (b + 172) 1;
  timeInForce ← rd_u buf (b + 173) 1;
  manualOrderIndicator ← rd_u buf (b + 174) 1;
  execInst ← rd_b buf (b + 175);
  executionMode ← rd_b buf (b + 176);
  liquidityFlag ← rd_u buf (b + 177) 1;
  managedOrder ← rd_u buf (b + 178) 1;
  shortSaleType ← rd_u buf (b + 179) 1;
  ordStatus ← rd_b buf (b + 180);
  execType ← rd_b buf (b + 181);
  expireDate ← rd_u buf (b + 182) 2;
  Some (mk seqNum uuid execID senderID clOrdID partyDetailsListReqID orderID price stopPx transactTime sendingTimeEpoch orderRequestID location securityID orderQty minQty displayQty ordRejReason ordType side timeInForce manualOrderIndicator execInst executionMode liquidityFlag managedOrder shortSaleType ordStatus execType expireDate).

Definition encodedLength (m : t) : nat := (MessageHeader.SIZE + Z.to_nat BLOCK_LENGTH)%nat.

(** Every field holds a value of its C++ type. *)
Definition wf (m : t) : Prop :=
  m.(seqNum) ∈u 32 ∧
  m.(uuid) ∈u 64 ∧
  length m.(execID) = 40%nat ∧
  length m.(senderID) = 20%nat ∧
  length m.(clOrdID) = 20%nat ∧
  m.(partyDetailsListReqID) ∈u 64 ∧
  m.(orderID) ∈u 64 ∧
  m.(price) ∈i 64 ∧
  m.(stopPx) ∈i 64 ∧
  m.(transactTime) ∈u 64 ∧
  m.(sendingTimeEpoch) ∈u 64 ∧
  m.(orderRequestID) ∈u 64 ∧
  length m.(location) = 5%nat ∧
  m.(securityID) ∈i 32 ∧
  m.(orderQty) ∈u 32 ∧
  m.(minQty) ∈u 32 ∧
  m.(displayQty) ∈u 32 ∧
  m.(ordRejReason) ∈u 16 ∧
  m.(ordType) ∈u 8 ∧
  m.(side) ∈u 8 ∧
  m.(timeInForce) ∈u 8 ∧
  m.(manualOrderIndicator) ∈u 8 ∧
  m.(liquidityFlag) ∈u 8 ∧
  m.(managedOrder) ∈u 8 ∧
  m.(shortSaleType) ∈u 8 ∧
  m.(expireDate) ∈u 16.

Definition bytes (m : t) : list byte :=
  MessageHeader.bytes BLOCK_LENGTH TEMPLATE_ID MessageHeader.ILINK3_SCHEMA_ID MessageHeader.ILINK3_VERSION ++ payload (fields m).

#[global] Instance codec : SbeCodec t := {|
  sbe_template := TEMPLATE_ID; sbe_bytes := bytes; sbe_encode := encode;
  sbe_decode := decode; sbe_encodedLength := encodedLength; sbe_wf := wf |}.

#[global] Instance codec_ok : SbeCodecOk t.
Proof. flat_codec fields decode wf. Qed.

#[global] Instance bounds : SbeBounds t.
Proof. exists (Z.to_nat BLOCK_LENGTH). flat_bounds decode BLOCK_LENGTH. Defined.
End ExecutionReportReject523.

(** ** ExecutionReportElimination524 (template 524) *)
Module ExecutionReportElimination524.
Definition TEMPLATE_ID : Z := 524.
Definition BLOCK_LENGTH : Z := 186.
Record t := mk {
  seqNum : Z;
  uuid : Z;
  execID : list byte;
  senderID : list byte;
  clOrdID : list byte;
  partyDetailsListReqID : Z;
  orderID : Z;
  price : Z;
  stopPx : Z;
  transactTime : Z;
  sendingTimeEpoch : Z;
  orderRequestID : Z;
  location : list byte;
  securityID : Z;
  cumQty : Z;
  orderQty : Z;
  minQty : Z;
  displayQty : Z;
  ordType : Z;
  side : Z;
  timeInForce : Z;
  manualOrderIndicator : Z;
  execInst : byte;
  executionMode : byte;
  liquidityFlag : Z;
  managedOrder : Z;
  shortSaleType : Z;
  ordStatus : byte;
  execType : byte;
  expireDate : Z;
}.

Definition init : t :=
  mk 0 0 (replicate 40 Init.Byte.x00) (replicate 20 Init.Byte.x00) (replicate 20 Init.Byte.x00) 0 0 0 0 0 0 0 (replicate 5 Init.Byte.x00) 0 0 0 0 0 0 0 0 0 Init.Byte.x00 Init.Byte.x00 0 0 0 Init.Byte.x43 Init.Byte.x43 0.

Definition fields (m : t) : list cpy :=
  [put_u 0 (m.(seqNum)) 4;
   put_u 4 (m.(uuid)) 8;
   put_c 12 (m.(execID)) 40;
   put_c 52 (m.(senderID)) 20;
   put_c 72 (m.(clOrdID)) 20;
   put_u 92 (m.(partyDetailsListReqID)) 8;
   put_u 100 (m.(orderID)) 8;
   put_i 108 (m.(price)) 8;
   put_i 116 (m.(stopPx)) 8;
   put_u 124 (m.(transactTime)) 8;
   put_u 132 (m.(sendingTimeEpoch)) 8;
   put_u 140 (m.(orderRequestID)) 8;
   put_c 148 (m.(location)) 5;
   put_i 153 (m.(securityID)) 4;
   put_u 157 (m.(cumQty)) 4;
   put_u 161 (m.(orderQty)) 4;
   put_u 165 (m.(minQty)) 4;
   put_u 169 (m.(displayQty)) 4;
   put_u 173 (m.(ordType)) 1;
   put_u 174 (m.(side)) 1;
   put_u 175 (m.(timeInForce)) 1;
   put_u 176 (m.(manualOrderIndicator)) 1;
   put_b 177 (m.(execInst));
   put_b 178 (m.(executionMode));
   put_u 179 (m.(liquidityFlag)) 1;
   put_u 180 (m.(managedOrder)) 1;
   put_u 181 (m.(shortSaleType)) 1;
   put_b 182 (m.(ordStatus));
   put_b 183 (m.(execType));
   put_u 184 (m.(expireDate)) 2].

Definition encode (m : t) (buf : buffer) (offset : nat) : option (buffer * nat) :=
  buf ← MessageHeader.encodeILink3 buf offset BLOCK_LENGTH TEMPLATE_ID;
  buf ← run_cpys buf (offset + MessageHeader.SIZE) (fields m);
  Some (buf, (MessageHeader.SIZE + Z.to_nat BLOCK_LENGTH)%nat).

Definition decode (buf : buffer) (offset : nat) : option t :=
  let b := (offset + MessageHeader.SIZE)%nat in
  seqNum ← rd_u buf (b + 0) 4;
  uuid ← rd_u buf (b + 4) 8;
  execID ← rd_c buf (b + 12) 40;
  senderID ← rd_c buf (b + 52) 20;
  clOrdID ← rd_c buf (b + 72) 20;
  partyDetailsListReqID ← rd_u buf (b + 92) 8;
  orderID ← rd_u buf (b + 100) 8;
  price ← rd_i buf (b + 108) 8;
  stopPx ← rd_i buf (b + 116) 8;
  transactTime ← rd_u buf (b + 124) 8;
  sendingTimeEpoch ← rd_u buf (b + 132) 8;
  orderRequestID ← rd_u buf (b + 140) 8;
  location ← rd_c buf (b + 148) 5;
  securityID ← rd_i buf (b + 153) 4;
  cumQty ← rd_u buf (b + 157) 4;
  orderQty ← rd_u buf (b + 161) 4;
  minQty ← rd_u buf (b + 165) 4;
  displayQty ← rd_u buf (b + 169) 4;
  ordType ← rd_u buf (b + 173) 1;
  side ← rd_u buf (b + 174) 1;
  timeInForce ← rd_u buf (b + 175) 1;
  manualOrderIndicator ← rd_u buf (b + 176) 1;
  execInst ← rd_b buf (b + 177);
  executionMode ← rd_b buf (b + 178);
  liquidityFlag ← rd_u buf (b + 179) 1;
  managedOrder ← rd_u buf (b + 180) 1;
  shortSaleType ← rd_u buf (b + 181) 1;
  ordStatus ← rd_b buf (b + 182);
  execType ← rd_b buf (b + 183);
  expireDate ← rd_u buf (b + 184) 2;
  Some (mk seqNum uuid execID senderID clOrdID partyDetailsListReqID orderID price stopPx transactTime sendingTimeEpoch orderRequestID location securityID cumQty orderQty minQty displayQty ordType side timeInForce manualOrderIndicator execInst executionMode liquidityFlag managedOrder shortSaleType ordStatus execType expireDate).

Definition encodedLength (m : t) : nat := (MessageHeader.SIZE + Z.to_nat BLOCK_LENGTH)%nat.

(** Every field holds a value of its C++ type. *)
Definition wf (m : t) : Prop :=
  m.(seqNum) ∈u 32 ∧
  m.(uuid) ∈u 64 ∧
  length m.(execID) = 40%nat ∧
  length m.(senderID) = 20%nat ∧
  length m.(clOrdID) = 20%nat ∧
  m.(partyDetailsListReqID) ∈u 64 ∧
  m.(orderID) ∈u 64 ∧
  m.(price) ∈i 64 ∧
  m.(stopPx) ∈i 64 ∧
  m.(transactTime) ∈u 64 ∧
  m.(sendingTimeEpoch) ∈u 64 ∧
  m.(orderRequestID) ∈u 64 ∧
  length m.(location) = 5%nat ∧
  m.(securityID) ∈i 32 ∧
  m.(cumQty) ∈u 32 ∧
  m.(orderQty) ∈u 32 ∧
  m.(minQty) ∈u 32 ∧
  m.(displayQty) ∈u 32 ∧
  m.(ordType) ∈u 8 ∧
  m.(side) ∈u 8 ∧
  m.(timeInForce) ∈u 8 ∧
  m.(manualOrderIndicator) ∈u 8 ∧
  m.(liquidityFlag) ∈u 8 ∧
  m.(managedOrder) ∈u 8 ∧
  m.(shortSaleType) ∈u 8 ∧
  m.(expireDate) ∈u 16.

Definition bytes (m : t) : list byte :=
  MessageHeader.bytes BLOCK_LENGTH TEMPLATE_ID MessageHeader.ILINK3_SCHEMA_ID MessageHeader.ILINK3_VERSION ++ payload (fields m).

#[global] Instance codec : SbeCodec t := {|
  sbe_template := TEMPLATE_ID; sbe_bytes := bytes; sbe_encode := encode;
  sbe_decode := decode; sbe_encodedLength := encodedLength; sbe_wf := wf |}.

#[global] Instance codec_ok : SbeCodecOk t.
Proof. flat_codec fields decode wf. Qed.

#[global] Instance bounds : SbeBounds t.
Proof. exists (Z.to_nat BLOCK_LENGTH). flat_bounds decode BLOCK_LENGTH. Defined.
End ExecutionReportElimination524.

(** ** ExecutionReportTradeOutright525 (template 525) *)
Module ExecutionReportTradeOutright525.
Definition TEMPLATE_ID : Z := 525.
Definition BLOCK_LENGTH : Z := 221.
Record t := mk {
  seqNum : Z;
  uuid : Z;
  execID : list byte;
  senderID : list byte;
  clOrdID : list byte;
  partyDetailsListReqID : Z;
  orderID : Z;
  price : Z;
  stopPx : Z;
  transactTime : Z;
  sendingTimeEpoch : Z;
  orderRequestID : Z;
  lastQty : Z;
  lastPx : Z;
  location : list byte;
  securityID : Z;
  orderQty : Z;
  cumQty : Z;
  leavesQty : Z;
  minQty : Z;
  displayQty : Z;
  sideTradeID : Z;
  tradeDate : Z;
  ordType : Z;
  side : Z;
  timeInForce : Z;
  manualOrderIndicator : Z;
  execInst : byte;
  executionMode : byte;
  liquidityFlag : Z;
  managedOrder : Z;
  shortSaleType : Z;
  ordStatus : byte;
  execType : byte;
  aggressorIndicator : Z;
  expireDate : Z;
  fillPx : Z;
  fillQty : Z;
}.

Definition init : t :=
  mk 0 0 (replicate 40 Init.Byte.x00) (replicate 20 Init.Byte.x00) (replicate 20 Init.Byte.x00) 0 0 0 0 0 0 0 0 0 (replicate 5 Init.Byte.x00) 0 0 0 0 0 0 0 0 0 0 0 0 Init.Byte.x00 Init.Byte.x00 0 0 0 Init.Byte.x30 Init.Byte.x46 0 0 0 0.

Definition fields (m : t) : list cpy :=
  [put_u 0 (m.(seqNum)) 4;
   put_u 4 (m.(uuid)) 8;
   put_c 12 (m.(execID)) 40;
   put_c 52 (m.(senderID)) 20;
   put_c 72 (m.(clOrdID)) 20;
   put_u 92 (m.(partyDetailsListReqID)) 8;
   put_u 100 (m.(orderID)) 8;
   put_i 108 (m.(price)) 8;
   put_i 116 (m.(stopPx)) 8;
   put_u 124 (m.(transactTime)) 8;
   put_u 132 (m.(sendingTimeEpoch)) 8;
   put_u 140 (m.(orderRequestID)) 8;
   put_u 148 (m.(lastQty)) 4;
   put_i 152 (m.(lastPx)) 8;
   put_c 160 (m.(location)) 5;
   put_i 165 (m.(securityID)) 4;
   put_u 169 (m.(orderQty)) 4;
   put_u 173 (m.(cumQty)) 4;
   put_u 177 (m.(leavesQty)) 4;
   put_u 181 (m.(minQty)) 4;
   put_u 185 (m.(displayQty)) 4;
   put_u 189 (m.(sideTradeID)) 4;
   put_u 193 (m.(tradeDate)) 2;
   put_u 195 (m.(ordType)) 1;
   put_u 196 (m.(side)) 1;
   put_u 197 (m.(timeInForce)) 1;
   put_u 198 (m.(manualOrderIndicator)) 1;
   put_b 199 (m.(execInst));
   put_b 200 (m.(executionMode));
   put_u 201 (m.(liquidityFlag)) 1;
   put_u 202 (m.(managedOrder)) 1;
   put_u 203 (m.(shortSaleType)) 1;
   put_b 204 (m.(ordStatus));
   put_b 205 (m.(execType));
   put_u 206 (m.(aggressorIndicator)) 1;
   put_u 207 (m.(expireDate)) 2;
   put_i 209 (m.(fillPx)) 8;
   put_u 217 (m.(fillQty)) 4].

Definition encode (m : t) (buf : buffer) (offset : nat) : option (buffer * nat) :=
  buf ← MessageHeader.encodeILink3 buf offset BLOCK_LENGTH TEMPLATE_ID;
  buf ← run_cpys buf (offset + MessageHeader.SIZE) (fields m);
  Some (buf, (MessageHeader.SIZE + Z.to_nat BLOCK_LENGTH)%nat).

Definition decode (buf : buffer) (offset : nat) : option t :=
  let b := (offset + MessageHeader.SIZE)%nat in
  seqNum ← rd_u buf (b + 0) 4;
  uuid ← rd_u buf (b + 4) 8;
  execID ← rd_c buf (b + 12) 40;
  senderID ← rd_c buf (b + 52) 20;
  clOrdID ← rd_c buf (b + 72) 20;
  partyDetailsListReqID ← rd_u buf (b + 92) 8;
  orderID ← rd_u buf (b + 100) 8;
  price ← rd_i buf (b + 108) 8;
  stopPx ← rd_i buf (b + 116) 8;
  transactTime ← rd_u buf (b + 124) 8;
  sendingTimeEpoch ← rd_u buf (b + 132) 8;
  orderRequestID ← rd_u buf (b + 140) 8;
  lastQty ← rd_u buf (b + 148) 4;
  lastPx ← rd_i buf (b + 152) 8;
  location ← rd_c buf (b + 160) 5;
  securityID ← rd_i buf (b + 165) 4;
  orderQty ← rd_u buf (b + 169) 4;
  cumQty ← rd_u buf (b + 173) 4;
  leavesQty ← rd_u buf (b + 177) 4;
  minQty ← rd_u buf (b + 181) 4;
  displayQty ← rd_u buf (b + 185) 4;
  sideTradeID ← rd_u buf (b + 189) 4;
  tradeDate ← rd_u buf (b + 193) 2;
  ordType ← rd_u buf (b + 195) 1;
  side ← rd_u buf (b + 196) 1;
  timeInForce ← rd_u buf (b + 197) 1;
  manualOrderIndicator ← rd_u buf (b + 198) 1;
  execInst ← rd_b buf (b + 199);
  executionMode ← rd_b buf (b + 200);
  liquidityFlag ← rd_u buf (b + 201) 1;
  managedOrder ← rd_u buf (b + 202) 1;
  shortSaleType ← rd_u buf (b + 203) 1;
  ordStatus ← rd_b buf (b + 204);
  execType ← rd_b buf (b + 205);
  aggressorIndicator ← rd_u buf (b + 206) 1;
  expireDate ← rd_u buf (b + 207) 2;
  fillPx ← rd_i buf (b + 209) 8;
  fillQty ← rd_u buf (b + 217) 4;
  Some (mk seqNum uuid execID senderID clOrdID partyDetailsListReqID orderID price stopPx transactTime sendingTimeEpoch orderRequestID lastQty lastPx location securityID orderQty cumQty leavesQty minQty displayQty sideTradeID tradeDate ordType side timeInForce manualOrderIndicator execInst executionMode liquidityFlag managedOrder shortSaleType ordStatus execType aggressorIndicator expireDate fillPx fillQty).

Definition encodedLength (m : t) : nat := (MessageHeader.SIZE + Z.to_nat BLOCK_LENGTH)%nat.

(** Every field holds a value of its C++ type. *)
Definition wf (m : t) : Prop :=
  m.(seqNum) ∈u 32 ∧
  m.(uuid) ∈u 64 ∧
  length m.(execID) = 40%nat ∧
  length m.(senderID) = 20%nat ∧
  length m.(clOrdID) = 20%nat ∧
  m.(partyDetailsListReqID) ∈u 64 ∧
  m.(orderID) ∈u 64 ∧
  m.(price) ∈i 64 ∧
  m.(stopPx) ∈i 64 ∧
  m.(transactTime) ∈u 64 ∧
  m.(sendingTimeEpoch) ∈u 64 ∧
  m.(orderRequestID) ∈u 64 ∧
  m.(lastQty) ∈u 32 ∧
  m.(lastPx) ∈i 64 ∧
  length m.(location) = 5%nat ∧
  m.(securityID) ∈i 32 ∧
  m.(orderQty) ∈u 32 ∧
  m.(cumQty) ∈u 32 ∧
  m.(leavesQty) ∈u 32 ∧
  m.(minQty) ∈u 32 ∧
  m.(displayQty) ∈u 32 ∧
  m.(sideTradeID) ∈u 32 ∧
  m.(tradeDate) ∈u 16 ∧
  m.(ordType) ∈u 8 ∧
  m.(side) ∈u 8 ∧
  m.(timeInForce) ∈u 8 ∧
  m.(manualOrderIndicator) ∈u 8 ∧
  m.(liquidityFlag) ∈u 8 ∧
  m.(managedOrder) ∈u 8 ∧
  m.(shortSaleType) ∈u 8 ∧
  m.(aggressorIndicator) ∈u 8 ∧
  m.(expireDate) ∈u 16 ∧
  m.(fillPx) ∈i 64 ∧
  m.(fillQty) ∈u 32.

Definition bytes (m : t) : list byte :=
  MessageHeader.bytes BLOCK_LENGTH TEMPLATE_ID MessageHeader.ILINK3_SCHEMA_ID MessageHeader.ILINK3_VERSION ++ payload (fields m).

#[global] Instance codec : SbeCodec t := {|
  sbe_template := TEMPLATE_ID; sbe_bytes := bytes; sbe_encode := encode;
  sbe_decode := decode; sbe_encodedLength := encodedLength; sbe_wf := wf |}.

#[global] Instance codec_ok : SbeCodecOk t.
Proof. flat_codec fields decode wf. Qed.

#[global] Instance bounds : SbeBounds t.
Proof. exists (Z.to_nat BLOCK_LENGTH). flat_bounds decode BLOCK_LENGTH. Defined.
End ExecutionReportTradeOutright525.

(** ** ExecutionReportCancel534 (template 534) *)
Module ExecutionReportCancel534.
Definition TEMPLATE_ID : Z := 534.
Definition BLOCK_LENGTH : Z := 186.
Record t := mk {
  seqNum : Z;
  uuid : Z;
  execID : list byte;
  senderID : list byte;
  clOrdID : list byte;
  partyDetailsListReqID : Z;
  orderID : Z;
  price : Z;
  stopPx : Z;
  transactTime : Z;
  sendingTimeEpoch : Z;
  orderRequestID : Z;
  location : list byte;
  securityID : Z;
  cumQty : Z;
  orderQty : Z;
  minQty : Z;
  displayQty : Z;
  ordType : Z;
  side : Z;
  timeInForce : Z;
  manualOrderIndicator : Z;
  execInst : byte;
  executionMode : byte;
  liquidityFlag : Z;
  managedOrder : Z;
  shortSaleType : Z;
  ordStatus : byte;
  execType : byte;
  expireDate : Z;
}.

Definition init : t :=
  mk 0 0 (replicate 40 Init.Byte.x00) (replicate 20 Init.Byte.x00) (replicate 20 Init.Byte.x00) 0 0 0 0 0 0 0 (replicate 5 Init.Byte.x00) 0 0 0 0 0 0 0 0 0 Init.Byte.x00 Init.Byte.x00 0 0 0 Init.Byte.x34 Init.Byte.x34 0.

Definition fields (m : t) : list cpy :=
  [put_u 0 (m.(seqNum)) 4;
   put_u 4 (m.(uuid)) 8;
   put_c 12 (m.(execID)) 40;
   put_c 52 (m.(senderID)) 20;
   put_c 72 (m.(clOrdID)) 20;
   put_u 92 (m.(partyDetailsListReqID)) 8;
   put_u 100 (m.(orderID)) 8;
   put_i 108 (m.(price)) 8;
   put_i 116 (m.(stopPx)) 8;
   put_u 124 (m.(transactTime)) 8;
   put_u 132 (m.(sendingTimeEpoch)) 8;
   put_u 140 (m.(orderRequestID)) 8;
   put_c 148 (m.(location)) 5;
   put_i 153 (m.(securityID)) 4;
   put_u 157 (m.(cumQty)) 4;
   put_u 161 (m.(orderQty)) 4;
   put_u 165 (m.(minQty)) 4;
   put_u 169 (m.(displayQty)) 4;
   put_u 173 (m.(ordType)) 1;
   put_u 174 (m.(side)) 1;
   put_u 175 (m.(timeInForce)) 1;
   put_u 176 (m.(manualOrderIndicator)) 1;
   put_b 177 (m.(execInst));
   put_b 178 (m.(executionMode));
   put_u 179 (m.(liquidityFlag)) 1;
   put_u 180 (m.(managedOrder)) 1;
   put_u 181 (m.(shortSaleType)) 1;
   put_b 182 (m.(ordStatus));
   put_b 183 (m.(execType));
   put_u 184 (m.(expireDate)) 2].

Definition encode (m : t) (buf : buffer) (offset : nat) : option (buffer * nat) :=
  buf ← MessageHeader.encodeILink3 buf offset BLOCK_LENGTH TEMPLATE_ID;
  buf ← run_cpys buf (offset + MessageHeader.SIZE) (fields m);
  Some (buf, (MessageHeader.SIZE + Z.to_nat BLOCK_LENGTH)%nat).

Definition decode (buf : buffer) (offset : nat) : option t :=
  let b := (offset + MessageHeader.SIZE)%nat in
  seqNum ← rd_u buf (b + 0) 4;
  uuid ← rd_u buf (b + 4) 8;
  execID ← rd_c buf (b + 12) 40;
  senderID ← rd_c buf (b + 52) 20;
  clOrdID ← rd_c buf (b + 72) 20;
  partyDetailsListReqID ← rd_u buf (b + 92) 8;
  orderID ← rd_u buf (b + 100) 8;
  price ← rd_i buf (b + 108) 8;
  stopPx ← rd_i buf (b + 116) 8;
  transactTime ← rd_u buf (b + 124) 8;
  sendingTimeEpoch ← rd_u buf (b + 132) 8;
  orderRequestID ← rd_u buf (b + 140) 8;
  location ← rd_c buf (b + 148) 5;
  securityID ← rd_i buf (b + 153) 4;
  cumQty ← rd_u buf (b + 157) 4;
  orderQty ← rd_u buf (b + 161) 4;
  minQty ← rd_u buf (b + 165) 4;
  displayQty ← rd_u buf (b + 169) 4;
  ordType ← rd_u buf (b + 173) 1;
  side ← rd_u buf (b + 174) 1;
  timeInForce ← rd_u buf (b + 175) 1;
  manualOrderIndicator ← rd_u buf (b + 176) 1;
  execInst ← rd_b buf (b + 177);
  executionMode ← rd_b buf (b + 178);
  liquidityFlag ← rd_u buf (b + 179) 1;
  managedOrder ← rd_u buf (b + 180) 1;
  shortSaleType ← rd_u buf (b + 181) 1;
  ordStatus ← rd_b buf (b + 182);
  execType ← rd_b buf (b + 183);
  expireDate ← rd_u buf (b + 184) 2;
  Some (mk seqNum uuid execID senderID clOrdID partyDetailsListReqID orderID price stopPx transactTime sendingTimeEpoch orderRequestID location securityID cumQty orderQty minQty displayQty ordType side timeInForce manualOrderIndicator execInst executionMode liquidityFlag managedOrder shortSaleType ordStatus execType expireDate).

Definition encodedLength (m : t) : nat := (MessageHeader.SIZE + Z.to_nat BLOCK_LENGTH)%nat.

(** Every field holds a value of its C++ type. *)
Definition wf (m : t) : Prop :=
  m.(seqNum) ∈u 32 ∧
  m.(uuid) ∈u 64 ∧
  length m.(execID) = 40%nat ∧
  length m.(senderID) = 20%nat ∧
  length m.(clOrdID) = 20%nat ∧
  m.(partyDetailsListReqID) ∈u 64 ∧
  m.(orderID) ∈u 64 ∧
  m.(price) ∈i 64 ∧
  m.(stopPx) ∈i 64 ∧
  m.(transactTime) ∈u 64 ∧
  m.(sendingTimeEpoch) ∈u 64 ∧
  m.(orderRequestID) ∈u 64 ∧
  length m.(location) = 5%nat ∧
  m.(securityID) ∈i 32 ∧
  m.(cumQty) ∈u 32 ∧
  m.(orderQty) ∈u 32 ∧
  m.(minQty) ∈u 32 ∧
  m.(displayQty) ∈u 32 ∧
  m.(ordType) ∈u 8 ∧
  m.(side) ∈u 8 ∧
  m.(timeInForce) ∈u 8 ∧
  m.(manualOrderIndicator) ∈u 8 ∧
  m.(liquidityFlag) ∈u 8 ∧
  m.(managedOrder) ∈u 8 ∧
  m.(shortSaleType) ∈u 8 ∧
  m.(expireDate) ∈u 16.

Definition bytes (m : t) : list byte :=
  MessageHeader.bytes BLOCK_LENGTH TEMPLATE_ID MessageHeader.ILINK3_SCHEMA_ID MessageHeader.ILINK3_VERSION ++ payload (fields m).

#[global] Instance codec : SbeCodec t := {|
  sbe_template := TEMPLATE_ID; sbe_bytes := bytes; sbe_encode := encode;
  sbe_decode := decode; sbe_encodedLength := encodedLength; sbe_wf := wf |}.

#[global] Instance codec_ok : SbeCodecOk t.
Proof. flat_codec fields decode wf. Qed.

#[global] Instance bounds : SbeBounds t.
Proof. exists (Z.to_nat BLOCK_LENGTH). flat_bounds decode BLOCK_LENGTH. Defined.
End ExecutionReportCancel534.

(** ** ExecutionReportModify531 (template 531) *)
Module ExecutionReportModify531.
Definition TEMPLATE_ID : Z := 531.
Definition BLOCK_LENGTH : Z := 186.
Record t := mk {
  seqNum : Z;
  uuid : Z;
  execID : list byte;
  senderID : list byte;
  clOrdID : list byte;
  partyDetailsListReqID : Z;
  orderID : Z;
  price : Z;
  stopPx : Z;
  transactTime : Z;
  sendingTimeEpoch : Z;
  orderRequestID : Z;
  location : list byte;
  securityID : Z;
  cumQty : Z;
  orderQty : Z;
  minQty : Z;
  displayQty : Z;
  ordType : Z;
  side : Z;
  timeInForce : Z;
  manualOrderIndicator : Z;
  execInst : byte;
  executionMode : byte;
  liquidityFlag : Z;
  managedOrder : Z;
  shortSaleType : Z;
  ordStatus : byte;
  execType : byte;
  expireDate : Z;
}.

Definition init : t :=
  mk 0 0 (replicate 40 Init.Byte.x00) (replicate 20 Init.Byte.x00) (replicate 20 Init.Byte.x00) 0 0 0 0 0 0 0 (replicate 5 Init.Byte.x00) 0 0 0 0 0 0 0 0 0 Init.Byte.x00 Init.Byte.x00 0 0 0 Init.Byte.x30 Init.Byte.x35 0.

Definition fields (m : t) : list cpy :=
  [put_u 0 (m.(seqNum)) 4;
   put_u 4 (m.(uuid)) 8;
   put_c 12 (m.(execID)) 40;
   put_c 52 (m.(senderID)) 20;
   put_c 72 (m.(clOrdID)) 20;
   put_u 92 (m.(partyDetailsListReqID)) 8;
   put_u 100 (m.(orderID)) 8;
   put_i 108 (m.(price)) 8;
   put_i 116 (m.(stopPx)) 8;
   put_u 124 (m.(transactTime)) 8;
   put_u 132 (m.(sendingTimeEpoch)) 8;
   put_u 140 (m.(orderRequestID)) 8;
   put_c 148 (m.(location)) 5;
   put_i 153 (m.(securityID)) 4;
   put_u 157 (m.(cumQty)) 4;
   put_u 161 (m.(orderQty)) 4;
   put_u 165 (m.(minQty)) 4;
   put_u 169 (m.(displayQty)) 4;
   put_u 173 (m.(ordType)) 1;
   put_u 174 (m.(side)) 1;
   put_u 175 (m.(timeInForce)) 1;
   put_u 176 (m.(manualOrderIndicator)) 1;
   put_b 177 (m.(execInst));
   put_b 178 (m.(executionMode));
   put_u 179 (m.(liquidityFlag)) 1;
   put_u 180 (m.(managedOrder)) 1;
   put_u 181 (m.(shortSaleType)) 1;
   put_b 182 (m.(ordStatus));
   put_b 183 (m.(execType));
   put_u 184 (m.(expireDate)) 2].

Definition encode (m : t) (buf : buffer) (offset : nat) : option (buffer * nat) :=
  buf ← MessageHeader.encodeILink3 buf offset BLOCK_LENGTH TEMPLATE_ID;
  buf ← run_cpys buf (offset + MessageHeader.SIZE) (fields m);
  Some (buf, (MessageHeader.SIZE + Z.to_nat BLOCK_LENGTH)%nat).

Definition decode (buf : buffer) (offset : nat) : option t :=
  let b := (offset + MessageHeader.SIZE)%nat in
  seqNum ← rd_u buf (b + 0) 4;
  uuid ← rd_u buf (b + 4) 8;
  execID ← rd_c buf (b + 12) 40;
  senderID ← rd_c buf (b + 52) 20;
  clOrdID ← rd_c buf (b + 72) 20;
  partyDetailsListReqID ← rd_u buf (b + 92) 8;
  orderID ← rd_u buf (b + 100) 8;
  price ← rd_i buf (b + 108) 8;
  stopPx ← rd_i buf (b + 116) 8;
  transactTime ← rd_u buf (b + 124) 8;
  sendingTimeEpoch ← rd_u buf (b + 132) 8;
  orderRequestID ← rd_u buf (b + 140) 8;
  location ← rd_c buf (b + 148) 5;
  securityID ← rd_i buf (b + 153) 4;
  cumQty ← rd_u buf (b + 157) 4;
  orderQty ← rd_u buf (b + 161) 4;
  minQty ← rd_u buf (b + 165) 4;
  displayQty ← rd_u buf (b + 169) 4;
  ordType ← rd_u buf (b + 173) 1;
  side ← rd_u buf (b + 174) 1;
  timeInForce ← rd_u buf (b + 175) 1;
  manualOrderIndicator ← rd_u buf (b + 176) 1;
  execInst ← rd_b buf (b + 177);
  executionMode ← rd_b buf (b + 178);
  liquidityFlag ← rd_u buf (b + 179) 1;
  managedOrder ← rd_u buf (b + 180) 1;
  shortSaleType ← rd_u buf (b + 181) 1;
  ordStatus ← rd_b buf (b + 182);
  execType ← rd_b buf (b + 183);
  expireDate ← rd_u buf (b + 184) 2;
  Some (mk seqNum uuid execID senderID clOrdID partyDetailsListReqID orderID price stopPx transactTime sendingTimeEpoch orderRequestID location securityID cumQty orderQty minQty displayQty ordType side timeInForce manualOrderIndicator execInst executionMode liquidityFlag managedOrder shortSaleType ordStatus execType expireDate).

Definition encodedLength (m : t) : nat := (MessageHeader.SIZE + Z.to_nat BLOCK_LENGTH)%nat.

(** Every field holds a value of its C++ type. *)
Definition wf (m : t) : Prop :=
  m.(seqNum) ∈u 32 ∧
  m.(uuid) ∈u 64 ∧
  length m.(execID) = 40%nat ∧
  length m.(senderID) = 20%nat ∧
  length m.(clOrdID) = 20%nat ∧
  m.(partyDetailsListReqID) ∈u 64 ∧
  m.(orderID) ∈u 64 ∧
  m.(price) ∈i 64 ∧
  m.(stopPx) ∈i 64 ∧
  m.(transactTime) ∈u 64 ∧
  m.(sendingTimeEpoch) ∈u 64 ∧
  m.(orderRequestID) ∈u 64 ∧
  length m.(location) = 5%nat ∧
  m.(securityID) ∈i 32 ∧
  m.(cumQty) ∈u 32 ∧
  m.(orderQty) ∈u 32 ∧
  m.(minQty) ∈u 32 ∧
  m.(displayQty) ∈u 32 ∧
  m.(ordType) ∈u 8 ∧
  m.(side) ∈u 8 ∧
  m.(timeInForce) ∈u 8 ∧
  m.(manualOrderIndicator) ∈u 8 ∧
  m.(liquidityFlag) ∈u 8 ∧
  m.(managedOrder) ∈u 8 ∧
  m.(shortSaleType) ∈u 8 ∧
  m.(expireDate) ∈u 16.

Definition bytes (m : t) : list byte :=
  MessageHeader.bytes BLOCK_LENGTH TEMPLATE_ID MessageHeader.ILINK3_SCHEMA_ID MessageHeader.ILINK3_VERSION ++ payload (fields m).

#[global] Instance codec : SbeCodec t := {|
  sbe_template := TEMPLATE_ID; sbe_bytes := bytes; sbe_encode := encode;
  sbe_decode := decode; sbe_encodedLength := encodedLength; sbe_wf := wf |}.

#[global] Instance codec_ok : SbeCodecOk t.
Proof. flat_codec fields decode wf. Qed.

#[global] Instance bounds : SbeBounds t.
Proof. exists (Z.to_nat BLOCK_LENGTH). flat_bounds decode BLOCK_LENGTH. Defined.
End ExecutionReportModify531.

(** ** OrderCancelReject535 (template 535) *)
Module OrderCancelReject535.
Definition TEMPLATE_ID : Z := 535.
Definition BLOCK_LENGTH : Z := 140.
Record t := mk {
  seqNum : Z;
  uuid : Z;
  execID : list byte;
  senderID : list byte;
  clOrdID : list byte;
  partyDetailsListReqID : Z;
  orderID : Z;
  transactTime : Z;
  sendingTimeEpoch : Z;
  orderRequestID : Z;
  location : list byte;
  cxlRejReason : Z;
  manualOrderIndicator : Z;
}.

Definition init : t :=
  mk 0 0 (replicate 40 Init.Byte.x00) (replicate 20 Init.Byte.x00) (replicate 20 Init.Byte.x00) 0 0 0 0 0 (replicate 5 Init.Byte.x00) 0 0.

Definition fields (m : t) : list cpy :=
  [put_u 0 (m.(seqNum)) 4;
   put_u 4 (m.(uuid)) 8;
   put_c 12 (m.(execID)) 40;
   put_c 52 (m.(senderID)) 20;
   put_c 72 (m.(clOrdID)) 20;
   put_u 92 (m.(partyDetailsListReqID)) 8;
   put_u 100 (m.(orderID)) 8;
   put_u 108 (m.(transactTime)) 8;
   put_u 116 (m.(sendingTimeEpoch)) 8;
   put_u 124 (m.(orderRequestID)) 8;
   put_c 132 (m.(location)) 5;
   put_u 137 (m.(cxlRejReason)) 2;
   put_u 139 (m.(manualOrderIndicator)) 1].

Definition encode (m : t) (buf : buffer) (offset : nat) : option (buffer * nat) :=
  buf ← MessageHeader.encodeILink3 buf offset BLOCK_LENGTH TEMPLATE_ID;
  buf ← run_cpys buf (offset + MessageHeader.SIZE) (fields m);
  Some (buf, (MessageHeader.SIZE + Z.to_nat BLOCK_LENGTH)%nat).

Definition decode (buf : buffer) (offset : nat) : option t :=
  let b := (offset + MessageHeader.SIZE)%nat in
  seqNum ← rd_u buf (b + 0) 4;
  uuid ← rd_u buf (b + 4) 8;
  execID ← rd_c buf (b + 12) 40;
  senderID ← rd_c buf (b + 52) 20;
  clOrdID ← rd_c buf (b + 72) 20;
  partyDetailsListReqID ← rd_u buf (b + 92) 8;
  orderID ← rd_u buf (b + 100) 8;
  transactTime ← rd_u buf (b + 108) 8;
  sendingTimeEpoch ← rd_u buf (b + 116) 8;
  orderRequestID ← rd_u buf (b + 124) 8;
  location ← rd_c buf (b + 132) 5;
  cxlRejReason ← rd_u buf (b + 137) 2;
  manualOrderIndicator ← rd_u buf (b + 139) 1;
  Some (mk seqNum uuid execID senderID clOrdID partyDetailsListReqID orderID transactTime sendingTimeEpoch orderRequestID location cxlRejReason manualOrderIndicator).

Definition encodedLength (m : t) : nat := (MessageHeader.SIZE + Z.to_nat BLOCK_LENGTH)%nat.

(** Every field holds a value of its C++ type. *)
Definition wf (m : t) : Prop :=
  m.(seqNum) ∈u 32 ∧
  m.(uuid) ∈u 64 ∧
  length m.(execID) = 40%nat ∧
  length m.(senderID) = 20%nat ∧
  length m.(clOrdID) = 20%nat ∧
  m.(partyDetailsListReqID) ∈u 64 ∧
  m.(orderID) ∈u 64 ∧
  m.(transactTime) ∈u 64 ∧
  m.(sendingTimeEpoch) ∈u 64 ∧
  m.(orderRequestID) ∈u 64 ∧
  length m.(location) = 5%nat ∧
  m.(cxlRejReason) ∈u 16 ∧
  m.(manualOrderIndicator) ∈u 8.

Definition bytes (m : t) : list byte :=
  MessageHeader.bytes BLOCK_LENGTH TEMPLATE_ID MessageHeader.ILINK3_SCHEMA_ID MessageHeader.ILINK3_VERSION ++ payload (fields m).

#[global] Instance codec : SbeCodec t := {|
  sbe_template := TEMPLATE_ID; sbe_bytes := bytes; sbe_encode := encode;
  sbe_decode := decode; sbe_encodedLength := encodedLength; sbe_wf := wf |}.

#[global] Instance codec_ok : SbeCodecOk t.
Proof. flat_codec fields decode wf. Qed.

#[global] Instance bounds : SbeBounds t.
Proof. exists (Z.to_nat BLOCK_LENGTH). flat_bounds decode BLOCK_LENGTH. Defined.
End OrderCancelReject535.
