(* ===== verification/Mdp3.v ===== *)
(** * MDP 3.0 messages (src/sbe/mdp3_messages.h)

    As in the iLink 3 file, one module per message; messages with repeating
    groups use the group combinators of [Sbe]. *)
From S2P Require Import Prelude Sbe.

(** ** ChannelReset4 (template 4) *)
Module ChannelReset4.
Definition TEMPLATE_ID : Z := 4.
Definition BLOCK_LENGTH : Z := 9.
Module Entry.
Definition ENTRY_BLOCK_LENGTH : Z := 2.
Record t := mk {
  applID : Z;
}.

Definition init : t := mk 0.

Definition fields (m : t) : list cpy :=
  [put_i 0 (m.(applID)) 2].

Definition decode (buf : buffer) (b : nat) : option t :=
  applID ← rd_i buf (b + 0) 2;
  Some (mk applID).

Definition wf (m : t) : Prop :=
  m.(applID) ∈i 16.

Lemma ChannelReset4_Entry_packed m : wf m → packed 0 (fields m).
Proof. intros Hw. unfold wf in Hw. destruct_and?. solve_packed fields. Qed.

Lemma ChannelReset4_Entry_length m : wf m → length (payload (fields m)) = Z.to_nat ENTRY_BLOCK_LENGTH.
Proof. intros Hw. unfold wf in Hw. destruct_and?. solve_payload_length fields. Qed.

Lemma ChannelReset4_Entry_decode m pre post base :
  wf m → length pre = base → packed 0 (fields m) →
  decode (pre ++ payload (fields m) ++ post) base = Some m.
Proof.
  intros Hw Hb Hp. unfold wf in Hw. destruct_and?. unfold decode.
  symmetry in Hb. rd_steps 0%nat Hp Hb. by destruct m.
Qed.
End Entry.

Record t := mk {
  transactTime : Z;
  matchEventIndicator : Z;
  entries : list Entry.t;
}.

Definition init : t := mk 0 0 [].

Definition fields (m : t) : list cpy :=
  [put_u 0 (m.(transactTime)) 8;
   put_u 8 (m.(matchEventIndicator)) 1].

Definition encode (m : t) (buf : buffer) (offset : nat) : option (buffer * nat) :=
  buf ← MessageHeader.encodeMDP3 buf offset BLOCK_LENGTH TEMPLATE_ID;
  let b := (offset + MessageHeader.SIZE)%nat in
  buf ← run_cpys buf b (fields m);
  let pos := Z.to_nat BLOCK_LENGTH in
  '(buf, pos) ← encode_group Entry.fields Entry.ENTRY_BLOCK_LENGTH buf b pos (m.(entries));
  Some (buf, (MessageHeader.SIZE + pos)%nat).

Definition decode (buf : buffer) (offset : nat) : option t :=
  let b := (offset + MessageHeader.SIZE)%nat in
  transactTime ← rd_u buf (b + 0) 8;
  matchEventIndicator ← rd_u buf (b + 8) 1;
  let pos := Z.to_nat BLOCK_LENGTH in
  '(entries, pos) ← decode_group Entry.decode buf b pos;
  Some (mk transactTime matchEventIndicator entries).

Definition encodedLength (m : t) : nat :=
  (MessageHeader.SIZE + Z.to_nat BLOCK_LENGTH + group_length Entry.ENTRY_BLOCK_LENGTH m.(entries))%nat.

(** Every field holds a value of its C++ type and every group fits its one-byte count. *)
Definition wf (m : t) : Prop :=
  m.(transactTime) ∈u 64 ∧
  m.(matchEventIndicator) ∈u 8 ∧
  Forall Entry.wf m.(entries) ∧ (length m.(entries) < 256)%nat.

Definition bytes (m : t) : list byte :=
  MessageHeader.bytes BLOCK_LENGTH TEMPLATE_ID MessageHeader.MDP3_SCHEMA_ID MessageHeader.MDP3_VERSION ++
  payload (fields m) ++ group_bytes Entry.fields Entry.ENTRY_BLOCK_LENGTH m.(entries).

#[global] Instance codec : SbeCodec t := {|
  sbe_template := TEMPLATE_ID; sbe_bytes := bytes; sbe_encode := encode;
  sbe_decode := decode; sbe_encodedLength := encodedLength; sbe_wf := wf |}.

Lemma ChannelReset4_packed m : wf m → packed 0 (fields m).
Proof. intros Hw. unfold wf in Hw. destruct_and?. solve_packed fields. Qed.

Lemma ChannelReset4_payload m : wf m → length (payload (fields m)) = Z.to_nat BLOCK_LENGTH.
Proof. intros Hw. unfold wf in Hw. destruct_and?. solve_payload_length fields. Qed.

#[global] Instance codec_ok : SbeCodecOk t.
Proof.
  split.
  - intros m Hw. pose proof (ChannelReset4_payload m Hw) as Hl. simpl in Hw. unfold wf in Hw. destruct_and?.
    cbn [sbe_bytes sbe_encodedLength codec]. unfold bytes, encodedLength.
    rewrite !length_app, header_length, Hl.
    erewrite group_bytes_length by eauto using Entry.ChannelReset4_Entry_length.
    by rewrite Nat.add_assoc.
  - intros m pre mid post Hw Hm. apply (one_group_encode BLOCK_LENGTH TEMPLATE_ID _ _ Entry.wf);
      [exact Entry.ChannelReset4_Entry_packed | exact Entry.ChannelReset4_Entry_length | by apply ChannelReset4_packed
      | by apply ChannelReset4_payload | by apply Hw | exact Hm].
  - intros m pre post Hw. pose proof (ChannelReset4_packed m Hw) as Hp.
    pose proof (ChannelReset4_payload m Hw) as Hl. simpl in Hw. unfold wf in Hw. destruct_and?.
    cbn [sbe_bytes sbe_decode codec]. unfold bytes, decode.
    rewrite <-!app_assoc, app_assoc. set (pre' := pre ++ _).
    assert (length pre + MessageHeader.SIZE = length pre')%nat as Hb
      by (unfold pre'; by rewrite length_app, header_length).
    rd_steps 0%nat Hp Hb. rewrite app_assoc.
    erewrite (decode_group_spec Entry.wf Entry.fields Entry.decode);
      eauto using Entry.ChannelReset4_Entry_packed, Entry.ChannelReset4_Entry_length, Entry.ChannelReset4_Entry_decode;
      [by destruct m | done | rewrite length_app; lia].
  - intros m pre post Hw. cbn [sbe_bytes codec]. unfold bytes.
    rewrite <-!app_assoc. by apply header_template.
Qed.
End ChannelReset4.

(** ** AdminHeartbeat12 (template 12) *)
Module AdminHeartbeat12.
Definition TEMPLATE_ID : Z := 12.
Definition BLOCK_LENGTH : Z := 0.
Record t := mk {
}.

Definition init : t :=
  mk .

Definition fields (m : t) : list cpy :=
  [].

Definition encode (m : t) (buf : buffer) (offset : nat) : option (buffer * nat) :=
  buf ← MessageHeader.encodeMDP3 buf offset BLOCK_LENGTH TEMPLATE_ID;
  buf ← run_cpys buf (offset + MessageHeader.SIZE) (fields m);
  Some (buf, (MessageHeader.SIZE + Z.to_nat BLOCK_LENGTH)%nat).

Definition decode (buf : buffer) (offset : nat) : option t :=
  let b := (offset + MessageHeader.SIZE)%nat in
  Some (mk ).

Definition encodedLength (m : t) : nat := (MessageHeader.SIZE + Z.to_nat BLOCK_LENGTH)%nat.

(** Every field holds a value of its C++ type. *)
Definition wf (m : t) : Prop :=
  True.

Definition bytes (m : t) : list byte :=
  MessageHeader.bytes BLOCK_LENGTH TEMPLATE_ID MessageHeader.MDP3_SCHEMA_ID MessageHeader.MDP3_VERSION ++ payload (fields m).

#[global] Instance codec : SbeCodec t := {|
  sbe_template := TEMPLATE_ID; sbe_bytes := bytes; sbe_encode := encode;
  sbe_decode := decode; sbe_encodedLength := encodedLength; sbe_wf := wf |}.

#[global] Instance codec_ok : SbeCodecOk t.
Proof. flat_codec fields decode wf. Qed.
End AdminHeartbeat12.

(** ** SecurityStatus30 (template 30) *)
Module SecurityStatus30.
Definition TEMPLATE_ID : Z := 30.
Definition BLOCK_LENGTH : Z := 30.
Record t := mk {
  transactTime : Z;
  securityGroup : list byte;
  asset : list byte;
  securityID : Z;
  tradeDate : Z;
  matchEventIndicator : Z;
  securityTradingStatus : Z;
  haltReason : Z;
  securityTradingEvent : Z;
}.

Definition init : t :=
  mk 0 (replicate 6 Init.Byte.x00) (replicate 6 Init.Byte.x00) 0 0 0 0 0 0.

Definition fields (m : t) : list cpy :=
  [put_u 0 (m.(transactTime)) 8;
   put_c 8 (m.(securityGroup)) 6;
   put_c 14 (m.(asset)) 6;
   put_i 20 (m.(securityID)) 4;
   put_u 24 (m.(tradeDate)) 2;
   put_u 26 (m.(matchEventIndicator)) 1;
   put_u 27 (m.(securityTradingStatus)) 1;
   put_u 28 (m.(haltReason)) 1;
   put_u 29 (m.(securityTradingEvent)) 1].

Definition encode (m : t) (buf : buffer) (offset : nat) : option (buffer * nat) :=
  buf ← MessageHeader.encodeMDP3 buf offset BLOCK_LENGTH TEMPLATE_ID;
  buf ← run_cpys buf (offset + MessageHeader.SIZE) (fields m);
  Some (buf, (MessageHeader.SIZE + Z.to_nat BLOCK_LENGTH)%nat).

Definition decode (buf : buffer) (offset : nat) : option t :=
  let b := (offset + MessageHeader.SIZE)%nat in
  transactTime ← rd_u buf (b + 0) 8;
  securityGroup ← rd_c buf (b + 8) 6;
  asset ← rd_c buf (b + 14) 6;
  securityID ← rd_i buf (b + 20) 4;
  tradeDate ← rd_u buf (b + 24) 2;
  matchEventIndicator ← rd_u buf (b + 26) 1;
  securityTradingStatus ← rd_u buf (b + 27) 1;
  haltReason ← rd_u buf (b + 28) 1;
  securityTradingEvent ← rd_u buf (b + 29) 1;
  Some (mk transactTime securityGroup asset securityID tradeDate matchEventIndicator securityTradingStatus haltReason securityTradingEvent).

Definition encodedLength (m : t) : nat := (MessageHeader.SIZE + Z.to_nat BLOCK_LENGTH)%nat.

(** Every field holds a value of its C++ type. *)
Definition wf (m : t) : Prop :=
  m.(transactTime) ∈u 64 ∧
  length m.(securityGroup) = 6%nat ∧
  length m.(asset) = 6%nat ∧
  m.(securityID) ∈i 32 ∧
  m.(tradeDate) ∈u 16 ∧
  m.(matchEventIndicator) ∈u 8 ∧
  m.(securityTradingStatus) ∈u 8 ∧
  m.(haltReason) ∈u 8 ∧
  m.(securityTradingEvent) ∈u 8.

Definition bytes (m : t) : list byte :=
  MessageHeader.bytes BLOCK_LENGTH TEMPLATE_ID MessageHeader.MDP3_SCHEMA_ID MessageHeader.MDP3_VERSION ++ payload (fields m).

#[global] Instance codec : SbeCodec t := {|
  sbe_template := TEMPLATE_ID; sbe_bytes := bytes; sbe_encode := encode;
  sbe_decode := decode; sbe_encodedLength := encodedLength; sbe_wf := wf |}.

#[global] Instance codec_ok : SbeCodecOk t.
Proof. flat_codec fields decode wf. Qed.
End SecurityStatus30.

(** ** MDIncrementalRefreshBook46 (template 46) *)
Module MDIncrementalRefreshBook46.
Definition TEMPLATE_ID : Z := 46.
Definition BLOCK_LENGTH : Z := 9.
Module Entry.
Definition ENTRY_BLOCK_LENGTH : Z := 27.
Record t := mk {
  mdEntryPx : Z;
  mdEntrySize : Z;
  securityID : Z;
  rptSeq : Z;
  numberOfOrders : Z;
  mdPriceLevel : Z;
  mdUpdateAction : Z;
  mdEntryType : byte;
}.

Definition init : t := mk 0 0 0 0 0 0 0 Init.Byte.x00.

Definition fields (m : t) : list cpy :=
  [put_i 0 (m.(mdEntryPx)) 8;
   put_i 8 (m.(mdEntrySize)) 4;
   put_i 12 (m.(securityID)) 4;
   put_u 16 (m.(rptSeq)) 4;
   put_i 20 (m.(numberOfOrders)) 4;
   put_u 24 (m.(mdPriceLevel)) 1;
   put_u 25 (m.(mdUpdateAction)) 1;
   put_b 26 (m.(mdEntryType))].

Definition decode (buf : buffer) (b : nat) : option t :=
  mdEntryPx ← rd_i buf (b + 0) 8;
  mdEntrySize ← rd_i buf (b + 8) 4;
  securityID ← rd_i buf (b + 12) 4;
  rptSeq ← rd_u buf (b + 16) 4;
  numberOfOrders ← rd_i buf (b + 20) 4;
  mdPriceLevel ← rd_u buf (b + 24) 1;
  mdUpdateAction ← rd_u buf (b + 25) 1;
  mdEntryType ← rd_b buf (b + 26);
  Some (mk mdEntryPx mdEntrySize securityID rptSeq numberOfOrders mdPriceLevel mdUpdateAction mdEntryType).

Definition wf (m : t) : Prop :=
  m.(mdEntryPx) ∈i 64 ∧
  m.(mdEntrySize) ∈i 32 ∧
  m.(securityID) ∈i 32 ∧
  m.(rptSeq) ∈u 32 ∧
  m.(numberOfOrders) ∈i 32 ∧
  m.(mdPriceLevel) ∈u 8 ∧
  m.(mdUpdateAction) ∈u 8.

Lemma MDIncrementalRefreshBook46_Entry_packed m : wf m → packed 0 (fields m).
Proof. intros Hw. unfold wf in Hw. destruct_and?. solve_packed fields. Qed.

Lemma MDIncrementalRefreshBook46_Entry_length m : wf m → length (payload (fields m)) = Z.to_nat ENTRY_BLOCK_LENGTH.
Proof. intros Hw. unfold wf in Hw. destruct_and?. solve_payload_length fields. Qed.

Lemma MDIncrementalRefreshBook46_Entry_decode m pre post base :
  wf m → length pre = base → packed 0 (fields m) →
  decode (pre ++ payload (fields m) ++ post) base = Some m.
Proof.
  intros Hw Hb Hp. unfold wf in Hw. destruct_and?. unfold decode.
  symmetry in Hb. rd_steps 0%nat Hp Hb. by destruct m.
Qed.
End Entry.

Record t := mk {
  transactTime : Z;
  matchEventIndicator : Z;
  entries : list Entry.t;
}.

Definition init : t := mk 0 0 [].

Definition fields (m : t) : list cpy :=
  [put_u 0 (m.(transactTime)) 8;
   put_u 8 (m.(matchEventIndicator)) 1].

Definition encode (m : t) (buf : buffer) (offset : nat) : option (buffer * nat) :=
  buf ← MessageHeader.encodeMDP3 buf offset BLOCK_LENGTH TEMPLATE_ID;
  let b := (offset + MessageHeader.SIZE)%nat in
  buf ← run_cpys buf b (fields m);
  let pos := Z.to_nat BLOCK_LENGTH in
  '(buf, pos) ← encode_group Entry.fields Entry.ENTRY_BLOCK_LENGTH buf b pos (m.(entries));
  Some (buf, (MessageHeader.SIZE + pos)%nat).

Definition decode (buf : buffer) (offset : nat) : option t :=
  let b := (offset + MessageHeader.SIZE)%nat in
  transactTime ← rd_u buf (b + 0) 8;
  matchEventIndicator ← rd_u buf (b + 8) 1;
  let pos := Z.to_nat BLOCK_LENGTH in
  '(entries, pos) ← decode_group Entry.decode buf b pos;
  Some (mk transactTime matchEventIndicator entries).

Definition encodedLength (m : t) : nat :=
  (MessageHeader.SIZE + Z.to_nat BLOCK_LENGTH + group_length Entry.ENTRY_BLOCK_LENGTH m.(entries))%nat.

(** Every field holds a value of its C++ type and every group fits its one-byte count. *)
Definition wf (m : t) : Prop :=
  m.(transactTime) ∈u 64 ∧
  m.(matchEventIndicator) ∈u 8 ∧
  Forall Entry.wf m.(entries) ∧ (length m.(entries) < 256)%nat.

Definition bytes (m : t) : list byte :=
  MessageHeader.bytes BLOCK_LENGTH TEMPLATE_ID MessageHeader.MDP3_SCHEMA_ID MessageHeader.MDP3_VERSION ++
  payload (fields m) ++ group_bytes Entry.fields Entry.ENTRY_BLOCK_LENGTH m.(entries).

#[global] Instance codec : SbeCodec t := {|
  sbe_template := TEMPLATE_ID; sbe_bytes := bytes; sbe_encode := encode;
  sbe_decode := decode; sbe_encodedLength := encodedLength; sbe_wf := wf |}.

Lemma MDIncrementalRefreshBook46_packed m : wf m → packed 0 (fields m).
Proof. intros Hw. unfold wf in Hw. destruct_and?. solve_packed fields. Qed.

Lemma MDIncrementalRefreshBook46_payload m : wf m → length (payload (fields m)) = Z.to_nat BLOCK_LENGTH.
Proof. intros Hw. unfold wf in Hw. destruct_and?. solve_payload_length fields. Qed.

#[global] Instance codec_ok : SbeCodecOk t.
Proof.
  split.
  - intros m Hw. pose proof (MDIncrementalRefreshBook46_payload m Hw) as Hl. simpl in Hw. unfold wf in Hw. destruct_and?.
    cbn [sbe_bytes sbe_encodedLength codec]. unfold bytes, encodedLength.
    rewrite !length_app, header_length, Hl.
    erewrite group_bytes_length by eauto using Entry.MDIncrementalRefreshBook46_Entry_length.
    by rewrite Nat.add_assoc.
  - intros m pre mid post Hw Hm. apply (one_group_encode BLOCK_LENGTH TEMPLATE_ID _ _ Entry.wf);
      [exact Entry.MDIncrementalRefreshBook46_Entry_packed | exact Entry.MDIncrementalRefreshBook46_Entry_length | by apply MDIncrementalRefreshBook46_packed
      | by apply MDIncrementalRefreshBook46_payload | by apply Hw | exact Hm].
  - intros m pre post Hw. pose proof (MDIncrementalRefreshBook46_packed m Hw) as Hp.
    pose proof (MDIncrementalRefreshBook46_payload m Hw) as Hl. simpl in Hw. unfold wf in Hw. destruct_and?.
    cbn [sbe_bytes sbe_decode codec]. unfold bytes, decode.
    rewrite <-!app_assoc, app_assoc. set (pre' := pre ++ _).
    assert (length pre + MessageHeader.SIZE = length pre')%nat as Hb
      by (unfold pre'; by rewrite length_app, header_length).
    rd_steps 0%nat Hp Hb. rewrite app_assoc.
    erewrite (decode_group_spec Entry.wf Entry.fields Entry.decode);
      eauto using Entry.MDIncrementalRefreshBook46_Entry_packed, Entry.MDIncrementalRefreshBook46_Entry_length, Entry.MDIncrementalRefreshBook46_Entry_decode;
      [by destruct m | done | rewrite length_app; lia].
  - intros m pre post Hw. cbn [sbe_bytes codec]. unfold bytes.
    rewrite <-!app_assoc. by apply header_template.
Qed.
End MDIncrementalRefreshBook46.

(** ** MDIncrementalRefreshTradeSummary48 (template 48) *)
Module MDIncrementalRefreshTradeSummary48.
Definition TEMPLATE_ID : Z := 48.
Definition BLOCK_LENGTH : Z := 9.
Module MDEntry.
Definition ENTRY_BLOCK_LENGTH : Z := 26.
Record t := mk {
  mdEntryPx : Z;
  mdEntrySize : Z;
  securityID : Z;
  rptSeq : Z;
  numberOfOrders : Z;
  aggressorSide : Z;
  mdUpdateAction : Z;
}.

Definition init : t := mk 0 0 0 0 0 0 0.

Definition fields (m : t) : list cpy :=
  [put_i 0 (m.(mdEntryPx)) 8;
   put_i 8 (m.(mdEntrySize)) 4;
   put_i 12 (m.(securityID)) 4;
   put_u 16 (m.(rptSeq)) 4;
   put_i 20 (m.(numberOfOrders)) 4;
   put_u 24 (m.(aggressorSide)) 1;
   put_u 25 (m.(mdUpdateAction)) 1].

Definition decode (buf : buffer) (b : nat) : option t :=
  mdEntryPx ← rd_i buf (b + 0) 8;
  mdEntrySize ← rd_i buf (b + 8) 4;
  securityID ← rd_i buf (b + 12) 4;
  rptSeq ← rd_u buf (b + 16) 4;
  numberOfOrders ← rd_i buf (b + 20) 4;
  aggressorSide ← rd_u buf (b + 24) 1;
  mdUpdateAction ← rd_u buf (b + 25) 1;
  Some (mk mdEntryPx mdEntrySize securityID rptSeq numberOfOrders aggressorSide mdUpdateAction).

Definition wf (m : t) : Prop :=
  m.(mdEntryPx) ∈i 64 ∧
  m.(mdEntrySize) ∈i 32 ∧
  m.(securityID) ∈i 32 ∧
  m.(rptSeq) ∈u 32 ∧
  m.(numberOfOrders) ∈i 32 ∧
  m.(aggressorSide) ∈u 8 ∧
  m.(mdUpdateAction) ∈u 8.

Lemma MDIncrementalRefreshTradeSummary48_MDEntry_packed m : wf m → packed 0 (fields m).
Proof. intros Hw. unfold wf in Hw. destruct_and?. solve_packed fields. Qed.

Lemma MDIncrementalRefreshTradeSummary48_MDEntry_length m : wf m → length (payload (fields m)) = Z.to_nat ENTRY_BLOCK_LENGTH.
Proof. intros Hw. unfold wf in Hw. destruct_and?. solve_payload_length fields. Qed.

Lemma MDIncrementalRefreshTradeSummary48_MDEntry_decode m pre post base :
  wf m → length pre = base → packed 0 (fields m) →
  decode (pre ++ payload (fields m) ++ post) base = Some m.
Proof.
  intros Hw Hb Hp. unfold wf in Hw. destruct_and?. unfold decode.
  symmetry in Hb. rd_steps 0%nat Hp Hb. by destruct m.
Qed.
End MDEntry.

Module OrderIDEntry.
Definition ENTRY_BLOCK_LENGTH : Z := 12.
Record t := mk {
  orderID : Z;
  lastQty : Z;
}.

Definition init : t := mk 0 0.

Definition fields (m : t) : list cpy :=
  [put_u 0 (m.(orderID)) 8;
   put_i 8 (m.(lastQty)) 4].

Definition decode (buf : buffer) (b : nat) : option t :=
  orderID ← rd_u buf (b + 0) 8;
  lastQty ← rd_i buf (b + 8) 4;
  Some (mk orderID lastQty).

Definition wf (m : t) : Prop :=
  m.(orderID) ∈u 64 ∧
  m.(lastQty) ∈i 32.

Lemma MDIncrementalRefreshTradeSummary48_OrderIDEntry_packed m : wf m → packed 0 (fields m).
Proof. intros Hw. unfold wf in Hw. destruct_and?. solve_packed fields. Qed.

Lemma MDIncrementalRefreshTradeSummary48_OrderIDEntry_length m : wf m → length (payload (fields m)) = Z.to_nat ENTRY_BLOCK_LENGTH.
Proof. intros Hw. unfold wf in Hw. destruct_and?. solve_payload_length fields. Qed.

Lemma MDIncrementalRefreshTradeSummary48_OrderIDEntry_decode m pre post base :
  wf m → length pre = base → packed 0 (fields m) →
  decode (pre ++ payload (fields m) ++ post) base = Some m.
Proof.
  intros Hw Hb Hp. unfold wf in Hw. destruct_and?. unfold decode.
  symmetry in Hb. rd_steps 0%nat Hp Hb. by destruct m.
Qed.
End OrderIDEntry.

Record t := mk {
  transactTime : Z;
  matchEventIndicator : Z;
  mdEntries : list MDEntry.t;
  orderIDEntries : list OrderIDEntry.t;
}.

Definition init : t := mk 0 0 [] [].

Definition fields (m : t) : list cpy :=
  [put_u 0 (m.(transactTime)) 8;
   put_u 8 (m.(matchEventIndicator)) 1].

Definition encode (m : t) (buf : buffer) (offset : nat) : option (buffer * nat) :=
  buf ← MessageHeader.encodeMDP3 buf offset BLOCK_LENGTH TEMPLATE_ID;
  let b := (offset + MessageHeader.SIZE)%nat in
  buf ← run_cpys buf b (fields m);
  let pos := Z.to_nat BLOCK_LENGTH in
  '(buf, pos) ← encode_group MDEntry.fields MDEntry.ENTRY_BLOCK_LENGTH buf b pos (m.(mdEntries));
  '(buf, pos) ← encode_group OrderIDEntry.fields OrderIDEntry.ENTRY_BLOCK_LENGTH buf b pos (m.(orderIDEntries));
  Some (buf, (MessageHeader.SIZE + pos)%nat).

Definition decode (buf : buffer) (offset : nat) : option t :=
  let b := (offset + MessageHeader.SIZE)%nat in
  transactTime ← rd_u buf (b + 0) 8;
  matchEventIndicator ← rd_u buf (b + 8) 1;
  let pos := Z.to_nat BLOCK_LENGTH in
  '(mdEntries, pos) ← decode_group MDEntry.decode buf b pos;
  '(orderIDEntries, pos) ← decode_group OrderIDEntry.decode buf b pos;
  Some (mk transactTime matchEventIndicator mdEntries orderIDEntries).

Definition encodedLength (m : t) : nat :=
  (MessageHeader.SIZE + Z.to_nat BLOCK_LENGTH + group_length MDEntry.ENTRY_BLOCK_LENGTH m.(mdEntries) + group_length OrderIDEntry.ENTRY_BLOCK_LENGTH m.(orderIDEntries))%nat.

(** Every field holds a value of its C++ type and every group fits its one-byte count. *)
Definition wf (m : t) : Prop :=
  m.(transactTime) ∈u 64 ∧
  m.(matchEventIndicator) ∈u 8 ∧
  Forall MDEntry.wf m.(mdEntries) ∧ (length m.(mdEntries) < 256)%nat ∧
  Forall OrderIDEntry.wf m.(orderIDEntries) ∧ (length m.(orderIDEntries) < 256)%nat.

Definition bytes (m : t) : list byte :=
  MessageHeader.bytes BLOCK_LENGTH TEMPLATE_ID MessageHeader.MDP3_SCHEMA_ID MessageHeader.MDP3_VERSION ++
  payload (fields m) ++ group_bytes MDEntry.fields MDEntry.ENTRY_BLOCK_LENGTH m.(mdEntries) ++ group_bytes OrderIDEntry.fields OrderIDEntry.ENTRY_BLOCK_LENGTH m.(orderIDEntries).

#[global] Instance codec : SbeCodec t := {|
  sbe_template := TEMPLATE_ID; sbe_bytes := bytes; sbe_encode := encode;
  sbe_decode := decode; sbe_encodedLength := encodedLength; sbe_wf := wf |}.

Lemma MDIncrementalRefreshTradeSummary48_packed m : wf m → packed 0 (fields m).
Proof. intros Hw. unfold wf in Hw. destruct_and?. solve_packed fields. Qed.

Lemma MDIncrementalRefreshTradeSummary48_payload m : wf m → length (payload (fields m)) = Z.to_nat BLOCK_LENGTH.
Proof. intros Hw. unfold wf in Hw. destruct_and?. solve_payload_length fields. Qed.

#[global] Instance codec_ok : SbeCodecOk t.
Proof.
  split.
  - intros m Hw. pose proof (MDIncrementalRefreshTradeSummary48_payload m Hw) as Hl. simpl in Hw. unfold wf in Hw. destruct_and?.
    cbn [sbe_bytes sbe_encodedLength codec]. unfold bytes, encodedLength.
    rewrite !length_app, header_length, Hl.
    erewrite (group_bytes_length MDEntry.wf) by eauto using MDEntry.MDIncrementalRefreshTradeSummary48_MDEntry_length.
    erewrite (group_bytes_length OrderIDEntry.wf) by eauto using OrderIDEntry.MDIncrementalRefreshTradeSummary48_OrderIDEntry_length.
    by rewrite !Nat.add_assoc.
  - intros m pre mid post Hw Hm. 
    apply (two_group_encode BLOCK_LENGTH TEMPLATE_ID _ _
      MDEntry.wf _ _ MDEntry.MDIncrementalRefreshTradeSummary48_MDEntry_packed MDEntry.MDIncrementalRefreshTradeSummary48_MDEntry_length
      OrderIDEntry.wf _ _ OrderIDEntry.MDIncrementalRefreshTradeSummary48_OrderIDEntry_packed OrderIDEntry.MDIncrementalRefreshTradeSummary48_OrderIDEntry_length);
      [by apply MDIncrementalRefreshTradeSummary48_packed | by apply MDIncrementalRefreshTradeSummary48_payload | by apply Hw | by apply Hw | exact Hm].
  - intros m pre post Hw. pose proof (MDIncrementalRefreshTradeSummary48_packed m Hw) as Hp.
    pose proof (MDIncrementalRefreshTradeSummary48_payload m Hw) as Hl. simpl in Hw. unfold wf in Hw. destruct_and?.
    cbn [sbe_bytes sbe_decode codec]. unfold bytes, decode.
    rewrite <-!app_assoc, app_assoc. set (pre' := pre ++ _).
    assert (length pre + MessageHeader.SIZE = length pre')%nat as Hb
      by (unfold pre'; by rewrite length_app, header_length).
    rd_steps 0%nat Hp Hb. rewrite app_assoc.
    erewrite (decode_group_spec MDEntry.wf MDEntry.fields MDEntry.decode);
      eauto using MDEntry.MDIncrementalRefreshTradeSummary48_MDEntry_packed, MDEntry.MDIncrementalRefreshTradeSummary48_MDEntry_length, MDEntry.MDIncrementalRefreshTradeSummary48_MDEntry_decode; [| done | rewrite length_app; lia].
    cbn [mbind option_bind]. rewrite app_assoc.
    erewrite (decode_group_spec OrderIDEntry.wf OrderIDEntry.fields OrderIDEntry.decode);
      eauto using OrderIDEntry.MDIncrementalRefreshTradeSummary48_OrderIDEntry_packed, OrderIDEntry.MDIncrementalRefreshTradeSummary48_OrderIDEntry_length, OrderIDEntry.MDIncrementalRefreshTradeSummary48_OrderIDEntry_decode;
      [by destruct m | done |].
    rewrite !length_app. erewrite (group_bytes_length MDEntry.wf) by eauto using MDEntry.MDIncrementalRefreshTradeSummary48_MDEntry_length. lia.
  - intros m pre post Hw. cbn [sbe_bytes codec]. unfold bytes.
    rewrite <-!app_assoc. by apply header_template.
Qed.
End MDIncrementalRefreshTradeSummary48.

(** ** SnapshotFullRefresh52 (template 52) *)
Module SnapshotFullRefresh52.
Definition TEMPLATE_ID : Z := 52.
Definition BLOCK_LENGTH : Z := 59.
Module Entry.
Definition ENTRY_BLOCK_LENGTH : Z := 18.
Record t := mk {
  mdEntryPx : Z;
  mdEntrySize : Z;
  numberOfOrders : Z;
  mdPriceLevel : Z;
  mdEntryType : byte;
}.

Definition init : t := mk 0 0 0 0 Init.Byte.x00.

Definition fields (m : t) : list cpy :=
  [put_i 0 (m.(mdEntryPx)) 8;
   put_i 8 (m.(mdEntrySize)) 4;
   put_i 12 (m.(numberOfOrders)) 4;
   put_u 16 (m.(mdPriceLevel)) 1;
   put_b 17 (m.(mdEntryType))].

Definition decode (buf : buffer) (b : nat) : option t :=
  mdEntryPx ← rd_i buf (b + 0) 8;
  mdEntrySize ← rd_i buf (b + 8) 4;
  numberOfOrders ← rd_i buf (b + 12) 4;
  mdPriceLevel ← rd_u buf (b + 16) 1;
  mdEntryType ← rd_b buf (b + 17);
  Some (mk mdEntryPx mdEntrySize numberOfOrders mdPriceLevel mdEntryType).

Definition wf (m : t) : Prop :=
  m.(mdEntryPx) ∈i 64 ∧
  m.(mdEntrySize) ∈i 32 ∧
  m.(numberOfOrders) ∈i 32 ∧
  m.(mdPriceLevel) ∈u 8.

Lemma SnapshotFullRefresh52_Entry_packed m : wf m → packed 0 (fields m).
Proof. intros Hw. unfold wf in Hw. destruct_and?. solve_packed fields. Qed.

Lemma SnapshotFullRefresh52_Entry_length m : wf m → length (payload (fields m)) = Z.to_nat ENTRY_BLOCK_LENGTH.
Proof. intros Hw. unfold wf in Hw. destruct_and?. solve_payload_length fields. Qed.

Lemma SnapshotFullRefresh52_Entry_decode m pre post base :
  wf m → length pre = base → packed 0 (fields m) →
  decode (pre ++ payload (fields m) ++ post) base = Some m.
Proof.
  intros Hw Hb Hp. unfold wf in Hw. destruct_and?. unfold decode.
  symmetry in Hb. rd_steps 0%nat Hp Hb. by destruct m.
Qed.
End Entry.

Record t := mk {
  lastMsgSeqNumProcessed : Z;
  totNumReports : Z;
  securityID : Z;
  rptSeq : Z;
  transactTime : Z;
  lastUpdateTime : Z;
  tradeDate : Z;
  mdSecurityTradingStatus : Z;
  highLimitPrice : Z;
  lowLimitPrice : Z;
  maxPriceVariation : Z;
  entries : list Entry.t;
}.

Definition init : t := mk 0 0 0 0 0 0 0 0 0 0 0 [].

Definition fields (m : t) : list cpy :=
  [put_u 0 (m.(lastMsgSeqNumProcessed)) 4;
   put_u 4 (m.(totNumReports)) 4;
   put_i 8 (m.(securityID)) 4;
   put_u 12 (m.(rptSeq)) 4;
   put_u 16 (m.(transactTime)) 8;
   put_u 24 (m.(lastUpdateTime)) 8;
   put_u 32 (m.(tradeDate)) 2;
   put_u 34 (m.(mdSecurityTradingStatus)) 1;
   put_i 35 (m.(highLimitPrice)) 8;
   put_i 43 (m.(lowLimitPrice)) 8;
   put_i 51 (m.(maxPriceVariation)) 8].

Definition encode (m : t) (buf : buffer) (offset : nat) : option (buffer * nat) :=
  buf ← MessageHeader.encodeMDP3 buf offset BLOCK_LENGTH TEMPLATE_ID;
  let b := (offset + MessageHeader.SIZE)%nat in
  buf ← run_cpys buf b (fields m);
  let pos := Z.to_nat BLOCK_LENGTH in
  '(buf, pos) ← encode_group Entry.fields Entry.ENTRY_BLOCK_LENGTH buf b pos (m.(entries));
  Some (buf, (MessageHeader.SIZE + pos)%nat).

Definition decode (buf : buffer) (offset : nat) : option t :=
  let b := (offset + MessageHeader.SIZE)%nat in
  lastMsgSeqNumProcessed ← rd_u buf (b + 0) 4;
  totNumReports ← rd_u buf (b + 4) 4;
  securityID ← rd_i buf (b + 8) 4;
  rptSeq ← rd_u buf (b + 12) 4;
  transactTime ← rd_u buf (b + 16) 8;
  lastUpdateTime ← rd_u buf (b + 24) 8;
  tradeDate ← rd_u buf (b + 32) 2;
  mdSecurityTradingStatus ← rd_u buf (b + 34) 1;
  highLimitPrice ← rd_i buf (b + 35) 8;
  lowLimitPrice ← rd_i buf (b + 43) 8;
  maxPriceVariation ← rd_i buf (b + 51) 8;
  let pos := Z.to_nat BLOCK_LENGTH in
  '(entries, pos) ← decode_group Entry.decode buf b pos;
  Some (mk lastMsgSeqNumProcessed totNumReports securityID rptSeq transactTime lastUpdateTime tradeDate mdSecurityTradingStatus highLimitPrice lowLimitPrice maxPriceVariation entries).

Definition encodedLength (m : t) : nat :=
  (MessageHeader.SIZE + Z.to_nat BLOCK_LENGTH + group_length Entry.ENTRY_BLOCK_LENGTH m.(entries))%nat.

(** Every field holds a value of its C++ type and every group fits its one-byte count. *)
Definition wf (m : t) : Prop :=
  m.(lastMsgSeqNumProcessed) ∈u 32 ∧
  m.(totNumReports) ∈u 32 ∧
  m.(securityID) ∈i 32 ∧
  m.(rptSeq) ∈u 32 ∧
  m.(transactTime) ∈u 64 ∧
  m.(lastUpdateTime) ∈u 64 ∧
  m.(tradeDate) ∈u 16 ∧
  m.(mdSecurityTradingStatus) ∈u 8 ∧
  m.(highLimitPrice) ∈i 64 ∧
  m.(lowLimitPrice) ∈i 64 ∧
  m.(maxPriceVariation) ∈i 64 ∧
  Forall Entry.wf m.(entries) ∧ (length m.(entries) < 256)%nat.

Definition bytes (m : t) : list byte :=
  MessageHeader.bytes BLOCK_LENGTH TEMPLATE_ID MessageHeader.MDP3_SCHEMA_ID MessageHeader.MDP3_VERSION ++
  payload (fields m) ++ group_bytes Entry.fields Entry.ENTRY_BLOCK_LENGTH m.(entries).

#[global] Instance codec : SbeCodec t := {|
  sbe_template := TEMPLATE_ID; sbe_bytes := bytes; sbe_encode := encode;
  sbe_decode := decode; sbe_encodedLength := encodedLength; sbe_wf := wf |}.

Lemma SnapshotFullRefresh52_packed m : wf m → packed 0 (fields m).
Proof. intros Hw. unfold wf in Hw. destruct_and?. solve_packed fields. Qed.

Lemma SnapshotFullRefresh52_payload m : wf m → length (payload (fields m)) = Z.to_nat BLOCK_LENGTH.
Proof. intros Hw. unfold wf in Hw. destruct_and?. solve_payload_length fields. Qed.

#[global] Instance codec_ok : SbeCodecOk t.
Proof.
  split.
  - intros m Hw. pose proof (SnapshotFullRefresh52_payload m Hw) as Hl. simpl in Hw. unfold wf in Hw. destruct_and?.
    cbn [sbe_bytes sbe_encodedLength codec]. unfold bytes, encodedLength.
    rewrite !length_app, header_length, Hl.
    erewrite group_bytes_length by eauto using Entry.SnapshotFullRefresh52_Entry_length.
    by rewrite Nat.add_assoc.
  - intros m pre mid post Hw Hm. apply (one_group_encode BLOCK_LENGTH TEMPLATE_ID _ _ Entry.wf);
      [exact Entry.SnapshotFullRefresh52_Entry_packed | exact Entry.SnapshotFullRefresh52_Entry_length | by apply SnapshotFullRefresh52_packed
      | by apply SnapshotFullRefresh52_payload | by apply Hw | exact Hm].
  - intros m pre post Hw. pose proof (SnapshotFullRefresh52_packed m Hw) as Hp.
    pose proof (SnapshotFullRefresh52_payload m Hw) as Hl. simpl in Hw. unfold wf in Hw. destruct_and?.
    cbn [sbe_bytes sbe_decode codec]. unfold bytes, decode.
    rewrite <-!app_assoc, app_assoc. set (pre' := pre ++ _).
    assert (length pre + MessageHeader.SIZE = length pre')%nat as Hb
      by (unfold pre'; by rewrite length_app, header_length).
    rd_steps 0%nat Hp Hb. rewrite app_assoc.
    erewrite (decode_group_spec Entry.wf Entry.fields Entry.decode);
      eauto using Entry.SnapshotFullRefresh52_Entry_packed, Entry.SnapshotFullRefresh52_Entry_length, Entry.SnapshotFullRefresh52_Entry_decode;
      [by destruct m | done | rewrite length_app; lia].
  - intros m pre post Hw. cbn [sbe_bytes codec]. unfold bytes.
    rewrite <-!app_assoc. by apply header_template.
Qed.
End SnapshotFullRefresh52.

(** ** MDInstrumentDefinitionFuture54 (template 54) *)
Module MDInstrumentDefinitionFuture54.
Definition TEMPLATE_ID : Z := 54.
Definition BLOCK_LENGTH : Z := 216.
Record t := mk {
  matchEventIndicator : Z;
  totNumReports : Z;
  securityUpdateAction : byte;
  lastUpdateTime : Z;
  mdSecurityTradingStatus : Z;
  applID : Z;
  marketSegmentID : Z;
  underlyingProduct : Z;
  securityExchange : list byte;
  securityGroup : list byte;
  asset : list byte;
  symbol : list byte;
  securityID : Z;
  securityType : list byte;
  cfiCode : list byte;
  maturityMonthYear : list byte;
  currency : list byte;
  settlCurrency : list byte;
  matchAlgorithm : byte;
  minTradeVol : Z;
  maxTradeVol : Z;
  minPriceIncrement : Z;
  displayFactor : Z;
  mainFraction : Z;
  subFraction : Z;
  priceDisplayFormat : Z;
  unitOfMeasure : list byte;
  unitOfMeasureQty : Z;
  tradingReferencePrice : Z;
  settlPriceType : Z;
  openInterestQty : Z;
  clearedVolume : Z;
  highLimitPrice : Z;
  lowLimitPrice : Z;
  maxPriceVariation : Z;
  decayQuantity : Z;
  decayStartDate : Z;
  originalContractSize : Z;
  contractMultiplier : Z;
  contractMultiplierUnit : Z;
  flowScheduleType : Z;
  minPriceIncrementAmount : Z;
  userDefinedInstrument : byte;
  tradingReferenceDate : Z;
}.

Definition init : t :=
  mk 0 0 Init.Byte.x41 0 0 0 0 0 (replicate 4 Init.Byte.x00) (replicate 6 Init.Byte.x00) (replicate 6 Init.Byte.x00) (replicate 20 Init.Byte.x00) 0 (replicate 6 Init.Byte.x00) (replicate 6 Init.Byte.x00) (replicate 5 Init.Byte.x00) (replicate 3 Init.Byte.x00) (replicate 3 Init.Byte.x00) Init.Byte.x46 1 10000 0 0 0 0 0 (replicate 30 Init.Byte.x00) 0 0 0 0 0 0 0 0 0 0 0 0 0 0 0 Init.Byte.x4e 0.

Definition fields (m : t) : list cpy :=
  [put_u 0 (m.(matchEventIndicator)) 1;
   put_u 1 (m.(totNumReports)) 4;
   put_b 5 (m.(securityUpdateAction));
   put_u 6 (m.(lastUpdateTime)) 8;
   put_u 14 (m.(mdSecurityTradingStatus)) 1;
   put_i 15 (m.(applID)) 2;
   put_u 17 (m.(marketSegmentID)) 1;
   put_u 18 (m.(underlyingProduct)) 1;
   put_c 19 (m.(securityExchange)) 4;
   put_c 23 (m.(securityGroup)) 6;
   put_c 29 (m.(asset)) 6;
   put_c 35 (m.(symbol)) 20;
   put_i 55 (m.(securityID)) 4;
   put_c 59 (m.(securityType)) 6;
   put_c 65 (m.(cfiCode)) 6;
   put_c 71 (m.(maturityMonthYear)) 5;
   put_c 76 (m.(currency)) 3;
   put_c 79 (m.(settlCurrency)) 3;
   put_b 82 (m.(matchAlgorithm));
   put_u 83 (m.(minTradeVol)) 4;
   put_u 87 (m.(maxTradeVol)) 4;
   put_i 91 (m.(minPriceIncrement)) 8;
   put_i 99 (m.(displayFactor)) 8;
   put_u 107 (m.(mainFraction)) 1;
   put_u 108 (m.(subFraction)) 1;
   put_u 109 (m.(priceDisplayFormat)) 1;
   put_c 110 (m.(unitOfMeasure)) 30;
   put_i 140 (m.(unitOfMeasureQty)) 8;
   put_i 148 (m.(tradingReferencePrice)) 8;
   put_u 156 (m.(settlPriceType)) 1;
   put_i 157 (m.(openInterestQty)) 4;
   put_i 161 (m.(clearedVolume)) 4;
   put_i 165 (m.(highLimitPrice)) 8;
   put_i 173 (m.(lowLimitPrice)) 8;
   put_i 181 (m.(maxPriceVariation)) 8;
   put_i 189 (m.(decayQuantity)) 4;
   put_u 193 (m.(decayStartDate)) 2;
   put_i 195 (m.(originalContractSize)) 4;
   put_i 199 (m.(contractMultiplier)) 4;
   put_u 203 (m.(contractMultiplierUnit)) 1;
   put_u 204 (m.(flowScheduleType)) 1;
   put_i 205 (m.(minPriceIncrementAmount)) 8;
   put_b 213 (m.(userDefinedInstrument));
   put_u 214 (m.(tradingReferenceDate)) 2].

Definition encode (m : t) (buf : buffer) (offset : nat) : option (buffer * nat) :=
  buf ← MessageHeader.encodeMDP3 buf offset BLOCK_LENGTH TEMPLATE_ID;
  buf ← run_cpys buf (offset + MessageHeader.SIZE) (fields m);
  Some (buf, (MessageHeader.SIZE + Z.to_nat BLOCK_LENGTH)%nat).

Definition decode (buf : buffer) (offset : nat) : option t :=
  let b := (offset + MessageHeader.SIZE)%nat in
  matchEventIndicator ← rd_u buf (b + 0) 1;
  totNumReports ← rd_u buf (b + 1) 4;
  securityUpdateAction ← rd_b buf (b + 5);
  lastUpdateTime ← rd_u buf (b + 6) 8;
  mdSecurityTradingStatus ← rd_u buf (b + 14) 1;
  applID ← rd_i buf (b + 15) 2;
  marketSegmentID ← rd_u buf (b + 17) 1;
  underlyingProduct ← rd_u buf (b + 18) 1;
  securityExchange ← rd_c buf (b + 19) 4;
  securityGroup ← rd_c buf (b + 23) 6;
  asset ← rd_c buf (b + 29) 6;
  symbol ← rd_c buf (b + 35) 20;
  securityID ← rd_i buf (b + 55) 4;
  securityType ← rd_c buf (b + 59) 6;
  cfiCode ← rd_c buf (b + 65) 6;
  maturityMonthYear ← rd_c buf (b + 71) 5;
  currency ← rd_c buf (b + 76) 3;
  settlCurrency ← rd_c buf (b + 79) 3;
  matchAlgorithm ← rd_b buf (b + 82);
  minTradeVol ← rd_u buf (b + 83) 4;
  maxTradeVol ← rd_u buf (b + 87) 4;
  minPriceIncrement ← rd_i buf (b + 91) 8;
  displayFactor ← rd_i buf (b + 99) 8;
  mainFraction ← rd_u buf (b + 107) 1;
  subFraction ← rd_u buf (b + 108) 1;
  priceDisplayFormat ← rd_u buf (b + 109) 1;
  unitOfMeasure ← rd_c buf (b + 110) 30;
  unitOfMeasureQty ← rd_i buf (b + 140) 8;
  tradingReferencePrice ← rd_i buf (b + 148) 8;
  settlPriceType ← rd_u buf (b + 156) 1;
  openInterestQty ← rd_i buf (b + 157) 4;
  clearedVolume ← rd_i buf (b + 161) 4;
  highLimitPrice ← rd_i buf (b + 165) 8;
  lowLimitPrice ← rd_i buf (b + 173) 8;
  maxPriceVariation ← rd_i buf (b + 181) 8;
  decayQuantity ← rd_i buf (b + 189) 4;
  decayStartDate ← rd_u buf (b + 193) 2;
  originalContractSize ← rd_i buf (b + 195) 4;
  contractMultiplier ← rd_i buf (b + 199) 4;
  contractMultiplierUnit ← rd_u buf (b + 203) 1;
  flowScheduleType ← rd_u buf (b + 204) 1;
  minPriceIncrementAmount ← rd_i buf (b + 205) 8;
  userDefinedInstrument ← rd_b buf (b + 213);
  tradingReferenceDate ← rd_u buf (b + 214) 2;
  Some (mk matchEventIndicator totNumReports securityUpdateAction lastUpdateTime mdSecurityTradingStatus applID marketSegmentID underlyingProduct securityExchange securityGroup asset symbol securityID securityType cfiCode maturityMonthYear currency settlCurrency matchAlgorithm minTradeVol maxTradeVol minPriceIncrement displayFactor mainFraction subFraction priceDisplayFormat unitOfMeasure unitOfMeasureQty tradingReferencePrice settlPriceType openInterestQty clearedVolume highLimitPrice lowLimitPrice maxPriceVariation decayQuantity decayStartDate originalContractSize contractMultiplier contractMultiplierUnit flowScheduleType minPriceIncrementAmount userDefinedInstrument tradingReferenceDate).

Definition encodedLength (m : t) : nat := (MessageHeader.SIZE + Z.to_nat BLOCK_LENGTH)%nat.

(** Every field holds a value of its C++ type. *)
Definition wf (m : t) : Prop :=
  m.(matchEventIndicator) ∈u 8 ∧
  m.(totNumReports) ∈u 32 ∧
  m.(lastUpdateTime) ∈u 64 ∧
  m.(mdSecurityTradingStatus) ∈u 8 ∧
  m.(applID) ∈i 16 ∧
  m.(marketSegmentID) ∈u 8 ∧
  m.(underlyingProduct) ∈u 8 ∧
  length m.(securityExchange) = 4%nat ∧
  length m.(securityGroup) = 6%nat ∧
  length m.(asset) = 6%nat ∧
  length m.(symbol) = 20%nat ∧
  m.(securityID) ∈i 32 ∧
  length m.(securityType) = 6%nat ∧
  length m.(cfiCode) = 6%nat ∧
  length m.(maturityMonthYear) = 5%nat ∧
  length m.(currency) = 3%nat ∧
  length m.(settlCurrency) = 3%nat ∧
  m.(minTradeVol) ∈u 32 ∧
  m.(maxTradeVol) ∈u 32 ∧
  m.(minPriceIncrement) ∈i 64 ∧
  m.(displayFactor) ∈i 64 ∧
  m.(mainFraction) ∈u 8 ∧
  m.(subFraction) ∈u 8 ∧
  m.(priceDisplayFormat) ∈u 8 ∧
  length m.(unitOfMeasure) = 30%nat ∧
  m.(unitOfMeasureQty) ∈i 64 ∧
  m.(tradingReferencePrice) ∈i 64 ∧
  m.(settlPriceType) ∈u 8 ∧
  m.(openInterestQty) ∈i 32 ∧
  m.(clearedVolume) ∈i 32 ∧
  m.(highLimitPrice) ∈i 64 ∧
  m.(lowLimitPrice) ∈i 64 ∧
  m.(maxPriceVariation) ∈i 64 ∧
  m.(decayQuantity) ∈i 32 ∧
  m.(decayStartDate) ∈u 16 ∧
  m.(originalContractSize) ∈i 32 ∧
  m.(contractMultiplier) ∈i 32 ∧
  m.(contractMultiplierUnit) ∈u 8 ∧
  m.(flowScheduleType) ∈u 8 ∧
  m.(minPriceIncrementAmount) ∈i 64 ∧
  m.(tradingReferenceDate) ∈u 16.

Definition bytes (m : t) : list byte :=
  MessageHeader.bytes BLOCK_LENGTH TEMPLATE_ID MessageHeader.MDP3_SCHEMA_ID MessageHeader.MDP3_VERSION ++ payload (fields m).

#[global] Instance codec : SbeCodec t := {|
  sbe_template := TEMPLATE_ID; sbe_bytes := bytes; sbe_encode := encode;
  sbe_decode := decode; sbe_encodedLength := encodedLength; sbe_wf := wf |}.

#[global] Instance codec_ok : SbeCodecOk t.
Proof. flat_codec fields decode wf. Qed.
End MDInstrumentDefinitionFuture54.
