(* ===== verification/Dispatcher.v ===== *)
(** * Message dispatch (src/sbe/dispatcher.h)

    A handler of the source is an object with one overload per message type;
    here the overload that is called and its argument are one value of a sum
    type. The result of a dispatch is [None] when decoding reads outside the
    buffer, [Some None] when the source returns [false] and [Some (Some m)]
    when it calls the handler with [m] and returns [true]. *)
From S2P Require Import Prelude Sbe ILink3 Mdp3.

Inductive ILink3Msg :=
| I_Negotiate500 (m : Negotiate500.t)
| I_NegotiationResponse501 (m : NegotiationResponse501.t)
| I_Establish503 (m : Establish503.t)
| I_EstablishmentAck504 (m : EstablishmentAck504.t)
| I_Sequence506 (m : Sequence506.t)
| I_Terminate507 (m : Terminate507.t)
| I_RetransmitRequest508 (m : RetransmitRequest508.t)
| I_Retransmission509 (m : Retransmission509.t)
| I_NotApplied513 (m : NotApplied513.t)
| I_NewOrderSingle514 (m : NewOrderSingle514.t)
| I_OrderCancelReplaceRequest515 (m : OrderCancelReplaceRequest515.t)
| I_OrderCancelRequest516 (m : OrderCancelRequest516.t)
| I_ExecutionReportNew522 (m : ExecutionReportNew522.t)
| I_ExecutionReportReject523 (m : ExecutionReportReject523.t)
| I_ExecutionReportElimination524 (m : ExecutionReportElimination524.t)
| I_ExecutionReportTradeOutright525 (m : ExecutionReportTradeOutright525.t)
| I_ExecutionReportModify531 (m : ExecutionReportModify531.t)
| I_ExecutionReportCancel534 (m : ExecutionReportCancel534.t)
| I_OrderCancelReject535 (m : OrderCancelReject535.t).

Definition dispatchILink3Message (buf : buffer) (len : nat) : option (option ILink3Msg) :=
  if (len <? MessageHeader.SIZE)%nat then Some None else
  templateId ← MessageHeader.decodeTemplateId buf 0;
  if templateId =? Negotiate500.TEMPLATE_ID then m ← Negotiate500.decode buf 0; Some (Some (I_Negotiate500 m))
  else if templateId =? NegotiationResponse501.TEMPLATE_ID then m ← NegotiationResponse501.decode buf 0; Some (Some (I_NegotiationResponse501 m))
  else if templateId =? Establish503.TEMPLATE_ID then m ← Establish503.decode buf 0; Some (Some (I_Establish503 m))
  else if templateId =? EstablishmentAck504.TEMPLATE_ID then m ← EstablishmentAck504.decode buf 0; Some (Some (I_EstablishmentAck504 m))
  else if templateId =? Sequence506.TEMPLATE_ID then m ← Sequence506.decode buf 0; Some (Some (I_Sequence506 m))
  else if templateId =? Terminate507.TEMPLATE_ID then m ← Terminate507.decode buf 0; Some (Some (I_Terminate507 m))
  else if templateId =? RetransmitRequest508.TEMPLATE_ID then m ← RetransmitRequest508.decode buf 0; Some (Some (I_RetransmitRequest508 m))
  else if templateId =? Retransmission509.TEMPLATE_ID then m ← Retransmission509.decode buf 0; Some (Some (I_Retransmission509 m))
  else if templateId =? NotApplied513.TEMPLATE_ID then m ← NotApplied513.decode buf 0; Some (Some (I_NotApplied513 m))
  else if templateId =? NewOrderSingle514.TEMPLATE_ID then m ← NewOrderSingle514.decode buf 0; Some (Some (I_NewOrderSingle514 m))
  else if templateId =? OrderCancelReplaceRequest515.TEMPLATE_ID then m ← OrderCancelReplaceRequest515.decode buf 0; Some (Some (I_OrderCancelReplaceRequest515 m))
  else if templateId =? OrderCancelRequest516.TEMPLATE_ID then m ← OrderCancelRequest516.decode buf 0; Some (Some (I_OrderCancelRequest516 m))
  else if templateId =? ExecutionReportNew522.TEMPLATE_ID then m ← ExecutionReportNew522.decode buf 0; Some (Some (I_ExecutionReportNew522 m))
  else if templateId =? ExecutionReportReject523.TEMPLATE_ID then m ← ExecutionReportReject523.decode buf 0; Some (Some (I_ExecutionReportReject523 m))
  else if templateId =? ExecutionReportElimination524.TEMPLATE_ID then m ← ExecutionReportElimination524.decode buf 0; Some (Some (I_ExecutionReportElimination524 m))
  else if templateId =? ExecutionReportTradeOutright525.TEMPLATE_ID then m ← ExecutionReportTradeOutright525.decode buf 0; Some (Some (I_ExecutionReportTradeOutright525 m))
  else if templateId =? ExecutionReportModify531.TEMPLATE_ID then m ← ExecutionReportModify531.decode buf 0; Some (Some (I_ExecutionReportModify531 m))
  else if templateId =? ExecutionReportCancel534.TEMPLATE_ID then m ← ExecutionReportCancel534.decode buf 0; Some (Some (I_ExecutionReportCancel534 m))
  else if templateId =? OrderCancelReject535.TEMPLATE_ID then m ← OrderCancelReject535.decode buf 0; Some (Some (I_OrderCancelReject535 m))
  else Some None.

Definition ILink3Msg_encode (m : ILink3Msg) : buffer → nat → option (buffer * nat) :=
  match m with
  | I_Negotiate500 m => Negotiate500.encode m
  | I_NegotiationResponse501 m => NegotiationResponse501.encode m
  | I_Establish503 m => Establish503.encode m
  | I_EstablishmentAck504 m => EstablishmentAck504.encode m
  | I_Sequence506 m => Sequence506.encode m
  | I_Terminate507 m => Terminate507.encode m
  | I_RetransmitRequest508 m => RetransmitRequest508.encode m
  | I_Retransmission509 m => Retransmission509.encode m
  | I_NotApplied513 m => NotApplied513.encode m
  | I_NewOrderSingle514 m => NewOrderSingle514.encode m
  | I_OrderCancelReplaceRequest515 m => OrderCancelReplaceRequest515.encode m
  | I_OrderCancelRequest516 m => OrderCancelRequest516.encode m
  | I_ExecutionReportNew522 m => ExecutionReportNew522.encode m
  | I_ExecutionReportReject523 m => ExecutionReportReject523.encode m
  | I_ExecutionReportElimination524 m => ExecutionReportElimination524.encode m
  | I_ExecutionReportTradeOutright525 m => ExecutionReportTradeOutright525.encode m
  | I_ExecutionReportModify531 m => ExecutionReportModify531.encode m
  | I_ExecutionReportCancel534 m => ExecutionReportCancel534.encode m
  | I_OrderCancelReject535 m => OrderCancelReject535.encode m
  end.

Definition ILink3Msg_encodedLength (m : ILink3Msg) : nat :=
  match m with
  | I_Negotiate500 m => Negotiate500.encodedLength m
  | I_NegotiationResponse501 m => NegotiationResponse501.encodedLength m
  | I_Establish503 m => Establish503.encodedLength m
  | I_EstablishmentAck504 m => EstablishmentAck504.encodedLength m
  | I_Sequence506 m => Sequence506.encodedLength m
  | I_Terminate507 m => Terminate507.encodedLength m
  | I_RetransmitRequest508 m => RetransmitRequest508.encodedLength m
  | I_Retransmission509 m => Retransmission509.encodedLength m
  | I_NotApplied513 m => NotApplied513.encodedLength m
  | I_NewOrderSingle514 m => NewOrderSingle514.encodedLength m
  | I_OrderCancelReplaceRequest515 m => OrderCancelReplaceRequest515.encodedLength m
  | I_OrderCancelRequest516 m => OrderCancelRequest516.encodedLength m
  | I_ExecutionReportNew522 m => ExecutionReportNew522.encodedLength m
  | I_ExecutionReportReject523 m => ExecutionReportReject523.encodedLength m
  | I_ExecutionReportElimination524 m => ExecutionReportElimination524.encodedLength m
  | I_ExecutionReportTradeOutright525 m => ExecutionReportTradeOutright525.encodedLength m
  | I_ExecutionReportModify531 m => ExecutionReportModify531.encodedLength m
  | I_ExecutionReportCancel534 m => ExecutionReportCancel534.encodedLength m
  | I_OrderCancelReject535 m => OrderCancelReject535.encodedLength m
  end.

Definition ILink3Msg_wf (m : ILink3Msg) : Prop :=
  match m with
  | I_Negotiate500 m => Negotiate500.wf m
  | I_NegotiationResponse501 m => NegotiationResponse501.wf m
  | I_Establish503 m => Establish503.wf m
  | I_EstablishmentAck504 m => EstablishmentAck504.wf m
  | I_Sequence506 m => Sequence506.wf m
  | I_Terminate507 m => Terminate507.wf m
  | I_RetransmitRequest508 m => RetransmitRequest508.wf m
  | I_Retransmission509 m => Retransmission509.wf m
  | I_NotApplied513 m => NotApplied513.wf m
  | I_NewOrderSingle514 m => NewOrderSingle514.wf m
  | I_OrderCancelReplaceRequest515 m => OrderCancelReplaceRequest515.wf m
  | I_OrderCancelRequest516 m => OrderCancelRequest516.wf m
  | I_ExecutionReportNew522 m => ExecutionReportNew522.wf m
  | I_ExecutionReportReject523 m => ExecutionReportReject523.wf m
  | I_ExecutionReportElimination524 m => ExecutionReportElimination524.wf m
  | I_ExecutionReportTradeOutright525 m => ExecutionReportTradeOutright525.wf m
  | I_ExecutionReportModify531 m => ExecutionReportModify531.wf m
  | I_ExecutionReportCancel534 m => ExecutionReportCancel534.wf m
  | I_OrderCancelReject535 m => OrderCancelReject535.wf m
  end.

Definition ILink3Msg_template (m : ILink3Msg) : Z :=
  match m with
  | I_Negotiate500 m => Negotiate500.TEMPLATE_ID
  | I_NegotiationResponse501 m => NegotiationResponse501.TEMPLATE_ID
  | I_Establish503 m => Establish503.TEMPLATE_ID
  | I_EstablishmentAck504 m => EstablishmentAck504.TEMPLATE_ID
  | I_Sequence506 m => Sequence506.TEMPLATE_ID
  | I_Terminate507 m => Terminate507.TEMPLATE_ID
  | I_RetransmitRequest508 m => RetransmitRequest508.TEMPLATE_ID
  | I_Retransmission509 m => Retransmission509.TEMPLATE_ID
  | I_NotApplied513 m => NotApplied513.TEMPLATE_ID
  | I_NewOrderSingle514 m => NewOrderSingle514.TEMPLATE_ID
  | I_OrderCancelReplaceRequest515 m => OrderCancelReplaceRequest515.TEMPLATE_ID
  | I_OrderCancelRequest516 m => OrderCancelRequest516.TEMPLATE_ID
  | I_ExecutionReportNew522 m => ExecutionReportNew522.TEMPLATE_ID
  | I_ExecutionReportReject523 m => ExecutionReportReject523.TEMPLATE_ID
  | I_ExecutionReportElimination524 m => ExecutionReportElimination524.TEMPLATE_ID
  | I_ExecutionReportTradeOutright525 m => ExecutionReportTradeOutright525.TEMPLATE_ID
  | I_ExecutionReportModify531 m => ExecutionReportModify531.TEMPLATE_ID
  | I_ExecutionReportCancel534 m => ExecutionReportCancel534.TEMPLATE_ID
  | I_OrderCancelReject535 m => OrderCancelReject535.TEMPLATE_ID
  end.

Inductive MDP3Msg :=
| M_ChannelReset4 (m : ChannelReset4.t)
| M_AdminHeartbeat12 (m : AdminHeartbeat12.t)
| M_SecurityStatus30 (m : SecurityStatus30.t)
| M_MDIncrementalRefreshBook46 (m : MDIncrementalRefreshBook46.t)
| M_MDIncrementalRefreshTradeSummary48 (m : MDIncrementalRefreshTradeSummary48.t)
| M_SnapshotFullRefresh52 (m : SnapshotFullRefresh52.t)
| M_MDInstrumentDefinitionFuture54 (m : MDInstrumentDefinitionFuture54.t).

Definition dispatchMDP3Message (buf : buffer) (len : nat) : option (option MDP3Msg) :=
  if (len <? MessageHeader.SIZE)%nat then Some None else
  templateId ← MessageHeader.decodeTemplateId buf 0;
  if templateId =? ChannelReset4.TEMPLATE_ID then m ← ChannelReset4.decode buf 0; Some (Some (M_ChannelReset4 m))
  else if templateId =? AdminHeartbeat12.TEMPLATE_ID then m ← AdminHeartbeat12.decode buf 0; Some (Some (M_AdminHeartbeat12 m))
  else if templateId =? SecurityStatus30.TEMPLATE_ID then m ← SecurityStatus30.decode buf 0; Some (Some (M_SecurityStatus30 m))
  else if templateId =? MDIncrementalRefreshBook46.TEMPLATE_ID then m ← MDIncrementalRefreshBook46.decode buf 0; Some (Some (M_MDIncrementalRefreshBook46 m))
  else if templateId =? MDIncrementalRefreshTradeSummary48.TEMPLATE_ID then m ← MDIncrementalRefreshTradeSummary48.decode buf 0; Some (Some (M_MDIncrementalRefreshTradeSummary48 m))
  else if templateId =? SnapshotFullRefresh52.TEMPLATE_ID then m ← SnapshotFullRefresh52.decode buf 0; Some (Some (M_SnapshotFullRefresh52 m))
  else if templateId =? MDInstrumentDefinitionFuture54.TEMPLATE_ID then m ← MDInstrumentDefinitionFuture54.decode buf 0; Some (Some (M_MDInstrumentDefinitionFuture54 m))
  else Some None.

Definition MDP3Msg_encode (m : MDP3Msg) : buffer → nat → option (buffer * nat) :=
  match m with
  | M_ChannelReset4 m => ChannelReset4.encode m
  | M_AdminHeartbeat12 m => AdminHeartbeat12.encode m
  | M_SecurityStatus30 m => SecurityStatus30.encode m
  | M_MDIncrementalRefreshBook46 m => MDIncrementalRefreshBook46.encode m
  | M_MDIncrementalRefreshTradeSummary48 m => MDIncrementalRefreshTradeSummary48.encode m
  | M_SnapshotFullRefresh52 m => SnapshotFullRefresh52.encode m
  | M_MDInstrumentDefinitionFuture54 m => MDInstrumentDefinitionFuture54.encode m
  end.

Definition MDP3Msg_encodedLength (m : MDP3Msg) : nat :=
  match m with
  | M_ChannelReset4 m => ChannelReset4.encodedLength m
  | M_AdminHeartbeat12 m => AdminHeartbeat12.encodedLength m
  | M_SecurityStatus30 m => SecurityStatus30.encodedLength m
  | M_MDIncrementalRefreshBook46 m => MDIncrementalRefreshBook46.encodedLength m
  | M_MDIncrementalRefreshTradeSummary48 m => MDIncrementalRefreshTradeSummary48.encodedLength m
  | M_SnapshotFullRefresh52 m => SnapshotFullRefresh52.encodedLength m
  | M_MDInstrumentDefinitionFuture54 m => MDInstrumentDefinitionFuture54.encodedLength m
  end.

Definition MDP3Msg_wf (m : MDP3Msg) : Prop :=
  match m with
  | M_ChannelReset4 m => ChannelReset4.wf m
  | M_AdminHeartbeat12 m => AdminHeartbeat12.wf m
  | M_SecurityStatus30 m => SecurityStatus30.wf m
  | M_MDIncrementalRefreshBook46 m => MDIncrementalRefreshBook46.wf m
  | M_MDIncrementalRefreshTradeSummary48 m => MDIncrementalRefreshTradeSummary48.wf m
  | M_SnapshotFullRefresh52 m => SnapshotFullRefresh52.wf m
  | M_MDInstrumentDefinitionFuture54 m => MDInstrumentDefinitionFuture54.wf m
  end.

Definition MDP3Msg_template (m : MDP3Msg) : Z :=
  match m with
  | M_ChannelReset4 m => ChannelReset4.TEMPLATE_ID
  | M_AdminHeartbeat12 m => AdminHeartbeat12.TEMPLATE_ID
  | M_SecurityStatus30 m => SecurityStatus30.TEMPLATE_ID
  | M_MDIncrementalRefreshBook46 m => MDIncrementalRefreshBook46.TEMPLATE_ID
  | M_MDIncrementalRefreshTradeSummary48 m => MDIncrementalRefreshTradeSummary48.TEMPLATE_ID
  | M_SnapshotFullRefresh52 m => SnapshotFullRefresh52.TEMPLATE_ID
  | M_MDInstrumentDefinitionFuture54 m => MDInstrumentDefinitionFuture54.TEMPLATE_ID
  end.

(** Encoding a message of any codec into a buffer of exactly its size and
    decoding the result from the start. *)
Lemma codec_roundtrip0 {M} `{SbeCodecOk M} (m : M) (buf : buffer) :
  sbe_wf m → length buf = sbe_encodedLength m →
  ∃ out, sbe_encode m buf 0 = Some (out, sbe_encodedLength m) ∧ length out = sbe_encodedLength m ∧
    MessageHeader.decodeTemplateId out 0 = Some sbe_template ∧ sbe_decode out 0 = Some m.
Proof.
  intros Hw Hl. exists (sbe_bytes m).
  pose proof (sbe_encode_spec m [] buf [] Hw Hl) as He.
  pose proof (sbe_decode_spec m [] [] Hw) as Hd.
  pose proof (sbe_template_spec m [] [] Hw) as Ht.
  simpl in *. rewrite !app_nil_r in *. by rewrite sbe_bytes_length.
Qed.

Lemma encode_vec_ok {M} `{SbeCodecOk M} (m : M) :
  sbe_wf m → ∃ out, encode_vec m = Some out ∧ length out = sbe_encodedLength m ∧
    MessageHeader.decodeTemplateId out 0 = Some sbe_template ∧ sbe_decode out 0 = Some m.
Proof.
  intros Hw. unfold encode_vec.
  destruct (codec_roundtrip0 m (replicate (sbe_encodedLength m) Init.Byte.x00) Hw (length_replicate _ _))
    as (out & He & Hl & Ht & Hd).
  exists out. by rewrite He.
Qed.

(** The same, with the bytes. *)
Lemma encode_vec_bytes {M} `{SbeCodecOk M} (m : M) : sbe_wf m → encode_vec m = Some (sbe_bytes m).
Proof.
  intros Hw. unfold encode_vec.
  pose proof (sbe_encode_spec m [] (replicate (sbe_encodedLength m) Init.Byte.x00) [] Hw (length_replicate _ _)) as He.
  cbn [app length] in He. rewrite !app_nil_r in He. by rewrite He.
Qed.
