(* ===== verification/CodecTheorems.v ===== *)
(** * Theorems about the SBE codecs and the dispatcher

    Round trips of every message through encoding and dispatch, and what the
    decoders do with buffers that are too short or groups that are too long. *)
From S2P Require Import Prelude Types Sbe ILink3 Mdp3 Dispatcher.

(** ** Round trips *)

(** C13: every iLink 3 message whose fields are in range, encoded into a buffer
    of its encoded length, is written completely and dispatched to the handler
    overload of its own type with the same field values. *)
Theorem dispatch_ilink3_roundtrip (m : ILink3Msg) (buf : buffer) :
  ILink3Msg_wf m → length buf = ILink3Msg_encodedLength m →
  ∃ out, ILink3Msg_encode m buf 0 = Some (out, ILink3Msg_encodedLength m) ∧
    dispatchILink3Message out (length out) = Some (Some m).
Proof.
  intros Hw Hl.
  destruct m as [m|m|m|m|m|m|m|m|m|m|m|m|m|m|m|m|m|m|m];
    (destruct (codec_roundtrip0 m buf) as (out & He & Hlen & Ht & Hd); [exact Hw | exact Hl |];
     exists out; split; [exact He |]; unfold dispatchILink3Message;
     rewrite Hlen, Ht; cbn in Hd; cbn; rewrite Hd; reflexivity).
Qed.

Definition demo_cancel : OrderCancelRequest516.t := OrderCancelRequest516.init.

Lemma dispatch_ilink3_roundtrip_witness :
  ∃ out, ILink3Msg_encode (I_OrderCancelRequest516 demo_cancel) (replicate 96 Init.Byte.x00) 0 = Some (out, 96%nat) ∧
    dispatchILink3Message out (length out) = Some (Some (I_OrderCancelRequest516 demo_cancel)).
Proof.
  apply (dispatch_ilink3_roundtrip (I_OrderCancelRequest516 demo_cancel) (replicate 96 Init.Byte.x00)).
  - cbn. unfold OrderCancelRequest516.wf. cbn. repeat split; lia.
  - reflexivity.
Defined.

(** C14: every MDP 3.0 message whose fields are in range and whose groups have
    at most 255 entries, encoded into a buffer of its encoded length, is
    dispatched to the handler overload of its own type with the same field
    values and the same group entries. *)
Theorem dispatch_mdp3_roundtrip (m : MDP3Msg) (buf : buffer) :
  MDP3Msg_wf m → length buf = MDP3Msg_encodedLength m →
  ∃ out, MDP3Msg_encode m buf 0 = Some (out, MDP3Msg_encodedLength m) ∧
    dispatchMDP3Message out (length out) = Some (Some m).
Proof.
  intros Hw Hl.
  destruct m as [m|m|m|m|m|m|m];
    (destruct (codec_roundtrip0 m buf) as (out & He & Hlen & Ht & Hd); [exact Hw | exact Hl |];
     exists out; split; [exact He |]; unfold dispatchMDP3Message;
     rewrite Hlen, Ht; cbn in Hd; cbn; first [rewrite Hd; reflexivity | by destruct m]).
Qed.

Definition demo_refresh : MDIncrementalRefreshBook46.t :=
  MDIncrementalRefreshBook46.mk 7 4
    [MDIncrementalRefreshBook46.Entry.mk 100 10 42 1 1 1 0 Init.Byte.x30;
     MDIncrementalRefreshBook46.Entry.mk (-5) 3 42 2 1 1 2 Init.Byte.x31].

Lemma dispatch_mdp3_roundtrip_witness :
  ∃ out, MDP3Msg_encode (M_MDIncrementalRefreshBook46 demo_refresh) (replicate 74 Init.Byte.x00) 0 = Some (out, 74%nat) ∧
    dispatchMDP3Message out (length out) = Some (Some (M_MDIncrementalRefreshBook46 demo_refresh)).
Proof.
  apply (dispatch_mdp3_roundtrip (M_MDIncrementalRefreshBook46 demo_refresh) (replicate 74 Init.Byte.x00)).
  - cbn. unfold MDIncrementalRefreshBook46.wf, MDIncrementalRefreshBook46.Entry.wf, demo_refresh. cbn.
    repeat (split || constructor); cbn; lia.
  - reflexivity.
Defined.

(** ** Short buffers *)

Lemma slice_take {A} o n k (b : list A) : (o + n ≤ k)%nat → (k ≤ length b)%nat → slice o n (take k b) = slice o n b.
Proof.
  intros H Hk. unfold slice. rewrite length_take.
  rewrite !decide_True by lia. f_equal. rewrite skipn_firstn_comm, take_take. f_equal. lia.
Qed.

(** A truncated flat message still shows its template id but cannot be decoded. *)
Lemma truncated_decode {M} `{SbeCodecOk M, !SbeBounds M} (m : M) k :
  sbe_wf m → sbe_encodedLength m = (MessageHeader.SIZE + sbe_block (M := M))%nat →
  (MessageHeader.SIZE ≤ k)%nat → (k < sbe_encodedLength m)%nat →
  MessageHeader.decodeTemplateId (take k (sbe_bytes m)) 0 = Some sbe_template ∧
  sbe_decode (M := M) (take k (sbe_bytes m)) 0 = None.
Proof.
  intros Hw Hlen Hk1 Hk2. pose proof (sbe_bytes_length m Hw) as Hb. split.
  - pose proof (sbe_template_spec m [] [] Hw) as Ht. rewrite app_nil_r in Ht. simpl in Ht.
    unfold MessageHeader.decodeTemplateId, rd_u in *. unfold MessageHeader.SIZE in Hk1.
    rewrite slice_take by lia. done.
  - apply eq_None_not_Some. rewrite sbe_decode_bounds, length_take. lia.
Qed.

(** The encoding of a message. *)
Definition ILink3Msg_bytes (m : ILink3Msg) : option (list byte) :=
  fst <$> ILink3Msg_encode m (replicate (ILink3Msg_encodedLength m) Init.Byte.x00) 0.

(** The dispatcher reads past the end of the buffer on every truncated
    iLink 3 message: it compares the length with the 8-byte header only, so for
    each of the 19 message types any prefix that holds the header but not the
    whole block is decoded beyond its end. *)
Theorem dispatch_ilink3_truncated (m : ILink3Msg) (out : list byte) (k : nat) :
  ILink3Msg_wf m → ILink3Msg_bytes m = Some out → (8 ≤ k)%nat → (k < length out)%nat →
  dispatchILink3Message (take k out) k = None.
Proof.
  intros Hw Hout Hk1 Hk2. unfold ILink3Msg_bytes in Hout.
  destruct m as [m|m|m|m|m|m|m|m|m|m|m|m|m|m|m|m|m|m|m];
    (change (sbe_wf m) in Hw;
     pose proof (sbe_encode_spec m [] (replicate (sbe_encodedLength m) Init.Byte.x00) [] Hw (length_replicate _ _)) as Hs;
     rewrite !app_nil_r in Hs; cbn [app length] in Hs;
     change (fst <$> sbe_encode m (replicate (sbe_encodedLength m) Init.Byte.x00) 0 = Some out) in Hout;
     rewrite Hs in Hout; injection Hout as <-;
     assert (k < sbe_encodedLength m)%nat as Hk3 by (rewrite <-(sbe_bytes_length m Hw); exact Hk2);
     pose proof (truncated_decode m k Hw) as Htr;
     destruct (Htr eq_refl Hk1 Hk3) as [Ht Hd]; clear Htr;
     unfold dispatchILink3Message;
     replace (k <? MessageHeader.SIZE)%nat with false by (symmetry; apply Nat.ltb_ge; exact Hk1);
     cbn in Ht, Hd; rewrite Ht; cbn; rewrite Hd; reflexivity).
Qed.

Lemma dispatch_ilink3_truncated_witness :
  ∃ out, ILink3Msg_bytes (I_OrderCancelRequest516 demo_cancel) = Some out ∧
    dispatchILink3Message (take 95 out) 95 = None.
Proof.
  eexists. split; [vm_compute; reflexivity |].
  apply (dispatch_ilink3_truncated (I_OrderCancelRequest516 demo_cancel)).
  - cbn. unfold OrderCancelRequest516.wf. cbn. repeat split; lia.
  - vm_compute. reflexivity.
  - lia.
  - simpl. lia.
Defined.
