(* ===== verification/OrderedMap.v ===== *)
(** * [std::map] as used by the order book

    [std::map<Price, PriceLevel, Compare>] is the list of its elements in
    iteration order. An iterator is a position in that list, [end()] being the
    length; [erase(it)] deletes the element at the position, and the returned
    iterator (the next element) is the same position in the shorter list.
    [find] and [try_emplace] use the comparison object only, as the standard
    specifies: two keys are equivalent when neither compares less. *)
From Stdlib Require Import Sorted.
From S2P Require Import Prelude Types.

(** A comparison object that is a strict total order up to equality of keys. *)
Class Compare {K} (lt : K → K → bool) : Prop := {
  cmp_irrefl k : lt k k = false;
  cmp_trans a b c : lt a b = true → lt b c = true → lt a c = true;
  cmp_total a b : lt a b = false → lt b a = false → a = b
}.

#[export] Instance Price_lt_compare : Compare Price_lt.
Proof.
  split; unfold Price_lt.
  - intros k. apply Z.ltb_irrefl.
  - intros a b c. lia.
  - intros [a] [b]; simpl. intros. f_equal. lia.
Qed.
#[export] Instance Price_gt_compare : Compare Price_gt.
Proof.
  split; unfold Price_gt.
  - intros k. apply Z.ltb_irrefl.
  - intros a b c. lia.
  - intros [a] [b]; simpl. intros. f_equal. lia.
Qed.

Section ordered_map.
Context {K V : Type} (lt : K → K → bool).

(** Position of the first element whose key is not less than [k]. *)
Fixpoint lower_bound (k : K) (m : list (K * V)) : nat :=
  match m with
  | [] => 0
  | (k', _) :: m => if lt k' k then S (lower_bound k m) else 0
  end.

(** [None] is [end()]. *)
Definition find (k : K) (m : list (K * V)) : option nat :=
  let it := lower_bound k m in
  match m !! it with
  | Some (k', _) => if lt k k' then None else Some it
  | None => None
  end.

(** The map, the position of the element with key [k] and whether it was
    inserted. *)
Definition try_emplace (k : K) (v : V) (m : list (K * V)) : list (K * V) * nat * bool :=
  match find k m with
  | Some it => (m, it, false)
  | None => let it := lower_bound k m in (take it m ++ (k, v) :: drop it m, it, true)
  end.

Definition erase (it : nat) (m : list (K * V)) : list (K * V) := delete it m.

(** [it->second = v] through a reference into the map. *)
Definition set_second (it : nat) (v : V) (m : list (K * V)) : list (K * V) :=
  alter (λ e, (e.1, v)) it m.

(** The map invariant: keys strictly increasing for the comparison. *)
Definition sorted_keys (m : list K) : Prop := StronglySorted (λ a b, lt a b = true) m.

Context `{!Compare lt}.

Lemma cmp_asym a b : lt a b = true → lt b a = false.
Proof.
  intros H. destruct (lt b a) eqn:E; [|done].
  pose proof (cmp_trans _ _ _ H E) as H'. by rewrite cmp_irrefl in H'.
Qed.

Lemma lower_bound_split k m :
  ∃ m1 m2, m = m1 ++ m2 ∧ lower_bound k m = length m1 ∧
    Forall (λ e, lt e.1 k = true) m1 ∧
    match m2 with [] => True | e :: _ => lt e.1 k = false end.
Proof.
  induction m as [|[k' v] m IH]; simpl; [by exists [], []|].
  destruct (lt k' k) eqn:E.
  - destruct IH as (m1 & m2 & -> & -> & HF & Hm). exists ((k', v) :: m1), m2. by rewrite Forall_cons.
  - by exists [], ((k', v) :: m).
Qed.

Lemma sorted_keys_app (l1 l2 : list K) :
  sorted_keys (l1 ++ l2) ↔
  sorted_keys l1 ∧ sorted_keys l2 ∧ (∀ a b, a ∈ l1 → b ∈ l2 → lt a b = true).
Proof.
  unfold sorted_keys. induction l1 as [|x l1 IH]; simpl.
  - split; [intros; split_and!; [constructor|done|set_solver] | naive_solver].
  - split.
    + intros [Hs HF]%StronglySorted_inv. apply IH in Hs as (Hs1 & Hs2 & Hc).
      apply Forall_app in HF as [HF1 HF2]. rewrite Forall_forall in HF2.
      split_and!; [by constructor|done|]. intros a b [->|?]%elem_of_cons ?; auto.
    + intros ([Hs1 HF]%StronglySorted_inv & Hs2 & Hc). constructor.
      * apply IH. split_and!; [done|done|]. intros; apply Hc; set_solver.
      * apply Forall_app. split; [done|]. rewrite Forall_forall. intros; apply Hc; set_solver.
Qed.

(** Looking a key up splits a sorted map around it. *)
Lemma find_Some_split k m it : find k m = Some it →
  ∃ m1 v m2, m = m1 ++ (k, v) :: m2 ∧ it = length m1 ∧ Forall (λ e, lt e.1 k = true) m1.
Proof.
  unfold find. destruct (lower_bound_split k m) as (m1 & m2 & -> & -> & HF & Hm).
  destruct m2 as [|[k' v] m2].
  - rewrite app_nil_r. rewrite lookup_ge_None_2; [done|lia].
  - rewrite list_lookup_middle by done. simpl in Hm.
    destruct (lt k k') eqn:E; [done|]. intros [= <-].
    assert (k' = k) as -> by (by apply cmp_total). by exists m1, v, m2.
Qed.

Lemma find_None_split k m : find k m = None → sorted_keys m.*1 →
  ∃ m1 m2, m = m1 ++ m2 ∧ lower_bound k m = length m1 ∧
    Forall (λ e, lt e.1 k = true) m1 ∧ Forall (λ e, lt k e.1 = true) m2.
Proof.
  unfold find. destruct (lower_bound_split k m) as (m1 & m2 & -> & E & HF & Hm). rewrite E.
  intros Hf Hs. exists m1, m2. split_and!; [done|done|done|].
  destruct m2 as [|[k' v] m2]; [constructor|].
  rewrite list_lookup_middle in Hf by done. simpl in Hm.
  destruct (lt k k') eqn:E'; [|done]. constructor; [done|].
  rewrite fmap_app in Hs. apply sorted_keys_app in Hs as (_ & Hs2 & _).
  unfold sorted_keys in Hs2. csimpl in Hs2. apply StronglySorted_inv in Hs2 as [_ HF2].
  rewrite Forall_forall in HF2. rewrite Forall_forall. intros e He. eapply cmp_trans; [exact E'|].
  apply HF2. by apply list_elem_of_fmap_2.
Qed.

(** Conversely a key present in a sorted map is found at its position. *)
Lemma find_middle k m1 v m2 :
  sorted_keys (m1 ++ (k, v) :: m2).*1 → find k (m1 ++ (k, v) :: m2) = Some (length m1).
Proof.
  intros Hs. unfold find.
  assert (lower_bound k (m1 ++ (k, v) :: m2) = length m1) as ->.
  { rewrite fmap_app in Hs. apply sorted_keys_app in Hs as (_ & _ & Hc). clear -Hc Compare0.
    induction m1 as [|[a b] m1 IH]; simpl in *; [by rewrite cmp_irrefl|].
    rewrite Hc by set_solver. f_equal. apply IH. set_solver. }
  by rewrite list_lookup_middle, cmp_irrefl.
Qed.

Lemma set_second_middle (m1 : list (K * V)) k v v' m2 :
  set_second (length m1) v' (m1 ++ (k, v) :: m2) = m1 ++ (k, v') :: m2.
Proof.
  unfold set_second. rewrite alter_app_r_alt by lia. by rewrite Nat.sub_diag.
Qed.

Lemma erase_middle (m1 : list (K * V)) e m2 : erase (length m1) (m1 ++ e :: m2) = m1 ++ m2.
Proof. unfold erase. by rewrite delete_middle. Qed.

Lemma sorted_keys_nodup m : sorted_keys m → NoDup m.
Proof.
  induction 1 as [|x m Hs IH HF]; constructor; [|done].
  intros Hin. rewrite Forall_forall in HF. specialize (HF _ Hin). by rewrite cmp_irrefl in HF.
Qed.

End ordered_map.
