(* ===== verification/Order.v ===== *)
(** * Orders, trades and engine events
    (src/engine/order.h, src/engine/trade.h, src/engine/engine_event.h)

    An [Order] lives in a heap: the engine owns it through a [unique_ptr] and
    the order book and the price levels hold raw pointers to it, including the
    intrusive links [prev_in_level] and [next_in_level] stored in the order
    itself. The heap is a finite map from pointers to orders; dereferencing a
    pointer that is not in it (null or dangling) is [None]. *)
From S2P Require Import Prelude Types.

Abbreviation Ptr := positive.

Record Order := mkOrder {
  order_id : OrderId;
  cl_ord_id : ClOrdId;
  session_uuid : Z;
  security_id : SecurityId;
  side : Side;
  order_type : OrderType;
  time_in_force : TimeInForce;
  price : Price;
  stop_price : Price;
  quantity : Quantity;
  filled_qty : Quantity;
  display_qty : Quantity;
  min_qty : Quantity;
  timestamp : Timestamp;
  status : OrdStatus;
  order_request_id : Z;
  prev_in_level : option Ptr;
  next_in_level : option Ptr
}.

(** The default member initialisers. *)
Definition Order_init : Order :=
  mkOrder 0 [] 0 0 Buy Limit Day (mkPrice 0) (mkPrice 0) 0 0 0 0 0 New 0 None None.

Definition remainingQty (o : Order) : Quantity := i32 (quantity o - filled_qty o).
Definition isFullyFilled (o : Order) : bool := quantity o <=? filled_qty o.

(** Field assignments of an order. *)
Definition set_order_id v (o : Order) : Order :=
  let '(mkOrder _ a2 a3 a4 a5 a6 a7 a8 a9 a10 a11 a12 a13 a14 a15 a16 a17 a18) := o in
  mkOrder v a2 a3 a4 a5 a6 a7 a8 a9 a10 a11 a12 a13 a14 a15 a16 a17 a18.
Definition set_cl_ord_id v (o : Order) : Order :=
  let '(mkOrder a1 _ a3 a4 a5 a6 a7 a8 a9 a10 a11 a12 a13 a14 a15 a16 a17 a18) := o in
  mkOrder a1 v a3 a4 a5 a6 a7 a8 a9 a10 a11 a12 a13 a14 a15 a16 a17 a18.
Definition set_price v (o : Order) : Order :=
  let '(mkOrder a1 a2 a3 a4 a5 a6 a7 _ a9 a10 a11 a12 a13 a14 a15 a16 a17 a18) := o in
  mkOrder a1 a2 a3 a4 a5 a6 a7 v a9 a10 a11 a12 a13 a14 a15 a16 a17 a18.
Definition set_quantity v (o : Order) : Order :=
  let '(mkOrder a1 a2 a3 a4 a5 a6 a7 a8 a9 _ a11 a12 a13 a14 a15 a16 a17 a18) := o in
  mkOrder a1 a2 a3 a4 a5 a6 a7 a8 a9 v a11 a12 a13 a14 a15 a16 a17 a18.
Definition set_filled_qty v (o : Order) : Order :=
  let '(mkOrder a1 a2 a3 a4 a5 a6 a7 a8 a9 a10 _ a12 a13 a14 a15 a16 a17 a18) := o in
  mkOrder a1 a2 a3 a4 a5 a6 a7 a8 a9 a10 v a12 a13 a14 a15 a16 a17 a18.
Definition set_timestamp v (o : Order) : Order :=
  let '(mkOrder a1 a2 a3 a4 a5 a6 a7 a8 a9 a10 a11 a12 a13 _ a15 a16 a17 a18) := o in
  mkOrder a1 a2 a3 a4 a5 a6 a7 a8 a9 a10 a11 a12 a13 v a15 a16 a17 a18.
Definition set_status v (o : Order) : Order :=
  let '(mkOrder a1 a2 a3 a4 a5 a6 a7 a8 a9 a10 a11 a12 a13 a14 _ a16 a17 a18) := o in
  mkOrder a1 a2 a3 a4 a5 a6 a7 a8 a9 a10 a11 a12 a13 a14 v a16 a17 a18.
Definition set_prev v (o : Order) : Order :=
  let '(mkOrder a1 a2 a3 a4 a5 a6 a7 a8 a9 a10 a11 a12 a13 a14 a15 a16 _ a18) := o in
  mkOrder a1 a2 a3 a4 a5 a6 a7 a8 a9 a10 a11 a12 a13 a14 a15 a16 v a18.
Definition set_next v (o : Order) : Order :=
  let '(mkOrder a1 a2 a3 a4 a5 a6 a7 a8 a9 a10 a11 a12 a13 a14 a15 a16 a17 _) := o in
  mkOrder a1 a2 a3 a4 a5 a6 a7 a8 a9 a10 a11 a12 a13 a14 a15 a16 a17 v.

(** ** The heap *)
Abbreviation heap := (gmap Ptr Order).

(** [p->field = v]: fails when [p] does not point to a live order. *)
Definition assign (h : heap) (p : Ptr) (f : Order → Order) : option heap :=
  o ← h !! p; Some (<[p := f o]> h).

(** The order with its intrusive links cleared: what the order {e is}, as
    opposed to where it is linked. *)
Definition unlink (o : Order) : Order := set_prev None (set_next None o).

(** ** Trades *)
Record Trade := mkTrade {
  trade_id : Z;
  trade_security_id : SecurityId;
  trade_price : Price;
  trade_quantity : Quantity;
  aggressor_side : Side;
  maker_order_id : OrderId;
  taker_order_id : OrderId;
  maker_session_uuid : Z;
  taker_session_uuid : Z;
  trade_timestamp : Timestamp
}.

(** ** Engine events *)
Inductive EngineEvent :=
  | OrderAccepted (order_id : OrderId) (cl_ord_id : ClOrdId) (session_uuid : Z)
      (security_id : SecurityId) (side : Side) (price : Price) (quantity : Quantity)
      (order_type : OrderType) (time_in_force : TimeInForce)
  | OrderRejected (cl_ord_id : ClOrdId) (session_uuid : Z) (reason : string)
      (reject_reason_code : Z)
  | OrderFilled (trade_id : Z) (security_id : SecurityId) (trade_price : Price)
      (trade_qty : Quantity) (aggressor_side : Side)
      (maker_order_id : OrderId) (maker_cl_ord_id : ClOrdId) (maker_session_uuid : Z)
      (maker_cum_qty maker_leaves_qty : Quantity) (maker_ord_status : OrdStatus)
      (taker_order_id : OrderId) (taker_cl_ord_id : ClOrdId) (taker_session_uuid : Z)
      (taker_cum_qty taker_leaves_qty : Quantity) (taker_ord_status : OrdStatus)
  | OrderCancelled (order_id : OrderId) (cl_ord_id : ClOrdId) (session_uuid : Z)
      (security_id : SecurityId) (cum_qty : Quantity) (ord_status : OrdStatus)
  | OrderModified (order_id : OrderId) (cl_ord_id : ClOrdId) (session_uuid : Z)
      (security_id : SecurityId) (new_price : Price) (new_qty cum_qty leaves_qty : Quantity)
  | OrderCancelRejected (order_id : OrderId) (cl_ord_id : ClOrdId) (session_uuid : Z)
      (reject_reason_code : Z) (reason : string)
  | BookUpdate (security_id : SecurityId) (side : Side) (price : Price) (new_qty : Quantity)
      (new_order_count : Z) (update_action : MDUpdateAction) (price_level_index : Z)
      (rpt_seq : Z).

(** ** Facts about single orders *)
Lemma unlink_idemp o : unlink (unlink o) = unlink o.
Proof. by destruct o. Qed.

Lemma remaining_unlink o : remainingQty (unlink o) = remainingQty o.
Proof. by destruct o. Qed.

Lemma filled_unlink o : isFullyFilled (unlink o) = isFullyFilled o.
Proof. by destruct o. Qed.

Lemma unlink_set_links o p n : unlink (set_prev p (set_next n o)) = unlink o.
Proof. by destruct o. Qed.

(** Two orders with the same data agree on every field but the links. *)
Lemma unlink_inj o o' : unlink o = unlink o' →
  set_prev (prev_in_level o') (set_next (next_in_level o') o) = o'.
Proof. destruct o, o'. cbn. intros [=]. by subst. Qed.

Lemma assign_Some h p f o : h !! p = Some o → assign h p f = Some (<[p := f o]> h).
Proof. unfold assign. by intros ->. Qed.
