(* ===== verification/PriceLevel.v ===== *)
(** * Price levels: the intrusive FIFO of orders at one price
    (src/engine/price_level.h)

    A level is a doubly linked list threaded through the orders themselves.
    [level_list] says which sequence of pointers a level represents;
    [addOrder] appends to it and [removeOrder] takes any member out of it in
    constant time, without a memory error and without touching any order
    outside the level. *)
From S2P Require Import Prelude Types Order.

Record PriceLevel := mkLevel {
  level_price : Price;
  total_quantity : Quantity;
  order_count : Z;
  head_ : option Ptr;
  tail_ : option Ptr
}.

(** A value-initialised level ([std::map::try_emplace] with no arguments). *)
Definition PriceLevel_init : PriceLevel := mkLevel (mkPrice 0) 0 0 None None.

Definition set_level_price v (l : PriceLevel) : PriceLevel :=
  let '(mkLevel _ q c h t) := l in mkLevel v q c h t.
Definition set_total_quantity v (l : PriceLevel) : PriceLevel :=
  let '(mkLevel p _ c h t) := l in mkLevel p v c h t.
Definition set_head v (l : PriceLevel) : PriceLevel :=
  let '(mkLevel p q c _ t) := l in mkLevel p q c v t.
Definition set_tail v (l : PriceLevel) : PriceLevel :=
  let '(mkLevel p q c h _) := l in mkLevel p q c h v.
Definition set_order_count v (l : PriceLevel) : PriceLevel :=
  let '(mkLevel p q _ h t) := l in mkLevel p q v h t.

Module PriceLevelOps.

Definition addOrder (h : heap) (lv : PriceLevel) (order : Ptr) : option (heap * PriceLevel) :=
  h ← assign h order (set_prev (tail_ lv));
  h ← assign h order (set_next None);
  '(h, lv) ← match tail_ lv with
    | Some tail => h ← assign h tail (set_next (Some order)); Some (h, lv)
    | None => Some (h, set_head (Some order) lv)
    end;
  let lv := set_tail (Some order) lv in
  o ← h !! order;
  let lv := set_total_quantity (i32 (total_quantity lv + remainingQty o)) lv in
  Some (h, set_order_count (i32 (order_count lv + 1)) lv).

Definition removeOrder (h : heap) (lv : PriceLevel) (order : Ptr) : option (heap * PriceLevel) :=
  o ← h !! order;
  '(h, lv) ← match prev_in_level o with
    | Some prev => h ← assign h prev (set_next (next_in_level o)); Some (h, lv)
    | None => Some (h, set_head (next_in_level o) lv)
    end;
  o ← h !! order;
  '(h, lv) ← match next_in_level o with
    | Some next => h ← assign h next (set_prev (prev_in_level o)); Some (h, lv)
    | None => Some (h, set_tail (prev_in_level o) lv)
    end;
  o ← h !! order;
  let lv := set_total_quantity (i32 (total_quantity lv - remainingQty o)) lv in
  let lv := set_order_count (i32 (order_count lv - 1)) lv in
  h ← assign h order (set_prev None);
  h ← assign h order (set_next None);
  Some (h, lv).

Definition front (lv : PriceLevel) : option Ptr := head_ lv.

Definition empty (lv : PriceLevel) : bool :=
  match head_ lv with None => true | Some _ => false end.

(** [for (Order* o : level)]: walk from [begin()] along [next_in_level] until
    [end()]; [None] when a link dangles or the list does not end within
    [fuel] steps. *)
Fixpoint walk (fuel : nat) (h : heap) (current : option Ptr) : option (list Ptr) :=
  match current with
  | None => Some []
  | Some p =>
      match fuel with
      | O => None
      | S fuel => o ← h !! p; l ← walk fuel h (next_in_level o); Some (p :: l)
      end
  end.

(** At most every order of the heap is visited once. *)
Definition iterate (h : heap) (lv : PriceLevel) : option (list Ptr) :=
  walk (size h) h (head_ lv).

End PriceLevelOps.
Import PriceLevelOps.

(** ** Doubly linked segments *)

(** [dlseg h pv l nx]: the orders [l], in this order, are linked to each other
    in [h], the first one's back link being [pv] and the last one's forward
    link [nx]. *)
Fixpoint dlseg (h : heap) (pv : option Ptr) (l : list Ptr) (nx : option Ptr) : Prop :=
  match l with
  | [] => True
  | p :: l' =>
      (∃ o, h !! p = Some o ∧ prev_in_level o = pv ∧ next_in_level o = from_option Some nx (head l'))
      ∧ dlseg h (Some p) l' nx
  end.

Lemma dlseg_app h pv l1 l2 nx :
  dlseg h pv (l1 ++ l2) nx ↔
  dlseg h pv l1 (from_option Some nx (head l2)) ∧ dlseg h (from_option Some pv (last l1)) l2 nx.
Proof.
  revert pv. induction l1 as [|p l1 IH]; intros pv; [simpl; tauto|].
  change (dlseg h pv (p :: l1 ++ l2) nx ↔
    dlseg h pv (p :: l1) (from_option Some nx (head l2)) ∧
    dlseg h (from_option Some pv (last (p :: l1))) l2 nx).
  rewrite last_cons.
  assert (from_option Some pv (match last l1 with Some y => Some y | None => Some p end)
    = from_option Some (Some p) (last l1)) as -> by (by destruct (last l1)).
  cbn [dlseg]. rewrite IH.
  assert (from_option Some nx (head (l1 ++ l2))
    = from_option Some (from_option Some nx (head l2)) (head l1)) as -> by (by destruct l1).
  tauto.
Qed.

(** A segment only depends on the orders it links. *)
Lemma dlseg_ext h h' pv l nx :
  (∀ p, p ∈ l → h' !! p = h !! p) → dlseg h pv l nx → dlseg h' pv l nx.
Proof.
  revert pv. induction l as [|p l IH]; intros pv He; simpl; [done|].
  intros [(o & Ho & Hp & Hn) Hl]. split.
  - exists o. rewrite He by set_solver. done.
  - apply IH; set_solver.
Qed.

Lemma dlseg_lookup h pv l nx p : dlseg h pv l nx → p ∈ l → is_Some (h !! p).
Proof.
  revert pv. induction l as [|q l IH]; intros pv; simpl; [set_solver|].
  intros [(o & Ho & _) Hl] [->|?]%elem_of_cons; eauto.
Qed.

(** ** What a level represents *)
Record level_list (h : heap) (lv : PriceLevel) (l : list Ptr) : Prop := {
  ll_head : head_ lv = head l;
  ll_tail : tail_ lv = last l;
  ll_nodup : NoDup l;
  ll_seg : dlseg h None l None
}.

Definition same_data (h h' : heap) : Prop := ∀ q, unlink <$> h' !! q = unlink <$> h !! q.

#[export] Instance same_data_refl : Reflexive same_data.
Proof. intros h q. done. Qed.
#[export] Instance same_data_trans : Transitive same_data.
Proof. intros h1 h2 h3 H1 H2 q. by rewrite H2, H1. Qed.

Lemma same_data_insert h p o o' :
  h !! p = Some o → unlink o' = unlink o → same_data h (<[p := o']> h).
Proof.
  intros Ho Hu q. destruct (decide (p = q)) as [<-|]; [|by rewrite lookup_insert_ne].
  rewrite lookup_insert_eq, Ho. simpl. by rewrite Hu.
Qed.

Lemma same_data_lookup h h' p o :
  same_data h h' → h !! p = Some o → ∃ o', h' !! p = Some o' ∧ unlink o' = unlink o.
Proof.
  intros Hs Ho. specialize (Hs p). rewrite Ho in Hs. simpl in Hs.
  destruct (h' !! p) as [o'|] eqn:E; simplify_eq/=. eauto.
Qed.

Lemma level_list_ext h h' lv l :
  (∀ p, p ∈ l → h' !! p = h !! p) → level_list h lv l → level_list h' lv l.
Proof. intros He [????]. split; [done..|]. by eapply dlseg_ext. Qed.

Lemma level_list_empty h lv : head_ lv = None → tail_ lv = None → level_list h lv [].
Proof. intros. split; simpl; [done|done|constructor|done]. Qed.

(** ** Relinking the ends of a segment *)

Lemma dlseg_set_next h pv l nx nx' :
  NoDup l → dlseg h pv l nx →
  match last l with
  | Some t => ∃ o, h !! t = Some o ∧ dlseg (<[t := set_next nx' o]> h) pv l nx'
  | None => True
  end.
Proof.
  induction l as [|t l _] using rev_ind; [done|]. rewrite last_snoc, dlseg_app.
  intros (Hnd & Hnt & _)%NoDup_app [Hl [(o & Ho & Hp & _) _]]. exists o. split; [done|].
  rewrite dlseg_app. split.
  - eapply dlseg_ext; [|exact Hl]. intros q Hq. rewrite lookup_insert_ne; [done|]. set_solver.
  - split; [|done]. exists (set_next nx' o). rewrite lookup_insert_eq. destruct o; cbn in *; auto.
Qed.

Lemma dlseg_set_prev h pv pv' l nx :
  NoDup l → dlseg h pv l nx →
  match head l with
  | Some t => ∃ o, h !! t = Some o ∧ dlseg (<[t := set_prev pv' o]> h) pv' l nx
  | None => True
  end.
Proof.
  destruct l as [|t l]; [done|]. intros [Hnt _]%NoDup_cons [(o & Ho & _ & Hn) Hl].
  exists o. split; [done|]. split.
  - exists (set_prev pv' o). rewrite lookup_insert_eq. destruct o; cbn in *; auto.
  - eapply dlseg_ext; [|exact Hl]. intros q Hq. rewrite lookup_insert_ne; [done|]. set_solver.
Qed.

(** Writing [x] into the forward link of the last order of a segment, if there
    is one, and symmetrically into the back link of its first order. *)
Lemma relink_last h pv l nx x :
  NoDup l → dlseg h pv l nx →
  ∃ h', match last l with Some t => assign h t (set_next x) | None => Some h end = Some h' ∧
    dlseg h' pv l x ∧ same_data h h' ∧ (∀ q, q ∉ l → h' !! q = h !! q).
Proof.
  intros Hnd Hs. pose proof (dlseg_set_next _ _ _ _ x Hnd Hs) as Hset.
  destruct (last l) as [t|] eqn:El.
  - destruct Hset as (o & Ho & Hs'). rewrite (assign_Some _ _ _ _ Ho). eexists; split; [done|].
    split_and!; [done|eapply same_data_insert; [done|by destruct o]|].
    intros q Hq. rewrite lookup_insert_ne; [done|]. intros ->. by apply Hq, last_Some_elem_of.
  - apply last_None in El as ->. eexists; split; [done|]. done.
Qed.

Lemma relink_first h pv l nx x :
  NoDup l → dlseg h pv l nx →
  ∃ h', match head l with Some t => assign h t (set_prev x) | None => Some h end = Some h' ∧
    dlseg h' x l nx ∧ same_data h h' ∧ (∀ q, q ∉ l → h' !! q = h !! q).
Proof.
  intros Hnd Hs. pose proof (dlseg_set_prev _ _ x _ _ Hnd Hs) as Hset.
  destruct l as [|t l]; simpl in *; [by eexists|].
  destruct Hset as (o & Ho & Hs'). rewrite (assign_Some _ _ _ _ Ho). eexists; split; [done|].
  split_and!; [apply Hs' | apply Hs' | eapply same_data_insert; [done|by destruct o] |].
  intros q Hq. rewrite lookup_insert_ne; [done|]. set_solver.
Qed.

(** ** The operations implement list append and list removal *)

(** How the aggregate fields of a level change. *)
Definition level_delta (lv lv' : PriceLevel) (dq dc : Z) : Prop :=
  level_price lv' = level_price lv ∧
  total_quantity lv' = i32 (total_quantity lv + dq) ∧ order_count lv' = i32 (order_count lv + dc).

Lemma addOrder_spec h lv l p o :
  level_list h lv l → h !! p = Some o → p ∉ l →
  ∃ h' lv', addOrder h lv p = Some (h', lv') ∧ level_list h' lv' (l ++ [p]) ∧
    same_data h h' ∧ (∀ q, q ∉ l → q ≠ p → h' !! q = h !! q) ∧
    level_delta lv lv' (remainingQty o) 1.
Proof.
  intros [Hh Ht Hnd Hs] Ho Hp. unfold addOrder.
  rewrite (assign_Some _ _ _ _ Ho). simpl.
  rewrite (assign_Some _ _ _ (set_prev (tail_ lv) o)) by apply lookup_insert_eq. simpl.
  rewrite insert_insert_eq. rewrite Ht.
  set (op := set_next None (set_prev (last l) o)).
  assert (dlseg (<[p := op]> h) None l None) as Hs1.
  { eapply dlseg_ext; [|exact Hs]. intros q Hq. rewrite lookup_insert_ne; set_solver. }
  destruct (relink_last _ _ _ _ (Some p) Hnd Hs1) as (h2 & Hr & Hs2 & Hd2 & Hf2).
  assert (h2 !! p = Some op) as Hop by (rewrite (Hf2 p Hp); apply lookup_insert_eq).
  assert (remainingQty op = remainingQty o) as Erem by (by destruct o).
  set (fin lv := set_order_count (i32 (order_count lv + 1))
    (set_total_quantity (i32 (total_quantity lv + remainingQty o)) (set_tail (Some p) lv))).
  exists h2, (fin (match last l with Some _ => lv | None => set_head (Some p) lv end)).
  split; [|split_and!].
  - destruct (last l) as [t|]; simpl in Hr; [rewrite Hr | injection Hr as <-]; simpl;
      rewrite Hop; simpl; rewrite Erem; by destruct lv.
  - assert (NoDup (l ++ [p])) by (apply NoDup_app; split_and!; [done|set_solver|apply NoDup_singleton]).
    split; [| |done|].
    + destruct l as [|x l]; [by destruct lv|]. rewrite last_cons.
      destruct lv; simpl in *. by destruct (last l).
    + rewrite last_snoc. by destruct lv, (last l).
    + rewrite dlseg_app. split; [exact Hs2|]. split; [|done]. exists op. split_and!; [done|..].
      * unfold op. destruct o, (last l); done.
      * by destruct o.
  - etrans; [|exact Hd2]. eapply same_data_insert; [done|by destruct o].
  - intros q Hq Hqp. rewrite Hf2 by done. by rewrite lookup_insert_ne.
  - unfold level_delta. destruct lv, (last l); done.
Qed.

(** The pointer surgery of [removeOrder], one relinking at a time. *)
Lemma removeOrder_steps h lv l1 p l2 o h1 h2 :
  h !! p = Some o → prev_in_level o = last l1 → next_in_level o = head l2 →
  h1 !! p = Some o → h2 !! p = Some o →
  match last l1 with Some t => assign h t (set_next (head l2)) | None => Some h end = Some h1 →
  match head l2 with Some t => assign h1 t (set_prev (last l1)) | None => Some h1 end = Some h2 →
  let lv1 := match last l1 with Some _ => lv | None => set_head (head l2) lv end in
  let lv2 := match head l2 with Some _ => lv1 | None => set_tail (last l1) lv1 end in
  removeOrder h lv p = Some (<[p := unlink o]> h2,
    set_order_count (i32 (order_count lv2 - 1))
      (set_total_quantity (i32 (total_quantity lv2 - remainingQty o)) lv2)).
Proof.
  intros Ho Hpv Hnx Ho1 Ho2 Hr1 Hr2 lv1 lv2. unfold removeOrder. rewrite Ho. simpl.
  rewrite Hpv, Hnx.
  assert (match last l1 with
    | Some prev => h ← assign h prev (set_next (head l2)); Some (h, lv)
    | None => Some (h, set_head (head l2) lv) end = Some (h1, lv1)) as ->
    by (unfold lv1; destruct (last l1); simpl in Hr1; [rewrite Hr1 | injection Hr1 as <-]; done).
  simpl. rewrite Ho1. simpl. rewrite Hpv, Hnx.
  assert (match head l2 with
    | Some next => h ← assign h1 next (set_prev (last l1)); Some (h, lv1)
    | None => Some (h1, set_tail (last l1) lv1) end = Some (h2, lv2)) as ->
    by (unfold lv2; destruct (head l2); simpl in Hr2; [rewrite Hr2 | injection Hr2 as <-]; done).
  simpl. rewrite Ho2. simpl. rewrite (assign_Some _ _ _ _ Ho2). simpl.
  rewrite (assign_Some _ _ _ (set_prev None o)) by apply lookup_insert_eq. simpl.
  rewrite insert_insert_eq. by destruct lv2, o.
Qed.

Lemma removeOrder_spec h lv l1 p l2 o :
  level_list h lv (l1 ++ p :: l2) → h !! p = Some o →
  ∃ h' lv', removeOrder h lv p = Some (h', lv') ∧ level_list h' lv' (l1 ++ l2) ∧
    same_data h h' ∧ (∀ q, q ∉ l1 ++ p :: l2 → h' !! q = h !! q) ∧
    level_delta lv lv' (- remainingQty o) (-1).
Proof.
  intros [Hh Ht Hnd Hs] Ho.
  apply NoDup_app in Hnd as (Hnd1 & Hdis & [Hp2 Hnd2]%NoDup_cons).
  assert (p ∉ l1) as Hp1 by (intros ?; eapply Hdis; [done|set_solver]).
  apply dlseg_app in Hs as [Hs1 [(o' & Ho' & Hpv & Hnx) Hs2]]. simplify_eq/=.
  assert (from_option Some None (last l1) = last l1) as E1 by (by destruct (last l1)).
  assert (from_option Some None (head l2) = head l2) as E2 by (by destruct (head l2)).
  rewrite E1 in Hpv. rewrite E2 in Hnx.
  destruct (relink_last _ _ _ _ (head l2) Hnd1 Hs1) as (h1 & Hr1 & Hs1' & Hd1 & Hf1).
  assert (dlseg h1 (Some p) l2 None) as Hs2'.
  { eapply dlseg_ext; [|exact Hs2]. intros q Hq. apply Hf1. intros ?. eapply Hdis; [done|set_solver]. }
  destruct (relink_first _ _ _ _ (last l1) Hnd2 Hs2') as (h2 & Hr2 & Hs2'' & Hd2 & Hf2).
  assert (h1 !! p = Some o') as Ho1 by (by rewrite Hf1).
  assert (h2 !! p = Some o') as Ho2 by (by rewrite Hf2).
  eexists _, _. split; [exact (removeOrder_steps _ _ _ _ _ _ _ _ Ho' Hpv Hnx Ho1 Ho2 Hr1 Hr2)|]. split_and!.
  - split.
    + destruct l1 as [|x l1], lv; [by destruct l2|]. rewrite last_cons. simpl in *.
      by destruct (last l1), l2.
    + rewrite last_app in *. destruct l2 as [|y l2], lv; [by destruct (last l1)|].
      rewrite last_cons in Ht |- *. simpl in *. rewrite Ht.
      rewrite !last_cons. by destruct (last l1), (last l2).
    + apply NoDup_app. split_and!; [done| |done]. intros q Hq ?. eapply Hdis; [done|set_solver].
    + rewrite dlseg_app, E1, E2. split; (eapply dlseg_ext; [|eassumption]).
      * intros q Hq. rewrite lookup_insert_ne by set_solver. apply Hf2.
        intros ?. eapply Hdis; [done|set_solver].
      * intros q Hq. rewrite lookup_insert_ne by set_solver. done.
  - etrans; [exact Hd1|]. etrans; [exact Hd2|].
    eapply same_data_insert; [exact Ho2|apply unlink_idemp].
  - intros q Hq. rewrite lookup_insert_ne by set_solver. rewrite Hf2, Hf1; set_solver.
  - unfold level_delta. destruct lv, (last l1), (head l2); done.
Qed.

(** The iterator visits exactly the represented orders, first in first. *)
Lemma walk_spec h pv l n : dlseg h pv l None → (length l ≤ n)%nat → walk n h (head l) = Some l.
Proof.
  revert pv n. induction l as [|p l IH]; intros pv n; [by destruct n|].
  intros [(o & Ho & _ & Hn) Hs] Hl. destruct n as [|n]; simpl in *; [lia|].
  rewrite Ho. simpl. rewrite Hn.
  assert (from_option Some None (head l) = head l) as -> by (by destruct (head l)).
  rewrite (IH _ n Hs) by lia. done.
Qed.

Lemma level_length h lv l : level_list h lv l → (length l ≤ size h)%nat.
Proof.
  intros [_ _ Hnd Hs]. rewrite <-(size_list_to_set (C:=gset Ptr) l), <-size_dom by done.
  apply subseteq_size. intros p Hp%elem_of_list_to_set.
  by apply elem_of_dom, (dlseg_lookup _ _ _ _ _ Hs).
Qed.

(** ** Levels holding given orders

    [level_repr h lv tp g]: the level holds, in time priority, the orders of
    [g] (each with its address), its price is [tp], and its aggregates are the
    sum of the open quantities and the number of orders, as the 32-bit integers
    they are kept in. *)
Abbreviation ghost := (list (Ptr * Order)).

Record level_repr (h : heap) (lv : PriceLevel) (tp : Price) (g : ghost) : Prop := {
  lr_price : level_price lv = tp;
  lr_list : level_list h lv g.*1;
  lr_data : ∀ p m, (p, m) ∈ g → unlink <$> h !! p = Some m;
  lr_qty : total_quantity lv = i32 (zsum remainingQty g.*2);
  lr_count : order_count lv = i32 (Z.of_nat (length g))
}.

Lemma level_repr_frame h h' lv tp g :
  (∀ p, p ∈ g.*1 → h' !! p = h !! p) → level_repr h lv tp g → level_repr h' lv tp g.
Proof.
  intros He [? Hl Hd ? ?]. split; [done|by eapply level_list_ext| |done|done].
  intros p m Hin. rewrite He; [by apply Hd|]. apply list_elem_of_fmap. by exists (p, m).
Qed.

Lemma level_repr_init h tp : level_repr h (set_level_price tp PriceLevel_init) tp [].
Proof.
  split; [done|by apply level_list_empty| |done|done]. intros p m. by rewrite elem_of_nil.
Qed.

Lemma level_repr_front h lv tp g : level_repr h lv tp g → front lv = head g.*1.
Proof. by intros [_ [Hh _ _ _] _ _ _]. Qed.

Lemma level_repr_empty h lv tp g : level_repr h lv tp g → empty lv = bool_decide (g = []).
Proof. intros [_ [Hh _ _ _] _ _ _]. unfold empty. rewrite Hh. by destruct g. Qed.

Lemma level_repr_lookup h lv tp g p m :
  level_repr h lv tp g → (p, m) ∈ g → ∃ o, h !! p = Some o ∧ unlink o = m.
Proof.
  intros [_ _ Hd _ _] Hin. specialize (Hd p m Hin).
  destruct (h !! p) as [o|]; simplify_eq/=. eauto.
Qed.

Lemma level_repr_size h lv tp g : level_repr h lv tp g → (length g ≤ size h)%nat.
Proof. intros [_ Hl _ _ _]. apply level_length in Hl. by rewrite length_fmap in Hl. Qed.

(** The data lookup of every order survives an operation that preserves data. *)
Lemma same_data_ghost h h' (g : ghost) :
  same_data h h' → (∀ p m, (p, m) ∈ g → unlink <$> h !! p = Some m) →
  ∀ p m, (p, m) ∈ g → unlink <$> h' !! p = Some m.
Proof. intros Hs Hd p m Hin. rewrite (Hs p). by apply Hd. Qed.

Lemma addOrder_repr h lv tp g p o :
  level_repr h lv tp g → h !! p = Some o → p ∉ g.*1 →
  ∃ h' lv', addOrder h lv p = Some (h', lv') ∧ level_repr h' lv' tp (g ++ [(p, unlink o)]) ∧
    same_data h h' ∧ (∀ q, q ∉ g.*1 → q ≠ p → h' !! q = h !! q).
Proof.
  intros [Hp Hl Hd Hq Hc] Ho Hin.
  destruct (addOrder_spec _ _ _ _ _ Hl Ho Hin) as (h' & lv' & He & Hl' & Hs & Hf & Hp' & Hq' & Hc').
  exists h', lv'. split_and!; [done| |done|done]. split.
  - by rewrite Hp'.
  - by rewrite fmap_app.
  - intros q m [?|[= -> ->]%list_elem_of_singleton]%elem_of_app.
    + by eapply same_data_ghost.
    + by rewrite (Hs p), Ho.
  - rewrite Hq', Hq, fmap_app, zsum_app, wraps_add_l by lia. simpl.
    by rewrite remaining_unlink, Z.add_0_r.
  - rewrite Hc', Hc, length_app, wraps_add_l by lia. simpl. f_equal. lia.
Qed.

Lemma removeOrder_repr h lv tp g1 p m g2 :
  level_repr h lv tp (g1 ++ (p, m) :: g2) →
  ∃ h' lv', removeOrder h lv p = Some (h', lv') ∧ level_repr h' lv' tp (g1 ++ g2) ∧
    same_data h h' ∧ (∀ q, q ∉ (g1 ++ (p, m) :: g2).*1 → h' !! q = h !! q).
Proof.
  intros Hr. destruct (level_repr_lookup _ _ _ _ p m Hr) as (o & Ho & Hm); [set_solver|].
  destruct Hr as [Hp Hl Hd Hq Hc]. rewrite fmap_app in Hl. simpl in Hl.
  destruct (removeOrder_spec _ _ _ _ _ _ Hl Ho) as (h' & lv' & He & Hl' & Hs & Hf & Hp' & Hq' & Hc').
  exists h', lv'. split_and!; [done| |done|by rewrite fmap_app]. split.
  - by rewrite Hp'.
  - by rewrite fmap_app.
  - intros q n Hin. eapply same_data_ghost; [done|exact Hd|]. set_solver.
  - rewrite Hq', Hq, wraps_add_l, !fmap_app, !zsum_app by lia. csimpl. f_equal.
    rewrite <-Hm, remaining_unlink. lia.
  - rewrite Hc', Hc, wraps_add_l, !length_app by lia. simpl. f_equal. lia.
Qed.

(** Updating the data of the front order in place, with the level's quantity
    adjusted by the difference. *)
Lemma level_repr_alter_front h lv tp p m g o o' dq :
  level_repr h lv tp ((p, m) :: g) → h !! p = Some o →
  prev_in_level o' = prev_in_level o → next_in_level o' = next_in_level o →
  dq = remainingQty o - remainingQty o' →
  level_repr (<[p := o']> h) (set_total_quantity (i32 (total_quantity lv - dq)) lv) tp
    ((p, unlink o') :: g).
Proof.
  intros [Hp [Hh Ht Hnd Hs] Hd Hq Hc] Ho Hpv Hnx ->.
  csimpl in *. apply NoDup_cons in Hnd as Hnd'. destruct Hnd' as [Hni _].
  assert (unlink o = m) as Hm.
  { specialize (Hd p m). rewrite Ho in Hd. simpl in Hd. apply Some_inj, Hd. set_solver. }
  split.
  - by destruct lv.
  - split; csimpl; [by destruct lv|by destruct lv|done|].
    destruct Hs as [(o1 & Ho1 & Hpv1 & Hnx1) Hs]. simplify_eq. split.
    + exists o'. rewrite lookup_insert_eq. split_and!; congruence.
    + eapply dlseg_ext; [|exact Hs]. intros q Hin. rewrite lookup_insert_ne; set_solver.
  - intros q n [[= -> ->]|Hin]%elem_of_cons; [by rewrite lookup_insert_eq|].
    rewrite lookup_insert_ne; [apply Hd; set_solver|].
    intros ->. apply Hni, list_elem_of_fmap. by exists (q, n).
  - destruct lv; csimpl in *. rewrite Hq.
    rewrite <-Hm, !remaining_unlink.
    rewrite <-Z.add_opp_r.
    rewrite wraps_add_l by lia. f_equal. lia.
  - by destruct lv.
Qed.
