(* ===== verification/OrderBook.v ===== *)
(** * The order book (src/engine/order_book.h, src/engine/order_book.cpp)

    The book over the heap of orders, operation by operation. [None] is a
    memory error (a null or dangling pointer is dereferenced) or a loop that
    does not finish within its bound; the refinement proofs show that neither
    happens.

    The two [std::map]s differ only in their comparison object, and the four
    copies of the matching loop (limit and market, buy and sell) differ only in
    the map they walk, the [Side] literal they report and the limit-price test;
    the shared text is one definition with those three as parameters. *)
From S2P Require Import Prelude Types OrderedMap Order PriceLevel.

Record OrderBook := mkBook {
  security_id_ : SecurityId;
  bid_levels_ : list (Price * PriceLevel);
  ask_levels_ : list (Price * PriceLevel);
  orders_by_id_ : gmap OrderId Ptr;
  next_trade_id_ : Z;
  rpt_seq_ : Z
}.

(** [OrderBook(security_id)]. *)
Definition OrderBook_init (security_id : SecurityId) : OrderBook :=
  mkBook security_id [] [] ∅ 1 1.

Definition isBuy (s : Side) : bool := bool_decide (s = Buy).

(** [bid_levels_] or [ask_levels_], and their comparison objects
    [std::greater<Price>] and [std::less<Price>]. *)
Definition levels (s : Side) (b : OrderBook) : list (Price * PriceLevel) :=
  if isBuy s then bid_levels_ b else ask_levels_ b.
Definition set_levels (s : Side) v (b : OrderBook) : OrderBook :=
  let '(mkBook sid bids asks ids tid rpt) := b in
  if isBuy s then mkBook sid v asks ids tid rpt else mkBook sid bids v ids tid rpt.
Definition better (s : Side) : Price → Price → bool := if isBuy s then Price_gt else Price_lt.

Definition set_orders_by_id v (b : OrderBook) : OrderBook :=
  let '(mkBook sid bids asks _ tid rpt) := b in mkBook sid bids asks v tid rpt.

(** A state of the running code: the heap, the book and the events so far. *)
Abbreviation State := (heap * OrderBook * list EngineEvent)%type.

Module OrderBookOps.
Import PriceLevelOps.

(** ** Level indices and book updates *)

(** The two loops of [priceLevelIndex]: up to the first level with the price,
    or else up to the first level worse than it. *)
Fixpoint index_of (price : Price) (idx : Z) (m : list (Price * PriceLevel)) : option Z :=
  match m with
  | [] => None
  | (p, _) :: m => if Price_eq p price then Some idx else index_of price (i32 (idx + 1)) m
  end.

Fixpoint index_before (cmp : Price → Price → bool) (price : Price) (idx : Z)
    (m : list (Price * PriceLevel)) : Z :=
  match m with
  | [] => idx
  | (p, _) :: m => if cmp price p then idx else index_before cmp price (i32 (idx + 1)) m
  end.

Definition priceLevelIndex (b : OrderBook) (side : Side) (price : Price) : Z :=
  match index_of price 1 (levels side b) with
  | Some idx => idx
  | None => index_before (better side) price 1 (levels side b)
  end.

Definition generateBookUpdate (b : OrderBook) (sec_id : SecurityId) (side : Side) (price : Price)
    (new_qty : Quantity) (new_count : Z) (action : MDUpdateAction) (level_idx : Z)
    (events : list EngineEvent) : OrderBook * list EngineEvent :=
  let '(mkBook sid bids asks ids tid rpt) := b in
  (mkBook sid bids asks ids tid (u32 (rpt + 1)),
   events ++ [BookUpdate sec_id side price new_qty new_count action level_idx rpt]).

Definition executeTrade (h : heap) (b : OrderBook) (maker taker : Ptr) (tp : Price) (tq : Quantity)
    : option (heap * OrderBook * Trade) :=
  h ← assign h maker (λ o, set_filled_qty (i32 (filled_qty o + tq)) o);
  h ← assign h taker (λ o, set_filled_qty (i32 (filled_qty o + tq)) o);
  mo ← h !! maker; o ← h !! taker;
  let '(mkBook sid bids asks ids tid rpt) := b in
  Some (h, mkBook sid bids asks ids (u64 (tid + 1)) rpt,
    mkTrade tid sid tp tq (side o) (order_id mo) (order_id o)
      (session_uuid mo) (session_uuid o) (timestamp o)).

(** ** Matching *)

(** "Update maker status": a maker that is filled leaves its level and the id
    index. *)
Definition settle_maker (h : heap) (b : OrderBook) (level : PriceLevel) (maker : Ptr)
    : option (heap * OrderBook * PriceLevel) :=
  mo ← h !! maker;
  if isFullyFilled mo then
    h ← assign h maker (set_status Filled);
    '(h, level) ← removeOrder h level maker;
    mo ← h !! maker;
    Some (h, set_orders_by_id (delete (order_id mo) (orders_by_id_ b)) b, level)
  else
    h ← assign h maker (set_status PartiallyFilled);
    Some (h, b, level).

(** The body of the inner loop: one trade of [order] against the front order
    of the level at position [it] of the [sd] side. *)
Definition match_step (sd : Side) (it : nat) (tp : Price) (order : Ptr) (st : State) : option State :=
  let '(h, b, events) := st in
  '(_, level) ← levels sd b !! it;
  maker ← front level;
  o ← h !! order; mo ← h !! maker;
  let trade_qty := Z.min (remainingQty o) (remainingQty mo) in
  '(h, b, trade) ← executeTrade h b maker order tp trade_qty;
  let level := set_total_quantity (i32 (total_quantity level - trade_qty)) level in
  '(h, b, level) ← settle_maker h b level maker;
  let b := set_levels sd (set_second it level (levels sd b)) b in
  o ← h !! order;
  h ← assign h order (set_status (if isFullyFilled o then Filled else PartiallyFilled));
  mo ← h !! maker; o ← h !! order;
  let events := events ++ [OrderFilled
    (trade_id trade) (trade_security_id trade) (trade_price trade) (trade_quantity trade)
    (aggressor_side trade)
    (order_id mo) (cl_ord_id mo) (session_uuid mo) (filled_qty mo) (remainingQty mo) (status mo)
    (order_id o) (cl_ord_id o) (session_uuid o) (filled_qty o) (remainingQty o) (status o)] in
  let level_idx := priceLevelIndex b sd tp in
  let '(b, events) :=
    if empty level
    then generateBookUpdate b (security_id_ b) sd tp 0 0 MD_Delete level_idx events
    else generateBookUpdate b (security_id_ b) sd tp (total_quantity level) (order_count level)
           MD_Change level_idx events in
  Some (h, b, events).

(** [while (!level.empty() && order->remainingQty() > 0)]. *)
Fixpoint match_level (fuel : nat) (sd : Side) (it : nat) (tp : Price) (order : Ptr) (st : State)
    : option State :=
  let '(h, b, _) := st in
  '(_, level) ← levels sd b !! it;
  if empty level then Some st else
  o ← h !! order;
  if 0 <? remainingQty o then
    match fuel with
    | O => None
    | S fuel => st ← match_step sd it tp order st; match_level fuel sd it tp order st
    end
  else Some st.

(** The outer loop, from position [it]; [stop level_price order_price] is the
    limit test that breaks out of it. *)
Fixpoint match_levels (fuel : nat) (sd : Side) (stop : Price → Price → bool) (it : nat)
    (order : Ptr) (st : State) : option State :=
  let '(h, b, _) := st in
  match levels sd b !! it with
  | None => Some st
  | Some (tp, _) =>
      o ← h !! order;
      if 0 <? remainingQty o then
        if stop tp (price o) then Some st else
        match fuel with
        | O => None
        | S fuel =>
            '(h, b, events) ← match_level (size h) sd it tp order st;
            '(_, level) ← levels sd b !! it;
            if empty level
            then match_levels fuel sd stop it order (h, set_levels sd (erase it (levels sd b)) b, events)
            else match_levels fuel sd stop (S it) order (h, b, events)
        end
      else Some st
  end.

(** At most every level is visited once. *)
Definition match_side (sd : Side) (stop : Price → Price → bool) (h : heap) (b : OrderBook) (order : Ptr)
    : option State :=
  match_levels (length (levels sd b)) sd stop 0 order (h, b, []).

Definition matchLimit (h : heap) (b : OrderBook) (order : Ptr) : option State :=
  o ← h !! order;
  if isBuy (side o)
  then match_side Sell Price_gt h b order
  else match_side Buy Price_lt h b order.

Definition matchMarket (h : heap) (b : OrderBook) (order : Ptr) : option State :=
  o ← h !! order;
  if isBuy (side o)
  then match_side Sell (λ _ _, false) h b order
  else match_side Buy (λ _ _, false) h b order.

Definition matchOrder (h : heap) (b : OrderBook) (order : Ptr) : option State :=
  o ← h !! order;
  if decide (order_type o = Market) then matchMarket h b order else matchLimit h b order.

Fixpoint fok_loop (stop : Price → bool) (needed : Quantity) (m : list (Price * PriceLevel)) : bool :=
  match m with
  | [] => needed <=? 0
  | (p, level) :: m =>
      if stop p then needed <=? 0 else
      let needed := i32 (needed - total_quantity level) in
      if needed <=? 0 then true else fok_loop stop needed m
  end.

Definition canFillFOK (h : heap) (b : OrderBook) (order : Ptr) : option bool :=
  o ← h !! order;
  let is_limit := bool_decide (order_type o = Limit) in
  Some (if isBuy (side o)
    then fok_loop (λ p, is_limit && Price_gt p (price o)) (quantity o) (ask_levels_ b)
    else fok_loop (λ p, is_limit && Price_lt p (price o)) (quantity o) (bid_levels_ b)).

(** ** Book manipulation *)

(** The branch of [insertResting] for one side. *)
Definition insert_side (sd : Side) (h : heap) (b : OrderBook) (order : Ptr) (events : list EngineEvent)
    : option State :=
  o ← h !! order;
  let '(m, it, inserted) := try_emplace (better sd) (price o) PriceLevel_init (levels sd b) in
  '(_, level) ← m !! it;
  let level := if inserted : bool then set_level_price (price o) level else level in
  '(h, level) ← addOrder h level order;
  let b := set_levels sd (set_second it level m) b in
  o ← h !! order;
  let level_idx := priceLevelIndex b sd (price o) in
  let action := if inserted then MD_New else MD_Change in
  let '(b, events) := generateBookUpdate b (security_id_ b) sd (price o)
    (total_quantity level) (order_count level) action level_idx events in
  Some (h, b, events).

Definition insertResting (h : heap) (b : OrderBook) (order : Ptr) (events : list EngineEvent)
    : option State :=
  o ← h !! order;
  let b := set_orders_by_id (<[order_id o := order]> (orders_by_id_ b)) b in
  if isBuy (side o) then insert_side Buy h b order events else insert_side Sell h b order events.

(** The branch of [removeFromBook] for one side. *)
Definition remove_side (sd : Side) (h : heap) (b : OrderBook) (order : Ptr) (events : list EngineEvent)
    : option State :=
  o ← h !! order;
  match find (better sd) (price o) (levels sd b) with
  | None => Some (h, b, events)
  | Some it =>
      let level_idx := priceLevelIndex b sd (price o) in
      '(_, level) ← levels sd b !! it;
      '(h, level) ← removeOrder h level order;
      let b := set_levels sd (set_second it level (levels sd b)) b in
      o ← h !! order;
      let '(b, events) :=
        if empty level
        then generateBookUpdate (set_levels sd (erase it (levels sd b)) b) (security_id_ b) sd (price o)
               0 0 MD_Delete level_idx events
        else generateBookUpdate b (security_id_ b) sd (price o)
               (total_quantity level) (order_count level) MD_Change level_idx events in
      Some (h, b, events)
  end.

Definition removeFromBook (h : heap) (b : OrderBook) (order : Ptr) (events : list EngineEvent)
    : option State :=
  o ← h !! order;
  let b := set_orders_by_id (delete (order_id o) (orders_by_id_ b)) b in
  if isBuy (side o) then remove_side Buy h b order events else remove_side Sell h b order events.

(** ** Public interface *)

Definition OrderCancelled_of (o : Order) : EngineEvent :=
  OrderCancelled (order_id o) (cl_ord_id o) (session_uuid o) (security_id o) (filled_qty o) (status o).

(** "Post-match handling based on TIF". *)
Definition post_match (h : heap) (b : OrderBook) (order : Ptr) (events : list EngineEvent) : option State :=
  o ← h !! order;
  if negb (isFullyFilled o) then
    if decide (time_in_force o = IOC ∨ time_in_force o = FOK) then
      h ← assign h order (set_status Canceled);
      o ← h !! order;
      Some (h, b, events ++ [OrderCancelled_of o])
    else if decide (order_type o = Limit) then insertResting h b order events
    else if decide (order_type o = Market) then
      h ← assign h order (set_status Canceled);
      o ← h !! order;
      Some (h, b, events ++ [OrderCancelled_of o])
    else Some (h, b, events)
  else Some (h, b, events).

Definition addOrder (h : heap) (b : OrderBook) (order : Ptr) : option State :=
  o ← h !! order;
  can_fill ← (if decide (time_in_force o = FOK) then canFillFOK h b order else Some true);
  if negb can_fill then
    Some (h, b, [OrderRejected (cl_ord_id o) (session_uuid o) "FOK order cannot be fully filled" 0])
  else
  let events := [OrderAccepted (order_id o) (cl_ord_id o) (session_uuid o) (security_id o)
    (side o) (price o) (quantity o) (order_type o) (time_in_force o)] in
  '(h, b, match_events) ← matchOrder h b order;
  let events := events ++ match_events in
  post_match h b order events.

Definition cancelOrder (h : heap) (b : OrderBook) (oid : OrderId) : option State :=
  match orders_by_id_ b !! oid with
  | None => Some (h, b, [OrderCancelRejected oid [] 0 0 "Order not found"])
  | Some order =>
      '(h, b, events) ← removeFromBook h b order [];
      h ← assign h order (set_status Canceled);
      o ← h !! order;
      Some (h, b, events ++ [OrderCancelled_of o])
  end.

Definition modifyOrder (h : heap) (b : OrderBook) (oid : OrderId) (new_price : Price)
    (new_qty : Quantity) (new_cl_ord_id : ClOrdId) : option State :=
  match orders_by_id_ b !! oid with
  | None => Some (h, b, [OrderCancelRejected oid new_cl_ord_id 0 0 "Order not found"])
  | Some order =>
      '(h, b, events) ← removeFromBook h b order [];
      h ← assign h order (set_price new_price);
      h ← assign h order (set_quantity new_qty);
      h ← (if bool_decide (new_cl_ord_id = []) then Some h
           else assign h order (set_cl_ord_id new_cl_ord_id));
      h ← assign h order (set_status Replaced);
      o ← h !! order;
      let events := events ++ [OrderModified (order_id o) (cl_ord_id o) (session_uuid o)
        (security_id o) new_price new_qty (filled_qty o) (remainingQty o)] in
      '(h, b, match_events) ← matchOrder h b order;
      let events := events ++ match_events in
      o ← h !! order;
      if negb (isFullyFilled o) && bool_decide (order_type o = Limit)
      then insertResting h b order events
      else Some (h, b, events)
  end.

(** ** Queries *)

Definition bestBid (b : OrderBook) : Price :=
  match bid_levels_ b with [] => Price_null | (p, _) :: _ => p end.
Definition bestAsk (b : OrderBook) : Price :=
  match ask_levels_ b with [] => Price_null | (p, _) :: _ => p end.
Definition bidLevelCount (b : OrderBook) : Z := i32 (Z.of_nat (length (bid_levels_ b))).
Definition askLevelCount (b : OrderBook) : Z := i32 (Z.of_nat (length (ask_levels_ b))).

End OrderBookOps.
