(* ===== verification/BookSpec.v ===== *)
(** * Abstract order book: price-time priority without pointers

    The specification the order book is proved to implement. A book is, per
    side, the list of its price levels from the best price on, and a level is
    the list of its resting orders from the oldest on. There is no heap, no
    intrusive list, no iterator, no aggregate kept up to date and no loop bound:
    matching is structural recursion over the levels and their orders, and the
    aggregates reported to market data are computed from the orders. *)
From S2P Require Import Prelude Types OrderedMap Order PriceLevel OrderBook.

Abbreviation alevels := (list (Price * list Order)).

Record ABook := mkABook {
  a_security : SecurityId;
  a_bids : alevels;
  a_asks : alevels;
  a_trade_id : Z;
  a_rpt_seq : Z
}.

Definition alevels_of (s : Side) (ab : ABook) : alevels :=
  if isBuy s then a_bids ab else a_asks ab.
Definition set_alevels (s : Side) v (ab : ABook) : ABook :=
  let '(mkABook sid bids asks tid rpt) := ab in
  if isBuy s then mkABook sid v asks tid rpt else mkABook sid bids v tid rpt.

(** The resting orders of a side in priority order, and of the book. *)
Definition resting (L : alevels) : list Order := concat L.*2.
Definition all_resting (ab : ABook) : list Order := resting (a_bids ab) ++ resting (a_asks ab).

Module Spec.

(** An order after trading [q]. *)
Definition fill (q : Quantity) (o : Order) : Order :=
  let o := set_filled_qty (i32 (filled_qty o + q)) o in
  set_status (if isFullyFilled o then Filled else PartiallyFilled) o.

Definition fill_event (tid : Z) (sid : SecurityId) (tp : Price) (q : Quantity) (m t : Order) : EngineEvent :=
  OrderFilled tid sid tp q (side t)
    (order_id m) (cl_ord_id m) (session_uuid m) (filled_qty m) (remainingQty m) (status m)
    (order_id t) (cl_ord_id t) (session_uuid t) (filled_qty t) (remainingQty t) (status t).

(** What market data is told about a level that now holds [ms]. *)
Definition level_update (sid : SecurityId) (sd : Side) (tp : Price) (idx rpt : Z) (ms : list Order) : EngineEvent :=
  match ms with
  | [] => BookUpdate sid sd tp 0 0 MD_Delete idx rpt
  | _ => BookUpdate sid sd tp (i32 (zsum remainingQty ms)) (i32 (Z.of_nat (length ms))) MD_Change idx rpt
  end.

(** The aggressor [t] against one level: the oldest order first, each trade for
    the smaller open quantity, at the level's price. The result is the trade
    and report counters, the aggressor, what is left of the level, the events. *)
Fixpoint match_level (sid : SecurityId) (sd : Side) (tp : Price) (tid rpt : Z) (t : Order) (ms : list Order)
    : Z * Z * Order * list Order * list EngineEvent :=
  match ms with
  | [] => (tid, rpt, t, [], [])
  | m :: ms' =>
      if 0 <? remainingQty t then
        let q := Z.min (remainingQty t) (remainingQty m) in
        let m' := fill q m in
        let t' := fill q t in
        let left := if isFullyFilled m' then ms' else m' :: ms' in
        let evs := [fill_event tid sid tp q m' t'; level_update sid sd tp 1 rpt left] in
        if isFullyFilled m' then
          let '(tid', rpt', t'', ms'', evs') :=
            match_level sid sd tp (u64 (tid + 1)) (u32 (rpt + 1)) t' ms' in
          (tid', rpt', t'', ms'', evs ++ evs')
        else (u64 (tid + 1), u32 (rpt + 1), t', left, evs)
      else (tid, rpt, t, ms, [])
  end.

(** The aggressor against a side, best price first, as long as it has open
    quantity and its limit allows the level. *)
Fixpoint match_levels (sid : SecurityId) (sd : Side) (stop : Price → Price → bool) (tid rpt : Z) (t : Order) (L : alevels)
    : Z * Z * Order * alevels * list EngineEvent :=
  match L with
  | [] => (tid, rpt, t, [], [])
  | (tp, ms) :: L' =>
      if (0 <? remainingQty t) && negb (stop tp (price t)) then
        let '(tid, rpt, t, ms', evs) := match_level sid sd tp tid rpt t ms in
        match ms' with
        | [] =>
            let '(tid, rpt, t, L'', evs') := match_levels sid sd stop tid rpt t L' in
            (tid, rpt, t, L'', evs ++ evs')
        | _ => (tid, rpt, t, (tp, ms') :: L', evs)
        end
      else (tid, rpt, t, L, [])
  end.

(** The side an aggressor trades against and its limit test. *)
Definition opposite (s : Side) : Side := if isBuy s then Sell else Buy.
Definition limit_test (t : Order) : Price → Price → bool :=
  if decide (order_type t = Market) then λ _ _, false
  else if isBuy (side t) then Price_gt else Price_lt.

Definition matchOrder (ab : ABook) (t : Order) : ABook * Order * list EngineEvent :=
  let sd := opposite (side t) in
  let '(tid, rpt, t', L, evs) :=
    match_levels (a_security ab) sd (limit_test t) (a_trade_id ab) (a_rpt_seq ab) t (alevels_of sd ab) in
  let '(mkABook sid bids asks _ _) := set_alevels sd L ab in
  (mkABook sid bids asks tid rpt, t', evs).

(** The part of a side an aggressor can reach before its limit test stops it. *)
Fixpoint reachable (stop : Price → bool) (L : alevels) : alevels :=
  match L with
  | [] => []
  | (p, ms) :: L' => if stop p then [] else (p, ms) :: reachable stop L'
  end.

(** Whether the quantity reported at those levels covers [needed]; the
    aggregates and the running difference are 32-bit. *)
Fixpoint covers (needed : Quantity) (L : alevels) : bool :=
  match L with
  | [] => needed <=? 0
  | (_, ms) :: L' =>
      let needed := i32 (needed - i32 (zsum remainingQty ms)) in
      (needed <=? 0) || covers needed L'
  end.

(** Putting an order at the back of its price level. *)
Fixpoint insert_level (lt : Price → Price → bool) (o : Order) (L : alevels) : alevels :=
  match L with
  | [] => [(price o, [o])]
  | (k, ms) :: L' =>
      if lt k (price o) then (k, ms) :: insert_level lt o L'
      else if lt (price o) k then (price o, [o]) :: L
      else (k, ms ++ [o]) :: L'
  end.

(** Position (from 1) of a price on its side and the orders at it. *)
Fixpoint level_index (lt : Price → Price → bool) (p : Price) (L : alevels) : Z :=
  match L with
  | [] => 1
  | (k, _) :: L' => if lt k p then level_index lt p L' + 1 else 1
  end.

Definition at_price (p : Price) (L : alevels) : list Order :=
  match list_find (λ e, e.1 = p) L with Some (_, (_, ms)) => ms | None => [] end.

Definition tick_rpt (ab : ABook) : ABook :=
  let '(mkABook sid bids asks tid rpt) := ab in mkABook sid bids asks tid (u32 (rpt + 1)).

Definition insertResting (ab : ABook) (o : Order) : ABook * EngineEvent :=
  let sd := if isBuy (side o) then Buy else Sell in
  let L := alevels_of sd ab in
  let L' := insert_level (better sd) o L in
  let ms := at_price (price o) L' in
  (tick_rpt (set_alevels sd L' ab),
   BookUpdate (a_security ab) sd (price o) (i32 (zsum remainingQty ms)) (i32 (Z.of_nat (length ms)))
     (match at_price (price o) L with [] => MD_New | _ => MD_Change end)
     (i32 (level_index (better sd) (price o) L)) (a_rpt_seq ab)).

(** Taking the order with id [oid] out of the level at [p], and the level out of
    the side when it was the last one. *)
Definition remove_id (oid : OrderId) (ms : list Order) : list Order :=
  filter (λ o, order_id o ≠ oid) ms.

Fixpoint remove_level (p : Price) (oid : OrderId) (L : alevels) : alevels :=
  match L with
  | [] => []
  | (k, ms) :: L' =>
      if decide (k = p)
      then match remove_id oid ms with [] => L' | ms' => (k, ms') :: L' end
      else (k, ms) :: remove_level p oid L'
  end.

Definition removeFromBook (ab : ABook) (o : Order) : ABook * EngineEvent :=
  let sd := if isBuy (side o) then Buy else Sell in
  let L := alevels_of sd ab in
  (tick_rpt (set_alevels sd (remove_level (price o) (order_id o) L) ab),
   level_update (a_security ab) sd (price o) (i32 (level_index (better sd) (price o) L)) (a_rpt_seq ab)
     (remove_id (order_id o) (at_price (price o) L))).

(** ** The operations *)

(** The availability test of fill-or-kill: only plain limit orders are held to
    their price. *)
Definition can_fill (ab : ABook) (t : Order) : bool :=
  let stop p := bool_decide (order_type t = Limit) &&
    (if isBuy (side t) then Price_gt p (price t) else Price_lt p (price t)) in
  covers (quantity t) (reachable stop (alevels_of (opposite (side t)) ab)).

Definition accepted (o : Order) : EngineEvent :=
  OrderAccepted (order_id o) (cl_ord_id o) (session_uuid o) (security_id o)
    (side o) (price o) (quantity o) (order_type o) (time_in_force o).

(** What happens to open quantity left after matching: it is killed (IOC, FOK
    and market orders) or rests (limit orders); stop orders are just left. *)
Definition post_match (ab : ABook) (t : Order) (evs : list EngineEvent) : ABook * Order * list EngineEvent :=
  let killed := set_status Canceled t in
  if isFullyFilled t then (ab, t, evs)
  else if bool_decide (time_in_force t = IOC ∨ time_in_force t = FOK) then
    (ab, killed, evs ++ [OrderBookOps.OrderCancelled_of killed])
  else match order_type t with
    | Limit => let '(ab', ev) := insertResting ab t in (ab', t, evs ++ [ev])
    | Market => (ab, killed, evs ++ [OrderBookOps.OrderCancelled_of killed])
    | _ => (ab, t, evs)
    end.

Definition rests (t : Order) : bool :=
  negb (isFullyFilled t) && negb (bool_decide (time_in_force t = IOC ∨ time_in_force t = FOK)) &&
  bool_decide (order_type t = Limit).

(** The result of an operation: the book, the order as the caller sees it
    afterwards, and the events. *)
Definition addOrder (ab : ABook) (t : Order) : ABook * Order * list EngineEvent :=
  if bool_decide (time_in_force t = FOK) && negb (can_fill ab t) then
    (ab, t, [OrderRejected (cl_ord_id t) (session_uuid t) "FOK order cannot be fully filled" 0])
  else
    let '(ab', t', evs) := matchOrder ab t in
    post_match ab' t' (accepted t :: evs).

Definition cancelOrder (ab : ABook) (o : Order) : ABook * Order * list EngineEvent :=
  let '(ab', ev) := removeFromBook ab o in
  let o' := set_status Canceled o in
  (ab', o', [ev; OrderBookOps.OrderCancelled_of o']).

(** The order after the fields of a modify have been assigned. *)
Definition replace (new_price : Price) (new_qty : Quantity) (new_cl_ord_id : ClOrdId) (o : Order) : Order :=
  let o := set_quantity new_qty (set_price new_price o) in
  set_status Replaced (match new_cl_ord_id with [] => o | _ => set_cl_ord_id new_cl_ord_id o end).

Definition modifyOrder (ab : ABook) (o : Order) (new_price : Price) (new_qty : Quantity)
    (new_cl_ord_id : ClOrdId) : ABook * Order * list EngineEvent :=
  let '(ab1, ev) := removeFromBook ab o in
  let o1 := replace new_price new_qty new_cl_ord_id o in
  let ev1 := OrderModified (order_id o1) (cl_ord_id o1) (session_uuid o1) (security_id o1)
    new_price new_qty (filled_qty o1) (remainingQty o1) in
  let '(ab2, o2, evs) := matchOrder ab1 o1 in
  if isFullyFilled o2 then (ab2, o2, ev :: ev1 :: evs)
  else let '(ab3, ev3) := insertResting ab2 o2 in (ab3, o2, ev :: ev1 :: evs ++ [ev3]).

End Spec.
