(* ===== verification/BookWf.v ===== *)
(** * Well-formed books

    The invariant of the abstract book, the quantity discipline of orders, and
    what one fill does to an order. *)
From S2P Require Import Prelude Types OrderedMap Order PriceLevel OrderBook BookSpec.

(** Quantities in range, so that [remainingQty] does not wrap. *)
Definition qty_ok (o : Order) : Prop := 0 ≤ filled_qty o < 2 ^ 31 ∧ 0 ≤ quantity o < 2 ^ 31.

(** The statuses of an order that is still working. *)
Definition live_status (s : OrdStatus) : Prop := s = New ∨ s = PartiallyFilled ∨ s = Replaced.
Definition live (o : Order) : Prop := isFullyFilled o = false → live_status (status o).

(** A resting order of level [k] of side [sd]: a limit order at that price with
    open quantity. *)
Record order_ok (sd : Side) (k : Price) (o : Order) : Prop := {
  ok_price : price o = k;
  ok_side : isBuy (side o) = isBuy sd;
  ok_type : order_type o = Limit;
  ok_qty : qty_ok o;
  ok_open : filled_qty o < quantity o;
  ok_status : live_status (status o)
}.

(** A side: prices strictly from best to worst, no empty level. *)
Definition level_wf (sd : Side) (e : Price * list Order) : Prop :=
  e.2 ≠ [] ∧ Forall (order_ok sd e.1) e.2.
Record side_wf (sd : Side) (L : alevels) : Prop := {
  sw_sorted : sorted_keys (better sd) L.*1;
  sw_levels : Forall (level_wf sd) L
}.

(** Every bid is below every ask. *)
Definition uncrossed (bids asks : alevels) : Prop :=
  ∀ k k', k ∈ bids.*1 → k' ∈ asks.*1 → mantissa k < mantissa k'.

Record book_wf (ab : ABook) : Prop := {
  wf_bids : side_wf Buy (a_bids ab);
  wf_asks : side_wf Sell (a_asks ab);
  wf_ids : NoDup (order_id <$> all_resting ab);
  wf_uncrossed : uncrossed (a_bids ab) (a_asks ab)
}.

#[export] Instance better_compare sd : Compare (better sd).
Proof. unfold better. destruct (isBuy sd); apply _. Qed.

(** ** Arithmetic of fills *)

Lemma rem_qty o : qty_ok o → remainingQty o = quantity o - filled_qty o.
Proof. intros [??]. unfold remainingQty. apply wraps_small; lia. Qed.

Lemma rem_pos o : qty_ok o → (0 <? remainingQty o) = negb (isFullyFilled o).
Proof. intros H. unfold isFullyFilled. rewrite (rem_qty _ H). lia. Qed.

Lemma order_ok_rem sd k o : order_ok sd k o → 0 < remainingQty o.
Proof. intros [_ _ _ Hq Ho _]. rewrite (rem_qty _ Hq). lia. Qed.

(** Everything an order carries except the quantity filled, the status and the
    links. *)
Definition identity (o : Order) : Order :=
  unlink (set_status New (set_filled_qty 0 o)).

Section fill.
Context (q : Quantity) (o : Order) (Hq : 0 ≤ q ≤ remainingQty o) (Ho : qty_ok o).

Lemma fill_filled : filled_qty (Spec.fill q o) = filled_qty o + q.
Proof using Hq Ho.
  pose proof (rem_qty _ Ho) as E. destruct Ho as [??], o as []; cbn in *.
  apply wraps_small; lia.
Qed.

Lemma fill_quantity : quantity (Spec.fill q o) = quantity o.
Proof. by destruct o. Qed.

Lemma fill_ok : qty_ok (Spec.fill q o).
Proof using Hq Ho.
  unfold qty_ok. rewrite fill_filled, fill_quantity.
  pose proof (rem_qty _ Ho). destruct Ho. lia.
Qed.

Lemma fill_rem : remainingQty (Spec.fill q o) = remainingQty o - q.
Proof using Hq Ho. rewrite !rem_qty by (done || apply fill_ok). rewrite fill_filled, fill_quantity. lia. Qed.

Lemma fill_full : isFullyFilled (Spec.fill q o) = (remainingQty o <=? q).
Proof using Hq Ho.
  unfold isFullyFilled. rewrite fill_filled, fill_quantity. pose proof (rem_qty _ Ho). lia.
Qed.
End fill.

Lemma fill_identity q o : identity (Spec.fill q o) = identity o.
Proof. by destruct o. Qed.

Lemma fill_live q o : live (Spec.fill q o).
Proof.
  unfold live, live_status, Spec.fill. intros H.
  set (o' := set_filled_qty _ o) in *.
  assert (isFullyFilled o' = false) as -> by (by destruct o). destruct o; cbn; auto.
Qed.

Lemma fill_unlink q o : Spec.fill q (unlink o) = unlink (Spec.fill q o).
Proof. by destruct o. Qed.

Lemma identity_fields o o' : identity o = identity o' →
  order_id o = order_id o' ∧ side o = side o' ∧ price o = price o' ∧ order_type o = order_type o' ∧
  quantity o = quantity o' ∧ time_in_force o = time_in_force o' ∧ cl_ord_id o = cl_ord_id o' ∧
  session_uuid o = session_uuid o' ∧ security_id o = security_id o'.
Proof. destruct o, o'. cbn. intros [=]. by subst. Qed.

Lemma fill_order_ok sd k q m :
  order_ok sd k m → 0 ≤ q < remainingQty m → order_ok sd k (Spec.fill q m).
Proof.
  intros Hm Hq. pose proof (ok_qty _ _ _ Hm) as Hok.
  pose proof (rem_qty _ Hok).
  split; [by destruct Hm, m..| | |].
  - apply fill_ok; [lia|done].
  - rewrite fill_filled, fill_quantity by (done || lia). lia.
  - apply fill_live. rewrite fill_full by (done || lia). lia.
Qed.

(** ** What matching does to the aggressor *)

(** After a level, either the level is consumed or the aggressor is; the
    aggressor is the same order, in range, with no less filled. *)
Lemma match_level_inv sid sd tp k tid rpt t ms :
  qty_ok t → Forall (order_ok sd k) ms →
  let '(_, _, t', ms', _) := Spec.match_level sid sd tp tid rpt t ms in
  (ms' = [] ∨ remainingQty t' ≤ 0) ∧ qty_ok t' ∧ identity t' = identity t ∧
  Forall (order_ok sd k) ms' ∧ (order_id <$> ms') `suffix_of` (order_id <$> ms) ∧
  (0 ≤ remainingQty t → 0 ≤ remainingQty t') ∧ (live t → live t').
Proof.
  revert tid rpt t. induction ms as [|m ms IH]; intros tid rpt t Ht HF; [simpl; split_and!; auto|].
  apply Forall_cons in HF as [Hm HF]. simpl.
  destruct (0 <? remainingQty t) eqn:Epos.
  2:{ split_and!; auto. right. lia. }
  pose proof (order_ok_rem _ _ _ Hm). pose proof (ok_qty _ _ _ Hm) as Hmok.
  set (q := Z.min (remainingQty t) (remainingQty m)).
  assert (0 ≤ q ≤ remainingQty t) as Hqt by lia. assert (0 ≤ q ≤ remainingQty m) as Hqm by lia.
  pose proof (fill_rem q t Hqt Ht) as Et. pose proof (fill_full q m Hqm Hmok) as Ef.
  pose proof (fill_ok q t Hqt Ht) as Hok.
  destruct (isFullyFilled (Spec.fill q m)) eqn:Efull.
  - specialize (IH (u64 (tid + 1)) (u32 (rpt + 1)) (Spec.fill q t) Hok HF).
    destruct (Spec.match_level _ _ _ _ _ _ _) as [[[[tid' rpt'] t'] ms'] evs'].
    destruct IH as (?&?&Hid&?&?&Hnn&Hlive). rewrite fill_identity in Hid.
    split_and!; [done..|by apply suffix_cons_r| |].
    + intros _. apply Hnn. lia.
    + intros _. apply Hlive, fill_live.
  - split_and!; [right; lia|done|apply fill_identity| | |lia|intros _; apply fill_live].
    + constructor; [|done]. apply fill_order_ok; [done|lia].
    + rewrite !fmap_cons.
      by assert (order_id (Spec.fill q m) = order_id m) as -> by (by destruct m).
Qed.
