(* ===== verification/BookRefine.v ===== *)
(** * The order book implements the abstract book

    [book_repr h b gb ab]: the book [b] over the heap [h] represents the
    abstract book [ab], [gb] recording which address holds which order. Every
    operation run from a represented, well-formed book returns (so it makes no
    invalid memory access and its loops end within their bounds) and its
    events, its final book and the order it worked on are those of the abstract
    operation. *)
From S2P Require Import Prelude Types OrderedMap Order PriceLevel OrderBook BookSpec BookWf.
Import PriceLevelOps OrderBookOps.

(** ** Representation *)

Abbreviation gside := (list (Price * ghost)).

Definition entries (G : gside) : ghost := concat G.*2.
Definition forget (G : gside) : alevels := (λ e, (e.1, e.2.*2)) <$> G.

Definition levels_repr (h : heap) (M : list (Price * PriceLevel)) (G : gside) : Prop :=
  Forall2 (λ e e', e.1 = e'.1 ∧ level_repr h e.2 e'.1 e'.2) M G.

(** The id index holds exactly the resting orders. *)
Definition ids_repr (ids : gmap OrderId Ptr) (E : ghost) : Prop :=
  ∀ id p, ids !! id = Some p ↔ ∃ m, (p, m) ∈ E ∧ order_id m = id.

Record book_repr (h : heap) (b : OrderBook) (gb : gside * gside) (ab : ABook) : Prop := {
  br_sec : a_security ab = security_id_ b;
  br_tid : a_trade_id ab = next_trade_id_ b;
  br_rpt : a_rpt_seq ab = rpt_seq_ b;
  br_bids : levels_repr h (bid_levels_ b) gb.1;
  br_asks : levels_repr h (ask_levels_ b) gb.2;
  br_abids : a_bids ab = forget gb.1;
  br_aasks : a_asks ab = forget gb.2;
  br_nodup : NoDup (entries gb.1 ++ entries gb.2).*1;
  br_ids : ids_repr (orders_by_id_ b) (entries gb.1 ++ entries gb.2)
}.

(** The book seen from one side. *)
Definition mkSide (sd : Side) sid M Mo ids tid rpt : OrderBook :=
  if isBuy sd then mkBook sid M Mo ids tid rpt else mkBook sid Mo M ids tid rpt.

Lemma book_side sd b :
  b = mkSide sd (security_id_ b) (levels sd b) (levels (Spec.opposite sd) b)
        (orders_by_id_ b) (next_trade_id_ b) (rpt_seq_ b).
Proof. destruct b. unfold mkSide, levels, Spec.opposite. by destruct (isBuy sd). Qed.

(** ** One trade *)

Lemma level_repr_total h lv tp g : level_repr h lv tp g →
  set_total_quantity (i32 (total_quantity lv - 0)) lv = lv.
Proof.
  intros [_ _ _ Hq _]. destruct lv; simpl in *. f_equal.
  rewrite Hq, Z.sub_0_r. by apply wraps_small, wraps_range.
Qed.

(** Changing data of the front order without changing its open quantity. *)
Lemma level_repr_alter_data h lv tp p m g o o' :
  level_repr h lv tp ((p, m) :: g) → h !! p = Some o →
  prev_in_level o' = prev_in_level o → next_in_level o' = next_in_level o →
  remainingQty o' = remainingQty o →
  level_repr (<[p := o']> h) lv tp ((p, unlink o') :: g).
Proof.
  intros Hr Ho Hp Hn Hq. rewrite <-(level_repr_total _ _ _ _ Hr).
  eapply level_repr_alter_front; [done..|]. lia.
Qed.

Definition settled (m : Order) : Order :=
  set_status (if isFullyFilled m then Filled else PartiallyFilled) m.

Lemma settle_maker_spec h b lv tp p m g :
  level_repr h lv tp ((p, m) :: g) →
  ∃ h' lv' mo, settle_maker h b lv p =
      Some (h', if isFullyFilled m then set_orders_by_id (delete (order_id m) (orders_by_id_ b)) b else b, lv') ∧
    level_repr h' lv' tp (if isFullyFilled m then g else (p, settled m) :: g) ∧
    h' !! p = Some mo ∧ unlink mo = settled m ∧
    (∀ q, q ∉ p :: g.*1 → h' !! q = h !! q).
Proof.
  intros Hr. destruct (level_repr_lookup _ _ _ _ p m Hr) as (o & Ho & Hm); [set_solver|].
  unfold settle_maker. rewrite Ho. simpl. unfold settled. rewrite <-Hm, filled_unlink.
  assert (∀ st, level_repr (<[p := set_status st o]> h) lv tp ((p, unlink (set_status st o)) :: g)) as Hr'.
  { intros st. eapply level_repr_alter_data; [done|done|by destruct o..]. }
  destruct (isFullyFilled o); rewrite (assign_Some _ _ _ _ Ho); simpl.
  - specialize (Hr' Filled).
    destruct (removeOrder_repr _ _ _ [] _ _ _ Hr') as (h' & lv' & He & Hl & Hs & Hf).
    destruct (same_data_lookup _ _ p (set_status Filled o) Hs) as (mo & Hmo & Hu);
      [apply lookup_insert_eq|].
    exists h', lv', mo. rewrite He. simpl. rewrite Hmo. simpl.
    assert (order_id mo = order_id (unlink o)) as ->
      by (destruct mo, o; cbn in *; by injection Hu).
    split_and!; [done|done|done|rewrite Hu; by destruct o|].
    intros q Hq. rewrite Hf by done. rewrite lookup_insert_ne; set_solver.
  - eexists _, lv, _. split_and!; [done| |apply lookup_insert_eq|by destruct o|].
    + specialize (Hr' PartiallyFilled). by destruct o.
    + intros q Hq. rewrite lookup_insert_ne; set_solver.
Qed.

Lemma fill_event_unlink tid sid tp q m o :
  Spec.fill_event tid sid tp q (unlink m) (unlink o) = Spec.fill_event tid sid tp q m o.
Proof. by destruct m, o. Qed.

(** The fill event as the code assembles it from the orders in the heap. *)
Lemma fill_event_fields tid sid tp q m' o mo :
  unlink mo = m' →
  Spec.fill_event tid sid tp q m' (Spec.fill q (unlink o)) =
  OrderFilled tid sid tp q (side o)
    (order_id mo) (cl_ord_id mo) (session_uuid mo) (filled_qty mo) (remainingQty mo) (status mo)
    (order_id (Spec.fill q o)) (cl_ord_id (Spec.fill q o)) (session_uuid (Spec.fill q o))
    (filled_qty (Spec.fill q o)) (remainingQty (Spec.fill q o)) (status (Spec.fill q o)).
Proof. intros <-. rewrite fill_unlink, fill_event_unlink. by destruct o. Qed.

(** The first level of a side has index 1. *)
Lemma priceLevelIndex_first sd sid tp lv M Mo ids tid rpt :
  priceLevelIndex (mkSide sd sid ((tp, lv) :: M) Mo ids tid rpt) sd tp = 1.
Proof.
  unfold priceLevelIndex, levels, mkSide.
  destruct (isBuy sd); simpl; unfold Price_eq; by rewrite Z.eqb_refl.
Qed.

Lemma level_update_repr h lv sid sd tp idx g rpt :
  level_repr h lv tp g →
  Spec.level_update sid sd tp idx rpt g.*2 =
    if empty lv then BookUpdate sid sd tp 0 0 MD_Delete idx rpt
    else BookUpdate sid sd tp (total_quantity lv) (order_count lv) MD_Change idx rpt.
Proof.
  intros Hr. rewrite (level_repr_empty _ _ _ _ Hr). destruct Hr as [_ _ _ Hq Hc].
  destruct g as [|e g]; [done|]. simpl. by rewrite Hq, Hc, <-length_fmap with (f := snd).
Qed.

(** [executeTrade] together with the quantity adjustment of the level. *)
Lemma executeTrade_spec h sd sid M Mo ids tid rpt lv tp p m g t o q :
  level_repr h lv tp ((p, m) :: g) → h !! t = Some o → t ∉ p :: g.*1 →
  0 ≤ q ≤ remainingQty m → qty_ok m →
  ∃ h' mo, executeTrade h (mkSide sd sid M Mo ids tid rpt) p t tp q =
      Some (h', mkSide sd sid M Mo ids (u64 (tid + 1)) rpt,
        mkTrade tid sid tp q (side o) (order_id mo) (order_id o) (session_uuid mo) (session_uuid o) (timestamp o)) ∧
    level_repr h' (set_total_quantity (i32 (total_quantity lv - q)) lv) tp
      ((p, set_filled_qty (i32 (filled_qty m + q)) m) :: g) ∧
    h' !! t = Some (set_filled_qty (i32 (filled_qty o + q)) o) ∧
    (∀ r, r ∉ t :: p :: g.*1 → h' !! r = h !! r).
Proof.
  intros Hr Ho Ht Hq Hm.
  destruct (level_repr_lookup _ _ _ _ p m Hr) as (mo & Hmo & <-); [set_solver|].
  assert (t ≠ p) by set_solver.
  set (mo' := set_filled_qty (i32 (filled_qty mo + q)) mo).
  set (o' := set_filled_qty (i32 (filled_qty o + q)) o).
  exists (<[t := o']> (<[p := mo']> h)), mo'. split_and!.
  - unfold executeTrade. rewrite (assign_Some _ _ _ _ Hmo). simpl.
    rewrite (assign_Some _ _ _ o) by (by rewrite lookup_insert_ne). simpl.
    rewrite (lookup_insert_ne _ t p) by done. rewrite !lookup_insert_eq. simpl.
    unfold mkSide. destruct (isBuy sd), o; done.
  - eapply level_repr_frame; [intros r Hin; apply lookup_insert_ne; set_solver|].
    assert (unlink mo' = set_filled_qty (i32 (filled_qty (unlink mo) + q)) (unlink mo)) as <-
      by (by destruct mo).
    eapply level_repr_alter_front; [exact Hr|done|by destruct mo..|].
    pose proof (fill_rem q (unlink mo) Hq Hm) as E. rewrite remaining_unlink in E.
    assert (remainingQty mo' = remainingQty (Spec.fill q (unlink mo))) as -> by (by destruct mo). lia.
  - apply lookup_insert_eq.
  - intros r Hr'. rewrite !lookup_insert_ne; set_solver.
Qed.

(** The book after the maker has been settled and the level written back. *)
Lemma match_step_book (full : bool) id sd sid tp lv lv' M Mo ids tid rpt :
  let b := mkSide sd sid ((tp, lv) :: M) Mo ids tid rpt in
  let b' := if full then set_orders_by_id (delete id (orders_by_id_ b)) b else b in
  set_levels sd (set_second 0 lv' (levels sd b')) b' =
    mkSide sd sid ((tp, lv') :: M) Mo (if full then delete id ids else ids) tid rpt.
Proof. unfold set_levels, levels, mkSide. by destruct full, (isBuy sd). Qed.

Lemma match_step_spec sd sid lv M Mo ids tid rpt h tp t o p m g evs :
  level_repr h lv tp ((p, m) :: g) → h !! t = Some o → t ∉ p :: g.*1 →
  0 ≤ remainingQty o → 0 ≤ remainingQty m → qty_ok m →
  let q := Z.min (remainingQty o) (remainingQty m) in
  let m' := Spec.fill q m in
  let left := if isFullyFilled m' then g else (p, m') :: g in
  ∃ h' lv', match_step sd 0 tp t (h, mkSide sd sid ((tp, lv) :: M) Mo ids tid rpt, evs) =
      Some (h', mkSide sd sid ((tp, lv') :: M) Mo (if isFullyFilled m' then delete (order_id m) ids else ids)
               (u64 (tid + 1)) (u32 (rpt + 1)),
        evs ++ [Spec.fill_event tid sid tp q m' (Spec.fill q (unlink o));
                Spec.level_update sid sd tp 1 rpt left.*2]) ∧
    level_repr h' lv' tp left ∧ h' !! t = Some (Spec.fill q o) ∧
    (∀ r, r ∉ t :: p :: g.*1 → h' !! r = h !! r).
Proof.
  intros Hr Ho Ht Ho0 Hm0 Hm q m' left.
  destruct (level_repr_lookup _ _ _ _ p m Hr) as (mo & Hmo & Hu); [set_solver|].
  assert (remainingQty mo = remainingQty m) as Emo by (by rewrite <-Hu, remaining_unlink).
  destruct (executeTrade_spec h sd sid ((tp, lv) :: M) Mo ids tid rpt lv tp p m g t o q)
    as (h1 & mo1 & He & Hr1 & Ho1 & Hf1); [done..|lia|done|].
  set (m1 := set_filled_qty (i32 (filled_qty m + q)) m) in *.
  set (b1 := mkSide sd sid ((tp, lv) :: M) Mo ids (u64 (tid + 1)) rpt) in *.
  destruct (settle_maker_spec h1 b1 _ tp p m1 g Hr1) as (h2 & lv2 & mo2 & Hs & Hr2 & Hmo2 & Hu2 & Hf2).
  assert (isFullyFilled m1 = isFullyFilled m') as Ef by (by destruct m).
  assert (settled m1 = m') as Es by (by destruct m).
  assert (order_id m1 = order_id m) as Ei by (by destruct m).
  rewrite Ef, Es, Ei in *. fold left in Hr2.
  assert (h2 !! t = Some (set_filled_qty (i32 (filled_qty o + q)) o)) as Ho2 by (by rewrite Hf2).
  exists (<[t := Spec.fill q o]> h2), lv2. split_and!.
  - unfold match_step.
    assert (levels sd (mkSide sd sid ((tp, lv) :: M) Mo ids tid rpt) !! 0%nat = Some (tp, lv)) as ->
      by (unfold levels, mkSide; by destruct (isBuy sd)).
    simpl. rewrite (level_repr_front _ _ _ _ Hr). simpl. rewrite Ho. simpl. rewrite Hmo. simpl.
    rewrite Emo. fold q. rewrite He. simpl. rewrite Hs. simpl. rewrite Ho2. simpl.
    rewrite (assign_Some _ _ _ _ Ho2). simpl.
    rewrite (lookup_insert_ne _ t p) by set_solver. rewrite Hmo2. simpl. rewrite lookup_insert_eq. simpl.
    rewrite (level_update_repr _ _ sid sd _ 1 _ rpt Hr2). unfold b1.
    rewrite match_step_book, priceLevelIndex_first.
    rewrite (fill_event_fields tid sid tp q m' o mo2 Hu2).
    unfold mkSide. destruct (empty lv2), (isBuy sd); simpl; by rewrite <-app_assoc.
  - eapply level_repr_frame; [|exact Hr2]. intros r Hin. apply lookup_insert_ne.
    unfold left in Hin. destruct (isFullyFilled m'); set_solver.
  - apply lookup_insert_eq.
  - intros r Hr'. rewrite lookup_insert_ne by set_solver. rewrite Hf2, Hf1; set_solver.
Qed.

(** ** The id index *)

Lemma ids_repr_delete ids p m E :
  ids_repr ids ((p, m) :: E) → NoDup (order_id <$> ((p, m) :: E).*2) →
  ids_repr (delete (order_id m) ids) E.
Proof.
  intros Hi Hnd id q. csimpl in Hnd. apply NoDup_cons in Hnd as [Hni _].
  rewrite lookup_delete_Some, (Hi id q). split.
  - intros (Hne & n & [[= -> ->]|Hin]%elem_of_cons & Hid); [by rewrite Hid in Hne|eauto].
  - intros (n & Hin & Hid). split; [|exists n; set_solver].
    intros Heq. apply Hni. rewrite Heq, <-Hid. apply list_elem_of_fmap. exists n.
    split; [done|]. apply list_elem_of_fmap. by exists (q, n).
Qed.

Lemma ids_repr_alter ids p m m' E :
  order_id m' = order_id m → ids_repr ids ((p, m) :: E) → ids_repr ids ((p, m') :: E).
Proof.
  intros He Hi id q. rewrite (Hi id q). split.
  - intros (n & [[= -> ->]|Hin]%elem_of_cons & Hid).
    + exists m'. split; [set_solver|congruence].
    + exists n. set_solver.
  - intros (n & [[= -> ->]|Hin]%elem_of_cons & Hid).
    + exists m. split; [set_solver|congruence].
    + exists n. set_solver.
Qed.

#[export] Instance ids_repr_proper ids : Proper ((≡ₚ) ==> iff) (ids_repr ids).
Proof.
  intros E E' HE. unfold ids_repr. split; intros H id p; rewrite H; setoid_rewrite HE; done.
Qed.

(** The id index follows the level as its orders are consumed, whatever else it
    holds. *)
Definition ids_track (ids ids' : gmap OrderId Ptr) (g g' : ghost) : Prop :=
  ∀ E, ids_repr ids (g ++ E) → NoDup (order_id <$> (g ++ E).*2) →
    ids_repr ids' (g' ++ E) ∧ NoDup (order_id <$> (g' ++ E).*2).

Lemma ids_track_refl ids g : ids_track ids ids g g.
Proof. by intros E. Qed.

Lemma ids_track_trans ids1 ids2 ids3 g1 g2 g3 :
  ids_track ids1 ids2 g1 g2 → ids_track ids2 ids3 g2 g3 → ids_track ids1 ids3 g1 g3.
Proof. intros H1 H2 E Hi Hn. destruct (H1 E Hi Hn). by apply H2. Qed.

Lemma ids_track_step ids p m g q :
  let m' := Spec.fill q m in
  ids_track ids (if isFullyFilled m' then delete (order_id m) ids else ids)
    ((p, m) :: g) (if isFullyFilled m' then g else (p, m') :: g).
Proof.
  intros m' E Hi Hn. assert (order_id m' = order_id m) as He by (by destruct m).
  destruct (isFullyFilled m').
  - split; [by eapply ids_repr_delete|]. csimpl in Hn. by apply NoDup_cons in Hn as [_ ?].
  - split; [by eapply ids_repr_alter|]. csimpl in *. by rewrite He.
Qed.

(** ** The matching loops *)

Lemma levels_mkSide sd sid M Mo ids tid rpt : levels sd (mkSide sd sid M Mo ids tid rpt) = M.
Proof. unfold levels, mkSide. by destruct (isBuy sd). Qed.

Lemma set_levels_mkSide sd sid M M' Mo ids tid rpt :
  set_levels sd M' (mkSide sd sid M Mo ids tid rpt) = mkSide sd sid M' Mo ids tid rpt.
Proof. unfold set_levels, mkSide. by destruct (isBuy sd). Qed.

(** The inner loop is over when the level or the aggressor is exhausted. *)
Lemma match_level_done fuel sd sid tp t h lv o M Mo ids tid rpt evs :
  h !! t = Some o → empty lv = true ∨ remainingQty o ≤ 0 →
  let st := (h, mkSide sd sid ((tp, lv) :: M) Mo ids tid rpt, evs) in
  match_level fuel sd 0 tp t st = Some st.
Proof.
  intros Ho Hd. destruct fuel; simpl; rewrite levels_mkSide; simpl;
    (destruct (empty lv) eqn:E; [done|]; rewrite Ho; simpl;
     assert ((0 <? remainingQty o) = false) as -> by (destruct Hd; [done|lia]); done).
Qed.

Lemma match_level_step fuel sd sid tp t h lv o M Mo ids tid rpt evs :
  h !! t = Some o → empty lv = false → 0 < remainingQty o →
  let st := (h, mkSide sd sid ((tp, lv) :: M) Mo ids tid rpt, evs) in
  match_level (S fuel) sd 0 tp t st = (st ← match_step sd 0 tp t st; match_level fuel sd 0 tp t st).
Proof.
  intros Ho He Hq. cbn [match_level]. rewrite levels_mkSide. simpl. rewrite He, Ho. simpl.
  by assert ((0 <? remainingQty o) = true) as -> by lia.
Qed.

(** Outcome of matching against one level: it is the abstract outcome, only the
    aggressor and the orders of the level are touched. *)
Definition level_outcome (sd : Side) sid tp t M Mo (h : heap) (g : ghost) ids evs
    (r : Z * Z * Order * list Order * list EngineEvent) (st : option State) : Prop :=
  ∃ h' lv' ids' g' o',
    st = Some (h', mkSide sd sid ((tp, lv') :: M) Mo ids' r.1.1.1.1 r.1.1.1.2, evs ++ r.2) ∧
    level_repr h' lv' tp g' ∧ g'.*2 = r.1.2 ∧ h' !! t = Some o' ∧ unlink o' = r.1.1.2 ∧
    (∀ q, q ∉ t :: g.*1 → h' !! q = h !! q) ∧ g'.*1 `suffix_of` g.*1 ∧ ids_track ids ids' g g'.

Lemma match_level_spec sd k sid tp t M Mo fuel g h lv o ids tid rpt evs :
  level_repr h lv tp g → h !! t = Some o → t ∉ g.*1 → qty_ok o →
  Forall (order_ok sd k) g.*2 → (length g ≤ fuel)%nat →
  level_outcome sd sid tp t M Mo h g ids evs
    (Spec.match_level sid sd tp tid rpt (unlink o) g.*2)
    (match_level fuel sd 0 tp t (h, mkSide sd sid ((tp, lv) :: M) Mo ids tid rpt, evs)).
Proof.
  revert fuel h lv o ids tid rpt evs. induction g as [|[p m] g IH];
    intros fuel h lv o ids tid rpt evs Hr Ho Ht Hok HF Hlen.
  - rewrite (match_level_done _ _ _ _ _ _ _ o) by (rewrite ?(level_repr_empty _ _ _ _ Hr); auto).
    exists h, lv, ids, [], o. simpl. rewrite app_nil_r. by split_and!; [..|apply ids_track_refl].
  - csimpl in *. apply Forall_cons in HF as [Hm HF]. rewrite remaining_unlink.
    destruct (0 <? remainingQty o) eqn:Epos.
    2:{ rewrite (match_level_done _ _ _ _ _ _ _ o) by (auto; lia).
        exists h, lv, ids, ((p, m) :: g), o. simpl. rewrite app_nil_r.
        by split_and!; [..|apply ids_track_refl]. }
    destruct fuel as [|fuel]; [lia|].
    pose proof (order_ok_rem _ _ _ Hm) as Hmpos. pose proof (ok_qty _ _ _ Hm) as Hmok.
    set (q := Z.min (remainingQty o) (remainingQty m)).
    destruct (match_step_spec sd sid lv M Mo ids tid rpt h tp t o p m g evs)
      as (h1 & lv1 & He & Hr1 & Ho1 & Hf1); [done..|lia|lia|done|]. fold q in He, Hr1, Ho1.
    assert (0 ≤ q ≤ remainingQty o) as Hqo by lia.
    pose proof (fill_rem q o Hqo Hok) as Erem.
    rewrite (match_level_step _ _ _ _ _ _ _ o), He
      by (done || (by rewrite (level_repr_empty _ _ _ _ Hr)) || lia).
    cbn [mbind option_bind].
    pose proof (ids_track_step ids p m g q) as Htr. cbn zeta in Htr.
    destruct (isFullyFilled (Spec.fill q m)) eqn:Ef.
    + destruct (IH fuel h1 lv1 (Spec.fill q o) (delete (order_id m) ids) (u64 (tid + 1)) (u32 (rpt + 1))
        (evs ++ [Spec.fill_event tid sid tp q (Spec.fill q m) (Spec.fill q (unlink o));
                 Spec.level_update sid sd tp 1 rpt g.*2]))
        as (h2 & lv2 & ids2 & g2 & o2 & He2 & Hr2 & Hg2 & Ho2 & Hu2 & Hf2 & Hsuf & Htr2);
        [done|done|set_solver|by apply fill_ok|done|lia|].
      rewrite <-fill_unlink in *.
      destruct (Spec.match_level sid sd tp (u64 (tid + 1)) (u32 (rpt + 1)) (Spec.fill q (unlink o)) g.*2)
        as [[[[tid' rpt'] t'] ms'] evs']; cbn [fst snd] in *.
      exists h2, lv2, ids2, g2, o2. split_and!; [|done..| |by apply suffix_cons_r|by eapply ids_track_trans].
      * by rewrite He2, <-app_assoc.
      * intros r Hr'. rewrite Hf2, Hf1; set_solver.
    + assert (remainingQty (Spec.fill q o) ≤ 0).
      { assert (0 ≤ q ≤ remainingQty m) as Hqm by lia.
        pose proof (fill_full q m Hqm Hmok) as Ef'. rewrite Ef in Ef'. lia. }
      rewrite (match_level_done _ _ _ _ _ _ _ (Spec.fill q o)) by auto.
      exists h1, lv1, ids, ((p, Spec.fill q m) :: g), (Spec.fill q o).
      cbn [fst snd]. by rewrite fill_unlink; split_and!.
Qed.

Lemma match_levels_done fuel sd stop sid t h o it M Mo ids tid rpt evs :
  h !! t = Some o →
  match M !! it with None => True | Some (tp, _) => remainingQty o ≤ 0 ∨ stop tp (price o) = true end →
  let st := (h, mkSide sd sid M Mo ids tid rpt, evs) in
  match_levels fuel sd stop it t st = Some st.
Proof.
  intros Ho Hd. destruct fuel; simpl; rewrite levels_mkSide;
    (destruct (M !! it) as [[tp lv]|]; [|done]; rewrite Ho; simpl;
     destruct (0 <? remainingQty o) eqn:E; [|done]; destruct Hd as [?| ->]; [lia|done]).
Qed.

Lemma match_levels_step fuel sd stop sid tp t h lv o M Mo ids tid rpt evs :
  h !! t = Some o → 0 < remainingQty o → stop tp (price o) = false →
  let st := (h, mkSide sd sid ((tp, lv) :: M) Mo ids tid rpt, evs) in
  match_levels (S fuel) sd stop 0 t st =
    ('(h, b, events) ← match_level (size h) sd 0 tp t st;
     '(_, level) ← levels sd b !! 0%nat;
     if empty level
     then match_levels fuel sd stop 0 t (h, set_levels sd (erase 0 (levels sd b)) b, events)
     else match_levels fuel sd stop 1 t (h, b, events)).
Proof.
  intros Ho Hq Hs. cbn [match_levels]. rewrite levels_mkSide. simpl. rewrite Ho. simpl.
  rewrite Hs. by assert ((0 <? remainingQty o) = true) as -> by lia.
Qed.

Lemma levels_repr_frame h h' M G :
  (∀ p, p ∈ (entries G).*1 → h' !! p = h !! p) → levels_repr h M G → levels_repr h' M G.
Proof.
  intros Hf Hl. induction Hl as [|[k lv] [k' g] M G [Hk Hr] Hl IH]; [constructor|].
  unfold entries in Hf. csimpl in Hf. rewrite fmap_app in Hf. constructor.
  - split; [done|]. eapply level_repr_frame; [|exact Hr]. set_solver.
  - apply IH. set_solver.
Qed.

Lemma forget_cons k g G : forget ((k, g) :: G) = (k, g.*2) :: forget G.
Proof. done. Qed.

Lemma entries_cons k g G : entries ((k, g) :: G) = g ++ entries G.
Proof. done. Qed.

Lemma ids_track_frame ids ids' g g' E : ids_track ids ids' g g' → ids_track ids ids' (g ++ E) (g' ++ E).
Proof. intros H E'. rewrite <-!(assoc_L (++)). apply H. Qed.

(** Outcome of matching against a side. *)
Definition side_outcome (sd : Side) sid t Mo (h : heap) (G : gside) ids evs
    (r : Z * Z * Order * alevels * list EngineEvent) (st : option State) : Prop :=
  ∃ h' M' ids' G' o',
    st = Some (h', mkSide sd sid M' Mo ids' r.1.1.1.1 r.1.1.1.2, evs ++ r.2) ∧
    levels_repr h' M' G' ∧ forget G' = r.1.2 ∧ h' !! t = Some o' ∧ unlink o' = r.1.1.2 ∧
    (∀ q, q ∉ t :: (entries G).*1 → h' !! q = h !! q) ∧
    (entries G').*1 `suffix_of` (entries G).*1 ∧ ids_track ids ids' (entries G) (entries G').

(** The first level was consumed: the outcome of the rest is the outcome. *)
Lemma side_outcome_consumed sd sid t Mo h h1 tp g G ids ids1 evs evs1 r st :
  (∀ q, q ∉ t :: g.*1 → h1 !! q = h !! q) → ids_track ids ids1 g [] →
  side_outcome sd sid t Mo h1 G ids1 (evs ++ evs1) r st →
  side_outcome sd sid t Mo h ((tp, g) :: G) ids evs (r.1, evs1 ++ r.2) st.
Proof.
  intros Hf1 Htr (h' & M' & ids' & G' & o' & -> & Hl & Hg & Ho & Hu & Hf & Hsuf & Htr').
  exists h', M', ids', G', o'. rewrite entries_cons, fmap_app. cbn [fst snd].
  split_and!; [by rewrite <-(assoc_L (++))|done..| |by apply suffix_app_r|].
  - intros q Hq. rewrite Hf, Hf1; [done|set_solver..].
  - eapply ids_track_trans; [|exact Htr']. apply (ids_track_frame _ _ _ [] _ Htr).
Qed.

(** The first level survives: nothing behind it is touched. *)
Lemma side_outcome_left sd sid t Mo h h1 tp g g1 G M ids ids1 evs evs1 lv1 o1 tid rpt :
  (∀ q, q ∉ t :: g.*1 → h1 !! q = h !! q) → ids_track ids ids1 g g1 →
  level_repr h1 lv1 tp g1 → levels_repr h1 M G → h1 !! t = Some o1 → g1.*1 `suffix_of` g.*1 →
  side_outcome sd sid t Mo h ((tp, g) :: G) ids evs
    (tid, rpt, unlink o1, (tp, g1.*2) :: forget G, evs1)
    (Some (h1, mkSide sd sid ((tp, lv1) :: M) Mo ids1 tid rpt, evs ++ evs1)).
Proof.
  intros Hf Htr Hr Hl Ho [k Hsuf].
  exists h1, ((tp, lv1) :: M), ids1, ((tp, g1) :: G), o1. rewrite !entries_cons, !fmap_app.
  split_and!; [done|by constructor|done..| | |by apply ids_track_frame].
  - intros q Hq. apply Hf. set_solver.
  - exists k. by rewrite Hsuf, (assoc_L (++)).
Qed.

Lemma match_levels_spec sd stop sid t Mo fuel G h M o ids tid rpt evs :
  levels_repr h M G → h !! t = Some o → t ∉ (entries G).*1 → qty_ok o →
  Forall (level_wf sd) (forget G) → NoDup (entries G).*1 → (length M ≤ fuel)%nat →
  side_outcome sd sid t Mo h G ids evs
    (Spec.match_levels sid sd stop tid rpt (unlink o) (forget G))
    (match_levels fuel sd stop 0 t (h, mkSide sd sid M Mo ids tid rpt, evs)).
Proof.
  revert fuel h M o ids tid rpt evs. induction G as [|[tp g] G IH];
    intros fuel h M o ids tid rpt evs Hl Ho Ht Hok HF Hnd Hlen.
  - apply Forall2_nil_inv_r in Hl as ->. rewrite (match_levels_done _ _ _ _ _ _ o) by done.
    exists h, [], ids, [], o. simpl. rewrite app_nil_r.
    split_and!; [done|constructor|done..|apply ids_track_refl].
  - apply Forall2_cons_inv_r in Hl as ([tp' lv] & M' & [Etp Hr] & Hl & ->). simpl in Etp. subst tp'.
    simpl in Hr. rewrite forget_cons in *. apply Forall_cons in HF as [[Hne HFg] HF]. simpl in Hne, HFg.
    rewrite entries_cons, fmap_app in *. apply NoDup_app in Hnd as (Hndg & Hdis & HndG).
    cbn [Spec.match_levels]. rewrite remaining_unlink.
    assert (price (unlink o) = price o) as -> by (by destruct o).
    destruct ((0 <? remainingQty o) && negb (stop tp (price o))) eqn:Ego.
    2:{ rewrite (match_levels_done _ _ _ _ _ _ o); [|done|].
        - exists h, ((tp, lv) :: M'), ids, ((tp, g) :: G), o. cbn [fst snd]. rewrite app_nil_r.
          split_and!; [done|by constructor|done..|by rewrite entries_cons, fmap_app|apply ids_track_refl].
        - simpl. destruct (0 <? remainingQty o) eqn:E; [|left; lia]. right.
          by destruct (stop tp (price o)). }
    apply andb_true_iff in Ego as [Epos Estop%negb_true_iff].
    destruct fuel as [|fuel]; simpl in Hlen; [lia|].
    rewrite (match_levels_step _ _ _ _ _ _ _ _ o) by (done || lia).
    destruct (match_level_spec sd tp sid tp t M' Mo (size h) g h lv o ids tid rpt evs)
      as (h1 & lv1 & ids1 & g1 & o1 & He & Hr1 & Hg1 & Ho1 & Hu1 & Hf1 & Hsuf & Htr);
      [done|done|intros ?; by apply Ht, elem_of_app; left|done|done|by eapply level_repr_size|].
    pose proof (match_level_inv sid sd tp tp tid rpt (unlink o) g.*2) as Hinv.
    destruct (Spec.match_level sid sd tp tid rpt (unlink o) g.*2) as [[[[tid1 rpt1] t1] ms1] evs1].
    cbn [fst snd] in *. subst t1 ms1. rewrite He. cbn [mbind option_bind].
    destruct Hinv as (Hex & Hok1 & Hid & HF1 & _ & _ & _); [by destruct o|done|].
    rewrite levels_mkSide. cbn [lookup list_lookup mbind option_bind].
    rewrite (level_repr_empty _ _ _ _ Hr1), remaining_unlink in *.
    assert (levels_repr h1 M' G) as Hl1.
    { eapply levels_repr_frame; [|exact Hl]. intros p Hp. apply Hf1, not_elem_of_cons.
      split; [intros ->; by apply Ht, elem_of_app; right | intros ?; by eapply Hdis]. }
    assert (qty_ok o1) by (by destruct o1).
    destruct g1 as [|[p1 m1] g1].
    + rewrite bool_decide_true, set_levels_mkSide by done. cbn [fmap list_fmap].
      assert (t ∉ (entries G).*1) by (intros ?; by apply Ht, elem_of_app; right).
      pose proof (IH fuel h1 M' o1 ids1 tid1 rpt1 (evs ++ evs1) Hl1 Ho1) as Hout.
      eapply side_outcome_consumed in Hout; [|done..|lia].
      by destruct (Spec.match_levels sid sd stop tid1 rpt1 (unlink o1) (forget G)) as [[[[??]?]?]?].
    + rewrite bool_decide_false, (match_levels_done _ _ _ _ _ _ o1); [|done| |done].
      * by eapply side_outcome_left.
      * simpl. destruct (M' !! 0%nat) as [[? ?]|]; [|done]. left. by destruct Hex.
Qed.

(** ** The book, one side in focus *)

Definition mkASide (sd : Side) sid L Lo tid rpt : ABook :=
  if isBuy sd then mkABook sid L Lo tid rpt else mkABook sid Lo L tid rpt.
Definition mkG (sd : Side) (G Go : gside) : gside * gside := if isBuy sd then (G, Go) else (Go, G).
Definition all_entries (gb : gside * gside) : ghost := entries gb.1 ++ entries gb.2.

Lemma all_entries_mkG sd G Go : all_entries (mkG sd G Go) ≡ₚ entries G ++ entries Go.
Proof. unfold all_entries, mkG. destruct (isBuy sd); simpl; [done|apply Permutation_app_comm]. Qed.

(** [book_repr] from the point of view of side [sd]. *)
Lemma book_repr_mkSide sd h sid M Mo ids tid rpt G Go L Lo :
  book_repr h (mkSide sd sid M Mo ids tid rpt) (mkG sd G Go) (mkASide sd sid L Lo tid rpt) ↔
  levels_repr h M G ∧ levels_repr h Mo Go ∧ L = forget G ∧ Lo = forget Go ∧
  NoDup (entries G ++ entries Go).*1 ∧ ids_repr ids (entries G ++ entries Go).
Proof.
  rewrite <-(all_entries_mkG sd). unfold mkSide, mkASide, mkG. destruct (isBuy sd).
  - split; [intros []|intros (?&?&?&?&?&?); split]; simpl in *; auto 10.
  - split; [intros []|intros (?&?&?&?&?&?); split]; simpl in *; auto 10.
Qed.

Lemma book_repr_focus sd h b gb ab :
  book_repr h b gb ab →
  ∃ M Mo G Go, b = mkSide sd (security_id_ b) M Mo (orders_by_id_ b) (next_trade_id_ b) (rpt_seq_ b) ∧
    gb = mkG sd G Go ∧
    ab = mkASide sd (security_id_ b) (forget G) (forget Go) (next_trade_id_ b) (rpt_seq_ b) ∧
    alevels_of sd ab = forget G ∧ levels sd b = M ∧
    levels_repr h M G ∧ levels_repr h Mo Go ∧ NoDup (entries G ++ entries Go).*1 ∧
    ids_repr (orders_by_id_ b) (entries G ++ entries Go).
Proof.
  intros H. destruct b as [sid bids asks ids tid rpt], gb as [G1 G2], ab as [sid' abids aasks tid' rpt'].
  destruct H as [?????????]; simpl in *; subst.
  unfold mkSide, mkG, mkASide, alevels_of, levels. destruct (isBuy sd) eqn:E.
  - exists bids, asks, G1, G2. by split_and!.
  - exists asks, bids, G2, G1. split_and!; try done; by rewrite Permutation_app_comm.
Qed.

Lemma all_resting_repr h b gb ab : book_repr h b gb ab → all_resting ab = (all_entries gb).*2.
Proof.
  unfold all_resting, all_entries. intros [_ _ _ _ _ -> -> _ _]. rewrite fmap_app.
  assert (∀ G, resting (forget G) = (entries G).*2) as H.
  { intros G. unfold resting, entries, forget.
    induction G as [|[k g] G IH]; [done|]. csimpl. by rewrite fmap_app, IH. }
  by rewrite !H.
Qed.

Definition ptrs (gb : gside * gside) : list Ptr := (all_entries gb).*1.

Lemma elem_ptrs_mkG sd G Go p :
  p ∈ ptrs (mkG sd G Go) ↔ p ∈ (entries G).*1 ∨ p ∈ (entries Go).*1.
Proof. unfold ptrs. by rewrite all_entries_mkG, fmap_app, elem_of_app. Qed.

(** What every operation guarantees: the abstract result is represented, the
    order it works on is the abstract one, and memory outside it and the
    resting orders is untouched. *)
Definition op_outcome (h : heap) (t : Ptr) (gb : gside * gside) (r : ABook * Order * list EngineEvent)
    (evs : list EngineEvent) (on_book : bool) (st : option State) : Prop :=
  ∃ h' b' gb' o',
    st = Some (h', b', evs ++ r.2) ∧ book_repr h' b' gb' r.1.1 ∧
    h' !! t = Some o' ∧ unlink o' = r.1.2 ∧
    (∀ q, q ∉ t :: ptrs gb → h' !! q = h !! q) ∧
    ptrs gb' ⊆ (if on_book then t :: ptrs gb else ptrs gb) ∧ (t ∈ ptrs gb' ↔ on_book = true).

Lemma spec_matchOrder_side sid L Lo tid rpt t :
  let sd := Spec.opposite (side t) in
  let r := Spec.match_levels sid sd (Spec.limit_test t) tid rpt t L in
  Spec.matchOrder (mkASide sd sid L Lo tid rpt) t =
    (mkASide sd sid r.1.2 Lo r.1.1.1.1 r.1.1.1.2, r.1.1.2, r.2).
Proof.
  intros sd r. unfold Spec.matchOrder. fold sd.
  assert (alevels_of sd (mkASide sd sid L Lo tid rpt) = L) as ->
    by (unfold alevels_of, mkASide; by destruct (isBuy sd)).
  assert (∀ L', set_alevels sd L' (mkASide sd sid L Lo tid rpt) = mkASide sd sid L' Lo tid rpt) as E
    by (intros; unfold set_alevels, mkASide; by destruct (isBuy sd)).
  assert (a_security (mkASide sd sid L Lo tid rpt) = sid ∧ a_trade_id (mkASide sd sid L Lo tid rpt) = tid ∧
    a_rpt_seq (mkASide sd sid L Lo tid rpt) = rpt) as (-> & -> & ->)
    by (unfold mkASide; by destruct (isBuy sd)).
  fold r. destruct r as [[[[? ?] ?] ?] ?]. rewrite E. unfold mkASide. by destruct (isBuy sd).
Qed.

Lemma matchOrder_refines h b gb ab t o :
  book_repr h b gb ab → book_wf ab → h !! t = Some o → t ∉ ptrs gb → qty_ok o →
  op_outcome h t gb (Spec.matchOrder ab (unlink o)) [] false (matchOrder h b t).
Proof.
  intros Hb Hwf Ho Ht Hok. set (sd := Spec.opposite (side o)).
  assert (matchOrder h b t = match_side sd (Spec.limit_test o) h b t) as ->.
  { unfold matchOrder, matchMarket, matchLimit, Spec.limit_test, sd, Spec.opposite.
    rewrite !Ho. simpl. case_decide; by destruct (isBuy (side o)). }
  pose proof (wf_ids _ Hwf) as Hids. rewrite (all_resting_repr _ _ _ _ Hb) in Hids.
  assert (Forall (level_wf sd) (alevels_of sd ab)) as HF.
  { unfold sd, alevels_of, Spec.opposite. destruct Hwf as [[_ ?] [_ ?] _ _]. by destruct (isBuy (side o)). }
  destruct (book_repr_focus sd _ _ _ _ Hb)
    as (M & Mo & G & Go & Eb & -> & Eab & EL & EM & Hl & Hlo & Hnd & Hi).
  unfold ptrs in *. rewrite all_entries_mkG in *. rewrite EL in HF.
  rewrite fmap_app in Hnd, Ht. apply NoDup_app in Hnd as (HndG & Hdis & HndGo).
  destruct (match_levels_spec sd (Spec.limit_test o) (security_id_ b) t Mo (length M) G h M o
    (orders_by_id_ b) (next_trade_id_ b) (rpt_seq_ b) [])
    as (h' & M' & ids' & G' & o' & He & Hl' & Hg' & Ho' & Hu & Hf & Hsuf & Htr);
    [done|done|set_solver|done|done|done|done|].
  assert (side (unlink o) = side o) as Es by (by destruct o).
  assert (Spec.limit_test (unlink o) = Spec.limit_test o) as El by (by destruct o).
  pose proof (spec_matchOrder_side (security_id_ b) (forget G) (forget Go) (next_trade_id_ b) (rpt_seq_ b)
    (unlink o)) as Espec. cbn zeta in Espec. rewrite Es, El in Espec. fold sd in Espec.
  rewrite Eab, Espec. rewrite <-Eb in He.
  set (r := Spec.match_levels _ _ _ _ _ _ _) in *. cbn [fst snd].
  eexists h', _, (mkG sd G' Go), o'. cbn [fst snd].
  destruct (Htr (entries Go)) as [Hi' _]; [done|done|].
  split_and!; [|apply book_repr_mkSide; split_and!|done..| | |].
  - unfold match_side. rewrite EM. exact He.
  - done.
  - eapply levels_repr_frame; [|exact Hlo]. intros p Hp. apply Hf, not_elem_of_cons.
    split; [intros ->; apply Ht, elem_of_app; by right|]. intros ?. by eapply Hdis.
  - done.
  - done.
  - rewrite fmap_app. apply NoDup_app. split_and!; [|intros p Hp|done].
    + destruct Hsuf as [k Hk]. rewrite Hk in HndG. by apply NoDup_app in HndG as (_ & _ & ?).
    + apply Hdis. destruct Hsuf as [k ->]. apply elem_of_app. by right.
  - done.
  - intros q [Hq1 Hq2]%not_elem_of_cons. rewrite elem_ptrs_mkG in Hq2.
    apply Hf, not_elem_of_cons. tauto.
  - intros p. rewrite !elem_ptrs_mkG. destruct Hsuf as [k ->]. rewrite elem_of_app. tauto.
  - rewrite elem_ptrs_mkG. split; [|done]. intros Hin. exfalso. apply Ht.
    destruct Hsuf as [k Hk]. rewrite Hk, !elem_of_app. tauto.
Qed.
