(* ===== verification/BookRefineOps.v ===== *)
(** * Inserting, removing and the public operations implement the abstract book

    Continues the refinement of the order book: [insertResting],
    [removeFromBook], the fill-or-kill test, and on top of them and of matching
    the three public operations. *)
From Stdlib Require Import Sorted.
From S2P Require Import Prelude Types OrderedMap Order PriceLevel OrderBook BookSpec BookWf BookRefine.
Import PriceLevelOps OrderBookOps.

(** ** Locating a price level *)
Section locate.
Context (lt : Price → Price → bool) `{!Compare lt}.

Lemma lt_ne a b : lt a b = true → a ≠ b.
Proof. intros H ->. by rewrite cmp_irrefl in H. Qed.

Lemma at_price_skip k L1 L2 :
  Forall (λ e, lt e.1 k = true) L1 → Spec.at_price k (L1 ++ L2) = Spec.at_price k L2.
Proof.
  unfold Spec.at_price. induction 1 as [|[k' ms] L1 Hlt HF IH]; [done|]. simpl.
  rewrite decide_False by (by apply lt_ne).
  destruct (list_find _ (L1 ++ L2)) as [[? [? ?]]|], (list_find _ L2) as [[? [? ?]]|]; simpl in *; done.
Qed.

Lemma at_price_head k ms L : Spec.at_price k ((k, ms) :: L) = ms.
Proof. unfold Spec.at_price. simpl. by rewrite decide_True. Qed.

Lemma at_price_absent k L : Forall (λ e, lt k e.1 = true) L → Spec.at_price k L = [].
Proof.
  intros HF. unfold Spec.at_price. destruct (list_find _ L) as [[i [k' ms]]|] eqn:E; [|done].
  apply list_find_Some in E as (Hl & Hk & _). simpl in Hk. subst k'.
  rewrite Forall_lookup in HF. specialize (HF _ _ Hl). simpl in HF. by rewrite cmp_irrefl in HF.
Qed.

Lemma level_index_at k L1 L2 :
  Forall (λ e, lt e.1 k = true) L1 →
  match L2 with [] => True | e :: _ => lt e.1 k = false end →
  Spec.level_index lt k (L1 ++ L2) = Z.of_nat (length L1) + 1.
Proof.
  intros HF Hh. induction HF as [|[k' ms] L1 Hlt HF IH]; simpl.
  - destruct L2 as [|[k' ms] L2]; [done|]. simpl in *. by rewrite Hh.
  - simpl in Hlt. rewrite Hlt, IH. lia.
Qed.

Lemma insert_level_skip o L1 L2 :
  Forall (λ e, lt e.1 (price o) = true) L1 →
  Spec.insert_level lt o (L1 ++ L2) = L1 ++ Spec.insert_level lt o L2.
Proof. induction 1 as [|[k' ms] L1 Hlt HF IH]; [done|]. simpl in *. by rewrite Hlt, IH. Qed.

Lemma insert_level_hit o ms L : 
  Spec.insert_level lt o ((price o, ms) :: L) = (price o, ms ++ [o]) :: L.
Proof. simpl. by rewrite !cmp_irrefl. Qed.

Lemma insert_level_miss o L :
  Forall (λ e, lt (price o) e.1 = true) L → Spec.insert_level lt o L = (price o, [o]) :: L.
Proof.
  destruct L as [|[k ms] L]; [done|]. intros [Hlt _]%Forall_cons. simpl in *.
  by rewrite Hlt, (cmp_asym lt _ _ Hlt).
Qed.

Lemma remove_level_at k id L1 ms L2 :
  Forall (λ e, lt e.1 k = true) L1 →
  Spec.remove_level k id (L1 ++ (k, ms) :: L2) =
    L1 ++ match Spec.remove_id id ms with [] => L2 | ms' => (k, ms') :: L2 end.
Proof.
  induction 1 as [|[k' ms'] L1 Hlt HF IH]; simpl in *; [by rewrite decide_True|].
  rewrite decide_False by (by apply lt_ne). by rewrite IH.
Qed.
End locate.

(** The position computed by [priceLevelIndex] for a price that is on the side. *)
Lemma index_of_at lt `{!Compare lt} k M1 lv M2 idx :
  i32 idx = idx → Forall (λ e, lt e.1 k = true) M1 →
  index_of k idx (M1 ++ (k, lv) :: M2) = Some (i32 (idx + Z.of_nat (length M1))).
Proof.
  intros Hi HF. revert idx Hi. induction HF as [|[k' lv'] M1 Hlt HF IH]; intros idx Hi; simpl.
  - unfold Price_eq. by rewrite Z.eqb_refl, Z.add_0_r, Hi.
  - simpl in Hlt. destruct (Price_eq k' k) eqn:E.
    { apply Price_eq_true in E as ->. by rewrite cmp_irrefl in Hlt. }
    rewrite IH by (apply wraps_small; [lia|]; apply wraps_range; lia).
    rewrite wraps_add_l by lia. do 2 f_equal. lia.
Qed.

Lemma priceLevelIndex_at sd sid k M1 lv M2 Mo ids tid rpt :
  Forall (λ e, better sd e.1 k = true) M1 →
  priceLevelIndex (mkSide sd sid (M1 ++ (k, lv) :: M2) Mo ids tid rpt) sd k =
    i32 (Z.of_nat (length M1) + 1).
Proof.
  intros HF. unfold priceLevelIndex. rewrite levels_mkSide, (index_of_at (better sd)) by done.
  f_equal. lia.
Qed.

(** Ghost sides follow the structure of the maps they describe. *)
Lemma levels_repr_keys h M G : levels_repr h M G → (forget G).*1 = M.*1.
Proof. induction 1 as [|[k lv] [k' g] M G [Hk _] _ IH]; [done|]. simpl in *. csimpl. by subst; f_equal. Qed.

Lemma levels_repr_length h M G : levels_repr h M G → length (forget G) = length M.
Proof. intros H. unfold forget. rewrite length_fmap. symmetry. by eapply Forall2_length. Qed.

Lemma forget_app G1 G2 : forget (G1 ++ G2) = forget G1 ++ forget G2.
Proof. unfold forget. by rewrite fmap_app. Qed.

Lemma entries_app G1 G2 : entries (G1 ++ G2) = entries G1 ++ entries G2.
Proof. unfold entries. by rewrite fmap_app, concat_app. Qed.

Lemma Forall_keys (P : Price → Prop) h M G :
  levels_repr h M G → Forall (λ e, P e.1) M → Forall (λ e, P e.1) (forget G).
Proof.
  intros Hl. rewrite <-!(Forall_fmap fst P), <-(levels_repr_keys _ _ _ Hl). done.
Qed.

(** ** Inserting a resting order *)

(** [try_emplace] splits the side around the price, whether or not the level
    was there; [g] is empty exactly when it was not. *)
Record emplaced (sd : Side) (h : heap) (k : Price) (G : gside)
    (M1 : list (Price * PriceLevel)) (lv : PriceLevel) (M2 : list (Price * PriceLevel))
    (G1 : gside) (g : ghost) (G2 : gside) (inserted : bool) : Prop := {
  em_left : levels_repr h M1 G1;
  em_right : levels_repr h M2 G2;
  em_level : level_repr h (if inserted then set_level_price k lv else lv) k g;
  em_entries : entries G = entries G1 ++ g ++ entries G2;
  em_better : Forall (λ e, better sd e.1 k = true) M1;
  em_new : inserted = bool_decide (g = []);
  em_insert o : price o = k →
    Spec.insert_level (better sd) o (forget G) = forget G1 ++ (k, g.*2 ++ [o]) :: forget G2;
  em_index : Spec.level_index (better sd) k (forget G) = Z.of_nat (length M1) + 1;
  em_at : Spec.at_price k (forget G) = g.*2
}.

Lemma try_emplace_spec sd h M G k :
  levels_repr h M G → sorted_keys (better sd) M.*1 → Forall (λ e, e.2 ≠ []) (forget G) →
  ∃ M1 lv M2 G1 g G2 inserted,
    try_emplace (better sd) k PriceLevel_init M = (M1 ++ (k, lv) :: M2, length M1, inserted) ∧
    emplaced sd h k G M1 lv M2 G1 g G2 inserted.
Proof.
  intros Hl Hs Hne. unfold try_emplace. destruct (find (better sd) k M) as [it|] eqn:Ef.
  - destruct (find_Some_split _ _ _ _ Ef) as (M1 & lv & M2 & -> & -> & HF).
    apply Forall2_app_inv_l in Hl as (G1 & G2 & Hl1 & Hl2 & ->).
    apply Forall2_cons_inv_l in Hl2 as ([k' g] & G3 & [Hk Hr] & Hl2 & ->). simpl in Hk, Hr. subst k'.
    rewrite forget_app, forget_cons in *.
    apply Forall_app in Hne as [_ [Hne _]%Forall_cons]. simpl in Hne.
    pose proof (Forall_keys (λ k', better sd k' k = true) _ _ _ Hl1 HF) as HFG.
    exists M1, lv, M2, G1, g, G3, false. split; [done|]. split.
    + done.
    + done.
    + done.
    + by rewrite entries_app, entries_cons.
    + done.
    + rewrite bool_decide_false; [done|]. by intros ->.
    + intros o <-. rewrite forget_app, forget_cons, insert_level_skip by done.
      by rewrite insert_level_hit by apply _.
    + rewrite forget_app, forget_cons, (level_index_at _ _ (forget G1)); [|done|apply cmp_irrefl].
      by rewrite (levels_repr_length _ _ _ Hl1).
    + rewrite forget_app, forget_cons, (at_price_skip (better sd)) by done. apply at_price_head.
  - destruct (find_None_split _ _ _ Ef Hs) as (M1 & M2 & -> & Hlb & HF1 & HF2).
    rewrite Hlb, take_app_length, drop_app_length.
    apply Forall2_app_inv_l in Hl as (G1 & G2 & Hl1 & Hl2 & ->).
    pose proof (Forall_keys (λ k', better sd k' k = true) _ _ _ Hl1 HF1) as HFG1.
    pose proof (Forall_keys (λ k', better sd k k' = true) _ _ _ Hl2 HF2) as HFG2.
    exists M1, PriceLevel_init, M2, G1, [], G2, true. split; [done|]. split.
    + done.
    + done.
    + apply level_repr_init.
    + by rewrite entries_app.
    + done.
    + done.
    + intros o <-. rewrite forget_app, insert_level_skip by done.
      by rewrite (insert_level_miss (better sd)).
    + rewrite forget_app, (level_index_at _ _ (forget G1)); [|done|].
      * by rewrite (levels_repr_length _ _ _ Hl1).
      * destruct (forget G2) as [|e L]; [done|]. apply Forall_cons in HFG2 as [? _]. by apply (cmp_asym (better sd)).
    + rewrite forget_app, (at_price_skip (better sd)) by done. by apply (at_price_absent (better sd)).
Qed.

Lemma generate_mkSide sd' sid M Mo ids tid rpt sec sd k q c act idx evs :
  generateBookUpdate (mkSide sd' sid M Mo ids tid rpt) sec sd k q c act idx evs =
    (mkSide sd' sid M Mo ids tid (u32 (rpt + 1)), evs ++ [BookUpdate sec sd k q c act idx rpt]).
Proof. unfold generateBookUpdate, mkSide. by destruct (isBuy sd'). Qed.

Lemma security_mkSide sd sid M Mo ids tid rpt : security_id_ (mkSide sd sid M Mo ids tid rpt) = sid.
Proof. unfold mkSide. by destruct (isBuy sd). Qed.

(** An order and a level are disjoint from the rest of a duplicate-free side. *)
Lemma middle_disjoint' (l1 l l2 : list Ptr) :
  NoDup (l1 ++ l ++ l2) → ∀ q, q ∈ l → (q ∉ l1) ∧ (q ∉ l2).
Proof.
  intros (_ & H1 & (_ & H2 & _)%NoDup_app)%NoDup_app q Hq.
  split; [|by apply H2]. intros Hq1. apply (H1 q Hq1), elem_of_app. by left.
Qed.

Lemma middle_disjoint t (l1 l l2 : list Ptr) :
  t ∉ l1 ++ l ++ l2 → NoDup (l1 ++ l ++ l2) → ∀ q, q ∈ t :: l → (q ∉ l1) ∧ (q ∉ l2).
Proof.
  intros Ht Hnd q [->|Hq]%elem_of_cons; [|by eapply middle_disjoint'].
  rewrite !not_elem_of_app in Ht. tauto.
Qed.

Lemma levels_repr_app_frame h h' M1 M2 G1 G2 (touched : list Ptr) :
  levels_repr h M1 G1 → levels_repr h M2 G2 →
  (∀ q, q ∉ touched → h' !! q = h !! q) →
  (∀ q, q ∈ touched → (q ∉ (entries G1).*1) ∧ (q ∉ (entries G2).*1)) →
  levels_repr h' (M1 ++ M2) (G1 ++ G2).
Proof.
  intros Hl1 Hl2 Hf Hd. apply Forall2_app.
  - eapply levels_repr_frame; [|exact Hl1]. intros p Hp. apply Hf. intros Hin. by apply Hd in Hin as [].
  - eapply levels_repr_frame; [|exact Hl2]. intros p Hp. apply Hf. intros Hin. by apply Hd in Hin as [].
Qed.

(** A level in the middle of a side replaced, the others untouched. *)
Lemma levels_repr_middle h h' M1 k lv' g' M2 G1 G2 (touched : list Ptr) :
  levels_repr h M1 G1 → levels_repr h M2 G2 → level_repr h' lv' k g' →
  (∀ q, q ∉ touched → h' !! q = h !! q) →
  (∀ q, q ∈ touched → (q ∉ (entries G1).*1) ∧ (q ∉ (entries G2).*1)) →
  levels_repr h' (M1 ++ (k, lv') :: M2) (G1 ++ (k, g') :: G2).
Proof.
  intros Hl1 Hl2 Hr Hf Hd.
  pose proof (levels_repr_app_frame _ _ _ _ _ _ _ Hl1 Hl2 Hf Hd) as Hl.
  apply Forall2_app_inv in Hl as [??]; [|by eapply Forall2_length].
  apply Forall2_app; [done|by constructor].
Qed.

Lemma insert_side_spec sd sid M Mo ids tid rpt G h t o evs :
  levels_repr h M G → sorted_keys (better sd) M.*1 → Forall (λ e, e.2 ≠ []) (forget G) →
  h !! t = Some o → t ∉ (entries G).*1 → NoDup (entries G).*1 →
  let L := forget G in
  let L' := Spec.insert_level (better sd) (unlink o) L in
  let ms := Spec.at_price (price o) L' in
  ∃ h' M' G' o', insert_side sd h (mkSide sd sid M Mo ids tid rpt) t evs =
      Some (h', mkSide sd sid M' Mo ids tid (u32 (rpt + 1)),
        evs ++ [BookUpdate sid sd (price o) (i32 (zsum remainingQty ms)) (i32 (Z.of_nat (length ms)))
          (match Spec.at_price (price o) L with [] => MD_New | _ => MD_Change end)
          (i32 (Spec.level_index (better sd) (price o) L)) rpt]) ∧
    levels_repr h' M' G' ∧ forget G' = L' ∧ h' !! t = Some o' ∧ unlink o' = unlink o ∧
    (∀ q, q ∉ t :: (entries G).*1 → h' !! q = h !! q) ∧
    entries G' ≡ₚ (t, unlink o) :: entries G.
Proof.
  intros Hl Hs Hne Ho Ht Hnd. cbv zeta.
  destruct (try_emplace_spec sd h M G (price o) Hl Hs Hne)
    as (M1 & lv & M2 & G1 & g & G2 & ins & Eem & [Hl1 Hl2 Hr Een HF Enew Hins Hidx Hat]).
  rewrite Een in *. rewrite !fmap_app in *.
  destruct (addOrder_repr _ _ _ _ t o Hr Ho) as (h' & lv' & Eadd & Hr' & Hsd & Hf).
  { rewrite !not_elem_of_app in Ht. tauto. }
  destruct (same_data_lookup _ _ _ _ Hsd Ho) as (o' & Ho' & Hu).
  assert (price o' = price o) as Ep by (destruct o, o'; cbn in *; by injection Hu).
  rewrite (Hins (unlink o)) by (by destruct o). rewrite Hat, Hidx.
  exists h', (M1 ++ (price o, lv') :: M2), (G1 ++ (price o, g ++ [(t, unlink o)]) :: G2), o'.
  split_and!; [|eapply levels_repr_middle|..|done|done| |].
  - unfold insert_side. rewrite Ho. simpl. rewrite levels_mkSide, Eem.
    rewrite list_lookup_middle by done. simpl. rewrite Eadd. simpl.
    rewrite set_second_middle, set_levels_mkSide, Ho'. simpl.
    rewrite Ep, priceLevelIndex_at, generate_mkSide, security_mkSide by done.
    destruct Hr' as [_ _ _ Hq Hc]. rewrite fmap_app in Hq.
    rewrite (at_price_skip (better sd)), at_price_head, Hq, Hc
      by exact (Forall_keys (λ k, better sd k (price o) = true) _ _ _ Hl1 HF).
    rewrite !length_app, length_fmap. by destruct g; subst ins.
  - exact Hl1.
  - exact Hl2.
  - exact Hr'.
  - intros q Hq. apply (Hf q); intros ?; apply Hq; [apply elem_of_cons; by right|subst; by left].
  - by apply middle_disjoint.
  - by rewrite forget_app, forget_cons, fmap_app.
  - intros q [Hqt Hq]%not_elem_of_cons. rewrite !not_elem_of_app in Hq. apply Hf; tauto.
  - rewrite entries_app, entries_cons. solve_Permutation.
Qed.

Lemma ids_repr_insert ids t m E :
  ids_repr ids E → (order_id m ∉ (order_id <$> E.*2)) →
  ids_repr (<[order_id m := t]> ids) ((t, m) :: E).
Proof.
  intros Hi Hni id p. destruct (decide (order_id m = id)) as [<-|Hne].
  - rewrite lookup_insert_eq. split.
    + intros [= <-]. exists m. split; [by left|done].
    + intros (n & [[= -> ->]|Hin]%elem_of_cons & Hid); [done|]. exfalso. apply Hni.
      rewrite <-Hid. apply list_elem_of_fmap_2, list_elem_of_fmap. by exists (p, n).
  - rewrite lookup_insert_ne, (Hi id p) by done. split.
    + intros (n & Hin & Hid). exists n. split; [by right|done].
    + intros (n & [[= -> ->]|Hin]%elem_of_cons & Hid); [done|eauto].
Qed.

Definition own_side (o : Order) : Side := if isBuy (side o) then Buy else Sell.

Lemma alevels_mkASide sd sid L Lo tid rpt : alevels_of sd (mkASide sd sid L Lo tid rpt) = L.
Proof. unfold alevels_of, mkASide. by destruct (isBuy sd). Qed.

Lemma set_alevels_mkASide sd sid L L' Lo tid rpt :
  Spec.tick_rpt (set_alevels sd L' (mkASide sd sid L Lo tid rpt)) = mkASide sd sid L' Lo tid (u32 (rpt + 1)).
Proof. unfold set_alevels, mkASide. by destruct (isBuy sd). Qed.

Lemma mkASide_fields sd sid L Lo tid rpt :
  a_security (mkASide sd sid L Lo tid rpt) = sid ∧ a_rpt_seq (mkASide sd sid L Lo tid rpt) = rpt.
Proof. unfold mkASide. by destruct (isBuy sd). Qed.

Lemma side_wf_of ab sd : book_wf ab → sd = Buy ∨ sd = Sell → side_wf sd (alevels_of sd ab).
Proof. intros [? ? _ _] [-> | ->]; done. Qed.

Lemma own_side_cases o : own_side o = Buy ∨ own_side o = Sell.
Proof. unfold own_side. destruct (isBuy (side o)); auto. Qed.

Lemma spec_insertResting_side sid L Lo tid rpt o :
  let sd := own_side o in
  let L' := Spec.insert_level (better sd) o L in
  let ms := Spec.at_price (price o) L' in
  Spec.insertResting (mkASide sd sid L Lo tid rpt) o =
    (mkASide sd sid L' Lo tid (u32 (rpt + 1)),
     BookUpdate sid sd (price o) (i32 (zsum remainingQty ms)) (i32 (Z.of_nat (length ms)))
       (match Spec.at_price (price o) L with [] => MD_New | _ => MD_Change end)
       (i32 (Spec.level_index (better sd) (price o) L)) rpt).
Proof.
  intros sd L' ms. unfold Spec.insertResting. fold (own_side o). fold sd.
  rewrite alevels_mkASide. fold L'. fold ms. rewrite set_alevels_mkASide.
  by destruct (mkASide_fields sd sid L Lo tid rpt) as [-> ->].
Qed.

Lemma set_ids_mkSide sd sid M Mo ids ids' tid rpt :
  set_orders_by_id ids' (mkSide sd sid M Mo ids tid rpt) = mkSide sd sid M Mo ids' tid rpt.
Proof. unfold set_orders_by_id, mkSide. by destruct (isBuy sd). Qed.

Lemma set_ids_focus sd b ids' M Mo :
  b = mkSide sd (security_id_ b) M Mo (orders_by_id_ b) (next_trade_id_ b) (rpt_seq_ b) →
  set_orders_by_id ids' b = mkSide sd (security_id_ b) M Mo ids' (next_trade_id_ b) (rpt_seq_ b).
Proof. intros Eb. rewrite Eb at 1. apply set_ids_mkSide. Qed.

(** The other side of the book is untouched. *)
Lemma other_side_frame h h' t Mo G Go :
  levels_repr h Mo Go → (∀ q, q ∉ t :: (entries G).*1 → h' !! q = h !! q) →
  (t ∉ (entries Go).*1) → (∀ q, q ∈ (entries G).*1 → q ∉ (entries Go).*1) → levels_repr h' Mo Go.
Proof.
  intros Hlo Hf Ht Hdis. eapply levels_repr_frame; [|exact Hlo].
  intros p Hp. apply Hf, not_elem_of_cons. split; [by intros ->|]. intros Hin. by apply (Hdis p).
Qed.

Lemma insertResting_refines h b gb ab t o evs :
  book_repr h b gb ab → book_wf ab → h !! t = Some o → t ∉ ptrs gb →
  (order_id o ∉ (order_id <$> all_resting ab)) →
  op_outcome h t gb
    ((Spec.insertResting ab (unlink o)).1, unlink o, [(Spec.insertResting ab (unlink o)).2])
    evs true (insertResting h b t evs).
Proof.
  intros Hb Hwf Ho Ht Hid. set (sd := own_side o).
  rewrite (all_resting_repr _ _ _ _ Hb) in Hid.
  pose proof (side_wf_of _ _ Hwf (own_side_cases o)) as [Hs HF]. fold sd in Hs, HF.
  destruct (book_repr_focus sd _ _ _ _ Hb)
    as (M & Mo & G & Go & Eb & -> & Eab & EL & EM & Hl & Hlo & Hnd & Hi).
  rewrite EL in Hs, HF. rewrite all_entries_mkG in Hid.
  rewrite elem_ptrs_mkG in Ht. rewrite fmap_app in Hnd. pose proof Hnd as Hnd0.
  apply NoDup_app in Hnd as (HndG & Hdis & HndGo).
  destruct (insert_side_spec sd (security_id_ b) M Mo (<[order_id o := t]> (orders_by_id_ b))
    (next_trade_id_ b) (rpt_seq_ b) G h t o evs)
    as (h' & M' & G' & o' & He & Hl' & Hg & Ho' & Hu & Hf & Hperm).
  { done. } { by rewrite <-(levels_repr_keys _ _ _ Hl). }
  { eapply Forall_impl; [exact HF|]. by intros ? [? _]. }
  { done. } { tauto. } { done. }
  assert (own_side (unlink o) = sd) as Esd by (by destruct o).
  assert (order_id (unlink o) = order_id o) as Eid by (by destruct o).
  assert (price (unlink o) = price o) as Epr by (by destruct o).
  pose proof (spec_insertResting_side (security_id_ b) (forget G) (forget Go) (next_trade_id_ b)
    (rpt_seq_ b) (unlink o)) as Espec. cbv zeta in Espec. rewrite Esd, Epr in Espec.
  rewrite Eab, Espec. cbn [fst snd]. cbv zeta in He.
  exists h', (mkSide sd (security_id_ b) M' Mo (<[order_id o := t]> (orders_by_id_ b)) (next_trade_id_ b)
    (u32 (rpt_seq_ b + 1))), (mkG sd G' Go), o'.
  split_and!; [|apply book_repr_mkSide; split_and!|done|done|..]; try done.
  - etrans; [|exact He]. unfold insertResting. rewrite Ho. simpl.
    rewrite (set_ids_focus sd _ _ M Mo Eb). unfold sd, own_side. by destruct (isBuy (side o)).
  - eapply other_side_frame; [exact Hlo|exact Hf|tauto|done].
  - rewrite Hperm. csimpl. rewrite fmap_app. apply NoDup_cons. rewrite elem_of_app. split; [tauto|done].
  - rewrite Hperm. simpl. rewrite <-Eid. apply ids_repr_insert; [done|by rewrite Eid].
  - intros q [Hq1 Hq2]%not_elem_of_cons. rewrite elem_ptrs_mkG in Hq2.
    apply Hf, not_elem_of_cons. tauto.
  - intros p. rewrite elem_of_cons, !elem_ptrs_mkG, Hperm. csimpl. rewrite elem_of_cons. tauto.
  - rewrite elem_ptrs_mkG, Hperm. csimpl. rewrite elem_of_cons. tauto.
Qed.

(** ** Removing an order *)

Lemma remove_id_at (m : Order) ms1 ms2 :
  NoDup (order_id <$> ms1 ++ m :: ms2) → Spec.remove_id (order_id m) (ms1 ++ m :: ms2) = ms1 ++ ms2.
Proof.
  rewrite fmap_app. csimpl. intros (_ & H1 & [H2 _]%NoDup_cons)%NoDup_app. unfold Spec.remove_id.
  assert (∀ ms : list Order, (∀ x, x ∈ ms → order_id x ≠ order_id m) →
    filter (λ o, order_id o ≠ order_id m) ms = ms) as Hfix.
  { induction ms as [|x ms IH]; intros Hx; [done|].
    rewrite filter_cons_True, IH; [done|..]; intros; apply Hx; set_solver. }
  rewrite filter_app, filter_cons_False by auto. rewrite !Hfix; [done|..].
  - intros x Hx He. apply H2. rewrite <-He. by apply list_elem_of_fmap_2.
  - intros x Hx He. apply (H1 (order_id m)); [rewrite <-He; by apply list_elem_of_fmap_2|by left].
Qed.

(** The level an entry of a side sits in. *)
Lemma entries_split sd G t m :
  (t, m) ∈ entries G → Forall (level_wf sd) (forget G) →
  ∃ G1 g1 g2 G2, G = G1 ++ (price m, g1 ++ (t, m) :: g2) :: G2.
Proof.
  intros Hin HF. unfold entries in Hin. apply list_elem_of_In, in_concat in Hin as (g & Hg & Hin).
  apply list_elem_of_In in Hg. apply list_elem_of_In in Hin.
  apply list_elem_of_fmap in Hg as ([k g'] & -> & HG). simpl in Hin.
  apply list_elem_of_split in HG as (G1 & G2 & ->).
  rewrite forget_app, forget_cons in HF. apply Forall_app in HF as [_ [[_ HFg] _]%Forall_cons].
  simpl in HFg. rewrite Forall_forall in HFg.
  assert (price m = k) as <- by (eapply ok_price, HFg, list_elem_of_fmap; by exists (t, m)).
  apply list_elem_of_split in Hin as (g1 & g2 & ->). by exists G1, g1, g2, G2.
Qed.

(** The levels of a side after one of them is left with [g]: it is erased when
    nothing is left in it. *)
Definition keep_level {A} (k : Price) (v : A) (gone : bool) (l1 l2 : list (Price * A)) : list (Price * A) :=
  l1 ++ if gone then l2 else (k, v) :: l2.

(** What [remove_side] does to a side split around the order's level. *)
Lemma remove_side_steps sd sid M1 lv M2 Mo ids tid rpt h t o evs h' lv' o' g :
  sorted_keys (better sd) (M1 ++ (price o, lv) :: M2).*1 →
  Forall (λ e, better sd e.1 (price o) = true) M1 →
  h !! t = Some o → removeOrder h lv t = Some (h', lv') → h' !! t = Some o' → price o' = price o →
  level_repr h' lv' (price o) g →
  remove_side sd h (mkSide sd sid (M1 ++ (price o, lv) :: M2) Mo ids tid rpt) t evs =
    Some (h', mkSide sd sid (keep_level (price o) lv' (bool_decide (g = [])) M1 M2) Mo ids tid (u32 (rpt + 1)),
      evs ++ [Spec.level_update sid sd (price o) (i32 (Z.of_nat (length M1) + 1)) rpt g.*2]).
Proof.
  intros Hs HF Ho Erem Ho' Ep Hr. unfold remove_side. rewrite Ho. simpl.
  rewrite levels_mkSide, find_middle by (apply _ || done).
  rewrite list_lookup_middle by done. simpl. rewrite Erem. simpl.
  rewrite set_second_middle, set_levels_mkSide, Ho'. simpl.
  rewrite priceLevelIndex_at, Ep by done.
  rewrite (level_update_repr _ _ sid sd _ _ _ rpt Hr), (level_repr_empty _ _ _ _ Hr).
  unfold keep_level. case_bool_decide.
  - rewrite levels_mkSide, erase_middle, set_levels_mkSide, generate_mkSide, security_mkSide. done.
  - rewrite generate_mkSide, security_mkSide. done.
Qed.

Lemma remove_side_spec sd sid M Mo ids tid rpt G h t o evs :
  levels_repr h M G → sorted_keys (better sd) M.*1 → Forall (level_wf sd) (forget G) →
  h !! t = Some o → (t, unlink o) ∈ entries G →
  NoDup (entries G).*1 → NoDup (order_id <$> (entries G).*2) →
  let L := forget G in
  ∃ h' M' G' o', remove_side sd h (mkSide sd sid M Mo ids tid rpt) t evs =
      Some (h', mkSide sd sid M' Mo ids tid (u32 (rpt + 1)),
        evs ++ [Spec.level_update sid sd (price o) (i32 (Spec.level_index (better sd) (price o) L)) rpt
                  (Spec.remove_id (order_id o) (Spec.at_price (price o) L))]) ∧
    levels_repr h' M' G' ∧ forget G' = Spec.remove_level (price o) (order_id o) L ∧
    h' !! t = Some o' ∧ unlink o' = unlink o ∧
    (∀ q, q ∉ t :: (entries G).*1 → h' !! q = h !! q) ∧
    entries G ≡ₚ (t, unlink o) :: entries G'.
Proof.
  intros Hl Hs HFw Ho Hin Hnd Hids. cbv zeta.
  destruct (entries_split sd _ _ _ Hin HFw) as (G1 & g1 & g2 & G2 & ->).
  assert (price (unlink o) = price o) as Ep by (by destruct o). rewrite Ep in *.
  assert (order_id (unlink o) = order_id o) as Eid by (by destruct o).
  apply Forall2_app_inv_r in Hl as (M1 & M2' & Hl1 & Hl2 & ->).
  apply Forall2_cons_inv_r in Hl2 as ([k lv] & M2 & [Hk Hr] & Hl2 & ->). simpl in Hk, Hr. subst k.
  pose proof Hs as Hs'. rewrite fmap_app in Hs'. apply (sorted_keys_app (better sd)) in Hs' as (_ & _ & Hc).
  assert (Forall (λ e, better sd e.1 (price o) = true) M1) as HF1.
  { rewrite Forall_forall. intros e He. apply Hc; [by apply list_elem_of_fmap_2|by left]. }
  pose proof (Forall_keys (λ k, better sd k (price o) = true) _ _ _ Hl1 HF1) as HFG1.
  rewrite entries_app, entries_cons in Hnd. rewrite entries_app, entries_cons in Hids.
  rewrite !(fmap_app fst) in Hnd. rewrite !(fmap_app snd), !(fmap_app order_id) in Hids.
  destruct (removeOrder_repr _ _ _ _ _ _ _ Hr) as (h' & lv' & Erem & Hr' & Hsd & Hf).
  destruct (same_data_lookup _ _ _ _ Hsd Ho) as (o' & Ho' & Hu).
  assert (price o' = price o) as Ep' by (destruct o, o'; cbn in *; by injection Hu).
  set (gone := bool_decide (g1 ++ g2 = [])).
  assert (Spec.remove_id (order_id o) (g1 ++ (t, unlink o) :: g2).*2 = (g1 ++ g2).*2) as Erid.
  { rewrite <-Eid, !fmap_app, fmap_cons. apply remove_id_at.
    apply NoDup_app in Hids as (_ & _ & (Hids & _ & _)%NoDup_app). by rewrite fmap_app. }
  assert (entries (keep_level (price o) (g1 ++ g2) gone G1 G2) = entries G1 ++ (g1 ++ g2) ++ entries G2) as Een.
  { unfold keep_level, gone. case_bool_decide as E; rewrite entries_app; [|done]. by rewrite E. }
  exists h', (keep_level (price o) lv' gone M1 M2), (keep_level (price o) (g1 ++ g2) gone G1 G2), o'.
  rewrite forget_app, forget_cons, (at_price_skip (better sd)), at_price_head, Erid by done.
  rewrite (level_index_at (better sd) _ (forget G1)) by (done || apply cmp_irrefl).
  rewrite (levels_repr_length _ _ _ Hl1).
  split_and!; [by eapply remove_side_steps|..|done|done| |].
  - assert (∀ q, q ∈ (g1 ++ (t, unlink o) :: g2).*1 →
      (q ∉ (entries G1).*1) ∧ (q ∉ (entries G2).*1)) as Hdis.
    { intros q Hq. eapply (middle_disjoint' (entries G1).*1 (g1 ++ (t, unlink o) :: g2).*1); [|done].
      by rewrite fmap_app. }
    unfold keep_level. destruct gone.
    + apply levels_repr_app_frame with (h := h) (touched := (g1 ++ (t, unlink o) :: g2).*1); done.
    + by eapply levels_repr_middle.
  - rewrite (remove_level_at (better sd)), Erid by done. unfold keep_level, gone.
    rewrite forget_app. case_bool_decide as E; [by rewrite E|]. by destruct (g1 ++ g2).
  - intros q [Hqt Hq]%not_elem_of_cons. apply Hf. rewrite entries_app, entries_cons, !fmap_app in Hq.
    rewrite !not_elem_of_app in Hq. rewrite fmap_app, not_elem_of_app. tauto.
  - rewrite Een, entries_app, entries_cons. solve_Permutation.
Qed.

Lemma levels_repr_lookup h M G t m :
  levels_repr h M G → (t, m) ∈ entries G → ∃ o, h !! t = Some o ∧ unlink o = m.
Proof.
  induction 1 as [|[k lv] [k' g] M G [_ Hr] _ IH]; [by rewrite elem_of_nil|].
  rewrite entries_cons. intros [Hin|Hin]%elem_of_app; [by eapply level_repr_lookup|auto].
Qed.

Lemma book_repr_lookup h b gb ab t m :
  book_repr h b gb ab → (t, m) ∈ all_entries gb → ∃ o, h !! t = Some o ∧ unlink o = m.
Proof.
  intros [_ _ _ H1 H2 _ _ _ _] [Hin|Hin]%elem_of_app.
  - exact (levels_repr_lookup _ _ _ _ _ H1 Hin).
  - exact (levels_repr_lookup _ _ _ _ _ H2 Hin).
Qed.

(** An entry of a well-formed book is on its own side. *)
Lemma own_side_entry h b G Go ab t m sd :
  book_repr h b (mkG sd G Go) ab → book_wf ab → sd = own_side m →
  (t, m) ∈ all_entries (mkG sd G Go) → (t, m) ∈ entries G.
Proof.
  intros Hb Hwf Esd. rewrite all_entries_mkG. intros [Hin|Hin]%elem_of_app; [done|exfalso].
  assert (∀ s L, side_wf s (forget L) → (t, m) ∈ entries L → isBuy (side m) = isBuy s) as Hside.
  { intros s L [_ HF] HinL. destruct (entries_split s L t m HinL HF) as (L1 & g1 & g2 & L2 & ->).
    rewrite forget_app, forget_cons in HF. apply Forall_app in HF as [_ [[_ HFg] _]%Forall_cons].
    simpl in HFg. rewrite fmap_app, Forall_app in HFg. destruct HFg as [_ [Hm _]%Forall_cons].
    apply Hm. }
  destruct Hb as [_ _ _ _ _ E1 E2 _ _], Hwf as [Hw1 Hw2 _ _]. rewrite E1 in Hw1. rewrite E2 in Hw2.
  unfold own_side, mkG in *. destruct (isBuy (side m)) eqn:E; subst sd; simpl in *.
  - apply (Hside _ _ Hw2) in Hin. done.
  - apply (Hside _ _ Hw1) in Hin. done.
Qed.

Lemma spec_removeFromBook_side sid L Lo tid rpt o :
  let sd := own_side o in
  Spec.removeFromBook (mkASide sd sid L Lo tid rpt) o =
    (mkASide sd sid (Spec.remove_level (price o) (order_id o) L) Lo tid (u32 (rpt + 1)),
     Spec.level_update sid sd (price o) (i32 (Spec.level_index (better sd) (price o) L)) rpt
       (Spec.remove_id (order_id o) (Spec.at_price (price o) L))).
Proof.
  intros sd. unfold Spec.removeFromBook. fold (own_side o). fold sd.
  rewrite alevels_mkASide, set_alevels_mkASide.
  by destruct (mkASide_fields sd sid L Lo tid rpt) as [-> ->].
Qed.

Lemma removeFromBook_refines h b gb ab t m evs :
  book_repr h b gb ab → book_wf ab → (t, m) ∈ all_entries gb →
  op_outcome h t gb ((Spec.removeFromBook ab m).1, m, [(Spec.removeFromBook ab m).2])
    evs false (removeFromBook h b t evs).
Proof.
  intros Hb Hwf Hin. set (sd := own_side m).
  destruct (book_repr_lookup _ _ _ _ _ _ Hb Hin) as (o & Ho & Hm).
  pose proof (wf_ids _ Hwf) as Hids. rewrite (all_resting_repr _ _ _ _ Hb) in Hids.
  pose proof (side_wf_of _ _ Hwf (own_side_cases m)) as [Hs HF]. fold sd in Hs, HF.
  destruct (book_repr_focus sd _ _ _ _ Hb)
    as (M & Mo & G & Go & Eb & -> & Eab & EL & EM & Hl & Hlo & Hnd & Hi).
  rewrite EL in Hs, HF. rewrite all_entries_mkG in Hids.
  apply (own_side_entry _ _ _ _ _ _ _ _ Hb Hwf eq_refl) in Hin.
  rewrite fmap_app in Hnd. apply NoDup_app in Hnd as (HndG & Hdis & HndGo).
  rewrite (levels_repr_keys _ _ _ Hl) in Hs. rewrite !fmap_app in Hids.
  apply NoDup_app in Hids as Hids'. destruct Hids' as (HidsG & _ & _).
  assert (t ∈ (entries G).*1) as Ht by (apply list_elem_of_fmap; by exists (t, m)).
  destruct (remove_side_spec sd (security_id_ b) M Mo (delete (order_id m) (orders_by_id_ b))
    (next_trade_id_ b) (rpt_seq_ b) G h t o evs)
    as (h' & M' & G' & o' & He & Hl' & Hg & Ho' & Hu & Hf & Hperm); [done..|by rewrite Hm|done|done|].
  assert (own_side o = sd ∧ order_id o = order_id m ∧ price o = price m ∧ isBuy (side o) = isBuy (side m))
    as (Eso & Eio & Epo & Ebo) by (unfold sd; by rewrite <-Hm; destruct o).
  rewrite Hm, Eio, Epo in *.
  pose proof (spec_removeFromBook_side (security_id_ b) (forget G) (forget Go) (next_trade_id_ b)
    (rpt_seq_ b) m) as Espec. cbv zeta in Espec. fold sd in Espec.
  rewrite Eab, Espec. cbn [fst snd].
  exists h', (mkSide sd (security_id_ b) M' Mo (delete (order_id m) (orders_by_id_ b)) (next_trade_id_ b)
    (u32 (rpt_seq_ b + 1))), (mkG sd G' Go), o'.
  assert (t ∉ (entries G').*1) as Hnt.
  { rewrite Hperm in HndG. csimpl in HndG. by apply NoDup_cons in HndG as [? _]. }
  split_and!; [|apply book_repr_mkSide; split_and!|done|done|..]; try done.
  - etrans; [|exact He]. unfold removeFromBook. rewrite Ho. simpl. rewrite Eio.
    rewrite (set_ids_focus sd _ _ M Mo Eb), Ebo. unfold sd, own_side. by destruct (isBuy (side m)).
  - eapply other_side_frame; [exact Hlo|exact Hf|by apply Hdis|done].
  - rewrite fmap_app. apply NoDup_app. split_and!; [|intros p Hp; apply Hdis|done].
    + rewrite Hperm in HndG. csimpl in HndG. by apply NoDup_cons in HndG as [_ ?].
    + rewrite Hperm. csimpl. by right.
  - apply (ids_repr_delete _ t); change ((t, m) :: entries G' ++ entries Go)
      with (((t, m) :: entries G') ++ entries Go); rewrite <-Hperm; [done|].
    by rewrite !fmap_app.
  - intros q [Hq1 Hq2]%not_elem_of_cons. rewrite elem_ptrs_mkG in Hq2.
    apply Hf, not_elem_of_cons. tauto.
  - intros p. rewrite !elem_ptrs_mkG, Hperm. csimpl. rewrite elem_of_cons. tauto.
  - rewrite elem_ptrs_mkG. split; [|done]. intros [?|?]; [done|]. exfalso. by apply (Hdis t).
Qed.
