(* ===== verification/BookInv.v ===== *)
(** * The abstract operations preserve the well-formed book

    Matching, inserting and removing keep the levels sorted and non-empty, the
    order ids unique and the book uncrossed. *)
From Stdlib Require Import Sorted.
From S2P Require Import Prelude Types OrderedMap Order PriceLevel OrderBook BookSpec BookWf BookRefine BookRefineOps.

(** ** One side in focus *)

(** No price of the other side [Lo] is reached by a price of side [sd]. *)
Definition no_cross (sd : Side) (L Lo : alevels) : Prop :=
  ∀ k k', k ∈ L.*1 → k' ∈ Lo.*1 → better sd k' k = true.

Lemma isBuy_own o : isBuy (own_side o) = isBuy (side o).
Proof. unfold own_side. by destruct (isBuy (side o)) eqn:E. Qed.

Lemma book_wf_mkASide sd sid L Lo tid rpt :
  book_wf (mkASide sd sid L Lo tid rpt) ↔
  side_wf sd L ∧ side_wf (Spec.opposite sd) Lo ∧
  NoDup (order_id <$> resting L ++ resting Lo) ∧ no_cross sd L Lo.
Proof.
  assert (∀ s L, side_wf s L ↔ side_wf (if isBuy s then Buy else Sell) L) as Hs.
  { intros s L'.
    assert (better s = better (if isBuy s then Buy else Sell)) as Eb
      by (unfold better; by destruct (isBuy s) eqn:E).
    assert (∀ k o, order_ok s k o ↔ order_ok (if isBuy s then Buy else Sell) k o) as Ho.
    { intros k o. destruct (isBuy s) eqn:E; split; intros []; split; try done; by rewrite ?E in *. }
    split; intros [? H]; (split; [by rewrite ?Eb, <-?Eb in *|]);
      (eapply Forall_impl; [exact H|]); intros e [? HF]; (split; [done|]);
      (eapply Forall_impl; [exact HF|]); intros; by apply Ho. }
  rewrite (Hs sd). unfold mkASide, Spec.opposite, no_cross, better. destruct (isBuy sd).
  - split.
    + intros [? ? ? Hu]. refine (conj _ (conj _ (conj _ _))); [done..|]. unfold Price_gt. intros k k' ? ?.
      specialize (Hu k k'). apply Z.ltb_lt. auto.
    + intros (? & ? & ? & Hu). split; [done..|]. intros k k' ? ?. apply Z.ltb_lt. by apply Hu.
  - unfold all_resting. split.
    + intros [? ? ? Hu]. refine (conj _ (conj _ (conj _ _))); [done|done|by rewrite Permutation_app_comm|].
      unfold Price_lt. intros k k' ? ?. specialize (Hu k' k). apply Z.ltb_lt. auto.
    + intros (? & ? & ? & Hu). split; [done|done|unfold all_resting; by rewrite Permutation_app_comm|].
      intros k k' ? ?. apply Z.ltb_lt. by apply Hu.
Qed.

Lemma abook_focus sd ab :
  ab = mkASide sd (a_security ab) (alevels_of sd ab) (alevels_of (Spec.opposite sd) ab) (a_trade_id ab) (a_rpt_seq ab).
Proof. destruct ab. unfold mkASide, alevels_of, Spec.opposite. by destruct (isBuy sd). Qed.

Lemma resting_cons k ms L : resting ((k, ms) :: L) = ms ++ resting L.
Proof. done. Qed.

Lemma resting_app L1 L2 : resting (L1 ++ L2) = resting L1 ++ resting L2.
Proof. unfold resting. by rewrite fmap_app, concat_app. Qed.

Lemma side_wf_cons sd k ms L :
  side_wf sd ((k, ms) :: L) ↔
  ms ≠ [] ∧ Forall (order_ok sd k) ms ∧ Forall (λ e, better sd k e.1 = true) L ∧ side_wf sd L.
Proof.
  split.
  - intros [Hs [[??] ?]%Forall_cons]. unfold sorted_keys in Hs. csimpl in Hs.
    apply StronglySorted_inv in Hs as [Hs HF]. rewrite Forall_fmap in HF. by split_and!.
  - intros (? & ? & ? & [Hs ?]). split; [|by constructor].
    unfold sorted_keys. csimpl. constructor; [done|]. by rewrite Forall_fmap.
Qed.

(** ** Matching *)

Lemma match_levels_inv sid sd stop tid rpt t L :
  qty_ok t → side_wf sd L →
  let '(_, _, t', L', _) := Spec.match_levels sid sd stop tid rpt t L in
  side_wf sd L' ∧ qty_ok t' ∧ identity t' = identity t ∧
  L'.*1 `suffix_of` L.*1 ∧ (order_id <$> resting L') `suffix_of` (order_id <$> resting L) ∧
  (remainingQty t' ≤ 0 ∨ match L' with [] => True | e :: _ => stop e.1 (price t) = true end) ∧
  (0 ≤ remainingQty t → 0 ≤ remainingQty t') ∧ (live t → live t').
Proof.
  revert tid rpt t. induction L as [|[tp ms] L IH]; intros tid rpt t Ht Hwf.
  { simpl. split_and!; auto. }
  cbn [Spec.match_levels]. destruct ((0 <? remainingQty t) && negb (stop tp (price t))) eqn:Ego.
  2:{ split_and!; auto. apply andb_false_iff in Ego as [?|?%negb_false_iff]; [left; lia|by right]. }
  apply side_wf_cons in Hwf as (Hne & HF & Hlt & Hwf).
  pose proof (match_level_inv sid sd tp tp tid rpt t ms Ht HF) as Hinv.
  destruct (Spec.match_level sid sd tp tid rpt t ms) as [[[[tid1 rpt1] t1] ms1] evs1].
  destruct Hinv as (Hex & Ht1 & Hid1 & HF1 & Hsuf1 & Hnn1 & Hlv1).
  destruct ms1 as [|m1 ms1].
  - specialize (IH tid1 rpt1 t1 Ht1 Hwf).
    destruct (Spec.match_levels sid sd stop tid1 rpt1 t1 L) as [[[[tid2 rpt2] t2] L2] evs2].
    destruct IH as (Hwf2 & Ht2 & Hid2 & Hk2 & Hsuf2 & Hstop & Hnn2 & Hlv2).
    rewrite resting_cons, fmap_app.
    assert (price t1 = price t) as Ep by apply (identity_fields _ _ Hid1). rewrite Ep in Hstop.
    split_and!; [done|done|congruence|by apply suffix_cons_r|by apply suffix_app_r|done|auto|auto].
  - rewrite !resting_cons, !fmap_app. destruct Hex as [?|Hex]; [done|].
    split_and!; [apply side_wf_cons; split_and!; done|done|done|done| |by left|done|done].
    destruct Hsuf1 as [l ->]. rewrite <-(assoc_L (++)). by apply suffix_app_r.
Qed.

Lemma suffix_elem {A} (l l' : list A) x : l `suffix_of` l' → x ∈ l → x ∈ l'.
Proof. intros [k ->] ?. apply elem_of_app. by right. Qed.

Lemma all_resting_mkASide sd sid L Lo tid rpt :
  all_resting (mkASide sd sid L Lo tid rpt) ≡ₚ resting L ++ resting Lo.
Proof.
  unfold all_resting, mkASide. destruct (isBuy sd); simpl; [done|apply Permutation_app_comm].
Qed.

(** Matching keeps the book well formed and the aggressor's identity; when a
    limit order has open quantity left, no price it could still reach is left. *)
Lemma matchOrder_inv ab t :
  book_wf ab → qty_ok t →
  let '(ab', t', _) := Spec.matchOrder ab t in
  book_wf ab' ∧ qty_ok t' ∧ identity t' = identity t ∧
  (∀ i, i ∈ order_id <$> all_resting ab' → i ∈ order_id <$> all_resting ab) ∧
  (order_type t = Limit → 0 < remainingQty t' →
    ∀ k, k ∈ (alevels_of (Spec.opposite (side t)) ab').*1 → better (own_side t) k (price t) = true) ∧
  (0 ≤ remainingQty t → 0 ≤ remainingQty t') ∧ (live t → live t').
Proof.
  intros Hwf Ht. set (sd := Spec.opposite (side t)).
  rewrite (abook_focus sd ab) in Hwf |- *.
  set (sid := a_security ab). set (L := alevels_of sd ab). set (Lo := alevels_of (Spec.opposite sd) ab).
  set (tid := a_trade_id ab). set (rpt := a_rpt_seq ab). fold sid L Lo tid rpt in Hwf.
  pose proof (spec_matchOrder_side sid L Lo tid rpt t) as Espec. cbv zeta in Espec. fold sd in Espec.
  rewrite Espec. clear Espec.
  apply book_wf_mkASide in Hwf as (HwL & HwLo & Hnd & Hnc).
  pose proof (match_levels_inv sid sd (Spec.limit_test t) tid rpt t L Ht HwL) as Hinv.
  destruct (Spec.match_levels sid sd (Spec.limit_test t) tid rpt t L) as [[[[tid2 rpt2] t2] L2] evs2].
  cbn [fst snd]. destruct Hinv as (Hwf2 & Ht2 & Hid2 & Hk2 & Hsuf2 & Hstop & Hnn2).
  rewrite alevels_mkASide. refine (conj _ (conj Ht2 (conj Hid2 (conj _ (conj _ Hnn2))))).
  - apply book_wf_mkASide. refine (conj Hwf2 (conj HwLo (conj _ _))).
    + rewrite fmap_app in Hnd |- *. apply NoDup_app in Hnd as (Hn1 & Hd & Hn2).
      apply NoDup_app. split_and!; [|intros i Hi; eapply Hd, suffix_elem; done|done].
      destruct Hsuf2 as [l El]. rewrite El in Hn1. by apply NoDup_app in Hn1 as (_ & _ & ?).
    + intros k k' Hk Hk'. apply Hnc; [by eapply suffix_elem|done].
  - intros i. rewrite !all_resting_mkASide, !fmap_app, !elem_of_app.
    intros [Hi|?]; [left; by eapply suffix_elem|by right].
  - intros Hty Hrem k Hk. destruct Hstop as [?|Hstop]; [lia|].
    destruct L2 as [|[k1 ms1] L2]; [by apply elem_of_nil in Hk|]. simpl in Hstop.
    apply side_wf_cons in Hwf2 as (_ & _ & Hlt & _).
    assert (better (own_side t) k1 (price t) = true) as Hhead.
    { revert Hstop. unfold Spec.limit_test, better. rewrite Hty, isBuy_own.
      by destruct (isBuy (side t)). }
    csimpl in Hk. apply elem_of_cons in Hk as [->|Hk]; [done|].
    apply list_elem_of_fmap in Hk as (e & -> & He). rewrite Forall_forall in Hlt. specialize (Hlt e He).
    revert Hhead Hlt. unfold better. rewrite isBuy_own. unfold sd, Spec.opposite.
    destruct (isBuy (side t)); simpl; unfold Price_gt, Price_lt; lia.
Qed.

(** ** Inserting *)

Lemma insert_level_inv sd o L :
  side_wf sd L → order_ok sd (price o) o →
  let L' := Spec.insert_level (better sd) o L in
  side_wf sd L' ∧ resting L' ≡ₚ o :: resting L ∧ (∀ k, k ∈ L'.*1 ↔ k = price o ∨ k ∈ L.*1).
Proof.
  intros Hwf Ho. induction L as [|[k ms] L IH]; simpl.
  - split_and!; [|done|intros; set_solver].
    apply side_wf_cons. split_and!; [done|by constructor|constructor|done].
  - apply side_wf_cons in Hwf as (Hne & HF & Hlt & Hwf).
    destruct (better sd k (price o)) eqn:E1; [|destruct (better sd (price o) k) eqn:E2].
    + destruct (IH Hwf) as (Hw & Hp & Hk). split_and!.
      * apply side_wf_cons. refine (conj Hne (conj HF (conj _ Hw))).
        rewrite Forall_forall. intros e He.
        destruct (proj1 (Hk e.1)) as [->|Hin]; [by apply list_elem_of_fmap_2|done|].
        rewrite Forall_forall in Hlt. apply list_elem_of_fmap in Hin as (e' & -> & ?). by apply Hlt.
      * rewrite !resting_cons, Hp. solve_Permutation.
      * intros k'. csimpl. rewrite !elem_of_cons, Hk. tauto.
    + split_and!.
      * apply side_wf_cons. refine (conj _ (conj _ (conj _ _))); [done|by constructor| |].
        -- constructor; [done|]. eapply Forall_impl; [exact Hlt|]. intros e. by apply cmp_trans.
        -- apply side_wf_cons. done.
      * done.
      * intros k'. csimpl. rewrite !elem_of_cons. tauto.
    + assert (k = price o) as -> by (by apply (cmp_total (lt := better sd))).
      split_and!.
      * apply side_wf_cons. refine (conj _ (conj _ (conj Hlt Hwf))); [by destruct ms|].
        apply Forall_app. split; [done|by constructor].
      * rewrite !resting_cons. solve_Permutation.
      * intros k'. csimpl. rewrite !elem_of_cons. tauto.
Qed.

Lemma insertResting_inv ab o :
  book_wf ab → order_ok (own_side o) (price o) o → (order_id o ∉ order_id <$> all_resting ab) →
  (∀ k, k ∈ (alevels_of (Spec.opposite (own_side o)) ab).*1 → better (own_side o) k (price o) = true) →
  let ab' := (Spec.insertResting ab o).1 in
  book_wf ab' ∧ all_resting ab' ≡ₚ o :: all_resting ab.
Proof.
  intros Hwf Ho Hid Hnc. set (sd := own_side o) in *.
  rewrite (abook_focus sd ab) in Hwf, Hid |- *.
  rewrite (spec_insertResting_side _ _ _ _ _ o). cbv zeta. cbn [fst snd]. fold sd.
  apply book_wf_mkASide in Hwf as (HwL & HwLo & Hnd & Hc).
  destruct (insert_level_inv sd o _ HwL Ho) as (HwL' & Hperm & Hk).
  rewrite !all_resting_mkASide in *. split; [|by rewrite Hperm].
  apply book_wf_mkASide. refine (conj HwL' (conj HwLo (conj _ _))).
  - rewrite Hperm. csimpl. by apply NoDup_cons.
  - intros k k' [->|?]%Hk Hk'; [by apply Hnc|by apply Hc].
Qed.

(** ** Removing *)

Lemma remove_level_inv sd m L :
  side_wf sd L → NoDup (order_id <$> resting L) → m ∈ resting L →
  let L' := Spec.remove_level (price m) (order_id m) L in
  side_wf sd L' ∧ resting L ≡ₚ m :: resting L' ∧ L'.*1 `sublist_of` L.*1.
Proof.
  intros Hwf Hnd Hin. induction L as [|[k ms] L IH]; [by apply elem_of_nil in Hin|].
  apply side_wf_cons in Hwf as (Hne & HF & Hlt & Hwf). rewrite resting_cons in *. simpl.
  apply elem_of_app in Hin as [Hin|Hin].
  - assert (k = price m) as -> by (rewrite Forall_forall in HF; symmetry; by eapply ok_price, HF).
    rewrite decide_True by done. apply list_elem_of_split in Hin as (ms1 & ms2 & ->).
    rewrite fmap_app in Hnd. apply NoDup_app in Hnd as (Hnd & _ & _).
    rewrite remove_id_at by done. apply Forall_app in HF as [HF1 [_ HF2]%Forall_cons].
    destruct (ms1 ++ ms2) as [|x ms'] eqn:E.
    + apply app_nil in E as [-> ->]. split_and!; [done|by simpl|by constructor].
    + rewrite resting_cons, <-E. split_and!.
      * apply side_wf_cons. split_and!; try done; [by rewrite E|by apply Forall_app].
      * solve_Permutation.
      * csimpl. done.
  - rewrite fmap_app in Hnd. apply NoDup_app in Hnd as (_ & _ & Hnd).
    destruct (IH Hwf Hnd Hin) as (Hw & Hp & Hs).
    assert (k ≠ price m) as Hk.
    { intros ->. assert (price m ∈ L.*1) as Hin'.
      - clear -Hin Hwf. destruct Hwf as [_ HF]. unfold resting in Hin.
        induction L as [|[k ms'] L IHL]; csimpl in *; [by apply elem_of_nil in Hin|].
        apply Forall_cons in HF as [[_ HFk] HF]. apply elem_of_app in Hin as [Hin|Hin]; [|right; auto].
        simpl in HFk. rewrite Forall_forall in HFk. rewrite (ok_price _ _ _ (HFk _ Hin)). by left.
      - apply list_elem_of_fmap in Hin' as (e & He & Hin'). rewrite Forall_forall in Hlt.
        specialize (Hlt e Hin'). rewrite He, cmp_irrefl in Hlt. done. }
    rewrite decide_False by done. split_and!.
    + apply side_wf_cons. refine (conj Hne (conj HF (conj _ Hw))).
      rewrite <-(Forall_fmap fst (λ k', better sd k k' = true)) in Hlt.
      rewrite <-(Forall_fmap fst (λ k', better sd k k' = true)).
      rewrite Forall_forall in Hlt. rewrite Forall_forall. intros x Hx. by eapply Hlt, elem_of_sublist.
    + rewrite resting_cons. rewrite Hp. solve_Permutation.
    + csimpl. by constructor.
Qed.

(** A resting order is on its own side. *)
Lemma resting_own_side sd L m : side_wf sd L → m ∈ resting L → isBuy (side m) = isBuy sd ∧ price m ∈ L.*1.
Proof.
  intros [_ HF] Hin. unfold resting in Hin.
  induction HF as [|[k ms] L [_ HFk] HF IH]; csimpl in *; [by apply elem_of_nil in Hin|].
  rewrite elem_of_cons. apply elem_of_app in Hin as [Hin|Hin]; [|naive_solver].
  rewrite Forall_forall in HFk. destruct (HFk m Hin). auto.
Qed.

Lemma removeFromBook_inv ab m :
  book_wf ab → m ∈ all_resting ab →
  let ab' := (Spec.removeFromBook ab m).1 in
  book_wf ab' ∧ all_resting ab ≡ₚ m :: all_resting ab'.
Proof.
  intros Hwf Hin. set (sd := own_side m).
  rewrite (abook_focus sd ab) in Hwf, Hin |- *.
  rewrite (spec_removeFromBook_side _ _ _ _ _ m). cbv zeta. cbn [fst snd]. fold sd.
  apply book_wf_mkASide in Hwf as (HwL & HwLo & Hnd & Hc).
  set (L := alevels_of sd ab) in *. set (Lo := alevels_of (Spec.opposite sd) ab) in *.
  rewrite !all_resting_mkASide in *.
  apply elem_of_app in Hin as [Hin|Hin].
  2:{ apply (resting_own_side _ _ _ HwLo) in Hin as [E _]. revert E.
      unfold sd, own_side, Spec.opposite. by destruct (isBuy (side m)). }
  rewrite fmap_app in Hnd. apply NoDup_app in Hnd as Hnd'. destruct Hnd' as (HndL & _ & _).
  destruct (remove_level_inv sd m L HwL HndL Hin) as (HwL' & Hperm & Hsub).
  split; [|by rewrite Hperm].
  apply book_wf_mkASide. refine (conj HwL' (conj HwLo (conj _ _))).
  - rewrite Hperm, <-fmap_app in Hnd. csimpl in Hnd. by apply NoDup_cons in Hnd as [_ ?].
  - intros k k' Hk Hk'. apply Hc; [by eapply elem_of_sublist|done].
Qed.
