(* ===== verification/BookCorrect.v ===== *)
(** * The public operations of the order book

    [addOrder], [cancelOrder] and [modifyOrder] run from a represented,
    well-formed book return, with the events of the abstract operation, in a
    book that represents the abstract result and is well formed again. *)
From S2P Require Import Prelude Types OrderedMap Order PriceLevel OrderBook BookSpec BookWf BookRefine BookRefineOps BookInv.
Import OrderBookOps.

(** ** Composing outcomes *)

Lemma book_repr_frame h h' b gb ab :
  (∀ q, q ∈ ptrs gb → h' !! q = h !! q) → book_repr h b gb ab → book_repr h' b gb ab.
Proof.
  intros Hf Hb. assert (∀ q, q ∈ (entries gb.1).*1 ∨ q ∈ (entries gb.2).*1 → h' !! q = h !! q) as Hf'.
  { intros q Hq. apply Hf. unfold ptrs, all_entries. rewrite fmap_app, elem_of_app. done. }
  destruct Hb. split; try done; (eapply levels_repr_frame; [|done]); auto.
Qed.

(** Assigning fields of the order itself does not show in the frame. *)
Lemma op_outcome_heap h h' t gb r evs on st :
  (∀ q, q ≠ t → h' !! q = h !! q) → op_outcome h' t gb r evs on st → op_outcome h t gb r evs on st.
Proof.
  intros Hh (h2 & b2 & gb2 & o2 & E & Hb2 & Ho2 & Hu2 & Hfr2 & Hsub2 & Hon2).
  exists h2, b2, gb2, o2. split_and!; try done; [|apply Hon2..].
  intros q Hq. rewrite Hfr2 by done. apply Hh. intros ->. apply Hq. by left.
Qed.

(** Running a second operation on the same order after a first one that left it
    off the book. *)
Lemma op_outcome_bind h t gb ab m evs0 evs r evs1 on st k :
  op_outcome h t gb (ab, m, evs) evs0 false st →
  (∀ h' b' gb' o', st = Some (h', b', evs0 ++ evs) → book_repr h' b' gb' ab → h' !! t = Some o' → unlink o' = m →
     t ∉ ptrs gb' → op_outcome h' t gb' r evs1 on (k (h', b', evs0 ++ evs))) →
  op_outcome h t gb r evs1 on (st ≫= k).
Proof.
  intros (h1 & b1 & gb1 & o1 & -> & Hb & Ho & Hu & Hfr & Hsub & Hon) Hk. cbn [fst snd] in *.
  destruct (Hk h1 b1 gb1 o1) as (h2 & b2 & gb2 & o2 & E & Hb2 & Ho2 & Hu2 & Hfr2 & Hsub2 & Hon2);
    [done..|by intros [=]%Hon|].
  exists h2, b2, gb2, o2. split_and!; try done.
  - intros q [Hq1 Hq2]%not_elem_of_cons. rewrite Hfr2, Hfr by (apply not_elem_of_cons; split; auto). done.
  - intros q Hq. apply Hsub2 in Hq. destruct on; [|auto].
    apply elem_of_cons in Hq as [->|Hq]; [by left|right; auto].
Qed.

(** ** Fill-or-kill *)

Lemma fok_loop_refines h M G stop needed :
  levels_repr h M G → fok_loop stop needed M = Spec.covers needed (Spec.reachable stop (forget G)).
Proof.
  intros Hl. revert needed. induction Hl as [|[k lv] [k' g] M G [Hk Hr] Hl IH]; intros needed; [done|].
  rewrite forget_cons. simpl in *. subst k'. destruct (stop k); [done|]. simpl.
  destruct Hr as [_ _ _ Hq _]. rewrite Hq, IH. by destruct (_ <=? 0).
Qed.

Lemma canFillFOK_refines h b gb ab t o :
  book_repr h b gb ab → h !! t = Some o → canFillFOK h b t = Some (Spec.can_fill ab (unlink o)).
Proof.
  intros [_ _ _ H1 H2 E1 E2 _ _] Ho. unfold canFillFOK, Spec.can_fill, Spec.opposite, alevels_of. rewrite Ho. simpl.
  assert (side (unlink o) = side o ∧ quantity (unlink o) = quantity o ∧ price (unlink o) = price o ∧
    order_type (unlink o) = order_type o) as (-> & -> & -> & ->) by (by destruct o).
  destruct (isBuy (side o)); simpl; by erewrite fok_loop_refines, ?E1, ?E2.
Qed.

(** ** addOrder *)

Lemma unlink_eq_fields o o' : unlink o = unlink o' →
  isFullyFilled o = isFullyFilled o' ∧ time_in_force o = time_in_force o' ∧ order_type o = order_type o' ∧
  order_id o = order_id o' ∧ OrderCancelled_of o = OrderCancelled_of o'.
Proof. destruct o, o'. cbn. intros [=]. by subst. Qed.

Lemma insert_after_match ab t ab' t' evs :
  book_wf ab → qty_ok t → live t → order_type t = Limit → isFullyFilled t' = false →
  (order_id t ∉ order_id <$> all_resting ab) → Spec.matchOrder ab t = (ab', t', evs) →
  book_wf ab' ∧ (order_id t' ∉ order_id <$> all_resting ab') ∧
  book_wf (Spec.insertResting ab' t').1 ∧
  all_resting (Spec.insertResting ab' t').1 ≡ₚ t' :: all_resting ab'.
Proof.
  intros Hwf Ht Hlive Hty Hfull Hid E. pose proof (matchOrder_inv ab t Hwf Ht) as Hinv. rewrite E in Hinv.
  destruct Hinv as (Hwf' & Ht' & Hident & Hsub & Hnc & Hnn & Hlv).
  destruct (identity_fields _ _ Hident) as (Eid & Es & Ep & Ety & Eq & _).
  assert (own_side t' = own_side t) as Eo by (unfold own_side; by rewrite Es).
  assert (0 < remainingQty t') as Hpos.
  { rewrite (rem_qty _ Ht'). unfold isFullyFilled in Hfull. lia. }
  assert (order_id t' ∉ order_id <$> all_resting ab') as Hid' by (rewrite Eid; auto).
  destruct (insertResting_inv ab' t') as [??]; [done| |done| |by split_and!].
  - split; [done|by rewrite isBuy_own|congruence|done| |by apply Hlv].
    unfold isFullyFilled in Hfull. lia.
  - intros k Hk. rewrite Eo, Ep in *. apply Hnc; [done|done|].
    unfold Spec.opposite, own_side in *. by destruct (isBuy (side t)).
Qed.

Lemma op_outcome_shift h t gb ab m evs evs0 on st :
  op_outcome h t gb (ab, m, evs) evs0 on st → op_outcome h t gb (ab, m, evs0 ++ evs) [] on st.
Proof. done. Qed.

(** An operation that returns at once. *)
Lemma op_outcome_ret h b gb ab t o evs :
  book_repr h b gb ab → h !! t = Some o → t ∉ ptrs gb →
  op_outcome h t gb (ab, unlink o, evs) [] false (Some (h, b, evs)).
Proof. intros. exists h, b, gb, o. by split_and!. Qed.

Lemma cancel_refines h b gb ab t o evs :
  book_repr h b gb ab → h !! t = Some o → t ∉ ptrs gb →
  let o' := set_status Canceled (unlink o) in
  op_outcome h t gb (ab, o', evs ++ [OrderCancelled_of o']) [] false
    (h ← assign h t (set_status Canceled); o ← h !! t; Some (h, b, evs ++ [OrderCancelled_of o])).
Proof.
  intros Hb Ho Ht o'. rewrite (assign_Some _ _ _ _ Ho). simpl. rewrite lookup_insert_eq. simpl.
  assert (OrderCancelled_of (set_status Canceled o) = OrderCancelled_of o') as -> by (by destruct o).
  exists (<[t := set_status Canceled o]> h), b, gb, (set_status Canceled o). split_and!; try done.
  - eapply book_repr_frame; [|exact Hb]. intros q Hq. apply lookup_insert_ne. by intros ->.
  - apply lookup_insert_eq.
  - by destruct o.
  - intros q Hq. apply lookup_insert_ne. intros ->. apply Hq. by left.
Qed.

Lemma post_match_refines h b gb ab t o evs :
  book_repr h b gb ab → book_wf ab → h !! t = Some o → t ∉ ptrs gb →
  (order_id o ∉ order_id <$> all_resting ab) →
  op_outcome h t gb (Spec.post_match ab (unlink o) evs) [] (Spec.rests (unlink o)) (post_match h b t evs).
Proof.
  intros Hb Hwf Ho Ht Hid. unfold post_match, Spec.post_match, Spec.rests. rewrite Ho. cbn [mbind option_bind].
  rewrite filled_unlink. assert (time_in_force (unlink o) = time_in_force o ∧
    order_type (unlink o) = order_type o) as [-> ->] by (by destruct o).
  pose proof (cancel_refines _ _ _ _ _ _ evs Hb Ho Ht) as Hcancel. cbv zeta in Hcancel.
  pose proof (op_outcome_ret _ _ _ _ _ _ evs Hb Ho Ht) as Hret.
  destruct (isFullyFilled o); cbn [negb andb]; [done|].
  case_bool_decide as Etif; [by rewrite decide_True|]. rewrite decide_False by done. cbn [negb andb].
  destruct (order_type o) eqn:Ety;
    [by rewrite decide_False, decide_True| |by rewrite !decide_False..].
  rewrite decide_True by done.
  pose proof (insertResting_refines _ _ _ _ _ _ evs Hb Hwf Ho Ht Hid) as Hins.
  destruct (Spec.insertResting ab (unlink o)) as [ab' ev]. by apply op_outcome_shift.
Qed.

Theorem addOrder_refines h b gb ab t o :
  book_repr h b gb ab → book_wf ab → h !! t = Some o → t ∉ ptrs gb → qty_ok o → live o →
  (order_id o ∉ order_id <$> all_resting ab) →
  ∃ rests, op_outcome h t gb (Spec.addOrder ab (unlink o)) [] rests (addOrder h b t) ∧
    book_wf (Spec.addOrder ab (unlink o)).1.1.
Proof.
  intros Hb Hwf Ho Ht Hok Hlive Hid. unfold addOrder, Spec.addOrder. rewrite Ho. cbn [mbind option_bind].
  assert (qty_ok (unlink o) ∧ live (unlink o) ∧ order_id (unlink o) = order_id o ∧
    time_in_force (unlink o) = time_in_force o ∧ order_type (unlink o) = order_type o) as (Hok' & Hlive' & Eid & Etif & Ety)
    by (by destruct o).
  assert (order_id (unlink o) ∉ order_id <$> all_resting ab) as Hid' by (by rewrite Eid).
  rewrite Etif.
  rewrite (canFillFOK_refines _ _ _ _ _ _ Hb Ho).
  assert ((if decide (time_in_force o = FOK) then Some (Spec.can_fill ab (unlink o)) else Some true) =
    Some (negb (bool_decide (time_in_force o = FOK) && negb (Spec.can_fill ab (unlink o))))) as ->.
  { case_decide; [rewrite bool_decide_true by done; by destruct (Spec.can_fill _ _)|by rewrite bool_decide_false]. }
  cbn [mbind option_bind]. rewrite negb_involutive.
  destruct (bool_decide (time_in_force o = FOK) && negb (Spec.can_fill ab (unlink o))).
  { exists false. split; [|done]. exists h, b, gb, o. split_and!; try done. by destruct o. }
  pose proof (matchOrder_refines _ _ _ _ _ _ Hb Hwf Ho Ht Hok) as Hm.
  pose proof (matchOrder_inv ab (unlink o) Hwf Hok') as Hinv.
  destruct (Spec.matchOrder ab (unlink o)) as [[ab1 t1] evs1] eqn:Em.
  destruct Hinv as (Hwf1 & Ht1 & Hident & Hsub & _).
  destruct (identity_fields _ _ Hident) as (Eid1 & _ & _ & Ety1 & _ & Etif1 & _).
  assert (order_id t1 ∉ order_id <$> all_resting ab1) as Hid1 by (rewrite Eid1, Eid; auto).
  assert (book_wf (Spec.post_match ab1 t1 (Spec.accepted (unlink o) :: evs1)).1.1) as Hwf2.
  { unfold Spec.post_match. destruct (isFullyFilled t1) eqn:Ef; [done|]. case_bool_decide; [done|].
    rewrite Ety1. destruct (order_type (unlink o)) eqn:Et; try done.
    destruct (insert_after_match _ _ _ _ _ Hwf Hok' Hlive' Et Ef Hid' Em) as (_ & _ & Hw & _).
    by destruct (Spec.insertResting ab1 t1). }
  exists (Spec.rests t1). split; [|done].
  eapply op_outcome_bind; [exact Hm|]. intros h1 b1 gb1 o1 _ Hb1 Ho1 <- Ht1'.
  assert (order_id (unlink o1) = order_id o1) as Eo1 by (by destruct o1).
  pose proof (post_match_refines h1 b1 gb1 ab1 t o1 (Spec.accepted (unlink o) :: evs1) Hb1 Hwf1 Ho1 Ht1') as Hpm.
  rewrite Eo1 in Hid1. specialize (Hpm Hid1). by destruct o.
Qed.

(** ** cancelOrder and modifyOrder *)

(** The id index finds exactly the resting orders. *)
Lemma ids_lookup h b gb ab oid :
  book_repr h b gb ab →
  match orders_by_id_ b !! oid with
  | Some t => ∃ m, (t, m) ∈ all_entries gb ∧ m ∈ all_resting ab ∧ order_id m = oid
  | None => oid ∉ order_id <$> all_resting ab
  end.
Proof.
  intros Hb. rewrite (all_resting_repr _ _ _ _ Hb). pose proof (br_ids _ _ _ _ Hb oid) as Hi.
  destruct (orders_by_id_ b !! oid) as [t|].
  - destruct (proj1 (Hi t) eq_refl) as (m & Hin & Hid). exists m. split_and!; [done| |done].
    apply list_elem_of_fmap. by exists (t, m).
  - intros (m & -> & Hin)%list_elem_of_fmap. apply list_elem_of_fmap in Hin as ([q m'] & -> & Hin).
    assert (None = Some q) by (apply (Hi q); by exists m'). done.
Qed.

Theorem cancelOrder_refines h b gb ab oid :
  book_repr h b gb ab → book_wf ab →
  match orders_by_id_ b !! oid with
  | None => (oid ∉ order_id <$> all_resting ab) ∧
      cancelOrder h b oid = Some (h, b, [OrderCancelRejected oid [] 0 0 "Order not found"])
  | Some t => ∃ m, (t, m) ∈ all_entries gb ∧ m ∈ all_resting ab ∧ order_id m = oid ∧
      op_outcome h t gb (Spec.cancelOrder ab m) [] false (cancelOrder h b oid) ∧
      book_wf (Spec.cancelOrder ab m).1.1
  end.
Proof.
  intros Hb Hwf. pose proof (ids_lookup _ _ _ _ oid Hb) as Hl. unfold cancelOrder.
  destruct (orders_by_id_ b !! oid) as [t|]; [|done].
  destruct Hl as (m & Hin & Hr & Hid). exists m. split_and!; [done..| |].
  - pose proof (removeFromBook_refines _ _ _ _ _ _ [] Hb Hwf Hin) as Hrm.
    unfold Spec.cancelOrder. destruct (Spec.removeFromBook ab m) as [ab1 ev].
    eapply op_outcome_bind; [exact Hrm|]. intros h1 b1 gb1 o1 _ Hb1 Ho1 <- Ht1.
    by apply cancel_refines.
  - unfold Spec.cancelOrder. destruct (removeFromBook_inv ab m Hwf Hr) as [? _].
    by destruct (Spec.removeFromBook ab m).
Qed.

Lemma replace_unlink p q c o : Spec.replace p q c (unlink o) = unlink (Spec.replace p q c o).
Proof. by destruct o, c. Qed.

(** The field assignments of [modifyOrder]. *)
Lemma modify_assigns {A} h t o p q c (k : heap → option A) :
  h !! t = Some o →
  (h ← assign h t (set_price p); h ← assign h t (set_quantity q);
   h ← (if bool_decide (c = []) then Some h else assign h t (set_cl_ord_id c));
   h ← assign h t (set_status Replaced); k h) = k (<[t := Spec.replace p q c o]> h).
Proof.
  intros Ho. rewrite (assign_Some _ _ _ _ Ho). simpl.
  erewrite assign_Some by apply lookup_insert_eq. simpl. rewrite insert_insert_eq.
  destruct c as [|x c]; simpl; (erewrite assign_Some by apply lookup_insert_eq); simpl; rewrite insert_insert_eq.
  - by destruct o.
  - erewrite assign_Some by apply lookup_insert_eq. simpl. rewrite insert_insert_eq. by destruct o.
Qed.

Lemma replace_ok sd k p q c m :
  order_ok sd k m → 0 ≤ q < 2 ^ 31 →
  let o := Spec.replace p q c m in
  qty_ok o ∧ live o ∧ order_type o = Limit ∧ order_id o = order_id m ∧ isBuy (side o) = isBuy (side m) ∧
  price o = p.
Proof.
  intros [_ _ Hty [Hf _] _ _] Hq. unfold qty_ok, live, live_status.
  destruct m, c; cbn in *; split_and!; auto; lia.
Qed.

Lemma all_resting_ok ab m : book_wf ab → m ∈ all_resting ab → order_ok (own_side m) (price m) m.
Proof.
  intros [Hw1 Hw2 _ _] Hin.
  assert (∀ sd L, sd = Buy ∨ sd = Sell → side_wf sd L → m ∈ resting L → order_ok (own_side m) (price m) m) as H.
  { intros sd L Hsd [_ HF] HinL. unfold resting in HinL.
    induction HF as [|[k ms] L [_ HFk] HF IH]; csimpl in *; [by apply elem_of_nil in HinL|].
    apply elem_of_app in HinL as [Hm|Hm]; [|auto]. rewrite Forall_forall in HFk.
    destruct (HFk m Hm) as [_ Hs ????]. split; try done; by rewrite isBuy_own. }
  apply elem_of_app in Hin as [Hin|Hin]; [apply (H Buy _ (or_introl eq_refl) Hw1 Hin)|apply (H Sell _ (or_intror eq_refl) Hw2 Hin)].
Qed.

(** The end of [modifyOrder]: match again, and rest what is left. *)
Lemma rematch_refines h b gb ab t o evs0 ab2 m2 evs2 :
  book_repr h b gb ab → book_wf ab → h !! t = Some o → t ∉ ptrs gb →
  qty_ok (unlink o) → order_type (unlink o) = Limit →
  (order_id (unlink o) ∉ order_id <$> all_resting ab) →
  Spec.matchOrder ab (unlink o) = (ab2, m2, evs2) →
  op_outcome h t gb
    (if isFullyFilled m2 then (ab2, m2, evs0 ++ evs2)
     else let '(ab3, ev3) := Spec.insertResting ab2 m2 in (ab3, m2, (evs0 ++ evs2) ++ [ev3]))
    [] (negb (isFullyFilled m2))
    ('(h, b, match_events) ← matchOrder h b t;
     let events := evs0 ++ match_events in
     o ← h !! t;
     if negb (isFullyFilled o) && bool_decide (order_type o = Limit)
     then insertResting h b t events else Some (h, b, events)).
Proof.
  intros Hb Hwf Ho Ht Hok Hty Hid Em.
  pose proof (matchOrder_inv ab (unlink o) Hwf Hok) as Hinv.
  assert (qty_ok o) as Hok' by (by destruct o).
  pose proof (matchOrder_refines _ _ _ _ _ _ Hb Hwf Ho Ht Hok') as Hm. rewrite Em in Hm, Hinv.
  destruct Hinv as (Hwf2 & Hok2 & Hident & Hsub & _).
  destruct (identity_fields _ _ Hident) as (Eid2 & _ & _ & Ety2 & _).
  eapply op_outcome_bind; [exact Hm|]. intros h1 b1 gb1 o1 _ Hb1 Ho1 Hu1 Ht1. cbn zeta.
  rewrite Ho1. cbn [mbind option_bind app].
  assert (isFullyFilled o1 = isFullyFilled m2 ∧ order_type o1 = Limit ∧ order_id o1 = order_id m2)
    as (-> & -> & Eid1) by (rewrite <-Hty, <-Ety2, <-Hu1; by destruct o1).
  rewrite bool_decide_true, andb_true_r by done. subst m2. destruct (isFullyFilled (unlink o1)); cbn [negb].
  - by apply op_outcome_ret.
  - assert (order_id o1 ∉ order_id <$> all_resting ab2) as Hid1
      by (rewrite Eid1, Eid2; intros ?; by apply Hid, Hsub).
    pose proof (insertResting_refines _ _ _ _ _ _ (evs0 ++ evs2) Hb1 Hwf2 Ho1 Ht1 Hid1) as Hins.
    destruct (Spec.insertResting ab2 (unlink o1)) as [ab3 ev3]. by apply op_outcome_shift.
Qed.

Theorem modifyOrder_refines h b gb ab oid p q c :
  book_repr h b gb ab → book_wf ab → 0 ≤ q < 2 ^ 31 →
  match orders_by_id_ b !! oid with
  | None => (oid ∉ order_id <$> all_resting ab) ∧
      modifyOrder h b oid p q c = Some (h, b, [OrderCancelRejected oid c 0 0 "Order not found"])
  | Some t => ∃ m, (t, m) ∈ all_entries gb ∧ m ∈ all_resting ab ∧ order_id m = oid ∧
      (∃ rests, op_outcome h t gb (Spec.modifyOrder ab m p q c) [] rests (modifyOrder h b oid p q c)) ∧
      book_wf (Spec.modifyOrder ab m p q c).1.1
  end.
Proof.
  intros Hb Hwf Hq. pose proof (ids_lookup _ _ _ _ oid Hb) as Hl. unfold modifyOrder.
  destruct (orders_by_id_ b !! oid) as [t|]; [|done].
  destruct Hl as (m & Hin & Hr & Hid). exists m. refine (conj Hin (conj Hr (conj Hid _))).
  pose proof (removeFromBook_refines _ _ _ _ _ _ [] Hb Hwf Hin) as Hrm.
  destruct (removeFromBook_inv ab m Hwf Hr) as [Hwf1 Hperm].
  destruct (replace_ok _ _ p q c m (all_resting_ok _ _ Hwf Hr) Hq) as (Hok & Hlive & Hty & Eid & Es & Ep).
  set (m1 := Spec.replace p q c m) in *.
  unfold Spec.modifyOrder. destruct (Spec.removeFromBook ab m) as [ab1 ev]. cbn [fst snd] in *. fold m1.
  assert (order_id m1 ∉ order_id <$> all_resting ab1) as Hid1.
  { rewrite Eid. pose proof (wf_ids _ Hwf) as Hnd. rewrite Hperm in Hnd. csimpl in Hnd.
    by apply NoDup_cons in Hnd as [? _]. }
  pose proof (matchOrder_inv ab1 m1 Hwf1 Hok) as Hinv.
  destruct (Spec.matchOrder ab1 m1) as [[ab2 m2] evs2] eqn:Em.
  destruct Hinv as (Hwf2 & Hok2 & Hident & Hsub & _).
  destruct (identity_fields _ _ Hident) as (Eid2 & _ & _ & Ety2 & _).
  split.
  - exists (negb (isFullyFilled m2)).
    eapply op_outcome_bind; [exact Hrm|]. intros h1 b1 gb1 o1 _ Hb1 Ho1 Hu1 Ht1.
    rewrite (modify_assigns _ _ _ _ _ _ _ Ho1).
    rewrite lookup_insert_eq. cbn [mbind option_bind app].
    apply (op_outcome_heap _ (<[t := Spec.replace p q c o1]> h1));
      [intros r Hr'; by apply lookup_insert_ne|].
    assert (unlink (Spec.replace p q c o1) = m1) as Em1 by (by rewrite <-replace_unlink, Hu1).
    pose proof (rematch_refines (<[t := Spec.replace p q c o1]> h1) b1 gb1 ab1 t (Spec.replace p q c o1)
      [ev; OrderModified (order_id m1) (cl_ord_id m1) (session_uuid m1) (security_id m1) p q
        (filled_qty m1) (remainingQty m1)] ab2 m2 evs2) as Hre.
    rewrite Em1 in Hre.
    assert (OrderModified (order_id m1) (cl_ord_id m1) (session_uuid m1) (security_id m1) p q
      (filled_qty m1) (remainingQty m1) = let o := Spec.replace p q c o1 in
      OrderModified (order_id o) (cl_ord_id o) (session_uuid o) (security_id o) p q
        (filled_qty o) (remainingQty o)) as Eev by (rewrite <-Em1; by destruct o1, c).
    cbn zeta in Eev. rewrite <-Eev. apply Hre; try done; [|apply lookup_insert_eq].
    eapply book_repr_frame; [|exact Hb1]. intros r Hr'. apply lookup_insert_ne. by intros ->.
  - destruct (isFullyFilled m2) eqn:Ef; [done|].
    destruct (insert_after_match _ _ _ _ _ Hwf1 Hok Hlive Hty Ef Hid1 Em) as (_ & _ & Hw & _).
    by destruct (Spec.insertResting ab2 m2).
Qed.
