(* ===== verification/BookPriority.v ===== *)
(** * Price-time priority and conservation of quantity

    The trades of a match are those of a reference allocation: the aggressor's
    open quantity is dealt out along the queue of the resting orders it can
    reach, best price first and oldest first within a price, each order taking
    all it can. *)
From S2P Require Import Prelude Types OrderedMap Order PriceLevel OrderBook BookSpec BookWf BookRefine BookRefineOps BookInv.

(** ** Trades in an event list *)

(** Maker id, price and quantity of every trade, in order. *)
Fixpoint fills (evs : list EngineEvent) : list (OrderId * Price * Quantity) :=
  match evs with
  | OrderFilled _ _ tp q _ mid _ _ _ _ _ _ _ _ _ _ _ :: evs => (mid, tp, q) :: fills evs
  | _ :: evs => fills evs
  | [] => []
  end.

Lemma fills_app evs1 evs2 : fills (evs1 ++ evs2) = fills evs1 ++ fills evs2.
Proof. induction evs1 as [|[] evs1 IH]; simpl; by rewrite ?IH. Qed.

Definition traded (evs : list EngineEvent) : Z := zsum (λ f, f.2) (fills evs).

Lemma traded_app evs1 evs2 : traded (evs1 ++ evs2) = traded evs1 + traded evs2.
Proof. unfold traded. by rewrite fills_app, zsum_app. Qed.

(** ** The reference allocation *)

(** The queue in front of an aggressor: the orders it can reach with the price
    of their level. *)
Definition queue (L : alevels) : list (Price * Order) :=
  concat ((λ e : Price * list Order, pair e.1 <$> e.2) <$> L).

(** Dealing [q] out along a queue. *)
Fixpoint allocate (q : Quantity) (l : list (Price * Order)) : list (OrderId * Price * Quantity) :=
  match l with
  | [] => []
  | (tp, m) :: l =>
      if 0 <? q then
        let x := Z.min q (remainingQty m) in (order_id m, tp, x) :: allocate (q - x) l
      else []
  end.

Lemma allocate_done q l : q ≤ 0 → allocate q l = [].
Proof. intros. destruct l as [|[tp m] l]; [done|]. simpl. by assert ((0 <? q) = false) as -> by lia. Qed.

(** Dealing along the first part of the queue and what is left along the rest. *)
Lemma allocate_app q l1 l2 :
  Forall (λ e, 0 < remainingQty e.2) l1 →
  allocate q (l1 ++ l2) =
    allocate q l1 ++ allocate (q - zsum (λ f, f.2) (allocate q l1)) l2.
Proof.
  intros HF. revert q. induction HF as [|[tp m] l1 Hm HF IH]; intros q; simpl.
  - by rewrite Z.sub_0_r.
  - destruct (0 <? q) eqn:E; simpl.
    + rewrite IH. f_equal. f_equal. f_equal. lia.
    + rewrite allocate_done; [done|lia].
Qed.

(** Never more than asked for, and nothing negative. *)
Lemma allocate_bounds q l :
  0 ≤ q → Forall (λ e, 0 < remainingQty e.2) l →
  0 ≤ zsum (λ f, f.2) (allocate q l) ≤ q ∧ Forall (λ f, 0 < f.2) (allocate q l).
Proof.
  intros Hq HF. revert q Hq. induction HF as [|[tp m] l Hm HF IH]; intros q Hq; simpl in *.
  - split; [lia|constructor].
  - destruct (0 <? q) eqn:E; simpl; [|split; [lia|constructor]].
    destruct (IH (q - Z.min q (remainingQty m))) as [? ?]; [lia|].
    split; [lia|constructor; simpl; [lia|done]].
Qed.

(** ** Matching is the allocation *)

Lemma fills_update sid sd tp idx rpt ms : fills [Spec.level_update sid sd tp idx rpt ms] = [].
Proof. by destruct ms. Qed.

Lemma fills_step tid sid tp q m t sd idx rpt ms :
  fills [Spec.fill_event tid sid tp q m t; Spec.level_update sid sd tp idx rpt ms] = [(order_id m, tp, q)].
Proof. simpl. f_equal. apply fills_update. Qed.

Lemma match_level_fills sid sd tp k tid rpt t ms :
  qty_ok t → Forall (order_ok sd k) ms →
  let '(_, _, t', ms', evs) := Spec.match_level sid sd tp tid rpt t ms in
  fills evs = allocate (remainingQty t) (pair tp <$> ms) ∧
  remainingQty t' = remainingQty t - traded evs ∧
  zsum remainingQty ms' = zsum remainingQty ms - traded evs.
Proof.
  revert tid rpt t. induction ms as [|m ms IH]; intros tid rpt t Ht HF.
  { unfold traded. simpl. split_and!; [done|lia|lia]. }
  apply Forall_cons in HF as [Hm HF]. cbn [Spec.match_level fmap list_fmap allocate].
  destruct (0 <? remainingQty t) eqn:Epos; [|unfold traded; simpl; split_and!; [done|lia|lia]].
  pose proof (order_ok_rem _ _ _ Hm). pose proof (ok_qty _ _ _ Hm) as Hmok.
  set (q := Z.min (remainingQty t) (remainingQty m)).
  assert (0 ≤ q ≤ remainingQty t) as Hqt by lia. assert (0 ≤ q ≤ remainingQty m) as Hqm by lia.
  pose proof (fill_rem q t Hqt Ht) as Et. pose proof (fill_rem q m Hqm Hmok) as Em.
  pose proof (fill_full q m Hqm Hmok) as Ef. pose proof (fill_ok q t Hqt Ht) as Hok.
  assert (order_id (Spec.fill q m) = order_id m) as Eid by (by destruct m).
  destruct (isFullyFilled (Spec.fill q m)) eqn:Efull.
  - specialize (IH (u64 (tid + 1)) (u32 (rpt + 1)) (Spec.fill q t) Hok HF).
    destruct (Spec.match_level _ _ _ _ _ _ _) as [[[[tid' rpt'] t'] ms'] evs'].
    destruct IH as (IHf & IHt & IHm). rewrite traded_app.
    unfold traded at 1 3. rewrite fills_app, fills_step, Eid, IHf, Et. simpl.
    split_and!; [done|lia|]. lia.
  - unfold traded. rewrite fills_step, Eid. cbn [zsum snd]. rewrite Em, Et.
    split_and!; [|lia|lia]. by rewrite allocate_done by lia.
Qed.

Lemma queue_cons tp ms L : queue ((tp, ms) :: L) = (pair tp <$> ms) ++ queue L.
Proof. done. Qed.

Lemma level_open sd tp ms : Forall (order_ok sd tp) ms → Forall (λ e : Price * Order, 0 < remainingQty e.2) (pair tp <$> ms).
Proof. intros HF. apply Forall_fmap. eapply Forall_impl; [exact HF|]. intros m Hm. by eapply order_ok_rem. Qed.

Lemma match_levels_fills sid sd stop tid rpt t L :
  qty_ok t → side_wf sd L →
  let '(_, _, t', L', evs) := Spec.match_levels sid sd stop tid rpt t L in
  fills evs = allocate (remainingQty t) (queue (Spec.reachable (λ k, stop k (price t)) L)) ∧
  remainingQty t' = remainingQty t - traded evs ∧
  zsum remainingQty (resting L') = zsum remainingQty (resting L) - traded evs.
Proof.
  revert tid rpt t. induction L as [|[tp ms] L IH]; intros tid rpt t Ht Hwf.
  { unfold traded. simpl. split_and!; [done|lia|lia]. }
  cbn [Spec.match_levels Spec.reachable].
  destruct (0 <? remainingQty t) eqn:Epos; cbn [andb].
  2:{ unfold traded. simpl. rewrite allocate_done by lia. split_and!; [done|lia|lia]. }
  destruct (stop tp (price t)) eqn:Estop; cbn [negb].
  { unfold traded. simpl. split_and!; [done|lia|lia]. }
  apply side_wf_cons in Hwf as (Hne & HF & Hlt & Hwf).
  pose proof (match_level_inv sid sd tp tp tid rpt t ms Ht HF) as Hinv.
  pose proof (match_level_fills sid sd tp tp tid rpt t ms Ht HF) as Hfl.
  destruct (Spec.match_level sid sd tp tid rpt t ms) as [[[[tid1 rpt1] t1] ms1] evs1].
  destruct Hinv as (Hex & Ht1 & Hid1 & _). destruct Hfl as (Hf1 & Hr1 & Hm1).
  rewrite queue_cons, allocate_app, <-Hf1 by (by eapply level_open). fold (traded evs1). rewrite <-Hr1.
  destruct ms1 as [|m1 ms1].
  - specialize (IH tid1 rpt1 t1 Ht1 Hwf).
    destruct (Spec.match_levels sid sd stop tid1 rpt1 t1 L) as [[[[tid2 rpt2] t2] L2] evs2].
    destruct IH as (IHf & IHr & IHm). assert (price t1 = price t) as Ep by apply (identity_fields _ _ Hid1).
    rewrite Ep in IHf. rewrite fills_app, traded_app, resting_cons, zsum_app, IHf. cbn [zsum] in Hm1.
    split_and!; [done|lia|lia].
  - destruct Hex as [?|Hex]; [done|]. rewrite !resting_cons, !zsum_app, allocate_done, app_nil_r by done.
    split_and!; [done|done|lia].
Qed.

(** Every trade is with an order of the queue, at its level's price. *)
Lemma allocate_in q l f : f ∈ allocate q l → ∃ m, (f.1.2, m) ∈ l ∧ f.1.1 = order_id m ∧ f.2 ≤ remainingQty m.
Proof.
  revert q. induction l as [|[tp m] l IH]; intros q; simpl; [by intros ?%elem_of_nil|].
  destruct (0 <? q); [|by intros ?%elem_of_nil]. intros [->|Hin]%elem_of_cons.
  - exists m. simpl. split_and!; [by left|done|lia].
  - destruct (IH _ Hin) as (m' & Hm' & ?). exists m'. split; [by right|done].
Qed.

Lemma queue_reachable stop L tp m :
  (tp, m) ∈ queue (Spec.reachable stop L) → stop tp = false ∧ m ∈ resting L ∧ tp ∈ L.*1.
Proof.
  induction L as [|[k ms] L IH]; simpl; [by intros ?%elem_of_nil|].
  destruct (stop k) eqn:E; [by intros ?%elem_of_nil|]. rewrite queue_cons, resting_cons. csimpl.
  rewrite !elem_of_app, elem_of_cons. intros [Hin|Hin].
  - apply list_elem_of_fmap in Hin as (m' & [= -> ->] & Hin). auto.
  - destruct (IH Hin) as (? & ? & ?). auto.
Qed.

(** ** Fill-or-kill availability *)

Lemma queue_total L : zsum (λ e : Price * Order, remainingQty e.2) (queue L) = zsum remainingQty (resting L).
Proof.
  induction L as [|[k ms] L IH]; [done|]. rewrite queue_cons, resting_cons, !zsum_app, IH. f_equal.
  induction ms as [|m ms IHm]; [done|]. csimpl. by rewrite <-IHm.
Qed.

(** When the queue holds at least [q], all of [q] is allocated. *)
Lemma allocate_all q l :
  0 ≤ q → Forall (λ e : Price * Order, 0 < remainingQty e.2) l → q ≤ zsum (λ e, remainingQty e.2) l →
  zsum (λ f, f.2) (allocate q l) = q.
Proof.
  intros Hq HF. revert q Hq. induction HF as [|[tp m] l Hm HF IH]; intros q Hq Hs; simpl in *; [lia|].
  assert (0 ≤ zsum (λ e : Price * Order, remainingQty e.2) l) as Hnn.
  { apply zsum_nonneg. eapply Forall_impl; [exact HF|]. simpl. lia. }
  destruct (0 <? q) eqn:E; simpl; [|lia]. rewrite IH; lia.
Qed.

(** The levels an order book can hold without its 32-bit level totals wrapping. *)
Definition totals_fit (L : alevels) : Prop := Forall (λ e, zsum remainingQty e.2 < 2 ^ 31) L.

Lemma resting_nonneg sd L : side_wf sd L → 0 ≤ zsum remainingQty (resting L).
Proof.
  intros [_ HF]. induction HF as [|[k ms] L [_ Hms] HF IH]; [done|].
  rewrite resting_cons, zsum_app.
  assert (0 ≤ zsum remainingQty ms); [|lia]. apply zsum_nonneg. eapply Forall_impl; [exact Hms|].
  intros m Hm. apply order_ok_rem in Hm. lia.
Qed.

Lemma reachable_wf sd stop L : side_wf sd L → side_wf sd (Spec.reachable stop L).
Proof.
  induction L as [|[k ms] L IH]; [done|]. intros (Hne & HF & Hlt & Hwf)%side_wf_cons. simpl.
  destruct (stop k); [split; constructor|]. apply side_wf_cons. split_and!; [done|done| |auto].
  clear -Hlt. induction L as [|[k' ms'] L IH]; simpl; [constructor|].
  apply Forall_cons in Hlt as [??]. destruct (stop k'); constructor; auto.
Qed.

(** The 32-bit test is the exact test when the level totals fit. *)
Lemma covers_spec sd needed L :
  side_wf sd L → totals_fit L → 0 ≤ needed < 2 ^ 31 →
  Spec.covers needed L = (needed <=? zsum remainingQty (resting L)).
Proof.
  intros Hwf Hfit. revert needed. induction L as [|[k ms] L IH]; intros needed Hn; [done|].
  apply side_wf_cons in Hwf as (Hne & HF & Hlt & Hwf). apply Forall_cons in Hfit as [Hk Hfit]. simpl in Hk.
  assert (0 ≤ zsum remainingQty ms) as Hms.
  { apply zsum_nonneg. eapply Forall_impl; [exact HF|]. intros m Hm. apply order_ok_rem in Hm. lia. }
  pose proof (resting_nonneg _ _ Hwf) as Hnn. simpl. rewrite resting_cons, zsum_app.
  rewrite (wraps_small 32 (zsum _ ms)) by lia.
  rewrite (wraps_small 32 (needed - _)) by lia.
  destruct (_ <=? 0) eqn:E; cbn [orb]; [lia|]. rewrite IH by (done || lia). lia.
Qed.
