(* ===== verification/BookReplay.v ===== *)
(** * The market data of the book

    A consumer that starts from the aggregated depth of the book and applies
    the [BookUpdate]s of an operation in order, by level index as MDP 3.0
    clients do, ends with the aggregated depth of the resulting book; and the
    report sequence numbers and trade ids of the events are consecutive. *)
From S2P Require Import Prelude Types OrderedMap Order PriceLevel OrderBook BookSpec BookWf BookRefine BookRefineOps BookInv.

(** ** Replaying book updates *)

(** Price, quantity and order count per level, best first. *)
Abbreviation depth_list := (list (Price * Quantity * Z)).
Definition depth (L : alevels) : depth_list :=
  (λ e, (e.1, i32 (zsum remainingQty e.2), i32 (Z.of_nat (length e.2)))) <$> L.
Definition book_depth (ab : ABook) : depth_list * depth_list := (depth (a_bids ab), depth (a_asks ab)).

(** New inserts at the (1-based) index and shifts the levels below, Change
    overwrites the level, Delete removes it and shifts up. An index that names no
    level, or leaves a hole, cannot be applied; neither can the other actions. *)
Definition apply_update (act : MDUpdateAction) (idx : Z) (e : Price * Quantity * Z) (d : depth_list) : option depth_list :=
  let i := Z.to_nat (idx - 1) in
  if decide (1 ≤ idx ∧ (i < length d + match act with MD_New => 1 | _ => 0 end)%nat) then
    match act with
    | MD_New => Some (take i d ++ e :: drop i d)
    | MD_Change => Some (<[i := e]> d)
    | MD_Delete => Some (delete i d)
    | _ => None
    end
  else None.

(** An update of the bids or of the asks. *)
Definition update_side (bids : bool) (f : depth_list → option depth_list) (d : depth_list * depth_list)
    : option (depth_list * depth_list) :=
  if bids then b ← f d.1; Some (b, d.2) else a ← f d.2; Some (d.1, a).

Definition apply_event (d : depth_list * depth_list) (ev : EngineEvent) : option (depth_list * depth_list) :=
  match ev with
  | BookUpdate _ sd p q c act idx _ => update_side (isBuy sd) (apply_update act idx (p, q, c)) d
  | _ => Some d
  end.

Definition replay (d : depth_list * depth_list) (evs : list EngineEvent) : option (depth_list * depth_list) :=
  ofold apply_event d evs.

Lemma replay_app d evs1 evs2 : replay d (evs1 ++ evs2) = d ← replay d evs1; replay d evs2.
Proof. apply ofold_app. Qed.

Lemma apply_update_new idx e d1 d2 :
  1 ≤ idx → Z.to_nat (idx - 1) = length d1 → apply_update MD_New idx e (d1 ++ d2) = Some (d1 ++ e :: d2).
Proof.
  intros Hi E. unfold apply_update. rewrite E, decide_True, take_app_length, drop_app_length; [done|].
  split; [done|]. rewrite length_app. lia.
Qed.
Lemma apply_update_change idx e d1 x d2 :
  1 ≤ idx → Z.to_nat (idx - 1) = length d1 → apply_update MD_Change idx e (d1 ++ x :: d2) = Some (d1 ++ e :: d2).
Proof.
  intros Hi E. unfold apply_update. rewrite E, decide_True, insert_app_r_alt by (try split; rewrite ?length_app; cbn; lia).
  by rewrite Nat.sub_diag.
Qed.
Lemma apply_update_delete idx e d1 x d2 :
  1 ≤ idx → Z.to_nat (idx - 1) = length d1 → apply_update MD_Delete idx e (d1 ++ x :: d2) = Some (d1 ++ d2).
Proof.
  intros Hi E. unfold apply_update. rewrite E, decide_True, delete_middle by (try split; rewrite ?length_app; cbn; lia).
  done.
Qed.

Definition on_side (sd : Side) (d d' : depth_list) : depth_list * depth_list :=
  if isBuy sd then (d, d') else (d', d).

Lemma book_depth_side sd sid L Lo tid rpt : book_depth (mkASide sd sid L Lo tid rpt) = on_side sd (depth L) (depth Lo).
Proof. unfold book_depth, mkASide, on_side. by destruct (isBuy sd). Qed.

Lemma depth_app L1 L2 : depth (L1 ++ L2) = depth L1 ++ depth L2.
Proof. apply fmap_app. Qed.

Lemma depth_cons k ms L :
  depth ((k, ms) :: L) = (k, i32 (zsum remainingQty ms), i32 (Z.of_nat (length ms))) :: depth L.
Proof. done. Qed.

Lemma depth_length L : length (depth L) = length L.
Proof. apply length_fmap. Qed.

Lemma replay_update sd sid p q c act idx rpt d d' :
  replay (on_side sd d d') [BookUpdate sid sd p q c act idx rpt] = d ← apply_update act idx (p, q, c) d; Some (on_side sd d d').
Proof. unfold replay, on_side, update_side. simpl. by destruct (isBuy sd); cbn; destruct (apply_update _ _ _ _). Qed.

(** A change or deletion reported for the level at a position. *)
Lemma replay_level sd sid k ms ms' L1 L2 rpt d' :
  (Z.of_nat (length L1) + 1 < 2 ^ 31) →
  replay (on_side sd (depth (L1 ++ (k, ms) :: L2)) d')
    [Spec.level_update sid sd k (i32 (Z.of_nat (length L1) + 1)) rpt ms'] =
  Some (on_side sd (depth (L1 ++ match ms' with [] => L2 | _ => (k, ms') :: L2 end)) d').
Proof.
  intros Hlen. rewrite (wraps_small 32) by lia.
  assert (Z.to_nat (Z.of_nat (length L1) + 1 - 1) = length (depth L1)) as E by (rewrite depth_length; lia).
  destruct ms' as [|m ms']; cbn [Spec.level_update]; rewrite replay_update, !depth_app, !depth_cons.
  - by rewrite apply_update_delete by (done || lia).
  - by rewrite apply_update_change by (done || lia).
Qed.

Lemma replay_fill d tid sid tp q m t evs : replay d (Spec.fill_event tid sid tp q m t :: evs) = replay d evs.
Proof. done. Qed.

Lemma match_level_replay sid sd tp tid rpt t ms L d' :
  ms ≠ [] →
  let '(_, _, _, ms', evs) := Spec.match_level sid sd tp tid rpt t ms in
  replay (on_side sd (depth ((tp, ms) :: L)) d') evs =
    Some (on_side sd (depth match ms' with [] => L | _ => (tp, ms') :: L end) d').
Proof.
  revert tid rpt t. induction ms as [|m ms IH]; intros tid rpt t Hne; [done|]. clear Hne.
  cbn [Spec.match_level]. destruct (0 <? remainingQty t); [|done].
  set (q := Z.min (remainingQty t) (remainingQty m)).
  pose proof (replay_level sd sid tp (m :: ms) (if isFullyFilled (Spec.fill q m) then ms else Spec.fill q m :: ms)
    [] L rpt d') as Hstep.
  cbn [length app] in Hstep. change (i32 (Z.of_nat 0 + 1)) with 1 in Hstep.
  destruct (isFullyFilled (Spec.fill q m)).
  - destruct ms as [|m2 ms]; [apply Hstep; lia|].
    specialize (IH (u64 (tid + 1)) (u32 (rpt + 1)) (Spec.fill q t)).
    destruct (Spec.match_level _ _ _ _ _ _ _) as [[[[tid' rpt'] t'] ms'] evs'].
    rewrite replay_app, replay_fill, Hstep by lia. cbn [mbind option_bind]. by apply IH.
  - rewrite replay_fill, Hstep by lia. done.
Qed.

Lemma match_levels_replay sid sd stop tid rpt t L d' :
  Forall (level_wf sd) L →
  let '(_, _, _, L', evs) := Spec.match_levels sid sd stop tid rpt t L in
  replay (on_side sd (depth L) d') evs = Some (on_side sd (depth L') d').
Proof.
  intros HF. revert tid rpt t. induction HF as [|[tp ms] L [Hne _] HF IH]; intros tid rpt t; [done|].
  cbn [Spec.match_levels]. destruct (_ && _); [|done].
  pose proof (match_level_replay sid sd tp tid rpt t ms L d' Hne) as Hlv.
  destruct (Spec.match_level sid sd tp tid rpt t ms) as [[[[tid1 rpt1] t1] ms1] evs1].
  destruct ms1 as [|m1 ms1]; [|done].
  specialize (IH tid1 rpt1 t1).
  destruct (Spec.match_levels sid sd stop tid1 rpt1 t1 L) as [[[[tid2 rpt2] t2] L2] evs2].
  rewrite replay_app, Hlv. exact IH.
Qed.

Lemma matchOrder_replay ab t :
  book_wf ab →
  let '(ab', _, evs) := Spec.matchOrder ab t in replay (book_depth ab) evs = Some (book_depth ab').
Proof.
  intros Hwf. set (sd := Spec.opposite (side t)). rewrite (abook_focus sd ab) in Hwf |- *.
  apply book_wf_mkASide in Hwf as ([_ HF] & _).
  rewrite (spec_matchOrder_side _ _ _ _ _ t). fold sd. rewrite !book_depth_side.
  pose proof (match_levels_replay (a_security ab) sd (Spec.limit_test t) (a_trade_id ab) (a_rpt_seq ab) t
    (alevels_of sd ab) (depth (alevels_of (Spec.opposite sd) ab)) HF) as H.
  by destruct (Spec.match_levels _ _ _ _ _ _ _) as [[[[??]?]?]?].
Qed.

(** ** Inserting and removing *)

(** A side split around a price. *)
Lemma side_split sd k (L : alevels) :
  sorted_keys (better sd) L.*1 →
  (∃ (L1 : alevels) ms L2, L = L1 ++ (k, ms) :: L2 ∧ Forall (λ e, better sd e.1 k = true) L1) ∨
  (∃ L1 L2 : alevels, L = L1 ++ L2 ∧ Forall (λ e, better sd e.1 k = true) L1 ∧ Forall (λ e, better sd k e.1 = true) L2).
Proof.
  intros Hs. destruct (find (better sd) k L) as [it|] eqn:Ef.
  - left. destruct (find_Some_split _ _ _ _ Ef) as (L1 & ms & L2 & -> & _ & HF). by exists L1, ms, L2.
  - right. destruct (find_None_split _ _ _ Ef Hs) as (L1 & L2 & -> & _ & HF1 & HF2). by exists L1, L2.
Qed.

Lemma side_wf_middle sd L1 k ms L2 : side_wf sd (L1 ++ (k, ms) :: L2) → ms ≠ [].
Proof. intros [_ HF]. apply Forall_app in HF as [_ [[? _] _]%Forall_cons]. done. Qed.

Lemma insert_level_replay sd sid rpt o L d' :
  side_wf sd L → Z.of_nat (length L) + 1 < 2 ^ 31 →
  let L' := Spec.insert_level (better sd) o L in
  let ms := Spec.at_price (price o) L' in
  replay (on_side sd (depth L) d')
    [BookUpdate sid sd (price o) (i32 (zsum remainingQty ms)) (i32 (Z.of_nat (length ms)))
       (match Spec.at_price (price o) L with [] => MD_New | _ => MD_Change end)
       (i32 (Spec.level_index (better sd) (price o) L)) rpt] = Some (on_side sd (depth L') d').
Proof.
  intros Hwf Hlen. cbv zeta.
  destruct (side_split sd (price o) L (sw_sorted _ _ Hwf)) as [(L1 & ms & L2 & -> & HF)|(L1 & L2 & -> & HF1 & HF2)].
  - pose proof (side_wf_middle _ _ _ _ _ Hwf) as Hne. rewrite length_app in Hlen. simpl in Hlen.
    rewrite insert_level_skip, insert_level_hit by (apply _ || done).
    rewrite !(at_price_skip (better sd)), !at_price_head by done.
    rewrite (level_index_at (better sd) _ L1) by (done || apply cmp_irrefl).
    destruct ms as [|m0 ms]; [done|].
    pose proof (replay_level sd sid (price o) (m0 :: ms) ((m0 :: ms) ++ [o]) L1 L2 rpt d') as H.
    apply H. lia.
  - rewrite length_app in Hlen.
    rewrite insert_level_skip, (insert_level_miss (better sd)) by done.
    rewrite !(at_price_skip (better sd)), at_price_head, (at_price_absent (better sd)) by done.
    rewrite (level_index_at (better sd) _ L1); [|done|].
    2:{ destruct L2 as [|e L2]; [done|]. apply Forall_cons in HF2 as [? _]. by apply (cmp_asym (better sd)). }
    rewrite (wraps_small 32 (_ + 1)) by lia. rewrite replay_update, !depth_app, depth_cons.
    by rewrite apply_update_new by (rewrite ?depth_length; lia).
Qed.

Lemma insertResting_replay ab o :
  book_wf ab → Z.of_nat (length (alevels_of (own_side o) ab)) + 1 < 2 ^ 31 →
  let '(ab', ev) := Spec.insertResting ab o in replay (book_depth ab) [ev] = Some (book_depth ab').
Proof.
  intros Hwf. set (sd := own_side o). rewrite (abook_focus sd ab) in Hwf |- *.
  apply book_wf_mkASide in Hwf as (HwL & _). rewrite alevels_mkASide. intros Hlen.
  rewrite (spec_insertResting_side _ _ _ _ _ o). fold sd. rewrite !book_depth_side.
  by apply insert_level_replay.
Qed.

Lemma removeFromBook_replay ab m :
  book_wf ab → m ∈ all_resting ab → Z.of_nat (length (alevels_of (own_side m) ab)) + 1 < 2 ^ 31 →
  let '(ab', ev) := Spec.removeFromBook ab m in replay (book_depth ab) [ev] = Some (book_depth ab').
Proof.
  intros Hwf Hin. set (sd := own_side m). rewrite (abook_focus sd ab) in Hwf, Hin |- *.
  apply book_wf_mkASide in Hwf as (HwL & HwLo & _). rewrite alevels_mkASide. intros Hlen.
  rewrite (spec_removeFromBook_side _ _ _ _ _ m). fold sd. rewrite !book_depth_side.
  set (L := alevels_of sd ab) in *. set (Lo := alevels_of (Spec.opposite sd) ab) in *.
  rewrite all_resting_mkASide in Hin.
  assert (price m ∈ L.*1) as Hk.
  { apply elem_of_app in Hin as [Hin|Hin]; [by eapply resting_own_side|].
    apply (resting_own_side _ _ _ HwLo) in Hin as [E _]. revert E.
    unfold sd, own_side, Spec.opposite. by destruct (isBuy (side m)). }
  destruct (side_split sd (price m) L (sw_sorted _ _ HwL)) as [(L1 & ms & L2 & EL & HF)|(L1 & L2 & EL & HF1 & HF2)].
  - rewrite EL in *. rewrite length_app in Hlen. simpl in Hlen.
    rewrite (remove_level_at (better sd)), (at_price_skip (better sd)), at_price_head by done.
    rewrite (level_index_at (better sd) _ L1) by (done || apply cmp_irrefl).
    pose proof (replay_level sd (a_security ab) (price m) ms (Spec.remove_id (order_id m) ms) L1 L2
      (a_rpt_seq ab) (depth Lo)) as H.
    destruct (Spec.remove_id (order_id m) ms); apply H; lia.
  - exfalso. rewrite EL, fmap_app, elem_of_app in Hk. rewrite Forall_forall in HF1.
    destruct Hk as [Hk|Hk]; apply list_elem_of_fmap in Hk as (e & Ee & He).
    + specialize (HF1 e He). by rewrite Ee, cmp_irrefl in HF1.
    + rewrite Forall_forall in HF2. specialize (HF2 e He). by rewrite Ee, cmp_irrefl in HF2.
Qed.

(** ** Consecutive counters *)

Fixpoint rpts (evs : list EngineEvent) : list Z :=
  match evs with
  | BookUpdate _ _ _ _ _ _ _ rpt :: evs => rpt :: rpts evs
  | _ :: evs => rpts evs
  | [] => []
  end.

Fixpoint trade_ids (evs : list EngineEvent) : list Z :=
  match evs with
  | OrderFilled tid _ _ _ _ _ _ _ _ _ _ _ _ _ _ _ _ :: evs => tid :: trade_ids evs
  | _ :: evs => trade_ids evs
  | [] => []
  end.

(** The counter after handing out exactly the numbers of [l], each the [w]-bit
    successor of the one before, starting from [x]. *)
Fixpoint counted (w x : Z) (l : list Z) : option Z :=
  match l with
  | [] => Some x
  | a :: l => if a =? x then counted w (wrapu w (x + 1)) l else None
  end.

Lemma counted_app w x y l1 l2 : counted w x l1 = Some y → counted w x (l1 ++ l2) = counted w y l2.
Proof.
  revert x. induction l1 as [|a l1 IH]; intros x; simpl; [by intros [= ->]|].
  destruct (a =? x); [apply IH|done].
Qed.

Lemma rpts_app evs1 evs2 : rpts (evs1 ++ evs2) = rpts evs1 ++ rpts evs2.
Proof. induction evs1 as [|[] evs1 IH]; simpl; by rewrite ?IH. Qed.

Lemma trade_ids_app evs1 evs2 : trade_ids (evs1 ++ evs2) = trade_ids evs1 ++ trade_ids evs2.
Proof. induction evs1 as [|[] evs1 IH]; simpl; by rewrite ?IH. Qed.

(** The counters move exactly by what the events carry. *)
Definition numbered (tid rpt tid' rpt' : Z) (evs : list EngineEvent) : Prop :=
  counted 64 tid (trade_ids evs) = Some tid' ∧ counted 32 rpt (rpts evs) = Some rpt'.

Lemma numbered_app tid rpt tid1 rpt1 tid2 rpt2 evs1 evs2 :
  numbered tid rpt tid1 rpt1 evs1 → numbered tid1 rpt1 tid2 rpt2 evs2 →
  numbered tid rpt tid2 rpt2 (evs1 ++ evs2).
Proof.
  intros [H1 H2] [H3 H4]. split.
  - by rewrite trade_ids_app, (counted_app _ _ _ _ _ H1).
  - by rewrite rpts_app, (counted_app _ _ _ _ _ H2).
Qed.

Lemma level_update_numbered tid sid sd tp idx rpt ms :
  numbered tid rpt tid (u32 (rpt + 1)) [Spec.level_update sid sd tp idx rpt ms].
Proof. split; destruct ms; simpl; by rewrite ?Z.eqb_refl. Qed.

Lemma fill_numbered tid sid tp q m t rpt tid' rpt' evs :
  numbered (u64 (tid + 1)) rpt tid' rpt' evs → numbered tid rpt tid' rpt' (Spec.fill_event tid sid tp q m t :: evs).
Proof. intros [H1 H2]. split; simpl; [by rewrite Z.eqb_refl|done]. Qed.

Lemma match_level_numbered sid sd tp tid rpt t ms :
  let '(tid', rpt', _, _, evs) := Spec.match_level sid sd tp tid rpt t ms in numbered tid rpt tid' rpt' evs.
Proof.
  revert tid rpt t. induction ms as [|m ms IH]; intros tid rpt t; [done|].
  cbn [Spec.match_level]. destruct (0 <? remainingQty t); [|done].
  set (q := Z.min (remainingQty t) (remainingQty m)).
  destruct (isFullyFilled (Spec.fill q m)); [|apply fill_numbered, level_update_numbered].
  specialize (IH (u64 (tid + 1)) (u32 (rpt + 1)) (Spec.fill q t)).
  destruct (Spec.match_level _ _ _ _ _ _ _) as [[[[tid' rpt'] t'] ms'] evs'].
  eapply numbered_app; [apply fill_numbered, level_update_numbered|done].
Qed.

Lemma match_levels_numbered sid sd stop tid rpt t L :
  let '(tid', rpt', _, _, evs) := Spec.match_levels sid sd stop tid rpt t L in numbered tid rpt tid' rpt' evs.
Proof.
  revert tid rpt t. induction L as [|[tp ms] L IH]; intros tid rpt t; [done|].
  cbn [Spec.match_levels]. destruct (_ && _); [|done].
  pose proof (match_level_numbered sid sd tp tid rpt t ms) as Hlv.
  destruct (Spec.match_level sid sd tp tid rpt t ms) as [[[[tid1 rpt1] t1] ms1] evs1].
  destruct ms1 as [|m1 ms1]; [|done]. specialize (IH tid1 rpt1 t1).
  destruct (Spec.match_levels sid sd stop tid1 rpt1 t1 L) as [[[[tid2 rpt2] t2] L2] evs2].
  by eapply numbered_app.
Qed.

Definition ab_numbered (ab ab' : ABook) (evs : list EngineEvent) : Prop :=
  numbered (a_trade_id ab) (a_rpt_seq ab) (a_trade_id ab') (a_rpt_seq ab') evs.

Lemma matchOrder_numbered ab t : let '(ab', _, evs) := Spec.matchOrder ab t in ab_numbered ab ab' evs.
Proof.
  unfold Spec.matchOrder.
  pose proof (match_levels_numbered (a_security ab) (Spec.opposite (side t)) (Spec.limit_test t) (a_trade_id ab)
    (a_rpt_seq ab) t (alevels_of (Spec.opposite (side t)) ab)) as H.
  destruct (Spec.match_levels _ _ _ _ _ _ _) as [[[[tid' rpt'] t'] L'] evs'].
  destruct (set_alevels _ _ _). done.
Qed.

Lemma insertResting_numbered ab o : ab_numbered ab (Spec.insertResting ab o).1 [(Spec.insertResting ab o).2].
Proof.
  unfold ab_numbered, Spec.insertResting. destruct ab. split; simpl; unfold set_alevels;
    destruct (isBuy (side o)); simpl; by rewrite ?Z.eqb_refl.
Qed.

Lemma removeFromBook_numbered ab o : ab_numbered ab (Spec.removeFromBook ab o).1 [(Spec.removeFromBook ab o).2].
Proof.
  rewrite (abook_focus (own_side o) ab), spec_removeFromBook_side. cbn [fst snd].
  unfold ab_numbered, mkASide. destruct (isBuy (own_side o)); apply level_update_numbered.
Qed.
