(* ===== verification/BookCommands.v ===== *)
(** * Commands against one book

    The three public operations as commands, so that what holds of each of them
    is stated once; and the aggregated depth that the book itself keeps. *)
From S2P Require Import Prelude Types OrderedMap Order PriceLevel OrderBook BookSpec BookWf BookRefine BookRefineOps BookInv BookCorrect BookPriority BookReplay.

Inductive BookCmd :=
  | CmdAdd (order : Ptr)
  | CmdCancel (oid : OrderId)
  | CmdModify (oid : OrderId) (new_price : Price) (new_qty : Quantity) (new_cl_ord_id : ClOrdId).

Definition run_cmd (h : heap) (b : OrderBook) (c : BookCmd) : option State :=
  match c with
  | CmdAdd t => OrderBookOps.addOrder h b t
  | CmdCancel oid => OrderBookOps.cancelOrder h b oid
  | CmdModify oid p q cl => OrderBookOps.modifyOrder h b oid p q cl
  end.

(** A new order must be live memory off the book, with its quantities in range
    and an id that is not in use; a modified quantity must be in range. *)
Record add_pre (h : heap) (gb : gside * gside) (ab : ABook) (t : Ptr) (o : Order) : Prop := {
  ap_order : h !! t = Some o;
  ap_off : t ∉ ptrs gb;
  ap_qty : qty_ok o;
  ap_live : live o;
  ap_fresh : order_id o ∉ order_id <$> all_resting ab
}.

Definition cmd_pre (h : heap) (gb : gside * gside) (ab : ABook) (c : BookCmd) : Prop :=
  match c with
  | CmdAdd t => ∃ o, add_pre h gb ab t o
  | CmdCancel _ => True
  | CmdModify _ _ q _ => 0 ≤ q < 2 ^ 31
  end.

(** The abstract effect of a command on the book. *)
Definition find_order (ab : ABook) (oid : OrderId) : option Order :=
  snd <$> list_find (λ m, order_id m = oid) (all_resting ab).

Definition spec_cmd (h : heap) (ab : ABook) (c : BookCmd) : ABook * list EngineEvent :=
  match c with
  | CmdAdd t =>
      match h !! t with
      | Some o => let r := Spec.addOrder ab (unlink o) in (r.1.1, r.2)
      | None => (ab, [])
      end
  | CmdCancel oid =>
      match find_order ab oid with
      | Some m => let r := Spec.cancelOrder ab m in (r.1.1, r.2)
      | None => (ab, [OrderCancelRejected oid [] 0 0 "Order not found"])
      end
  | CmdModify oid p q cl =>
      match find_order ab oid with
      | Some m => let r := Spec.modifyOrder ab m p q cl in (r.1.1, r.2)
      | None => (ab, [OrderCancelRejected oid cl 0 0 "Order not found"])
      end
  end.

(** With unique ids the order with an id is the one that is found. *)
Lemma find_order_Some ab m : book_wf ab → m ∈ all_resting ab → find_order ab (order_id m) = Some m.
Proof.
  intros Hwf Hin. pose proof (wf_ids _ Hwf) as Hnd. unfold find_order.
  induction (all_resting ab) as [|x l IH]; [by apply elem_of_nil in Hin|].
  csimpl in Hnd. apply NoDup_cons in Hnd as [Hx Hnd]. simpl.
  apply elem_of_cons in Hin as [->|Hin]; [by rewrite decide_True|].
  rewrite decide_False by (intros Heq; apply Hx; rewrite Heq; by apply list_elem_of_fmap_2).
  specialize (IH Hin Hnd). by destruct (list_find _ l) as [[? ?]|].
Qed.

Lemma find_order_None ab oid : (oid ∉ order_id <$> all_resting ab) → find_order ab oid = None.
Proof.
  intros Hni. unfold find_order. destruct (list_find _ _) as [[i m]|] eqn:E; [|done].
  apply list_find_Some in E as (Hl & <- & _). exfalso. apply Hni.
  by apply list_elem_of_fmap_2, list_elem_of_lookup_2 with i.
Qed.

Lemma find_order_elem ab oid m : find_order ab oid = Some m → m ∈ all_resting ab ∧ order_id m = oid.
Proof.
  unfold find_order. intros ([i x] & E & Hx)%fmap_Some. simpl in Hx. subst x.
  apply list_find_Some in E as (Hl & Hid & _). split; [by eapply list_elem_of_lookup_2|done].
Qed.

Lemma cmd_refines h b gb ab c :
  book_repr h b gb ab → book_wf ab → cmd_pre h gb ab c →
  ∃ h' b' gb', run_cmd h b c = Some (h', b', (spec_cmd h ab c).2) ∧
    book_repr h' b' gb' (spec_cmd h ab c).1 ∧ book_wf (spec_cmd h ab c).1.
Proof.
  intros Hb Hwf Hpre. destruct c as [t|oid|oid p q cl]; simpl in *.
  - destruct Hpre as [o [Ho Ht Hq Hl Hf]]. rewrite Ho.
    destruct (addOrder_refines _ _ _ _ _ _ Hb Hwf Ho Ht Hq Hl Hf) as (rests & Hout & Hwf').
    destruct Hout as (h' & b' & gb' & o' & E & Hb' & _). by exists h', b', gb'.
  - pose proof (cancelOrder_refines _ _ _ _ oid Hb Hwf) as Hc.
    destruct (orders_by_id_ b !! oid) as [t|].
    + destruct Hc as (m & Hin & Hr & <- & Hout & Hwf'). rewrite (find_order_Some _ _ Hwf Hr).
      destruct Hout as (h' & b' & gb' & o' & E & Hb' & _). by exists h', b', gb'.
    + destruct Hc as [Hni ->]. rewrite (find_order_None _ _ Hni). by exists h, b, gb.
  - pose proof (modifyOrder_refines _ _ _ _ oid p q cl Hb Hwf Hpre) as Hc.
    destruct (orders_by_id_ b !! oid) as [t|].
    + destruct Hc as (m & Hin & Hr & <- & (rests & Hout) & Hwf'). rewrite (find_order_Some _ _ Hwf Hr).
      destruct Hout as (h' & b' & gb' & o' & E & Hb' & _). by exists h', b', gb'.
    + destruct Hc as [Hni ->]. rewrite (find_order_None _ _ Hni). by exists h, b, gb.
Qed.

(** ** The depth the book keeps *)

Definition impl_side_depth (M : list (Price * PriceLevel)) : depth_list :=
  (λ e, (e.1, total_quantity e.2, order_count e.2)) <$> M.
Definition impl_depth (b : OrderBook) : depth_list * depth_list :=
  (impl_side_depth (bid_levels_ b), impl_side_depth (ask_levels_ b)).

Lemma impl_depth_repr h b gb ab : book_repr h b gb ab → impl_depth b = book_depth ab.
Proof.
  intros [_ _ _ H1 H2 E1 E2 _ _]. unfold impl_depth, book_depth. rewrite E1, E2.
  assert (∀ M G, levels_repr h M G → impl_side_depth M = depth (forget G)) as H.
  { intros M G. induction 1 as [|[k lv] [k' g] M G [Hk Hr] _ IH]; [done|]. simpl in Hk, Hr. subst k'.
    rewrite forget_cons, depth_cons, <-IH. destruct Hr as [_ _ _ Hq Hc].
    unfold impl_side_depth. csimpl. by rewrite Hq, Hc, <-length_fmap with (f := snd). }
  by rewrite (H _ _ H1), (H _ _ H2).
Qed.

(** Room for one more level, so that the 32-bit level index does not wrap. *)
Definition levels_fit (ab : ABook) : Prop :=
  Z.of_nat (length (a_bids ab)) + 1 < 2 ^ 31 ∧ Z.of_nat (length (a_asks ab)) + 1 < 2 ^ 31.

(** Matching leaves the aggressor's own side alone. *)
Lemma matchOrder_own_side ab t :
  alevels_of (own_side t) (Spec.matchOrder ab t).1.1 = alevels_of (own_side t) ab.
Proof.
  set (sd := Spec.opposite (side t)). rewrite (abook_focus sd ab).
  rewrite (spec_matchOrder_side _ _ _ _ _ t). cbn [fst snd]. fold sd. unfold alevels_of, mkASide, sd, Spec.opposite.
  rewrite isBuy_own. by destruct (isBuy (side t)).
Qed.

Lemma removeFromBook_length ab m s :
  book_wf ab → m ∈ all_resting ab →
  (length (alevels_of s (Spec.removeFromBook ab m).1) ≤ length (alevels_of s ab))%nat.
Proof.
  intros Hwf Hin. set (sd := own_side m). rewrite (abook_focus sd ab).
  rewrite (spec_removeFromBook_side _ _ _ _ _ m). cbn [fst snd]. fold sd.
  assert (∀ p i L, (length (Spec.remove_level p i L) ≤ length L)%nat) as Hr.
  { intros p i L. induction L as [|[k ms] L IH]; simpl; [lia|].
    case_decide; [destruct (Spec.remove_id i ms); simpl; lia|simpl; lia]. }
  unfold alevels_of, mkASide. destruct (isBuy sd), (isBuy s); simpl; auto.
Qed.

Lemma replay_skip d ev evs : (∀ d', apply_event d' ev = Some d') → replay d (ev :: evs) = replay d evs.
Proof. intros H. unfold replay. simpl. by rewrite H. Qed.

Lemma replay_cons d ev evs : replay d (ev :: evs) = d ← replay d [ev]; replay d evs.
Proof. apply (replay_app d [ev]). Qed.

Lemma replay_snoc_skip d ev evs : (∀ d', apply_event d' ev = Some d') → replay d (evs ++ [ev]) = replay d evs.
Proof. intros H. rewrite replay_app. destruct (replay d evs) as [d'|]; [cbn; by rewrite H|done]. Qed.

Lemma levels_fit_side ab s : levels_fit ab → Z.of_nat (length (alevels_of s ab)) + 1 < 2 ^ 31.
Proof. intros [??]. unfold alevels_of. by destruct (isBuy s). Qed.

(** Matching and then resting what is left. *)
Lemma match_insert_replay ab t ab1 t1 evs :
  book_wf ab → qty_ok t → Z.of_nat (length (alevels_of (own_side t) ab)) + 1 < 2 ^ 31 →
  Spec.matchOrder ab t = (ab1, t1, evs) →
  replay (book_depth ab) (evs ++ [(Spec.insertResting ab1 t1).2]) = Some (book_depth (Spec.insertResting ab1 t1).1).
Proof.
  intros Hwf Hok Hfit Em.
  pose proof (matchOrder_inv ab t Hwf Hok) as Hinv. pose proof (matchOrder_replay ab t Hwf) as Hrep.
  pose proof (matchOrder_own_side ab t) as Hown. rewrite Em in Hinv, Hrep, Hown. simpl in Hown.
  destruct Hinv as (Hwf1 & _ & Hid & _). destruct (identity_fields _ _ Hid) as (_ & Es & _).
  assert (own_side t1 = own_side t) as Eo by (unfold own_side; by rewrite Es).
  pose proof (insertResting_replay ab1 t1 Hwf1) as Hins. rewrite Eo, Hown in Hins.
  rewrite replay_app, Hrep. cbn [mbind option_bind]. destruct (Spec.insertResting ab1 t1). by apply Hins.
Qed.

Lemma spec_add_replay ab t :
  book_wf ab → qty_ok t → levels_fit ab →
  replay (book_depth ab) (Spec.addOrder ab t).2 = Some (book_depth (Spec.addOrder ab t).1.1).
Proof.
  intros Hwf Hok Hfit. unfold Spec.addOrder. destruct (_ && _); [done|].
  pose proof (matchOrder_replay ab t Hwf) as Hrep.
  destruct (Spec.matchOrder ab t) as [[ab1 t1] evs1] eqn:Em.
  pose proof (match_insert_replay _ _ _ _ _ Hwf Hok (levels_fit_side _ (own_side t) Hfit) Em) as Hins.
  unfold Spec.post_match. destruct (isFullyFilled t1); [cbn [fst snd]; by rewrite replay_skip|].
  destruct (bool_decide _); [cbn [fst snd app]; by rewrite replay_skip, replay_snoc_skip|].
  destruct (order_type t1); try by cbn [fst snd app]; rewrite replay_skip, ?replay_snoc_skip.
  destruct (Spec.insertResting ab1 t1). cbn [fst snd app] in *. by rewrite replay_skip.
Qed.

Lemma spec_cancel_replay ab m :
  book_wf ab → m ∈ all_resting ab → levels_fit ab →
  replay (book_depth ab) (Spec.cancelOrder ab m).2 = Some (book_depth (Spec.cancelOrder ab m).1.1).
Proof.
  intros Hwf Hin Hfit. unfold Spec.cancelOrder.
  pose proof (removeFromBook_replay ab m Hwf Hin (levels_fit_side _ _ Hfit)) as Hrep.
  destruct (Spec.removeFromBook ab m). cbn [fst snd]. by rewrite replay_cons, Hrep.
Qed.

Lemma spec_modify_replay ab m p q c :
  book_wf ab → m ∈ all_resting ab → levels_fit ab → 0 ≤ q < 2 ^ 31 →
  replay (book_depth ab) (Spec.modifyOrder ab m p q c).2 = Some (book_depth (Spec.modifyOrder ab m p q c).1.1).
Proof.
  intros Hwf Hin Hfit Hq. unfold Spec.modifyOrder.
  pose proof (removeFromBook_replay ab m Hwf Hin (levels_fit_side _ _ Hfit)) as Hrep.
  pose proof (removeFromBook_length ab m (own_side m) Hwf Hin) as Hlen.
  destruct (removeFromBook_inv ab m Hwf Hin) as [Hwf1 _].
  destruct (replace_ok _ _ p q c m (all_resting_ok _ _ Hwf Hin) Hq) as (Hok & _ & _ & _ & Es & _).
  set (m1 := Spec.replace p q c m) in *.
  assert (own_side m1 = own_side m) as Eo by (unfold own_side; by rewrite Es).
  destruct (Spec.removeFromBook ab m) as [ab1 ev]. cbn [fst snd] in *.
  pose proof (matchOrder_replay ab1 m1 Hwf1) as Hmr. pose proof (levels_fit_side _ (own_side m) Hfit).
  destruct (Spec.matchOrder ab1 m1) as [[ab2 m2] evs2] eqn:Em.
  pose proof (match_insert_replay _ _ _ _ _ Hwf1 Hok ltac:(rewrite Eo; lia) Em) as Hins.
  destruct (isFullyFilled m2); [|destruct (Spec.insertResting ab2 m2)]; cbn [fst snd] in *;
    rewrite replay_cons, Hrep; cbn [mbind option_bind]; by rewrite replay_skip.
Qed.

Lemma spec_cmd_replay h gb ab c :
  book_wf ab → cmd_pre h gb ab c → levels_fit ab →
  replay (book_depth ab) (spec_cmd h ab c).2 = Some (book_depth (spec_cmd h ab c).1).
Proof.
  intros Hwf Hpre Hfit. destruct c as [t|oid|oid p q cl]; simpl in *.
  - destruct Hpre as [o [Ho _ Hq _ _]]. rewrite Ho. apply spec_add_replay; [done|by destruct o|done].
  - destruct (find_order ab oid) as [m|] eqn:E; [|done]. apply find_order_elem in E as [? _].
    by apply spec_cancel_replay.
  - destruct (find_order ab oid) as [m|] eqn:E; [|done]. apply find_order_elem in E as [? _].
    by apply spec_modify_replay.
Qed.

(** ** Numbering *)

Lemma numbered_skip tid rpt tid' rpt' ev evs :
  trade_ids [ev] = [] → rpts [ev] = [] →
  numbered tid rpt tid' rpt' evs → numbered tid rpt tid' rpt' (ev :: evs) ∧ numbered tid rpt tid' rpt' (evs ++ [ev]).
Proof.
  intros Ht Hr [H1 H2]. change (ev :: evs) with ([ev] ++ evs). unfold numbered.
  by rewrite !trade_ids_app, !rpts_app, Ht, Hr, !app_nil_r.
Qed.

Lemma spec_cmd_numbered h ab c : ab_numbered ab (spec_cmd h ab c).1 (spec_cmd h ab c).2.
Proof.
  destruct c as [t|oid|oid p q cl]; cbn [spec_cmd]; cbv zeta.
  - destruct (h !! t) as [o|]; [|done]. set (t0 := unlink o). cbn [fst snd]. unfold Spec.addOrder.
    destruct (_ && _); [done|]. pose proof (matchOrder_numbered ab t0) as Hm.
    destruct (Spec.matchOrder ab t0) as [[ab1 t1] evs1].
    assert (ab_numbered ab ab1 (Spec.accepted t0 :: evs1)) as Ha by (by apply numbered_skip).
    unfold Spec.post_match. destruct (isFullyFilled t1); [done|].
    destruct (bool_decide _); [by apply numbered_skip|].
    destruct (order_type t1); try done; [by apply numbered_skip|].
    pose proof (insertResting_numbered ab1 t1) as Hi.
    destruct (Spec.insertResting ab1 t1) as [ab2 ev]. by eapply numbered_app.
  - destruct (find_order ab oid) as [m|]; [|done]. unfold Spec.cancelOrder.
    pose proof (removeFromBook_numbered ab m) as Hr. destruct (Spec.removeFromBook ab m) as [ab1 ev].
    cbn [fst snd] in *. apply (numbered_skip _ _ _ _ (OrderBookOps.OrderCancelled_of (set_status Canceled m)) [ev]); done.
  - destruct (find_order ab oid) as [m|]; [|done]. unfold Spec.modifyOrder.
    pose proof (removeFromBook_numbered ab m) as Hr. destruct (Spec.removeFromBook ab m) as [ab1 ev].
    set (m1 := Spec.replace p q cl m). pose proof (matchOrder_numbered ab1 m1) as Hm.
    destruct (Spec.matchOrder ab1 m1) as [[ab2 m2] evs2].
    pose proof (insertResting_numbered ab2 m2) as Hi.
    destruct (isFullyFilled m2); [|destruct (Spec.insertResting ab2 m2) as [ab3 ev3]];
      cbn [fst snd] in *; (eapply (numbered_app _ _ _ _ _ _ [ev]); [exact Hr|]);
      (eapply proj1, numbered_skip; [done|done|]); [done|by eapply numbered_app].
Qed.
