(* ===== verification/BookTheorems.v ===== *)
(** * Theorems about the order book

    The properties of [addOrder], [cancelOrder] and [modifyOrder] as they run
    over the heap, each with a run on a concrete book that meets its
    hypotheses: one resting sell of 10 at price 100 and incoming orders that
    trade with it. *)
From Stdlib Require Import Sorted.
From S2P Require Import Prelude Types OrderedMap Order PriceLevel OrderBook BookSpec BookWf BookRefine BookRefineOps BookInv BookCorrect BookPriority BookReplay BookCommands.
Import OrderBookOps.

(** ** A concrete book *)
Module Demo.

Definition maker : Order :=
  mkOrder 1 [] 7 42 Sell Limit Day (mkPrice 100) (mkPrice 0) 10 0 0 0 0 New 0 None None.
Definition buy (id : OrderId) (ty : OrderType) (tif : TimeInForce) (p q : Z) : Order :=
  mkOrder id [] 8 42 Buy ty tif (mkPrice p) (mkPrice 0) q 0 0 0 0 New 0 None None.

Definition h : heap :=
  {[ 1%positive := maker; 2%positive := buy 2 Limit Day 101 14; 3%positive := buy 3 Limit FOK 101 4;
     4%positive := buy 4 Market IOC 0 25 ]}.
Definition b : OrderBook :=
  mkBook 42 [] [(mkPrice 100, mkLevel (mkPrice 100) 10 1 (Some 1%positive) (Some 1%positive))]
    {[ 1 := 1%positive ]} 1 2.
Definition gb : gside * gside := ([], [(mkPrice 100, [(1%positive, maker)])]).
Definition ab : ABook := mkABook 42 [] [(mkPrice 100, [maker])] 1 2.

Lemma demo_repr : book_repr h b gb ab.
Proof.
  split; [done..|constructor| |done|done|apply NoDup_singleton|].
  - constructor; [|constructor]. split; [done|]. split; [done| | |done|done].
    + split; [done|done|apply NoDup_singleton|]. split; [|done]. by exists maker.
    + intros p m [= -> ->]%list_elem_of_singleton. done.
  - intros id p. cbn. split.
    + intros [<- <-]%lookup_singleton_Some. exists maker. split; [by left|done].
    + intros (m & [= -> ->]%list_elem_of_singleton & <-). done.
Qed.

Lemma demo_wf : book_wf ab.
Proof.
  split.
  - split; constructor.
  - split; [repeat constructor|]. constructor; [|constructor]. split; [done|].
    constructor; [|constructor]. split; unfold qty_ok, live_status; cbn; auto with lia.
  - apply NoDup_singleton.
  - intros k k' Hk. by apply elem_of_nil in Hk.
Qed.

Lemma demo_add_ready t o :
  h !! t = Some o → t ≠ 1%positive → order_id o ≠ 1 → qty_ok o → live o → add_pre h gb ab t o.
Proof.
  intros Ho Ht Hid Hq Hl. split; [done| |done|done|].
  - intros Hin. apply list_elem_of_singleton in Hin. done.
  - intros Hin. apply list_elem_of_singleton in Hin. done.
Qed.

Ltac ready := apply demo_add_ready; [reflexivity|done|done|unfold qty_ok; cbn; lia|intros _; by left].

Lemma demo_ready2 : add_pre h gb ab 2 (buy 2 Limit Day 101 14).
Proof. ready. Qed.
Lemma demo_ready3 : add_pre h gb ab 3 (buy 3 Limit FOK 101 4).
Proof. ready. Qed.
Lemma demo_ready4 : add_pre h gb ab 4 (buy 4 Market IOC 0 25).
Proof. ready. Qed.

End Demo.

(** ** Refinement, safety and the invariant *)

(** C1: every command on a represented, well-formed book returns (no invalid
    memory access, every matching loop ends within its bound), with exactly the
    events of the abstract price-time-priority book, and the resulting book
    represents the abstract result and is well formed again. *)
Theorem book_commands_refine_spec h b gb ab c :
  book_repr h b gb ab → book_wf ab → cmd_pre h gb ab c →
  ∃ h' b' gb', run_cmd h b c = Some (h', b', (spec_cmd h ab c).2) ∧
    book_repr h' b' gb' (spec_cmd h ab c).1 ∧ book_wf (spec_cmd h ab c).1.
Proof. apply cmd_refines. Qed.

Lemma book_commands_refine_spec_witness :
  ∃ h' b' gb', run_cmd Demo.h Demo.b (CmdAdd 2) = Some (h', b', (spec_cmd Demo.h Demo.ab (CmdAdd 2)).2) ∧
    book_repr h' b' gb' (spec_cmd Demo.h Demo.ab (CmdAdd 2)).1 ∧ book_wf (spec_cmd Demo.h Demo.ab (CmdAdd 2)).1.
Proof.
  apply (book_commands_refine_spec Demo.h Demo.b Demo.gb Demo.ab (CmdAdd 2) Demo.demo_repr Demo.demo_wf).
  exists (Demo.buy 2 Limit Day 101 14). exact Demo.demo_ready2.
Defined.

(** A run of [addOrder] with everything the theorems below need of it. *)
Record add_run (h : heap) (b : OrderBook) (gb : gside * gside) (ab : ABook) (t : Ptr) (o : Order)
    (h' : heap) (b' : OrderBook) (gb' : gside * gside) (o' : Order) (evs : list EngineEvent) : Prop := {
  ar_run : addOrder h b t = Some (h', b', evs);
  ar_repr : book_repr h' b' gb' (Spec.addOrder ab (unlink o)).1.1;
  ar_wf : book_wf (Spec.addOrder ab (unlink o)).1.1;
  ar_order : h' !! t = Some o';
  ar_unlink : unlink o' = (Spec.addOrder ab (unlink o)).1.2;
  ar_events : evs = (Spec.addOrder ab (unlink o)).2
}.

Lemma add_runs h b gb ab t o :
  book_repr h b gb ab → book_wf ab → add_pre h gb ab t o →
  ∃ h' b' gb' o' evs, add_run h b gb ab t o h' b' gb' o' evs.
Proof.
  intros Hb Hwf [Ho Ht Hq Hl Hf].
  destruct (addOrder_refines _ _ _ _ _ _ Hb Hwf Ho Ht Hq Hl Hf) as (rests & Hout & Hwf').
  destruct Hout as (h' & b' & gb' & o' & E & Hb' & Ho' & Hu & _).
  exists h', b', gb', o', (Spec.addOrder ab (unlink o)).2. by split.
Qed.

(** ** Trades *)

(** The limit test of an incoming order and the queue it faces. *)
Definition limit_reached (o : Order) (k : Price) : bool := Spec.limit_test o k (price o).
Definition facing (ab : ABook) (o : Order) : list (Price * Order) :=
  queue (Spec.reachable (limit_reached o) (alevels_of (Spec.opposite (side o)) ab)).

Lemma queue_price sd stop L k m : side_wf sd L → (k, m) ∈ queue (Spec.reachable stop L) → price m = k.
Proof.
  intros [_ HF] Hin. induction HF as [|[k' ms] L [_ Hms] HF IH]; simpl in Hin; [by apply elem_of_nil in Hin|].
  destruct (stop k'); [by apply elem_of_nil in Hin|]. rewrite queue_cons, elem_of_app in Hin.
  destruct Hin as [Hin|Hin]; [|auto]. apply list_elem_of_fmap in Hin as (m' & [= -> ->] & Hin).
  rewrite Forall_forall in Hms. by apply (Hms m').
Qed.

Lemma facing_open ab o : book_wf ab → Forall (λ e : Price * Order, 0 < remainingQty e.2) (facing ab o).
Proof.
  intros Hwf. rewrite Forall_forall. intros [k m] Hin.
  destruct (queue_reachable _ _ _ _ Hin) as (_ & Hm & _). simpl.
  eapply order_ok_rem, (all_resting_ok ab m Hwf). unfold all_resting.
  unfold alevels_of, Spec.opposite in Hm. apply elem_of_app. destruct (isBuy (side o)); simpl in Hm; auto.
Qed.

(** What is known of an order in the queue. *)
Lemma facing_spec ab o k m :
  book_wf ab → (k, m) ∈ facing ab o →
  m ∈ all_resting ab ∧ price m = k ∧ isBuy (side m) = negb (isBuy (side o)) ∧
  (order_type o ≠ Market →
    if isBuy (side o) then mantissa k ≤ mantissa (price o) else mantissa (price o) ≤ mantissa k).
Proof.
  intros Hwf Hin. set (sd := Spec.opposite (side o)).
  assert (side_wf sd (alevels_of sd ab)) as Hside
    by (apply side_wf_of; [done|]; unfold sd, Spec.opposite; destruct (isBuy (side o)); auto).
  destruct (queue_reachable _ _ _ _ Hin) as (Hstop & Hm & _). fold sd in Hm.
  assert (price m = k) as Hp by (by eapply queue_price).
  split_and!.
  - unfold all_resting, alevels_of in *. apply elem_of_app. destruct (isBuy sd); auto.
  - done.
  - destruct (resting_own_side _ _ _ Hside Hm) as [-> _]. unfold sd, Spec.opposite. by destruct (isBuy (side o)).
  - intros Hty. revert Hstop. unfold limit_reached, Spec.limit_test. rewrite decide_False by done.
    unfold Price_gt, Price_lt. destruct (isBuy (side o)); lia.
Qed.

Definition fok_rejected (ab : ABook) (o : Order) : bool :=
  bool_decide (time_in_force o = FOK) && negb (Spec.can_fill ab o).

Lemma post_match_fills ab t evs : fills (Spec.post_match ab t evs).2 = fills evs.
Proof.
  unfold Spec.post_match. destruct (isFullyFilled t); [done|].
  destruct (bool_decide _); [cbn [fst snd]; by rewrite fills_app, app_nil_r|].
  destruct (order_type t); try done; [cbn [fst snd]; by rewrite fills_app, app_nil_r|].
  unfold Spec.insertResting. cbn [fst snd]. by rewrite fills_app, app_nil_r.
Qed.

Lemma post_match_order ab t evs :
  filled_qty (Spec.post_match ab t evs).1.2 = filled_qty t ∧ quantity (Spec.post_match ab t evs).1.2 = quantity t.
Proof.
  unfold Spec.post_match. destruct (isFullyFilled t); [done|].
  destruct (bool_decide _); [by destruct t|]. destruct (order_type t) eqn:E; try done.
  by destruct t.
Qed.

Lemma spec_add_fills ab t :
  book_wf ab → qty_ok t →
  let evs := (Spec.addOrder ab t).2 in
  fills evs = (if fok_rejected ab t then [] else allocate (remainingQty t) (facing ab t)) ∧
  filled_qty (Spec.addOrder ab t).1.2 = filled_qty t + traded evs ∧
  quantity (Spec.addOrder ab t).1.2 = quantity t.
Proof.
  intros Hwf Hok. unfold Spec.addOrder. fold (fok_rejected ab t). destruct (fok_rejected ab t).
  { unfold traded. simpl. split_and!; [done|lia|done]. }
  pose proof (matchOrder_inv ab t Hwf Hok) as Hinv.
  set (sd := Spec.opposite (side t)) in *.
  assert (side_wf sd (alevels_of sd ab)) as Hside
    by (apply side_wf_of; [done|]; unfold sd, Spec.opposite; destruct (isBuy (side t)); auto).
  pose proof (match_levels_fills (a_security ab) sd (Spec.limit_test t) (a_trade_id ab) (a_rpt_seq ab) t
    (alevels_of sd ab) Hok Hside) as Hfl.
  pose proof (spec_matchOrder_side (a_security ab) (alevels_of sd ab) (alevels_of (Spec.opposite sd) ab)
    (a_trade_id ab) (a_rpt_seq ab) t) as Espec. cbv zeta in Espec. fold sd in Espec.
  rewrite <-abook_focus in Espec. rewrite Espec in Hinv |- *. clear Espec.
  destruct (Spec.match_levels _ _ _ _ _ _ _) as [[[[tid' rpt'] t'] L'] evs']. cbn [fst snd] in *.
  destruct Hinv as (_ & Hok' & Hid & _). destruct (identity_fields _ _ Hid) as (_ & _ & _ & _ & Eq & _).
  destruct Hfl as (Hf & Hr & _).
  unfold traded. rewrite !post_match_fills.
  destruct (post_match_order (mkASide sd (a_security ab) L' (alevels_of (Spec.opposite sd) ab) tid' rpt') t'
    (Spec.accepted t :: evs')) as [-> ->].
  cbn [fills Spec.accepted]. split_and!; [exact Hf| |done].
  fold (traded evs'). rewrite (rem_qty _ Hok), (rem_qty _ Hok') in Hr. lia.
Qed.

(** C2: the trades of [addOrder], in order, are exactly the price-time-priority
    allocation of the order's open quantity along the orders it can reach (best
    price first, oldest first, each order taken as far as possible), at the
    price of the resting order; a rejected fill-or-kill order trades nothing. *)
Theorem book_price_time_priority h b gb ab t o :
  book_repr h b gb ab → book_wf ab → add_pre h gb ab t o →
  ∃ h' b' evs, addOrder h b t = Some (h', b', evs) ∧
    fills evs = if fok_rejected ab o then [] else allocate (remainingQty o) (facing ab o).
Proof.
  intros Hb Hwf Hpre. destruct (add_runs _ _ _ _ _ _ Hb Hwf Hpre) as (h' & b' & gb' & o' & evs & [Hrun _ _ _ _ Hev]).
  exists h', b', evs. split; [done|]. rewrite Hev.
  assert (qty_ok (unlink o)) as Hok by (destruct Hpre as [_ _ Hq _ _]; by destruct o).
  destruct (spec_add_fills ab (unlink o) Hwf Hok) as (-> & _). by destruct o.
Qed.

Lemma book_price_time_priority_witness :
  ∃ h' b' evs, addOrder Demo.h Demo.b 2 = Some (h', b', evs) ∧ fills evs = [(1, mkPrice 100, 10)].
Proof.
  exact (book_price_time_priority _ _ _ _ _ _ Demo.demo_repr Demo.demo_wf Demo.demo_ready2).
Defined.

Lemma post_match_opposite ab t evs :
  alevels_of (Spec.opposite (side t)) (Spec.post_match ab t evs).1.1 = alevels_of (Spec.opposite (side t)) ab.
Proof.
  unfold Spec.post_match. destruct (isFullyFilled t); [done|]. case_bool_decide; [done|].
  destruct (order_type t); try done.
  unfold Spec.insertResting. cbn [fst snd]. destruct ab.
  unfold alevels_of, Spec.tick_rpt, set_alevels, Spec.opposite. by destruct (isBuy (side t)).
Qed.

Lemma spec_add_opposite ab t :
  book_wf ab → qty_ok t →
  zsum remainingQty (resting (alevels_of (Spec.opposite (side t)) (Spec.addOrder ab t).1.1)) =
  zsum remainingQty (resting (alevels_of (Spec.opposite (side t)) ab)) - traded (Spec.addOrder ab t).2.
Proof.
  intros Hwf Hok. unfold Spec.addOrder. destruct (_ && _); [unfold traded; simpl; lia|].
  pose proof (matchOrder_inv ab t Hwf Hok) as Hinv.
  set (sd := Spec.opposite (side t)) in *.
  assert (side_wf sd (alevels_of sd ab)) as Hside
    by (apply side_wf_of; [done|]; unfold sd, Spec.opposite; destruct (isBuy (side t)); auto).
  pose proof (match_levels_fills (a_security ab) sd (Spec.limit_test t) (a_trade_id ab) (a_rpt_seq ab) t
    (alevels_of sd ab) Hok Hside) as Hfl.
  pose proof (spec_matchOrder_side (a_security ab) (alevels_of sd ab) (alevels_of (Spec.opposite sd) ab)
    (a_trade_id ab) (a_rpt_seq ab) t) as Espec. cbv zeta in Espec. fold sd in Espec.
  rewrite <-abook_focus in Espec. rewrite Espec in Hinv |- *. clear Espec.
  destruct (Spec.match_levels _ _ _ _ _ _ _) as [[[[tid' rpt'] t'] L'] evs']. cbn [fst snd] in *.
  destruct Hinv as (_ & _ & Hid & _). destruct (identity_fields _ _ Hid) as (_ & Es & _).
  unfold traded. rewrite post_match_fills. cbn [fills Spec.accepted]. fold (traded evs').
  assert (sd = Spec.opposite (side t')) as Esd by (unfold sd; by rewrite Es).
  rewrite Esd, post_match_opposite, <-Esd, alevels_mkASide. apply Hfl.
Qed.

(** C6: quantity is conserved. What [addOrder] reports as traded is positive in
    every trade, is at most the order's open quantity, is exactly what the
    order's filled quantity grew by, and exactly what the open quantity resting
    on the opposite side shrank by. *)
Theorem book_quantity_conserved h b gb ab t o :
  book_repr h b gb ab → book_wf ab → add_pre h gb ab t o →
  ∃ h' b' gb' ab' o' evs, addOrder h b t = Some (h', b', evs) ∧ book_repr h' b' gb' ab' ∧ h' !! t = Some o' ∧
    filled_qty o' = filled_qty o + traded evs ∧ quantity o' = quantity o ∧
    0 ≤ traded evs ≤ Z.max 0 (remainingQty o) ∧ Forall (λ f, 0 < f.2) (fills evs) ∧
    zsum remainingQty (resting (alevels_of (Spec.opposite (side o)) ab')) =
      zsum remainingQty (resting (alevels_of (Spec.opposite (side o)) ab)) - traded evs.
Proof.
  intros Hb Hwf Hpre. destruct (add_runs _ _ _ _ _ _ Hb Hwf Hpre) as (h' & b' & gb' & o' & evs & [Hrun Hrep _ Ho' Hu Hev]).
  assert (qty_ok (unlink o)) as Hok by (destruct Hpre as [_ _ Hq _ _]; by destruct o).
  destruct (spec_add_fills ab (unlink o) Hwf Hok) as (Hf & Hfill & Hqty).
  pose proof (spec_add_opposite ab (unlink o) Hwf Hok) as Hopp. rewrite <-Hev, <-?Hu in *.
  rewrite remaining_unlink in Hf.
  assert (side (unlink o) = side o ∧ filled_qty (unlink o) = filled_qty o ∧ quantity (unlink o) = quantity o ∧
    filled_qty (unlink o') = filled_qty o' ∧ quantity (unlink o') = quantity o') as (E1 & E2 & E3 & E4 & E5)
    by (by destruct o, o').
  rewrite E1 in Hopp. rewrite E4, E2 in Hfill. rewrite E5, E3 in Hqty.
  assert (0 ≤ traded evs ≤ Z.max 0 (remainingQty o) ∧ Forall (λ f, 0 < f.2) (fills evs)) as [? ?].
  { unfold traded. rewrite Hf. destruct (fok_rejected _ _); [split; [simpl; lia|constructor]|].
    pose proof (facing_open ab (unlink o) Hwf) as Hpos.
    destruct (decide (0 ≤ remainingQty o)) as [Hnn|Hneg].
    - destruct (allocate_bounds _ _ Hnn Hpos) as [? ?]. split; [lia|done].
    - rewrite allocate_done by lia. split; [simpl; lia|constructor]. }
  exists h', b', gb', (Spec.addOrder ab (unlink o)).1.1, o', evs. split_and!; done || lia.
Qed.

Lemma book_quantity_conserved_witness :
  ∃ h' b' gb' ab' o' evs, addOrder Demo.h Demo.b 2 = Some (h', b', evs) ∧ book_repr h' b' gb' ab' ∧ h' !! 2%positive = Some o' ∧
    filled_qty o' = 0 + traded evs ∧ quantity o' = 14 ∧
    0 ≤ traded evs ≤ 14 ∧ Forall (λ f, 0 < f.2) (fills evs) ∧
    zsum remainingQty (resting (alevels_of Sell ab')) = 10 - traded evs.
Proof.
  exact (book_quantity_conserved _ _ _ _ _ _ Demo.demo_repr Demo.demo_wf Demo.demo_ready2).
Defined.

(** C7: an incoming order never leaves the book crossed or locked: when both
    sides are non-empty after [addOrder], the best bid is below the best ask. *)
Theorem book_never_crossed h b gb ab t o :
  book_repr h b gb ab → book_wf ab → add_pre h gb ab t o →
  ∃ h' b' evs, addOrder h b t = Some (h', b', evs) ∧
    (bid_levels_ b' ≠ [] → ask_levels_ b' ≠ [] → mantissa (bestBid b') < mantissa (bestAsk b')).
Proof.
  intros Hb Hwf Hpre.
  destruct (add_runs _ _ _ _ _ _ Hb Hwf Hpre) as (h' & b' & gb' & o' & evs & [Hrun Hrep Hwf' _ _ _]).
  exists h', b', evs. split; [done|]. intros Hbid Hask. set (ab' := (Spec.addOrder ab (unlink o)).1.1) in *.
  pose proof (wf_uncrossed _ Hwf') as Hu. destruct Hrep as [_ _ _ Hl1 Hl2 E1 E2 _ _].
  rewrite E1, E2 in Hu. unfold uncrossed in Hu.
  rewrite (levels_repr_keys _ _ _ Hl1), (levels_repr_keys _ _ _ Hl2) in Hu.
  unfold bestBid, bestAsk. destruct (bid_levels_ b') as [|[k lv] M]; [done|].
  destruct (ask_levels_ b') as [|[k' lv'] M']; [done|]. apply Hu; by left.
Qed.

Lemma book_never_crossed_witness :
  ∃ h' b' evs, addOrder Demo.h Demo.b 2 = Some (h', b', evs) ∧
    (bid_levels_ b' ≠ [] → ask_levels_ b' ≠ [] → mantissa (bestBid b') < mantissa (bestAsk b')).
Proof.
  exact (book_never_crossed _ _ _ _ _ _ Demo.demo_repr Demo.demo_wf Demo.demo_ready2).
Defined.

(** No trade is worse than the limit. Every trade of a limit buy is at or
    below its price, of a limit sell at or above, and is with an order resting
    on the opposite side at exactly the traded price, for no more than that
    order's open quantity. *)
Theorem book_trades_within_limit h b gb ab t o :
  book_repr h b gb ab → book_wf ab → add_pre h gb ab t o →
  ∃ h' b' evs, addOrder h b t = Some (h', b', evs) ∧
    Forall (λ f, ∃ m, m ∈ all_resting ab ∧ order_id m = f.1.1 ∧ price m = f.1.2 ∧ f.2 ≤ remainingQty m ∧
      isBuy (side m) = negb (isBuy (side o)) ∧
      (order_type o ≠ Market →
        if isBuy (side o) then mantissa f.1.2 ≤ mantissa (price o) else mantissa (price o) ≤ mantissa f.1.2))
      (fills evs).
Proof.
  intros Hb Hwf Hpre.
  destruct (add_runs _ _ _ _ _ _ Hb Hwf Hpre) as (h' & b' & gb' & o' & evs & [Hrun _ _ _ _ Hev]).
  exists h', b', evs. split; [done|]. rewrite Hev.
  assert (qty_ok (unlink o)) as Hok by (destruct Hpre as [_ _ Hq _ _]; by destruct o).
  destruct (spec_add_fills ab (unlink o) Hwf Hok) as (-> & _ & _).
  destruct (fok_rejected _ _); [constructor|]. rewrite Forall_forall. intros f Hf.
  destruct (allocate_in _ _ _ Hf) as (m & Hin & Hid & Hq). destruct (facing_spec _ _ _ _ Hwf Hin) as (Hm & Hp & Hs & Hl).
  assert (side (unlink o) = side o ∧ price (unlink o) = price o ∧ order_type (unlink o) = order_type o) as (E1 & E2 & E3)
    by (by destruct o).
  rewrite E1, E2, E3 in *. exists m. split_and!; done.
Qed.

Lemma book_trades_within_limit_witness :
  ∃ h' b' evs, addOrder Demo.h Demo.b 2 = Some (h', b', evs) ∧
    Forall (λ f, ∃ m, m ∈ all_resting Demo.ab ∧ order_id m = f.1.1 ∧ price m = f.1.2 ∧ f.2 ≤ remainingQty m ∧
      isBuy (side m) = false ∧ (Limit ≠ Market → mantissa f.1.2 ≤ 101)) (fills evs).
Proof.
  exact (book_trades_within_limit _ _ _ _ _ _ Demo.demo_repr Demo.demo_wf Demo.demo_ready2).
Defined.

(** ** Time in force *)

Lemma fok_test_exact ab o :
  book_wf ab → qty_ok o → order_type o = Limit ∨ order_type o = Market →
  totals_fit (alevels_of (Spec.opposite (side o)) ab) →
  Spec.can_fill ab o =
    (quantity o <=? zsum remainingQty (resting (Spec.reachable (limit_reached o) (alevels_of (Spec.opposite (side o)) ab)))).
Proof.
  intros Hwf [_ Hq] Hty Hfit. set (sd := Spec.opposite (side o)) in *.
  assert (side_wf sd (alevels_of sd ab)) as Hside
    by (apply side_wf_of; [done|]; unfold sd, Spec.opposite; destruct (isBuy (side o)); auto).
  unfold Spec.can_fill. fold sd.
  assert (∀ L, Spec.reachable (λ p, bool_decide (order_type o = Limit) &&
    (if isBuy (side o) then Price_gt p (price o) else Price_lt p (price o))) L =
    Spec.reachable (limit_reached o) L) as ->.
  { intros L. induction L as [|[k ms] L IH]; [done|]. simpl. rewrite IH.
    unfold limit_reached, Spec.limit_test. destruct Hty as [E|E]; rewrite E; simpl; by destruct (isBuy (side o)). }
  apply (covers_spec sd); [by apply reachable_wf| |lia].
  clear -Hfit. induction Hfit as [|[k ms] L Hk HF IH]; simpl; [constructor|].
  destruct (limit_reached o k); by constructor.
Qed.

(** C8: fill-or-kill is all or nothing for limit and market orders: either the
    order is rejected and neither the heap nor the book changes, or it trades
    exactly its quantity. (Level totals must fit their 32-bit counters.) *)
Theorem book_fok_all_or_none h b gb ab t o :
  book_repr h b gb ab → book_wf ab → add_pre h gb ab t o →
  time_in_force o = FOK → order_type o = Limit ∨ order_type o = Market → filled_qty o = 0 →
  totals_fit (alevels_of (Spec.opposite (side o)) ab) →
  ∃ h' b' o' evs, addOrder h b t = Some (h', b', evs) ∧ h' !! t = Some o' ∧
    ((h' = h ∧ b' = b ∧
      evs = [OrderRejected (cl_ord_id o) (session_uuid o) "FOK order cannot be fully filled" 0]) ∨
     (traded evs = quantity o ∧ isFullyFilled o' = true)).
Proof.
  intros Hb Hwf Hpre Htif Hty Hfill Hfit. pose proof Hpre as [Ho _ Hq _ _].
  assert (qty_ok (unlink o)) as Hok by (by destruct o).
  pose proof (fok_test_exact ab o Hwf Hq Hty Hfit) as Hex.
  assert (fok_rejected ab (unlink o) = negb (Spec.can_fill ab o)) as Er
    by (unfold fok_rejected; destruct o; cbn in *; by rewrite bool_decide_true).
  destruct (Spec.can_fill ab o) eqn:Ecan.
  - destruct (add_runs _ _ _ _ _ _ Hb Hwf Hpre) as (h' & b' & gb' & o' & evs & [Hrun _ _ Ho' Hu Hev]).
    destruct (spec_add_fills ab (unlink o) Hwf Hok) as (Hf & Hfl & Hqt). rewrite <-Hev, Er in *. cbn [negb] in Hf.
    exists h', b', o', evs. split_and!; [done|done|]. right.
    assert (traded evs = quantity o) as Htr.
    { unfold traded. rewrite Hf, remaining_unlink, (rem_qty _ Hq), Hfill, Z.sub_0_r.
      assert (facing ab (unlink o) = facing ab o) as -> by (by destruct o).
      apply allocate_all; [apply Hq|by apply facing_open|]. unfold facing. rewrite queue_total. lia. }
    split; [done|]. rewrite <-Hu in *. rewrite Htr in Hfl. unfold isFullyFilled.
    destruct o, o'; cbn in *. lia.
  - exists h, b, o, [OrderRejected (cl_ord_id o) (session_uuid o) "FOK order cannot be fully filled" 0].
    split_and!; [|done|by left].
    unfold addOrder. rewrite Ho. cbn [mbind option_bind]. rewrite decide_True by done.
    rewrite (canFillFOK_refines _ _ _ _ _ _ Hb Ho).
    assert (Spec.can_fill ab (unlink o) = Spec.can_fill ab o) as -> by (by destruct o). by rewrite Ecan.
Qed.

Lemma book_fok_all_or_none_witness :
  ∃ h' b' o' evs, addOrder Demo.h Demo.b 3 = Some (h', b', evs) ∧ h' !! 3%positive = Some o' ∧
    ((h' = Demo.h ∧ b' = Demo.b ∧ evs = [OrderRejected [] 8 "FOK order cannot be fully filled" 0]) ∨
     (traded evs = 4 ∧ isFullyFilled o' = true)).
Proof.
  apply (book_fok_all_or_none _ _ _ _ _ _ Demo.demo_repr Demo.demo_wf Demo.demo_ready3);
    [reflexivity|by left|reflexivity|]. constructor; [vm_compute; reflexivity|constructor].
Defined.

Lemma spec_add_immediate ab t :
  book_wf ab → qty_ok t →
  time_in_force t = IOC ∨ time_in_force t = FOK ∨ order_type t = Market →
  let r := Spec.addOrder ab t in
  (∀ i, i ∈ order_id <$> all_resting r.1.1 → i ∈ order_id <$> all_resting ab) ∧
  (fok_rejected ab t = false → isFullyFilled r.1.2 = false →
    status r.1.2 = Canceled ∧ last r.2 = Some (OrderCancelled_of r.1.2)).
Proof.
  intros Hwf Hok Himm. cbv zeta. unfold Spec.addOrder. fold (fok_rejected ab t).
  destruct (fok_rejected ab t); [done|].
  pose proof (matchOrder_inv ab t Hwf Hok) as Hinv.
  destruct (Spec.matchOrder ab t) as [[ab1 t1] evs1]. destruct Hinv as (_ & _ & Hid & Hsub & _).
  destruct (identity_fields _ _ Hid) as (_ & _ & _ & Ety & _ & Etif & _).
  unfold Spec.post_match. destruct (isFullyFilled t1) eqn:Ef; [cbn [fst snd]; by rewrite Ef|].
  case_bool_decide as Ht.
  - cbn [fst snd]. split; [done|]. intros _ _. rewrite last_snoc. by destruct t1.
  - assert (order_type t1 = Market) as -> by (rewrite Ety; rewrite Etif in Ht; tauto).
    cbn [fst snd]. split; [done|]. intros _ _. rewrite last_snoc. by destruct t1.
Qed.

(** Immediate orders never rest: after [addOrder] of an IOC, FOK or market
    order no book entry has its id, and unless it was rejected or filled it is
    Canceled and the last event reports its cancellation with the quantity that
    did trade. *)
Theorem book_immediate_never_rests h b gb ab t o :
  book_repr h b gb ab → book_wf ab → add_pre h gb ab t o →
  time_in_force o = IOC ∨ time_in_force o = FOK ∨ order_type o = Market →
  ∃ h' b' o' evs, addOrder h b t = Some (h', b', evs) ∧ h' !! t = Some o' ∧
    orders_by_id_ b' !! order_id o = None ∧
    (fok_rejected ab o = true ∨ isFullyFilled o' = true ∨
     (status o' = Canceled ∧ last evs = Some (OrderCancelled_of o'))).
Proof.
  intros Hb Hwf Hpre Himm. pose proof Hpre as [Ho _ Hq _ Hfresh].
  destruct (add_runs _ _ _ _ _ _ Hb Hwf Hpre) as (h' & b' & gb' & o' & evs & [Hrun Hrep _ Ho' Hu Hev]).
  assert (qty_ok (unlink o)) as Hok by (by destruct o).
  destruct (spec_add_immediate ab (unlink o) Hwf Hok ltac:(by destruct o)) as [Hsub Hkill].
  rewrite <-Hev, <-Hu in Hkill.
  exists h', b', o', evs. split_and!; [done|done| |].
  - pose proof (ids_lookup _ _ _ _ (order_id o) Hrep) as Hl.
    destruct (orders_by_id_ b' !! order_id o) as [q|]; [|done].
    destruct Hl as (m & _ & Hm & Hid). exfalso. apply Hfresh, Hsub. rewrite <-Hid. by apply list_elem_of_fmap_2.
  - assert (fok_rejected ab (unlink o) = fok_rejected ab o) as Ef by (by destruct o).
    rewrite Ef, filled_unlink in Hkill.
    destruct (fok_rejected ab o); [by left|]. destruct (isFullyFilled o') eqn:E; [by right; left|].
    right; right. destruct (Hkill eq_refl eq_refl) as [Hs Hlast]. by destruct o'.
Qed.

Lemma book_immediate_never_rests_witness :
  ∃ h' b' o' evs, addOrder Demo.h Demo.b 4 = Some (h', b', evs) ∧ h' !! 4%positive = Some o' ∧
    orders_by_id_ b' !! 4 = None ∧
    (fok_rejected Demo.ab (Demo.buy 4 Market IOC 0 25) = true ∨ isFullyFilled o' = true ∨
     (status o' = Canceled ∧ last evs = Some (OrderCancelled_of o'))).
Proof.
  apply (book_immediate_never_rests _ _ _ _ _ _ Demo.demo_repr Demo.demo_wf Demo.demo_ready4). by left.
Defined.

(** ** Cancel and modify *)

Lemma remove_id_absent i ms : (i ∉ order_id <$> ms) → Spec.remove_id i ms = ms.
Proof.
  unfold Spec.remove_id. induction ms as [|m ms IH]; [done|]. csimpl. intros [Hm Hms]%not_elem_of_cons.
  rewrite filter_cons_True by auto. by rewrite IH.
Qed.

(** A side without one order: every level keeps its other orders in their order,
    and a level that has no other goes. *)
Definition without (oid : OrderId) (L : alevels) : alevels :=
  filter (λ e, e.2 ≠ []) ((λ e, (e.1, filter (λ o, order_id o ≠ oid) e.2)) <$> L).

(** What market data is told about a price of a side: the orders there now, the
    number of better levels, the report number. *)
Definition level_report (ab ab' : ABook) (sd : Side) (p : Price) : EngineEvent :=
  let index := i32 (1 + Z.of_nat (length (filter (λ k, better sd k p = true) (alevels_of sd ab).*1))) in
  match Spec.at_price p (alevels_of sd ab') with
  | [] => BookUpdate (a_security ab) sd p 0 0 MD_Delete index (a_rpt_seq ab)
  | ms => BookUpdate (a_security ab) sd p (i32 (zsum remainingQty ms)) (i32 (Z.of_nat (length ms))) MD_Change index (a_rpt_seq ab)
  end.

Lemma without_cons oid k ms L :
  without oid ((k, ms) :: L) = match Spec.remove_id oid ms with [] => without oid L | ms' => (k, ms') :: without oid L end.
Proof. unfold without. csimpl. rewrite filter_cons. fold (Spec.remove_id oid ms). by destruct (Spec.remove_id oid ms); case_decide. Qed.

Lemma without_absent sd oid L : side_wf sd L → (oid ∉ order_id <$> resting L) → without oid L = L.
Proof.
  induction L as [|[k ms] L IH]; [done|]. intros (Hne & _ & _ & Hwf)%side_wf_cons Hni.
  rewrite resting_cons, fmap_app, not_elem_of_app in Hni. destruct Hni. rewrite without_cons, remove_id_absent, IH by done. by destruct ms.
Qed.

Lemma remove_level_without sd m L :
  side_wf sd L → NoDup (order_id <$> resting L) → m ∈ resting L →
  Spec.remove_level (price m) (order_id m) L = without (order_id m) L.
Proof.
  intros Hwf Hnd Hin. induction L as [|[k ms] L IH]; [by apply elem_of_nil in Hin|].
  apply side_wf_cons in Hwf as (Hne & HF & Hlt & Hwf). rewrite resting_cons, fmap_app in Hnd.
  apply NoDup_app in Hnd as (Hnd1 & Hdis & Hnd2). rewrite resting_cons, elem_of_app in Hin.
  cbn [Spec.remove_level]. rewrite without_cons. destruct Hin as [Hin|Hin].
  - rewrite decide_True by (rewrite Forall_forall in HF; symmetry; by eapply ok_price, HF).
    by rewrite (without_absent sd) by (done || (apply Hdis; by apply list_elem_of_fmap_2)).
  - rewrite decide_False.
    2:{ intros ->. apply (resting_own_side _ _ _ Hwf) in Hin as [_ Hk].
        apply list_elem_of_fmap in Hk as (e & Ee & He). rewrite Forall_forall in Hlt. specialize (Hlt e He).
        by rewrite Ee, cmp_irrefl in Hlt. }
    rewrite remove_id_absent, IH by (done || (intros Hm; apply (Hdis _ Hm); by apply list_elem_of_fmap_2)). by destruct ms.
Qed.

Lemma level_index_count sd p L : sorted_keys (better sd) L.*1 →
  Spec.level_index (better sd) p L = 1 + Z.of_nat (length (filter (λ k, better sd k p = true) L.*1)).
Proof.
  induction L as [|[k ms] L IH]; [done|]. csimpl. intros [Hs Hk]%StronglySorted_inv. rewrite filter_cons.
  destruct (better sd k p) eqn:E; [rewrite IH by done; csimpl; lia|].
  assert (filter (λ k, better sd k p = true) L.*1 = []) as ->; [|done]. clear -E Hk. induction Hk as [|k' l Hk _ IH]; [done|].
  rewrite filter_cons, decide_False; [done|]. intros E'. by rewrite (cmp_trans _ _ _ Hk E') in E.
Qed.

Lemma insert_at_price sd o L :
  side_wf sd L → Spec.at_price (price o) (Spec.insert_level (better sd) o L) = Spec.at_price (price o) L ++ [o].
Proof.
  intros Hwf. destruct (side_split sd (price o) L (sw_sorted _ _ Hwf)) as [(L1 & ms & L2 & -> & HF)|(L1 & L2 & -> & HF1 & HF2)].
  - rewrite insert_level_skip, insert_level_hit by (apply _ || done).
    by rewrite !(at_price_skip (better sd)), !at_price_head.
  - rewrite insert_level_skip, (insert_level_miss (better sd)) by done.
    by rewrite !(at_price_skip (better sd)), at_price_head, (at_price_absent (better sd)).
Qed.

Lemma at_price_cons k p ms L : Spec.at_price p ((k, ms) :: L) = if decide (k = p) then ms else Spec.at_price p L.
Proof.
  unfold Spec.at_price. simpl. case_decide; [done|]. by destruct (list_find _ L) as [[? [? ?]]|].
Qed.

Lemma at_price_gone sd k p L : Forall (λ e, better sd k e.1 = true) L → k = p → Spec.at_price p L = [].
Proof. intros HF <-. by apply (at_price_absent (better sd)). Qed.

Lemma at_price_resting p L m : m ∈ Spec.at_price p L → m ∈ resting L.
Proof.
  induction L as [|[k ms] L IH]; [done|]. rewrite at_price_cons, resting_cons, elem_of_app. case_decide; auto.
Qed.

Lemma remove_level_at_price sd m p L :
  side_wf sd L → NoDup (order_id <$> resting L) → m ∈ resting L →
  Spec.at_price p (Spec.remove_level (price m) (order_id m) L) = Spec.remove_id (order_id m) (Spec.at_price p L).
Proof.
  intros Hwf Hnd Hin. induction L as [|[k ms] L IH]; [by apply elem_of_nil in Hin|].
  apply side_wf_cons in Hwf as (Hne & HF & Hlt & Hwf). rewrite resting_cons, fmap_app in Hnd.
  apply NoDup_app in Hnd as (Hnd1 & Hdis & Hnd2). rewrite resting_cons, elem_of_app in Hin.
  cbn [Spec.remove_level]. rewrite (at_price_cons k p ms).
  assert (∀ i, (i ∉ order_id <$> resting L) → Spec.remove_id i (Spec.at_price p L) = Spec.at_price p L) as Habs.
  { intros i Hi. apply remove_id_absent. intros (x & -> & Hx)%list_elem_of_fmap. apply Hi.
    by apply list_elem_of_fmap_2, (at_price_resting p). }
  destruct Hin as [Hin|Hin].
  - rewrite decide_True by (rewrite Forall_forall in HF; symmetry; by eapply ok_price, HF).
    assert (order_id m ∉ order_id <$> resting L) as Hm by (apply Hdis; by apply list_elem_of_fmap_2).
    destruct (Spec.remove_id (order_id m) ms) as [|x ms'] eqn:E.
    + case_decide as Hk; [by rewrite E, (at_price_gone sd k p)|by rewrite Habs].
    + rewrite at_price_cons. case_decide; [done|by rewrite Habs].
  - rewrite decide_False.
    2:{ intros ->. apply (resting_own_side _ _ _ Hwf) in Hin as [_ Hk].
        apply list_elem_of_fmap in Hk as (e & Ee & He). rewrite Forall_forall in Hlt. specialize (Hlt e He).
        by rewrite Ee, cmp_irrefl in Hlt. }
    rewrite at_price_cons. case_decide; [|by apply IH].
    rewrite remove_id_absent; [done|]. intros Hm. apply (Hdis _ Hm). by apply list_elem_of_fmap_2.
Qed.

(** What removing an order leaves at a price. *)
Lemma remove_at_price ab m p :
  book_wf ab → m ∈ all_resting ab →
  Spec.at_price p (alevels_of (own_side m) (Spec.removeFromBook ab m).1) =
    Spec.remove_id (order_id m) (Spec.at_price p (alevels_of (own_side m) ab)).
Proof.
  intros Hwf Hin. set (sd := own_side m). pose proof (wf_ids _ Hwf) as Hnd.
  rewrite (abook_focus sd ab) in Hwf, Hin, Hnd |- *.
  rewrite (spec_removeFromBook_side _ _ _ _ _ m). cbn [fst snd]. fold sd. rewrite !alevels_mkASide.
  apply book_wf_mkASide in Hwf as (HwL & HwLo & _).
  set (L := alevels_of sd ab) in *. set (Lo := alevels_of (Spec.opposite sd) ab) in *.
  rewrite all_resting_mkASide in Hin, Hnd. rewrite fmap_app in Hnd. apply NoDup_app in Hnd as (Hnd & _ & _).
  apply elem_of_app in Hin as [Hin|Hin].
  2:{ apply (resting_own_side _ _ _ HwLo) in Hin as [E _]. revert E.
      unfold sd, own_side, Spec.opposite. by destruct (isBuy (side m)). }
  by apply (remove_level_at_price sd).
Qed.

(** Taking a resting order out of a book, side by side, and its report. *)
Lemma removeFromBook_exact ab m :
  book_wf ab → m ∈ all_resting ab →
  let r := Spec.removeFromBook ab m in
  (∀ sd, alevels_of sd r.1 = without (order_id m) (alevels_of sd ab)) ∧ r.2 = level_report ab r.1 (own_side m) (price m).
Proof.
  intros Hwf Hin. set (sd := own_side m). pose proof (remove_at_price ab m (price m) Hwf Hin) as Hat. fold sd in Hat.
  cbv zeta. unfold level_report. rewrite Hat.
  pose proof (wf_ids _ Hwf) as Hnd.
  rewrite (abook_focus sd ab) in Hwf, Hin, Hnd |- *.
  rewrite (spec_removeFromBook_side _ _ _ _ _ m). cbn [fst snd]. fold sd. rewrite !alevels_mkASide.
  destruct (mkASide_fields sd (a_security ab) (alevels_of sd ab) (alevels_of (Spec.opposite sd) ab) (a_trade_id ab) (a_rpt_seq ab)) as [-> ->].
  apply book_wf_mkASide in Hwf as (HwL & HwLo & _).
  set (L := alevels_of sd ab) in *. set (Lo := alevels_of (Spec.opposite sd) ab) in *.
  rewrite all_resting_mkASide in Hin, Hnd. rewrite fmap_app in Hnd. apply NoDup_app in Hnd as (Hnd & Hdis & _).
  apply elem_of_app in Hin as [Hin|Hin].
  2:{ apply (resting_own_side _ _ _ HwLo) in Hin as [E _]. revert E.
      unfold sd, own_side, Spec.opposite. by destruct (isBuy (side m)). }
  split.
  - intros sd'. unfold alevels_of, mkASide. pose proof (remove_level_without sd m L HwL Hnd Hin) as ER.
    assert (without (order_id m) Lo = Lo) as EL by (apply (without_absent (Spec.opposite sd)); [done|apply Hdis; by apply list_elem_of_fmap_2]).
    destruct (isBuy sd), (isBuy sd'); cbn; rewrite ?EL, ?ER; done.
  - rewrite level_index_count by apply HwL. unfold Spec.level_update.
    replace (i32 (1 + _)) with (i32 (1 + Z.of_nat (length (filter (λ k, better sd k (price m) = true) L.*1)))) by done.
    by destruct (Spec.remove_id _ _).
Qed.

(** C9: cancelling an order that rests takes exactly that order out: on both sides
    every level keeps its other orders, unchanged and in their order, and only a
    level without other orders goes. The order is marked Canceled; the events are
    one update of its price level (what is left there, its index, the next report
    number) and the cancellation; its id is forgotten. Cancelling an unknown id
    changes nothing and is answered with a rejection addressed to session 0. *)
Theorem book_cancel_exact h b gb ab oid :
  book_repr h b gb ab → book_wf ab →
  match orders_by_id_ b !! oid with
  | Some t => ∃ m h' b' gb' ab' o', m ∈ all_resting ab ∧ order_id m = oid ∧
      cancelOrder h b oid = Some (h', b', [level_report ab ab' (own_side m) (price m); OrderCancelled_of o']) ∧
      book_repr h' b' gb' ab' ∧ book_wf ab' ∧ (∀ sd, alevels_of sd ab' = without oid (alevels_of sd ab)) ∧
      h' !! t = Some o' ∧ unlink o' = set_status Canceled m ∧ orders_by_id_ b' !! oid = None
  | None => (oid ∉ order_id <$> all_resting ab) ∧
      cancelOrder h b oid = Some (h, b, [OrderCancelRejected oid [] 0 0 "Order not found"])
  end.
Proof.
  intros Hb Hwf. pose proof (cancelOrder_refines _ _ _ _ oid Hb Hwf) as Hc.
  destruct (orders_by_id_ b !! oid) as [t|]; [|done].
  destruct Hc as (m & Hin & Hr & Hid & (h' & b' & gb' & o' & E & Hb' & Ho' & Hu & _) & Hwf').
  destruct (removeFromBook_inv ab m Hwf Hr) as [_ Hperm]. destruct (removeFromBook_exact ab m Hwf Hr) as [Hlv Hev].
  unfold Spec.cancelOrder in *. destruct (Spec.removeFromBook ab m) as [ab' ev]. cbn [fst snd app] in *. subst ev.
  assert (OrderCancelled_of (set_status Canceled m) = OrderCancelled_of o') as Eo by (rewrite <-Hu; by destruct o').
  rewrite Eo in E. exists m, h', b', gb', ab', o'. rewrite <-Hid. split_and!; try done; [by rewrite Hid|].
  pose proof (ids_lookup _ _ _ _ (order_id m) Hb') as Hl. destruct (orders_by_id_ b' !! order_id m) as [q|]; [|done].
  destruct Hl as (m' & _ & Hm' & Hid'). exfalso.
  pose proof (wf_ids _ Hwf) as Hnd. rewrite Hperm in Hnd. csimpl in Hnd. apply NoDup_cons in Hnd as [Hni _].
  apply Hni. rewrite <-Hid'. by apply list_elem_of_fmap_2.
Qed.

Lemma book_cancel_exact_witness :
  ∃ m h' b' gb' ab' o', m ∈ all_resting Demo.ab ∧ order_id m = 1 ∧
    cancelOrder Demo.h Demo.b 1 = Some (h', b', [level_report Demo.ab ab' (own_side m) (price m); OrderCancelled_of o']) ∧
    book_repr h' b' gb' ab' ∧ book_wf ab' ∧ (∀ sd, alevels_of sd ab' = without 1 (alevels_of sd Demo.ab)) ∧
    h' !! 1%positive = Some o' ∧ unlink o' = set_status Canceled m ∧ orders_by_id_ b' !! 1 = None.
Proof. exact (book_cancel_exact _ _ _ _ 1 Demo.demo_repr Demo.demo_wf). Defined.

(** C10: a modified order keeps its id, gets the new price and quantity, and
    loses its time priority: unless the re-match fills it, it goes to the back of the level of its new price, behind every order
    that was already there, even when price and quantity are unchanged. *)
Theorem book_modify_requeues h b gb ab oid t p q c :
  book_repr h b gb ab → book_wf ab → 0 ≤ q < 2 ^ 31 → orders_by_id_ b !! oid = Some t →
  ∃ m h' b' gb' ab' o' evs, m ∈ all_resting ab ∧ order_id m = oid ∧
    modifyOrder h b oid p q c = Some (h', b', evs) ∧ book_repr h' b' gb' ab' ∧ book_wf ab' ∧
    h' !! t = Some o' ∧ order_id o' = oid ∧ price o' = p ∧ quantity o' = q ∧
    (isFullyFilled o' = false →
      Spec.at_price p (alevels_of (own_side m) ab') =
        Spec.remove_id oid (Spec.at_price p (alevels_of (own_side m) ab)) ++ [unlink o']).
Proof.
  intros Hb Hwf Hq Ht. pose proof (modifyOrder_refines _ _ _ _ oid p q c Hb Hwf Hq) as Hc. rewrite Ht in Hc.
  destruct Hc as (m & Hin & Hr & Hid & (rests & (h' & b' & gb' & o' & E & Hb' & Ho' & Hu & _)) & Hwf').
  exists m, h', b', gb', (Spec.modifyOrder ab m p q c).1.1, o', (Spec.modifyOrder ab m p q c).2.
  cbn [app] in E. do 5 (split; [done|]). split; [done|].
  destruct (replace_ok _ _ p q c m (all_resting_ok _ _ Hwf Hr) Hq) as (Hok & Hlive & Hty & Eid & Es & Ep).
  destruct (removeFromBook_inv ab m Hwf Hr) as [Hwf1 _].
  pose proof (remove_at_price ab m p Hwf Hr) as Hat.
  unfold Spec.modifyOrder in *. destruct (Spec.removeFromBook ab m) as [ab1 ev]. cbn [fst snd] in *.
  set (m1 := Spec.replace p q c m) in *.
  pose proof (matchOrder_inv ab1 m1 Hwf1 Hok) as Hinv. pose proof (matchOrder_own_side ab1 m1) as Hown.
  assert (own_side m1 = own_side m) as Eo by (unfold own_side; by rewrite Es).
  assert (quantity m1 = q) as Eq by (by unfold m1; destruct m, c).
  destruct (Spec.matchOrder ab1 m1) as [[ab2 m2] evs2]. cbn [fst snd] in *.
  destruct Hinv as (Hwf2 & _ & Hident & _). destruct (identity_fields _ _ Hident) as (Eid2 & Es2 & Ep2 & _ & Eq2 & _).
  assert (unlink o' = m2) as Hu2.
  { destruct (isFullyFilled m2); [done|]. by destruct (Spec.insertResting ab2 m2). }
  assert (order_id o' = order_id m2 ∧ price o' = price m2 ∧ quantity o' = quantity m2 ∧ isFullyFilled o' = isFullyFilled m2)
    as (-> & -> & -> & ->) by (rewrite <-Hu2; by destruct o').
  split_and!; [congruence|congruence|congruence|]. intros Hf. rewrite Hf, Hu2.
  assert (own_side m2 = own_side m) as Eo2 by (unfold own_side; by rewrite Es2, Es).
  rewrite Eo in Hown. rewrite <-Hid, <-Hat, <-Hown.
  pose proof (side_wf_of _ _ Hwf2 (own_side_cases m)) as Hside.
  unfold Spec.insertResting. fold (own_side m2). rewrite Eo2. cbn [fst snd].
  assert (∀ L, alevels_of (own_side m) (Spec.tick_rpt (set_alevels (own_side m) L ab2)) = L) as ->
    by (intros L; destruct ab2; unfold alevels_of, set_alevels; by destruct (isBuy (own_side m))).
  assert (price m2 = p) as <- by congruence. by apply insert_at_price.
Qed.

Lemma book_modify_requeues_witness :
  ∃ m h' b' gb' ab' o' evs, m ∈ all_resting Demo.ab ∧ order_id m = 1 ∧
    modifyOrder Demo.h Demo.b 1 (mkPrice 105) 20 [] = Some (h', b', evs) ∧ book_repr h' b' gb' ab' ∧ book_wf ab' ∧
    h' !! 1%positive = Some o' ∧ order_id o' = 1 ∧ price o' = mkPrice 105 ∧ quantity o' = 20 ∧
    (isFullyFilled o' = false →
      Spec.at_price (mkPrice 105) (alevels_of (own_side m) ab') =
        Spec.remove_id 1 (Spec.at_price (mkPrice 105) (alevels_of (own_side m) Demo.ab)) ++ [unlink o']).
Proof.
  apply (book_modify_requeues _ _ _ _ 1 1 (mkPrice 105) 20 [] Demo.demo_repr Demo.demo_wf); [lia|reflexivity].
Defined.

(** ** Market data *)

(** C11: the market data of every command is consistent: applying its book
    updates in order, by level index, to the depth the book kept before gives
    exactly the depth (price, total quantity and order count of every level of
    both sides, best first) the book keeps afterwards. *)
Theorem book_updates_replay h b gb ab c :
  book_repr h b gb ab → book_wf ab → cmd_pre h gb ab c → levels_fit ab →
  ∃ h' b' evs, run_cmd h b c = Some (h', b', evs) ∧ replay (impl_depth b) evs = Some (impl_depth b').
Proof.
  intros Hb Hwf Hpre Hfit. destruct (cmd_refines _ _ _ _ _ Hb Hwf Hpre) as (h' & b' & gb' & E & Hb' & _).
  exists h', b', (spec_cmd h ab c).2. split; [done|].
  rewrite (impl_depth_repr _ _ _ _ Hb), (impl_depth_repr _ _ _ _ Hb'). by eapply spec_cmd_replay.
Qed.

Lemma book_updates_replay_witness :
  ∃ h' b' evs, run_cmd Demo.h Demo.b (CmdAdd 2) = Some (h', b', evs) ∧ replay (impl_depth Demo.b) evs = Some (impl_depth b').
Proof.
  apply (book_updates_replay _ _ _ _ (CmdAdd 2) Demo.demo_repr Demo.demo_wf).
  - exists (Demo.buy 2 Limit Day 101 14). exact Demo.demo_ready2.
  - split; vm_compute; reflexivity.
Defined.

(** The report sequence numbers of the book updates and the trade ids of
    the fills of every command are consecutive (modulo 2^32 and 2^64): they
    start at the book's counters, and the counters afterwards are the next
    numbers. *)
Theorem book_numbers_consecutive h b gb ab c :
  book_repr h b gb ab → book_wf ab → cmd_pre h gb ab c →
  ∃ h' b' evs, run_cmd h b c = Some (h', b', evs) ∧
    counted 32 (rpt_seq_ b) (rpts evs) = Some (rpt_seq_ b') ∧
    counted 64 (next_trade_id_ b) (trade_ids evs) = Some (next_trade_id_ b').
Proof.
  intros Hb Hwf Hpre. destruct (cmd_refines _ _ _ _ _ Hb Hwf Hpre) as (h' & b' & gb' & E & Hb' & _).
  exists h', b', (spec_cmd h ab c).2. split; [done|].
  destruct (spec_cmd_numbered h ab c) as [H1 H2].
  by rewrite <-(br_rpt _ _ _ _ Hb), <-(br_rpt _ _ _ _ Hb'), <-(br_tid _ _ _ _ Hb), <-(br_tid _ _ _ _ Hb').
Qed.

Lemma book_numbers_consecutive_witness :
  ∃ h' b' evs, run_cmd Demo.h Demo.b (CmdCancel 1) = Some (h', b', evs) ∧
    counted 32 2 (rpts evs) = Some (rpt_seq_ b') ∧ counted 64 1 (trade_ids evs) = Some (next_trade_id_ b').
Proof. exact (book_numbers_consecutive _ _ _ _ (CmdCancel 1) Demo.demo_repr Demo.demo_wf I). Defined.

(** ** Stop orders *)

(** A fill-or-kill stop-limit order is not all or nothing. The
    availability test holds only plain limit orders to their price, matching
    holds every non-market order to it: a buy of 15 limited to 100 against 10
    at 100 and 10 at 102 passes the test, trades 10 and has 5 canceled. *)
Theorem fok_stop_limit_partial_fill :
  let sell id p := mkOrder id [] 7 42 Sell Limit Day (mkPrice p) (mkPrice 0) 10 0 0 0 0 New 0 None None in
  let h := {[ 1%positive := sell 1 100; 2%positive := sell 2 102; 3%positive := Demo.buy 3 StopLimit FOK 100 15 ]} in
  ('(h, b, _) ← addOrder h (OrderBook_init 42) 1; '(h, b, _) ← addOrder h b 2;
   '(h, b, evs) ← addOrder h b 3; o ← h !! 3%positive;
   Some (fills evs, filled_qty o, status o)) = Some ([(1, mkPrice 100, 10)], 10, Canceled).
Proof. vm_compute. reflexivity. Qed.

(** A day stop order (stop-limit or stop-market) is matched at once, its
    stop price being ignored, and what does not trade is lost without a report:
    with an empty opposite side [addOrder] only accepts it, it is not on the
    book afterwards, and a cancel of its id is answered "Order not found". *)
Theorem stop_order_accepted_then_lost :
  let o := Demo.buy 1 StopLimit Day 100 5 in
  ('(h, b, evs) ← addOrder {[ 1%positive := o ]} (OrderBook_init 42) 1;
   '(_, _, evs') ← cancelOrder h b 1; o' ← h !! 1%positive;
   Some (evs, status o', impl_depth b, orders_by_id_ b !! 1, evs')) =
  Some ([Spec.accepted o], New, ([], []), None, [OrderCancelRejected 1 [] 0 0 "Order not found"]).
Proof. vm_compute. reflexivity. Qed.
