(* ===== verification/BookFrame.v ===== *)
(** * What the order book never changes

    No operation of the book allocates or frees an order or assigns its id:
    [heap_ids], the addresses in use with the id of the order at each, is the
    same before and after every operation that returns. *)
From S2P Require Import Prelude Types OrderedMap Order PriceLevel OrderBook.
Import OrderBookOps.

Definition heap_ids (h : heap) : gmap Ptr OrderId := order_id <$> h.

Lemma assign_ids h p f h' :
  (∀ o, order_id (f o) = order_id o) → assign h p f = Some h' → heap_ids h' = heap_ids h.
Proof.
  intros Hf (o & Ho & [= <-])%bind_Some. unfold heap_ids. rewrite fmap_insert, Hf.
  apply insert_id. by rewrite lookup_fmap, Ho.
Qed.

(** Unfolds a successful run into its steps and turns every assignment into an
    equation between the address tables; [congruence] chains them. *)
Ltac run_steps :=
  repeat match goal with
  | H : _ ≫= _ = Some _ |- _ => apply bind_Some in H as (? & ? & H)
  | H : (let (_, _) := ?x in _) = Some _ |- _ => destruct x
  | H : (if ?b then _ else _) = Some _ |- _ => destruct b
  | H : match ?x with Some _ => _ | None => _ end = Some _ |- _ => destruct x
  | H : match ?x with mkBook _ _ _ _ _ _ => _ end = Some _ |- _ => destruct x
  | H : Some _ = Some _ |- _ => injection H as H
  | H : (_, _) = (_, _) |- _ => injection H as H
  end; subst.
Ltac chain_ids :=
  repeat match goal with
  | H : assign _ _ _ = Some _ |- _ => apply assign_ids in H; [|by intros []]
  end; congruence.

Lemma level_addOrder_ids h lv p h' lv' : PriceLevelOps.addOrder h lv p = Some (h', lv') → heap_ids h' = heap_ids h.
Proof. unfold PriceLevelOps.addOrder. intros H. run_steps; chain_ids. Qed.

Lemma level_removeOrder_ids h lv p h' lv' : PriceLevelOps.removeOrder h lv p = Some (h', lv') → heap_ids h' = heap_ids h.
Proof. unfold PriceLevelOps.removeOrder. intros H. run_steps; chain_ids. Qed.

Lemma executeTrade_ids h b m t p q h' b' tr : executeTrade h b m t p q = Some (h', b', tr) → heap_ids h' = heap_ids h.
Proof. unfold executeTrade. intros H. run_steps; chain_ids. Qed.

Lemma settle_maker_ids h b lv m h' b' lv' : settle_maker h b lv m = Some (h', b', lv') → heap_ids h' = heap_ids h.
Proof.
  unfold settle_maker. intros H. run_steps; [|chain_ids].
  match goal with H : PriceLevelOps.removeOrder _ _ _ = Some _ |- _ => apply level_removeOrder_ids in H end.
  chain_ids.
Qed.

Lemma match_step_ids sd it tp t h b evs h' b' evs' :
  match_step sd it tp t (h, b, evs) = Some (h', b', evs') → heap_ids h' = heap_ids h.
Proof.
  unfold match_step. intros H. run_steps.
  all: match goal with H : executeTrade _ _ _ _ _ _ = Some _ |- _ => apply executeTrade_ids in H end.
  all: match goal with H : settle_maker _ _ _ _ = Some _ |- _ => apply settle_maker_ids in H end.
  all: chain_ids.
Qed.

Lemma match_level_ids fuel sd it tp t h b evs h' b' evs' :
  match_level fuel sd it tp t (h, b, evs) = Some (h', b', evs') → heap_ids h' = heap_ids h.
Proof.
  revert h b evs. induction fuel as [|fuel IH]; intros h b evs H; cbn [match_level] in H; run_steps; try done.
  repeat match goal with x : (_ * _)%type |- _ => destruct x end.
  match goal with H : match_step _ _ _ _ _ = Some _ |- _ => apply match_step_ids in H end.
  match goal with H : match_level _ _ _ _ _ _ = Some _ |- _ => apply IH in H end. congruence.
Qed.

Lemma match_levels_ids fuel sd stop it t h b evs h' b' evs' :
  match_levels fuel sd stop it t (h, b, evs) = Some (h', b', evs') → heap_ids h' = heap_ids h.
Proof.
  revert it h b evs. induction fuel as [|fuel IH]; intros it h b evs H; cbn [match_levels] in H; run_steps; try done.
  all: match goal with H : match_level _ _ _ _ _ _ = Some _ |- _ => apply match_level_ids in H end.
  all: match goal with H : match_levels _ _ _ _ _ _ = Some _ |- _ => apply IH in H end; congruence.
Qed.

Lemma matchOrder_ids h b t h' b' evs : matchOrder h b t = Some (h', b', evs) → heap_ids h' = heap_ids h.
Proof.
  unfold matchOrder, matchMarket, matchLimit, match_side. intros H. run_steps; by apply match_levels_ids in H.
Qed.

Lemma insertResting_ids h b t evs h' b' evs' :
  insertResting h b t evs = Some (h', b', evs') → heap_ids h' = heap_ids h.
Proof.
  unfold insertResting, insert_side. intros H. run_steps.
  all: match goal with H : PriceLevelOps.addOrder _ _ _ = Some _ |- _ => by apply level_addOrder_ids in H end.
Qed.

Lemma removeFromBook_ids h b t evs h' b' evs' :
  removeFromBook h b t evs = Some (h', b', evs') → heap_ids h' = heap_ids h.
Proof.
  unfold removeFromBook, remove_side. intros H. run_steps; try done.
  all: match goal with H : PriceLevelOps.removeOrder _ _ _ = Some _ |- _ => by apply level_removeOrder_ids in H end.
Qed.

Lemma addOrder_ids h b t h' b' evs : addOrder h b t = Some (h', b', evs) → heap_ids h' = heap_ids h.
Proof.
  unfold addOrder, post_match. intros H. run_steps; try done.
  all: match goal with H : matchOrder _ _ _ = Some _ |- _ => apply matchOrder_ids in H end.
  all: try match goal with H : insertResting _ _ _ _ = Some _ |- _ => apply insertResting_ids in H end.
  all: chain_ids.
Qed.

Lemma cancelOrder_ids h b id h' b' evs : cancelOrder h b id = Some (h', b', evs) → heap_ids h' = heap_ids h.
Proof.
  unfold cancelOrder. intros H. run_steps; try done.
  match goal with H : removeFromBook _ _ _ _ = Some _ |- _ => apply removeFromBook_ids in H end. chain_ids.
Qed.

Lemma modifyOrder_ids h b id p q c h' b' evs : modifyOrder h b id p q c = Some (h', b', evs) → heap_ids h' = heap_ids h.
Proof.
  unfold modifyOrder. intros H. run_steps; try done.
  all: match goal with H : removeFromBook _ _ _ _ = Some _ |- _ => apply removeFromBook_ids in H end.
  all: match goal with H : matchOrder _ _ _ = Some _ |- _ => apply matchOrder_ids in H end.
  all: try match goal with H : insertResting _ _ _ _ = Some _ |- _ => apply insertResting_ids in H end.
  all: chain_ids.
Qed.

Lemma heap_ids_lookup h h' p : heap_ids h' = heap_ids h → order_id <$> h' !! p = order_id <$> h !! p.
Proof. intros H. unfold heap_ids in H. by rewrite <-!lookup_fmap, H. Qed.
