(* ===== verification/Engine.v ===== *)
(** * The full matching engine
    (src/engine/matching_engine.h, src/engine/full_matching_engine.h and .cpp)

    The engine owns every order through [unique_ptr]s and hands raw pointers to
    the order books. The model keeps the heap in the engine state: allocating
    an order picks a fresh address, erasing or overwriting a [unique_ptr] frees
    its order, and a book that still points to a freed order would make the
    next access fail. [None] is such a failure. The wall clock is a parameter
    of [submitOrder]. *)
From S2P Require Import Prelude Types OrderedMap Order PriceLevel OrderBook BookSpec BookWf BookRefine BookRefineOps BookInv BookCorrect BookFrame.

(** [IMatchingEngine]: what the gateway needs of an engine of state [E]. *)
Record IMatchingEngine (E : Type) := {
  ime_submitOrder : E → Timestamp → Order → option (E * list EngineEvent);
  ime_cancelOrder : E → OrderId → SecurityId → Z → option (E * list EngineEvent);
  ime_modifyOrder : E → OrderId → SecurityId → Price → Quantity → ClOrdId → option (E * list EngineEvent)
}.

Record FullMatchingEngine := mkEngine {
  eng_heap : heap;
  order_books_ : gmap SecurityId OrderBook;
  order_to_security_ : gmap OrderId SecurityId;
  owned_orders_ : gmap OrderId Ptr;
  next_order_id_ : Z
}.

Module EngineOps.

Definition Engine_init : FullMatchingEngine := mkEngine ∅ ∅ ∅ ∅ 1.

(** [order_books_.try_emplace(security_id, security_id)]. *)
Definition addInstrument (e : FullMatchingEngine) (sid : SecurityId) : FullMatchingEngine :=
  let '(mkEngine h books o2s owned nid) := e in
  match books !! sid with
  | Some _ => e
  | None => mkEngine h (<[sid := OrderBook_init sid]> books) o2s owned nid
  end.

(** [owned_orders_.erase(id)]: the [unique_ptr] frees its order. *)
Definition erase_owned (h : heap) (owned : gmap OrderId Ptr) (id : OrderId) : heap * gmap OrderId Ptr :=
  match owned !! id with
  | Some p => (delete p h, delete id owned)
  | None => (h, owned)
  end.

(** [owned_orders_[id] = std::move(order)]: a previous owner is freed. *)
Definition assign_owned (h : heap) (owned : gmap OrderId Ptr) (id : OrderId) (p : Ptr) : heap * gmap OrderId Ptr :=
  match owned !! id with
  | Some q => (delete q h, <[id := p]> owned)
  | None => (h, <[id := p]> owned)
  end.

Definition submitOrder (e : FullMatchingEngine) (now : Timestamp) (order : Order)
    : option (FullMatchingEngine * list EngineEvent) :=
  let '(mkEngine h books o2s owned nid) := e in
  let o := set_timestamp (u64 now) (set_order_id nid order) in
  let nid := u64 (nid + 1) in
  let sec_id := security_id o in
  match books !! sec_id with
  | None =>
      Some (mkEngine h books o2s owned nid,
        [OrderRejected (cl_ord_id o) (session_uuid o) "Unknown security ID" 0])
  | Some book =>
      let oid := order_id o in
      let raw_ptr := fresh (dom h) in
      let h := <[raw_ptr := o]> h in
      let '(h, owned) := assign_owned h owned oid raw_ptr in
      let o2s := <[oid := sec_id]> o2s in
      '(h, book, events) ← OrderBookOps.addOrder h book raw_ptr;
      let books := <[sec_id := book]> books in
      o ← h !! raw_ptr;
      if isFullyFilled o || bool_decide (status o = Canceled) || bool_decide (status o = Rejected) then
        let o2s := delete oid o2s in
        let '(h, owned) := erase_owned h owned oid in
        Some (mkEngine h books o2s owned nid, events)
      else Some (mkEngine h books o2s owned nid, events)
  end.

(** The security of an order: what is recorded for it, else what the caller says. *)
Definition lookup_security (o2s : gmap OrderId SecurityId) (oid : OrderId) (sid : SecurityId) : SecurityId :=
  match o2s !! oid with Some s => s | None => sid end.

Definition cancelOrder (e : FullMatchingEngine) (oid : OrderId) (sid : SecurityId) (uuid : Z)
    : option (FullMatchingEngine * list EngineEvent) :=
  let '(mkEngine h books o2s owned nid) := e in
  let sec_id := lookup_security o2s oid sid in
  match books !! sec_id with
  | None => Some (e, [OrderCancelRejected oid [] uuid 0 "Unknown security ID"])
  | Some book =>
      '(h, book, events) ← OrderBookOps.cancelOrder h book oid;
      let books := <[sec_id := book]> books in
      let o2s := delete oid o2s in
      let '(h, owned) := erase_owned h owned oid in
      Some (mkEngine h books o2s owned nid, events)
  end.

Definition modifyOrder (e : FullMatchingEngine) (oid : OrderId) (sid : SecurityId)
    (new_price : Price) (new_qty : Quantity) (new_cl_ord_id : ClOrdId)
    : option (FullMatchingEngine * list EngineEvent) :=
  let '(mkEngine h books o2s owned nid) := e in
  let sec_id := lookup_security o2s oid sid in
  match books !! sec_id with
  | None => Some (e, [OrderCancelRejected oid new_cl_ord_id 0 0 "Unknown security ID"])
  | Some book =>
      '(h, book, events) ← OrderBookOps.modifyOrder h book oid new_price new_qty new_cl_ord_id;
      let books := <[sec_id := book]> books in
      match owned !! oid with
      | Some p =>
          o ← h !! p;
          if isFullyFilled o || bool_decide (status o = Canceled) then
            let o2s := delete oid o2s in
            let '(h, owned) := erase_owned h owned oid in
            Some (mkEngine h books o2s owned nid, events)
          else Some (mkEngine h books o2s owned nid, events)
      | None => Some (mkEngine h books o2s owned nid, events)
      end
  end.

Definition getOrderBook (e : FullMatchingEngine) (sid : SecurityId) : option OrderBook :=
  order_books_ e !! sid.

Definition full_matching_engine : IMatchingEngine FullMatchingEngine :=
  Build_IMatchingEngine _ submitOrder cancelOrder modifyOrder.

End EngineOps.
Import EngineOps.

(** ** The engine invariant *)

(** A book of security [sid] whose resting orders are all owned by the engine
    and recorded under that security. *)
Definition book_owned (h : heap) (o2s : gmap OrderId SecurityId) (owned : gmap OrderId Ptr)
    (sid : SecurityId) (b : OrderBook) (gb : gside * gside) (ab : ABook) : Prop :=
  book_repr h b gb ab ∧ book_wf ab ∧
  ∀ p m, (p, m) ∈ all_entries gb → owned !! order_id m = Some p ∧ o2s !! order_id m = Some sid.

Record engine_inv (e : FullMatchingEngine) : Prop := {
  ei_books sid b : order_books_ e !! sid = Some b →
    ∃ gb ab, book_owned (eng_heap e) (order_to_security_ e) (owned_orders_ e) sid b gb ab;
  ei_owned id p : owned_orders_ e !! id = Some p →
    (∃ o, eng_heap e !! p = Some o ∧ order_id o = id) ∧ 1 ≤ id < next_order_id_ e;
  ei_tracked : dom (order_to_security_ e) = dom (owned_orders_ e);
  ei_next : 1 ≤ next_order_id_ e < 2 ^ 64
}.

(** The books of the engine, each as an abstract book. *)
Definition books_repr (A : gmap SecurityId ABook) (e : FullMatchingEngine) : Prop :=
  ∀ sid, match order_books_ e !! sid, A !! sid with
    | Some b, Some ab => ∃ gb, book_owned (eng_heap e) (order_to_security_ e) (owned_orders_ e) sid b gb ab
    | None, None => True
    | _, _ => False
    end.

Lemma books_repr_book A e sid b : books_repr A e → order_books_ e !! sid = Some b →
  ∃ gb ab, A !! sid = Some ab ∧ book_owned (eng_heap e) (order_to_security_ e) (owned_orders_ e) sid b gb ab.
Proof. intros HA Hb. specialize (HA sid). rewrite Hb in HA. destruct (A !! sid) as [ab|]; [|done]. destruct HA as [gb HA]. by exists gb, ab. Qed.

Lemma books_repr_none A e sid : books_repr A e → order_books_ e !! sid = None ↔ A !! sid = None.
Proof. intros HA. specialize (HA sid). destruct (order_books_ e !! sid), (A !! sid); by split. Qed.

(** What changes no book but where the engine keeps their orders. *)
Lemma books_repr_same A e e' :
  books_repr A e → order_books_ e' = order_books_ e →
  (∀ sid b gb ab, order_books_ e !! sid = Some b → book_owned (eng_heap e) (order_to_security_ e) (owned_orders_ e) sid b gb ab →
    book_owned (eng_heap e') (order_to_security_ e') (owned_orders_ e') sid b gb ab) → books_repr A e'.
Proof.
  intros HA E H sid. specialize (HA sid). rewrite E. destruct (order_books_ e !! sid) eqn:Eb, (A !! sid); try done.
  destruct HA as [gb HA]. exists gb. by eapply H.
Qed.

Lemma choose_map {A B} (P : SecurityId → A → B → Prop) (m : gmap SecurityId A) :
  (∀ i a, m !! i = Some a → ∃ b, P i a b) →
  ∃ m' : gmap SecurityId B, ∀ i, match m !! i, m' !! i with Some a, Some b => P i a b | None, None => True | _, _ => False end.
Proof.
  induction m as [|i a m Hi IH] using map_ind; intros H; [exists ∅; intros i; by rewrite !lookup_empty|].
  destruct (H i a (lookup_insert_eq _ _ _)) as [b Hb].
  destruct IH as [m' Hm'].
  { intros j a' Hj. apply H. rewrite lookup_insert_ne; [done|]. intros ->. congruence. }
  exists (<[i := b]> m'). intros j. destruct (decide (i = j)) as [<-|Hne]; [by rewrite !lookup_insert_eq|].
  rewrite !lookup_insert_ne by done. apply Hm'.
Qed.

Lemma books_exist e : engine_inv e → ∃ A, books_repr A e.
Proof.
  intros He. destruct (choose_map (λ sid b ab, ∃ gb, book_owned (eng_heap e) (order_to_security_ e) (owned_orders_ e) sid b gb ab) (order_books_ e))
    as [A HA]; [|by exists A].
  intros sid b Hb. destruct (ei_books _ He _ _ Hb) as (gb & ab & H). by exists ab, gb.
Qed.

(** The id of the order at an address the book uses. *)
Lemma entry_id h b gb ab p m :
  book_repr h b gb ab → (p, m) ∈ all_entries gb → order_id <$> h !! p = Some (order_id m).
Proof.
  intros Hb Hin. destruct (book_repr_lookup _ _ _ _ _ _ Hb Hin) as (o & -> & <-). by destruct o.
Qed.

Lemma elem_ptrs gb p : p ∈ ptrs gb ↔ ∃ m, (p, m) ∈ all_entries gb.
Proof.
  unfold ptrs. rewrite list_elem_of_fmap. split.
  - intros ([q m] & -> & Hin). by exists m.
  - intros (m & Hin). by exists (p, m).
Qed.

(** An order the index of some book knows is working. *)
Lemma resting_working e oid p o sid b :
  engine_inv e → owned_orders_ e !! oid = Some p → eng_heap e !! p = Some o →
  order_books_ e !! sid = Some b → is_Some (orders_by_id_ b !! oid) →
  order_to_security_ e !! oid = Some sid ∧ isFullyFilled o = false ∧ live_status (status o).
Proof.
  intros He Hown Ho Hb [q Hq]. destruct (ei_books _ He _ _ Hb) as (gb & ab & Hrep & Hwf & Hent).
  destruct (proj1 (br_ids _ _ _ _ Hrep oid q) Hq) as (m & Hin & Hid). fold (all_entries gb) in Hin.
  destruct (Hent _ _ Hin) as [Hq' Hsid]. rewrite Hid in Hq', Hsid. simplify_eq.
  destruct (book_repr_lookup _ _ _ _ _ _ Hrep Hin) as (o' & Ho' & Hu). simplify_eq.
  assert (unlink o ∈ all_resting ab) as Hr.
  { rewrite (all_resting_repr _ _ _ _ Hrep). apply list_elem_of_fmap. by exists (p, unlink o). }
  destruct (all_resting_ok _ _ Hwf Hr) as [_ _ _ _ Hopen Hst].
  split_and!; [done|unfold isFullyFilled; destruct o; cbn in *; lia|by destruct o].
Qed.

(** Freeing an order no book knows. *)
Lemma erase_book e oid p sid b gb ab :
  engine_inv e → owned_orders_ e !! oid = Some p → orders_by_id_ b !! oid = None →
  book_owned (eng_heap e) (order_to_security_ e) (owned_orders_ e) sid b gb ab →
  book_owned (delete p (eng_heap e)) (delete oid (order_to_security_ e)) (delete oid (owned_orders_ e)) sid b gb ab.
Proof.
  intros He Ep Hno (Hrep & Hwf & Hent).
  assert (order_id <$> eng_heap e !! p = Some oid) as Hp.
  { destruct (ei_owned _ He _ _ Ep) as [(o & Ho & Hid) _]. rewrite Ho. simpl. by rewrite Hid. }
  assert (∀ q m, (q, m) ∈ all_entries gb → order_id m ≠ oid) as Hne.
  { intros q m Hin Hid. assert (orders_by_id_ b !! oid = Some q) by (apply (br_ids _ _ _ _ Hrep); by exists m). congruence. }
  split; [|split; [done|]].
  - eapply book_repr_frame; [|exact Hrep]. intros q [m Hin]%elem_ptrs. apply lookup_delete_ne.
    intros ->. apply (Hne _ _ Hin). rewrite (entry_id _ _ _ _ _ _ Hrep Hin) in Hp. by injection Hp.
  - intros q m Hin. rewrite !lookup_delete_ne by (intros Heq; by apply (Hne q m)). by apply Hent.
Qed.

Lemma erase_inv A h books o2s owned nid oid :
  engine_inv (mkEngine h books o2s owned nid) → books_repr A (mkEngine h books o2s owned nid) →
  (∀ sid b, books !! sid = Some b → orders_by_id_ b !! oid = None) →
  let '(h', owned') := erase_owned h owned oid in
  engine_inv (mkEngine h' books (delete oid o2s) owned' nid) ∧ books_repr A (mkEngine h' books (delete oid o2s) owned' nid).
Proof.
  intros He HA Hno. pose proof (ei_tracked _ He) as Htr. simpl in Htr. unfold erase_owned. destruct (owned !! oid) as [p|] eqn:Ep.
  2:{ assert (o2s !! oid = None) as Ho2s
        by (apply not_elem_of_dom; rewrite Htr; by apply not_elem_of_dom).
      by rewrite delete_id. }
  pose proof (λ sid b gb ab Hb, erase_book _ oid p sid b gb ab He Ep (Hno sid b Hb)) as Hbook. simpl in Hbook.
  split; [|by eapply books_repr_same].
  split; simpl.
  - intros sid b Hb. destruct (ei_books _ He _ _ Hb) as (gb & ab & H). exists gb, ab. by apply Hbook.
  - intros id q [Hne Hq]%lookup_delete_Some. destruct (ei_owned _ He _ _ Hq) as [(o & Ho & Hid) ?].
    split; [|done]. exists o. split; [|done]. simpl in Ho. rewrite lookup_delete_ne; [done|].
    intros ->. destruct (ei_owned _ He _ _ Ep) as [(o' & Ho' & Hid') _]. simpl in Ho'. congruence.
  - by rewrite !dom_delete_L, Htr.
  - apply He.
Qed.

(** Running an operation of one book on an order the engine owns: that book
    changes and every other stays what it is. *)
Lemma book_op_books h o2s owned sid b gb ab oid t r on h' b' evs :
  book_owned h o2s owned sid b gb ab →
  order_id <$> h !! t = Some oid → owned !! oid = Some t → o2s !! oid = Some sid →
  op_outcome h t gb r [] on (Some (h', b', evs)) → book_wf r.1.1 → heap_ids h' = heap_ids h →
  (∃ gb1, book_owned h' o2s owned sid b' gb1 r.1.1) ∧
  ∀ sid' b2 gb2 ab2, sid' ≠ sid → book_owned h o2s owned sid' b2 gb2 ab2 → book_owned h' o2s owned sid' b2 gb2 ab2.
Proof.
  intros (Hrep & Hwf & Hent) Ht Hown Hsid (h1 & b1 & gb1 & o1 & [= <- <- _] & Hrep1 & Ho1 & Hu1 & Hf & Hsub & _) Hwf1 Hids.
  assert (∀ q, q ∈ t :: ptrs gb → ∃ id, order_id <$> h !! q = Some id ∧ owned !! id = Some q ∧ o2s !! id = Some sid)
    as Htouch.
  { intros q [->|[m Hin]%elem_ptrs]%elem_of_cons; [by exists oid|].
    exists (order_id m). split; [by eapply entry_id|by apply Hent]. }
  split.
  - exists gb1. split; [done|split; [done|]]. intros q m Hin. assert (q ∈ t :: ptrs gb) as Hq.
    { assert (q ∈ ptrs gb1) as Hq%Hsub by (apply elem_ptrs; by exists m). destruct on; [done|by right]. }
    destruct (Htouch q Hq) as (id & Hid & Hrest).
    pose proof (entry_id _ _ _ _ _ _ Hrep1 Hin) as Hid'.
    rewrite (heap_ids_lookup _ _ _ Hids), Hid in Hid'. injection Hid' as <-. done.
  - intros sid' b2 gb2 ab2 Hne (Hrep2 & Hwf2 & Hent2). split; [|done]. eapply book_repr_frame; [|exact Hrep2].
    intros q [m Hin]%elem_ptrs. apply Hf. intros Hq. destruct (Htouch q Hq) as (id & Hid & _ & Hs).
    rewrite (entry_id _ _ _ _ _ _ Hrep2 Hin) in Hid. injection Hid as <-.
    destruct (Hent2 _ _ Hin). congruence.
Qed.

Lemma book_op_inv A h books o2s owned nid sid b gb ab oid t r on h' b' evs :
  engine_inv (mkEngine h books o2s owned nid) → books_repr A (mkEngine h books o2s owned nid) →
  books !! sid = Some b → book_owned h o2s owned sid b gb ab →
  owned !! oid = Some t → o2s !! oid = Some sid →
  op_outcome h t gb r [] on (Some (h', b', evs)) → book_wf r.1.1 → heap_ids h' = heap_ids h →
  engine_inv (mkEngine h' (<[sid := b']> books) o2s owned nid) ∧
  books_repr (<[sid := r.1.1]> A) (mkEngine h' (<[sid := b']> books) o2s owned nid).
Proof.
  intros He HA Hb Hbo Hown Hsid Hop Hwf1 Hids.
  assert (order_id <$> h !! t = Some oid) as Ht.
  { destruct (ei_owned _ He _ _ Hown) as [(o & Ho & Hid) _]. simpl in Ho. rewrite Ho. simpl. by rewrite Hid. }
  destruct (book_op_books _ _ _ _ _ _ _ _ _ _ _ _ _ _ Hbo Ht Hown Hsid Hop Hwf1 Hids) as [[gb1 Hself] Hother].
  split; [split; simpl|].
  - intros sid' b2 Hb2. destruct (decide (sid = sid')) as [<-|Hne].
    + rewrite lookup_insert_eq in Hb2. injection Hb2 as <-. by exists gb1, r.1.1.
    + rewrite lookup_insert_ne in Hb2 by done.
      destruct (ei_books _ He _ _ Hb2) as (gb2 & ab2 & H2). exists gb2, ab2. by apply Hother.
  - intros id p Hp. destruct (ei_owned _ He _ _ Hp) as [(o & Ho & Hid) ?]. simpl in Ho. split; [|done].
    pose proof (heap_ids_lookup _ _ p Hids) as E. rewrite Ho in E. simpl in E.
    destruct (h' !! p) as [o'|]; simplify_eq/=. eauto.
  - apply He.
  - apply He.
  - intros sid'. cbn [order_books_ eng_heap order_to_security_ owned_orders_]. destruct (decide (sid = sid')) as [<-|Hne].
    + rewrite !lookup_insert_eq. by exists gb1.
    + rewrite !lookup_insert_ne by done. specialize (HA sid'). simpl in HA. destruct (books !! sid'), (A !! sid'); try done.
      destruct HA as [gb2 H2]. exists gb2. by apply Hother.
Qed.

(** Taking ownership of a new order. *)
Lemma own_book h o2s owned nid sid sid' o t b gb ab :
  h !! t = None → owned !! nid = None → book_owned h o2s owned sid b gb ab →
  book_owned (<[t := o]> h) (<[nid := sid']> o2s) (<[nid := t]> owned) sid b gb ab ∧
  (t ∉ ptrs gb) ∧ (nid ∉ order_id <$> all_resting ab).
Proof.
  intros Ht Hn (Hrep & Hwf & Hent).
  assert (∀ q m, (q, m) ∈ all_entries gb → q ≠ t ∧ order_id m ≠ nid) as Hne.
  { intros q m Hin. destruct (Hent _ _ Hin) as [Hq _].
    destruct (book_repr_lookup _ _ _ _ _ _ Hrep Hin) as (? & ? & _). split; congruence. }
  split; [split; [|split; [done|]]|split].
  - eapply book_repr_frame; [|exact Hrep]. intros q [m Hin]%elem_ptrs. apply lookup_insert_ne.
    intros <-. by destruct (Hne _ _ Hin).
  - intros q m Hin. destruct (Hne _ _ Hin). rewrite !lookup_insert_ne by done. by apply Hent.
  - intros [m Hin]%elem_ptrs. by destruct (Hne _ _ Hin).
  - rewrite (all_resting_repr _ _ _ _ Hrep). intros (m & -> & Hm)%list_elem_of_fmap.
    apply list_elem_of_fmap in Hm as ([q m'] & -> & Hin). by destruct (Hne _ _ Hin).
Qed.

Lemma own_inv A h books o2s owned nid sid o :
  engine_inv (mkEngine h books o2s owned nid) → books_repr A (mkEngine h books o2s owned nid) → nid + 1 < 2 ^ 64 → order_id o = nid →
  let t := fresh (dom h) in
  let e' := mkEngine (<[t := o]> h) books (<[nid := sid]> o2s) (<[nid := t]> owned) (nid + 1) in
  owned !! nid = None ∧ h !! t = None ∧ engine_inv e' ∧ books_repr A e'.
Proof.
  intros He HA Hlt Hid t e'. pose proof (ei_tracked _ He) as Htr. pose proof (ei_next _ He) as Hnext. simpl in *.
  assert (h !! t = None) as Ht by (apply not_elem_of_dom, is_fresh).
  assert (owned !! nid = None) as Hn.
  { destruct (owned !! nid) as [p|] eqn:E; [|done]. destruct (ei_owned _ He _ _ E) as [_ ?]. simpl in *. lia. }
  split_and!; [done|done| |eapply books_repr_same; [exact HA|done|]; intros; by apply own_book]. split; simpl.
  - intros sid' b Hb. destruct (ei_books _ He _ _ Hb) as (gb & ab & Hbo). simpl in *.
    exists gb, ab. by apply own_book.
  - intros id p [[<- <-]|[Hne Hp]]%lookup_insert_Some.
    + split; [|lia]. exists o. by rewrite lookup_insert_eq.
    + destruct (ei_owned _ He _ _ Hp) as [(o' & Ho' & Hid') ?]. simpl in *. split; [|lia].
      exists o'. split; [|done]. rewrite lookup_insert_ne; [done|]. intros <-. congruence.
  - by rewrite !dom_insert_L, Htr.
  - lia.
Qed.

(** The order as the engine submits it to the book. *)
Definition stamped (e : FullMatchingEngine) (now : Timestamp) (order : Order) : Order :=
  set_timestamp (u64 now) (set_order_id (next_order_id_ e) order).

(** An owned order that has left the market is on no book. *)
Lemma finished_off_book e oid p o :
  engine_inv e → owned_orders_ e !! oid = Some p → eng_heap e !! p = Some o →
  isFullyFilled o = true ∨ ¬ live_status (status o) →
  ∀ sid b, order_books_ e !! sid = Some b → orders_by_id_ b !! oid = None.
Proof.
  intros He Hown Ho Hfin sid b Hb. destruct (orders_by_id_ b !! oid) as [q|] eqn:E; [|done].
  destruct (resting_working e oid p o sid b) as (_ & Hf & Hl); [done..|by eexists|].
  destruct Hfin; congruence || done.
Qed.

Lemma submitOrder_inv A e now order :
  engine_inv e → books_repr A e → next_order_id_ e + 1 < 2 ^ 64 → qty_ok order → live order →
  match A !! security_id order with
  | None =>
      let e' := mkEngine (eng_heap e) (order_books_ e) (order_to_security_ e) (owned_orders_ e) (next_order_id_ e + 1) in
      submitOrder e now order = Some (e', [OrderRejected (cl_ord_id order) (session_uuid order) "Unknown security ID" 0]) ∧
      engine_inv e' ∧ books_repr A e'
  | Some ab =>
      let r := Spec.addOrder ab (unlink (stamped e now order)) in
      ∃ e', submitOrder e now order = Some (e', r.2) ∧ engine_inv e' ∧ books_repr (<[security_id order := r.1.1]> A) e' ∧
        next_order_id_ e' = next_order_id_ e + 1
  end.
Proof.
  intros He HA Hlt Hok Hlive. unfold submitOrder. destruct e as [h books o2s owned nid]. simpl in *.
  pose proof (ei_next _ He) as Hnext. simpl in Hnext.
  set (o := stamped (mkEngine h books o2s owned nid) now order).
  change (set_timestamp (u64 now) (set_order_id nid order)) with o.
  assert (security_id o = security_id order ∧ order_id o = nid ∧ qty_ok o ∧ live o ∧
    cl_ord_id o = cl_ord_id order ∧ session_uuid o = session_uuid order)
    as (-> & Eid & Hok' & Hlive' & -> & ->) by (by destruct order).
  rewrite (wrapu_small 64) by lia. rewrite Eid.
  destruct (books !! security_id order) as [b|] eqn:Eb.
  2:{ rewrite (proj1 (books_repr_none _ _ (security_id order) HA)) by done. cbv zeta. split; [done|].
      split; [|by eapply books_repr_same]. destruct He as [Hbooks Howned Htr _]. split; simpl; [done| |done|lia].
      intros id p Hp. destruct (Howned _ _ Hp) as [? ?]. split; [done|simpl in *; lia]. }
  destruct (books_repr_book _ _ _ _ HA Eb) as (gb & ab & -> & Hbo). simpl in Hbo. cbv zeta.
  destruct (own_inv A h books o2s owned nid (security_id order) o He HA Hlt Eid) as (Hn & Hfree & He1 & HA1).
  set (t := fresh (dom h)) in *.
  unfold assign_owned. rewrite Hn.
  destruct (own_book h o2s owned nid (security_id order) (security_id order) o t b gb ab Hfree Hn Hbo)
    as (Hbo1 & Htp & Hidf).
  pose proof Hbo1 as (Hrep1 & Hwf1 & _).
  destruct (addOrder_refines _ _ _ _ t o Hrep1 Hwf1) as (rests & Hout & Hwf2);
    [apply lookup_insert_eq|done|done|done|by rewrite Eid|].
  pose proof Hout as (h' & b' & gb' & o' & Eadd & _ & Ho' & _).
  rewrite Eadd in Hout |- *. cbn [mbind option_bind app] in *.
  apply addOrder_ids in Eadd.
  eapply book_op_inv in Hout as [He2 HA2]; [|exact He1|exact HA1|done|done|apply lookup_insert_eq|apply lookup_insert_eq|done|done].
  rewrite Ho'. cbn [mbind option_bind].
  destruct (isFullyFilled o' || _ || _) eqn:Efin; [|by eexists].
  pose proof (erase_inv _ _ _ _ _ _ nid He2 HA2) as He3.
  destruct (erase_owned h' (<[nid := t]> owned) nid) as [h3 owned3].
  destruct He3 as [He3 HA3]; [|by eexists].
  apply (finished_off_book _ nid t o' He2 (lookup_insert_eq _ _ _) Ho').
  unfold live_status. destruct (isFullyFilled o'); [by left|right]. simpl in Efin.
  apply orb_true_iff in Efin as [E|E]; apply bool_decide_eq_true in E; rewrite E; naive_solver.
Qed.

(** An order on some book is on the book its id resolves to. *)
Lemma book_of_order e oid sid0 sid b :
  engine_inv e → order_books_ e !! sid = Some b → is_Some (orders_by_id_ b !! oid) →
  lookup_security (order_to_security_ e) oid sid0 = sid.
Proof.
  intros He Hb [q Hq]. destruct (ei_books _ He _ _ Hb) as (gb & ab & Hrep & Hwf & Hent).
  destruct (proj1 (br_ids _ _ _ _ Hrep oid q) Hq) as (m & Hin & <-).
  unfold lookup_security. by destruct (Hent _ _ Hin) as [_ ->].
Qed.

(** The orders of a represented book, by their ids. *)
Lemma index_resting h b gb ab oid : book_repr h b gb ab →
  orders_by_id_ b !! oid = None ↔ ∀ m, m ∈ all_resting ab → order_id m ≠ oid.
Proof.
  intros Hrep. rewrite (all_resting_repr _ _ _ _ Hrep). split.
  - intros Hno m ([p m'] & -> & Hin)%list_elem_of_fmap Hid.
    assert (orders_by_id_ b !! oid = Some p) by (apply (br_ids _ _ _ _ Hrep); by exists m'). congruence.
  - intros H. destruct (orders_by_id_ b !! oid) as [q|] eqn:E; [|done].
    apply (br_ids _ _ _ _ Hrep) in E as (m & Hin & Hid). exfalso. apply (H m); [|done]. apply list_elem_of_fmap. by exists (q, m).
Qed.

(** The outcome of a call for order [oid] that runs [op] on its book, or rejects. *)
Definition resting_call (A : gmap SecurityId ABook) (e : FullMatchingEngine) (oid : OrderId) (sec : SecurityId)
    (op : ABook → Order → ABook * Order * list EngineEvent) (reject : EngineEvent)
    (e' : FullMatchingEngine) (evs : list EngineEvent) : Prop :=
  engine_inv e' ∧ next_order_id_ e' = next_order_id_ e ∧
  ∃ ab, A !! sec = Some ab ∧
    ((evs = [reject] ∧ (∀ m, m ∈ all_resting ab → order_id m ≠ oid) ∧ books_repr A e') ∨
     ∃ m, m ∈ all_resting ab ∧ order_id m = oid ∧ evs = (op ab m).2 ∧ books_repr (<[sec := (op ab m).1.1]> A) e').

Lemma cancelOrder_inv A e oid sid uuid :
  engine_inv e → books_repr A e →
  let sec := lookup_security (order_to_security_ e) oid sid in
  match A !! sec with
  | None => cancelOrder e oid sid uuid = Some (e, [OrderCancelRejected oid [] uuid 0 "Unknown security ID"])
  | Some _ => ∃ e' evs, cancelOrder e oid sid uuid = Some (e', evs) ∧
      resting_call A e oid sec Spec.cancelOrder (OrderCancelRejected oid [] 0 0 "Order not found") e' evs
  end.
Proof.
  intros He HA sec. unfold cancelOrder. destruct e as [h books o2s owned nid]. simpl in *. fold sec.
  destruct (books !! sec) as [b|] eqn:Eb; [|by rewrite (proj1 (books_repr_none _ _ sec HA))].
  destruct (books_repr_book _ _ _ _ HA Eb) as (gb & ab & EA & Hbo). simpl in Hbo. rewrite EA.
  pose proof Hbo as (Hrep & Hwf & Hent).
  pose proof (cancelOrder_refines _ _ _ _ oid Hrep Hwf) as Hc.
  destruct (orders_by_id_ b !! oid) as [t|] eqn:Eid.
  - destruct Hc as (m & Hin & Hr & Hid & Hout & Hwf'). destruct (Hent _ _ Hin) as [Hown Hsec].
    rewrite Hid in Hown, Hsec.
    pose proof Hout as (h' & b' & gb' & o' & Ec & _ & Ho' & Hu' & _). rewrite Ec in Hout |- *.
    cbn [mbind option_bind app] in *. apply cancelOrder_ids in Ec.
    eapply book_op_inv in Hout as [He2 HA2]; [|exact He|exact HA|done..].
    pose proof (erase_inv _ _ _ _ _ _ oid He2 HA2) as He3.
    destruct (erase_owned h' owned oid) as [h3 owned3].
    destruct He3 as [He3 HA3]; [|eexists _, _; split; [done|]; split_and!; [done..|]; exists ab; split; [done|]; right; by exists m].
    apply (finished_off_book _ oid t o' He2 Hown Ho'). right.
    assert (status o' = Canceled) as ->; [|by intros [|[|]]].
    assert (status (unlink o') = Canceled) as E; [|by destruct o'].
    rewrite Hu'. unfold Spec.cancelOrder. destruct (Spec.removeFromBook ab m), m; done.
  - destruct Hc as [_ ->]. cbn [mbind option_bind]. rewrite insert_id by done.
    pose proof (erase_inv _ _ _ _ _ _ oid He HA) as He3.
    destruct (erase_owned h owned oid) as [h3 owned3]. destruct He3 as [He3 HA3].
    + intros sid' b' Hb'. destruct (orders_by_id_ b' !! oid) as [q|] eqn:E; [|done].
      pose proof (book_of_order _ oid sid _ _ He Hb') as Hs. simpl in Hs. fold sec in Hs.
      rewrite Hs in Eb by (by eexists). congruence.
    + eexists _, _. split; [done|]. split_and!; [done..|]. exists ab. split; [done|]. left. split; [done|]. split; [|done].
      by eapply index_resting.
Qed.

Lemma modifyOrder_inv A e oid sid p q c :
  engine_inv e → books_repr A e → 0 ≤ q < 2 ^ 31 →
  let sec := lookup_security (order_to_security_ e) oid sid in
  match A !! sec with
  | None => modifyOrder e oid sid p q c = Some (e, [OrderCancelRejected oid c 0 0 "Unknown security ID"])
  | Some _ => ∃ e' evs, modifyOrder e oid sid p q c = Some (e', evs) ∧
      resting_call A e oid sec (λ ab m, Spec.modifyOrder ab m p q c) (OrderCancelRejected oid c 0 0 "Order not found") e' evs
  end.
Proof.
  intros He HA Hq sec. unfold modifyOrder. destruct e as [h books o2s owned nid]. simpl in *. fold sec.
  destruct (books !! sec) as [b|] eqn:Eb; [|by rewrite (proj1 (books_repr_none _ _ sec HA))].
  destruct (books_repr_book _ _ _ _ HA Eb) as (gb & ab & EA & Hbo). simpl in Hbo. rewrite EA.
  pose proof Hbo as (Hrep & Hwf & Hent).
  pose proof (modifyOrder_refines _ _ _ _ oid p q c Hrep Hwf Hq) as Hc.
  assert (∃ h' b' evs, OrderBookOps.modifyOrder h b oid p q c = Some (h', b', evs) ∧
    resting_call A (mkEngine h books o2s owned nid) oid sec (λ ab m, Spec.modifyOrder ab m p q c)
      (OrderCancelRejected oid c 0 0 "Order not found") (mkEngine h' (<[sec := b']> books) o2s owned nid) evs) as (h' & b' & evs & -> & Hr).
  { destruct (orders_by_id_ b !! oid) as [t|] eqn:Eid.
    - destruct Hc as (m & Hin & Hr & Hid & (rests & Hout) & Hwf'). destruct (Hent _ _ Hin) as [Hown Hsec].
      rewrite Hid in Hown, Hsec.
      pose proof Hout as (h' & b' & gb' & o' & Ec & _). rewrite Ec in Hout |- *.
      apply modifyOrder_ids in Ec. eapply book_op_inv in Hout as [He2 HA2]; [|exact He|exact HA|done..].
      eexists _, _, _. split; [done|]. split_and!; [done..|]. exists ab. split; [done|]. right. by exists m.
    - destruct Hc as [_ ->]. eexists _, _, _. split; [done|]. rewrite insert_id by done. split_and!; [done..|].
      exists ab. split; [done|]. left. split; [done|]. split; [|done]. by eapply index_resting. }
  cbn [mbind option_bind].
  destruct (owned !! oid) as [t|] eqn:Eo; [|by eexists _, _].
  destruct Hr as (He2 & Hn2 & ab' & Eab & Hr). rewrite EA in Eab. injection Eab as <-.
  destruct (ei_owned _ He2 _ _ Eo) as [(o' & Ho' & _) _]. simpl in Ho'. rewrite Ho'. cbn [mbind option_bind].
  destruct (isFullyFilled o' || _) eqn:Efin; [|eexists _, _; split; [done|]; split_and!; [done..|by exists ab]].
  assert (∀ sid b, <[sec := b']> books !! sid = Some b → orders_by_id_ b !! oid = None) as Hoff.
  { apply (finished_off_book _ oid t o' He2 Eo Ho'). unfold live_status.
    destruct (isFullyFilled o'); [by left|right]. simpl in Efin. apply bool_decide_eq_true in Efin as ->. naive_solver. }
  pose proof (λ A' HA', erase_inv A' _ _ _ _ _ oid He2 HA' Hoff) as He3.
  destruct (erase_owned h' owned oid) as [h3 owned3]. eexists _, _. split; [done|].
  destruct Hr as [(Hev & Hno & HA2)|(m & Hin & Hid & Hev & HA2)]; destruct (He3 _ HA2) as [He4 HA4];
    (split_and!; [done..|]); exists ab; (split; [done|]); [by left|right; by exists m].
Qed.

Definition empty_book (sid : SecurityId) : ABook := mkABook sid [] [] 1 1.

Lemma empty_book_owned h o2s owned sid : book_owned h o2s owned sid (OrderBook_init sid) ([], []) (empty_book sid).
Proof.
  split; [|split].
  - split; try done; [constructor|constructor|constructor|].
    intros id p. cbn [orders_by_id_ OrderBook_init]. rewrite lookup_empty. split; [done|]. intros (m & Hin & _). by apply elem_of_nil in Hin.
  - split; [split; constructor|split; constructor|constructor|]. intros k k' Hk. by apply elem_of_nil in Hk.
  - intros p m Hin. by apply elem_of_nil in Hin.
Qed.

Lemma addInstrument_inv e sid : engine_inv e → engine_inv (addInstrument e sid).
Proof.
  intros He. destruct e as [h books o2s owned nid]. simpl. destruct (books !! sid) eqn:E; [done|].
  destruct He as [H1 H2 H3 H4]; simpl in *. split; simpl; [|done..].
  intros sid' b [[<- <-]|[_ Hb]]%lookup_insert_Some; [|by apply H1].
  exists ([], []), (empty_book sid). apply empty_book_owned.
Qed.

Lemma addInstrument_books A e sid : books_repr A e →
  books_repr (match A !! sid with Some _ => A | None => <[sid := empty_book sid]> A end) (addInstrument e sid).
Proof.
  intros HA. pose proof (books_repr_none _ _ sid HA) as Hno. destruct e as [h books o2s owned nid]. simpl in *.
  destruct (books !! sid) as [b|] eqn:E, (A !! sid) as [ab|] eqn:EA; try done; [by destruct Hno as [_ Hno]; discriminate Hno| |].
  { by destruct Hno as [Hno _]; discriminate Hno. }
  intros sid'. cbn. destruct (decide (sid = sid')) as [<-|Hne].
  - rewrite !lookup_insert_eq. exists ([], []). apply empty_book_owned.
  - rewrite !lookup_insert_ne by done. apply (HA sid').
Qed.

Lemma Engine_init_inv : engine_inv Engine_init.
Proof. split; simpl; [done|done|by rewrite !dom_empty_L|lia]. Qed.

Lemma Engine_init_books : books_repr ∅ Engine_init.
Proof. intros sid. cbn. by rewrite !lookup_empty. Qed.
