(* ===== verification/EngineTheorems.v ===== *)
(** * Theorems about the matching engine

    Any sequence of engine calls with quantities in range runs without a memory
    error, leaves every book well formed and uncrossed, and does what the engine
    without pointers does: an abstract book per instrument. *)
From S2P Require Import Prelude Types OrderedMap Order PriceLevel OrderBook BookSpec BookWf BookRefine BookRefineOps BookInv BookCorrect BookFrame Engine.
Import EngineOps.

Inductive EngineCmd :=
  | EAddInstrument (sid : SecurityId)
  | ESubmit (now : Timestamp) (order : Order)
  | ECancel (oid : OrderId) (sid : SecurityId) (uuid : Z)
  | EModify (oid : OrderId) (sid : SecurityId) (new_price : Price) (new_qty : Quantity) (new_cl_ord_id : ClOrdId).

Definition eng_cmd (e : FullMatchingEngine) (c : EngineCmd) : option (FullMatchingEngine * list EngineEvent) :=
  match c with
  | EAddInstrument sid => Some (addInstrument e sid, [])
  | ESubmit now o => submitOrder e now o
  | ECancel oid sid uuid => cancelOrder e oid sid uuid
  | EModify oid sid p q cl => modifyOrder e oid sid p q cl
  end.

Fixpoint eng_run (e : FullMatchingEngine) (cs : list EngineCmd) : option (FullMatchingEngine * list EngineEvent) :=
  match cs with
  | [] => Some (e, [])
  | c :: cs =>
      '(e, evs) ← eng_cmd e c; '(e, evs') ← eng_run e cs; Some (e, evs ++ evs')
  end.

(** A submitted order has its quantities in range and a working status; a
    modified quantity is in range. Nothing is asked of ids, sides, types, prices
    or securities. *)
Definition eng_cmd_ok (c : EngineCmd) : Prop :=
  match c with
  | ESubmit _ o => qty_ok o ∧ live o
  | EModify _ _ _ q _ => 0 ≤ q < 2 ^ 31
  | _ => True
  end.

(** Each call uses at most one order id. *)
Lemma eng_cmd_next e c e' evs :
  eng_cmd e c = Some (e', evs) → 1 ≤ next_order_id_ e → next_order_id_ e + 1 < 2 ^ 64 →
  next_order_id_ e' ≤ next_order_id_ e + 1.
Proof.
  destruct e as [h books o2s owned nid]. simpl. intros Hc Hlo Hhi.
  assert (u64 (nid + 1) = nid + 1) as Eu by (apply wrapu_small; lia).
  destruct c as [sid|now o|oid sid uuid|oid sid p q cl]; simpl in Hc.
  - injection Hc as <- _. destruct (books !! sid); simpl; lia.
  - rewrite Eu in Hc. destruct (books !! _); [|injection Hc as <- _; simpl; lia].
    destruct (assign_owned _ _ _ _). run_steps; simpl; lia.
  - destruct (books !! _); [|injection Hc as <- _; simpl; lia].
    run_steps; simpl; lia.
  - destruct (books !! _); [|injection Hc as <- _; simpl; lia].
    run_steps; simpl; lia.
Qed.

(** ** The engine without pointers

    An abstract book per instrument and the next order id. *)
Record AEngine := mkAEngine { ae_books : gmap SecurityId ABook; ae_next : Z }.

Definition ae_set (sid : SecurityId) (ab : ABook) (A : AEngine) : AEngine := mkAEngine (<[sid := ab]> (ae_books A)) (ae_next A).
Definition ae_count (A : AEngine) : AEngine := mkAEngine (ae_books A) (ae_next A + 1).
(** The order as it enters the book: with its id and the time. *)
Definition entered (A : AEngine) (now : Timestamp) (o : Order) : Order := unlink (set_timestamp (u64 now) (set_order_id (ae_next A) o)).

(** No order [oid] rests anywhere. *)
Definition unknown_id (A : AEngine) (oid : OrderId) : Prop :=
  ∀ sec ab m, ae_books A !! sec = Some ab → m ∈ all_resting ab → order_id m ≠ oid.

Inductive engine_spec (A : AEngine) : EngineCmd → AEngine → list EngineEvent → Prop :=
| es_instrument sid : ae_books A !! sid = None → engine_spec A (EAddInstrument sid) (ae_set sid (empty_book sid) A) []
| es_instrument_again sid : is_Some (ae_books A !! sid) → engine_spec A (EAddInstrument sid) A []
| es_submit now o ab :
    ae_books A !! security_id o = Some ab →
    engine_spec A (ESubmit now o) (ae_count (ae_set (security_id o) (Spec.addOrder ab (entered A now o)).1.1 A)) (Spec.addOrder ab (entered A now o)).2
| es_submit_unknown now o :
    ae_books A !! security_id o = None →
    engine_spec A (ESubmit now o) (ae_count A) [OrderRejected (cl_ord_id o) (session_uuid o) "Unknown security ID" 0]
| es_cancel oid sid uuid sec ab m :
    ae_books A !! sec = Some ab → m ∈ all_resting ab → order_id m = oid →
    engine_spec A (ECancel oid sid uuid) (ae_set sec (Spec.cancelOrder ab m).1.1 A) (Spec.cancelOrder ab m).2
| es_cancel_unknown oid sid uuid ev :
    unknown_id A oid →
    ev = OrderCancelRejected oid [] 0 0 "Order not found" ∨
      (ae_books A !! sid = None ∧ ev = OrderCancelRejected oid [] uuid 0 "Unknown security ID") →
    engine_spec A (ECancel oid sid uuid) A [ev]
| es_modify oid sid p q cl sec ab m :
    ae_books A !! sec = Some ab → m ∈ all_resting ab → order_id m = oid →
    engine_spec A (EModify oid sid p q cl) (ae_set sec (Spec.modifyOrder ab m p q cl).1.1 A) (Spec.modifyOrder ab m p q cl).2
| es_modify_unknown oid sid p q cl ev :
    unknown_id A oid →
    ev = OrderCancelRejected oid cl 0 0 "Order not found" ∨
      (ae_books A !! sid = None ∧ ev = OrderCancelRejected oid cl 0 0 "Unknown security ID") →
    engine_spec A (EModify oid sid p q cl) A [ev].

Inductive engine_specs : AEngine → list EngineCmd → AEngine → list EngineEvent → Prop :=
| ess_nil A : engine_specs A [] A []
| ess_cons A c A1 evs1 cs A2 evs2 : engine_spec A c A1 evs1 → engine_specs A1 cs A2 evs2 → engine_specs A (c :: cs) A2 (evs1 ++ evs2).

(** An engine and the abstract one it implements. *)
Record engine_repr (A : AEngine) (e : FullMatchingEngine) : Prop := {
  er_inv : engine_inv e;
  er_books : books_repr (ae_books A) e;
  er_next : next_order_id_ e = ae_next A;
  er_recorded oid sec : order_to_security_ e !! oid = Some sec → is_Some (order_books_ e !! sec);
}.

(** Books are never removed, and an order is recorded under a known security. *)
Lemma eng_cmd_recorded e c e' evs : eng_cmd e c = Some (e', evs) →
  (∀ oid sec, order_to_security_ e !! oid = Some sec → is_Some (order_books_ e !! sec)) →
  ∀ oid sec, order_to_security_ e' !! oid = Some sec → is_Some (order_books_ e' !! sec).
Proof.
  destruct e as [h books o2s owned nid]. intros Hc H.
  assert (∀ sid b, is_Some (<[sid := b]> books !! sid)) as Hself by (intros; rewrite lookup_insert_eq; by eexists).
  assert (∀ sid b sec, is_Some (books !! sec) → is_Some (<[sid := b]> books !! sec)) as Hgrow
    by (intros sid b sec Hs; destruct (decide (sid = sec)) as [<-|?]; [apply Hself|by rewrite lookup_insert_ne]).
  destruct c as [sid|now o|oid0 sid uuid|oid0 sid p q cl]; cbn in Hc, H; unfold assign_owned, erase_owned in Hc; run_steps;
    (intros oid sec Hs; try (destruct (books !! sid)); cbn in Hs |- *);
    repeat match goal with
    | H : delete _ _ !! _ = Some _ |- _ => apply lookup_delete_Some in H as [_ H]
    | H : <[_ := _]> _ !! _ = Some _ |- _ => apply lookup_insert_Some in H as [[<- <-]|[_ H]]
    end; eauto.
Qed.

(** A call for an order by its id, whatever security the caller names. *)
Lemma resting_call_spec A e oid sid op reject :
  engine_repr A e →
  let sec := lookup_security (order_to_security_ e) oid sid in
  (ae_books A !! sec = None → ae_books A !! sid = None ∧ unknown_id A oid) ∧
  ∀ e' evs, resting_call (ae_books A) e oid sec op reject e' evs →
    ∃ A', books_repr (ae_books A') e' ∧ ae_next A' = ae_next A ∧
      ((evs = [reject] ∧ unknown_id A oid ∧ A' = A) ∨
       ∃ ab m, ae_books A !! sec = Some ab ∧ m ∈ all_resting ab ∧ order_id m = oid ∧ A' = ae_set sec (op ab m).1.1 A ∧ evs = (op ab m).2).
Proof.
  intros [He HA Hn Hrec] sec.
  assert (∀ sec' ab m, ae_books A !! sec' = Some ab → m ∈ all_resting ab → order_id m = oid → sec' = sec) as Hwhere.
  { intros sec' ab m Hab Hin Hid. pose proof (HA sec') as Hb. rewrite Hab in Hb. destruct (order_books_ e !! sec') as [b|] eqn:Eb; [|done].
    destruct Hb as (gb & Hrep & _). symmetry. apply (book_of_order e oid sid sec' b He Eb).
    destruct (orders_by_id_ b !! oid) as [q|] eqn:E; [by eexists|]. by destruct (proj1 (index_resting _ _ _ _ oid Hrep) E m Hin). }
  split.
  - intros Hno. split; [|intros sec' ab m Hab Hin Hid; rewrite (Hwhere _ _ _ Hab Hin Hid) in Hab; congruence].
    subst sec. unfold lookup_security in Hno. destruct (order_to_security_ e !! oid) as [s|] eqn:Es; [|done].
    destruct (Hrec _ _ Es) as [b Hb]. apply (books_repr_none _ _ _ HA) in Hno. congruence.
  - intros e' evs (_ & _ & ab & Hab & [(-> & Hno & HA')|(m & Hin & Hid & -> & HA')]).
    + exists A. split; [done|]. split; [done|]. left. split; [done|]. split; [|done].
      intros sec' ab' m Hab' Hin Hid. rewrite (Hwhere _ _ _ Hab' Hin Hid) in Hab'. rewrite Hab in Hab'. injection Hab' as <-. by apply (Hno m).
    + exists (ae_set sec (op ab m).1.1 A). split; [done|]. split; [done|]. right. by exists ab, m.
Qed.

Lemma eng_cmd_spec A e c :
  engine_repr A e → eng_cmd_ok c → next_order_id_ e + 1 < 2 ^ 64 →
  ∃ e' evs A', eng_cmd e c = Some (e', evs) ∧ engine_spec A c A' evs ∧ engine_repr A' e'.
Proof.
  intros HR Hc Hlt. pose proof HR as [He HA Hn Hrec].
  assert (∃ e' evs A', eng_cmd e c = Some (e', evs) ∧ engine_spec A c A' evs ∧ engine_inv e' ∧ books_repr (ae_books A') e' ∧
    next_order_id_ e' = ae_next A') as (e' & evs & A' & E & Hs & ? & ? & ?).
  2:{ exists e', evs, A'. split; [done|]. split; [done|]. split; [done..|]. by eapply eng_cmd_recorded. }
  destruct c as [sid|now o|oid sid uuid|oid sid p q cl]; simpl in Hc |- *.
  - pose proof (addInstrument_inv e sid He) as He'. pose proof (addInstrument_books _ e sid HA) as HA'.
    assert (next_order_id_ (addInstrument e sid) = ae_next A) as Hn' by (rewrite <-Hn; destruct e as [h books ???]; cbn; by destruct (books !! sid)).
    revert HA'. destruct (ae_books A !! sid) eqn:EA; intros HA';
      [exists (addInstrument e sid), [], A|exists (addInstrument e sid), [], (ae_set sid (empty_book sid) A)]; (split; [done|]); (split; [by constructor|]); done.
  - destruct Hc as [Hq Hl]. pose proof (submitOrder_inv _ e now o He HA Hlt Hq Hl) as H.
    unfold stamped in H. rewrite Hn in H. fold (entered A now o) in H. cbv zeta in H.
    destruct (ae_books A !! security_id o) as [ab|] eqn:EA.
    + destruct H as (e' & E & He' & HA' & Hn'). eexists e', _, _. split; [done|]. split; [by apply es_submit|]. done.
    + destruct H as (E & He' & HA'). eexists _, _, _. split; [done|]. split; [by apply es_submit_unknown|]. done.
  - pose proof (cancelOrder_inv _ e oid sid uuid He HA) as H. cbv zeta in H.
    destruct (resting_call_spec A e oid sid Spec.cancelOrder (OrderCancelRejected oid [] 0 0 "Order not found") HR) as [Hnone Hsome].
    destruct (ae_books A !! lookup_security _ _ _) as [ab|] eqn:EA.
    + destruct H as (e' & evs & E & Hr). destruct (Hsome _ _ Hr) as (A' & HA' & Hn' & Hcase). destruct Hr as (He' & Hne & _).
      exists e', evs, A'. split; [done|]. split; [|split_and!; [done..|congruence]].
      destruct Hcase as [(-> & Hu & ->)|(ab' & m & Hab & Hin & Hid & -> & ->)]; [apply es_cancel_unknown; auto|injection Hab as <-; by eapply es_cancel].
    + destruct (Hnone eq_refl) as [Hsid Hu]. exists e, [OrderCancelRejected oid [] uuid 0 "Unknown security ID"], A. split; [done|].
      split; [apply es_cancel_unknown; auto|done].
  - pose proof (modifyOrder_inv _ e oid sid p q cl He HA Hc) as H. cbv zeta in H.
    destruct (resting_call_spec A e oid sid (λ ab m, Spec.modifyOrder ab m p q cl) (OrderCancelRejected oid cl 0 0 "Order not found") HR) as [Hnone Hsome].
    destruct (ae_books A !! lookup_security _ _ _) as [ab|] eqn:EA.
    + destruct H as (e' & evs & E & Hr). destruct (Hsome _ _ Hr) as (A' & HA' & Hn' & Hcase). destruct Hr as (He' & Hne & _).
      exists e', evs, A'. split; [done|]. split; [|split_and!; [done..|congruence]].
      destruct Hcase as [(-> & Hu & ->)|(ab' & m & Hab & Hin & Hid & -> & ->)]; [apply es_modify_unknown; auto|injection Hab as <-; by eapply es_modify].
    + destruct (Hnone eq_refl) as [Hsid Hu]. exists e, [OrderCancelRejected oid cl 0 0 "Unknown security ID"], A. split; [done|].
      split; [apply es_modify_unknown; auto|done].
Qed.

(** The invariant alone. *)
Lemma eng_cmd_inv e c :
  engine_inv e → eng_cmd_ok c → next_order_id_ e + 1 < 2 ^ 64 →
  ∃ e' evs, eng_cmd e c = Some (e', evs) ∧ engine_inv e'.
Proof.
  intros He Hc Hn. destruct (books_exist e He) as [A HA]. destruct c as [sid|now o|oid sid uuid|oid sid p q cl]; simpl in *.
  - eexists _, _. split; [done|by apply addInstrument_inv].
  - destruct Hc as [Hq Hl]. pose proof (submitOrder_inv _ e now o He HA Hn Hq Hl) as H. cbv zeta in H.
    destruct (A !! security_id o); [destruct H as (e' & -> & ? & _)|destruct H as (-> & ? & _)]; eauto.
  - pose proof (cancelOrder_inv _ e oid sid uuid He HA) as H. cbv zeta in H.
    destruct (A !! _); [destruct H as (e' & evs & -> & ? & _); eauto|rewrite H; eauto].
  - pose proof (modifyOrder_inv _ e oid sid p q cl He HA Hc) as H. cbv zeta in H.
    destruct (A !! _); [destruct H as (e' & evs & -> & ? & _); eauto|rewrite H; eauto].
Qed.

Lemma eng_run_inv cs e :
  engine_inv e → Forall eng_cmd_ok cs → next_order_id_ e + Z.of_nat (length cs) < 2 ^ 64 →
  ∃ e' evs, eng_run e cs = Some (e', evs) ∧ engine_inv e'.
Proof.
  intros He HF. revert e He. induction HF as [|c cs Hc HF IH]; intros e He Hn; simpl in *; [by eexists _, _|].
  destruct (eng_cmd_inv e c He Hc) as (e1 & evs1 & Ec & He1); [lia|]. rewrite Ec. cbn [mbind option_bind].
  pose proof (ei_next _ He). pose proof (eng_cmd_next _ _ _ _ Ec).
  destruct (IH e1 He1) as (e2 & evs2 & -> & He2); [lia|]. by eexists _, _.
Qed.

(** A concrete session: two instruments, a resting sell, a crossing buy that
    partly trades and rests, a modify that crosses, and cancels of a known and
    an unknown order. *)
Definition demo_order (sid : SecurityId) (s : Side) (p q : Z) : Order :=
  mkOrder 0 [] 7 sid s Limit Day (mkPrice p) (mkPrice 0) q 0 0 0 0 New 0 None None.
Definition demo_cmds : list EngineCmd :=
  [EAddInstrument 1; EAddInstrument 2; ESubmit 10 (demo_order 1 Sell 100 10); ESubmit 11 (demo_order 1 Buy 101 14);
   ESubmit 12 (demo_order 9 Buy 5 1); ESubmit 13 (demo_order 1 Sell 103 3); EModify 4 1 (mkPrice 101) 3 [];
   ECancel 2 1 7; ECancel 77 1 7].

Lemma demo_cmds_ok : Forall eng_cmd_ok demo_cmds.
Proof.
  unfold demo_cmds. repeat constructor; unfold qty_ok, live, live_status; cbn; try lia; auto.
Qed.

(** C12: from an empty engine, any sequence of fewer than 2^64 - 1 calls with
    quantities in range runs to the end: no call ever reads or writes an order
    that was freed or never allocated, no matching loop runs away, and the
    engine invariant holds at the end (every book is well formed, every resting
    order is owned by the engine under its id and its security). *)
Theorem engine_runs_memory_safe cs :
  Forall eng_cmd_ok cs → Z.of_nat (length cs) < 2 ^ 64 - 1 →
  ∃ e evs, eng_run Engine_init cs = Some (e, evs) ∧ engine_inv e.
Proof. intros HF Hn. apply (eng_run_inv cs Engine_init); [apply Engine_init_inv|done|simpl; lia]. Qed.

Lemma engine_runs_memory_safe_witness : ∃ e evs, eng_run Engine_init demo_cmds = Some (e, evs) ∧ engine_inv e.
Proof. apply (engine_runs_memory_safe demo_cmds demo_cmds_ok). vm_compute. reflexivity. Defined.

Lemma eng_run_spec cs : ∀ A e,
  engine_repr A e → Forall eng_cmd_ok cs → next_order_id_ e + Z.of_nat (length cs) < 2 ^ 64 →
  ∃ e' evs A', eng_run e cs = Some (e', evs) ∧ engine_specs A cs A' evs ∧ engine_repr A' e'.
Proof.
  induction cs as [|c cs IH]; intros A e HR HF Hn; [exists e, [], A; split; [done|]; split; [constructor|done]|].
  apply Forall_cons in HF as [Hc HF]. cbn [length] in Hn.
  destruct (eng_cmd_spec A e c HR Hc ltac:(lia)) as (e1 & evs1 & A1 & E1 & S1 & R1).
  pose proof (ei_next _ (er_inv _ _ HR)). pose proof (eng_cmd_next _ _ _ _ E1 ltac:(lia) ltac:(lia)).
  destruct (IH A1 e1 R1 HF ltac:(lia)) as (e2 & evs2 & A2 & E2 & S2 & R2).
  exists e2, (evs1 ++ evs2), A2. split; [cbn [eng_run]; by rewrite E1; cbn; rewrite E2|]. split; [by eapply ess_cons|done].
Qed.

(** C23: the engine is a price-time-priority book per instrument. From an empty
    engine, any sequence of fewer than 2^64 - 1 calls with quantities in range
    returns exactly the events of the engine without pointers, and its books
    represent the abstract ones: orders get the ids 1, 2, 3, ... and the time of
    the call, and are matched by the book of their security only; a submission for
    a security without a book is rejected, and uses up its id; a cancel or a
    modification acts on the order with that id in the book it rests in, whatever
    security the caller named; if it rests nowhere, it is rejected and no book
    changes. *)
Theorem engine_run_refines_spec cs :
  Forall eng_cmd_ok cs → Z.of_nat (length cs) < 2 ^ 64 - 1 →
  ∃ e evs A, eng_run Engine_init cs = Some (e, evs) ∧ engine_specs (mkAEngine ∅ 1) cs A evs ∧
    books_repr (ae_books A) e ∧ next_order_id_ e = ae_next A.
Proof.
  intros HF Hn. destruct (eng_run_spec cs (mkAEngine ∅ 1) Engine_init) as (e & evs & A & E & S & [? ? ? ?]); [|done|cbn; lia|by exists e, evs, A].
  split; [apply Engine_init_inv|apply Engine_init_books|done|]. intros oid sec. cbn. by rewrite lookup_empty.
Qed.

Lemma engine_run_refines_spec_witness :
  ∃ e evs A, eng_run Engine_init demo_cmds = Some (e, evs) ∧ engine_specs (mkAEngine ∅ 1) demo_cmds A evs ∧
    books_repr (ae_books A) e ∧ next_order_id_ e = ae_next A.
Proof. apply (engine_run_refines_spec demo_cmds demo_cmds_ok). vm_compute. reflexivity. Defined.

(** An engine in its invariant has no crossed or locked book. *)
Lemma engine_book_uncrossed e sid b :
  engine_inv e → getOrderBook e sid = Some b → bid_levels_ b ≠ [] → ask_levels_ b ≠ [] →
  mantissa (OrderBookOps.bestBid b) < mantissa (OrderBookOps.bestAsk b).
Proof.
  intros He Hb Hbid Hask. destruct (ei_books _ He _ _ Hb) as (gb & ab & Hrep & Hwf & _).
  pose proof (wf_uncrossed _ Hwf) as Hu. destruct Hrep as [_ _ _ Hl1 Hl2 E1 E2 _ _].
  rewrite E1, E2 in Hu. unfold uncrossed in Hu.
  rewrite (levels_repr_keys _ _ _ Hl1), (levels_repr_keys _ _ _ Hl2) in Hu.
  unfold OrderBookOps.bestBid, OrderBookOps.bestAsk. destruct (bid_levels_ b) as [|[k lv] M]; [done|].
  destruct (ask_levels_ b) as [|[k' lv'] M']; [done|]. apply Hu; by left.
Qed.

(** Whatever the calls, no book of the engine is ever crossed or locked. *)
Theorem engine_books_never_crossed cs e evs sid b :
  Forall eng_cmd_ok cs → Z.of_nat (length cs) < 2 ^ 64 - 1 →
  eng_run Engine_init cs = Some (e, evs) → getOrderBook e sid = Some b →
  bid_levels_ b ≠ [] → ask_levels_ b ≠ [] →
  mantissa (OrderBookOps.bestBid b) < mantissa (OrderBookOps.bestAsk b).
Proof.
  intros HF Hn Hrun Hb Hbid Hask.
  destruct (eng_run_inv cs Engine_init Engine_init_inv HF) as (e' & evs' & Hrun' & He); [simpl; lia|].
  assert (e' = e) as -> by congruence. by eapply engine_book_uncrossed.
Qed.

Definition demo_crossing : list EngineCmd :=
  [EAddInstrument 1; ESubmit 10 (demo_order 1 Sell 100 10); ESubmit 11 (demo_order 1 Sell 105 10);
   ESubmit 12 (demo_order 1 Buy 101 14)].

Lemma engine_books_never_crossed_witness :
  ∃ e evs b, eng_run Engine_init demo_crossing = Some (e, evs) ∧ getOrderBook e 1 = Some b ∧
    mantissa (OrderBookOps.bestBid b) < mantissa (OrderBookOps.bestAsk b).
Proof.
  eexists _, _, _. split; [vm_compute; reflexivity|]. split; [vm_compute; reflexivity|].
  eapply (engine_books_never_crossed demo_crossing _ _ 1); [|vm_compute; reflexivity|vm_compute; reflexivity| | |].
  - unfold demo_crossing. repeat constructor; unfold qty_ok, live, live_status; cbn; try lia; auto.
  - vm_compute; reflexivity.
  - done.
  - done.
Defined.

(** Orders that leave the market are not released. A resting order that is
    filled by an incoming one and a fill-or-kill order that is rejected both
    stay in the engine's ownership maps after the call, although no book refers
    to them. *)
Theorem finished_orders_stay_owned :
  let fok := mkOrder 0 [] 7 1 Buy Limit FOK (mkPrice 100) (mkPrice 0) 5 0 0 0 0 New 0 None None in
  ('(e, _) ← eng_run Engine_init
     [EAddInstrument 1; ESubmit 10 (demo_order 1 Sell 100 10); ESubmit 11 (demo_order 1 Buy 100 10); ESubmit 12 fok];
   b ← getOrderBook e 1; p ← owned_orders_ e !! 1; o ← eng_heap e !! p; q ← owned_orders_ e !! 3; o' ← eng_heap e !! q;
   Some (status o, time_in_force o', order_to_security_ e !! 1, order_to_security_ e !! 3, owned_orders_ e !! 2,
     orders_by_id_ b !! 1, bid_levels_ b, ask_levels_ b)) =
  Some (Filled, FOK, Some 1, Some 1, None, None, [], []).
Proof. vm_compute. reflexivity. Qed.
