(* ===== verification/RetransmitBuffer.v ===== *)
(** * Retransmission buffer (src/fixp/retransmit_buffer.h)

    The circular buffer of recent outbound messages, and the window of messages
    it can still return. *)
From S2P Require Import Prelude.

Record Entry := mkEntry { e_seq_num : Z; e_data : list byte }.
Record RetransmitBuffer := mkRB { capacity_ : Z; entries_ : list Entry }.

Module RetransmitOps.

Definition Entry_init : Entry := mkEntry 0 [].
Definition RetransmitBuffer_init (capacity : Z) : RetransmitBuffer :=
  mkRB capacity (replicate (Z.to_nat capacity) Entry_init).

(** [seq_num % capacity_], undefined for an empty buffer. *)
Definition slot (rb : RetransmitBuffer) (seq_num : Z) : option nat :=
  if capacity_ rb =? 0 then None else Some (Z.to_nat (seq_num mod capacity_ rb)).

Definition store (rb : RetransmitBuffer) (seq_num : Z) (data : list byte) : option RetransmitBuffer :=
  idx ← slot rb seq_num;
  _ ← entries_ rb !! idx;
  Some (mkRB (capacity_ rb) (<[idx := mkEntry seq_num data]> (entries_ rb))).

(** The inner option is the returned pointer: [None] is [nullptr]. *)
Definition retrieve (rb : RetransmitBuffer) (seq_num : Z) : option (option (list byte)) :=
  idx ← slot rb seq_num;
  e ← entries_ rb !! idx;
  Some (if (e_seq_num e =? seq_num) && negb (bool_decide (e_data e = []))
        then Some (e_data e) else None).

End RetransmitOps.
Import RetransmitOps.

(** ** What the buffer holds

    [sent] are the messages stored so far; the [k]-th one (from 1) was stored
    under the sequence number [k]. *)
Definition slot_holds (cap : Z) (sent : list (list byte)) (idx : Z) (e : Entry) : Prop :=
  (e = Entry_init ∧ ∀ k, 1 ≤ k ≤ Z.of_nat (length sent) → k mod cap ≠ idx) ∨
  (∃ k d, e = mkEntry k d ∧ k mod cap = idx ∧ sent !! Z.to_nat (k - 1) = Some d ∧
     1 ≤ k ≤ Z.of_nat (length sent) ∧ Z.of_nat (length sent) - cap < k).

Record rb_repr (cap : Z) (rb : RetransmitBuffer) (sent : list (list byte)) : Prop := {
  rb_cap : capacity_ rb = cap;
  rb_pos : 0 < cap;
  rb_len : length (entries_ rb) = Z.to_nat cap;
  rb_slots : ∀ idx, 0 ≤ idx < cap →
    ∃ e, entries_ rb !! Z.to_nat idx = Some e ∧ slot_holds cap sent idx e;
}.

(** The message with the given number, when it is one of the last [cap]. *)
Definition in_window (cap : Z) (sent : list (list byte)) (seq_num : Z) : option (list byte) :=
  if decide (1 ≤ seq_num ∧ Z.of_nat (length sent) - cap < seq_num)
  then d ← sent !! Z.to_nat (seq_num - 1); if decide (d = []) then None else Some d
  else None.

Lemma init_repr cap : 0 < cap → rb_repr cap (RetransmitBuffer_init cap) [].
Proof.
  intros. split; simpl; [done | done | apply length_replicate |].
  intros idx Hidx. exists Entry_init. split; [apply lookup_replicate_2; lia |].
  left. split; [done | simpl; lia].
Qed.

(** Numbers that share a slot within one window are equal. *)
Lemma same_slot cap a b : 0 < cap → a mod cap = b mod cap → - cap < a - b < cap → a = b.
Proof.
  intros Hc E Hab. pose proof (Z.div_mod a cap). pose proof (Z.div_mod b cap).
  assert (a / cap = b / cap) by nia. nia.
Qed.

Lemma slot_of cap rb sent q : rb_repr cap rb sent → 0 ≤ q →
  slot rb q = Some (Z.to_nat (q mod cap)) ∧ 0 ≤ q mod cap < cap.
Proof.
  intros [Hc Hp _ _] Hq. unfold slot. rewrite Hc.
  replace (cap =? 0) with false by lia. split; [done | by apply Z.mod_pos_bound].
Qed.

Lemma store_repr cap rb sent d :
  rb_repr cap rb sent →
  ∃ rb', store rb (Z.of_nat (length sent) + 1) d = Some rb' ∧ rb_repr cap rb' (sent ++ [d]).
Proof.
  intros Hr. set (n := Z.of_nat (length sent)).
  destruct (slot_of _ _ _ (n + 1) Hr ltac:(lia)) as [Hs Hm].
  destruct Hr as [Hc Hp Hl Hslots]. unfold store. rewrite Hs. simpl.
  destruct (Hslots _ Hm) as (e & -> & _). simpl. eexists. split; [done |].
  split; simpl; [done | done | by rewrite length_insert |].
  intros idx Hidx. destruct (decide (idx = (n + 1) mod cap)) as [-> |Hne].
  - eexists. split; [apply list_lookup_insert_eq; lia |].
    right. exists (n + 1), d. rewrite length_app. simpl.
    rewrite lookup_app_r by lia. replace (Z.to_nat (n + 1 - 1) - length sent)%nat with 0%nat by lia.
    repeat split; lia.
  - rewrite list_lookup_insert_ne by (intros E; apply Hne; lia).
    destruct (Hslots idx Hidx) as (e' & Hl' & He'). exists e'. split; [done |].
    unfold slot_holds. rewrite length_app. simpl. destruct He' as [[-> Hnone]|(k & x & -> & Hk & Hx & Hk1 & Hk2)].
    + left. split; [done |]. intros k Hk E. destruct (decide (k = n + 1)) as [-> |]; [by rewrite E in Hne |].
      apply (Hnone k); [lia | done].
    + right. exists k, x. split; [done |]. split; [done |].
      split; [by apply lookup_app_l_Some |]. split; [lia |].
      assert (k ≠ n + 1 - cap); [| lia]. intros ->. apply Hne. rewrite <-Hk.
      replace (n + 1 - cap) with (n + 1 + (-1) * cap) by lia. by rewrite Z.mod_add by lia.
Qed.

Lemma retrieve_repr cap rb sent q :
  rb_repr cap rb sent → 0 ≤ q → retrieve rb q = Some (in_window cap sent q).
Proof.
  intros Hr Hq. destruct (slot_of _ _ _ q Hr Hq) as [Hs Hm].
  destruct Hr as [Hc Hp Hl Hslots]. unfold retrieve. rewrite Hs. simpl.
  destruct (Hslots _ Hm) as (e & -> & He). simpl. f_equal. unfold in_window.
  destruct He as [[-> Hnone]|(k & x & -> & Hk & Hx & Hk1 & Hk2)]; simpl.
  - rewrite andb_false_r.
    case_decide as Hd; [| done].
    destruct (sent !! Z.to_nat (q - 1)) as [y|] eqn:Ey; [| done].
    apply lookup_lt_Some in Ey. exfalso. apply (Hnone q); [lia | done].
  - destruct (Z.eqb_spec k q) as [-> |Hkq]; simpl.
    + rewrite decide_True by lia. rewrite Hx. simpl. case_decide; by case_bool_decide.
    + case_decide as Hd; [| done].
      destruct (sent !! Z.to_nat (q - 1)) as [y|] eqn:Ey; [| done].
      apply lookup_lt_Some in Ey. exfalso. apply Hkq. apply (same_slot cap); lia.
Qed.
