(* ===== verification/Session.v ===== *)
(** * FIXP session (src/fixp/session.h, src/fixp/session.cpp,
    src/fixp/hmac_authenticator.h)

    One [Session] is the server side of an iLink 3 connection. Its methods run
    in a small state monad over the session object, the outputs handed to the
    two callbacks and the number of clock reads so far. The values the clocks
    return are parameters indexed by that number, so every theorem holds for
    any clock; the [option] of the monad is an access outside a buffer. Log
    calls are left out. *)
From S2P Require Import Prelude Types Sbe ILink3 RetransmitBuffer.

Inductive SessionState := Connected | Negotiated | Established | Terminated.
#[export] Instance SessionState_eq_dec : EqDecision SessionState.
Proof. solve_decision. Defined.

(** The callbacks are [std::function]s, empty or not; what they are called with
    is an [Output]. *)
Record Session := mkSession {
  uuid_ : Z;
  state_ : SessionState;
  send_cb_ : bool;
  app_cb_ : bool;
  next_in_seq_ : Z;
  next_out_seq_ : Z;
  keep_alive_interval_ms_ : Z;
  last_received_ : Z;
  last_sent_ : Z;
  hmac_enabled_ : bool;
  hmac_key_ : list byte;
  retransmit_buffer_ : RetransmitBuffer;
}.

Definition set_state v (s : Session) : Session :=
  mkSession (uuid_ s) v (send_cb_ s) (app_cb_ s) (next_in_seq_ s) (next_out_seq_ s) (keep_alive_interval_ms_ s) (last_received_ s) (last_sent_ s) (hmac_enabled_ s) (hmac_key_ s) (retransmit_buffer_ s).
Definition set_next_in_seq v (s : Session) : Session :=
  mkSession (uuid_ s) (state_ s) (send_cb_ s) (app_cb_ s) v (next_out_seq_ s) (keep_alive_interval_ms_ s) (last_received_ s) (last_sent_ s) (hmac_enabled_ s) (hmac_key_ s) (retransmit_buffer_ s).
Definition set_next_out_seq v (s : Session) : Session :=
  mkSession (uuid_ s) (state_ s) (send_cb_ s) (app_cb_ s) (next_in_seq_ s) v (keep_alive_interval_ms_ s) (last_received_ s) (last_sent_ s) (hmac_enabled_ s) (hmac_key_ s) (retransmit_buffer_ s).
Definition set_keep_alive v (s : Session) : Session :=
  mkSession (uuid_ s) (state_ s) (send_cb_ s) (app_cb_ s) (next_in_seq_ s) (next_out_seq_ s) v (last_received_ s) (last_sent_ s) (hmac_enabled_ s) (hmac_key_ s) (retransmit_buffer_ s).
Definition set_last_received v (s : Session) : Session :=
  mkSession (uuid_ s) (state_ s) (send_cb_ s) (app_cb_ s) (next_in_seq_ s) (next_out_seq_ s) (keep_alive_interval_ms_ s) v (last_sent_ s) (hmac_enabled_ s) (hmac_key_ s) (retransmit_buffer_ s).
Definition set_last_sent v (s : Session) : Session :=
  mkSession (uuid_ s) (state_ s) (send_cb_ s) (app_cb_ s) (next_in_seq_ s) (next_out_seq_ s) (keep_alive_interval_ms_ s) (last_received_ s) v (hmac_enabled_ s) (hmac_key_ s) (retransmit_buffer_ s).
Definition set_hmac_enabled v (s : Session) : Session :=
  mkSession (uuid_ s) (state_ s) (send_cb_ s) (app_cb_ s) (next_in_seq_ s) (next_out_seq_ s) (keep_alive_interval_ms_ s) (last_received_ s) (last_sent_ s) v (hmac_key_ s) (retransmit_buffer_ s).
Definition set_hmac_key v (s : Session) : Session :=
  mkSession (uuid_ s) (state_ s) (send_cb_ s) (app_cb_ s) (next_in_seq_ s) (next_out_seq_ s) (keep_alive_interval_ms_ s) (last_received_ s) (last_sent_ s) (hmac_enabled_ s) v (retransmit_buffer_ s).
Definition set_retransmit_buffer v (s : Session) : Session :=
  mkSession (uuid_ s) (state_ s) (send_cb_ s) (app_cb_ s) (next_in_seq_ s) (next_out_seq_ s) (keep_alive_interval_ms_ s) (last_received_ s) (last_sent_ s) (hmac_enabled_ s) (hmac_key_ s) v.

Inductive Output :=
  | ToWire (uuid : Z) (data : list byte)
  | ToGateway (uuid templateId : Z) (data : list byte).

(** ** The monad *)
Record Run := mkRun { sess : Session; reads : nat; outs : list Output }.
Definition SM (A : Type) : Type := Run → option (A * Run).
#[export] Instance SM_ret : MRet SM := λ A a r, Some (a, r).
#[export] Instance SM_bind : MBind SM := λ A B k m r, '(a, r) ← m r; k a r.

Definition self : SM Session := λ r, Some (sess r, r).
Definition update (f : Session → Session) : SM unit := λ r, Some (tt, mkRun (f (sess r)) (reads r) (outs r)).
Definition emit (o : Output) : SM unit := λ r, Some (tt, mkRun (sess r) (reads r) (outs r ++ [o])).
Definition lift {A} (x : option A) : SM A := λ r, a ← x; Some (a, r).
Definition when (b : bool) (m : SM unit) : SM unit := if b then m else mret tt.

(** ** HMAC

    [HMAC] of OpenSSL is a parameter ([None] for a null result); the outer
    option is [__has_include(<openssl/hmac.h>)]. *)
Abbreviation openssl := (option (list byte → list byte → option (list byte))).

Module HmacAuthenticator.
Definition computeHmac (lib : openssl) (key data : list byte) : list byte :=
  match lib with
  | Some HMAC => match HMAC key data with Some digest => digest | None => replicate 32 Init.Byte.x00 end
  | None => replicate 32 Init.Byte.x00
  end.

(** The comparison loop: [diff |= computed[i] ^ expected[i]]. *)
Fixpoint diff_loop (diff : Z) (computed expected : list byte) : Z :=
  match computed, expected with
  | c :: computed, e :: expected =>
      diff_loop (Z.lor diff (Z.lxor (byte.unsigned c) (byte.unsigned e))) computed expected
  | _, _ => diff
  end.

Definition verify (lib : openssl) (key data expected_signature : list byte) : bool :=
  match lib with
  | Some _ =>
      diff_loop 0 (take 32 (computeHmac lib key data)) (take 32 expected_signature) =? 0
  | None => true
  end.
End HmacAuthenticator.

(** ** The session's methods *)
Module SessionOps.
Import RetransmitOps.

Definition Session_init (assigned_uuid : Z) (send_cb app_cb : bool) (now_received now_sent : Z) : Session :=
  mkSession assigned_uuid Connected send_cb app_cb 1 1 30000 now_received now_sent false []
    (RetransmitBuffer_init 10000).

Section session.
(** The value of the [n]-th clock read, in nanoseconds. *)
Context (steady system : nat → Z) (lib : openssl).

Definition steady_now : SM Z := λ r, Some (steady (reads r), mkRun (sess r) (S (reads r)) (outs r)).
Definition nowNanos : SM Z := λ r, Some (u64 (system (reads r)), mkRun (sess r) (S (reads r)) (outs r)).

(** *** Send helpers *)
Definition sendFramedMessage (sbe_data : list byte) : SM unit :=
  s ← self;
  _ ← when (send_cb_ s) (emit (ToWire (uuid_ s) sbe_data));
  now ← steady_now;
  update (set_last_sent now).

(** Encoding into a local [char buf[size]] and sending the encoded prefix. *)
Definition send_encoded {M} `{SbeCodec M} (m : M) (size : nat) : SM unit :=
  '(buf, encoded_len) ← lift (sbe_encode m (replicate size Init.Byte.x00) 0);
  sendFramedMessage (take encoded_len buf).

Definition sendNegotiationResponse (request_timestamp : Z) : SM unit :=
  s ← self;
  send_encoded (NegotiationResponse501.mk (uuid_ s) request_timestamp 0 0 0 0 0) 256.

Definition sendEstablishmentAck (request_timestamp keep_alive_interval : Z) : SM unit :=
  s ← self;
  send_encoded (EstablishmentAck504.mk (uuid_ s) request_timestamp keep_alive_interval (next_out_seq_ s) 0 0) 256.

Definition sendSequenceHeartbeat : SM unit :=
  s ← self;
  send_encoded (Sequence506.mk (uuid_ s) (next_out_seq_ s) 0 0) 64.

Definition sendTerminate (error_code : Z) : SM unit :=
  s ← self;
  now ← nowNanos;
  send_encoded (Terminate507.mk (uuid_ s) now error_code 0) 64.

Definition sendNotApplied (from_seq msg_count : Z) : SM unit :=
  s ← self;
  send_encoded (NotApplied513.mk (uuid_ s) from_seq msg_count) 64.

Definition sendRetransmission (last_uuid request_timestamp from_seq msg_count : Z) : SM unit :=
  s ← self;
  send_encoded (Retransmission509.mk (uuid_ s) last_uuid request_timestamp from_seq msg_count 0) 64.

(** *** Public operations *)
Definition terminate (error_code : Z) : SM unit :=
  s ← self;
  if decide (state_ s = Terminated) then mret tt else
  _ ← sendTerminate error_code;
  update (set_state Terminated).

Definition sendApplicationMessage (sbe_data : list byte) : SM unit :=
  s ← self;
  if decide (state_ s ≠ Established) then mret tt else
  rb ← lift (store (retransmit_buffer_ s) (next_out_seq_ s) sbe_data);
  _ ← update (set_retransmit_buffer rb);
  _ ← update (λ s, set_next_out_seq (u32 (next_out_seq_ s + 1)) s);
  sendFramedMessage sbe_data.

(** [duration_cast<milliseconds>] truncates towards zero. *)
Definition millis (d : Z) : Z := Z.quot d 1000000.

Definition onTimer : SM unit :=
  s ← self;
  if decide (state_ s ≠ Established) then mret tt else
  now ← steady_now;
  let since_sent := millis (now - last_sent_ s) in
  let since_recv := millis (now - last_received_ s) in
  _ ← when (keep_alive_interval_ms_ s <=? since_sent) sendSequenceHeartbeat;
  when (keep_alive_interval_ms_ s * 2 <=? since_recv) (terminate 1).

Definition setHmacKey (key : list byte) : SM unit := update (set_hmac_key key).
Definition setHmacEnabled (enabled : bool) : SM unit := update (set_hmac_enabled enabled).

(** *** Message handlers *)
Definition verifyHmac (hmac_signature data : list byte) : SM bool :=
  s ← self;
  if negb (hmac_enabled_ s) then mret true else
  mret (HmacAuthenticator.verify lib (hmac_key_ s) data hmac_signature).

(** The HMAC block that [handleNegotiate] and [handleEstablish] share: the
    signature is the first 32 bytes of the body, the signed data the rest;
    [len - SIZE - 32] is computed in [size_t]. *)
Definition check_hmac (data : list byte) : SM bool :=
  s ← self;
  if hmac_enabled_ s then
    let hmac_data_len := Z.to_nat (u64 (Z.of_nat (length data) - Z.of_nat MessageHeader.SIZE - 32)) in
    hmac_sig ← lift (slice MessageHeader.SIZE 32 data);
    hmac_data ← lift (slice (MessageHeader.SIZE + 32) hmac_data_len data);
    verifyHmac hmac_sig hmac_data
  else mret true.

Definition handleNegotiate (data : list byte) : SM unit :=
  s ← self;
  if decide (state_ s ≠ Connected) then mret tt else
  neg ← lift (Negotiate500.decode data 0);
  ok ← check_hmac data;
  if negb ok then terminate 8 else
  _ ← update (set_state Negotiated);
  sendNegotiationResponse (Negotiate500.sendingTime neg).

Definition clamp_keep_alive (v : Z) : Z :=
  let v := if v <? 1000 then 1000 else v in if 60000 <? v then 60000 else v.

Definition handleEstablish (data : list byte) : SM unit :=
  s ← self;
  if decide (state_ s ≠ Negotiated) then mret tt else
  est ← lift (Establish503.decode data 0);
  ok ← check_hmac data;
  if negb ok then terminate 8 else
  _ ← update (set_keep_alive (clamp_keep_alive (Establish503.keepAliveInterval est)));
  _ ← update (set_next_in_seq (Establish503.nextSeqNo est));
  _ ← update (set_state Established);
  now ← steady_now;
  _ ← update (set_last_received now);
  now ← steady_now;
  _ ← update (set_last_sent now);
  s ← self;
  sendEstablishmentAck (Establish503.sendingTime est) (u16 (keep_alive_interval_ms_ s)).

Definition handleSequence (data : list byte) : SM unit :=
  s ← self;
  if decide (state_ s ≠ Established) then mret tt else
  _ ← lift (Sequence506.decode data 0);
  mret tt.

Definition handleTerminate (data : list byte) : SM unit :=
  _ ← lift (Terminate507.decode data 0);
  s ← self;
  if decide (state_ s ≠ Terminated) then
    _ ← sendTerminate 0;
    update (set_state Terminated)
  else mret tt.

(** The two loops of [handleRetransmitRequest]; [i] is a [uint16_t] and the
    fuel bounds the number of iterations. *)
Fixpoint count_stored (fuel : nat) (rb : RetransmitBuffer) (from msgCount i actual_count : Z) : option Z :=
  if i <? msgCount then
    match fuel with
    | O => None
    | S fuel =>
        entry ← retrieve rb (u32 (from + i));
        count_stored fuel rb from msgCount (u16 (i + 1))
          (match entry with Some _ => u16 (actual_count + 1) | None => actual_count end)
    end
  else Some actual_count.

Fixpoint resend_stored (fuel : nat) (from msgCount i : Z) : SM unit :=
  if i <? msgCount then
    match fuel with
    | O => λ _, None
    | S fuel =>
        s ← self;
        entry ← lift (retrieve (retransmit_buffer_ s) (u32 (from + i)));
        _ ← match entry with Some entry_data => sendFramedMessage entry_data | None => mret tt end;
        resend_stored fuel from msgCount (u16 (i + 1))
    end
  else mret tt.

Definition handleRetransmitRequest (data : list byte) : SM unit :=
  s ← self;
  if decide (state_ s ≠ Established) then mret tt else
  req ← lift (RetransmitRequest508.decode data 0);
  let '(RetransmitRequest508.mk _ lastUUID requestTimestamp fromSeqNo msgCount) := req in
  if negb (lastUUID =? 0) && negb (lastUUID =? uuid_ s) then
    sendRetransmission lastUUID requestTimestamp fromSeqNo 0
  else
  actual_count ← lift (count_stored (Z.to_nat msgCount) (retransmit_buffer_ s) fromSeqNo msgCount 0 0);
  _ ← sendRetransmission lastUUID requestTimestamp fromSeqNo actual_count;
  resend_stored (Z.to_nat msgCount) fromSeqNo msgCount 0.

(** The sequence number of an application message: at body offset 17; 0 for a
    message of an unknown type that is too short to hold one. *)
Definition client_seq_of (templateId : Z) (data : list byte) : option Z :=
  if (templateId =? NewOrderSingle514.TEMPLATE_ID) || (templateId =? OrderCancelReplaceRequest515.TEMPLATE_ID)
     || (templateId =? OrderCancelRequest516.TEMPLATE_ID)
  then rd_u data (MessageHeader.SIZE + 17) 4
  else if (MessageHeader.SIZE + 21 <=? length data)%nat then rd_u data (MessageHeader.SIZE + 17) 4
  else Some 0.

Definition handleApplicationMessage (templateId : Z) (data : list byte) : SM unit :=
  s ← self;
  if decide (state_ s ≠ Established) then mret tt else
  client_seq ← lift (client_seq_of templateId data);
  _ ← when (next_in_seq_ s <? client_seq) (
    _ ← sendNotApplied (next_in_seq_ s) (u32 (client_seq - next_in_seq_ s));
    update (set_next_in_seq client_seq));
  s ← self;
  _ ← when (client_seq =? next_in_seq_ s) (update (set_next_in_seq (u32 (next_in_seq_ s + 1))));
  s ← self;
  when (app_cb_ s) (emit (ToGateway (uuid_ s) templateId data)).

Definition onMessage (data : list byte) : SM unit :=
  if (length data <? MessageHeader.SIZE)%nat then mret tt else
  now ← steady_now;
  _ ← update (set_last_received now);
  templateId ← lift (MessageHeader.decodeTemplateId data 0);
  if templateId =? Negotiate500.TEMPLATE_ID then handleNegotiate data
  else if templateId =? Establish503.TEMPLATE_ID then handleEstablish data
  else if templateId =? Sequence506.TEMPLATE_ID then handleSequence data
  else if templateId =? Terminate507.TEMPLATE_ID then handleTerminate data
  else if templateId =? RetransmitRequest508.TEMPLATE_ID then handleRetransmitRequest data
  else when (514 <=? templateId) (handleApplicationMessage templateId data).

End session.

(** [frameMessage]: the payload behind a framing header. *)
Definition frameMessage (sbe_data : list byte) : option (list byte) :=
  let total_len := u32 (Z.of_nat (SOFH.SIZE + length sbe_data)) in
  framed ← SOFH.encode (replicate (Z.to_nat total_len) Init.Byte.x00) 0 total_len;
  memcpy_to framed SOFH.SIZE sbe_data (length sbe_data).

End SessionOps.
