(* ===== verification/SessionLemmas.v ===== *)
(** * Effects of the session's methods

    The send helpers as total functions of the run, and one lemma per handler
    giving its effect on every branch. *)
From S2P Require Import Prelude Types Sbe ILink3 RetransmitBuffer Session.
Import SessionOps RetransmitOps.

(** ** Running the monad

    [run] rewrites the application of a method to a run: one equation per
    primitive, for the primitive alone and at the head of a bind. *)
Create Rewrite HintDb run.

Definition upd (f : Session → Session) (r : Run) : Run := mkRun (f (sess r)) (reads r) (outs r).
Definition tick (r : Run) : Run := mkRun (sess r) (S (reads r)) (outs r).
Definition put (os : list Output) (r : Run) : Run := mkRun (sess r) (reads r) (outs r ++ os).

Lemma bind_run {A B} (m : SM A) (k : A → SM B) r a r' : m r = Some (a, r') → (m ≫= k) r = k a r'.
Proof. intros E. unfold mbind, SM_bind. by rewrite E. Qed.

Lemma bind_None {A B} (m : SM A) (k : A → SM B) r : m r = None → (m ≫= k) r = None.
Proof. intros E. unfold mbind, SM_bind. by rewrite E. Qed.

Lemma bind_assoc {A B C} (m : SM A) (k : A → SM B) (k' : B → SM C) r :
  ((m ≫= k) ≫= k') r = (m ≫= λ a, k a ≫= k') r.
Proof. unfold mbind, SM_bind. by destruct (m r) as [[a r']|]. Qed.

Lemma run_ret {A} (a : A) r : mret (M := SM) a r = Some (a, r).
Proof. done. Qed.
Lemma run_update f r : update f r = Some (tt, upd f r).
Proof. done. Qed.
Lemma run_emit o r : emit o r = Some (tt, put [o] r).
Proof. done. Qed.
Lemma run_self {B} (k : Session → SM B) r : (self ≫= k) r = k (sess r) r.
Proof. done. Qed.
Lemma run_ret_bind {A B} (a : A) (k : A → SM B) r : (mret a ≫= k) r = k a r.
Proof. done. Qed.
Lemma run_update_bind {B} f (k : unit → SM B) r : (update f ≫= k) r = k tt (upd f r).
Proof. done. Qed.
Lemma run_emit_bind {B} o (k : unit → SM B) r : (emit o ≫= k) r = k tt (put [o] r).
Proof. done. Qed.
Lemma run_lift {A B} (a : A) (k : A → SM B) r : (lift (Some a) ≫= k) r = k a r.
Proof. done. Qed.
Lemma run_steady {B} steady (k : Z → SM B) r : (steady_now steady ≫= k) r = k (steady (reads r)) (tick r).
Proof. done. Qed.
Lemma run_system {B} system (k : Z → SM B) r : (nowNanos system ≫= k) r = k (u64 (system (reads r))) (tick r).
Proof. done. Qed.
Lemma sess_upd f r : sess (upd f r) = f (sess r).
Proof. done. Qed.
Lemma sess_tick r : sess (tick r) = sess r.
Proof. done. Qed.
Lemma sess_put os r : sess (put os r) = sess r.
Proof. done. Qed.
Lemma when_true m : when true m = m.
Proof. done. Qed.
Lemma when_false m : when false m = mret tt.
Proof. done. Qed.
Lemma put_nil r : put [] r = r.
Proof. destruct r. unfold put. cbn. by rewrite app_nil_r. Qed.

#[export] Hint Rewrite @run_ret @run_update @run_emit @run_self @run_ret_bind @run_update_bind
  @run_emit_bind @run_lift @run_steady @run_system @bind_assoc sess_upd sess_tick sess_put
  when_true when_false put_nil : run.
Ltac run := repeat (autorewrite with run; cbv beta).

Section effects.
Context (steady system : nat → Z) (lib : openssl).

(** ** Sending *)
Definition wire (s : Session) (d : list byte) : list Output := if send_cb_ s then [ToWire (uuid_ s) d] else [].

Definition after_send (d : list byte) (r : Run) : Run :=
  upd (set_last_sent (steady (reads r))) (tick (put (wire (sess r) d) r)).

Lemma sendFramed_run d r : sendFramedMessage steady d r = Some (tt, after_send d r).
Proof. unfold sendFramedMessage, after_send, wire. run. by destruct (send_cb_ (sess r)); run. Qed.

(** A message that fits its local buffer is sent as its encoding. *)
Definition fits {M} `{SbeCodec M} (m : M) (size : nat) : Prop :=
  ∃ buf n, sbe_encode m (replicate size Init.Byte.x00) 0 = Some (buf, n) ∧ take n buf = sbe_bytes m.

Lemma send_encoded_run {M} `{SbeCodec M} (m : M) size r :
  fits m size → send_encoded steady m size r = Some (tt, after_send (sbe_bytes m) r).
Proof.
  intros (buf & n & He & Ht). unfold send_encoded. rewrite He. run. rewrite Ht. apply sendFramed_run.
Qed.

(** Messages without character arrays always fit. *)
Lemma fits_flat {M} `{SbeCodec M} (fields : list cpy) bl tid sch ver (m : M) size :
  (∀ buf, sbe_encode m buf 0 =
    (buf ← MessageHeader.encode buf 0 bl tid sch ver;
     buf ← run_cpys buf (0 + MessageHeader.SIZE) fields;
     Some (buf, (MessageHeader.SIZE + Z.to_nat bl)%nat))) →
  sbe_bytes m = MessageHeader.bytes bl tid sch ver ++ payload fields →
  packed 0 fields → length (payload fields) = Z.to_nat bl →
  (MessageHeader.SIZE + Z.to_nat bl ≤ size)%nat → fits m size.
Proof.
  intros He Hb Hp Hl Hs. set (n := (MessageHeader.SIZE + Z.to_nat bl)%nat) in *.
  exists (sbe_bytes m ++ replicate (size - n) Init.Byte.x00), n.
  assert (length (sbe_bytes m) = n) as HL by (rewrite Hb, length_app, header_length; unfold n, MessageHeader.SIZE; lia).
  split; [| by rewrite <-HL, take_app_length].
  rewrite He. replace (replicate size Init.Byte.x00) with (replicate n Init.Byte.x00 ++ replicate (size - n) Init.Byte.x00)
    by (rewrite <-replicate_add; f_equal; lia).
  rewrite Hb. apply (flat_encode (λ _ : unit, True) (λ _, fields) bl tid sch ver (λ _ _, Hp) (λ _ _, Hl) tt []); [done |].
  apply length_replicate.
Qed.

Ltac fits fs bl tid :=
  apply (fits_flat fs bl tid MessageHeader.ILINK3_SCHEMA_ID MessageHeader.ILINK3_VERSION);
  [ done | done | by repeat split | done | vm_compute; lia ].
Lemma fits_501 a b c d e f g : fits (NegotiationResponse501.mk a b c d e f g) 256.
Proof. fits (NegotiationResponse501.fields (NegotiationResponse501.mk a b c d e f g)) NegotiationResponse501.BLOCK_LENGTH NegotiationResponse501.TEMPLATE_ID. Qed.
Lemma fits_504 a b c d e f : fits (EstablishmentAck504.mk a b c d e f) 256.
Proof. fits (EstablishmentAck504.fields (EstablishmentAck504.mk a b c d e f)) EstablishmentAck504.BLOCK_LENGTH EstablishmentAck504.TEMPLATE_ID. Qed.
Lemma fits_506 a b c d : fits (Sequence506.mk a b c d) 64.
Proof. fits (Sequence506.fields (Sequence506.mk a b c d)) Sequence506.BLOCK_LENGTH Sequence506.TEMPLATE_ID. Qed.
Lemma fits_507 a b c d : fits (Terminate507.mk a b c d) 64.
Proof. fits (Terminate507.fields (Terminate507.mk a b c d)) Terminate507.BLOCK_LENGTH Terminate507.TEMPLATE_ID. Qed.
Lemma fits_509 a b c d e f : fits (Retransmission509.mk a b c d e f) 64.
Proof. fits (Retransmission509.fields (Retransmission509.mk a b c d e f)) Retransmission509.BLOCK_LENGTH Retransmission509.TEMPLATE_ID. Qed.
Lemma fits_513 a b c : fits (NotApplied513.mk a b c) 64.
Proof. fits (NotApplied513.fields (NotApplied513.mk a b c)) NotApplied513.BLOCK_LENGTH NotApplied513.TEMPLATE_ID. Qed.

Lemma sendNegotiationResponse_run ts r :
  sendNegotiationResponse steady ts r =
  Some (tt, after_send (sbe_bytes (NegotiationResponse501.mk (uuid_ (sess r)) ts 0 0 0 0 0)) r).
Proof. unfold sendNegotiationResponse. run. apply send_encoded_run, fits_501. Qed.

Lemma sendEstablishmentAck_run ts ka r :
  sendEstablishmentAck steady ts ka r =
  Some (tt, after_send (sbe_bytes (EstablishmentAck504.mk (uuid_ (sess r)) ts ka (next_out_seq_ (sess r)) 0 0)) r).
Proof. unfold sendEstablishmentAck. run. apply send_encoded_run, fits_504. Qed.

Lemma sendSequenceHeartbeat_run r :
  sendSequenceHeartbeat steady r =
  Some (tt, after_send (sbe_bytes (Sequence506.mk (uuid_ (sess r)) (next_out_seq_ (sess r)) 0 0)) r).
Proof. unfold sendSequenceHeartbeat. run. apply send_encoded_run, fits_506. Qed.

Definition terminate_msg (code : Z) (r : Run) : Terminate507.t :=
  Terminate507.mk (uuid_ (sess r)) (u64 (system (reads r))) code 0.

Lemma sendTerminate_run code r :
  sendTerminate steady system code r = Some (tt, after_send (sbe_bytes (terminate_msg code r)) (tick r)).
Proof. unfold sendTerminate. run. apply send_encoded_run, fits_507. Qed.

Lemma sendNotApplied_run from n r :
  sendNotApplied steady from n r =
  Some (tt, after_send (sbe_bytes (NotApplied513.mk (uuid_ (sess r)) from n)) r).
Proof. unfold sendNotApplied. run. apply send_encoded_run, fits_513. Qed.

Lemma sendRetransmission_run lu ts from n r :
  sendRetransmission steady lu ts from n r =
  Some (tt, after_send (sbe_bytes (Retransmission509.mk (uuid_ (sess r)) lu ts from n 0)) r).
Proof. unfold sendRetransmission. run. apply send_encoded_run, fits_509. Qed.

(** ** Terminating *)
Definition after_terminate (code : Z) (r : Run) : Run :=
  upd (set_state Terminated) (after_send (sbe_bytes (terminate_msg code r)) (tick r)).

Lemma terminate_run code r :
  terminate steady system code r =
  Some (tt, if decide (state_ (sess r) = Terminated) then r else after_terminate code r).
Proof.
  unfold terminate. run. case_decide; run; [done |].
  by rewrite (bind_run _ _ _ _ _ (sendTerminate_run code r)).
Qed.

(** ** The message check *)
Lemma check_hmac_run data r :
  hmac_enabled_ (sess r) = false ∨ (MessageHeader.SIZE + 32 ≤ length data)%nat ∧ Z.of_nat (length data) < 2 ^ 64 →
  check_hmac lib data r = Some (
    negb (hmac_enabled_ (sess r)) || HmacAuthenticator.verify lib (hmac_key_ (sess r)) (drop 40 data) (take 32 (drop 8 data)), r).
Proof.
  intros Hs. unfold check_hmac. run. destruct (hmac_enabled_ (sess r)) eqn:E; run; [| done].
  destruct Hs as [? | [H8 Hlen]]; [done |]. unfold MessageHeader.SIZE in *.
  rewrite wrapu_small by lia.
  replace (Z.to_nat (Z.of_nat (length data) - Z.of_nat 8 - 32)) with (length data - 40)%nat by lia.
  unfold slice. rewrite decide_True by lia. run. rewrite decide_True by lia. run.
  unfold verifyHmac. run. rewrite E. cbn [negb]. run. cbn. do 3 f_equal.
  by rewrite take_ge by (rewrite length_drop; lia).
Qed.
End effects.
