(* ===== verification/SessionStep.v ===== *)
(** * The session as a state machine

    The calls a session receives from its connection, its timer and the
    gateway, the branches each call can take as a step relation, and the proof
    that the code takes only those steps and that it always returns on
    messages that are not truncated. *)
From S2P Require Import Prelude Types Sbe ILink3 RetransmitBuffer Session SessionLemmas.
Import SessionOps RetransmitOps.

Inductive Call :=
  | Receive (data : list byte)
  | Timer
  | SendApp (data : list byte)
  | Close (error_code : Z)
  | SetHmacKey (key : list byte)
  | SetHmacEnabled (enabled : bool).

Section step.
Context (steady system : nat → Z) (lib : openssl).
Local Abbreviation after_send := (after_send steady).
Local Abbreviation after_terminate := (after_terminate steady system).

Definition exec (c : Call) : SM unit :=
  match c with
  | Receive data => onMessage steady system lib data
  | Timer => onTimer steady system
  | SendApp data => sendApplicationMessage steady data
  | Close code => terminate steady system code
  | SetHmacKey key => setHmacKey key
  | SetHmacEnabled b => setHmacEnabled b
  end.

Fixpoint exec_all (cs : list Call) : SM unit :=
  match cs with
  | [] => mret tt
  | c :: cs => _ ← exec c; exec_all cs
  end.

(** ** Ingredients of the steps *)
Definition template (data : list byte) : option Z := MessageHeader.decodeTemplateId data 0.

(** The run after the header of an incoming message was read. *)
Definition recv (r : Run) : Run := upd (set_last_received (steady (reads r))) (tick r).

(** The message carries the signature the session's key gives its signed part,
    or none is required. *)
Definition authentic (s : Session) (data : list byte) : bool :=
  negb (hmac_enabled_ s) || HmacAuthenticator.verify lib (hmac_key_ s) (drop 40 data) (take 32 (drop 8 data)).

(** Template ids that a session in the given state ignores. *)
Definition ignored (st : SessionState) (t : Z) : Prop :=
  (t = 500 ∧ st ≠ Connected) ∨ (t = 503 ∧ st ≠ Negotiated) ∨ t = 506 ∨ (t = 507 ∧ st = Terminated) ∨
  (t = 508 ∧ st ≠ Established) ∨ (514 ≤ t ∧ st ≠ Established) ∨
  (t < 514 ∧ t ∉ [500; 503; 506; 507; 508]).

Definition establish (est : Establish503.t) (r : Run) : Run :=
  let r := upd (set_last_received (steady (reads r)))
    (tick (upd (λ s, set_state Established (set_next_in_seq (Establish503.nextSeqNo est)
       (set_keep_alive (clamp_keep_alive (Establish503.keepAliveInterval est)) s))) r)) in
  upd (set_last_sent (steady (reads r))) (tick r).

(** The stored messages a retransmit request asks for. *)
Definition requested (rb : RetransmitBuffer) (from : Z) (n : nat) : list (list byte) :=
  omap (λ i, default None (retrieve rb (u32 (from + Z.of_nat i)))) (seq 0 n).

Definition foreign (s : Session) (lastUUID : Z) : bool := negb (lastUUID =? 0) && negb (lastUUID =? uuid_ s).

Definition count_gap (seq : Z) (r : Run) : Run :=
  if next_in_seq_ (sess r) <? seq
  then upd (set_next_in_seq seq) (after_send (sbe_bytes (NotApplied513.mk (uuid_ (sess r)) (next_in_seq_ (sess r))
         (u32 (seq - next_in_seq_ (sess r))))) r)
  else r.
Definition count_seq (seq : Z) (r : Run) : Run :=
  if seq =? next_in_seq_ (sess r) then upd (set_next_in_seq (u32 (next_in_seq_ (sess r) + 1))) r else r.
Definition forward (t : Z) (data : list byte) (r : Run) : Run :=
  put (if app_cb_ (sess r) then [ToGateway (uuid_ (sess r)) t data] else []) r.

Definition heartbeat (r : Run) : Run :=
  after_send (sbe_bytes (Sequence506.mk (uuid_ (sess r)) (next_out_seq_ (sess r)) 0 0)) r.

(** ** The steps *)
Inductive step : Run → Call → Run → Prop :=
  | step_short r data : (length data < 8)%nat → step r (Receive data) r
  | step_ignore r data t : template data = Some t → ignored (state_ (sess r)) t → step r (Receive data) (recv r)
  | step_negotiate r data neg :
      template data = Some 500 → state_ (sess r) = Connected → Negotiate500.decode data 0 = Some neg →
      authentic (sess r) data = true →
      step r (Receive data) (after_send
        (sbe_bytes (NegotiationResponse501.mk (uuid_ (sess r)) (Negotiate500.sendingTime neg) 0 0 0 0 0))
        (upd (set_state Negotiated) (recv r)))
  | step_establish r data est :
      template data = Some 503 → state_ (sess r) = Negotiated → Establish503.decode data 0 = Some est →
      authentic (sess r) data = true →
      step r (Receive data) (after_send
        (sbe_bytes (EstablishmentAck504.mk (uuid_ (sess r)) (Establish503.sendingTime est)
           (u16 (clamp_keep_alive (Establish503.keepAliveInterval est))) (next_out_seq_ (sess r)) 0 0))
        (establish est (recv r)))
  | step_unauthentic r data t :
      template data = Some t → (t = 500 ∧ state_ (sess r) = Connected) ∨ (t = 503 ∧ state_ (sess r) = Negotiated) →
      authentic (sess r) data = false → step r (Receive data) (after_terminate 8 (recv r))
  | step_terminate r data :
      template data = Some 507 → state_ (sess r) ≠ Terminated → step r (Receive data) (after_terminate 0 (recv r))
  | step_retransmit_foreign r data u lu ts from n :
      template data = Some 508 → state_ (sess r) = Established →
      RetransmitRequest508.decode data 0 = Some (RetransmitRequest508.mk u lu ts from n) →
      foreign (sess r) lu = true →
      step r (Receive data) (after_send (sbe_bytes (Retransmission509.mk (uuid_ (sess r)) lu ts from 0 0)) (recv r))
  | step_retransmit r data u lu ts from n :
      let ms := requested (retransmit_buffer_ (sess r)) from (Z.to_nat n) in
      template data = Some 508 → state_ (sess r) = Established →
      RetransmitRequest508.decode data 0 = Some (RetransmitRequest508.mk u lu ts from n) →
      foreign (sess r) lu = false →
      step r (Receive data) (foldl (λ r m, after_send m r)
        (after_send (sbe_bytes (Retransmission509.mk (uuid_ (sess r)) lu ts from (Z.of_nat (length ms)) 0)) (recv r)) ms)
  | step_app r data t seq :
      template data = Some t → 514 ≤ t → state_ (sess r) = Established → client_seq_of t data = Some seq →
      step r (Receive data) (forward t data (count_seq seq (count_gap seq (recv r))))
  | step_timer_idle r : state_ (sess r) ≠ Established → step r Timer r
  | step_timer r :
      let now := steady (reads r) in
      let beat := keep_alive_interval_ms_ (sess r) <=? millis (now - last_sent_ (sess r)) in
      let dead := keep_alive_interval_ms_ (sess r) * 2 <=? millis (now - last_received_ (sess r)) in
      let r1 := if beat then heartbeat (tick r) else tick r in
      state_ (sess r) = Established → step r Timer (if dead then after_terminate 1 r1 else r1)
  | step_send_idle r data : state_ (sess r) ≠ Established → step r (SendApp data) r
  | step_send r data rb :
      state_ (sess r) = Established →
      store (retransmit_buffer_ (sess r)) (next_out_seq_ (sess r)) data = Some rb →
      step r (SendApp data) (after_send data
        (upd (λ s, set_next_out_seq (u32 (next_out_seq_ s + 1)) (set_retransmit_buffer rb s)) r))
  | step_close_again r code : state_ (sess r) = Terminated → step r (Close code) r
  | step_close r code : state_ (sess r) ≠ Terminated → step r (Close code) (after_terminate code r)
  | step_set_key r key : step r (SetHmacKey key) (upd (set_hmac_key key) r)
  | step_set_enabled r b : step r (SetHmacEnabled b) (upd (set_hmac_enabled b) r).

(** ** The code takes only these steps *)

(** The retransmission buffer has the size it was created with. *)
Definition rb_ok (rb : RetransmitBuffer) : Prop :=
  0 < capacity_ rb ∧ length (entries_ rb) = Z.to_nat (capacity_ rb).

(** How much of the body a session reads of a message with template [t]. *)
Definition body_read (t : Z) : nat :=
  if t =? 500 then 85 else if t =? 503 then 83 else if t =? 506 then 14 else if t =? 507 then 19
  else if t =? 508 then 30 else if (t =? 514) || (t =? 515) || (t =? 516) then 21 else 0.

(** The message is too short to be looked at, or holds what is read of it. *)
Definition complete (data : list byte) : Prop :=
  Z.of_nat (length data) < 2 ^ 64 ∧
  ((length data < 8)%nat ∨ ∃ t, template data = Some t ∧ (8 + body_read t ≤ length data)%nat).

Definition complete_call (c : Call) : Prop :=
  match c with Receive data => complete data | _ => True end.

Lemma slot_total rb q : rb_ok rb → 0 ≤ q →
  ∃ idx e, slot rb q = Some idx ∧ entries_ rb !! idx = Some e.
Proof.
  intros [Hp Hl] Hq. unfold slot. replace (capacity_ rb =? 0) with false by lia.
  pose proof (Z.mod_pos_bound q (capacity_ rb)).
  destruct (lookup_lt_is_Some_2 (entries_ rb) (Z.to_nat (q mod capacity_ rb))) as [e He]; [lia |]. eauto.
Qed.

Lemma retrieve_total rb q : rb_ok rb → 0 ≤ q → retrieve rb q = Some (default None (retrieve rb q)).
Proof. intros Hr Hq. unfold retrieve. destruct (slot_total _ _ Hr Hq) as (idx & e & -> & He). simpl. by rewrite He. Qed.

Lemma store_total rb q d : rb_ok rb → 0 ≤ q → ∃ rb', store rb q d = Some rb' ∧ rb_ok rb'.
Proof.
  intros Hr Hq. unfold store. destruct (slot_total _ _ Hr Hq) as (idx & e & -> & He). simpl. rewrite He. simpl.
  eexists. split; [done |]. destruct Hr. split; simpl; [done |]. by rewrite length_insert.
Qed.

Lemma buffer_after_send d r : retransmit_buffer_ (sess (after_send d r)) = retransmit_buffer_ (sess r).
Proof. done. Qed.

(** The loops of the retransmission, from [i] on. *)
Definition requested_from (rb : RetransmitBuffer) (from : Z) (i n : nat) : list (list byte) :=
  omap (λ i, default None (retrieve rb (u32 (from + Z.of_nat i)))) (seq i n).

Lemma requested_from_S rb from i n :
  requested_from rb from i (S n) =
  match default None (retrieve rb (u32 (from + Z.of_nat i))) with Some x => [x] | None => [] end
    ++ requested_from rb from (S i) n.
Proof. unfold requested_from. simpl. by destruct (default None _). Qed.

Lemma count_stored_run rb from m k : rb_ok rb → ∀ i acc,
  Z.of_nat (i + k) = m → m < 2 ^ 16 → 0 ≤ acc ≤ Z.of_nat i →
  count_stored k rb from m (Z.of_nat i) acc = Some (acc + Z.of_nat (length (requested_from rb from i k))).
Proof.
  intros Hr. induction k as [|k IH]; intros i acc Hm Hb Ha; simpl.
  - replace (Z.of_nat i <? m) with false by lia. f_equal. lia.
  - replace (Z.of_nat i <? m) with true by lia.
    rewrite retrieve_total by (done || apply wrapu_range; lia). simpl.
    rewrite (wrapu_small 16 (Z.of_nat i + 1)) by lia. replace (Z.of_nat i + 1) with (Z.of_nat (S i)) by lia.
    rewrite requested_from_S.
    destruct (default None _) as [x|]; simpl.
    + rewrite wrapu_small by lia. rewrite IH by lia. f_equal. lia.
    + rewrite IH by lia. done.
Qed.

Lemma resend_stored_run rb from m k : rb_ok rb → ∀ i r,
  Z.of_nat (i + k) = m → m < 2 ^ 16 → retransmit_buffer_ (sess r) = rb →
  resend_stored steady k from m (Z.of_nat i) r =
  Some (tt, foldl (λ r m, after_send m r) r (requested_from rb from i k)).
Proof.
  intros Hr. induction k as [|k IH]; intros i r Hm Hb E; simpl.
  - by replace (Z.of_nat i <? m) with false by lia.
  - replace (Z.of_nat i <? m) with true by lia. run. rewrite E.
    rewrite retrieve_total by (done || apply wrapu_range; lia). run.
    rewrite (wrapu_small 16 (Z.of_nat i + 1)) by lia. replace (Z.of_nat i + 1) with (Z.of_nat (S i)) by lia.
    rewrite requested_from_S.
    destruct (default None _) as [x|]; simpl.
    + rewrite (bind_run _ _ _ _ _ (sendFramed_run steady x r)). apply IH; try lia. by rewrite buffer_after_send.
    + run. apply IH; [lia | lia | done].
Qed.

Lemma count_requested rb from n : rb_ok rb → n ∈u 16 →
  count_stored (Z.to_nat n) rb from n 0 0 = Some (Z.of_nat (length (requested rb from (Z.to_nat n)))).
Proof. intros Hr Hn. apply (count_stored_run rb from n (Z.to_nat n) Hr 0 0); lia. Qed.

Lemma resend_requested r from n : rb_ok (retransmit_buffer_ (sess r)) → n ∈u 16 →
  resend_stored steady (Z.to_nat n) from n 0 r =
  Some (tt, foldl (λ r m, after_send m r) r (requested (retransmit_buffer_ (sess r)) from (Z.to_nat n))).
Proof. intros Hr Hn. apply (resend_stored_run _ from n (Z.to_nat n) Hr 0); [lia | lia | done]. Qed.

(** *** One lemma per handler *)
Ltac stay := eexists; split; [done |]; eapply step_ignore; [eassumption |]; unfold ignored; cbn in *; naive_solver.

Lemma decode_total {M} `{SbeCodec M, !SbeBounds M} (data : list byte) :
  (8 + sbe_block (M := M) ≤ length data)%nat → ∃ m, sbe_decode (M := M) data 0 = Some m.
Proof. intros Hl. apply sbe_decode_bounds. unfold MessageHeader.SIZE. lia. Qed.

Lemma check_hmac_recv data r : complete data → (40 ≤ length data)%nat →
  check_hmac lib data (recv r) = Some (authentic (sess r) data, recv r).
Proof. intros [Hl _] H40. rewrite check_hmac_run; [done |]. right. unfold MessageHeader.SIZE. lia. Qed.

Lemma handleNegotiate_step data r :
  complete data → template data = Some 500 → (93 ≤ length data)%nat →
  ∃ r', handleNegotiate steady system lib data (recv r) = Some (tt, r') ∧ step r (Receive data) r'.
Proof.
  intros Hc Ht Hl. unfold handleNegotiate. run. case_decide as Hs; [stay |].
  destruct (decode_total (M := Negotiate500.t) data) as [neg Hn]; [exact Hl |]. cbn in Hn. rewrite Hn. run.
  rewrite (bind_run _ _ _ _ _ (check_hmac_recv data r Hc ltac:(lia))).
  destruct (authentic (sess r) data) eqn:Ha; cbn [negb].
  - run. rewrite sendNegotiationResponse_run. eexists. split; [done |].
    exact (step_negotiate r data neg Ht Hs Hn Ha).
  - rewrite terminate_run. rewrite decide_False by (rewrite Hs; discriminate).
    eexists. split; [done |]. exact (step_unauthentic r data 500 Ht (or_introl (conj eq_refl Hs)) Ha).
Qed.

Lemma handleEstablish_step data r :
  complete data → template data = Some 503 → (91 ≤ length data)%nat →
  ∃ r', handleEstablish steady system lib data (recv r) = Some (tt, r') ∧ step r (Receive data) r'.
Proof.
  intros Hc Ht Hl. unfold handleEstablish. run. case_decide as Hs; [stay |].
  destruct (decode_total (M := Establish503.t) data) as [est He]; [exact Hl |]. cbn in He. rewrite He. run.
  rewrite (bind_run _ _ _ _ _ (check_hmac_recv data r Hc ltac:(lia))).
  destruct (authentic (sess r) data) eqn:Ha; cbn [negb].
  - run. rewrite sendEstablishmentAck_run. eexists. split; [done |]. exact (step_establish r data est Ht Hs He Ha).
  - rewrite terminate_run. rewrite decide_False by (rewrite Hs; discriminate).
    eexists. split; [done |]. exact (step_unauthentic r data 503 Ht (or_intror (conj eq_refl Hs)) Ha).
Qed.

Lemma handleSequence_step data r :
  template data = Some 506 → (22 ≤ length data)%nat →
  ∃ r', handleSequence data (recv r) = Some (tt, r') ∧ step r (Receive data) r'.
Proof.
  intros Ht Hl. unfold handleSequence. run. case_decide as Hs; [stay |].
  destruct (decode_total (M := Sequence506.t) data) as [m Hm]; [exact Hl |]. cbn in Hm. rewrite Hm. run. stay.
Qed.

Lemma handleTerminate_step data r :
  template data = Some 507 → (27 ≤ length data)%nat →
  ∃ r', handleTerminate steady system data (recv r) = Some (tt, r') ∧ step r (Receive data) r'.
Proof.
  intros Ht Hl. unfold handleTerminate.
  destruct (decode_total (M := Terminate507.t) data) as [m Hm]; [exact Hl |]. cbn in Hm. rewrite Hm. run.
  case_decide as Hs; [| run; stay].
  rewrite (bind_run _ _ _ _ _ (sendTerminate_run steady system 0 (recv r))). run.
  eexists. split; [done |]. exact (step_terminate r data Ht Hs).
Qed.

Lemma request_count data u lu ts from n :
  RetransmitRequest508.decode data 0 = Some (RetransmitRequest508.mk u lu ts from n) → n ∈u 16.
Proof.
  unfold RetransmitRequest508.decode. intros H.
  repeat (apply bind_Some in H as (? & ? & H)). simplify_eq. by eapply (rd_u_range data _ 2).
Qed.

Lemma handleRetransmitRequest_step data r :
  rb_ok (retransmit_buffer_ (sess r)) → template data = Some 508 → (38 ≤ length data)%nat →
  ∃ r', handleRetransmitRequest steady data (recv r) = Some (tt, r') ∧ step r (Receive data) r'.
Proof.
  intros Hrb Ht Hl. unfold handleRetransmitRequest. run. case_decide as Hs; [stay |].
  destruct (decode_total (M := RetransmitRequest508.t) data) as [[u lu ts from n] Hm]; [exact Hl |].
  cbn in Hm. rewrite Hm. run.
  pose proof (request_count _ _ _ _ _ _ Hm) as Hn.
  destruct (foreign (sess r) lu) eqn:Hf; unfold foreign in Hf; cbn in Hf |- *; rewrite Hf.
  - rewrite sendRetransmission_run. eexists. split; [done |]. exact (step_retransmit_foreign r data u lu ts from n Ht Hs Hm Hf).
  - change (retransmit_buffer_ (sess (recv r))) with (retransmit_buffer_ (sess r)).
    rewrite (count_requested _ from n Hrb Hn). run.
    rewrite (bind_run _ _ _ _ _ (sendRetransmission_run steady lu ts from _ (recv r))).
    rewrite (resend_requested _ from n) by done.
    eexists. split; [done |]. exact (step_retransmit r data u lu ts from n Ht Hs Hm Hf).
Qed.

Lemma client_seq_total t data :
  (8 + body_read t ≤ length data)%nat → 514 ≤ t → ∃ seq, client_seq_of t data = Some seq.
Proof.
  intros Hl Ht. unfold client_seq_of, body_read in *.
  destruct (_ || _) eqn:E.
  - apply rd_u_is_Some. unfold MessageHeader.SIZE.
    repeat case_match; lia.
  - destruct (_ <=? _)%nat eqn:E2; [| eauto].
    apply rd_u_is_Some. apply Nat.leb_le in E2. unfold MessageHeader.SIZE in *. lia.
Qed.

Lemma count_gap_run seq r :
  when (next_in_seq_ (sess r) <? seq)
    (_ ← sendNotApplied steady (next_in_seq_ (sess r)) (u32 (seq - next_in_seq_ (sess r)));
     update (set_next_in_seq seq)) r = Some (tt, count_gap seq r).
Proof.
  unfold count_gap. destruct (_ <? _); run; [| done].
  by rewrite (bind_run _ _ _ _ _ (sendNotApplied_run steady _ _ r)).
Qed.

Lemma handleApplicationMessage_step t data r :
  template data = Some t → 514 ≤ t → (8 + body_read t ≤ length data)%nat →
  ∃ r', handleApplicationMessage steady t data (recv r) = Some (tt, r') ∧ step r (Receive data) r'.
Proof.
  intros Ht H514 Hl. unfold handleApplicationMessage. run. case_decide as Hs; [stay |].
  destruct (client_seq_total t data Hl H514) as [seq Hseq]. rewrite Hseq. run.
  rewrite (bind_run _ _ _ _ _ (count_gap_run seq (recv r))). run.
  rewrite (bind_run _ _ _ tt (count_seq seq (count_gap seq (recv r))))
    by (unfold count_seq; by destruct (_ =? _); run). run.
  eexists. split; [| exact (step_app r data t seq Ht H514 Hs Hseq)].
  unfold forward. by destruct (app_cb_ _); run.
Qed.

Lemma onMessage_step data r :
  complete data → rb_ok (retransmit_buffer_ (sess r)) →
  ∃ r', onMessage steady system lib data r = Some (tt, r') ∧ step r (Receive data) r'.
Proof.
  intros Hc Hrb. unfold onMessage. destruct (_ <? _)%nat eqn:E8.
  { eexists. split; [done |]. apply step_short. by apply Nat.ltb_lt in E8. }
  apply Nat.ltb_ge in E8. unfold MessageHeader.SIZE in E8.
  pose proof Hc as [_ [? | (t & Ht & Hl)]]; [lia |]. run.
  change (upd _ (tick r)) with (recv r). unfold template in Ht. rewrite Ht. run. fold (template data) in Ht.
  unfold body_read in Hl. cbn [Negotiate500.TEMPLATE_ID].
  destruct (Z.eqb_spec t Negotiate500.TEMPLATE_ID) as [-> |H1]; [by apply handleNegotiate_step |].
  destruct (Z.eqb_spec t Establish503.TEMPLATE_ID) as [-> |H2]; [by apply handleEstablish_step |].
  destruct (Z.eqb_spec t Sequence506.TEMPLATE_ID) as [-> |H3]; [by apply handleSequence_step |].
  destruct (Z.eqb_spec t Terminate507.TEMPLATE_ID) as [-> |H4]; [by apply handleTerminate_step |].
  destruct (Z.eqb_spec t RetransmitRequest508.TEMPLATE_ID) as [-> |H5]; [by apply handleRetransmitRequest_step |].
  destruct (514 <=? t) eqn:E; run.
  - apply handleApplicationMessage_step; [done | lia |]. by fold (body_read t) in Hl.
  - eexists. split; [done |]. eapply step_ignore; [done |]. do 6 right. split; [lia |].
    rewrite !not_elem_of_cons. repeat split; try done. apply not_elem_of_nil.
Qed.

Lemma onTimer_step r : ∃ r', onTimer steady system r = Some (tt, r') ∧ step r Timer r'.
Proof.
  unfold onTimer. run. case_decide as Hs; [eexists; split; [done | by apply step_timer_idle] |].
  run. eexists. split; [| exact (step_timer r Hs)].
  set (now := steady (reads r)).
  destruct (keep_alive_interval_ms_ (sess r) <=? _); run.
  - rewrite (bind_run _ _ _ _ _ (sendSequenceHeartbeat_run steady (tick r))).
    destruct (_ * 2 <=? _); run; [| done]. rewrite terminate_run, decide_False; [done |]. cbn. congruence.
  - destruct (_ * 2 <=? _); run; [| done]. rewrite terminate_run, decide_False; [done |]. cbn. congruence.
Qed.

Lemma sendApplicationMessage_step data r :
  rb_ok (retransmit_buffer_ (sess r)) → 0 ≤ next_out_seq_ (sess r) →
  ∃ r', sendApplicationMessage steady data r = Some (tt, r') ∧ step r (SendApp data) r'.
Proof.
  intros Hrb Hq. unfold sendApplicationMessage. run.
  case_decide as Hs; [eexists; split; [done | by apply step_send_idle] |].
  destruct (store_total _ _ data Hrb Hq) as (rb & Hst & _). rewrite Hst. run.
  rewrite sendFramed_run. eexists. split; [done |]. exact (step_send r data rb Hs Hst).
Qed.

Lemma terminate_step code r : ∃ r', terminate steady system code r = Some (tt, r') ∧ step r (Close code) r'.
Proof.
  rewrite terminate_run. eexists. split; [done |].
  case_decide; [by apply step_close_again | by apply step_close].
Qed.

(** Every call on a session returns and takes one of the steps. *)
Lemma exec_step c r :
  complete_call c → rb_ok (retransmit_buffer_ (sess r)) → 0 ≤ next_out_seq_ (sess r) →
  ∃ r', exec c r = Some (tt, r') ∧ step r c r'.
Proof.
  intros Hc Hrb Hq. destruct c; simpl in Hc |- *;
    eauto using onMessage_step, onTimer_step, sendApplicationMessage_step, terminate_step.
  - eexists. split; [done | constructor].
  - eexists. split; [done | constructor].
Qed.

End step.
