(* ===== verification/SessionInv.v ===== *)
(** * Invariants of FIXP sessions

    The session invariant, its preservation by every step, runs of calls, and
    the contents of the retransmission buffer after a run. *)
From S2P Require Import Prelude Types Sbe ILink3 RetransmitBuffer Session SessionLemmas SessionStep.
Import SessionOps RetransmitOps.

Record session_inv (s : Session) : Prop := {
  inv_rb : rb_ok (retransmit_buffer_ s);
  inv_in : next_in_seq_ s ∈u 32;
  inv_out : next_out_seq_ s ∈u 32;
  inv_keep : 1000 ≤ keep_alive_interval_ms_ s ≤ 60000;
}.

Lemma Session_init_inv u sc ac t t' : session_inv (Session_init u sc ac t t').
Proof. split; [split; [done | apply length_replicate] | simpl; lia ..]. Qed.

Section inv.
Context (steady system : nat → Z) (lib : openssl).
Local Abbreviation step := (step steady system lib).
Local Abbreviation exec := (exec steady system lib).
Local Abbreviation exec_all := (exec_all steady system lib).
Local Abbreviation after_send := (after_send steady).

(** Everything but [last_sent_] survives sending. *)
Lemma sess_resend ms r : sess (foldl (λ r m, after_send m r) r ms) =
  match ms with [] => sess r | _ => set_last_sent (last_sent_ (sess (foldl (λ r m, after_send m r) r ms))) (sess r) end.
Proof.
  revert r. induction ms as [|m ms IH]; intros r; [done |]. simpl.
  rewrite (IH (after_send m r)) at 1. by destruct ms.
Qed.

Lemma session_inv_sent v s : session_inv s → session_inv (set_last_sent v s).
Proof. by intros []. Qed.

Lemma clamp_range v : 1000 ≤ clamp_keep_alive v ≤ 60000.
Proof. unfold clamp_keep_alive. repeat case_match; lia. Qed.

Lemma establish_seq data est : Establish503.decode data 0 = Some est → Establish503.nextSeqNo est ∈u 32.
Proof.
  unfold Establish503.decode. intros H. repeat (apply bind_Some in H as (? & ? & H)). simplify_eq.
  by eapply (rd_u_range data _ 4).
Qed.

Lemma client_seq_range t data seq : client_seq_of t data = Some seq → seq ∈u 32.
Proof.
  unfold client_seq_of. intros H. repeat case_match; simplify_eq; try lia; by eapply (rd_u_range data _ 4).
Qed.

Lemma store_ok rb q d rb' : rb_ok rb → store rb q d = Some rb' → rb_ok rb'.
Proof.
  intros [Hp Hl] H. unfold store in H. destruct (slot rb q) as [idx|]; simplify_eq/=.
  destruct (entries_ rb !! idx); simplify_eq/=. split; simpl; [done |]. by rewrite length_insert.
Qed.

Lemma count_inv seq r : seq ∈u 32 → session_inv (sess r) →
  session_inv (sess (count_seq seq (count_gap steady seq r))).
Proof.
  intros Hs [H1 H2 H3 H4]. unfold count_seq, count_gap.
  repeat case_match; split; cbn; auto with width.
Qed.

Lemma step_inv r c r' : session_inv (sess r) → step r c r' → session_inv (sess r').
Proof.
  intros Hi Hst. pose proof Hi as [H1 H2 H3 H4].
  destruct Hst; try done.
  - split; cbn; [done | by eapply establish_seq | done | apply clamp_range].
  - rewrite sess_resend. destruct ms; [done |]. by apply session_inv_sent.
  - unfold forward. run. apply count_inv; [by eapply client_seq_range | done].
  - subst r1. by destruct beat, dead.
  - split; cbn; [by eapply store_ok | done | auto with width | done].
Qed.

(** The identity of a session and its callbacks never change. *)
Definition identity (s : Session) : Z * bool * bool := (uuid_ s, send_cb_ s, app_cb_ s).

Lemma step_identity r c r' : step r c r' → identity (sess r') = identity (sess r).
Proof.
  destruct 1; try done.
  - rewrite sess_resend. by destruct ms.
  - unfold forward. run. unfold count_seq, count_gap. by repeat case_match.
  - subst r1. by destruct beat, dead.
Qed.

(** ** Runs *)
Lemma exec_inv c r : complete_call c → session_inv (sess r) →
  ∃ r', exec c r = Some (tt, r') ∧ step r c r' ∧ session_inv (sess r').
Proof.
  intros Hc Hi. destruct (exec_step steady system lib c r Hc) as (r' & E & Hst); [apply Hi | by apply Hi |].
  eauto using step_inv.
Qed.

Lemma exec_all_inv cs r : Forall complete_call cs → session_inv (sess r) →
  ∃ r', exec_all cs r = Some (tt, r') ∧ session_inv (sess r').
Proof.
  intros Hcs. revert r. induction Hcs as [|c cs Hc _ IH]; intros r Hi; simpl; [by exists r |].
  destruct (exec_inv c r Hc Hi) as (r1 & E & _ & Hi1). rewrite (bind_run _ _ _ _ _ E). by apply IH.
Qed.

(** Induction on a run from its start. *)
Lemma exec_all_ind (P : Run → list Call → Run → Prop) :
  (∀ r, P r [] r) →
  (∀ r c r1 cs r', complete_call c → session_inv (sess r) → step r c r1 → exec c r = Some (tt, r1) →
     session_inv (sess r1) → P r1 cs r' → P r (c :: cs) r') →
  ∀ cs r r', Forall complete_call cs → session_inv (sess r) → exec_all cs r = Some (tt, r') → P r cs r'.
Proof.
  intros H0 HS cs r r' Hcs. revert r. induction Hcs as [|c cs Hc Hcs IH]; intros r Hi H; simpl in H.
  - injection H as <-. apply H0.
  - destruct (exec_inv c r Hc Hi) as (r1 & E & Hst & Hi1). rewrite (bind_run _ _ _ _ _ E) in H.
    eapply HS; eauto.
Qed.

Lemma exec_all_identity cs r r' : Forall complete_call cs → session_inv (sess r) →
  exec_all cs r = Some (tt, r') → identity (sess r') = identity (sess r).
Proof.
  apply (exec_all_ind (λ r _ r', identity (sess r') = identity (sess r))); [done |].
  intros q c q1 cs' q' _ _ Hst _ _ ->. by eapply step_identity.
Qed.

End inv.
