(* ===== verification/SessionTheorems.v ===== *)
(** * Theorems about FIXP sessions

    Life cycle, authentication, inbound and outbound sequence numbers,
    retransmission and keep-alive of a session, for any clock and any sequence
    of calls. *)
From S2P Require Import Prelude Types Sbe ILink3 RetransmitBuffer Session SessionLemmas SessionStep SessionInv.
Import SessionOps RetransmitOps.

Lemma run_result_inj (r r' : Run) : Some (tt, r) = Some (tt, r') → r = r'.
Proof. congruence. Qed.

(** ** Concrete sessions for the witnesses *)
Module SDemo.
Definition clock (n : nat) : Z := Z.of_nat n * 1000000000.
Definition r0 : Run := mkRun (Session_init 7 true true 0 0) 0 [].
Definition neg : list byte := sbe_bytes Negotiate500.init.
Definition est : list byte :=
  sbe_bytes (Establish503.mk (replicate 32 Init.Byte.x00) (replicate 20 Init.Byte.x00) 1 1
    (replicate 3 Init.Byte.x00) (replicate 5 Init.Byte.x00) 5000 1 0).
Definition handshake : list Call := [Receive neg; Receive est].
Definition r2 : Run := default r0 (snd <$> exec_all clock clock None handshake r0).

Lemma complete_handshake : Forall complete_call handshake.
Proof.
  constructor; [| constructor; [| constructor]]; (split; [vm_compute; reflexivity | right]).
  - exists 500. split; [vm_compute; reflexivity | vm_compute; lia].
  - exists 503. split; [vm_compute; reflexivity | vm_compute; lia].
Qed.

Lemma r2_run : exec_all clock clock None handshake r0 = Some (tt, r2).
Proof. vm_compute. reflexivity. Qed.

Lemma r2_inv : session_inv (sess r2).
Proof.
  destruct (exec_all_inv clock clock None handshake r0 complete_handshake (Session_init_inv _ _ _ _ _)) as (r & E & Hi).
  rewrite (run_result_inj _ _ (eq_trans (eq_sym r2_run) E)). exact Hi.
Qed.
End SDemo.

(** ** Every call returns *)

(** Whatever the sequence of calls on a new session, as long as no message
    is truncated every call returns (no access outside a buffer, every loop
    ends) and the session invariant holds at the end: sequence numbers in their
    32 bits, keep-alive between one second and one minute, retransmission buffer
    intact. *)
Theorem session_calls_total steady system lib uuid sc ac t0 t1 cs :
  Forall complete_call cs →
  ∃ r', exec_all steady system lib cs (mkRun (Session_init uuid sc ac t0 t1) 2 []) = Some (tt, r') ∧
    session_inv (sess r').
Proof. intros Hcs. apply exec_all_inv; [done | apply Session_init_inv]. Qed.

Lemma session_calls_total_witness :
  ∃ r', exec_all SDemo.clock SDemo.clock None (SDemo.handshake ++ [Timer; Close 0]) (mkRun (Session_init 7 true true 0 0) 2 []) = Some (tt, r') ∧
    session_inv (sess r').
Proof.
  apply (session_calls_total SDemo.clock SDemo.clock None 7 true true 0 0).
  apply Forall_app. split; [exact SDemo.complete_handshake | repeat constructor].
Defined.

(** ** After the end *)

(** A terminated session is silent: after any further calls it is still
    terminated and has sent nothing to the client and nothing to the gateway. *)
Theorem session_terminated_silent steady system lib cs r r' :
  session_inv (sess r) → Forall complete_call cs → state_ (sess r) = Terminated →
  exec_all steady system lib cs r = Some (tt, r') →
  state_ (sess r') = Terminated ∧ outs r' = outs r.
Proof.
  intros Hi Hcs Ht E. revert Ht.
  apply (exec_all_ind steady system lib (λ r _ r', state_ (sess r) = Terminated →
    state_ (sess r') = Terminated ∧ outs r' = outs r)) with (cs := cs); [done | | done | done | done].
  intros q c q1 cs' q' _ _ Hst _ _ IH Hq.
  assert (state_ (sess q1) = Terminated ∧ outs q1 = outs q) as [Hq1 <-]; [| by apply IH].
  destruct Hst; try done; try congruence; naive_solver congruence.
Qed.

Lemma session_terminated_silent_witness :
  let r := after_terminate SDemo.clock SDemo.clock 3 SDemo.r2 in
  state_ (sess r) = Terminated ∧ outs r = outs r.
Proof.
  apply (session_terminated_silent SDemo.clock SDemo.clock None [Timer; SendApp [Init.Byte.x01]; Close 1]);
    [split; apply SDemo.r2_inv | repeat constructor | reflexivity | vm_compute; reflexivity].
Defined.

(** ** Authentication *)

Lemma unsigned_inj a b : byte.unsigned a = byte.unsigned b → a = b.
Proof. intros E. by rewrite <-(byte.of_Z_unsigned a), E, byte.of_Z_unsigned. Qed.

Lemma diff_loop_zero c e d : length c = length e →
  HmacAuthenticator.diff_loop d c e = 0 ↔ d = 0 ∧ c = e.
Proof.
  revert e d. induction c as [|x c IH]; intros [|y e] d Hl; simplify_eq/=; [naive_solver |].
  rewrite IH by done. rewrite Z.lor_eq_0_iff, Z.lxor_eq_0_iff.
  split; [intros [[-> E%unsigned_inj] ->]; by subst | by intros [-> [= -> ->]]].
Qed.

Lemma computeHmac_length HMAC key data :
  (∀ k d x, HMAC k d = Some x → length x = 32%nat) →
  length (HmacAuthenticator.computeHmac (Some HMAC) key data) = 32%nat.
Proof. intros HL. simpl. destruct (HMAC key data) eqn:E; [by eapply HL | done]. Qed.

Lemma verify_digest HMAC key data sig :
  (∀ k d x, HMAC k d = Some x → length x = 32%nat) → length sig = 32%nat →
  HmacAuthenticator.verify (Some HMAC) key data sig = true →
  sig = HmacAuthenticator.computeHmac (Some HMAC) key data.
Proof.
  intros HL Hs. pose proof (computeHmac_length HMAC key data HL) as Hc. unfold HmacAuthenticator.verify.
  rewrite Z.eqb_eq, diff_loop_zero by (rewrite !length_take; lia). rewrite !take_ge by lia. naive_solver.
Qed.

(** The branch-free comparison of the HMAC decides equality of the 32-byte
    digests: with OpenSSL, a signature verifies exactly when it is the HMAC of
    the data under the key. *)
Theorem hmac_verify_correct (HMAC : list byte → list byte → option (list byte)) key data sig :
  (∀ k d x, HMAC k d = Some x → length x = 32%nat) → length sig = 32%nat →
  HmacAuthenticator.verify (Some HMAC) key data sig = true ↔
  sig = HmacAuthenticator.computeHmac (Some HMAC) key data.
Proof.
  intros HL Hs. split; [by apply verify_digest |]. intros ->.
  pose proof (computeHmac_length HMAC key data HL) as Hc. unfold HmacAuthenticator.verify.
  rewrite Z.eqb_eq, diff_loop_zero by done. done.
Qed.

(** A stand-in for HMAC with 32-byte results. *)
Definition demo_hmac (k d : list byte) : option (list byte) := Some (take 32 (k ++ d ++ replicate 32 Init.Byte.x00)).

Lemma demo_hmac_length k d x : demo_hmac k d = Some x → length x = 32%nat.
Proof. intros E%(inj Some). subst x. rewrite length_take, !length_app, length_replicate. lia. Qed.

Lemma hmac_verify_correct_witness :
  HmacAuthenticator.verify (Some demo_hmac) [Init.Byte.x01] [] (Init.Byte.x01 :: replicate 31 Init.Byte.x00) = true ↔
  Init.Byte.x01 :: replicate 31 Init.Byte.x00 = HmacAuthenticator.computeHmac (Some demo_hmac) [Init.Byte.x01] [].
Proof. apply (hmac_verify_correct demo_hmac); [exact demo_hmac_length | reflexivity]. Defined.

(** ** Life cycle *)

(** The digest of a message under the key (OpenSSL may return none). *)
Definition digest (HMAC : list byte → list byte → option (list byte)) (key data : list byte) : list byte :=
  default (replicate 32 Init.Byte.x00) (HMAC key data).

(** The session takes the handshake message: no signature is asked for, the program
    is built without OpenSSL, or the signature (32 bytes behind the header) is the
    digest of the rest. *)
Definition accepts (lib : openssl) (s : Session) (data : list byte) : Prop :=
  hmac_enabled_ s = true → match lib with
  | Some HMAC => take 32 (drop 8 data) = digest HMAC (hmac_key_ s) (drop 40 data)
  | None => True
  end.
#[export] Instance accepts_dec lib s data : Decision (accepts lib s data).
Proof. unfold accepts. destruct lib; apply _. Defined.

(** What a message of template [t] does: the state after it, and the error code of the
    Terminate message that ends the session. *)
Definition received (lib : openssl) (s : Session) (data : list byte) (t : Z) : SessionState * option Z :=
  if decide (t = 500 ∧ state_ s = Connected) then
    if decide (accepts lib s data) then (Negotiated, None) else (Terminated, Some 8)
  else if decide (t = 503 ∧ state_ s = Negotiated) then
    if decide (accepts lib s data) then (Established, None) else (Terminated, Some 8)
  else if decide (t = 507 ∧ state_ s ≠ Terminated) then (Terminated, Some 0)
  else (state_ s, None).

(** What a call at time [now] (in nanoseconds) does; two keep-alive intervals without
    a message are too long. *)
Definition lifecycle (lib : openssl) (s : Session) (now : Z) (c : Call) : SessionState * option Z :=
  match c with
  | Receive data =>
      if decide (length data < 8)%nat then (state_ s, None) else
      match template data with Some t => received lib s data t | None => (state_ s, None) end
  | Timer =>
      if decide (state_ s = Established ∧ 2 * keep_alive_interval_ms_ s * 1000000 ≤ now - last_received_ s)
      then (Terminated, Some 1) else (state_ s, None)
  | Close code => if decide (state_ s = Terminated) then (Terminated, None) else (Terminated, Some code)
  | SendApp _ | SetHmacKey _ | SetHmacEnabled _ => (state_ s, None)
  end.

(** The last thing sent is a Terminate with the code. *)
Definition says_goodbye (code : Z) (r' : Run) : Prop :=
  ∃ now, last (outs r') = Some (ToWire (uuid_ (sess r')) (sbe_bytes (Terminate507.mk (uuid_ (sess r')) now code 0))).

Lemma state_resend steady ms r :
  state_ (sess (foldl (λ r m, after_send steady m r) r ms)) = state_ (sess r).
Proof. rewrite sess_resend. by destruct ms. Qed.

Lemma state_count steady seq r : state_ (sess (count_seq seq (count_gap steady seq r))) = state_ (sess r).
Proof. unfold count_seq, count_gap. by repeat case_match. Qed.

Lemma terminate_goodbye steady system code r :
  send_cb_ (sess r) = true → says_goodbye code (after_terminate steady system code r).
Proof.
  intros Hs. eexists. cbn. unfold wire. cbn. rewrite Hs, last_snoc. reflexivity.
Qed.

Definition digests (lib : openssl) : Prop :=
  match lib with Some HMAC => ∀ k d x, HMAC k d = Some x → length x = 32%nat | None => True end.

Lemma authentic_accepts lib s data : digests lib → (40 ≤ length data)%nat → authentic lib s data = true ↔ accepts lib s data.
Proof.
  intros Hl H40. unfold authentic, accepts. destruct (hmac_enabled_ s); cbn; [| naive_solver].
  destruct lib as [HMAC|]; [| naive_solver]. cbn in Hl.
  rewrite hmac_verify_correct by (done || (rewrite length_take, length_drop; lia)).
  unfold digest, HmacAuthenticator.computeHmac. destruct (HMAC _ _); naive_solver.
Qed.

(** Truncated division by a million against the nanoseconds. *)
Lemma millis_le k d : 0 < k → (k <=? millis d) = bool_decide (k * 1000000 ≤ d).
Proof.
  intros Hk. unfold millis. destruct (Z.leb_spec k (Z.quot d 1000000)) as [H|H]; symmetry.
  - apply bool_decide_eq_true. destruct (decide (0 ≤ d)); [rewrite Z.quot_div_nonneg in H by lia; pose proof (Z.mul_div_le d 1000000); lia |].
    pose proof (Z.quot_opp_l d 1000000). pose proof (Z.quot_pos (- d) 1000000). lia.
  - apply bool_decide_eq_false. intros Hd. rewrite Z.quot_div_nonneg in H by lia.
    pose proof (Z.div_le_mono (k * 1000000) d 1000000 ltac:(lia) Hd). rewrite Z.div_mul in *; lia.
Qed.

Definition does (r r' : Run) (w : SessionState * option Z) : Prop :=
  state_ (sess r') = w.1 ∧ match w.2 with Some code => send_cb_ (sess r) = true → says_goodbye code r' | None => True end.

Lemma ignored_no_move st t : ignored st t →
  ¬ (t = 500 ∧ st = Connected) ∧ ¬ (t = 503 ∧ st = Negotiated) ∧ ¬ (t = 507 ∧ st ≠ Terminated).
Proof.
  intros Hi. split_and!; intros [-> Hs]; destruct Hi as [[? ?]|[[? ?]|[?|[[? ?]|[[? ?]|[[? ?]|[_ Hn]]]]]]]; try done; apply Hn; set_solver.
Qed.

Lemma receive_does steady system lib r data t r' :
  digests lib → complete data → (8 ≤ length data)%nat → template data = Some t → step steady system lib r (Receive data) r' →
  does r r' (received lib (sess r) data t).
Proof.
  intros Hl [_ Hc] H8 Ht Hst. destruct Hc as [?|(t' & Ht' & Hb)]; [lia |]. rewrite Ht in Ht'. injection Ht' as <-.
  pose proof (authentic_accepts lib (sess r) data Hl) as Hacc. unfold received, does.
  inversion Hst; simplify_eq; repeat match goal with H : template _ = Some _ |- _ => rewrite Ht in H end; simplify_eq; try lia.
  - match goal with H : ignored _ _ |- _ => destruct (ignored_no_move _ _ H) as (? & ? & ?) end. by rewrite !decide_False.
  - rewrite decide_True, decide_True by first [done | by apply Hacc; [cbn in Hb; lia |]]. done.
  - rewrite decide_False, decide_True, decide_True by first [by intros [? ?] | done | by apply Hacc; [cbn in Hb; lia |]]. done.
  - assert (¬ accepts lib (sess r) data) as Hn.
    { intros Ha%Hacc; [congruence |]. match goal with H : _ ∨ _ |- _ => destruct H as [[-> _]|[-> _]] end; cbn in Hb; lia. }
    match goal with H : _ ∨ _ |- _ => destruct H as [[-> Hs]|[-> Hs]] end.
    + rewrite decide_True, decide_False by done. split; [done | cbn; intros; by apply terminate_goodbye].
    + rewrite decide_False, decide_True, decide_False by first [by intros [? ?] | done]. split; [done | cbn; intros; by apply terminate_goodbye].
  - rewrite !decide_False, decide_True by first [done | by intros [? ?]]. split; [done | cbn; intros; by apply terminate_goodbye].
  - rewrite !decide_False by (intros [? ?]; first [lia | congruence]). done.
  - rewrite !decide_False by (intros [? ?]; first [lia | congruence]). split; [| done]. by rewrite state_resend.
  - rewrite !decide_False by (intros [? ?]; first [lia | congruence]). split; [| done]. unfold forward. run. by rewrite state_count.
Qed.

Lemma timer_does steady system lib r r' : session_inv (sess r) → step steady system lib r Timer r' →
  does r r' (lifecycle lib (sess r) (steady (reads r)) Timer).
Proof.
  intros Hi Hst. pose proof (inv_keep _ Hi) as Hk. unfold does, lifecycle.
  inversion Hst as [| | | | | | | | |? Hs|? now beat dead r1 Hs| | | | | |]; subst; [by rewrite decide_False by (intros [? ?]; done) |].
  subst dead. rewrite millis_le by lia. rewrite (Z.mul_comm (keep_alive_interval_ms_ _) 2).
  case_bool_decide; [rewrite decide_True | rewrite decide_False by (intros [? ?]; done)]; try done.
  - split; [done |]. cbn. intros. apply terminate_goodbye. subst r1. by destruct beat.
  - subst r1. by destruct beat.
Qed.

Lemma call_does steady system lib r c r' :
  digests lib → complete_call c → session_inv (sess r) → exec steady system lib c r = Some (tt, r') →
  does r r' (lifecycle lib (sess r) (steady (reads r)) c).
Proof.
  intros Hl Hc Hi E. destruct (exec_inv steady system lib c r Hc Hi) as (r1 & E1 & Hst & _).
  rewrite E1 in E. apply run_result_inj in E as ->. destruct c as [data| |data|code|key|b]; cbn [lifecycle].
  - case_decide as H8.
    + unfold exec, onMessage in E1. destruct (_ <? _)%nat eqn:E8 in E1; [by apply run_result_inj in E1 as -> |].
      apply Nat.ltb_ge in E8. unfold MessageHeader.SIZE in E8. lia.
    + destruct (template data) as [t|] eqn:Ht; [eapply receive_does; try done; lia |]. inversion Hst; simplify_eq; congruence.
  - by apply (timer_does steady system lib).
  - by inversion Hst.
  - unfold does. inversion Hst; subst; [by rewrite decide_True | rewrite decide_False by done]. split; [done | cbn; intros; by apply terminate_goodbye].
  - by inversion Hst.
  - by inversion Hst.
Qed.

(** C15: the life cycle of a session. What a call does to the state is what the
    protocol says, in every state: a Negotiate moves Connected to Negotiated and an
    Establish Negotiated to Established, exactly if the session accepts it (no
    authentication asked for, no OpenSSL in the program, or the signature is the
    HMAC of the signed part under the key); one it does not accept ends the session
    with code 8. A Terminate ends it with code 0, a local close with the code given,
    the timer with code 1 exactly if an established session has not received for two
    keep-alive intervals. Every other call leaves the state alone, and an end is
    told the client by a Terminate message with that code. *)
Theorem session_lifecycle steady system lib r c r' :
  match lib with Some HMAC => ∀ k d x, HMAC k d = Some x → length x = 32%nat | None => True end →
  session_inv (sess r) → complete_call c → exec steady system lib c r = Some (tt, r') →
  let '(st, code) := lifecycle lib (sess r) (steady (reads r)) c in
  state_ (sess r') = st ∧ match code with Some code => send_cb_ (sess r) = true → says_goodbye code r' | None => True end.
Proof.
  intros Hl Hi Hc E. pose proof (call_does steady system lib r c r' Hl Hc Hi E) as H.
  unfold does in H. by destruct (lifecycle _ _ _ _).
Qed.

(** Long after the handshake, the timer: a heartbeat and the end. *)
Lemma session_lifecycle_witness :
  let r := mkRun (sess SDemo.r2) 40 [] in
  let r' := after_terminate SDemo.clock SDemo.clock 1 (heartbeat SDemo.clock (tick r)) in
  state_ (sess r) = Established ∧ state_ (sess r') = Terminated ∧ says_goodbye 1 r'.
Proof.
  intros r r'. split; [vm_compute; reflexivity |].
  assert (exec SDemo.clock SDemo.clock (Some demo_hmac) Timer r = Some (tt, r')) as E by (vm_compute; reflexivity).
  pose proof (session_lifecycle SDemo.clock SDemo.clock (Some demo_hmac) r Timer r' demo_hmac_length SDemo.r2_inv I E) as H.
  assert (lifecycle (Some demo_hmac) (sess r) (SDemo.clock (reads r)) Timer = (Terminated, Some 1)) as El by (vm_compute; reflexivity).
  rewrite El in H. destruct H as [Hs Hg]. split; [exact Hs |]. apply Hg. vm_compute. reflexivity.
Defined.

(** What reached the gateway. *)
Definition gateway (os : list Output) : list (Z * list byte) :=
  omap (λ o, match o with ToGateway _ t d => Some (t, d) | ToWire _ _ => None end) os.

Lemma gateway_app os os' : gateway (os ++ os') = gateway os ++ gateway os'.
Proof. apply omap_app. Qed.

Lemma gateway_after_send steady d r : gateway (outs (after_send steady d r)) = gateway (outs r).
Proof. cbn. rewrite gateway_app. unfold wire. destruct (send_cb_ (sess r)); cbn; by rewrite app_nil_r. Qed.

Lemma gateway_resend steady ms r : gateway (outs (foldl (λ r m, after_send steady m r) r ms)) = gateway (outs r).
Proof. revert r. induction ms as [|m ms IH]; intros r; [done |]. simpl. by rewrite IH, gateway_after_send. Qed.

Lemma gateway_after_terminate steady system code r :
  gateway (outs (after_terminate steady system code r)) = gateway (outs r).
Proof. exact (gateway_after_send steady _ (tick r)). Qed.

(** Outside Established nothing reaches the gateway. *)
Lemma step_quiet steady system lib r c r' :
  state_ (sess r) ≠ Established → step steady system lib r c r' → gateway (outs r') = gateway (outs r).
Proof. intros Hs. destruct 1; try done; try congruence; by rewrite ?gateway_after_terminate, ?gateway_after_send. Qed.

Definition no_set (c : Call) : Prop :=
  match c with SetHmacKey _ | SetHmacEnabled _ => False | _ => True end.

Lemma count_hmac steady seq r :
  hmac_key_ (sess (count_seq seq (count_gap steady seq r))) = hmac_key_ (sess r) ∧
  hmac_enabled_ (sess (count_seq seq (count_gap steady seq r))) = hmac_enabled_ (sess r).
Proof. unfold count_seq, count_gap. by repeat case_match. Qed.

Lemma step_hmac steady system lib r c r' : no_set c → step steady system lib r c r' →
  hmac_key_ (sess r') = hmac_key_ (sess r) ∧ hmac_enabled_ (sess r') = hmac_enabled_ (sess r).
Proof.
  intros Hn. destruct 1; try done.
  - rewrite sess_resend. by destruct ms.
  - apply (count_hmac steady seq (recv steady r)).
  - subst r1. by destruct beat, dead.
Qed.

(** The message carries the HMAC of its signed part (everything after the
    signature field) under the key. *)
Definition signed (lib : openssl) (key data : list byte) : Prop :=
  take 32 (drop 8 data) = HmacAuthenticator.computeHmac lib key (drop 40 data).

(** What the rest of a run must contain before a session in the given state
    can reach the gateway. *)
Definition handshake_left (lib : openssl) (key : list byte) (st : SessionState) (cs : list Call) : Prop :=
  match st with
  | Connected => ∃ cs1 neg cs2 est cs3, cs = cs1 ++ Receive neg :: cs2 ++ Receive est :: cs3 ∧
      template neg = Some 500 ∧ signed lib key neg ∧ template est = Some 503 ∧ signed lib key est
  | Negotiated => ∃ cs2 est cs3, cs = cs2 ++ Receive est :: cs3 ∧ template est = Some 503 ∧ signed lib key est
  | Established => True
  | Terminated => False
  end.

Lemma handshake_left_cons lib key st c cs : handshake_left lib key st cs → handshake_left lib key st (c :: cs).
Proof.
  destruct st; simpl; try done.
  - intros (cs1 & neg & cs2 & est & cs3 & -> & ?). by exists (c :: cs1), neg, cs2, est, cs3.
  - intros (cs2 & est & cs3 & -> & ?). by exists (c :: cs2), est, cs3.
Qed.

Lemma authentic_signed HMAC s data :
  (∀ k d x, HMAC k d = Some x → length x = 32%nat) → (40 ≤ length data)%nat →
  hmac_enabled_ s = true → authentic (Some HMAC) s data = true → signed (Some HMAC) (hmac_key_ s) data.
Proof.
  intros HL H40 He Ha. unfold authentic in Ha. rewrite He in Ha. simpl in Ha.
  apply verify_digest; [done | rewrite length_take, length_drop; lia | done].
Qed.

Lemma decode_length {M} `{SbeCodec M, !SbeBounds M} (data : list byte) (m : M) :
  sbe_decode data 0 = Some m → (8 + sbe_block (M := M) ≤ length data)%nat.
Proof.
  intros E. assert (is_Some (sbe_decode (M := M) data 0)) as Hs by by rewrite E.
  apply sbe_decode_bounds in Hs. unfold MessageHeader.SIZE in Hs. lia.
Qed.

(** One step towards the gateway. *)
Lemma step_handshake steady system HMAC r c r' cs :
  (∀ k d x, HMAC k d = Some x → length x = 32%nat) → hmac_enabled_ (sess r) = true →
  step steady system (Some HMAC) r c r' →
  handshake_left (Some HMAC) (hmac_key_ (sess r)) (state_ (sess r')) cs →
  handshake_left (Some HMAC) (hmac_key_ (sess r)) (state_ (sess r)) (c :: cs).
Proof.
  intros HL He Hst. assert (Hsame : state_ (sess r') = state_ (sess r) →
    handshake_left (Some HMAC) (hmac_key_ (sess r)) (state_ (sess r')) cs →
    handshake_left (Some HMAC) (hmac_key_ (sess r)) (state_ (sess r)) (c :: cs))
    by (intros ->; apply handshake_left_cons).
  destruct Hst as [| |r data neg Ht Hs Hd Ha|r data est Ht Hs Hd Ha|r data t Ht Hs Ha| | |r data u lu ts from n ms| | |
    r now beat dead r1 Hs| | | | | |]; try (by apply Hsame); try (by intros []).
  - intros (cs2 & est & cs3 & -> & ? & ?). rewrite Hs. exists [], data, cs2, est, cs3.
    repeat split; try done. apply authentic_signed; try done.
    assert (93 ≤ length data)%nat by exact (decode_length (M := Negotiate500.t) data neg Hd). lia.
  - intros _. rewrite Hs. exists [], data, cs. repeat split; try done. apply authentic_signed; try done.
    assert (91 ≤ length data)%nat by exact (decode_length (M := Establish503.t) data est Hd). lia.
  - apply Hsame. by rewrite state_resend.
  - apply Hsame. apply (state_count steady seq (recv steady r)).
  - by rewrite Hs.
Qed.

(** Only authenticated clients reach the gateway. When a session that
    requires HMACs has handed a message to the gateway, its calls contain a
    Negotiate and, later, an Establish that both carry the HMAC of their
    contents under the session's key. *)
Theorem session_gateway_authenticated steady system HMAC key uuid sc ac t0 t1 cs r' m :
  (∀ k d x, HMAC k d = Some x → length x = 32%nat) →
  Forall complete_call cs → Forall no_set cs →
  exec_all steady system (Some HMAC) cs
    (mkRun (set_hmac_enabled true (set_hmac_key key (Session_init uuid sc ac t0 t1))) 2 []) = Some (tt, r') →
  m ∈ gateway (outs r') →
  ∃ cs1 neg cs2 est cs3, cs = cs1 ++ Receive neg :: cs2 ++ Receive est :: cs3 ∧
    template neg = Some 500 ∧ signed (Some HMAC) key neg ∧
    template est = Some 503 ∧ signed (Some HMAC) key est.
Proof.
  intros HL Hc Hn E Hm. set (r := mkRun _ 2 []) in E.
  change (handshake_left (Some HMAC) (hmac_key_ (sess r)) (state_ (sess r)) cs).
  assert (hmac_enabled_ (sess r) = true) as He by done.
  assert (gateway (outs r) = []) as Hg by done.
  assert (session_inv (sess r)) as Hi by (split; apply (Session_init_inv uuid sc ac t0 t1)).
  clearbody r. revert He Hg Hn Hm.
  apply (exec_all_ind steady system (Some HMAC) (λ r cs r', hmac_enabled_ (sess r) = true → gateway (outs r) = [] →
    Forall no_set cs → m ∈ gateway (outs r') →
    handshake_left (Some HMAC) (hmac_key_ (sess r)) (state_ (sess r)) cs)) with (r' := r'); try done.
  - intros q _ -> _ []%elem_of_nil.
  - intros q c q1 cs' q' _ _ Hst _ _ IH He Hg [Hnc Hn]%Forall_cons Hm'.
    destruct (decide (state_ (sess q) = Established)) as [-> |Hne]; [done |].
    destruct (step_hmac _ _ _ _ _ _ Hnc Hst) as [Hk He'].
    eapply step_handshake; [done | done | done |]. rewrite <-Hk. apply IH; [congruence | | done | done].
    by rewrite (step_quiet _ _ _ _ _ _ Hne Hst).
Qed.

Module AuthDemo.
Definition key : list byte := replicate 32 Init.Byte.x61.
Definition neg : list byte :=
  sbe_bytes (Negotiate500.mk key (replicate 20 Init.Byte.x00) 1 1 (replicate 3 Init.Byte.x00) (replicate 5 Init.Byte.x00) 0 0).
Definition est : list byte :=
  sbe_bytes (Establish503.mk key (replicate 20 Init.Byte.x00) 1 1
    (replicate 3 Init.Byte.x00) (replicate 5 Init.Byte.x00) 5000 1 0).
Definition app : list byte := sbe_bytes OrderCancelRequest516.init.
Definition calls : list Call := [Receive neg; Receive est; Receive app].
Definition r0 : Run := mkRun (set_hmac_enabled true (set_hmac_key key (Session_init 7 true true 0 0))) 2 [].
Definition r3 : Run := default r0 (snd <$> exec_all SDemo.clock SDemo.clock (Some demo_hmac) calls r0).

Lemma complete_calls : Forall complete_call calls.
Proof.
  constructor; [| constructor; [| constructor; [| constructor]]]; (split; [vm_compute; reflexivity | right]).
  - exists 500. split; [vm_compute; reflexivity | vm_compute; lia].
  - exists 503. split; [vm_compute; reflexivity | vm_compute; lia].
  - exists 516. split; [vm_compute; reflexivity | vm_compute; lia].
Qed.
End AuthDemo.

Lemma session_gateway_authenticated_witness :
  ∃ cs1 neg cs2 est cs3, AuthDemo.calls = cs1 ++ Receive neg :: cs2 ++ Receive est :: cs3 ∧
    template neg = Some 500 ∧ signed (Some demo_hmac) AuthDemo.key neg ∧
    template est = Some 503 ∧ signed (Some demo_hmac) AuthDemo.key est.
Proof.
  apply (session_gateway_authenticated SDemo.clock SDemo.clock demo_hmac AuthDemo.key 7 true true 0 0
    AuthDemo.calls AuthDemo.r3 (516, AuthDemo.app)).
  - exact demo_hmac_length.
  - exact AuthDemo.complete_calls.
  - repeat constructor.
  - vm_compute. reflexivity.
  - apply (list_elem_of_lookup_2 _ 0). vm_compute. reflexivity.
Defined.
