(* ===== verification/SessionNumbers.v ===== *)
(** * Sequence numbers, retransmission and keep-alive of FIXP sessions *)
From S2P Require Import Prelude Types Sbe ILink3 RetransmitBuffer Session SessionLemmas SessionStep SessionInv SessionTheorems.
Import SessionOps RetransmitOps.

(** ** Inbound sequence numbers *)

(** The numbers that arrive at or beyond the next expected one, in order. *)
Fixpoint in_turn (next : Z) (qs : list Z) : list Z :=
  match qs with
  | [] => []
  | q :: qs => if q <? next then in_turn next qs else q :: in_turn (q + 1) qs
  end.

(** The next expected number after them. *)
Definition expected (next : Z) (qs : list Z) : Z := foldl (λ next q, if q <? next then next else q + 1) next qs.

(** The gaps reported to the client: first number and count of each NotApplied
    message on the wire. *)
Definition not_applied (os : list Output) : list (Z * Z) :=
  omap (λ o, match o with
    | ToWire _ d =>
        if decide (template d = Some 513)
        then (λ m, (NotApplied513.fromSeqNo m, NotApplied513.msgCount m)) <$> NotApplied513.decode d 0
        else None
    | ToGateway _ _ _ => None
    end) os.

Definition is_wire (o : Output) : Prop := match o with ToWire _ _ => True | ToGateway _ _ _ => False end.

Lemma gateway_wire os : Forall is_wire os → gateway os = [].
Proof. induction 1 as [|[] os Ho _ IH]; [done | exact IH | done]. Qed.

Definition ranges (gs : list (Z * Z)) : list Z := concat ((λ g, seqZ g.1 g.2) <$> gs).

(** An application message with its template id and sequence number. *)
Record app_msg (m : Z * list byte * Z) : Prop := {
  am_template : template m.1.2 = Some m.1.1;
  am_app : 514 ≤ m.1.1;
  am_header : (8 ≤ length m.1.2)%nat;
  am_complete : complete m.1.2;
  am_seq : client_seq_of m.1.1 m.1.2 = Some m.2;
  am_small : m.2 < 2 ^ 32 - 1;
}.

Lemma not_applied_app os os' : not_applied (os ++ os') = not_applied os ++ not_applied os'.
Proof. apply omap_app. Qed.

Lemma ranges_app gs gs' : ranges (gs ++ gs') = ranges gs ++ ranges gs'.
Proof. unfold ranges. by rewrite fmap_app, concat_app. Qed.

Lemma not_applied_sent u from n : u ∈u 64 → from ∈u 32 → n ∈u 32 →
  not_applied [ToWire u (sbe_bytes (NotApplied513.mk u from n))] = [(from, n)].
Proof.
  intros Hu Hf Hn. assert (sbe_wf (NotApplied513.mk u from n)) as Hw by done.
  set (m := NotApplied513.mk u from n) in *.
  assert (template (sbe_bytes m) = Some 513) as Ht.
  { pose proof (sbe_template_spec m [] [] Hw) as Ht. by rewrite app_nil_r in Ht. }
  assert (NotApplied513.decode (sbe_bytes m) 0 = Some m) as Hd.
  { pose proof (sbe_decode_spec m [] [] Hw) as Hd. by rewrite app_nil_r in Hd. }
  unfold not_applied. cbn [omap list_omap]. by rewrite decide_True, Hd.
Qed.

Section inbound.
Context (steady system : nat → Z) (lib : openssl).
Local Abbreviation exec := (exec steady system lib).
Local Abbreviation exec_all := (exec_all steady system lib).

Lemma step_app_inv r data r' t q :
  step steady system lib r (Receive data) r' → template data = Some t → (8 ≤ length data)%nat → 514 ≤ t →
  state_ (sess r) = Established → client_seq_of t data = Some q →
  r' = forward t data (count_seq q (count_gap steady q (recv steady r))).
Proof.
  intros Hst Ht Hl H514 Hs Hq. inversion Hst; simplify_eq; try lia; try congruence.
  exfalso. unfold ignored in *. rewrite Hs in *. naive_solver lia.
Qed.

(** What one message does to the counter and the outputs. *)
Lemma app_outputs r t data q :
  session_inv (sess r) → uuid_ (sess r) ∈u 64 → send_cb_ (sess r) = true → app_cb_ (sess r) = true →
  0 ≤ q < 2 ^ 32 - 1 →
  let next := next_in_seq_ (sess r) in
  let r' := forward t data (count_seq q (count_gap steady q (recv steady r))) in
  uuid_ (sess r') = uuid_ (sess r) ∧ send_cb_ (sess r') = true ∧ app_cb_ (sess r') = true ∧
  state_ (sess r') = state_ (sess r) ∧ next_in_seq_ (sess r') = (if q <? next then next else q + 1) ∧
  ∃ os, outs r' = outs r ++ os ++ [ToGateway (uuid_ (sess r)) t data] ∧
    not_applied os = (if next <? q then [(next, q - next)] else []) ∧
    Forall is_wire os.
Proof.
  intros Hi Hu Hsc Hac Hq next r'. pose proof (inv_in _ Hi) as Hin. fold next in Hin. subst r'.
  unfold forward, count_seq, count_gap, recv. cbn. fold next.
  destruct (Z.ltb_spec next q) as [Hlt|Hge].
  - cbn. unfold wire. cbn. rewrite Z.eqb_refl. cbn. rewrite Hsc, Hac.
    rewrite (wrapu_small 32 (q + 1)) by lia. rewrite (wrapu_small 32 (q - next)) by lia.
    replace (q <? next) with false by lia. repeat split.
    exists [ToWire (uuid_ (sess r)) (sbe_bytes (NotApplied513.mk (uuid_ (sess r)) next (q - next)))].
    rewrite <-app_assoc. unfold wire. cbn [set_last_received send_cb_]. rewrite Hsc.
    split; [done |]. split; [| by repeat constructor].
    apply not_applied_sent; lia.
  - cbn. destruct (Z.eqb_spec q (next_in_seq_ (sess r))) as [Heq|Hne]; cbn; rewrite Hac; fold next in Heq || fold next in Hne.
    + fold next. rewrite (wrapu_small 32 (next + 1)) by lia. replace (q <? next) with false by lia.
      repeat split; try done; [lia |]. exists []. by repeat split.
    + fold next. replace (q <? next) with true by lia. repeat split; try done. exists []. by repeat split.
Qed.

(** One message of a run: its gap, itself when in turn, and what is left. *)
Lemma numbers_split next q e :
  0 ≤ next → next ≤ q → q + 1 ≤ e →
  seqZ next (q - next) ++ q :: seqZ (q + 1) (e - (q + 1)) = seqZ next (e - next).
Proof.
  intros H0 H1 H2. replace (e - next) with ((q - next) + (1 + (e - (q + 1)))) by lia.
  rewrite seqZ_app by lia. replace (next + (q - next)) with q by lia. f_equal.
  rewrite (seqZ_cons q) by lia. f_equal. f_equal; lia.
Qed.

(** C16: inbound numbers are accounted for. For any application messages (in
    order, duplicated or with gaps) received by an established session, every
    message is forwarded to the gateway in order, the next expected number never
    goes down, and each number passed over is accounted for exactly once: it
    belongs to a message that arrived in turn or to a range reported to the
    client as not applied. *)
Theorem session_inbound_accounting msgs r :
  Forall app_msg msgs → session_inv (sess r) → uuid_ (sess r) ∈u 64 →
  send_cb_ (sess r) = true → app_cb_ (sess r) = true → state_ (sess r) = Established →
  ∃ r' os, exec_all ((λ m, Receive m.1.2) <$> msgs) r = Some (tt, r') ∧ outs r' = outs r ++ os ∧
    gateway os = msgs.*1 ∧
    next_in_seq_ (sess r') = expected (next_in_seq_ (sess r)) msgs.*2 ∧
    next_in_seq_ (sess r) ≤ next_in_seq_ (sess r') ∧
    ranges (not_applied os) ++ in_turn (next_in_seq_ (sess r)) msgs.*2 ≡ₚ
      seqZ (next_in_seq_ (sess r)) (next_in_seq_ (sess r') - next_in_seq_ (sess r)).
Proof.
  intros HF. revert r. induction HF as [|[[t data] q] msgs Hm _ IH]; intros r Hi Hu Hsc Hac Hs.
  - exists r, []. rewrite app_nil_r. repeat split; try done. by rewrite Z.sub_diag.
  - destruct Hm as [Ht H514 H8 Hc Hq Hsm]. simpl in *.
    destruct (exec_inv steady system lib (Receive data) r Hc Hi) as (r1 & E & Hst & Hi1).
    pose proof (step_app_inv _ _ _ _ _ Hst Ht H8 H514 Hs Hq) as ->.
    pose proof (client_seq_range _ _ _ Hq) as Hqr.
    destruct (app_outputs r t data q Hi Hu Hsc Hac ltac:(lia)) as (Hu1 & Hsc1 & Hac1 & Hs1 & Hn1 & os1 & Ho1 & Hna & Hw).
    set (r1 := forward t data _) in *.
    destruct (IH r1) as (r' & os & E' & Ho & Hf & Hn & Hle & Hp); [done | congruence | done | done | congruence |].
    set (next := next_in_seq_ (sess r)) in *. rewrite Hn1 in *.
    exists r', ((os1 ++ [ToGateway (uuid_ (sess r)) t data]) ++ os).
    rewrite (bind_run _ _ _ _ _ E). split; [exact E' |]. split; [by rewrite Ho, Ho1, <-app_assoc |].
    split; [by rewrite !gateway_app, (gateway_wire _ Hw), Hf |].
    split; [done |]. pose proof (inv_in _ Hi) as Hin. fold next in Hin.
    rewrite !not_applied_app, !ranges_app, Hna. cbn [not_applied omap list_omap].
    destruct (Z.ltb_spec q next) as [Hlt|Hge].
    + split; [lia |]. replace (next <? q) with false by lia. exact Hp.
    + split; [lia |]. rewrite <-(numbers_split next q) by lia. rewrite <-Hp.
      assert (ranges (if next <? q then [(next, q - next)] else []) = seqZ next (q - next)) as ->.
      { destruct (Z.ltb_spec next q); [cbn; by rewrite app_nil_r |]. by replace (q - next) with 0 by lia. }
      change (ranges []) with (@nil Z). rewrite app_nil_r, <-app_assoc.
      by rewrite Permutation_middle.
Qed.

End inbound.

Definition cancel_msg (q : Z) : list byte :=
  sbe_bytes (OrderCancelRequest516.mk 1 0 0 q (replicate 20 Init.Byte.x00) (replicate 20 Init.Byte.x00) 5 1 9 0
    (replicate 5 Init.Byte.x00) 0).

Lemma cancel_complete q : template (cancel_msg q) = Some 516 → complete (cancel_msg q).
Proof. intros Ht. split; [done |]. right. exists 516. split; [done | vm_compute; lia]. Qed.

Lemma session_inbound_accounting_witness :
  let msgs := [(516, cancel_msg 1, 1); (516, cancel_msg 4, 4); (516, cancel_msg 2, 2)] in
  ∃ r' os, exec_all SDemo.clock SDemo.clock None ((λ m, Receive m.1.2) <$> msgs) SDemo.r2 = Some (tt, r') ∧
    outs r' = outs SDemo.r2 ++ os ∧ gateway os = msgs.*1 ∧
    next_in_seq_ (sess r') = expected 1 msgs.*2 ∧ 1 ≤ next_in_seq_ (sess r') ∧
    ranges (not_applied os) ++ in_turn 1 msgs.*2 ≡ₚ seqZ 1 (next_in_seq_ (sess r') - 1).
Proof.
  apply (session_inbound_accounting SDemo.clock SDemo.clock None
    [(516, cancel_msg 1, 1); (516, cancel_msg 4, 4); (516, cancel_msg 2, 2)] SDemo.r2).
  - constructor; [| constructor; [| constructor; [| constructor]]];
      (split; simpl; [vm_compute; reflexivity | lia | vm_compute; lia |
        apply cancel_complete; vm_compute; reflexivity | vm_compute; reflexivity | lia]).
  - exact SDemo.r2_inv.
  - vm_compute. split; [discriminate | reflexivity].
  - reflexivity.
  - reflexivity.
  - reflexivity.
Defined.

(** ** Where the sequence number is *)

Lemma rd_seq_num (hd : list byte) ws q :
  length hd = 8%nat → packed 0 ws → put_u 17 q 4 ∈ ws → q ∈u 32 →
  rd_u (hd ++ payload ws) (MessageHeader.SIZE + 17) 4 = Some q.
Proof.
  intros Hh Hp Hin Hq. pose proof (rd_u_packed ws hd [] Hp 8 (eq_sym Hh) 17 4 q Hin Hq) as H.
  by rewrite app_nil_r in H.
Qed.

(** The sequence number the session reads from an order message at its
    fixed body offset is the message's own [seqNum] field, for each of the three
    order messages. *)
Theorem session_reads_seq_num :
  (∀ m, NewOrderSingle514.wf m → client_seq_of 514 (sbe_bytes m) = Some (NewOrderSingle514.seqNum m)) ∧
  (∀ m, OrderCancelReplaceRequest515.wf m →
     client_seq_of 515 (sbe_bytes m) = Some (OrderCancelReplaceRequest515.seqNum m)) ∧
  (∀ m, OrderCancelRequest516.wf m → client_seq_of 516 (sbe_bytes m) = Some (OrderCancelRequest516.seqNum m)).
Proof.
  repeat split; intros m Hw; (apply rd_seq_num; [done | | | apply Hw]).
  - unfold NewOrderSingle514.wf in Hw. destruct_and?. solve_packed NewOrderSingle514.fields.
  - apply (list_elem_of_lookup_2 _ 4). done.
  - unfold OrderCancelReplaceRequest515.wf in Hw. destruct_and?. solve_packed OrderCancelReplaceRequest515.fields.
  - apply (list_elem_of_lookup_2 _ 4). done.
  - unfold OrderCancelRequest516.wf in Hw. destruct_and?. solve_packed OrderCancelRequest516.fields.
  - apply (list_elem_of_lookup_2 _ 3). done.
Qed.

(** ** Outbound sequence numbers and retransmission *)

Section outbound.
Context (steady system : nat → Z) (lib : openssl).
Local Abbreviation step := (step steady system lib).
Local Abbreviation exec := (exec steady system lib).
Local Abbreviation exec_all := (exec_all steady system lib).

(** The application messages a run sends, in order. *)
Definition sent_by (c : Call) (s : Session) : list (list byte) :=
  match c with SendApp d => if decide (state_ s = Established) then [d] else [] | _ => [] end.

Fixpoint app_sent (cs : list Call) (r : Run) : list (list byte) :=
  match cs with
  | [] => []
  | c :: cs => sent_by c (sess r) ++ match exec c r with Some (_, r1) => app_sent cs r1 | None => [] end
  end.

(** The buffer holds the messages sent, numbered from 1. *)
Definition history (s : Session) (sent : list (list byte)) : Prop :=
  rb_repr 10000 (retransmit_buffer_ s) sent ∧ next_out_seq_ s = Z.of_nat (length sent) + 1.

Lemma history_keep s s' sent :
  retransmit_buffer_ s' = retransmit_buffer_ s → next_out_seq_ s' = next_out_seq_ s → history s sent → history s' sent.
Proof. intros Hr Hn. unfold history. by rewrite Hr, Hn. Qed.

Lemma count_history seq r sent : history (sess r) sent → history (sess (count_seq seq (count_gap steady seq r))) sent.
Proof. apply history_keep; unfold count_seq, count_gap; by repeat case_match. Qed.

Lemma step_history r c r' sent :
  step r c r' → history (sess r) sent → Z.of_nat (length (sent ++ sent_by c (sess r))) < 2 ^ 32 - 1 →
  history (sess r') (sent ++ sent_by c (sess r)).
Proof.
  intros Hst Hh Hl. destruct Hst; cbn [sent_by] in *; rewrite ?app_nil_r; try done.
  - rewrite sess_resend. by destruct ms.
  - by apply (count_history seq (recv steady r)).
  - subst r1. by destruct beat, dead.
  - by rewrite decide_False, app_nil_r.
  - rewrite decide_True in * by done. destruct Hh as [Hrb Hn]. rewrite length_app in Hl. simpl in Hl.
    destruct (store_repr 10000 (retransmit_buffer_ (sess r)) sent data Hrb) as (rb' & E & Hrb').
    rewrite <-Hn in E. simplify_eq. split; cbn; [done |].
    rewrite Hn, length_app. simpl. rewrite wrapu_small; lia.
Qed.

Lemma exec_all_history cs r r' sent :
  Forall complete_call cs → session_inv (sess r) → exec_all cs r = Some (tt, r') →
  history (sess r) sent → Z.of_nat (length (sent ++ app_sent cs r)) < 2 ^ 32 - 1 →
  history (sess r') (sent ++ app_sent cs r).
Proof.
  intros Hcs Hi E. revert sent.
  apply (exec_all_ind steady system lib (λ r cs r', ∀ sent, history (sess r) sent →
    Z.of_nat (length (sent ++ app_sent cs r)) < 2 ^ 32 - 1 → history (sess r') (sent ++ app_sent cs r))); try done.
  - intros q sent Hh _. by rewrite app_nil_r.
  - intros q c q1 cs' q' _ _ Hst E1 _ IH sent Hh Hl. simpl in *. rewrite E1 in *. rewrite app_assoc in *.
    apply IH; [| done]. apply (step_history q); [done | done |]. rewrite length_app in Hl. lia.
Qed.

Lemma init_history uuid sc ac t0 t1 : history (Session_init uuid sc ac t0 t1) [].
Proof. split; [by apply init_repr | done]. Qed.

Lemma outs_resend ms r : send_cb_ (sess r) = true →
  outs (foldl (λ r m, after_send steady m r) r ms) = outs r ++ (ToWire (uuid_ (sess r)) <$> ms).
Proof.
  revert r. induction ms as [|m ms IH]; intros r Hs; simpl; [by rewrite app_nil_r |].
  rewrite IH by done. cbn. unfold wire. rewrite Hs. by rewrite <-app_assoc.
Qed.

Lemma requested_window rb sent from n :
  rb_repr 10000 rb sent → 0 ≤ from → 0 ≤ n → from + n ≤ 2 ^ 32 →
  requested rb from (Z.to_nat n) = omap (in_window 10000 sent) (seqZ from n).
Proof.
  intros Hrb H0 Hn Hle. unfold requested, seqZ.
  assert (∀ k, (k ∈ seq 0 (Z.to_nat n)) → (k < Z.to_nat n)%nat) as Hk by (intros k Hk%elem_of_seq; lia).
  revert Hk. generalize (seq 0 (Z.to_nat n)). induction l as [|k l IH]; intros Hk; [done |]. csimpl.
  pose proof (Hk k (list_elem_of_here _ _)).
  rewrite wrapu_small by lia. rewrite (retrieve_repr _ _ _ _ Hrb) by lia. csimpl.
  rewrite IH by (intros; apply Hk; by right). by rewrite (Z.add_comm (Z.of_nat k)).
Qed.

Lemma request_range data u lu ts from n :
  RetransmitRequest508.decode data 0 = Some (RetransmitRequest508.mk u lu ts from n) → from ∈u 32 ∧ n ∈u 16.
Proof.
  unfold RetransmitRequest508.decode. intros H. repeat (apply bind_Some in H as (? & ? & H)). simplify_eq.
  split; [by eapply (rd_u_range data _ 4) | by eapply (rd_u_range data _ 2)].
Qed.

Lemma step_retransmit_inv r data r' u lu ts from n :
  step r (Receive data) r' → template data = Some 508 → state_ (sess r) = Established →
  RetransmitRequest508.decode data 0 = Some (RetransmitRequest508.mk u lu ts from n) → foreign (sess r) lu = false →
  let ms := requested (retransmit_buffer_ (sess r)) from (Z.to_nat n) in
  r' = foldl (λ r m, after_send steady m r)
    (after_send steady (sbe_bytes (Retransmission509.mk (uuid_ (sess r)) lu ts from (Z.of_nat (length ms)) 0)) (recv steady r)) ms.
Proof.
  intros Hst Ht Hs Hd Hf ms.
  assert (38 ≤ length data)%nat by exact (decode_length (M := RetransmitRequest508.t) data _ Hd).
  inversion Hst; simplify_eq; try lia; try congruence; [| done].
  exfalso. unfold ignored in *. rewrite Hs in *.
  repeat match goal with H : _ ∨ _ |- _ => destruct H as [H|H] end; destruct_and?; try lia; try done.
  match goal with H : _ ∉ _ |- _ => apply H end. set_solver.
Qed.

(** C17: retransmission is exact. After any run of a session, a retransmit
    request for its own session is answered with the number of messages that
    follow and then, in order, with exactly those application messages numbered
    [from], ..., [from + n - 1] that the session sent and that are among its last
    10000; the session's own count of messages is the number it sent plus one. *)
Theorem session_retransmits_exactly uuid ac t0 t1 cs r data u lu ts from n :
  let r0 := mkRun (Session_init uuid true ac t0 t1) 2 [] in
  let sent := app_sent cs r0 in
  let ms := omap (in_window 10000 sent) (seqZ from n) in
  Forall complete_call cs → exec_all cs r0 = Some (tt, r) → state_ (sess r) = Established →
  Z.of_nat (length sent) < 2 ^ 32 - 1 →
  complete data → template data = Some 508 →
  RetransmitRequest508.decode data 0 = Some (RetransmitRequest508.mk u lu ts from n) →
  lu = 0 ∨ lu = uuid → from + n ≤ 2 ^ 32 →
  next_out_seq_ (sess r) = Z.of_nat (length sent) + 1 ∧
  ∃ r', exec (Receive data) r = Some (tt, r') ∧
    outs r' = outs r ++ ToWire uuid (sbe_bytes (Retransmission509.mk uuid lu ts from (Z.of_nat (length ms)) 0))
      :: (ToWire uuid <$> ms).
Proof.
  intros r0 sent ms Hcs E Hs Hlen Hc Ht Hd Hlu Hle.
  pose proof (exec_all_identity steady system lib cs r0 r Hcs (Session_init_inv _ _ _ _ _) E) as Hid.
  injection Hid as Hu Hsc _. assert (foreign (sess r) lu = false) as Hf by (unfold foreign; rewrite Hu; lia).
  destruct (exec_all_history cs r0 r [] Hcs (Session_init_inv _ _ _ _ _) E (init_history _ _ _ _ _) Hlen) as [Hrb Hn].
  split; [exact Hn |].
  destruct (exec_all_inv steady system lib cs r0 Hcs (Session_init_inv _ _ _ _ _)) as (r1 & E1 & Hi).
  rewrite E in E1. apply run_result_inj in E1 as <-.
  destruct (exec_inv steady system lib (Receive data) r Hc Hi) as (r' & E' & Hst & _).
  exists r'. split; [exact E' |]. pose proof (request_range _ _ _ _ _ _ Hd) as [Hfr Hnr].
  rewrite (step_retransmit_inv _ _ _ _ _ _ _ _ Hst Ht Hs Hd Hf).
  rewrite (requested_window _ sent) by (done || lia). fold ms.
  rewrite outs_resend by done. cbn. unfold wire. cbn [recv upd sess set_last_received send_cb_ uuid_ tick]. rewrite Hsc, Hu.
  by rewrite <-app_assoc.
Qed.

End outbound.

Module RetransmitDemo.
Definition msg (b : byte) : list byte := [b; b].
Definition calls : list Call := SDemo.handshake ++ [SendApp (msg Init.Byte.x01); SendApp (msg Init.Byte.x02); SendApp (msg Init.Byte.x03)].
Definition r0 : Run := mkRun (Session_init 7 true true 0 0) 2 [].
Definition r : Run := default r0 (snd <$> exec_all SDemo.clock SDemo.clock None calls r0).
Definition request : list byte := sbe_bytes (RetransmitRequest508.mk 7 0 5 2 10).
End RetransmitDemo.

Lemma session_retransmits_exactly_witness :
  next_out_seq_ (sess RetransmitDemo.r) = 4 ∧
  ∃ r', exec SDemo.clock SDemo.clock None (Receive RetransmitDemo.request) RetransmitDemo.r = Some (tt, r') ∧
    outs r' = outs RetransmitDemo.r ++ [ToWire 7 (sbe_bytes (Retransmission509.mk 7 0 5 2 2 0));
      ToWire 7 (RetransmitDemo.msg Init.Byte.x02); ToWire 7 (RetransmitDemo.msg Init.Byte.x03)].
Proof.
  refine (session_retransmits_exactly SDemo.clock SDemo.clock None 7 true 0 0 RetransmitDemo.calls RetransmitDemo.r
    RetransmitDemo.request 7 0 5 2 10 _ _ _ _ _ _ _ _ _).
  - apply Forall_app. split; [exact SDemo.complete_handshake | repeat constructor].
  - vm_compute. reflexivity.
  - vm_compute. reflexivity.
  - vm_compute. reflexivity.
  - split; [reflexivity |]. right. exists 508. split; [vm_compute; reflexivity | vm_compute; lia].
  - vm_compute. reflexivity.
  - vm_compute. reflexivity.
  - by left.
  - lia.
Defined.

(** ** Keep-alive *)

Section keepalive.
Context (steady system : nat → Z) (lib : openssl).
Local Abbreviation exec := (exec steady system lib).
Local Abbreviation exec_all := (exec_all steady system lib).

Definition not_receive (c : Call) : Prop := match c with Receive _ => False | _ => True end.

Lemma step_unheard r c r' : not_receive c → step steady system lib r c r' →
  last_received_ (sess r') = last_received_ (sess r) ∧
  keep_alive_interval_ms_ (sess r') = keep_alive_interval_ms_ (sess r) ∧
  (state_ (sess r') = state_ (sess r) ∨ state_ (sess r') = Terminated).
Proof.
  intros Hn Hst. destruct Hst; try done; cbn; auto.
  subst r1. destruct beat, dead; cbn; auto.
Qed.

Lemma exec_all_unheard cs r r' : Forall complete_call cs → Forall not_receive cs → session_inv (sess r) →
  exec_all cs r = Some (tt, r') →
  last_received_ (sess r') = last_received_ (sess r) ∧
  keep_alive_interval_ms_ (sess r') = keep_alive_interval_ms_ (sess r) ∧
  (state_ (sess r') = state_ (sess r) ∨ state_ (sess r') = Terminated).
Proof.
  intros Hc Hn Hi E. revert Hn.
  apply (exec_all_ind steady system lib (λ r cs r', Forall not_receive cs →
    last_received_ (sess r') = last_received_ (sess r) ∧
    keep_alive_interval_ms_ (sess r') = keep_alive_interval_ms_ (sess r) ∧
    (state_ (sess r') = state_ (sess r) ∨ state_ (sess r') = Terminated))); try done; [by auto |].
  intros q c q1 cs' q' _ _ Hst _ _ IH [Hnc Hn]%Forall_cons.
  destruct (step_unheard _ _ _ Hnc Hst) as (H1 & H2 & Hq). destruct (IH Hn) as (H3 & H4 & Hq').
  rewrite H3, H4. repeat split; [done | done |]. destruct Hq as [<- | Hq]; [done |]. right. destruct Hq'; congruence.
Qed.

(** C18: keep-alive. Whatever an established session sends in the meantime, a
    timer call at least 120 s after the last message from the client leaves it
    terminated; a timer call less than two keep-alive intervals (of at least one
    second each) after that message does not end it. *)
Theorem session_keepalive cs r r1 r2 :
  session_inv (sess r) → state_ (sess r) = Established →
  Forall complete_call cs → Forall not_receive cs →
  exec_all cs r = Some (tt, r1) → exec Timer r1 = Some (tt, r2) →
  let silence := steady (reads r1) - last_received_ (sess r) in
  (120 * 1000000000 ≤ silence → state_ (sess r2) = Terminated) ∧
  (0 ≤ silence < 2 * keep_alive_interval_ms_ (sess r) * 1000000 → state_ (sess r1) = Established →
     state_ (sess r2) = Established).
Proof.
  intros Hi Hs Hc Hn E E2 silence.
  destruct (exec_all_unheard cs r r1 Hc Hn Hi E) as (Hlr & Hka & Hs1).
  destruct (exec_all_inv steady system lib cs r Hc Hi) as (r1' & E1' & Hi1).
  rewrite E in E1'. apply run_result_inj in E1' as <-.
  destruct (exec_inv steady system lib Timer r1 I Hi1) as (r2' & E2' & Hst & _).
  rewrite E2 in E2'. apply run_result_inj in E2' as <-.
  pose proof (inv_keep _ Hi) as Hk.
  inversion Hst as [| | | | | | | | |? Hne| ? now beat dead q1 Hq| | | | | |]; subst.
  - split; [| by intros _ ?]. intros _. destruct Hs1 as [Hs1|Hs1]; [congruence | done].
  - unfold q1, beat, dead, now, millis in *. rewrite Hlr, Hka. fold silence. split.
    + intros Hsil. replace (keep_alive_interval_ms_ (sess r) * 2 <=? silence `quot` 1000000) with true; [done |].
      symmetry. apply Z.leb_le. rewrite Z.quot_div_nonneg by lia.
      etransitivity; [| apply (Z.div_le_mono (120 * 1000000000)); lia]. vm_compute (120 * 1000000000 / 1000000). lia.
    + intros Hsil Hq1. replace (keep_alive_interval_ms_ (sess r) * 2 <=? silence `quot` 1000000) with false.
      * clear -Hq1. destruct (_ <=? _); exact Hq1.
      * symmetry. apply Z.leb_gt. rewrite Z.quot_div_nonneg by lia.
        apply Z.div_lt_upper_bound; lia.
Qed.

End keepalive.

(** A clock that jumps to 200 s. *)
Definition late_clock (n : nat) : Z := if (n <? 6)%nat then Z.of_nat n else 200 * 1000000000.

Definition late_start : Run := default SDemo.r0 (snd <$> exec_all late_clock late_clock None SDemo.handshake SDemo.r0).
Definition late_end : Run := default SDemo.r0 (snd <$> exec late_clock late_clock None Timer late_start).

Lemma late_start_run : exec_all late_clock late_clock None SDemo.handshake SDemo.r0 = Some (tt, late_start).
Proof. vm_compute. reflexivity. Qed.

Lemma late_start_inv : session_inv (sess late_start).
Proof.
  destruct (exec_all_inv late_clock late_clock None SDemo.handshake SDemo.r0 SDemo.complete_handshake
    (Session_init_inv _ _ _ _ _)) as (r & E & Hi).
  rewrite (run_result_inj _ _ (eq_trans (eq_sym late_start_run) E)). exact Hi.
Qed.

Lemma session_keepalive_witness : state_ (sess late_end) = Terminated.
Proof.
  refine (proj1 (session_keepalive late_clock late_clock None [] late_start late_start late_end
    late_start_inv _ _ _ _ _) _).
  - vm_compute. reflexivity.
  - constructor.
  - constructor.
  - reflexivity.
  - vm_compute. reflexivity.
  - vm_compute. discriminate.
Defined.

(** ** Truncated messages *)

(** A truncated Negotiate makes the session read past the end of the
    message: [onMessage] only checks for the 8-byte header before the handler
    decodes the 85-byte block. *)
Theorem session_short_negotiate_overreads steady system lib r data :
  state_ (sess r) = Connected → template data = Some 500 → (8 ≤ length data < 93)%nat →
  onMessage steady system lib data r = None.
Proof.
  intros Hs Ht Hl. unfold onMessage.
  replace (length data <? MessageHeader.SIZE)%nat with false by (symmetry; apply Nat.ltb_ge; unfold MessageHeader.SIZE; lia).
  run. unfold template in Ht. rewrite Ht. run. cbn [Z.eqb Pos.eqb Negotiate500.TEMPLATE_ID].
  unfold handleNegotiate. run. rewrite decide_False by (cbn; tauto).
  assert (Negotiate500.decode data 0 = None) as Hd.
  { apply eq_None_not_Some. change (Negotiate500.decode data 0) with (sbe_decode (M := Negotiate500.t) data 0).
    rewrite sbe_decode_bounds. intros Hb. change (0 + 8 + 85 ≤ length data)%nat in Hb. lia. }
  rewrite Hd. done.
Qed.

Lemma session_short_negotiate_overreads_witness :
  onMessage SDemo.clock SDemo.clock None (MessageHeader.bytes 85 500 8 8) SDemo.r0 = None.
Proof.
  apply session_short_negotiate_overreads; [reflexivity | vm_compute; reflexivity | vm_compute; lia].
Defined.
