(* ===== verification/SessionManager.v ===== *)
(** * Session manager (src/fixp/session_manager.h, src/fixp/session_manager.cpp)

    The registry of sessions. A [std::shared_ptr<Session>] is a pointer into a
    heap of sessions that the manager shares with the connections, so calls made
    on a session through its connection are visible here. Every method holds the
    manager's mutex: the methods are atomic steps. The iteration order over the
    [std::unordered_map] is unspecified and is an argument of [onTimerTick]. *)
From S2P Require Import Prelude Types RetransmitBuffer Session SessionLemmas SessionStep SessionInv.
Import SessionOps.

Record Manager := mkManager {
  sessions_ : gmap Z positive;
  next_uuid_ : Z;
  max_sessions_ : Z;
  session_heap : gmap positive Session;
  mgr_reads : nat;
  mgr_outs : list Output;
}.

Definition set_sessions v (m : Manager) : Manager :=
  mkManager v (next_uuid_ m) (max_sessions_ m) (session_heap m) (mgr_reads m) (mgr_outs m).
(** The effect of running a method of the session at [p]. *)
Definition set_session (p : positive) (r : Run) (m : Manager) : Manager :=
  mkManager (sessions_ m) (next_uuid_ m) (max_sessions_ m) (<[p := sess r]> (session_heap m)) (reads r) (outs r).

Module SessionManagerOps.

Definition SessionManager_init (max_sessions : Z) : Manager := mkManager ∅ 1 max_sessions ∅ 0 [].

Definition findSession (m : Manager) (uuid : Z) : option positive := sessions_ m !! uuid.
Definition activeSessionCount (m : Manager) : Z := Z.of_nat (size (sessions_ m)).

Definition removeSession (m : Manager) (uuid : Z) : Manager :=
  match sessions_ m !! uuid with
  | Some _ => set_sessions (delete uuid (sessions_ m)) m
  | None => m
  end.

Section manager.
Context (steady system : nat → Z) (lib : openssl).

(** [None] is the null pointer returned at capacity; the constructor of the
    session reads the clock twice. *)
Definition createSession (m : Manager) (send_cb app_cb : bool) : Manager * option positive :=
  if max_sessions_ m <=? activeSessionCount m then (m, None) else
  let uuid := next_uuid_ m in
  let p := fresh (dom (session_heap m)) in
  let session := Session_init uuid send_cb app_cb (steady (mgr_reads m)) (steady (S (mgr_reads m))) in
  (mkManager (<[uuid := p]> (sessions_ m)) (u64 (uuid + 1)) (max_sessions_ m)
     (<[p := session]> (session_heap m)) (S (S (mgr_reads m))) (mgr_outs m), Some p).

(** A method of the session at [p], called by the manager or a connection. *)
Definition on_session (m : Manager) (p : positive) (c : Call) : option Manager :=
  s ← session_heap m !! p;
  '(_, r) ← exec steady system lib c (mkRun s (mgr_reads m) (mgr_outs m));
  Some (set_session p r m).

(** The loop over the sessions, collecting the terminated ones. *)
Fixpoint tick_loop (order : list (Z * positive)) (m : Manager) (terminated : list Z) : option (Manager * list Z) :=
  match order with
  | [] => Some (m, terminated)
  | (uuid, p) :: order =>
      m ← on_session m p Timer;
      s ← session_heap m !! p;
      tick_loop order m (if decide (state_ s = Terminated) then terminated ++ [uuid] else terminated)
  end.

Definition onTimerTick (order : list (Z * positive)) (m : Manager) : option Manager :=
  '(m, terminated) ← tick_loop order m [];
  Some (foldl (λ m uuid, set_sessions (delete uuid (sessions_ m)) m) m terminated).

End manager.
End SessionManagerOps.
Import SessionManagerOps.

(** ** Invariant *)
Record manager_inv (cap : Z) (m : Manager) : Prop := {
  mi_cap : max_sessions_ m = cap;
  mi_size : activeSessionCount m ≤ max_sessions_ m;
  mi_uuid : 1 ≤ next_uuid_ m < 2 ^ 64;
  mi_key : ∀ u p, sessions_ m !! u = Some p →
    1 ≤ u < next_uuid_ m ∧ ∃ s, session_heap m !! p = Some s ∧ uuid_ s = u;
  mi_heap : ∀ p s, session_heap m !! p = Some s → session_inv s;
}.

Section manager_inv.
Context (cap : Z).

Lemma SessionManager_init_inv : 0 ≤ cap → manager_inv cap (SessionManager_init cap).
Proof.
  intros Hn. split; cbn; [done | unfold activeSessionCount; cbn; by rewrite map_size_empty | lia | |].
  - intros u p. by rewrite lookup_empty.
  - intros p s. by rewrite lookup_empty.
Qed.

(** Two identifiers never share a session object. *)
Lemma sessions_inj m u u' p : manager_inv cap m → sessions_ m !! u = Some p → sessions_ m !! u' = Some p → u = u'.
Proof.
  intros Hi Hu Hu'. destruct (mi_key _ _ Hi _ _ Hu) as (_ & s & Hs & <-).
  destruct (mi_key _ _ Hi _ _ Hu') as (_ & s' & Hs' & <-). congruence.
Qed.

Lemma remove_inv m ks : manager_inv cap m → (∀ u p, ks !! u = Some p → sessions_ m !! u = Some p) →
  (size ks ≤ size (sessions_ m))%nat → manager_inv cap (set_sessions ks m).
Proof.
  intros [H0 H1 H2 H3 H4] Hks Hsz. split; cbn; [done | | done | eauto | done].
  unfold activeSessionCount in *. cbn. lia.
Qed.

Lemma delete_inv m u : manager_inv cap m → manager_inv cap (set_sessions (delete u (sessions_ m)) m).
Proof.
  intros Hi. apply remove_inv; [done | |].
  - intros u' p [_ H]%lookup_delete_Some. done.
  - apply map_subseteq_size, delete_subseteq.
Qed.

Lemma removeSession_inv m u : manager_inv cap m → manager_inv cap (removeSession m u).
Proof. intros Hi. unfold removeSession. destruct (_ !! _); [by apply delete_inv | done]. Qed.

Lemma createSession_inv steady m sc ac :
  manager_inv cap m → next_uuid_ m < 2 ^ 64 - 1 → manager_inv cap (createSession steady m sc ac).1.
Proof.
  intros Hi Hn. unfold createSession. destruct (Z.leb_spec (max_sessions_ m) (activeSessionCount m)); [done |].
  pose proof Hi as [H0 H1 H2 H3 H4]. set (p := fresh (dom (session_heap m))).
  assert (session_heap m !! p = None) as Hp by apply not_elem_of_dom, is_fresh.
  split; cbn; rewrite ?(wrapu_small 64 (next_uuid_ m + 1)) by lia; [done | ..].
  - unfold activeSessionCount in *. cbn. rewrite map_size_insert. destruct (sessions_ m !! _); unfold id; lia.
  - lia.
  - intros u q [[<- <-]|[Hne Hq]]%lookup_insert_Some.
    + split; [lia |]. eexists. by rewrite lookup_insert_eq.
    + destruct (H3 _ _ Hq) as (Hu & s & Hs & Hus). split; [lia |]. exists s.
      by rewrite lookup_insert_ne by congruence.
  - intros q s [[<- <-]|[Hne Hq]]%lookup_insert_Some; [apply Session_init_inv | by eapply H4].
Qed.

Lemma on_session_inv steady system lib m p c :
  manager_inv cap m → complete_call c → is_Some (session_heap m !! p) →
  ∃ m', on_session steady system lib m p c = Some m' ∧ manager_inv cap m' ∧ sessions_ m' = sessions_ m ∧
    dom (session_heap m') = dom (session_heap m) ∧
    (∀ q, q ≠ p → session_heap m' !! q = session_heap m !! q).
Proof.
  intros Hi Hc [s Hs]. unfold on_session. rewrite Hs. simpl.
  destruct (exec_inv steady system lib c (mkRun s (mgr_reads m) (mgr_outs m)) Hc) as (r & E & Hst & Hr);
    [by eapply mi_heap |]. rewrite E. simpl.
  pose proof (step_identity _ _ _ _ _ _ Hst) as Hid. injection Hid as Hu _ _.
  eexists. split; [done |]. split; [| split; [done |]; split].
  - destruct Hi as [H0 H1 H2 H3 H4]. split; cbn; [done | done | done | |].
    + intros u q Hq. destruct (H3 _ _ Hq) as (Hr1 & s' & Hs' & Hus). split; [done |].
      destruct (decide (p = q)) as [<- |Hne].
      * exists (sess r). rewrite lookup_insert_eq. split; [done |]. congruence.
      * exists s'. by rewrite lookup_insert_ne.
    + intros q s' [[<- <-]|[_ Hq]]%lookup_insert_Some; [done | by eapply H4].
  - cbn. rewrite dom_insert_L. assert (p ∈ dom (session_heap m)) by by apply elem_of_dom_2 in Hs. set_solver.
  - intros q Hq. cbn. by rewrite lookup_insert_ne.
Qed.

(** ** The timer tick *)
Definition session_at (m : Manager) (u : Z) : option Session := p ← sessions_ m !! u; session_heap m !! p.
Definition terminated_at (m : Manager) (u : Z) : bool :=
  match session_at m u with Some s => bool_decide (state_ s = Terminated) | None => false end.

Lemma session_at_other m m' u u' p :
  manager_inv cap m → sessions_ m !! u = Some p → u' ≠ u → sessions_ m' = sessions_ m →
  (∀ q, q ≠ p → session_heap m' !! q = session_heap m !! q) → session_at m' u' = session_at m u'.
Proof.
  intros Hi Hu Hne Es Eh. unfold session_at. rewrite Es. destruct (sessions_ m !! u') as [q|] eqn:Hq; [| done].
  simpl. apply Eh. intros ->. apply Hne. by eapply sessions_inj.
Qed.

(** The loop visits every listed session once and collects exactly those that
    are terminated afterwards. *)
Lemma tick_loop_inv steady system lib order m ts :
  manager_inv cap m → NoDup order.*1 → (∀ u p, (u, p) ∈ order → sessions_ m !! u = Some p) →
  ∃ m', tick_loop steady system lib order m ts = Some (m', ts ++ filter (λ u, terminated_at m' u = true) order.*1) ∧
    manager_inv cap m' ∧ sessions_ m' = sessions_ m ∧
    (∀ u, u ∉ order.*1 → session_at m' u = session_at m u).
Proof.
  revert m ts. induction order as [|[u p] order IH]; intros m ts Hi Hnd Hin; simpl.
  - exists m. by rewrite app_nil_r.
  - apply NoDup_cons in Hnd as [Hu Hnd]. assert (sessions_ m !! u = Some p) as Hup by (apply Hin; left).
    destruct (mi_key _ _ Hi _ _ Hup) as (_ & s & Hs & _).
    destruct (on_session_inv steady system lib m p Timer Hi I (mk_is_Some _ _ Hs)) as (m1 & -> & Hi1 & Hs1 & Hd1 & Ho1). simpl.
    assert (is_Some (session_heap m1 !! p)) as [s1 Hs1'] by (apply elem_of_dom; rewrite Hd1; by apply elem_of_dom_2 in Hs).
    rewrite Hs1'. simpl.
    destruct (IH m1 (if decide (state_ s1 = Terminated) then ts ++ [u] else ts) Hi1 Hnd) as (m' & -> & Hi' & Hs' & Hrest).
    { intros u' q Hq. rewrite Hs1. apply Hin. by right. }
    exists m'. assert (session_at m' u = Some s1) as Hat.
    { rewrite Hrest by done. unfold session_at. rewrite Hs1, Hup. done. }
    split; [| split; [done |]; split; [congruence |]].
    + do 2 f_equal. rewrite filter_cons.
      assert (terminated_at m' u = bool_decide (state_ s1 = Terminated)) as -> by (unfold terminated_at; by rewrite Hat).
      destruct (decide (state_ s1 = Terminated)) as [HT|HT].
      * rewrite decide_True by (by apply bool_decide_eq_true). by rewrite <-app_assoc.
      * rewrite decide_False; [done |]. by rewrite bool_decide_eq_true.
    + intros u' [Hne Hu']%not_elem_of_cons. rewrite Hrest by done. by eapply session_at_other.
Qed.

Lemma delete_all_sessions ts m :
  sessions_ (foldl (λ m uuid, set_sessions (delete uuid (sessions_ m)) m) m ts) = filter (λ kv, kv.1 ∉ ts) (sessions_ m) ∧
  session_heap (foldl (λ m uuid, set_sessions (delete uuid (sessions_ m)) m) m ts) = session_heap m.
Proof.
  revert m. induction ts as [|t ts IH]; intros m; simpl.
  - split; [| done]. symmetry. apply map_filter_id. intros. apply not_elem_of_nil.
  - destruct (IH (set_sessions (delete t (sessions_ m)) m)) as [-> ->]. split; [| done]. cbn.
    apply map_eq. intros u. apply option_eq. intros p.
    rewrite !map_lookup_filter_Some, lookup_delete_Some, not_elem_of_cons. simpl. naive_solver.
Qed.

Lemma delete_all_inv ts m : manager_inv cap m →
  manager_inv cap (foldl (λ m uuid, set_sessions (delete uuid (sessions_ m)) m) m ts).
Proof. revert m. induction ts as [|t ts IH]; intros m Hi; simpl; [done |]. by apply IH, delete_inv. Qed.

Lemma tick_run steady system lib order m :
  manager_inv cap m → order ≡ₚ map_to_list (sessions_ m) →
  ∃ m', onTimerTick steady system lib order m = Some m' ∧ manager_inv cap m' ∧
    ∀ u p, sessions_ m' !! u = Some p ↔
      sessions_ m !! u = Some p ∧ ∃ s, session_heap m' !! p = Some s ∧ state_ s ≠ Terminated.
Proof.
  intros Hi Ho. destruct (tick_loop_inv steady system lib order m [] Hi) as (m1 & E & Hi1 & Hs1 & _).
  { rewrite Ho. apply NoDup_fst_map_to_list. }
  { intros u p. rewrite Ho. apply elem_of_map_to_list. }
  unfold onTimerTick. rewrite E. simpl. eexists. split; [done |]. split; [by apply delete_all_inv |].
  intros u p. destruct (delete_all_sessions (filter (λ u, terminated_at m1 u = true) order.*1) m1) as [-> ->].
  rewrite map_lookup_filter_Some, Hs1. simpl.
  destruct (decide (sessions_ m !! u = Some p)) as [Hup|Hup]; [| naive_solver].
  assert (u ∈ order.*1) as Hin by (rewrite Ho; apply list_elem_of_fmap; exists (u, p); by rewrite elem_of_map_to_list).
  assert (sessions_ m1 !! u = Some p) as Hup1 by congruence.
  destruct (mi_key _ _ Hi1 _ _ Hup1) as (_ & s & Hs & _).
  assert (terminated_at m1 u = bool_decide (state_ s = Terminated)) as Hta
    by (unfold terminated_at, session_at; rewrite Hup1; simpl; by rewrite Hs).
  rewrite list_elem_of_filter, Hta, bool_decide_eq_true. naive_solver.
Qed.

(** ** Reachable managers *)
Section reach.
Context (steady system : nat → Z) (lib : openssl).

Inductive manager_step (m : Manager) : Manager → Prop :=
  | ms_create sc ac : next_uuid_ m < 2 ^ 64 - 1 → manager_step m (createSession steady m sc ac).1
  | ms_remove uuid : manager_step m (removeSession m uuid)
  | ms_tick order m' : order ≡ₚ map_to_list (sessions_ m) →
      onTimerTick steady system lib order m = Some m' → manager_step m m'
  | ms_call p c m' : complete_call c → on_session steady system lib m p c = Some m' → manager_step m m'.

Lemma manager_step_inv m m' : manager_inv cap m → manager_step m m' → manager_inv cap m'.
Proof.
  intros Hi. destruct 1 as [sc ac Hn|u|order m' Ho E|p c m' Hc E].
  - by apply createSession_inv.
  - by apply removeSession_inv.
  - destruct (tick_run steady system lib order m Hi Ho) as (m1 & E1 & Hi1 & _). by simplify_eq.
  - assert (is_Some (session_heap m !! p)) as Hp
      by (unfold on_session in E; destruct (session_heap m !! p); [by eexists | done]).
    destruct (on_session_inv steady system lib m p c Hi Hc Hp) as (m1 & E1 & Hi1 & _). by simplify_eq.
Qed.

Lemma reachable_inv m : 0 ≤ cap → rtc manager_step (SessionManager_init cap) m → manager_inv cap m.
Proof.
  intros Hn Hr. remember (SessionManager_init cap) as m0 eqn:E.
  assert (manager_inv cap m0) as H0 by (subst; by apply SessionManager_init_inv).
  clear E. induction Hr; eauto using manager_step_inv.
Qed.
End reach.
End manager_inv.

(** ** Properties *)

(** In every reachable state of the manager, at most the configured number
    of sessions is registered, each one under its own identifier (so no two
    share a session), and the next identifier to be given out is not in use. *)
Theorem manager_registry_sound steady system lib max_sessions m :
  0 ≤ max_sessions → rtc (manager_step steady system lib) (SessionManager_init max_sessions) m →
  activeSessionCount m ≤ max_sessions ∧
  (∀ u p, findSession m u = Some p → ∃ s, session_heap m !! p = Some s ∧ uuid_ s = u ∧ session_inv s) ∧
  findSession m (next_uuid_ m) = None.
Proof.
  intros Hn Hr. pose proof (reachable_inv max_sessions steady system lib m Hn Hr) as Hi.
  pose proof Hi as [Hc Hs Hu Hk Hh]. split; [lia |]. split.
  - intros u p Hp. destruct (Hk _ _ Hp) as (_ & s & ? & ?). exists s. eauto.
  - destruct (findSession m (next_uuid_ m)) as [p|] eqn:E; [| done]. apply Hk in E as [? _]. lia.
Qed.

Lemma manager_registry_sound_witness :
  let m := (createSession (λ _, 0) (SessionManager_init 1) true true).1 in
  activeSessionCount m ≤ 1 ∧
  (∀ u p, findSession m u = Some p → ∃ s, session_heap m !! p = Some s ∧ uuid_ s = u ∧ session_inv s) ∧
  findSession m (next_uuid_ m) = None.
Proof.
  apply (manager_registry_sound (λ _, 0) (λ _, 0) None 1); [lia |].
  apply rtc_once. apply ms_create. reflexivity.
Defined.

(** A timer tick serves every registered session, in whatever order the map
    is traversed: it returns, and the sessions registered afterwards are exactly
    those registered before whose session is not terminated after its timer
    ran. *)
Theorem manager_tick_reaps steady system lib max_sessions order m :
  0 ≤ max_sessions → rtc (manager_step steady system lib) (SessionManager_init max_sessions) m →
  order ≡ₚ map_to_list (sessions_ m) →
  ∃ m', onTimerTick steady system lib order m = Some m' ∧
    ∀ u p, findSession m' u = Some p ↔
      findSession m u = Some p ∧ ∃ s, session_heap m' !! p = Some s ∧ state_ s ≠ Terminated.
Proof.
  intros Hn Hr Ho. pose proof (reachable_inv max_sessions steady system lib m Hn Hr) as Hi.
  destruct (tick_run max_sessions steady system lib order m Hi Ho) as (m' & E & _ & H). eauto.
Qed.

Lemma manager_tick_reaps_witness :
  let m := (createSession (λ _, 0) (SessionManager_init 1) true true).1 in
  ∃ m', onTimerTick (λ _, 0) (λ _, 0) None (map_to_list (sessions_ m)) m = Some m' ∧
    ∀ u p, findSession m' u = Some p ↔
      findSession m u = Some p ∧ ∃ s, session_heap m' !! p = Some s ∧ state_ s ≠ Terminated.
Proof.
  apply (manager_tick_reaps (λ _, 0) (λ _, 0) None 1); [lia | | reflexivity].
  apply rtc_once. apply ms_create. reflexivity.
Defined.
