(* ===== verification/Instrument.v ===== *)
(** * Instruments (src/instruments/instrument.h)

    The instrument record and its tick arithmetic. Tick sizes are IEEE 754
    doubles: [double] is the standard library's specification of binary64, so
    the conversion of a tick size to the fixed-point mantissa computes what the
    machine computes. *)
From Stdlib Require Import Floats.SpecFloat.
From S2P Require Import Prelude Types.

Abbreviation double := spec_float.
Definition double_mul (x y : double) : double := SFmul 53 1024 x y.
(** [1e9], exactly representable. *)
Definition one_e9 : double := S754_finite false (1000000000 * 2 ^ 23) (-23).

(** [static_cast<int64_t>(d)]: truncation towards zero, undefined outside the
    range of the type. *)
Definition to_int64 (d : double) : option Z :=
  match d with
  | S754_zero _ => Some 0
  | S754_finite s m e =>
      let a := if 0 <=? e then Z.pos m * 2 ^ e else Z.quot (Z.pos m) (2 ^ (- e)) in
      let v := if s then - a else a in
      if (- 2 ^ 63 <=? v) && (v <? 2 ^ 63) then Some v else None
  | _ => None
  end.

Record Instrument := mkInstrument {
  in_security_id : SecurityId;
  in_symbol : string;
  security_group : string;
  asset : string;
  in_channel_id : Z;
  tick_size : double;
  contract_multiplier : double;
  min_price_increment_amount : double;
  display_factor : double;
  min_trade_vol : Quantity;
  max_trade_vol : Quantity;
  maturity_month_year : string;
  unit_of_measure : string;
  trading_status : SecurityTradingStatus;
}.

Definition set_trading_status v (i : Instrument) : Instrument :=
  mkInstrument (in_security_id i) (in_symbol i) (security_group i) (asset i) (in_channel_id i) (tick_size i)
    (contract_multiplier i) (min_price_increment_amount i) (display_factor i) (min_trade_vol i) (max_trade_vol i)
    (maturity_month_year i) (unit_of_measure i) v.

Module InstrumentOps.

Definition tickMantissa (i : Instrument) : option Z := to_int64 (double_mul (tick_size i) one_e9).

(** [%] and [/] on [int64_t] truncate towards zero. *)
Definition roundToTick (i : Instrument) (price : Price) : option Price :=
  tm ← tickMantissa i;
  if tm =? 0 then Some price else
  let remainder := Z.rem (mantissa price) tm in
  if remainder =? 0 then Some price else
  let remainder := if remainder <? 0 then i64 (remainder + tm) else remainder in
  Some (if Z.quot tm 2 <? remainder
        then mkPrice (i64 (mantissa price + i64 (tm - remainder)))
        else mkPrice (i64 (mantissa price - remainder))).

Definition isValidTick (i : Instrument) (price : Price) : option bool :=
  tm ← tickMantissa i;
  Some (if tm =? 0 then true else Z.rem (mantissa price) tm =? 0).

Definition ticksToPrice (i : Instrument) (ticks : Z) : option Price :=
  tm ← tickMantissa i; Some (mkPrice (i64 (ticks * tm))).

Definition priceToTicks (i : Instrument) (price : Price) : option Z :=
  tm ← tickMantissa i;
  Some (if tm =? 0 then 0 else Z.quot (mantissa price) tm).

End InstrumentOps.
Import InstrumentOps.

(** ** Facts *)
Lemma to_int64_range d v : to_int64 d = Some v → v ∈i 64.
Proof.
  unfold to_int64. destruct d as [s| | |s m e]; try done; [intros [= <-]; lia|].
  cbv zeta. generalize (if s then - (if 0 <=? e then Z.pos m * 2 ^ e else Z.quot (Z.pos m) (2 ^ (- e)))
    else if 0 <=? e then Z.pos m * 2 ^ e else Z.quot (Z.pos m) (2 ^ (- e))). intros w H.
  destruct (Z.leb_spec (- 2 ^ 63) w), (Z.ltb_spec w (2 ^ 63)); cbn [andb] in H; try done. injection H as <-. lia.
Qed.

Lemma valid_tick_iff i p tm : tickMantissa i = Some tm → 0 < tm →
  isValidTick i p = Some true ↔ (tm | mantissa p).
Proof.
  intros Ht Hp. unfold isValidTick. rewrite Ht. simpl. replace (tm =? 0) with false by lia.
  rewrite <-Z.rem_divide by lia. rewrite <-Z.eqb_eq. split; [by intros [= ->] | by intros ->].
Qed.

(** A concrete instrument with the given tick size. *)
Definition with_tick (d : double) : Instrument :=
  mkInstrument 1 "ESH5" "ES" "ES" 310 d d d d 1 10000 "202503" "Qty" PreOpen.
Definition quarter : double := S754_finite false (2 ^ 52) (-54).

(** ** Properties *)

(** C19: rounding to the tick. For a positive tick and prices away from the ends
    of the 64-bit range, the rounded price is a multiple of the tick, at most
    half a tick away, and equal to the price when that is a multiple already;
    the tick test accepts exactly the multiples. *)
Theorem round_to_tick_nearest i p tm :
  tickMantissa i = Some tm → 0 < tm < 2 ^ 62 → - 2 ^ 62 ≤ mantissa p < 2 ^ 62 →
  ∃ q, roundToTick i p = Some q ∧ isValidTick i q = Some true ∧
    2 * Z.abs (mantissa q - mantissa p) ≤ tm ∧
    (isValidTick i p = Some true → q = p) ∧ (isValidTick i p = Some true ↔ (tm | mantissa p)).
Proof.
  intros Ht Htm Hp. setoid_rewrite (valid_tick_iff i _ tm Ht ltac:(lia)).
  unfold roundToTick. rewrite Ht. simpl. replace (tm =? 0) with false by lia.
  destruct p as [x]. cbn [mantissa] in *.
  pose proof (Z.quot_rem x tm ltac:(lia)) as Hq. pose proof (Z.rem_bound_abs x tm ltac:(lia)) as Hr.
  pose proof (Z.quot_rem tm 2 ltac:(lia)) as H2. pose proof (Z.rem_bound_pos tm 2 ltac:(lia) ltac:(lia)) as Hr2.
  destruct (Z.eqb_spec (Z.rem x tm) 0) as [E|E].
  - exists (mkPrice x). assert (tm | x) by (apply Z.rem_divide; lia). cbn. rewrite Z.sub_diag. by repeat split; try lia.
  - assert (~ (tm | x)) as Hnd by (rewrite <-Z.rem_divide by lia; done).
    set (r := Z.rem x tm) in *. set (k := Z.quot x tm) in *.
    set (r' := if r <? 0 then i64 (r + tm) else r).
    assert (∃ k', x = tm * k' + r' ∧ 0 < r' < tm) as (k' & Hx & Hr').
    { unfold r'. destruct (Z.ltb_spec r 0); [| exists k; lia].
      exists (k - 1). rewrite wraps_small by lia. lia. }
    clearbody r'. destruct (Z.ltb_spec (Z.quot tm 2) r') as [Hlt|Hge].
    + eexists. split; [done |]. cbn [mantissa].
      rewrite (wraps_small 64 (tm - r')) by lia. rewrite wraps_small by lia.
      split; [exists (k' + 1); lia |]. split; [lia |]. split; [done | done].
    + eexists. split; [done |]. cbn [mantissa]. rewrite wraps_small by lia.
      split; [exists k'; lia |]. split; [lia |]. split; [done | done].
Qed.

Lemma round_to_tick_nearest_witness :
  ∃ q, roundToTick (with_tick quarter) (mkPrice (-380000000)) = Some q ∧
    isValidTick (with_tick quarter) q = Some true ∧ 2 * Z.abs (mantissa q - -380000000) ≤ 250000000 ∧
    (isValidTick (with_tick quarter) (mkPrice (-380000000)) = Some true → q = mkPrice (-380000000)) ∧
    (isValidTick (with_tick quarter) (mkPrice (-380000000)) = Some true ↔ (250000000 | -380000000)).
Proof.
  apply (round_to_tick_nearest (with_tick quarter) (mkPrice (-380000000)) 250000000); [vm_compute; reflexivity | lia | simpl; lia].
Defined.

(** A tick size that is not a binary fraction can lose its last unit: the
    double 4.1 times 1e9 is below 4100000000, its mantissa is 4099999999, and
    4.1 itself is not accepted as a price on the tick grid. *)
Theorem tick_mantissa_truncates :
  let i := with_tick (S754_finite false 4616189618054758 (-50)) in
  tickMantissa i = Some 4099999999 ∧ isValidTick i (mkPrice 4100000000) = Some false ∧
  tickMantissa (with_tick quarter) = Some 250000000.
Proof. vm_compute. done. Qed.
