(* ===== verification/Text.v ===== *)
(** * Text the program reads

    Of the C++ library: [std::stoi], and [operator>>] on a string stream for
    words, integers and doubles, in the default locale. A text is its bytes; an
    extraction gives the value and what is left, [None] is a failed one (for
    [std::stoi] an exception). At the end: prices in quarters are exact. *)
From Stdlib Require Import Floats.SpecFloat.
From stdpp Require Import pretty.
From S2P Require Import Prelude Instrument.

Module TextOps.
Definition digit_value (c : byte) : option Z :=
  let n := byte.unsigned c in if (48 <=? n) && (n <=? 57) then Some (n - 48) else None.
Definition isspace (c : byte) : bool :=
  let n := byte.unsigned c in (n =? 32) || ((9 <=? n) && (n <=? 13)).

Fixpoint skip_spaces (s : list byte) : list byte :=
  match s with c :: s' => if isspace c then skip_spaces s' else s | [] => [] end.
(** The value of the digits a text starts with, after those read into [acc]. *)
Fixpoint span_digits (acc : Z) (s : list byte) : Z * list byte :=
  match s with
  | [] => (acc, [])
  | c :: s' => match digit_value c with Some d => span_digits (10 * acc + d) s' | None => (acc, s) end
  end.
Fixpoint span_word (s : list byte) : list byte * list byte :=
  match s with
  | [] => ([], [])
  | c :: s' => if isspace c then ([], s) else let '(w, rest) := span_word s' in (c :: w, rest)
  end.
Definition read_sign (s : list byte) : bool * list byte :=
  match s with
  | c :: s' => if byte.unsigned c =? 45 then (true, s') else if byte.unsigned c =? 43 then (false, s') else (false, s)
  | [] => (false, [])
  end.

Definition read_word (s : list byte) : option (list byte * list byte) :=
  match span_word (skip_spaces s) with ([], _) => None | r => Some r end.

(** A signed integer of [w] bits. *)
Definition read_signed (w : Z) (s : list byte) : option (Z * list byte) :=
  let '(neg, s) := read_sign (skip_spaces s) in
  _ ← head s ≫= digit_value;
  let '(v, rest) := span_digits 0 s in
  let v := if neg then - v else v in
  if (- 2 ^ (w - 1) <=? v) && (v <? 2 ^ (w - 1)) then Some (v, rest) else None.
(** An unsigned one: a minus sign is accepted and negates modulo [2 ^ w]. *)
Definition read_unsigned (w : Z) (s : list byte) : option (Z * list byte) :=
  let '(neg, s) := read_sign (skip_spaces s) in
  _ ← head s ≫= digit_value;
  let '(v, rest) := span_digits 0 s in
  if v <? 2 ^ w then Some (wrapu w (if neg then - v else v), rest) else None.

(** [m * 10 ^ e], rounded to the nearest double. *)
Definition scaled (neg : bool) (m e : Z) : double :=
  if 0 <=? e then binary_normalize 53 1024 (if neg then - (m * 10 ^ e) else m * 10 ^ e) 0 neg
  else match m, 10 ^ (- e) with
       | Zpos m, Zpos d => SFdiv 53 1024 (S754_finite neg m 0) (S754_finite false d 0)
       | _, _ => S754_zero neg
       end.
(** Digits with at most one point among them, and an exponent; too large a value fails. *)
Definition read_double (s : list byte) : option (double * list byte) :=
  let '(neg, s) := read_sign (skip_spaces s) in
  let '(whole, s1) := span_digits 0 s in
  let '(m, fraction, s2) :=
    match s1 with
    | c :: t => if byte.unsigned c =? 46 then let '(m, t') := span_digits whole t in (m, (length t - length t')%nat, t') else (whole, O, s1)
    | [] => (whole, O, [])
    end in
  if (length s - length s1 + fraction =? 0)%nat then None else
  '(e, rest) ← match s2 with
    | c :: t =>
        if (byte.unsigned c =? 101) || (byte.unsigned c =? 69) then
          let '(eneg, t) := read_sign t in
          _ ← head t ≫= digit_value;
          let '(e, rest) := span_digits 0 t in Some (if eneg then - e else e, rest)
        else Some (0, s2)
    | [] => Some (0, [])
    end;
  match scaled neg m (e - Z.of_nat fraction) with
  | S754_infinity _ | S754_nan => None
  | d => Some (d, rest)
  end.

(** [std::stoi]: what follows the number is ignored. *)
Definition stoi (s : list byte) : option Z := fst <$> read_signed 32 s.
End TextOps.

Import TextOps.

(** ** Numbers keep to their types *)
Lemma read_signed_range w s v rest : read_signed w s = Some (v, rest) → v ∈i w.
Proof.
  unfold read_signed. destruct (read_sign _) as [neg t]. intros H. simplify_option_eq. destruct (span_digits 0 t).
  case_match eqn:E; [|done]. apply andb_true_iff in E as [?%Z.leb_le ?%Z.ltb_lt]. simplify_eq. lia.
Qed.
Lemma read_unsigned_range w s v rest : 0 ≤ w → read_unsigned w s = Some (v, rest) → v ∈u w.
Proof.
  unfold read_unsigned. destruct (read_sign _) as [neg t]. intros Hw H. simplify_option_eq. destruct (span_digits 0 t).
  case_match; [|done]. simplify_eq. by apply wrapu_range.
Qed.

Example stoi_ignores_the_rest : stoi (chars " -12x") = Some (-12) ∧ stoi (chars "x12") = None ∧ stoi (chars "2147483648") = None.
Proof. by vm_compute. Qed.
Example negative_quantity : fst <$> read_unsigned 32 (chars "-5") = Some 4294967291.
Proof. reflexivity. Qed.
Example doubles :
  fst <$> read_double (chars "5000.25") = Some (SFdiv 53 1024 (binary_normalize 53 1024 500025 0 false) (binary_normalize 53 1024 100 0 false))
  ∧ fst <$> read_double (chars "1e400") = None ∧ fst <$> read_double (chars ".5E1z") = Some (binary_normalize 53 1024 5 0 false).
Proof. by vm_compute. Qed.

(** ** Printed integers are read back

    The digits [ds] of [x], most significant first. *)
Definition digits_of (x : N) (ds : list byte) : Prop :=
  Forall (λ c, is_Some (digit_value c)) ds ∧ ∀ rest, span_digits 0 (ds ++ rest) = span_digits (Z.of_N x) rest.

Lemma chars_String c s : chars (String c s) = Ascii.byte_of_ascii c :: chars s.
Proof. done. Qed.
Lemma chars_app s1 s2 : chars (s1 +:+ s2) = chars s1 ++ chars s2.
Proof. induction s1 as [|c s1 IH]; [done|]. change (chars (String c (s1 +:+ s2)) = chars (String c s1) ++ chars s2). by rewrite !chars_String, IH. Qed.

Lemma digit_char d : (d < 10)%N → digit_value (Ascii.byte_of_ascii (pretty_N_char d)) = Some (Z.of_N d).
Proof.
  intros Hd. assert (Forall (λ d, digit_value (Ascii.byte_of_ascii (pretty_N_char d)) = Some (Z.of_N d)) (N.of_nat <$> seq 0 10)) as H
    by (by repeat constructor).
  rewrite Forall_forall in H. apply H, list_elem_of_fmap. exists (N.to_nat d). split; [lia|]. apply elem_of_seq. lia.
Qed.

Lemma pretty_go_digits x : ∀ s, ∃ ds, chars (pretty_N_go x s) = ds ++ chars s ∧ digits_of x ds ∧ ((0 < x)%N → ds ≠ []).
Proof.
  induction (N.lt_wf_0 x) as [x _ IH]; intros s. destruct (decide (0 < x)%N) as [H0|H0].
  - rewrite pretty_N_go_step by done. destruct (IH (x `div` 10)%N ltac:(by apply N.div_lt) (String (pretty_N_char (x `mod` 10)) s)) as (ds & E & [Hf Hd] & _).
    pose proof (digit_char (x `mod` 10) ltac:(by apply N.mod_lt)) as Hc.
    exists (ds ++ [Ascii.byte_of_ascii (pretty_N_char (x `mod` 10))]). rewrite E, chars_String, <-app_assoc. split; [done|]. split; [split|by destruct ds].
    + apply Forall_app. split; [done|]. by repeat constructor.
    + intros rest. rewrite <-app_assoc, Hd. cbn [app span_digits]. rewrite Hc. f_equal. pose proof (N.div_mod x 10 ltac:(done)). lia.
  - assert (x = 0%N) as -> by lia. exists []. split; [done|]. split; [|done]. by split.
Qed.

Lemma pretty_digits (x : N) : digits_of x (chars (pretty x)) ∧ chars (pretty x) ≠ [].
Proof.
  unfold pretty, pretty_N. case_decide as H0.
  - subst. split; [|done]. split; [|done]. by repeat constructor.
  - destruct (pretty_go_digits x "") as (ds & E & Hd & Hn). rewrite E, app_nil_r. split; [done|apply Hn; lia].
Qed.

(** A text at which the digits stop. *)
Definition stops (rest : list byte) : Prop := head rest ≫= digit_value = None.

Lemma span_stops v rest : stops rest → span_digits v rest = (v, rest).
Proof. unfold stops. destruct rest as [|c rest]; [done|]. cbn. by intros ->. Qed.

Lemma digit_bytes c v : digit_value c = Some v → 48 ≤ byte.unsigned c ≤ 57.
Proof. unfold digit_value. case_match eqn:E; [|done]. apply andb_true_iff in E as [?%Z.leb_le ?%Z.leb_le]. lia. Qed.

Lemma skip_digit c s : is_Some (digit_value c) → skip_spaces (c :: s) = c :: s ∧ read_sign (c :: s) = (false, c :: s).
Proof.
  intros [v Hv%digit_bytes]. unfold skip_spaces, isspace, read_sign.
  rewrite (proj2 (Z.eqb_neq _ 32)), (proj2 (Z.leb_gt _ 13)), andb_false_r, (proj2 (Z.eqb_neq _ 45)), (proj2 (Z.eqb_neq _ 43)) by lia. done.
Qed.

(** What the number readers see of a printed number. *)
Lemma printed_number (x : N) rest : stops rest →
  let s := chars (pretty x) ++ rest in
  skip_spaces s = s ∧ read_sign s = (false, s) ∧ is_Some (head s ≫= digit_value) ∧ span_digits 0 s = (Z.of_N x, rest).
Proof.
  intros Hr. destruct (pretty_digits x) as [[Hf Hd] Hn]. cbv zeta. rewrite Hd, span_stops by done.
  destruct (chars (pretty x)) as [|c ds]; [done|]. apply Forall_cons in Hf as [Hc _]. cbn [app head mbind option_bind].
  destruct (skip_digit c (ds ++ rest) Hc) as [-> ->]. done.
Qed.

Lemma read_unsigned_pretty w n rest : n ∈u w → stops rest → read_unsigned w (chars (pretty n) ++ rest) = Some (n, rest).
Proof.
  intros Hn Hr. unfold read_unsigned. replace (pretty n) with (pretty (Z.to_N n)) by (destruct n; [done..|lia]).
  destruct (printed_number (Z.to_N n) rest Hr) as (-> & -> & [d ->] & ->). cbn [mbind option_bind].
  rewrite Z2N.id, (proj2 (Z.ltb_lt _ _)), wrapu_small by lia. done.
Qed.

Lemma skip_minus s : skip_spaces (Init.Byte.x2d :: s) = Init.Byte.x2d :: s ∧ read_sign (Init.Byte.x2d :: s) = (true, s).
Proof. done. Qed.

Lemma read_signed_pretty w n rest : n ∈i w → stops rest → read_signed w (chars (pretty n) ++ rest) = Some (n, rest).
Proof.
  intros Hn Hr. unfold read_signed. destruct (decide (0 ≤ n)) as [H0|H0].
  - replace (pretty n) with (pretty (Z.to_N n)) by (destruct n; [done..|lia]).
    destruct (printed_number (Z.to_N n) rest Hr) as (-> & -> & [d ->] & ->). cbn [mbind option_bind].
    rewrite Z2N.id, (proj2 (Z.leb_le _ _)), (proj2 (Z.ltb_lt _ _)) by lia. done.
  - replace (pretty n) with ("-" +:+ pretty (Z.to_N (- n))) by (destruct n; [lia..|done]). rewrite chars_app, <-app_assoc.
    change (chars "-" ++ ?t) with (Init.Byte.x2d :: t).
    destruct (skip_minus (chars (pretty (Z.to_N (- n))) ++ rest)) as [-> ->].
    destruct (printed_number (Z.to_N (- n)) rest Hr) as (_ & _ & [d ->] & ->). cbn [mbind option_bind].
    rewrite Z2N.id, (proj2 (Z.leb_le _ _)), (proj2 (Z.ltb_lt _ _)) by lia. by rewrite Z.opp_involutive.
Qed.

Lemma stoi_pretty n : n ∈i 32 → stoi (chars (pretty n)) = Some n.
Proof. intros Hn. unfold stoi. rewrite <-(app_nil_r (chars _)), read_signed_pretty by done. done. Qed.

(** ** Doubles that are exact

    Rounding does nothing to a mantissa whose bits beyond the 53 first are zero. *)
Lemma digits_bounds p : 2 ^ (Zpos (digits2_pos p) - 1) ≤ Zpos p < 2 ^ Zpos (digits2_pos p).
Proof.
  induction p as [p IH|p IH|]; cbn [digits2_pos]; [| |done];
    rewrite Pos2Z.inj_succ, Z.pow_succ_r by lia; (replace (Z.succ _ - 1) with (Z.succ (Zpos (digits2_pos p) - 1)) by lia);
    rewrite Z.pow_succ_r by lia; lia.
Qed.

Lemma digits_unique m k : 0 < k → 2 ^ (k - 1) ≤ m < 2 ^ k → Zdigits2 m = k.
Proof.
  intros Hk Hm. destruct m as [|p|p]; [pose proof (Z.pow_pos_nonneg 2 (k - 1)); lia| |pose proof (Z.pow_pos_nonneg 2 (k - 1)); lia].
  cbn [Zdigits2]. pose proof (digits_bounds p) as [H1 H2]. set (d := Zpos (digits2_pos p)) in *.
  assert (d - 1 < k) by (apply (Z.pow_lt_mono_r_iff 2); lia). assert (k - 1 < d) by (apply (Z.pow_lt_mono_r_iff 2); lia). lia.
Qed.

Lemma digits_pos m : 0 < m → 0 < Zdigits2 m ∧ 2 ^ (Zdigits2 m - 1) ≤ m < 2 ^ Zdigits2 m.
Proof. destruct m as [|p|p]; [lia| |lia]. intros _. split; [done|]. apply digits_bounds. Qed.

Lemma digits_shift m k : 0 < m → 0 ≤ k → Zdigits2 (m * 2 ^ k) = Zdigits2 m + k.
Proof.
  intros Hm Hk. destruct (digits_pos m Hm) as [Hd Hb]. apply digits_unique; [lia|].
  replace (Zdigits2 m + k - 1) with (Zdigits2 m - 1 + k) by lia. rewrite !Z.pow_add_r by lia. pose proof (Z.pow_pos_nonneg 2 k). nia.
Qed.

Lemma shr_1_even a : 0 < a → shr_1 (Build_shr_record (2 * a) false false) = Build_shr_record a false false.
Proof. by destruct a. Qed.

Lemma iter_shr p : ∀ a, 0 < a → SpecFloat.iter_pos shr_1 p (Build_shr_record (a * 2 ^ Zpos p) false false) = Build_shr_record a false false.
Proof.
  induction p as [p IH|p IH|]; intros a Ha; cbn [SpecFloat.iter_pos].
  - assert (0 < a * 2 ^ Zpos p) as H0 by (pose proof (Z.pow_pos_nonneg 2 (Zpos p)); nia).
    replace (a * 2 ^ Zpos p~1) with (2 * (a * 2 ^ Zpos p * 2 ^ Zpos p))
      by (replace (Zpos p~1) with (1 + Zpos p + Zpos p) by lia; rewrite !Z.pow_add_r by lia; lia).
    rewrite shr_1_even by (pose proof (Z.pow_pos_nonneg 2 (Zpos p)); nia). by rewrite IH, IH.
  - assert (0 < a * 2 ^ Zpos p) as H0 by (pose proof (Z.pow_pos_nonneg 2 (Zpos p)); nia).
    replace (a * 2 ^ Zpos p~0) with (a * 2 ^ Zpos p * 2 ^ Zpos p)
      by (replace (Zpos p~0) with (Zpos p + Zpos p) by lia; rewrite !Z.pow_add_r by lia; lia). by rewrite IH, IH.
  - replace (a * 2 ^ 1) with (2 * a) by lia. by apply shr_1_even.
Qed.

Lemma shr_exact a k e : 0 < a → 0 ≤ k → shr (Build_shr_record (a * 2 ^ k) false false) e k = (Build_shr_record a false false, e + k).
Proof.
  intros Ha Hk. destruct k as [|p|p]; [|cbn [shr]; by rewrite iter_shr|lia]. cbn [shr]. by rewrite Z.mul_1_r, Z.add_0_r.
Qed.

Lemma round_exact s a k e : 2 ^ 52 ≤ a < 2 ^ 53 → 0 ≤ k → -1074 ≤ e + k ≤ 971 →
  binary_round_aux 53 1024 s (a * 2 ^ k) e loc_Exact = S754_finite s (Z.to_pos a) (e + k).
Proof.
  intros Ha Hk He. unfold binary_round_aux, shr_fexp.
  assert (Zdigits2 a = 53) as Hd by (apply digits_unique; lia).
  rewrite digits_shift, Hd by lia. unfold fexp, emin. replace (Z.max _ _ - e) with k by lia. cbn [shr_record_of_loc].
  rewrite shr_exact by lia. cbn [shr_m loc_of_shr_record round_nearest_even]. rewrite Hd.
  replace (Z.max _ _ - (e + k)) with 0 by lia. cbn [shr shr_record_of_loc shr_m].
  destruct a as [|p|p]; [lia| |lia]. by rewrite (proj2 (Z.leb_le _ _)) by lia.
Qed.

(** The double [n / 2 ^ j]. *)
Definition exact (n j : Z) : double := S754_finite false (Z.to_pos (n * 2 ^ (53 - Zdigits2 n))) (Zdigits2 n - 53 - j).

Lemma exact_range n : 0 < n < 2 ^ 53 → 0 < Zdigits2 n ≤ 53 ∧ 2 ^ 52 ≤ n * 2 ^ (53 - Zdigits2 n) < 2 ^ 53.
Proof.
  intros Hn. destruct (digits_pos n ltac:(lia)) as [Hd Hb]. assert (Zdigits2 n - 1 < 53) by (apply (Z.pow_lt_mono_r_iff 2); lia).
  split; [lia|]. replace (2 ^ 52) with (2 ^ (Zdigits2 n - 1) * 2 ^ (53 - Zdigits2 n)) by (rewrite <-Z.pow_add_r by lia; f_equal; lia).
  replace (2 ^ 53) with (2 ^ Zdigits2 n * 2 ^ (53 - Zdigits2 n)) by (rewrite <-Z.pow_add_r by lia; f_equal; lia).
  pose proof (Z.pow_pos_nonneg 2 (53 - Zdigits2 n)). nia.
Qed.

(** The double nearest to [m / 10 ^ k]. *)
Definition nearest (m : Z) (k : nat) : double :=
  match k, m, 10 ^ Z.of_nat k with
  | O, _, _ => binary_normalize 53 1024 m 0 false
  | _, Zpos m, Zpos d => SFdiv 53 1024 (S754_finite false m 0) (S754_finite false d 0)
  | _, _, _ => S754_zero false
  end.

(** Division with the quotient [n / 4]. *)
Lemma div_exact n m d : 0 < n < 2 ^ 48 → 4 * Zpos m = n * Zpos d →
  SFdiv 53 1024 (S754_finite false m 0) (S754_finite false d 0) = exact n 2.
Proof.
  intros Hn Hmd. unfold SFdiv, SFdiv_core_binary.
  destruct (digits_pos (Zpos m) ltac:(lia)) as [Hdm Hbm]. destruct (digits_pos (Zpos d) ltac:(lia)) as [Hdd Hbd].
  destruct (exact_range n ltac:(lia)) as [Hdn Ha]. destruct (digits_pos n ltac:(lia)) as [_ Hbn].
  set (dm := Zdigits2 (Zpos m)) in *. set (dd := Zdigits2 (Zpos d)) in *. set (dn := Zdigits2 n) in *.
  assert (2 ^ (dn - 1 + (dd - 1)) ≤ n * Zpos d < 2 ^ (dn + dd)) as Hnd
    by (rewrite !Z.pow_add_r by lia; pose proof (Z.pow_pos_nonneg 2 (dn - 1)); pose proof (Z.pow_pos_nonneg 2 (dd - 1)); nia).
  assert (dm - 1 + 2 < dn + dd) by (apply (Z.pow_lt_mono_r_iff 2); [lia..|]; rewrite (Z.pow_add_r 2 (dm - 1)) by lia; lia).
  assert (dn - 1 + (dd - 1) < dm + 2) by (apply (Z.pow_lt_mono_r_iff 2); [lia..|]; rewrite (Z.pow_add_r 2 dm) by lia; lia).
  assert (dn - 1 < 48) by (apply (Z.pow_lt_mono_r_iff 2); lia).
  unfold fexp at 1 2 3, emin.
  replace (Z.min _ (0 - 0)) with (dm - dd - 53) by lia. replace (0 - 0 - (dm - dd - 53)) with (53 - (dm - dd)) by lia.
  set (s := 53 - (dm - dd)). assert (1 < s) by lia.
  assert (match s with Zpos _ => Z.shiftl (Zpos m) s | Z0 => Zpos m | Zneg _ => 0 end = (n * 2 ^ (s - 2)) * Zpos d) as ->.
  { assert (Z.shiftl (Zpos m) s = n * 2 ^ (s - 2) * Zpos d) as E.
    { rewrite Z.shiftl_mul_pow2 by lia. replace (2 ^ s) with (4 * 2 ^ (s - 2)) by (change 4 with (2 ^ 2); rewrite <-Z.pow_add_r by lia; f_equal; lia). lia. }
    rewrite <-E. destruct s; [lia|done|lia]. }
  assert (Z.div_eucl (n * 2 ^ (s - 2) * Zpos d) (Zpos d) = (n * 2 ^ (s - 2), 0)) as ->.
  { pose proof (Z.div_mul (n * 2 ^ (s - 2)) (Zpos d) ltac:(lia)) as Hq. pose proof (Z.mod_mul (n * 2 ^ (s - 2)) (Zpos d) ltac:(lia)) as Hr.
    unfold Z.div, Z.modulo in Hq, Hr. destruct (Z.div_eucl _ _). congruence. }
  assert (new_location (Zpos d) 0 = loc_Exact) as -> by (unfold new_location, new_location_even, new_location_odd; by destruct (Z.even _)).
  cbn [xorb].
  replace (n * 2 ^ (s - 2)) with (n * 2 ^ (53 - dn) * 2 ^ (s - 2 - (53 - dn))) by (rewrite <-Z.mul_assoc, <-Z.pow_add_r by lia; do 2 f_equal; lia).
  rewrite round_exact by lia. unfold exact. fold dn. f_equal. lia.
Qed.

Lemma iter_double p : ∀ i, Zpos (Pos.iter xO p i) = Zpos p * 2 ^ Zpos i.
Proof.
  induction i as [|i IH] using Pos.peano_ind; [cbn; lia|].
  rewrite Pos.iter_succ, Pos2Z.inj_succ, Z.pow_succ_r by lia. lia.
Qed.

(** A whole number. *)
Lemma whole_exact n : 0 < n < 2 ^ 48 → binary_normalize 53 1024 n 0 false = exact (4 * n) 2.
Proof.
  intros Hn. destruct (exact_range n ltac:(lia)) as [Hdn Ha]. destruct (digits_pos n ltac:(lia)) as [_ Hbn].
  assert (Zdigits2 n - 1 < 48) by (apply (Z.pow_lt_mono_r_iff 2); lia).
  pose proof (digits_shift n 2 ltac:(lia) ltac:(lia)) as Hd4. replace (n * 2 ^ 2) with (4 * n) in Hd4 by lia.
  unfold exact. rewrite Hd4. replace (4 * n * 2 ^ (53 - (Zdigits2 n + 2))) with (n * 2 ^ (53 - Zdigits2 n)); cycle 1.
  { replace (53 - Zdigits2 n) with (2 + (53 - (Zdigits2 n + 2))) by lia. rewrite Z.pow_add_r by lia. lia. }
  destruct n as [|p|p]; [lia| |lia]. unfold binary_normalize, binary_round, shl_align.
  change (Zpos (digits2_pos p)) with (Zdigits2 (Zpos p)). set (d := Zdigits2 (Zpos p)) in *.
  unfold fexp, emin. replace (Z.max _ _ - 0) with (d - 53) by lia.
  destruct (decide (d = 53)) as [E|E]; [rewrite E in Hbn; lia|]. destruct (d - 53) as [|q|q] eqn:Eq; [lia|lia|].
  replace (Z.max _ _) with (Zneg q) by lia.
  rewrite iter_double. replace (Zpos q) with (53 - d) by lia.
  pose proof (round_exact false (Zpos p * 2 ^ (53 - d)) 0 (Zneg q) ltac:(lia) ltac:(lia) ltac:(lia)) as R.
  rewrite Z.mul_1_r in R. rewrite R. f_equal. lia.
Qed.

Lemma mul_e9_exact n : 0 < n < 2 ^ 23 → double_mul (exact n 2) one_e9 = exact (n * 1000000000) 2.
Proof.
  intros Hn. unfold double_mul, exact at 1, one_e9, SFmul. cbn [xorb].
  destruct (exact_range n ltac:(lia)) as [Hdn Ha]. destruct (exact_range (n * 1000000000) ltac:(lia)) as [Hdm Hm].
  destruct (digits_pos n ltac:(lia)) as [_ Hbn]. destruct (digits_pos (n * 1000000000) ltac:(lia)) as [_ Hbm].
  set (dn := Zdigits2 n) in *. set (dm := Zdigits2 (n * 1000000000)) in *.
  assert (dm - 1 < dn + 30) by (apply (Z.pow_lt_mono_r_iff 2); [lia..|]; rewrite Z.pow_add_r by lia; lia).
  assert (dn - 1 < dm) by (apply (Z.pow_lt_mono_r_iff 2); lia).
  rewrite Pos2Z.inj_mul, Z2Pos.id by lia.
  replace (n * 2 ^ (53 - dn) * _) with (n * 1000000000 * 2 ^ (53 - dm) * 2 ^ (23 + dm - dn)).
  2:{ rewrite <-Z.mul_assoc, <-Z.pow_add_r by lia. replace (53 - dm + (23 + dm - dn)) with (53 - dn + 23) by lia. rewrite Z.pow_add_r by lia. 
      change (Zpos (1000000000 * 2 ^ 23)) with (1000000000 * 2 ^ 23). lia. }
  rewrite round_exact by lia. unfold exact. fold dm. f_equal. lia.
Qed.

Lemma to_int64_exact n : 0 < n < 2 ^ 51 → to_int64 (exact (4 * n) 2) = Some n.
Proof.
  intros Hn. destruct (exact_range (4 * n) ltac:(lia)) as [Hd Ha]. unfold to_int64, exact. set (d := Zdigits2 (4 * n)) in *.
  rewrite (proj2 (Z.leb_gt 0 (d - 53 - 2))) by lia. rewrite Z2Pos.id by lia.
  assert (Z.quot (4 * n * 2 ^ (53 - d)) (2 ^ (- (d - 53 - 2))) = n) as ->.
  { replace (- (d - 53 - 2)) with (2 + (53 - d)) by lia. rewrite Z.pow_add_r by lia. replace (4 * n * 2 ^ (53 - d)) with (n * (2 ^ 2 * 2 ^ (53 - d))) by lia.
    apply Z.quot_mul. pose proof (Z.pow_pos_nonneg 2 (53 - d)). lia. }
  by rewrite (proj2 (Z.leb_le _ _)), (proj2 (Z.ltb_lt _ _)) by lia.
Qed.

(** A price on the grid of quarters survives the way to a [Price], however many
    decimals it is written with. *)
Lemma quarters_exact n m k : 0 ≤ n < 2 ^ 23 → 4 * m = n * 10 ^ Z.of_nat k → to_int64 (double_mul (nearest m k) one_e9) = Some (n * 250000000).
Proof.
  intros Hn Hm. pose proof (Z.pow_pos_nonneg 10 (Z.of_nat k) ltac:(lia) ltac:(lia)) as Hk.
  destruct (decide (n = 0)) as [->|H0].
  - assert (m = 0) as -> by lia. by destruct k.
  - replace (nearest m k) with (exact n 2).
    + rewrite mul_e9_exact by lia. replace (n * 1000000000) with (4 * (n * 250000000)) by lia. apply to_int64_exact. lia.
    + unfold nearest. destruct k as [|k]; [change (10 ^ Z.of_nat 0) with 1 in Hm; rewrite whole_exact by lia; f_equal; lia|].
      destruct m as [|m|m]; [lia| |lia]. destruct (10 ^ _) as [|d|d] eqn:E; [lia| |lia]. symmetry. apply div_exact; lia.
Qed.
