(* ===== verification/InstrumentManager.v ===== *)
(** * Instrument manager (src/instruments/instrument_manager.h and .cpp,
    src/instruments/channel.h, configuration records of
    src/config/exchange_config.h)

    The registry of instruments and channels built from the configuration. The
    vectors are lists and the hash maps from keys to positions are finite maps;
    indexing a vector out of range is [None]. *)
From S2P Require Import Prelude Types Instrument.

Record FeedConfig := mkFeed { address_a : string; port_a : Z; address_b : string; port_b : Z }.

Record ChannelConfig := mkChannelConfig {
  cc_channel_id : Z;
  cc_name : string;
  cc_incremental_feed : FeedConfig;
  cc_snapshot_feed : FeedConfig;
  cc_instrument_def_feed : FeedConfig;
  cc_symbols : list string;
}.

Record InstrumentConfig := mkInstrumentConfig {
  ic_symbol : string;
  ic_security_id : Z;
  ic_channel_id : Z;
  ic_tick_size : double;
  ic_contract_multiplier : double;
  ic_min_price_increment_amount : double;
  ic_min_trade_vol : Z;
  ic_max_trade_vol : Z;
  ic_maturity_month_year : string;
  ic_display_factor : double;
}.

Record Channel := mkChannel {
  ch_channel_id : Z;
  ch_name : string;
  ch_security_ids : list SecurityId;
  ch_incremental_feed : FeedConfig;
  ch_snapshot_feed : FeedConfig;
  ch_instrument_def_feed : FeedConfig;
}.

Record InstrumentManager := mkInstrumentManager {
  instruments_ : list Instrument;
  by_security_id_ : gmap SecurityId nat;
  by_symbol_ : gmap string nat;
  channels_ : list Channel;
  channels_by_id_ : gmap Z nat;
}.

Module InstrumentManagerOps.

(** ** Security groups *)
Definition isdigit (c : Ascii.ascii) : bool := (48 <=? Ascii.nat_of_ascii c)%nat && (Ascii.nat_of_ascii c <=? 57)%nat.
Definition isalpha (c : Ascii.ascii) : bool :=
  ((65 <=? Ascii.nat_of_ascii c)%nat && (Ascii.nat_of_ascii c <=? 90)%nat) ||
  ((97 <=? Ascii.nat_of_ascii c)%nat && (Ascii.nat_of_ascii c <=? 122)%nat).

(** [symbol[pos - 1]] satisfies the test, for [pos > 0]. *)
Definition char_before (test : Ascii.ascii → bool) (symbol : list Ascii.ascii) (pos : nat) : bool :=
  match pos with O => false | S k => match symbol !! k with Some c => test c | None => false end end.

Fixpoint skip_digits (symbol : list Ascii.ascii) (pos : nat) : nat :=
  match pos with
  | O => O
  | S k => if char_before isdigit symbol pos then skip_digits symbol k else pos
  end.

Definition deriveSecurityGroup (symbol : string) : string :=
  let l := String.list_ascii_of_string symbol in
  if bool_decide (l = []) then EmptyString else
  let pos := skip_digits l (length l) in
  let pos := if char_before isalpha l pos then (pos - 1)%nat else pos in
  if (pos =? 0)%nat then symbol else String.string_of_list_ascii (take pos l).

(** ** Loading *)
Definition make_channel (cc : ChannelConfig) : Channel :=
  mkChannel (cc_channel_id cc) (cc_name cc) [] (cc_incremental_feed cc) (cc_snapshot_feed cc) (cc_instrument_def_feed cc).

Definition make_instrument (ic : InstrumentConfig) : Instrument :=
  let group := deriveSecurityGroup (ic_symbol ic) in
  mkInstrument (ic_security_id ic) (ic_symbol ic) group group (ic_channel_id ic) (ic_tick_size ic)
    (ic_contract_multiplier ic) (ic_min_price_increment_amount ic) (ic_display_factor ic)
    (ic_min_trade_vol ic) (ic_max_trade_vol ic) (ic_maturity_month_year ic) "Qty" PreOpen.

Definition load_channel (m : InstrumentManager) (cc : ChannelConfig) : InstrumentManager :=
  mkInstrumentManager (instruments_ m) (by_security_id_ m) (by_symbol_ m) (channels_ m ++ [make_channel cc])
    (<[cc_channel_id cc := length (channels_ m)]> (channels_by_id_ m)).

Definition push_security (id : SecurityId) (c : Channel) : Channel :=
  mkChannel (ch_channel_id c) (ch_name c) (ch_security_ids c ++ [id]) (ch_incremental_feed c) (ch_snapshot_feed c)
    (ch_instrument_def_feed c).

Definition load_instrument (m : InstrumentManager) (ic : InstrumentConfig) : option InstrumentManager :=
  let inst := make_instrument ic in
  let idx := length (instruments_ m) in
  channels ← match channels_by_id_ m !! ic_channel_id ic with
    | Some k => c ← channels_ m !! k; Some (<[k := push_security (in_security_id inst) c]> (channels_ m))
    | None => Some (channels_ m)
    end;
  Some (mkInstrumentManager (instruments_ m ++ [inst]) (<[in_security_id inst := idx]> (by_security_id_ m))
    (<[in_symbol inst := idx]> (by_symbol_ m)) channels (channels_by_id_ m)).

Definition InstrumentManager_init : InstrumentManager := mkInstrumentManager [] ∅ ∅ [] ∅.

Fixpoint load_instruments (m : InstrumentManager) (ics : list InstrumentConfig) : option InstrumentManager :=
  match ics with
  | [] => Some m
  | ic :: ics => m ← load_instrument m ic; load_instruments m ics
  end.

(** The old contents are cleared first. *)
Definition loadFromConfig (m : InstrumentManager) (ics : list InstrumentConfig) (ccs : list ChannelConfig)
    : option InstrumentManager :=
  load_instruments (foldl load_channel InstrumentManager_init ccs) ics.

(** ** Lookups: the inner option is the returned pointer *)
Definition findBySecurityId (m : InstrumentManager) (id : SecurityId) : option (option Instrument) :=
  match by_security_id_ m !! id with
  | None => Some None
  | Some k => i ← instruments_ m !! k; Some (Some i)
  end.

Definition findBySymbol (m : InstrumentManager) (symbol : string) : option (option Instrument) :=
  match by_symbol_ m !! symbol with
  | None => Some None
  | Some k => i ← instruments_ m !! k; Some (Some i)
  end.

Definition getInstrumentsByChannel (m : InstrumentManager) (channel_id : Z) : list Instrument :=
  filter (λ i, in_channel_id i = channel_id) (instruments_ m).

Definition findChannel (m : InstrumentManager) (channel_id : Z) : option (option Channel) :=
  match channels_by_id_ m !! channel_id with
  | None => Some None
  | Some k => c ← channels_ m !! k; Some (Some c)
  end.

Definition setTradingStatus (m : InstrumentManager) (id : SecurityId) (status : SecurityTradingStatus)
    : option InstrumentManager :=
  match by_security_id_ m !! id with
  | None => Some m
  | Some k =>
      i ← instruments_ m !! k;
      Some (mkInstrumentManager (<[k := set_trading_status status i]> (instruments_ m)) (by_security_id_ m)
        (by_symbol_ m) (channels_ m) (channels_by_id_ m))
  end.

End InstrumentManagerOps.
Import InstrumentManagerOps.

(** ** What a loaded registry contains *)

(** A map from keys to the last position where they occur. *)
Definition indexes {K} `{Countable K} (ks : list K) (ix : gmap K nat) : Prop :=
  ∀ k n, ix !! k = Some n ↔ ks !! n = Some k ∧ ∀ j, ks !! j = Some k → (j ≤ n)%nat.

Lemma indexes_nil {K} `{Countable K} : indexes (K := K) [] ∅.
Proof. intros k n. rewrite lookup_empty, lookup_nil. naive_solver. Qed.

Lemma indexes_snoc {K} `{Countable K} ks ix (k : K) : indexes ks ix → indexes (ks ++ [k]) (<[k := length ks]> ix).
Proof.
  intros Hix k' n. destruct (decide (k = k')) as [<- |Hne].
  - rewrite lookup_insert_eq. split.
    + intros [= <-]. split; [by rewrite lookup_app_r, Nat.sub_diag by done |].
      intros j Hj%lookup_lt_Some. rewrite length_app in Hj. simpl in Hj. lia.
    + intros [Hn Hj]. f_equal. apply lookup_lt_Some in Hn. rewrite length_app in Hn. simpl in Hn.
      specialize (Hj (length ks)). rewrite lookup_app_r, Nat.sub_diag in Hj by done. specialize (Hj eq_refl). lia.
  - rewrite lookup_insert_ne by done. rewrite (Hix k' n).
    assert (∀ j, (ks ++ [k]) !! j = Some k' ↔ ks !! j = Some k') as Hj.
    { intros j. rewrite lookup_snoc_Some. split; [naive_solver |]. intros Hj. left. split; [by apply lookup_lt_Some in Hj | done]. }
    by setoid_rewrite Hj.
Qed.

Lemma indexes_absent {K} `{Countable K} ks ix (k : K) : indexes ks ix → (k ∉ ks) → ix !! k = None.
Proof.
  intros Hix Hk. destruct (ix !! k) as [n|] eqn:E; [| done].
  apply Hix in E as [E _]. exfalso. apply Hk. by apply list_elem_of_lookup_2 in E.
Qed.

Lemma indexes_unique {K} `{Countable K} ks ix (k : K) n : indexes ks ix → NoDup ks → ks !! n = Some k → ix !! k = Some n.
Proof.
  intros Hix Hnd Hn. apply Hix. split; [done |]. intros j Hj.
  by rewrite (NoDup_lookup ks j n k Hnd Hj Hn).
Qed.

Lemma indexes_present {K} `{Countable K} ks ix (k : K) : indexes ks ix → k ∈ ks → ∃ n, ix !! k = Some n.
Proof.
  intros Hix Hk. assert (∃ n, ks !! n = Some k ∧ ∀ j, ks !! j = Some k → (j ≤ n)%nat) as (n & Hn).
  { clear Hix. induction ks as [|x ks IH] using rev_ind; [by apply elem_of_nil in Hk |].
    destruct (decide (x = k)) as [-> |Hne].
    - exists (length ks). rewrite lookup_app_r, Nat.sub_diag by done. split; [done |].
      intros j Hj%lookup_lt_Some. rewrite length_app in Hj. simpl in Hj. lia.
    - destruct IH as (n & Hn & Hj); [set_solver |]. exists n. split; [by apply lookup_app_l_Some |].
      intros j [?|[? [_ ?]%list_lookup_singleton_Some]]%lookup_app_Some; [by apply Hj | done]. }
  exists n. by apply Hix.
Qed.

(** The identifiers of the instruments configured for a channel. *)
Definition channel_ids (cid : Z) (ics : list InstrumentConfig) : list SecurityId :=
  ic_security_id <$> filter (λ ic, ic_channel_id ic = cid) ics.

(** A registry loaded from the given configurations. *)
Record loaded (m : InstrumentManager) (ics : list InstrumentConfig) (ccs : list ChannelConfig) : Prop := {
  ld_instruments : instruments_ m = make_instrument <$> ics;
  ld_security : indexes (in_security_id <$> instruments_ m) (by_security_id_ m);
  ld_symbol : indexes (in_symbol <$> instruments_ m) (by_symbol_ m);
  ld_channel : indexes (ch_channel_id <$> channels_ m) (channels_by_id_ m);
  ld_channels : ch_channel_id <$> channels_ m = cc_channel_id <$> ccs;
  ld_ids : ∀ cid k c, channels_by_id_ m !! cid = Some k → channels_ m !! k = Some c →
    ch_security_ids c = channel_ids cid ics;
}.

Lemma load_channel_ok m ccs cc : loaded m [] ccs → loaded (load_channel m cc) [] (ccs ++ [cc]).
Proof.
  intros [H1 H2 H3 H4 H5 H6]. split; cbn; try done.
  - rewrite fmap_app. cbn. rewrite <-(length_fmap ch_channel_id). by apply indexes_snoc.
  - by rewrite !fmap_app, H5.
  - intros cid k c [[<- <-]|[Hne Hk]]%lookup_insert_Some.
    + rewrite lookup_app_r, Nat.sub_diag by done. by intros [= <-].
    + intros [Hc|[Hle Hc]]%lookup_app_Some; [by eapply H6 |].
      apply list_lookup_singleton_Some in Hc as [_ <-]. done.
Qed.

Lemma load_channels_ok ccs : loaded (foldl load_channel InstrumentManager_init ccs) [] ccs.
Proof.
  induction ccs as [|cc ccs IH] using rev_ind; [by split; try apply indexes_nil |].
  rewrite foldl_app. by apply load_channel_ok.
Qed.

Lemma channel_ids_snoc cid ics ic :
  channel_ids cid (ics ++ [ic]) = channel_ids cid ics ++ (if decide (ic_channel_id ic = cid) then [ic_security_id ic] else []).
Proof. unfold channel_ids. rewrite filter_app, fmap_app, filter_cons, filter_nil. by case_decide. Qed.

Lemma load_instrument_ok m ics ccs ic : loaded m ics ccs →
  ∃ m', load_instrument m ic = Some m' ∧ loaded m' (ics ++ [ic]) ccs.
Proof.
  intros [H1 H2 H3 H4 H5 H6]. unfold load_instrument.
  assert (∀ channels, ch_channel_id <$> channels = ch_channel_id <$> channels_ m →
    (∀ cid k c, channels_by_id_ m !! cid = Some k → channels !! k = Some c →
      ch_security_ids c = channel_ids cid (ics ++ [ic])) →
    loaded (mkInstrumentManager (instruments_ m ++ [make_instrument ic])
      (<[ic_security_id ic := length (instruments_ m)]> (by_security_id_ m))
      (<[ic_symbol ic := length (instruments_ m)]> (by_symbol_ m)) channels (channels_by_id_ m)) (ics ++ [ic]) ccs) as Hl.
  { intros channels Hch Hids. split; cbn; try done; try congruence.
    - by rewrite H1, fmap_app.
    - rewrite fmap_app, <-(length_fmap in_security_id). by apply indexes_snoc.
    - rewrite fmap_app, <-(length_fmap in_symbol). by apply indexes_snoc.
    - by rewrite Hch. }
  destruct (channels_by_id_ m !! ic_channel_id ic) as [n|] eqn:En.
  - pose proof En as En'. apply H4 in En' as [En' _]. apply list_lookup_fmap_Some in En' as (c & Hid & Hc).
    rewrite Hc. simpl. eexists. split; [done |]. apply Hl.
    + rewrite list_fmap_insert. apply list_insert_id. by rewrite list_lookup_fmap, Hc.
    + intros cid k c' Hk Hc'. rewrite channel_ids_snoc. destruct (decide (ic_channel_id ic = cid)) as [<- |Hne].
      * simplify_eq. rewrite list_lookup_insert_eq in Hc' by (by apply lookup_lt_Some in Hc). simplify_eq/=.
        f_equal. by eapply H6.
      * rewrite app_nil_r. rewrite list_lookup_insert_ne in Hc'; [by eapply H6 |]. intros ->.
        apply H4 in Hk as [Hk _]. apply H4 in En as [En _]. congruence.
  - simpl. eexists. split; [done |]. apply Hl; [done |].
    intros cid k c Hk Hc. rewrite channel_ids_snoc, decide_False, app_nil_r by congruence. by eapply H6.
Qed.

Lemma load_instruments_ok ics' m ics ccs : loaded m ics ccs →
  ∃ m', load_instruments m ics' = Some m' ∧ loaded m' (ics ++ ics') ccs.
Proof.
  revert m ics. induction ics' as [|ic ics' IH]; intros m ics Hl; simpl; [exists m; by rewrite app_nil_r |].
  destruct (load_instrument_ok m ics ccs ic Hl) as (m1 & -> & Hl1). simpl.
  destruct (IH m1 _ Hl1) as (m2 & E & Hl2). exists m2. by rewrite <-app_assoc in Hl2.
Qed.

Lemma load_ok m0 ics ccs : ∃ m, loadFromConfig m0 ics ccs = Some m ∧ loaded m ics ccs.
Proof. apply (load_instruments_ok ics _ []), load_channels_ok. Qed.

(** ** Lookups *)
Lemma find_loaded {K} `{Countable K} (key : Instrument → K) l ix i n :
  indexes (key <$> l) ix → NoDup (key <$> l) → l !! n = Some i → ix !! key i = Some n.
Proof. intros Hix Hnd Hn. eapply indexes_unique; [done | done |]. by rewrite list_lookup_fmap, Hn. Qed.

Lemma find_security_total m ics ccs id : loaded m ics ccs → ∃ r, findBySecurityId m id = Some r.
Proof.
  intros Hl. unfold findBySecurityId. destruct (by_security_id_ m !! id) as [n|] eqn:E; [| by eexists].
  apply (ld_security _ _ _ Hl) in E as [E _]. apply list_lookup_fmap_Some in E as (i & _ & Hi).
  rewrite Hi. simpl. by eexists.
Qed.

Definition with_status (status : SecurityTradingStatus) (r : option (option Instrument)) : option (option Instrument) :=
  option_map (option_map (set_trading_status status)) r.

Lemma set_status_lookup m ics ccs id status :
  loaded m ics ccs → ∃ m', setTradingStatus m id status = Some m' ∧
    ∀ id', findBySecurityId m' id' =
      (if decide (id' = id) then with_status status (findBySecurityId m id') else findBySecurityId m id').
Proof.
  intros Hl. unfold setTradingStatus. destruct (by_security_id_ m !! id) as [n|] eqn:E.
  - pose proof E as E'. apply (ld_security _ _ _ Hl) in E' as [E' _]. apply list_lookup_fmap_Some in E' as (i & _ & Hi).
    rewrite Hi. simpl. eexists. split; [done |]. intros id'. unfold findBySecurityId. cbn.
    case_decide as Hd.
    + subst id'. rewrite E, Hi. cbn. by rewrite list_lookup_insert_eq by (by apply lookup_lt_Some in Hi).
    + destruct (by_security_id_ m !! id') as [k|] eqn:Ek; [| done].
      rewrite list_lookup_insert_ne; [done |]. intros <-.
      apply (ld_security _ _ _ Hl) in E as [E _]. apply (ld_security _ _ _ Hl) in Ek as [Ek _]. congruence.
  - exists m. split; [done |]. intros id'. case_decide as Hd; [subst id' | done].
    unfold findBySecurityId. by rewrite E.
Qed.

(** The registry serves what was configured. Loading replaces the old
    contents and returns; with distinct identifiers and symbols every configured
    instrument is found under both, unknown identifiers give a null pointer,
    every channel lists the identifiers of its instruments in configuration
    order, and setting a trading status changes that status and nothing else. *)
Theorem instruments_load_lookup m0 ics ccs :
  NoDup (ic_security_id <$> ics) → NoDup (ic_symbol <$> ics) →
  ∃ m, loadFromConfig m0 ics ccs = Some m ∧ instruments_ m = make_instrument <$> ics ∧
    (∀ ic, ic ∈ ics → findBySecurityId m (ic_security_id ic) = Some (Some (make_instrument ic)) ∧
       findBySymbol m (ic_symbol ic) = Some (Some (make_instrument ic))) ∧
    (∀ id, (id ∉ ic_security_id <$> ics) → findBySecurityId m id = Some None) ∧
    (∀ cid, cid ∈ cc_channel_id <$> ccs → ∃ c, findChannel m cid = Some (Some c) ∧
       ch_channel_id c = cid ∧ ch_security_ids c = channel_ids cid ics) ∧
    (∀ id status, ∃ m', setTradingStatus m id status = Some m' ∧
       ∀ id', findBySecurityId m' id' =
         (if decide (id' = id) then with_status status (findBySecurityId m id') else findBySecurityId m id')).
Proof.
  intros Hid Hsym. destruct (load_ok m0 ics ccs) as (m & E & Hl). exists m. split; [done |].
  pose proof Hl as [H1 H2 H3 H4 H5 H6]. split; [done |].
  assert (in_security_id <$> instruments_ m = ic_security_id <$> ics) as Hkid by (rewrite H1, <-list_fmap_compose; done).
  assert (in_symbol <$> instruments_ m = ic_symbol <$> ics) as Hksym by (rewrite H1, <-list_fmap_compose; done).
  repeat split.
  - apply list_elem_of_lookup_1 in H as [n Hn].
    assert (instruments_ m !! n = Some (make_instrument ic)) as Hi by (by rewrite H1, list_lookup_fmap, Hn).
    unfold findBySecurityId. change (ic_security_id ic) with (in_security_id (make_instrument ic)).
    rewrite (find_loaded in_security_id _ _ _ n H2 ltac:(by rewrite Hkid) Hi). by rewrite Hi.
  - apply list_elem_of_lookup_1 in H as [n Hn].
    assert (instruments_ m !! n = Some (make_instrument ic)) as Hi by (by rewrite H1, list_lookup_fmap, Hn).
    unfold findBySymbol. change (ic_symbol ic) with (in_symbol (make_instrument ic)).
    rewrite (find_loaded in_symbol _ _ _ n H3 ltac:(by rewrite Hksym) Hi). by rewrite Hi.
  - intros id Hnin. unfold findBySecurityId. rewrite (indexes_absent _ _ _ H2); [done | by rewrite Hkid].
  - intros cid Hcid. rewrite <-H5 in Hcid. unfold findChannel.
    destruct (indexes_present _ _ _ H4 Hcid) as [k Ek]. rewrite Ek.
    pose proof Ek as Ek'. apply H4 in Ek' as [Ek' _]. apply list_lookup_fmap_Some in Ek' as (c & Hcc & Hc).
    exists c. rewrite Hc. simpl. eauto.
  - intros id status. by eapply set_status_lookup.
Qed.

Definition demo_instrument (symbol : string) (id : Z) : InstrumentConfig :=
  mkInstrumentConfig symbol id 310 quarter quarter quarter 1 100 "202503" quarter.

Lemma instruments_load_lookup_witness :
  ∃ m, loadFromConfig InstrumentManager_init [demo_instrument "ESH5" 1; demo_instrument "NQH5" 2] [] = Some m ∧
    findBySymbol m "NQH5" = Some (Some (make_instrument (demo_instrument "NQH5" 2))).
Proof.
  destruct (instruments_load_lookup InstrumentManager_init [demo_instrument "ESH5" 1; demo_instrument "NQH5" 2] [])
    as (m & E & _ & Hf & _).
  - apply NoDup_cons_2; [| apply NoDup_singleton]. cbn. rewrite list_elem_of_singleton. done.
  - apply NoDup_cons_2; [| apply NoDup_singleton]. cbn. rewrite list_elem_of_singleton. done.
  - exists m. split; [exact E |]. apply (Hf (demo_instrument "NQH5" 2)). right. left.
Defined.

(** ** Security groups *)

Lemma skip_digits_app l ds : Forall (λ c, isdigit c = true) ds →
  skip_digits (l ++ ds) (length l + length ds) = skip_digits (l ++ ds) (length l).
Proof.
  intros Hd. assert (∀ k, (k ≤ length ds)%nat → skip_digits (l ++ ds) (length l + k) = skip_digits (l ++ ds) (length l)) as Hk;
    [| by apply Hk].
  induction k as [|k IH]; intros Hle; [by rewrite Nat.add_0_r |].
  rewrite Nat.add_succ_r. simpl. rewrite lookup_app_r by lia.
  replace (length l + k - length l)%nat with k by lia.
  destruct (lookup_lt_is_Some_2 ds k ltac:(lia)) as [c Hc]. rewrite Hc.
  rewrite (proj1 (Forall_lookup _ _) Hd k c Hc). apply IH. lia.
Qed.

(** The group of a symbol is its root, for every symbol made of a root, one
    month letter and year digits. *)
Lemma security_group_root root month digits :
  root ≠ [] → isalpha month = true → isdigit month = false → Forall (λ c, isdigit c = true) digits →
  deriveSecurityGroup (String.string_of_list_ascii (root ++ month :: digits)) = String.string_of_list_ascii root.
Proof.
  intros Hr Hm Hmd Hd. unfold deriveSecurityGroup. rewrite String.list_ascii_of_string_of_list_ascii.
  rewrite bool_decide_false by (by destruct root).
  replace (root ++ month :: digits) with ((root ++ [month]) ++ digits) by (by rewrite <-app_assoc).
  rewrite length_app, skip_digits_app by done. rewrite length_app, Nat.add_comm. simpl.
  rewrite <-app_assoc. simpl. rewrite lookup_app_r, Nat.sub_diag by lia. simpl. rewrite Hmd. simpl.
  rewrite lookup_app_r, Nat.sub_diag by lia. simpl. rewrite Hm, Nat.sub_0_r.
  destruct (Nat.eqb_spec (length root) 0) as [E|_]; [by apply nil_length_inv in E |].
  by rewrite take_app_length.
Qed.
