(* ===== verification/StatusMachine.v ===== *)
(** * Trading-status machine (src/instruments/security_status_machine.h and .cpp)

    The trading status of every registered instrument, the allowed transitions
    and the events reported to the callback. The clock is a parameter; the
    order in which the bulk operations visit the hash map is an argument. *)
From S2P Require Import Prelude Types.

Record SecurityStatusEvent := mkStatusEvent {
  se_security_id : SecurityId;
  old_status : SecurityTradingStatus;
  new_status : SecurityTradingStatus;
  se_timestamp : Timestamp;
}.

Record StatusMachine := mkStatusMachine {
  states_ : gmap SecurityId SecurityTradingStatus;
  callback_ : bool;
  status_reads : nat;
  status_events : list SecurityStatusEvent;
}.

Module StatusOps.

Definition StatusMachine_init : StatusMachine := mkStatusMachine ∅ false 0 [].

Definition isValidTransition (from to : SecurityTradingStatus) : bool :=
  match from with
  | PreOpen => bool_decide (to = Open)
  | Open => bool_decide (to = Halt) || bool_decide (to = Close)
  | Halt => bool_decide (to = Open) || bool_decide (to = Close)
  | Close => false
  end.

Definition addInstrument (m : StatusMachine) (id : SecurityId) (initial : SecurityTradingStatus) : StatusMachine :=
  mkStatusMachine (<[id := initial]> (states_ m)) (callback_ m) (status_reads m) (status_events m).

Definition getStatus (m : StatusMachine) (id : SecurityId) : SecurityTradingStatus :=
  match states_ m !! id with None => PreOpen | Some s => s end.

Definition setCallback (m : StatusMachine) (cb : bool) : StatusMachine :=
  mkStatusMachine (states_ m) cb (status_reads m) (status_events m).

Section machine.
Context (system : nat → Z).

Definition transition (m : StatusMachine) (id : SecurityId) (new : SecurityTradingStatus) : bool * StatusMachine :=
  match states_ m !! id with
  | None => (false, m)
  | Some old =>
      if decide (old = new) then (true, m) else
      if negb (isValidTransition old new) then (false, m) else
      let states := <[id := new]> (states_ m) in
      (true,
       if callback_ m
       then mkStatusMachine states (callback_ m) (S (status_reads m))
              (status_events m ++ [mkStatusEvent id old new (u64 (system (status_reads m)))])
       else mkStatusMachine states (callback_ m) (status_reads m) (status_events m))
  end.

Definition openMarket (m : StatusMachine) (id : SecurityId) := transition m id Open.
Definition haltTrading (m : StatusMachine) (id : SecurityId) := transition m id Halt.
Definition resumeTrading (m : StatusMachine) (id : SecurityId) := transition m id Open.
Definition closeMarket (m : StatusMachine) (id : SecurityId) := transition m id Close.

(** [order] lists the keys of [states_]. *)
Definition openAll (order : list SecurityId) (m : StatusMachine) : StatusMachine :=
  foldl (λ m id, (transition m id Open).2) m order.
Definition closeAll (order : list SecurityId) (m : StatusMachine) : StatusMachine :=
  foldl (λ m id, (transition m id Close).2) m order.

End machine.
End StatusOps.
Import StatusOps.

(** ** Runs *)
Inductive StatusCmd :=
  | STransition (id : SecurityId) (new : SecurityTradingStatus)
  | SHalt (id : SecurityId)
  | SResume (id : SecurityId)
  | SOpenAll (order : list SecurityId)
  | SCloseAll (order : list SecurityId).

Section runs.
Context (system : nat → Z).

Definition status_cmd (m : StatusMachine) (c : StatusCmd) : StatusMachine :=
  match c with
  | STransition id new => (transition system m id new).2
  | SHalt id => (haltTrading system m id).2
  | SResume id => (resumeTrading system m id).2
  | SOpenAll order => openAll system order m
  | SCloseAll order => closeAll system order m
  end.

(** Replaying an event on the statuses: it must find the status it reports as
    old and be an allowed transition. *)
Definition replay_event (st : option (gmap SecurityId SecurityTradingStatus)) (e : SecurityStatusEvent) :=
  st ← st;
  if decide (st !! se_security_id e = Some (old_status e) ∧ isValidTransition (old_status e) (new_status e) = true)
  then Some (<[se_security_id e := new_status e]> st) else None.

Definition logged (m m' : StatusMachine) : Prop :=
  callback_ m' = callback_ m ∧
  ∃ es, status_events m' = status_events m ++ es ∧ foldl replay_event (Some (states_ m)) es = Some (states_ m').

Lemma logged_refl m : logged m m.
Proof. split; [done |]. exists []. by rewrite app_nil_r. Qed.

Lemma logged_trans m1 m2 m3 : logged m1 m2 → logged m2 m3 → logged m1 m3.
Proof.
  intros (Hc & es & He & Hr) (Hc' & es' & He' & Hr'). split; [congruence |]. exists (es ++ es').
  rewrite He', He, <-app_assoc. split; [done |]. by rewrite foldl_app, Hr.
Qed.

Lemma transition_logged m id new : callback_ m = true → logged m (transition system m id new).2.
Proof.
  intros Hc. unfold transition. destruct (states_ m !! id) as [old|] eqn:E; [| apply logged_refl].
  case_decide; [apply logged_refl |]. destruct (isValidTransition old new) eqn:Ev; [| apply logged_refl]. cbn.
  rewrite Hc. split; [done |]. eexists. split; [done |]. cbn. by rewrite decide_True.
Qed.

Lemma fold_logged order new m : callback_ m = true → logged m (foldl (λ m id, (transition system m id new).2) m order).
Proof.
  revert m. induction order as [|id order IH]; intros m Hc; [apply logged_refl |]. simpl.
  pose proof (transition_logged m id new Hc) as Ht. eapply logged_trans; [done |]. apply IH. by rewrite (proj1 Ht).
Qed.

Lemma status_cmd_logged m c : callback_ m = true → logged m (status_cmd m c).
Proof. intros Hc. destruct c; first [by apply transition_logged | by apply fold_logged]. Qed.

Lemma cmds_logged cs m : callback_ m = true → logged m (foldl status_cmd m cs).
Proof.
  revert m. induction cs as [|c cs IH]; intros m Hc; [apply logged_refl |]. simpl.
  pose proof (status_cmd_logged m c Hc) as Ht. eapply logged_trans; [done |]. apply IH. by rewrite (proj1 Ht).
Qed.

(** A closed instrument stays closed in every replay. *)
Lemma replay_closed es st st' id :
  foldl replay_event (Some st) es = Some st' → st !! id = Some Close → st' !! id = Some Close.
Proof.
  revert st. induction es as [|e es IH]; intros st H Hid; simpl in H; [by simplify_eq |].
  case_decide as Hd; [| exfalso; clear -H; induction es; simpl in H; [done | auto]].
  apply (IH _ H). destruct Hd as [Ho Hv]. destruct (decide (se_security_id e = id)) as [<- |Hne].
  - rewrite Hid in Ho. injection Ho as Ho. by rewrite <-Ho in Hv.
  - by rewrite lookup_insert_ne.
Qed.


End runs.

