(* ===== verification/Validator.v ===== *)
(** * Message validation (src/gateway/message_validator.h and .cpp)

    The checks the gateway makes on decoded messages before they are queued.
    The validator reads the instrument registry; [None] is undefined behaviour
    (an index outside the instrument vector, a tick size that does not fit the
    integer it is cast to). *)
From S2P Require Import Prelude Types Order Instrument InstrumentManager.
Import InstrumentOps InstrumentManagerOps.

Record ValidationResult := mkValidationResult {
  valid : bool;
  vr_reason : string;
  reject_reason : Z;
}.

Module ValidatorOps.

Definition ValidationResult_init : ValidationResult := mkValidationResult true EmptyString 0.
Definition invalid (reason : string) (code : Z) : ValidationResult := mkValidationResult false reason code.

Definition isValidInstrument (m : InstrumentManager) (id : SecurityId) : option bool :=
  r ← findBySecurityId m id; Some (match r with Some _ => true | None => false end).

Definition isValidPrice (m : InstrumentManager) (id : SecurityId) (price : Price) : option bool :=
  instr ← findBySecurityId m id;
  match instr with
  | None => Some false
  | Some instr => isValidTick instr price
  end.

Definition isValidQuantity (m : InstrumentManager) (id : SecurityId) (qty : Quantity) : option bool :=
  if qty <=? 0 then Some false else
  instr ← findBySecurityId m id;
  match instr with
  | None => Some false
  | Some instr => Some ((min_trade_vol instr <=? qty) && (qty <=? max_trade_vol instr))
  end.

Definition isValidOrderType (type : OrderType) : bool :=
  match type with
  | Market | Limit | StopLimit | StopMarket => true
  | OrderType_raw _ => false
  end.

Definition isValidTimeInForce (tif : TimeInForce) (type : OrderType) : bool :=
  match tif with
  | Day | GTC | GTD => true
  | IOC | FOK => bool_decide (type = Limit) || bool_decide (type = Market)
  | TimeInForce_raw _ => false
  end.

Definition validateNewOrder (m : InstrumentManager) (order : Order) : option ValidationResult :=
  ok ← isValidInstrument m (security_id order);
  if negb ok then Some (invalid "Unknown instrument" 2) else
  instr ← findBySecurityId m (security_id order);
  instr ← instr;
  if negb (bool_decide (trading_status instr = Open)) && negb (bool_decide (trading_status instr = PreOpen))
  then Some (invalid "Instrument not available for trading" 16) else
  if negb (isValidOrderType (order_type order)) then Some (invalid "Unsupported order type" 11) else
  if negb (isValidTimeInForce (time_in_force order) (order_type order))
  then Some (invalid "Invalid TimeInForce for order type" 11) else
  price_ok ← (if bool_decide (order_type order = Limit) || bool_decide (order_type order = StopLimit)
              then isValidPrice m (security_id order) (price order) else Some true);
  if negb price_ok then Some (invalid "Price not on valid tick" 15) else
  qty_ok ← isValidQuantity m (security_id order) (quantity order);
  if negb qty_ok then Some (invalid "Quantity outside allowed range" 13) else
  Some ValidationResult_init.

Definition validateCancel (m : InstrumentManager) (order_id : OrderId) (security_id : SecurityId)
    : option ValidationResult :=
  if order_id =? 0 then Some (invalid "OrderId required for cancel" 99) else
  ok ← isValidInstrument m security_id;
  if negb ok then Some (invalid "Unknown instrument" 2) else
  Some ValidationResult_init.

Definition validateModify (m : InstrumentManager) (order_id : OrderId) (security_id : SecurityId)
    (new_price : Price) (new_qty : Quantity) : option ValidationResult :=
  if order_id =? 0 then Some (invalid "OrderId required for modify" 99) else
  ok ← isValidInstrument m security_id;
  if negb ok then Some (invalid "Unknown instrument" 2) else
  price_ok ← (if negb (Price_isNull new_price) then isValidPrice m security_id new_price else Some true);
  if negb price_ok then Some (invalid "New price not on valid tick" 15) else
  qty_ok ← (if 0 <? new_qty then isValidQuantity m security_id new_qty else Some true);
  if negb qty_ok then Some (invalid "New quantity outside allowed range" 13) else
  Some ValidationResult_init.

End ValidatorOps.
Import ValidatorOps.

(** ** What the checks mean *)

(** The registry resolves every identifier, and the tick size of every
    instrument it holds is a mantissa [ticks i] of at least one unit. *)
Record registry_ok (m : InstrumentManager) (ticks : Instrument → Z) : Prop := {
  ro_find : ∀ id, is_Some (findBySecurityId m id);
  ro_tick : ∀ id i, findBySecurityId m id = Some (Some i) → tickMantissa i = Some (ticks i) ∧ 0 < ticks i;
}.

Definition accepts_orders (i : Instrument) : Prop := trading_status i = Open ∨ trading_status i = PreOpen.
Definition known_type (o : Order) : Prop := ∀ v, order_type o ≠ OrderType_raw v.
(** Immediate orders are limit or market orders. *)
Definition tif_allowed (o : Order) : Prop :=
  (∀ v, time_in_force o ≠ TimeInForce_raw v) ∧
  (time_in_force o = IOC ∨ time_in_force o = FOK → order_type o = Limit ∨ order_type o = Market).
Definition price_on_tick (tm : Z) (o : Order) : Prop :=
  order_type o = Limit ∨ order_type o = StopLimit → (tm | mantissa (price o)).
Definition qty_in_range (i : Instrument) (q : Quantity) : Prop :=
  0 < q ∧ min_trade_vol i ≤ q ≤ max_trade_vol i.

Lemma valid_type_iff o : isValidOrderType (order_type o) = true ↔ known_type o.
Proof. unfold known_type. destruct (order_type o); naive_solver. Qed.

Lemma valid_tif_iff o : isValidTimeInForce (time_in_force o) (order_type o) = true ↔ tif_allowed o.
Proof.
  unfold tif_allowed. destruct (time_in_force o); simpl; rewrite ?orb_true_iff, ?bool_decide_eq_true; naive_solver.
Qed.

Lemma qty_range_iff i q : (0 <? q) && ((min_trade_vol i <=? q) && (q <=? max_trade_vol i)) = true ↔ qty_in_range i q.
Proof. unfold qty_in_range. lia. Qed.

Lemma valid_quantity m id i q :
  findBySecurityId m id = Some (Some i) →
  ∃ b, isValidQuantity m id q = Some b ∧ (b = true ↔ qty_in_range i q).
Proof.
  intros Hf. unfold isValidQuantity. rewrite Hf. simpl. destruct (Z.leb_spec q 0).
  - eexists. split; [done |]. unfold qty_in_range. split; [done | lia].
  - eexists. split; [done |]. rewrite <-qty_range_iff. destruct (Z.ltb_spec 0 q); [done | lia].
Qed.

Lemma valid_price m ticks id i p :
  registry_ok m ticks → findBySecurityId m id = Some (Some i) →
  ∃ b, isValidPrice m id p = Some b ∧ (b = true ↔ (ticks i | mantissa p)).
Proof.
  intros Hm Hf. unfold isValidPrice. rewrite Hf. simpl. destruct (ro_tick _ _ Hm _ _ Hf) as [Ht Hp].
  pose proof (valid_tick_iff i p _ Ht Hp) as Hiff. unfold isValidTick in *. rewrite Ht in *. simpl in *.
  eexists. split; [done |]. rewrite <-Hiff. split; [by intros -> | by intros [= ->]].
Qed.

Lemma find_cases m ticks id : registry_ok m ticks →
  findBySecurityId m id = Some None ∨ ∃ i, findBySecurityId m id = Some (Some i).
Proof. intros Hm. destruct (ro_find _ _ Hm id) as [[i|] ->]; eauto. Qed.

(** The checks on a new order for a known instrument, in the order of the code,
    with the code reported by the first one that fails. *)
Inductive new_order_verdict (i : Instrument) (tm : Z) (o : Order) : ValidationResult → Prop :=
  | V_closed : ¬ accepts_orders i → new_order_verdict i tm o (invalid "Instrument not available for trading" 16)
  | V_type : accepts_orders i → ¬ known_type o → new_order_verdict i tm o (invalid "Unsupported order type" 11)
  | V_tif : accepts_orders i → known_type o → ¬ tif_allowed o →
      new_order_verdict i tm o (invalid "Invalid TimeInForce for order type" 11)
  | V_price : accepts_orders i → known_type o → tif_allowed o → ¬ price_on_tick tm o →
      new_order_verdict i tm o (invalid "Price not on valid tick" 15)
  | V_qty : accepts_orders i → known_type o → tif_allowed o → price_on_tick tm o → ¬ qty_in_range i (quantity o) →
      new_order_verdict i tm o (invalid "Quantity outside allowed range" 13)
  | V_ok : accepts_orders i → known_type o → tif_allowed o → price_on_tick tm o → qty_in_range i (quantity o) →
      new_order_verdict i tm o ValidationResult_init.

(** Case analysis on a check: [b = true] is the proposition [P]. *)
Lemma check_either b P : (b = true ↔ P) → (b = true ∧ P) ∨ (b = false ∧ ¬ P).
Proof. destruct b; naive_solver. Qed.

Ltac check_cases Hiff := let H := fresh in destruct (check_either _ _ Hiff) as [[-> H]|[-> H]]; cbn [negb].

Lemma status_open_iff i :
  negb (bool_decide (trading_status i = Open)) && negb (bool_decide (trading_status i = PreOpen)) = false ↔ accepts_orders i.
Proof. unfold accepts_orders. do 2 case_bool_decide; simpl; naive_solver. Qed.

Lemma validate_verdict m ticks o :
  registry_ok m ticks →
  match findBySecurityId m (security_id o) with
  | Some (Some i) => ∃ r, validateNewOrder m o = Some r ∧ new_order_verdict i (ticks i) o r
  | _ => validateNewOrder m o = Some (invalid "Unknown instrument" 2)
  end.
Proof.
  intros Hm. destruct (find_cases m ticks (security_id o) Hm) as [Hf|[i Hf]];
    unfold validateNewOrder, isValidInstrument; rewrite !Hf; [done |]. cbn [mbind option_bind negb].
  destruct (_ && _) eqn:Es.
  { eexists. split; [done |]. constructor. intros Ha%status_open_iff. congruence. }
  apply status_open_iff in Es.
  check_cases (valid_type_iff o); [| eexists; split; [done | by constructor]].
  check_cases (valid_tif_iff o);
    [| eexists; split; [done | by constructor]].
  destruct (valid_price m ticks _ i (price o) Hm Hf) as (bp & Ep & Hp).
  destruct (valid_quantity m _ i (quantity o) Hf) as (bq & Eq & Hq). rewrite Ep, Eq.
  assert (∃ b, (if bool_decide (order_type o = Limit) || bool_decide (order_type o = StopLimit) then Some bp else Some true)
    = Some b ∧ (b = true ↔ price_on_tick (ticks i) o)) as (b & -> & Hb).
  { unfold price_on_tick. do 2 case_bool_decide; simpl; eexists; (split; [done |]); naive_solver. }
  cbn [mbind option_bind].
  check_cases Hb; [| eexists; split; [done | by constructor]].
  check_cases Hq; (eexists; split; [done | by constructor]).
Qed.

(** An order the validator accepts, for the instrument found. *)
Definition acceptable (i : Instrument) (tm : Z) (o : Order) : Prop :=
  accepts_orders i ∧ known_type o ∧ tif_allowed o ∧ price_on_tick tm o ∧ qty_in_range i (quantity o).

Lemma verdict_codes i tm o r : new_order_verdict i tm o r →
  (valid r = true ↔ acceptable i tm o) ∧
  (reject_reason r = 16 ↔ ¬ accepts_orders i) ∧
  (reject_reason r = 11 ↔ accepts_orders i ∧ ¬ (known_type o ∧ tif_allowed o)) ∧
  (reject_reason r = 15 ↔ accepts_orders i ∧ known_type o ∧ tif_allowed o ∧ ¬ price_on_tick tm o) ∧
  (reject_reason r = 13 ↔ accepts_orders i ∧ known_type o ∧ tif_allowed o ∧ price_on_tick tm o ∧ ¬ qty_in_range i (quantity o)) ∧
  reject_reason r ≠ 2 ∧ (reject_reason r = 0 ↔ valid r = true).
Proof.
  unfold acceptable.
  destruct 1; simpl; repeat split; try done; try tauto;
    match goal with H : tif_allowed _ |- _ => apply H | H : qty_in_range _ _ |- _ => apply H end.
Qed.

Lemma accepted_qty m ticks o r :
  registry_ok m ticks → validateNewOrder m o = Some r → valid r = true →
  ∃ i, findBySecurityId m (security_id o) = Some (Some i) ∧ acceptable i (ticks i) o.
Proof.
  intros Hm Hr Hv. pose proof (validate_verdict m ticks o Hm) as H.
  destruct (findBySecurityId m (security_id o)) as [[i|]|].
  - destruct H as (r' & Hr' & Hver). simplify_eq. exists i. split; [done |]. by apply verdict_codes in Hver as [Hiff _]; apply Hiff.
  - rewrite Hr in H. by injection H as ->.
  - rewrite Hr in H. by injection H as ->.
Qed.

(** Cancels and modifies are always given a verdict. *)
Lemma validate_cancel_total m ticks oid sid : registry_ok m ticks → is_Some (validateCancel m oid sid).
Proof.
  intros Hm. unfold validateCancel, isValidInstrument. destruct (oid =? 0); [by eexists |].
  destruct (find_cases m ticks sid Hm) as [->|[i ->]]; by eexists.
Qed.

Lemma validate_modify_total m ticks oid sid p q : registry_ok m ticks → is_Some (validateModify m oid sid p q).
Proof.
  intros Hm. unfold validateModify, isValidInstrument. destruct (oid =? 0); [by eexists |].
  destruct (find_cases m ticks sid Hm) as [Hf|[i Hf]]; rewrite Hf; cbn [mbind option_bind negb]; [by eexists |].
  destruct (valid_price m ticks _ i p Hm Hf) as (bp & -> & _). destruct (valid_quantity m _ i q Hf) as (bq & -> & _).
  destruct (negb (Price_isNull p)), bp, (0 <? q), bq; by eexists.
Qed.

(** ** Properties *)

(** C21: the verdict on a new order is exact. Validation always returns a
    verdict; the order is accepted exactly when its instrument is registered and
    open or pre-open, its type and time in force are enumerators and compatible,
    a limit price lies on the tick grid and the quantity is positive and within
    the instrument's range; and each reject code names exactly the first
    condition that fails: 2 unknown instrument, 16 not trading, 11 type or time
    in force, 15 price, 13 quantity. *)
Theorem validate_new_order_exact m ticks o :
  registry_ok m ticks →
  ∃ r, validateNewOrder m o = Some r ∧
  match findBySecurityId m (security_id o) with
  | Some (Some i) =>
      (valid r = true ↔ acceptable i (ticks i) o) ∧
      (reject_reason r = 16 ↔ ¬ accepts_orders i) ∧
      (reject_reason r = 11 ↔ accepts_orders i ∧ ¬ (known_type o ∧ tif_allowed o)) ∧
      (reject_reason r = 15 ↔ accepts_orders i ∧ known_type o ∧ tif_allowed o ∧ ¬ price_on_tick (ticks i) o) ∧
      (reject_reason r = 13 ↔ accepts_orders i ∧ known_type o ∧ tif_allowed o ∧ price_on_tick (ticks i) o ∧
         ¬ qty_in_range i (quantity o)) ∧
      reject_reason r ≠ 2 ∧ (reject_reason r = 0 ↔ valid r = true)
  | _ => valid r = false ∧ reject_reason r = 2
  end.
Proof.
  intros Hm. pose proof (validate_verdict m ticks o Hm) as H. destruct (findBySecurityId m (security_id o)) as [[i|]|].
  - destruct H as (r & Hr & Hv). exists r. split; [done | by apply verdict_codes].
  - by eexists.
  - by eexists.
Qed.

(** A registry of one open instrument. *)
Definition demo_registry (status : SecurityTradingStatus) : InstrumentManager :=
  let i := set_trading_status status (make_instrument (demo_instrument "ESH5" 1)) in
  mkInstrumentManager [i] {[1 := O]} {["ESH5" := O]} [] ∅.

Lemma demo_registry_ok status : registry_ok (demo_registry status) (λ _, 250000000).
Proof.
  assert (∀ id, findBySecurityId (demo_registry status) id =
    Some (if decide (1 = id) then Some (set_trading_status status (make_instrument (demo_instrument "ESH5" 1))) else None)) as Hf.
  { intros id. unfold findBySecurityId. cbn. case_decide; [subst; by rewrite lookup_singleton_eq |].
    by rewrite lookup_singleton_ne. }
  split; intros id; setoid_rewrite Hf; [by eexists |]. intros i. case_decide; [| done]. intros [= <-].
  split; [vm_compute; reflexivity | lia].
Qed.

Definition demo_new_order (t : OrderType) (tif : TimeInForce) (p q : Z) : Order :=
  mkOrder 0 [] 7 1 Buy t tif (mkPrice p) (mkPrice 0) q 0 0 0 0 New 0 None None.

Lemma validate_new_order_exact_witness :
  ∃ r, validateNewOrder (demo_registry Open) (demo_new_order Limit IOC 250000001 5) = Some r ∧ reject_reason r = 15 ∧
    ¬ (250000000 | 250000001).
Proof.
  destruct (validate_new_order_exact (demo_registry Open) (λ _, 250000000) (demo_new_order Limit IOC 250000001 5)
    (demo_registry_ok Open)) as (r & Hr & Hv).
  assert (reject_reason r = 15) as H15 by (vm_compute in Hr; by injection Hr as <-).
  exists r. split; [exact Hr | split; [exact H15 |]].
  replace (findBySecurityId _ _) with (Some (Some (set_trading_status Open (make_instrument (demo_instrument "ESH5" 1))))) in Hv
    by (vm_compute; reflexivity).
  destruct Hv as (_ & _ & _ & H & _). apply H in H15 as (_ & _ & _ & Hp). intros Hd. apply Hp. intros _. exact Hd.
Defined.

Lemma modify_price_fails p (P : Prop) : (p ≠ Price_null ∧ ¬ P) ↔ ¬ (p = Price_null ∨ P).
Proof. tauto. Qed.

Lemma modify_qty_fails i q : (0 < q ∧ ¬ qty_in_range i q) ↔ ¬ (q ≤ 0 ∨ qty_in_range i q).
Proof. split; [intros [??] [?|?]; [lia | done] | intros H; split; [lia | tauto]]. Qed.

(** The verdict on a modify is exact. Code 99 is a missing order id, 2 an
    unknown instrument, 15 a price that is not null and off the tick grid, 13 a
    positive quantity outside the instrument's range; a null price and a
    quantity of zero or less are left unchecked. *)
Theorem validate_modify_exact m ticks oid sid p q :
  registry_ok m ticks →
  ∃ r, validateModify m oid sid p q = Some r ∧ (reject_reason r = 99 ↔ oid = 0) ∧
    (reject_reason r = 2 ↔ oid ≠ 0 ∧ findBySecurityId m sid = Some None) ∧
    (reject_reason r = 0 ↔ valid r = true) ∧
    ∀ i, oid ≠ 0 → findBySecurityId m sid = Some (Some i) →
      (reject_reason r = 15 ↔ p ≠ Price_null ∧ ¬ (ticks i | mantissa p)) ∧
      (reject_reason r = 13 ↔ (p = Price_null ∨ (ticks i | mantissa p)) ∧ 0 < q ∧ ¬ qty_in_range i q) ∧
      (valid r = true ↔ (p = Price_null ∨ (ticks i | mantissa p)) ∧ (q ≤ 0 ∨ qty_in_range i q)).
Proof.
  intros Hm. unfold validateModify. destruct (Z.eqb_spec oid 0) as [->|Hoid]; [eexists; cbn; naive_solver |].
  unfold isValidInstrument. destruct (find_cases m ticks sid Hm) as [Hf|[i Hf]]; rewrite !Hf; cbn [mbind option_bind negb].
  { eexists. split; [done |]. cbn. naive_solver. }
  destruct (valid_price m ticks _ i p Hm Hf) as (bp & Ep & Hp).
  destruct (valid_quantity m _ i q Hf) as (bq & Eq & Hq). rewrite Ep, Eq.
  assert (∃ b, (if negb (Price_isNull p) then Some bp else Some true) = Some b ∧
    (b = true ↔ p = Price_null ∨ (ticks i | mantissa p))) as (b & -> & Hb).
  { unfold Price_isNull. destruct p as [x]. cbn [mantissa] in *. destruct (Z.eqb_spec x NULL_VALUE) as [->|Hx]; simpl; eexists; (split; [done |]).
    - split; [by left | done].
    - rewrite Hp. split; [by right | intros [[=]|]; done]. }
  cbn [mbind option_bind].
  assert (∃ b, (if 0 <? q then Some bq else Some true) = Some b ∧ (b = true ↔ q ≤ 0 ∨ qty_in_range i q)) as (c & Ec & Hc).
  { destruct (Z.ltb_spec 0 q); eexists; (split; [done |]); [| naive_solver lia]. rewrite Hq. split; [by right |].
    intros [?|]; [lia | done]. }
  check_cases Hb; [rewrite Ec; cbn [mbind option_bind]; check_cases Hc |];
    (eexists; split; [done |]); cbn [invalid ValidationResult_init reject_reason valid];
    do 3 (split; [naive_solver |]);
    intros i' _ Hi; simplify_eq;
    rewrite (modify_price_fails p), (modify_qty_fails i' q); split_and!; split; intros; try done; tauto.
Qed.

Lemma validate_modify_exact_witness :
  ∃ r, validateModify (demo_registry Open) 4 1 Price_null 101 = Some r ∧ reject_reason r = 13 ∧
    ¬ qty_in_range (make_instrument (demo_instrument "ESH5" 1)) 101.
Proof.
  destruct (validate_modify_exact (demo_registry Open) (λ _, 250000000) 4 1 Price_null 101 (demo_registry_ok Open))
    as (r & Hr & _ & _ & _ & Hi).
  assert (reject_reason r = 13) as H13 by (vm_compute in Hr; by injection Hr as <-).
  exists r. split; [exact Hr | split; [exact H13 |]].
  destruct (Hi (set_trading_status Open (make_instrument (demo_instrument "ESH5" 1)))) as (_ & H & _);
    [done | vm_compute; reflexivity |].
  apply H in H13 as (_ & _ & Hq). exact Hq.
Defined.
