(* ===== verification/Risk.v ===== *)
(** * Risk checks (src/gateway/risk_manager.h and .cpp)

    The order size limit, the per-session order rate and the net positions. The
    steady clock is read once per rate check; its reading, in nanoseconds since
    the clock's epoch, is an argument. *)
From Stdlib Require Import Sorting.Sorted.
From stdpp Require Import pretty.
From S2P Require Import Prelude Types Order Instrument.

Record RiskConfig := mkRiskConfig {
  max_order_qty : Z;
  max_price_deviation_pct : double;
  max_orders_per_second : Z;
  max_position_per_session : Z;
}.

Record RiskResult := mkRiskResult { passed : bool; rr_reason : string }.

Record SessionRiskState := mkSessionRiskState {
  net_position : Z;
  last_order_time : Z;
  orders_this_second : Z;
}.

Record RiskManager := mkRiskManager {
  config_ : RiskConfig;
  session_state_ : gmap Z SessionRiskState;
}.

Module RiskOps.

Definition RiskResult_init : RiskResult := mkRiskResult true EmptyString.
Definition SessionRiskState_init : SessionRiskState := mkSessionRiskState 0 0 0.
Definition RiskManager_init (config : RiskConfig) : RiskManager := mkRiskManager config ∅.

Definition checkOrder (r : RiskManager) (order : Order) : RiskResult :=
  if max_order_qty (config_ r) <? quantity order
  then mkRiskResult false ("Order quantity " +:+ pretty (quantity order) +:+ " exceeds max " +:+
         pretty (max_order_qty (config_ r)))
  else RiskResult_init.

(** [session_state_[uuid]]: a session without a state gets the initial one. *)
Definition state_of (r : RiskManager) (uuid : Z) : SessionRiskState :=
  default SessionRiskState_init (session_state_ r !! uuid).
Definition put_state (r : RiskManager) (uuid : Z) (s : SessionRiskState) : RiskManager :=
  mkRiskManager (config_ r) (<[uuid := s]> (session_state_ r)).

(** [duration_cast<seconds>] of a count of nanoseconds truncates. *)
Definition seconds (ns : Z) : Z := Z.quot ns 1000000000.

Definition checkRate (r : RiskManager) (now : Z) (uuid : Z) : RiskResult * RiskManager :=
  let '(mkSessionRiskState pos last n) := state_of r uuid in
  if 1 <=? seconds (i64 (now - last))
  then (RiskResult_init, put_state r uuid (mkSessionRiskState pos now 1))
  else
    let n := i32 (n + 1) in
    let r' := put_state r uuid (mkSessionRiskState pos last n) in
    let max := max_orders_per_second (config_ r) in
    if max <? n
    then (mkRiskResult false ("Rate limit exceeded: " +:+ pretty n +:+ " orders/sec (max " +:+ pretty max +:+ ")"), r')
    else (RiskResult_init, r').

Definition onFill (r : RiskManager) (uuid : Z) (side : Side) (qty : Quantity) : RiskManager :=
  let '(mkSessionRiskState pos last n) := state_of r uuid in
  let pos := if bool_decide (side = Buy) then i64 (pos + qty) else i64 (pos - qty) in
  put_state r uuid (mkSessionRiskState pos last n).

End RiskOps.
Import RiskOps.

(** ** Runs of rate checks: pairs of a session and a clock reading *)
Fixpoint rate_run (r : RiskManager) (calls : list (Z * Z)) : list (Z * bool) * RiskManager :=
  match calls with
  | [] => ([], r)
  | (uuid, now) :: calls =>
      let '(res, r) := checkRate r now uuid in
      let '(out, r) := rate_run r calls in ((uuid, passed res) :: out, r)
  end.

(** The number of orders of a session that pass. *)
Definition accepted (uuid : Z) (out : list (Z * bool)) : Z :=
  zsum (λ '(u, ok), if (u =? uuid) && ok then 1 else 0) out.

Definition clock_ok (calls : list (Z * Z)) : Prop :=
  StronglySorted Z.le calls.*2 ∧ Forall (λ t, 0 ≤ t < 2 ^ 63) calls.*2 ∧ Z.of_nat (length calls) < 2 ^ 31 - 1.

(** The counter of a session never runs ahead of the calls made. *)
Definition counted (k t : Z) (r : RiskManager) : Prop :=
  ∀ u, 0 ≤ orders_this_second (state_of r u) ≤ k ∧ 0 ≤ last_order_time (state_of r u) ≤ t.

Lemma state_of_put r u u' s : state_of (put_state r u s) u' = if decide (u = u') then s else state_of r u'.
Proof.
  unfold state_of, put_state. cbn. case_decide; [subst; by rewrite lookup_insert_eq | by rewrite lookup_insert_ne].
Qed.

Lemma seconds_lt ns : 0 ≤ ns → (1 <=? seconds ns) = (1000000000 <=? ns).
Proof. intros. unfold seconds. rewrite Z.quot_div_nonneg by lia. Z.to_euclidean_division_equations. lia. Qed.

(** One check, on the state of its own session. *)
Lemma check_rate_step r now u k t :
  counted k t r → t ≤ now < 2 ^ 63 → 0 ≤ k < 2 ^ 31 - 1 →
  let s := state_of r u in
  let r' := (checkRate r now u).2 in
  config_ r' = config_ r ∧ counted (k + 1) now r' ∧
  (∀ u', u' ≠ u → state_of r' u' = state_of r u') ∧
  if 1000000000 <=? now - last_order_time s
  then passed (checkRate r now u).1 = true ∧ orders_this_second (state_of r' u) = 1 ∧ last_order_time (state_of r' u) = now
  else passed (checkRate r now u).1 = (orders_this_second s + 1 <=? max_orders_per_second (config_ r)) ∧
    orders_this_second (state_of r' u) = orders_this_second s + 1 ∧ last_order_time (state_of r' u) = last_order_time s.
Proof.
  intros Hc Ht Hk s r'. subst r'. unfold checkRate. subst s.
  pose proof (Hc u) as Hu. destruct (state_of r u) as [pos last n]. cbn [orders_this_second last_order_time] in *.
  rewrite (wraps_small 64) by lia. rewrite seconds_lt by lia. rewrite (wraps_small 32 (n + 1)) by lia.
  assert (∀ s, 0 ≤ orders_this_second s ≤ k + 1 → 0 ≤ last_order_time s ≤ now →
    config_ (put_state r u s) = config_ r ∧ counted (k + 1) now (put_state r u s) ∧
    (∀ u', u' ≠ u → state_of (put_state r u s) u' = state_of r u') ∧ state_of (put_state r u s) u = s) as Hput.
  { intros s Hn Hl. split_and!; [done | | |].
    - intros u'. rewrite state_of_put. case_decide; [lia |]. specialize (Hc u'). lia.
    - intros u' Hne. by rewrite state_of_put, decide_False.
    - by rewrite state_of_put, decide_True. }
  destruct (1000000000 <=? now - last) eqn:E; [| destruct (_ <? n + 1) eqn:Em]; cbn [fst snd].
  - destruct (Hput (mkSessionRiskState pos now 1)) as (? & ? & ? & ->); cbn; [lia.. |]. done.
  - destruct (Hput (mkSessionRiskState pos last (n + 1))) as (? & ? & ? & ->); cbn; [lia.. |].
    split_and!; try done. symmetry. lia.
  - destruct (Hput (mkSessionRiskState pos last (n + 1))) as (? & ? & ? & ->); cbn; [lia.. |].
    split_and!; try done. symmetry. lia.
Qed.

Lemma rate_run_app r c1 c2 :
  rate_run r (c1 ++ c2) =
  ((rate_run r c1).1 ++ (rate_run (rate_run r c1).2 c2).1, (rate_run (rate_run r c1).2 c2).2).
Proof.
  revert r. induction c1 as [|[u now] c1 IH]; intros r; simpl; [by destruct (rate_run r c2) |].
  destruct (checkRate r now u) as [res r1]. rewrite IH. by destruct (rate_run r1 c1).
Qed.

(** The clock readings still to come. *)
Definition clock_from (k t : Z) (calls : list (Z * Z)) : Prop :=
  0 ≤ k ∧ k + Z.of_nat (length calls) < 2 ^ 31 - 1 ∧ StronglySorted Z.le calls.*2 ∧
  Forall (λ now, t ≤ now < 2 ^ 63) calls.*2.

Lemma clock_from_cons k t u now calls :
  clock_from k t ((u, now) :: calls) → t ≤ now < 2 ^ 63 ∧ 0 ≤ k < 2 ^ 31 - 1 ∧ clock_from (k + 1) now calls.
Proof.
  intros (Hk & Hl & Hs & Ht). simpl in *. apply StronglySorted_inv in Hs as [Hs Hle].
  apply Forall_cons in Ht as [Hn Ht]. split_and!; [lia.. |]. split; [lia | split; [lia | split; [done |]]].
  eapply Forall_impl; [apply Forall_and; split; [exact Ht | exact Hle] |]. cbn. lia.
Qed.

Lemma rate_run_counted pre r k t win :
  counted k t r → clock_from k t (pre ++ win) →
  ∃ k' t', counted k' t' (rate_run r pre).2 ∧ clock_from k' t' win ∧ config_ (rate_run r pre).2 = config_ r.
Proof.
  revert r k t. induction pre as [|[u now] pre IH]; intros r k t Hc Ht; simpl; [by exists k, t |].
  apply clock_from_cons in Ht as (Hn & Hk & Ht).
  destruct (check_rate_step r now u k t Hc Hn Hk) as (Hcfg & Hc' & _). destruct (checkRate r now u) as [res r1]. cbn in *.
  destruct (IH r1 _ _ Hc' Ht) as (k' & t' & H1 & H2 & H3). destruct (rate_run r1 pre). cbn in *.
  exists k', t'. by rewrite H3.
Qed.

(** What is left of a session's allowance in calls before [t1], which is less
    than a second away: the rest of the current window and, if a new window can
    start before [t1], one more. *)
Definition allowance (r : RiskManager) (u t1 : Z) : Z :=
  let s := state_of r u in
  let max := max_orders_per_second (config_ r) in
  Z.max 0 (max - orders_this_second s) +
  (if t1 <=? last_order_time s + 1000000000 then 0 else Z.max 1 max).

Lemma accepted_allowance u t0 calls r k t :
  counted k t r → clock_from k t calls → Forall (λ now, t0 ≤ now < t0 + 1000000000) calls.*2 →
  accepted u (rate_run r calls).1 ≤ allowance r u (t0 + 1000000000).
Proof.
  revert r k t. induction calls as [|[v now] calls IH]; intros r k t Hc Ht Hw.
  { unfold allowance, accepted. simpl. case_match; lia. }
  apply clock_from_cons in Ht as (Hn & Hk & Ht). cbn in Hw. apply Forall_cons in Hw as [Hw0 Hw].
  destruct (check_rate_step r now v k t Hc Hn Hk) as (Hcfg & Hc' & Hne & Hstep). simpl.
  pose proof (IH _ _ _ Hc' Ht Hw) as IH'. unfold allowance in IH' |- *. rewrite Hcfg in IH'.
  destruct (checkRate r now v) as [res r1]. cbn [fst snd] in *. destruct (rate_run r1 calls) as [out r2].
  cbn [fst snd] in *. unfold accepted in *. cbn [zsum]. destruct (Z.eqb_spec v u) as [->|Hvu].
  - cbn [andb]. destruct (1000000000 <=? now - last_order_time (state_of r u)) eqn:E;
      destruct Hstep as (-> & Hn1 & Hl1); rewrite Hn1, Hl1 in IH'.
    + replace (t0 + 1000000000 <=? now + 1000000000) with true in IH' by lia.
      replace (t0 + 1000000000 <=? last_order_time (state_of r u) + 1000000000) with false by lia. lia.
    + destruct (Z.leb_spec (orders_this_second (state_of r u) + 1) (max_orders_per_second (config_ r))); lia.
  - cbn [andb]. rewrite Hne in IH' by done. lia.
Qed.

Lemma allowance_le r u t1 k t : counted k t r → allowance r u t1 ≤ 2 * Z.max 1 (max_orders_per_second (config_ r)).
Proof. intros Hc. specialize (Hc u). unfold allowance. case_match; lia. Qed.

Lemma init_counted cfg : counted 0 0 (RiskManager_init cfg).
Proof. intros u. unfold state_of. cbn. rewrite lookup_empty. cbn. lia. Qed.

(** ** Properties *)

(** C22: the rate limit. Whatever calls came before and however the sessions
    interleave, within any interval shorter than one second at most twice the
    configured number of orders of one session pass (the window is not sliding:
    one allowance can be spent before a window ends and one after). *)
Theorem rate_limit_window cfg pre win u t0 :
  clock_ok (pre ++ win) → Forall (λ now, t0 ≤ now < t0 + 1000000000) win.*2 →
  accepted u (rate_run (rate_run (RiskManager_init cfg) pre).2 win).1 ≤ 2 * Z.max 1 (max_orders_per_second cfg).
Proof.
  intros (Hs & Ht & Hl) Hw.
  destruct (rate_run_counted pre (RiskManager_init cfg) 0 0 win) as (k & t & Hc & Hck & Hcfg);
    [apply init_counted | split_and!; [lia | lia | done | done] |].
  etrans; [by eapply accepted_allowance |]. etrans; [by eapply allowance_le |]. by rewrite Hcfg.
Qed.

(** A limit of two orders per second: four orders of session 7 pass within an
    eighth of a second around the end of its window, so the bound is reached. *)
Definition demo_risk : RiskConfig := mkRiskConfig 100 one_e9 2 1000.
Definition demo_pre : list (Z * Z) := [(8, 500000000)].
Definition demo_win : list (Z * Z) :=
  [(7, 900000000); (7, 950000000); (8, 960000000); (7, 970000000); (7, 1000000000); (7, 1010000000); (7, 1020000000)].

Lemma rate_limit_window_witness :
  accepted 7 (rate_run (rate_run (RiskManager_init demo_risk) demo_pre).2 demo_win).1 = 4 ∧
  accepted 7 (rate_run (rate_run (RiskManager_init demo_risk) demo_pre).2 demo_win).1 ≤ 2 * Z.max 1 2.
Proof.
  split; [vm_compute; reflexivity |].
  apply (rate_limit_window demo_risk demo_pre demo_win 7 900000000).
  - split; [repeat constructor; cbn; lia | split; [repeat constructor; cbn; lia | cbn; lia]].
  - repeat constructor; cbn; lia.
Defined.
