(* ===== verification/Typed.v ===== *)
(** * Values of their types

    The model keeps integers unbounded, so that "this field holds a value of its
    C++ type" is a property of orders, books and events. The casts of the source
    and its wrapping arithmetic keep it; this file states it, and proves that
    every operation of the book and of the engine preserves it. *)
From S2P Require Import Prelude Types OrderedMap Order PriceLevel OrderBook BookFrame Engine EngineTheorems.
Import OrderBookOps.

(** ** Orders, books and events whose fields hold values of their types *)
Definition side_ok (s : Side) : Prop := ∃ v, v ∈u 8 ∧ s = Side_of_u8 v.
Definition type_ok (t : OrderType) : Prop := ∃ v, v ∈u 8 ∧ t = OrderType_of_u8 v.
Definition tif_ok (t : TimeInForce) : Prop := ∃ v, v ∈u 8 ∧ t = TimeInForce_of_u8 v.

Definition event_ok (e : EngineEvent) : Prop :=
  match e with
  | OrderAccepted oid _ uuid sid side p q ot tif =>
      oid ∈u 64 ∧ uuid ∈u 64 ∧ sid ∈i 32 ∧ side_ok side ∧ mantissa p ∈i 64 ∧ q ∈i 32 ∧ type_ok ot ∧ tif_ok tif
  | OrderRejected _ uuid _ code => uuid ∈u 64 ∧ code ∈u 16
  | OrderFilled tid sid px q aggressor moid _ muuid mcum mleaves _ toid _ tuuid tcum tleaves _ =>
      tid ∈u 64 ∧ sid ∈i 32 ∧ mantissa px ∈i 64 ∧ q ∈i 32 ∧ side_ok aggressor ∧ moid ∈u 64 ∧ muuid ∈u 64 ∧ mcum ∈i 32 ∧
      mleaves ∈i 32 ∧ toid ∈u 64 ∧ tuuid ∈u 64 ∧ tcum ∈i 32 ∧ tleaves ∈i 32
  | OrderCancelled oid _ uuid sid cum _ => oid ∈u 64 ∧ uuid ∈u 64 ∧ sid ∈i 32 ∧ cum ∈i 32
  | OrderModified oid _ uuid sid p q cum leaves =>
      oid ∈u 64 ∧ uuid ∈u 64 ∧ sid ∈i 32 ∧ mantissa p ∈i 64 ∧ q ∈i 32 ∧ cum ∈i 32 ∧ leaves ∈i 32
  | OrderCancelRejected oid _ uuid code _ => oid ∈u 64 ∧ uuid ∈u 64 ∧ code ∈u 16
  | BookUpdate sid _ p q n _ idx rpt =>
      sid ∈i 32 ∧ mantissa p ∈i 64 ∧ q ∈i 32 ∧ n ∈i 32 ∧ idx ∈i 32 ∧ rpt ∈u 32
  end.

Lemma side_ok_u8 s : side_ok s → Side_to_u8 s ∈u 8.
Proof. intros (v & Hv & ->). by rewrite Side_to_of_u8. Qed.
Lemma type_ok_u8 t : type_ok t → OrderType_to_u8 t ∈u 8.
Proof. intros (v & Hv & ->). by rewrite OrderType_to_of_u8. Qed.
Lemma tif_ok_u8 t : tif_ok t → TimeInForce_to_u8 t ∈u 8.
Proof. intros (v & Hv & ->). by rewrite TimeInForce_to_of_u8. Qed.
Lemma side_ok_of s : side_ok s → Side_of_u8 (Side_to_u8 s) = s.
Proof. intros (v & Hv & ->). by rewrite Side_to_of_u8. Qed.
Lemma type_ok_of t : type_ok t → OrderType_of_u8 (OrderType_to_u8 t) = t.
Proof. intros (v & Hv & ->). by rewrite OrderType_to_of_u8. Qed.
Lemma tif_ok_of t : tif_ok t → TimeInForce_of_u8 (TimeInForce_to_u8 t) = t.
Proof. intros (v & Hv & ->). by rewrite TimeInForce_to_of_u8. Qed.

Definition order_typed (o : Order) : Prop :=
  order_id o ∈u 64 ∧ session_uuid o ∈u 64 ∧ security_id o ∈i 32 ∧ side_ok (side o) ∧ type_ok (order_type o) ∧
  tif_ok (time_in_force o) ∧ mantissa (price o) ∈i 64 ∧ quantity o ∈i 32 ∧ filled_qty o ∈i 32 ∧
  mantissa (stop_price o) ∈i 64 ∧ display_qty o ∈i 32 ∧ min_qty o ∈i 32 ∧ timestamp o ∈u 64 ∧ order_request_id o ∈u 64.
Definition heap_typed (h : heap) : Prop := map_Forall (λ _, order_typed) h.
Definition level_typed (lv : PriceLevel) : Prop := total_quantity lv ∈i 32 ∧ order_count lv ∈i 32.
Definition levels_typed (m : list (Price * PriceLevel)) : Prop := Forall (λ e, mantissa e.1 ∈i 64 ∧ level_typed e.2) m.
Definition book_typed (b : OrderBook) : Prop :=
  security_id_ b ∈i 32 ∧ next_trade_id_ b ∈u 64 ∧ rpt_seq_ b ∈u 32 ∧ levels_typed (bid_levels_ b) ∧ levels_typed (ask_levels_ b).
Definition state_typed (st : State) : Prop :=
  heap_typed st.1.1 ∧ book_typed st.1.2 ∧ Forall event_ok st.2.

(** ** Single steps *)
Lemma i32_range z : i32 z ∈i 32.
Proof. apply wraps_range. lia. Qed.

Lemma remaining_range o : remainingQty o ∈i 32.
Proof. apply i32_range. Qed.

Lemma heap_typed_lookup h p o : heap_typed h → h !! p = Some o → order_typed o.
Proof. intros H. apply H. Qed.

Lemma assign_typed h p f h' :
  heap_typed h → (∀ o, order_typed o → order_typed (f o)) → assign h p f = Some h' → heap_typed h'.
Proof.
  intros Hh Hf (o & Ho & [= <-])%bind_Some. apply map_Forall_insert_2; [| done]. apply Hf. by apply (Hh p).
Qed.

(** The assignments of the source that keep an order typed. *)
Lemma set_status_typed v o : order_typed o → order_typed (set_status v o).
Proof. by destruct o. Qed.
Lemma set_prev_typed v o : order_typed o → order_typed (set_prev v o).
Proof. by destruct o. Qed.
Lemma set_next_typed v o : order_typed o → order_typed (set_next v o).
Proof. by destruct o. Qed.
Lemma set_cl_ord_id_typed v o : order_typed o → order_typed (set_cl_ord_id v o).
Proof. by destruct o. Qed.
Lemma set_filled_typed v o : v ∈i 32 → order_typed o → order_typed (set_filled_qty v o).
Proof. destruct o. unfold order_typed. cbn. tauto. Qed.
Lemma set_quantity_typed v o : v ∈i 32 → order_typed o → order_typed (set_quantity v o).
Proof. destruct o. unfold order_typed. cbn. tauto. Qed.
Lemma set_price_typed v o : mantissa v ∈i 64 → order_typed o → order_typed (set_price v o).
Proof. destruct o. unfold order_typed. cbn. tauto. Qed.

Create HintDb typed.
#[export] Hint Resolve set_status_typed set_prev_typed set_next_typed set_cl_ord_id_typed set_filled_typed
  set_quantity_typed set_price_typed i32_range remaining_range heap_typed_lookup : typed.

(** Runs the steps of an operation, turning every assignment into typedness of
    the new heap. *)
Ltac chain_typed :=
  repeat match goal with
  | Hh : heap_typed ?h, H : assign ?h _ _ = Some ?h' |- _ =>
      apply (assign_typed _ _ _ _ Hh) in H; [| by auto with typed]
  end.

Lemma keys_set_second it v m : level_typed v → levels_typed m → levels_typed (set_second it v m).
Proof.
  intros Hv H. unfold set_second, levels_typed. apply Forall_alter; [done |]. intros ? _ [? _]. done.
Qed.
Lemma keys_erase it m : levels_typed m → levels_typed (erase it m).
Proof. intros H. unfold erase. by apply Forall_delete. Qed.
Lemma keys_emplace lt p v m :
  mantissa p ∈i 64 → level_typed v → levels_typed m → levels_typed (try_emplace lt p v m).1.1.
Proof.
  intros Hp Hv H. unfold try_emplace. destruct (find lt p m); [done |]. cbn.
  apply Forall_app. split; [by apply Forall_take | constructor; [done | by apply Forall_drop]].
Qed.
Lemma levels_lookup m it lp lv : levels_typed m → m !! it = Some (lp, lv) → mantissa lp ∈i 64 ∧ level_typed lv.
Proof. intros H Hit. apply (Forall_lookup_1 _ _ _ _ H Hit). Qed.
Lemma level_init_typed : level_typed PriceLevel_init.
Proof. done. Qed.
Lemma set_total_typed q lv : q ∈i 32 → level_typed lv → level_typed (set_total_quantity q lv).
Proof. destruct lv. unfold level_typed. cbn. tauto. Qed.
Lemma set_level_price_typed p lv : level_typed lv → level_typed (set_level_price p lv).
Proof. by destruct lv. Qed.
Lemma index_of_range p idx m i : index_of p idx m = Some i → idx ∈i 32 → i ∈i 32.
Proof.
  revert idx. induction m as [|[q lv] m IH]; intros idx; cbn; [done |]. destruct (Price_eq q p); [congruence |].
  intros H _. apply (IH _ H), i32_range.
Qed.
Lemma index_before_range cmp p idx m : idx ∈i 32 → index_before cmp p idx m ∈i 32.
Proof. revert idx. induction m as [|[q lv] m IH]; intros idx; cbn; [done |]. destruct (cmp p q); [done |]. intros _. apply IH, i32_range. Qed.
Lemma priceLevelIndex_range b sd p : priceLevelIndex b sd p ∈i 32.
Proof.
  unfold priceLevelIndex. destruct (index_of _ _ _) eqn:E; [| by apply index_before_range]. by apply index_of_range in E.
Qed.
Lemma book_set_levels sd m b : book_typed b → levels_typed m → book_typed (set_levels sd m b).
Proof. destruct b. unfold book_typed, set_levels. cbn. case_match; tauto. Qed.
Lemma book_levels sd b : book_typed b → levels_typed (levels sd b).
Proof. unfold book_typed, levels. case_match; tauto. Qed.
Lemma book_set_ids v b : book_typed b → book_typed (set_orders_by_id v b).
Proof. by destruct b. Qed.
Lemma book_update_typed b sid sd p q n a i evs :
  sid ∈i 32 → mantissa p ∈i 64 → q ∈i 32 → n ∈i 32 → i ∈i 32 → book_typed b → Forall event_ok evs →
  book_typed (generateBookUpdate b sid sd p q n a i evs).1 ∧ Forall event_ok (generateBookUpdate b sid sd p q n a i evs).2.
Proof.
  destruct b. intros Hs' Hp Hq Hn Hi (Hs & Ht & Hr & Hl) He. split.
  - split; [done |]. split; [done |]. split; [apply wrapu_range; lia | done].
  - cbn. apply Forall_app. split; [done |]. by apply Forall_singleton.
Qed.
Lemma book_sid b : book_typed b → security_id_ b ∈i 32.
Proof. by intros [? _]. Qed.
#[export] Hint Resolve keys_set_second keys_erase keys_emplace book_set_levels book_levels book_set_ids book_sid
  priceLevelIndex_range set_total_typed set_level_price_typed level_init_typed : typed.

Lemma level_counts_typed q n lv : level_typed (set_order_count (i32 n) (set_total_quantity (i32 q) lv)).
Proof. destruct lv. split; apply i32_range. Qed.

Lemma level_addOrder_typed h lv p h' lv' :
  PriceLevelOps.addOrder h lv p = Some (h', lv') → heap_typed h → heap_typed h' ∧ level_typed lv'.
Proof.
  unfold PriceLevelOps.addOrder. intros H Hh. run_steps; chain_typed; split; try done; apply level_counts_typed.
Qed.

Lemma level_removeOrder_typed h lv p h' lv' :
  PriceLevelOps.removeOrder h lv p = Some (h', lv') → heap_typed h → heap_typed h' ∧ level_typed lv'.
Proof.
  unfold PriceLevelOps.removeOrder. intros H Hh. run_steps; chain_typed; split; try done; apply level_counts_typed.
Qed.

Lemma executeTrade_typed h b m t p q h' b' tr :
  executeTrade h b m t p q = Some (h', b', tr) → heap_typed h → book_typed b →
  heap_typed h' ∧ book_typed b' ∧ trade_id tr ∈u 64 ∧ trade_security_id tr ∈i 32 ∧ side_ok (aggressor_side tr) ∧
  trade_price tr = p ∧ trade_quantity tr = q.
Proof.
  unfold executeTrade. intros H Hh Hb. run_steps; chain_typed. cbn.
  match goal with Hh : heap_typed ?h, H : ?h !! t = Some ?o |- _ =>
    pose proof (heap_typed_lookup _ _ _ Hh H) as (_ & _ & _ & ? & _) end.
  destruct Hb as (? & ? & ? & ?). split; [done |]. split; [| done]. split; [done |]. split; [by apply wrapu_range | done].
Qed.

Lemma settle_maker_typed h b lv m h' b' lv' :
  settle_maker h b lv m = Some (h', b', lv') → heap_typed h → book_typed b → level_typed lv →
  heap_typed h' ∧ book_typed b' ∧ level_typed lv' ∧ security_id_ b' = security_id_ b.
Proof.
  unfold settle_maker. intros H Hh Hb Hlv. run_steps; chain_typed.
  - match goal with H : PriceLevelOps.removeOrder _ _ _ = Some _ |- _ => apply level_removeOrder_typed in H as [??]; [| done] end.
    split_and!; eauto with typed. by destruct b.
  - done.
Qed.

Lemma min_range a b : a ∈i 32 → b ∈i 32 → Z.min a b ∈i 32.
Proof. lia. Qed.
#[export] Hint Resolve min_range : typed.

(** The book update at the end of a step. *)
Ltac typed_update H :=
  match type of H with context [generateBookUpdate ?b ?a1 ?a2 ?a3 ?a4 ?a5 ?a6 ?a7 ?a8] =>
    let Hb := fresh "Hb" in let He := fresh "He" in
    assert (book_typed (generateBookUpdate b a1 a2 a3 a4 a5 a6 a7 a8).1 ∧
      Forall event_ok (generateBookUpdate b a1 a2 a3 a4 a5 a6 a7 a8).2) as [Hb He]
      by (apply book_update_typed; first [done | lia | by auto 12 with typed]);
    destruct (generateBookUpdate b a1 a2 a3 a4 a5 a6 a7 a8)
  end.

(** ** Matching *)
Lemma match_step_typed sd it tp t st st' :
  match_step sd it tp t st = Some st' → mantissa tp ∈i 64 → state_typed st → state_typed st'.
Proof.
  destruct st as [[h b] evs], st' as [[h' b'] evs']. intros H Htp (Hh & Hb & He). cbn in Hh, Hb, He.
  unfold match_step in H.
  apply bind_Some in H as ([lp level] & Hlv & H). apply bind_Some in H as (m & Hm & H).
  apply bind_Some in H as (o & Ho & H). apply bind_Some in H as (mo & Hmo & H).
  apply bind_Some in H as ([[h1 b1] tr] & Htr & H).
  apply executeTrade_typed in Htr as (Hh1 & Hb1 & Htid & Hsid & Hagg & Hpx & Hq); [| done..].
  apply bind_Some in H as ([[h2 b2] lv2] & Hset & H). 
  assert (level_typed level) as Hlvl by apply (levels_lookup _ _ _ _ (book_levels sd b Hb) Hlv).
  apply settle_maker_typed in Hset as (Hh2 & Hb2 & Hlv2 & _); [| by auto with typed..].
  apply bind_Some in H as (o2 & Ho2 & H). apply bind_Some in H as (h3 & Hh3 & H).
  apply (assign_typed _ _ _ _ Hh2) in Hh3; [| by auto with typed].
  apply bind_Some in H as (mo3 & Hmo3 & H). apply bind_Some in H as (o3 & Ho3 & H).
  pose proof (Hh3 _ _ Hmo3) as (? & ? & _ & _ & _ & _ & _ & _ & ? & _).
  pose proof (Hh3 _ _ Ho3) as (? & ? & _ & _ & _ & _ & _ & _ & ? & _).
  cbv zeta in H.
  match type of H with context [generateBookUpdate ?b _ _ _ _ _ _ _ (?es)] => assert (book_typed b) as Hb3;
    [auto with typed | assert (Forall event_ok es) as He3] end.
  { apply Forall_app. split; [done |]. repeat constructor; try done; rewrite ?Hpx, ?Hq; try apply remaining_range; try lia; try done.
    all: apply min_range; apply remaining_range. }
  destruct Hlv2. destruct (PriceLevelOps.empty lv2); typed_update H; by injection H as <- <- <-.
Qed.

Lemma match_level_typed fuel sd it tp t st st' :
  match_level fuel sd it tp t st = Some st' → mantissa tp ∈i 64 → state_typed st → state_typed st'.
Proof.
  revert st. induction fuel as [|fuel IH]; intros [[h b] evs] H Htp Hs; cbn [match_level] in H; run_steps; try done.
  match goal with H : match_step _ _ _ _ _ = Some _ |- _ => apply match_step_typed in H; [| done..] end. by eapply IH.
Qed.

Lemma match_levels_typed fuel sd stop it t st st' :
  match_levels fuel sd stop it t st = Some st' → state_typed st → state_typed st'.
Proof.
  revert it st. induction fuel as [|fuel IH]; intros it [[h b] evs] H Hs; cbn [match_levels] in H.
  - destruct (levels sd b !! it) as [[tp lv]|]; run_steps; done.
  - destruct (levels sd b !! it) as [[tp lv]|] eqn:Elv; [| by run_steps].
    assert (mantissa tp ∈i 64) as Htp
      by (destruct Hs as (_ & Hb & _); apply (book_levels sd) in Hb; by apply (levels_lookup _ _ _ _ Hb Elv)).
    run_steps; try done.
    all: match goal with H : match_level _ _ _ _ _ _ = Some _ |- _ =>
      apply match_level_typed in H; [destruct H as (? & ? & ?) | done..] end.
    all: eapply IH; [done |]; split_and!; cbn in *; eauto with typed.
Qed.

Lemma matchOrder_typed h b t st' :
  matchOrder h b t = Some st' → heap_typed h → book_typed b → state_typed st'.
Proof.
  unfold matchOrder, matchMarket, matchLimit, match_side. intros H Hh Hb.
  assert (state_typed (h, b, [])) by (split_and!; [done | done | constructor]).
  run_steps; by apply match_levels_typed in H.
Qed.

(** A single event whose fields are in range. *)
Ltac one_event := apply Forall_singleton; cbn; split_and?; first [done | apply remaining_range | lia].

(** ** Resting orders and the operations *)
Lemma insert_side_typed sd h b t evs st' :
  insert_side sd h b t evs = Some st' → state_typed (h, b, evs) → state_typed st'.
Proof.
  intros H (Hh & Hb & He). cbn in Hh, Hb, He. unfold insert_side in H. apply bind_Some in H as (o & Ho & H).
  pose proof (Hh _ _ Ho) as (_ & _ & _ & _ & _ & _ & Hp & _).
  pose proof (keys_emplace (better sd) (price o) PriceLevel_init (levels sd b) Hp level_init_typed (book_levels sd b Hb)) as Hk.
  destruct (try_emplace _ _ _ _) as [[m it] ins]. cbn in Hk. apply bind_Some in H as ([lp lv] & Hlv & H).
  apply bind_Some in H as ([h1 lv1] & Hadd & H). apply level_addOrder_typed in Hadd as [Hh1 Hlv1]; [| done].
  apply bind_Some in H as (o1 & Ho1 & H). cbv zeta in H.
  pose proof (Hh1 _ _ Ho1) as (_ & _ & _ & _ & _ & _ & ? & _). pose proof Hlv1 as [??].
  typed_update H. by injection H as <-.
Qed.

Lemma insertResting_typed h b t evs st' :
  insertResting h b t evs = Some st' → state_typed (h, b, evs) → state_typed st'.
Proof.
  intros H (Hh & Hb & He). unfold insertResting in H. run_steps; eapply insert_side_typed; try done; by split_and!; try apply book_set_ids.
Qed.

Lemma remove_side_typed sd h b t evs st' :
  remove_side sd h b t evs = Some st' → state_typed (h, b, evs) → state_typed st'.
Proof.
  intros H (Hh & Hb & He). cbn in Hh, Hb, He. unfold remove_side in H. apply bind_Some in H as (o & Ho & H).
  destruct (find _ _ _) as [it|]; [| by injection H as <-].
  apply bind_Some in H as ([lp lv] & Hlv & H). apply bind_Some in H as ([h1 lv1] & Hrem & H).
  apply level_removeOrder_typed in Hrem as [Hh1 Hlv1]; [| done]. apply bind_Some in H as (o1 & Ho1 & H). cbv zeta in H.
  pose proof (Hh1 _ _ Ho1) as (_ & _ & _ & _ & _ & _ & ? & _). pose proof Hlv1 as [??].
  destruct (PriceLevelOps.empty lv1); typed_update H; by injection H as <-.
Qed.

Lemma removeFromBook_typed h b t evs st' :
  removeFromBook h b t evs = Some st' → state_typed (h, b, evs) → state_typed st'.
Proof.
  intros H (Hh & Hb & He). unfold removeFromBook in H. run_steps; eapply remove_side_typed; try done; by split_and!; try apply book_set_ids.
Qed.

Lemma cancelled_ok o : order_typed o → event_ok (OrderCancelled_of o).
Proof. intros (? & ? & ? & _ & _ & _ & _ & _ & ? & _). done. Qed.

Lemma state_typed_snoc h b evs e : state_typed (h, b, evs) → event_ok e → state_typed (h, b, evs ++ [e]).
Proof. intros (Hh & Hb & He) H. split_and!; [done | done |]. apply Forall_app. split; [done | one_event]. Qed.

Lemma state_typed_heap h h' b evs : state_typed (h, b, evs) → heap_typed h' → state_typed (h', b, evs).
Proof. by intros (_ & ? & ?). Qed.

(** Marking an order cancelled and reporting it. *)
Lemma cancel_typed h b evs t h' o :
  state_typed (h, b, evs) → assign h t (set_status Canceled) = Some h' → h' !! t = Some o →
  state_typed (h', b, evs ++ [OrderCancelled_of o]).
Proof.
  intros Hs Ha Ho. pose proof Hs as (Hh & _ & _). cbn in Hh. apply (assign_typed _ _ _ _ Hh) in Ha; [| auto with typed].
  apply state_typed_snoc; [by eapply state_typed_heap | by apply cancelled_ok, (Ha t)].
Qed.

Lemma post_match_typed h b t evs st' :
  post_match h b t evs = Some st' → state_typed (h, b, evs) → state_typed st'.
Proof.
  unfold post_match. intros H Hs. run_steps; try done; first [by eapply insertResting_typed | by eapply cancel_typed].
Qed.

Lemma state_typed_app h b evs evs' :
  Forall event_ok evs → state_typed (h, b, evs') → state_typed (h, b, evs ++ evs').
Proof. intros He (Hh & Hb & He'). split_and!; [done | done |]. by apply Forall_app. Qed.

Lemma addOrder_typed h b t st' :
  addOrder h b t = Some st' → heap_typed h → book_typed b → state_typed st'.
Proof.
  unfold addOrder. intros H Hh Hb. apply bind_Some in H as (o & Ho & H).
  pose proof (Hh _ _ Ho) as (? & ? & ? & ? & ? & ? & ? & ? & ? & _).
  apply bind_Some in H as (cf & _ & H). destruct (negb cf).
  - injection H as <-. split_and!; [done | done |]. one_event.
  - apply bind_Some in H as ([[h1 b1] evs] & Hm & H). apply matchOrder_typed in Hm; [| done..].
    eapply post_match_typed; [exact H |]. apply (state_typed_app _ _ [_]); [one_event | done].
Qed.

Lemma cancelOrder_typed h b oid st' :
  cancelOrder h b oid = Some st' → oid ∈u 64 → heap_typed h → book_typed b → state_typed st'.
Proof.
  unfold cancelOrder. intros H Hoid Hh Hb. destruct (orders_by_id_ b !! oid) as [t|].
  - run_steps. match goal with H : removeFromBook _ _ _ _ = Some _ |- _ => apply removeFromBook_typed in H; [| by split_and!] end.
    by eapply cancel_typed.
  - injection H as <-. split_and!; [done | done |]. one_event.
Qed.

Lemma modifyOrder_typed h b oid p q c st' :
  modifyOrder h b oid p q c = Some st' → oid ∈u 64 → mantissa p ∈i 64 → q ∈i 32 → heap_typed h → book_typed b →
  state_typed st'.
Proof.
  unfold modifyOrder. intros H Hoid Hp Hq Hh Hb. destruct (orders_by_id_ b !! oid) as [t|].
  - apply bind_Some in H as ([[h1 b1] evs1] & Hrem & H).
    apply removeFromBook_typed in Hrem as (Hh1 & Hb1 & He1); [| by split_and!]. cbn in Hh1, Hb1, He1.
    apply bind_Some in H as (h2 & H2 & H). apply (assign_typed _ _ _ _ Hh1) in H2; [| auto with typed].
    apply bind_Some in H as (h3 & H3 & H). apply (assign_typed _ _ _ _ H2) in H3; [| auto with typed].
    apply bind_Some in H as (h4 & H4 & H).
    assert (heap_typed h4) as Hh4.
    { case_bool_decide; [by injection H4 as <- |]. apply (assign_typed _ _ _ _ H3) in H4; auto with typed. }
    apply bind_Some in H as (h5 & H5 & H). apply (assign_typed _ _ _ _ Hh4) in H5; [| auto with typed].
    apply bind_Some in H as (o & Ho & H). pose proof (H5 _ _ Ho) as (? & ? & ? & _ & _ & _ & _ & _ & ? & _).
    apply bind_Some in H as ([[h6 b6] evs6] & Hm & H). apply matchOrder_typed in Hm; [| done..].
    cbv zeta in H. apply bind_Some in H as (o2 & Ho2 & H).
    assert (state_typed (h6, b6, (evs1 ++ [OrderModified (order_id o) (cl_ord_id o) (session_uuid o) (security_id o) p q
      (filled_qty o) (remainingQty o)]) ++ evs6)) as Hs.
    { apply state_typed_app; [| done]. apply Forall_app. split; [done | one_event]. }
    destruct (_ && _); [by eapply insertResting_typed | by injection H as <-].
  - injection H as <-. split_and!; [done | done |]. one_event.
Qed.

(** ** The engine *)
Definition eng_typed (e : FullMatchingEngine) : Prop :=
  heap_typed (eng_heap e) ∧ map_Forall (λ _, book_typed) (order_books_ e) ∧ next_order_id_ e ∈u 64.

(** Commands whose arguments hold values of their types; the id of a submitted
    order is assigned by the engine. *)
Definition eng_cmd_typed (c : EngineCmd) : Prop :=
  match c with
  | EAddInstrument sid => sid ∈i 32
  | ESubmit _ o => order_typed (set_order_id 0 o)
  | ECancel oid _ uuid => oid ∈u 64 ∧ uuid ∈u 64
  | EModify oid _ p q _ => oid ∈u 64 ∧ mantissa p ∈i 64 ∧ q ∈i 32
  end.

Lemma erase_owned_typed h owned id : heap_typed h → heap_typed (EngineOps.erase_owned h owned id).1.
Proof. unfold EngineOps.erase_owned. destruct (owned !! id); [apply map_Forall_delete | done]. Qed.

Lemma assign_owned_typed h owned id p : heap_typed h → heap_typed (EngineOps.assign_owned h owned id p).1.
Proof. unfold EngineOps.assign_owned. destruct (owned !! id); [apply map_Forall_delete | done]. Qed.

Lemma typed_with_book h books o2s owned nid sid b :
  heap_typed h → map_Forall (λ _, book_typed) books → book_typed b → nid ∈u 64 →
  eng_typed (mkEngine h (<[sid := b]> books) o2s owned nid).
Proof. intros. split_and!; cbn; [done | by apply map_Forall_insert_2 | lia | lia]. Qed.

Lemma submitOrder_typed e now o e' evs :
  EngineOps.submitOrder e now o = Some (e', evs) → eng_typed e → order_typed (set_order_id 0 o) →
  eng_typed e' ∧ Forall event_ok evs.
Proof.
  destruct e as [h books o2s owned nid]. intros H (Hh & Hb & Hn) Ho. cbn in Hh, Hb, Hn. unfold EngineOps.submitOrder in H.
  set (o' := set_timestamp (u64 now) (set_order_id nid o)) in *.
  assert (order_typed o') as Ho' by (pose proof (wrapu_range 64 now ltac:(lia)); unfold o'; destruct o; unfold order_typed in *; cbn in *; tauto). clearbody o'.
  pose proof (wrapu_range 64 (nid + 1) ltac:(lia)) as Hn'.
  destruct (books !! security_id o') as [b|] eqn:Eb; cycle 1.
  { injection H as <- <-. split; [done |]. destruct Ho' as (_ & ? & _). one_event. }
  assert (heap_typed (<[fresh (dom h) := o']> h)) as Hh1 by (by apply map_Forall_insert_2).
  apply (assign_owned_typed _ owned (order_id o') (fresh (dom h))) in Hh1.
  destruct (EngineOps.assign_owned _ _ _ _) as [h1 owned1]. cbn in Hh1.
  apply bind_Some in H as ([[h2 b2] evs2] & Hadd & H).
  apply addOrder_typed in Hadd as (Hh2 & Hb2 & He2); [| done | by apply (Hb _ _ Eb)]. cbn in Hh2, Hb2, He2.
  apply bind_Some in H as (o2 & _ & H). destruct (_ || _).
  - pose proof (erase_owned_typed h2 owned1 (order_id o') Hh2) as Hh3.
    destruct (EngineOps.erase_owned _ _ _) as [h3 owned3]. injection H as <- <-. by split; [apply typed_with_book |].
  - injection H as <- <-. by split; [apply typed_with_book |].
Qed.

Lemma cancelOrder_eng_typed e oid sid uuid e' evs :
  EngineOps.cancelOrder e oid sid uuid = Some (e', evs) → eng_typed e → oid ∈u 64 → uuid ∈u 64 →
  eng_typed e' ∧ Forall event_ok evs.
Proof.
  destruct e as [h books o2s owned nid]. intros H (Hh & Hb & Hn) Ho Hu. cbn in Hh, Hb, Hn. unfold EngineOps.cancelOrder in H.
  destruct (books !! _) as [b|] eqn:Eb; [| injection H as <- <-; split; [done |]; one_event].
  apply bind_Some in H as ([[h2 b2] evs2] & Hc & H).
  apply cancelOrder_typed in Hc as (Hh2 & Hb2 & He2); [| done | done | by apply (Hb _ _ Eb)]. cbn in Hh2, Hb2, He2.
  pose proof (erase_owned_typed h2 owned oid Hh2) as Hh3.
  destruct (EngineOps.erase_owned _ _ _) as [h3 owned3]. injection H as <- <-. by split; [apply typed_with_book |].
Qed.

Lemma modifyOrder_eng_typed e oid sid p q c e' evs :
  EngineOps.modifyOrder e oid sid p q c = Some (e', evs) → eng_typed e → oid ∈u 64 → mantissa p ∈i 64 → q ∈i 32 →
  eng_typed e' ∧ Forall event_ok evs.
Proof.
  destruct e as [h books o2s owned nid]. intros H (Hh & Hb & Hn) Ho Hp Hq. cbn in Hh, Hb, Hn. unfold EngineOps.modifyOrder in H.
  destruct (books !! _) as [b|] eqn:Eb; [| injection H as <- <-; split; [done |]; one_event].
  apply bind_Some in H as ([[h2 b2] evs2] & Hc & H).
  apply modifyOrder_typed in Hc as (Hh2 & Hb2 & He2); [| done | done | done | done | by apply (Hb _ _ Eb)]. cbn in Hh2, Hb2, He2.
  destruct (owned !! oid); [| injection H as <- <-; by split; [apply typed_with_book |]].
  apply bind_Some in H as (o2 & _ & H). destruct (_ || _); [| injection H as <- <-; by split; [apply typed_with_book |]].
  pose proof (erase_owned_typed h2 owned oid Hh2) as Hh3.
  destruct (EngineOps.erase_owned _ _ _) as [h3 owned3]. injection H as <- <-. by split; [apply typed_with_book |].
Qed.

Lemma eng_cmd_typed_ok e c e' evs :
  eng_cmd e c = Some (e', evs) → eng_typed e → eng_cmd_typed c → eng_typed e' ∧ Forall event_ok evs.
Proof.
  intros H He Hc. destruct c as [sid|now o|oid sid uuid|oid sid p q c]; cbn in H, Hc.
  - injection H as <- <-. split; [| constructor]. destruct e as [h books o2s owned nid]. cbn. destruct (books !! sid); [done |].
    destruct He as (? & ? & ?). apply typed_with_book; try done.
    split; [done |]. split; [done |]. split; [done |]. split; apply Forall_nil_2.
  - by eapply submitOrder_typed.
  - destruct Hc. by eapply cancelOrder_eng_typed.
  - destruct Hc as (? & ? & ?). by eapply modifyOrder_eng_typed.
Qed.

Lemma Engine_init_typed : eng_typed EngineOps.Engine_init.
Proof. split_and!; cbn; [apply map_Forall_empty | apply map_Forall_empty | lia | lia]. Qed.

(** ** Runs *)

(** Type soundness of the engine. Whatever the sequence of calls, in or out of
    the limits on quantities, as long as every argument holds a value of its C++
    type so does every integer, enum and price of every order, book and event of a
    run that returns (so a report can carry each of them). *)
Theorem engine_run_typed cs e e' evs :
  eng_run e cs = Some (e', evs) → eng_typed e → Forall eng_cmd_typed cs →
  eng_typed e' ∧ Forall event_ok evs.
Proof.
  revert e evs. induction cs as [|c cs IH]; intros e evs H He Hc; cbn in H; [injection H as <- <-; by split |].
  apply Forall_cons in Hc as [Hc Hcs]. apply bind_Some in H as ([e1 evs1] & H1 & H).
  destruct (eng_cmd_typed_ok _ _ _ _ H1 He Hc) as [He1 Hev1].
  apply bind_Some in H as ([e2 evs2] & H2 & H). injection H as <- <-.
  destruct (IH _ _ H2 He1 Hcs) as [He2 Hev2]. split; [done | by apply Forall_app].
Qed.

Lemma demo_cmds_typed : Forall eng_cmd_typed demo_cmds.
Proof.
  assert (∀ sid s p q, sid ∈i 32 → side_ok s → p ∈i 64 → q ∈i 32 → order_typed (set_order_id 0 (demo_order sid s p q))) as Hd.
  { intros sid s p q ????. unfold order_typed. cbn. split_and!; try lia; try done; [by exists 2 | by exists 0]. }
  assert (side_ok Buy ∧ side_ok Sell) as [??] by (split; [exists 1 | exists 2]; done).
  unfold demo_cmds. repeat (apply Forall_cons_2; [cbn [eng_cmd_typed] |]); try apply Forall_nil_2;
    first [apply Hd; (done || lia) | cbn; split_and?; lia].
Qed.

Lemma engine_run_typed_witness :
  ∃ e' evs, eng_run EngineOps.Engine_init demo_cmds = Some (e', evs) ∧ eng_typed e' ∧ Forall event_ok evs.
Proof.
  eexists _, _. split; [vm_compute; reflexivity |].
  eapply (engine_run_typed demo_cmds EngineOps.Engine_init);
    [vm_compute; reflexivity | apply Engine_init_typed | apply demo_cmds_typed].
Defined.
