(* ===== verification/ExecReport.v ===== *)
(** * Execution reports (src/gateway/exec_report_builder.h and .cpp)

    Each builder fills a report message from an engine event, stamps it with the
    clock and the next execution id and encodes it into a buffer of its encoded
    length. The event type is the sum of all events, so a builder is given
    [None] as its result on the events its C++ argument type excludes; encoding
    outside the buffer would be [None] as well. The system clock is a parameter
    indexed by the number of the read. *)
From stdpp Require Import pretty.
From S2P Require Import Prelude Types Sbe ILink3 Dispatcher Order.

Record ExecReportBuilder := mkExecReportBuilder { next_exec_id_ : Z; time_reads : nat }.

Module ExecReportOps.

Definition ExecReportBuilder_init : ExecReportBuilder := mkExecReportBuilder 1 0.

Definition ordStatusToChar (status : OrdStatus) : byte :=
  match status with
  | New => Init.Byte.x30
  | PartiallyFilled => Init.Byte.x31
  | Filled => Init.Byte.x32
  | Canceled => Init.Byte.x34
  | Replaced => Init.Byte.x35
  | Rejected => Init.Byte.x38
  end.

Section builder.
Context (system : nat → Z).

Definition currentTimeNanos (b : ExecReportBuilder) : Z * ExecReportBuilder :=
  (u64 (system (time_reads b)), mkExecReportBuilder (next_exec_id_ b) (S (time_reads b))).

(** [std::to_string(next_exec_id_++)]. *)
Definition generateExecId (b : ExecReportBuilder) : list byte * ExecReportBuilder :=
  (chars (pretty (next_exec_id_ b)), mkExecReportBuilder (u64 (next_exec_id_ b + 1)) (time_reads b)).

Definition buildExecutionReportNew (b : ExecReportBuilder) (event : EngineEvent) (uuid : Z)
    : option (list byte * ExecReportBuilder) :=
  match event with
  | OrderAccepted order_id cl_ord_id _ security_id side price quantity order_type time_in_force =>
      let '(now, b) := currentTimeNanos b in
      let '(exec_id, b) := generateExecId b in
      let msg :=
        ExecutionReportNew522.mk 0 uuid (writeFixedString exec_id 40) (replicate 20 Init.Byte.x00)
          (writeFixedString cl_ord_id 20) 0 order_id (mantissa price) 0 now now 0 (replicate 5 Init.Byte.x00)
          security_id (u32 quantity) 0 0 (OrderType_to_u8 order_type) (Side_to_u8 side)
          (TimeInForce_to_u8 time_in_force) 0 Init.Byte.x00 Init.Byte.x00 0 0 0 0 in
      buf ← encode_vec msg; Some (buf, b)
  | _ => None
  end.

Definition buildExecutionReportReject (b : ExecReportBuilder) (event : EngineEvent) (uuid : Z)
    : option (list byte * ExecReportBuilder) :=
  match event with
  | OrderRejected cl_ord_id _ _ reject_reason_code =>
      let '(now, b) := currentTimeNanos b in
      let '(exec_id, b) := generateExecId b in
      let msg :=
        ExecutionReportReject523.mk 0 uuid (writeFixedString exec_id 40) (replicate 20 Init.Byte.x00)
          (writeFixedString cl_ord_id 20) 0 0 0 0 now now 0 (replicate 5 Init.Byte.x00) 0 0 0 0 reject_reason_code
          0 0 0 0 Init.Byte.x00 Init.Byte.x00 0 0 0 Init.Byte.x38 Init.Byte.x38 0 in
      buf ← encode_vec msg; Some (buf, b)
  | _ => None
  end.

Definition buildExecutionReportFill (b : ExecReportBuilder) (event : EngineEvent) (uuid : Z) (is_maker : bool)
    : option (list byte * ExecReportBuilder) :=
  match event with
  | OrderFilled _ security_id trade_price trade_qty aggressor_side
      maker_order_id maker_cl_ord_id _ maker_cum_qty maker_leaves_qty maker_ord_status
      taker_order_id taker_cl_ord_id _ taker_cum_qty taker_leaves_qty taker_ord_status =>
      let order_id := if is_maker then maker_order_id else taker_order_id in
      let cl_ord_id := if is_maker then maker_cl_ord_id else taker_cl_ord_id in
      let cum_qty := if is_maker then maker_cum_qty else taker_cum_qty in
      let leaves_qty := if is_maker then maker_leaves_qty else taker_leaves_qty in
      let side := if is_maker then Side_to_u8 (if bool_decide (aggressor_side = Buy) then Sell else Buy)
        else Side_to_u8 aggressor_side in
      let aggressor := if is_maker then 0 else 1 in
      let ord_status := if is_maker then maker_ord_status else taker_ord_status in
      let '(now, b) := currentTimeNanos b in
      let '(exec_id, b) := generateExecId b in
      let msg :=
        ExecutionReportTradeOutright525.mk 0 uuid (writeFixedString exec_id 40) (replicate 20 Init.Byte.x00)
          (writeFixedString cl_ord_id 20) 0 order_id (mantissa trade_price) 0 now now 0 (u32 trade_qty)
          (mantissa trade_price) (replicate 5 Init.Byte.x00) security_id 0 (u32 cum_qty) (u32 leaves_qty) 0 0 0 0
          0 side 0 0 Init.Byte.x00 Init.Byte.x00 0 0 0 (ordStatusToChar ord_status) Init.Byte.x46 aggressor 0
          (mantissa trade_price) (u32 trade_qty) in
      buf ← encode_vec msg; Some (buf, b)
  | _ => None
  end.

Definition buildExecutionReportCancel (b : ExecReportBuilder) (event : EngineEvent) (uuid : Z)
    : option (list byte * ExecReportBuilder) :=
  match event with
  | OrderCancelled order_id cl_ord_id _ security_id cum_qty _ =>
      let '(now, b) := currentTimeNanos b in
      let '(exec_id, b) := generateExecId b in
      let msg :=
        ExecutionReportCancel534.mk 0 uuid (writeFixedString exec_id 40) (replicate 20 Init.Byte.x00)
          (writeFixedString cl_ord_id 20) 0 order_id 0 0 now now 0 (replicate 5 Init.Byte.x00) security_id
          (u32 cum_qty) 0 0 0 0 0 0 0 Init.Byte.x00 Init.Byte.x00 0 0 0 Init.Byte.x34 Init.Byte.x34 0 in
      buf ← encode_vec msg; Some (buf, b)
  | _ => None
  end.

Definition buildExecutionReportModify (b : ExecReportBuilder) (event : EngineEvent) (uuid : Z)
    : option (list byte * ExecReportBuilder) :=
  match event with
  | OrderModified order_id cl_ord_id _ security_id new_price new_qty cum_qty _ =>
      let '(now, b) := currentTimeNanos b in
      let '(exec_id, b) := generateExecId b in
      let msg :=
        ExecutionReportModify531.mk 0 uuid (writeFixedString exec_id 40) (replicate 20 Init.Byte.x00)
          (writeFixedString cl_ord_id 20) 0 order_id (mantissa new_price) 0 now now 0 (replicate 5 Init.Byte.x00)
          security_id (u32 cum_qty) (u32 new_qty) 0 0 0 0 0 0 Init.Byte.x00 Init.Byte.x00 0 0 0 Init.Byte.x30
          Init.Byte.x35 0 in
      buf ← encode_vec msg; Some (buf, b)
  | _ => None
  end.

Definition buildExecutionReportElimination (b : ExecReportBuilder) (event : EngineEvent) (uuid : Z)
    : option (list byte * ExecReportBuilder) :=
  match event with
  | OrderAccepted order_id cl_ord_id _ security_id side price quantity order_type time_in_force =>
      let '(now, b) := currentTimeNanos b in
      let '(exec_id, b) := generateExecId b in
      let msg :=
        ExecutionReportElimination524.mk 0 uuid (writeFixedString exec_id 40) (replicate 20 Init.Byte.x00)
          (writeFixedString cl_ord_id 20) 0 order_id (mantissa price) 0 now now 0 (replicate 5 Init.Byte.x00)
          security_id 0 (u32 quantity) 0 0 (OrderType_to_u8 order_type) (Side_to_u8 side)
          (TimeInForce_to_u8 time_in_force) 0 Init.Byte.x00 Init.Byte.x00 0 0 0 Init.Byte.x43 Init.Byte.x43 0 in
      buf ← encode_vec msg; Some (buf, b)
  | _ => None
  end.

Definition buildOrderCancelReject (b : ExecReportBuilder) (event : EngineEvent) (uuid : Z)
    : option (list byte * ExecReportBuilder) :=
  match event with
  | OrderCancelRejected order_id cl_ord_id _ reject_reason_code _ =>
      let '(now, b) := currentTimeNanos b in
      let '(exec_id, b) := generateExecId b in
      let msg :=
        OrderCancelReject535.mk 0 uuid (writeFixedString exec_id 40) (replicate 20 Init.Byte.x00)
          (writeFixedString cl_ord_id 20) 0 order_id now now 0 (replicate 5 Init.Byte.x00) reject_reason_code 0 in
      buf ← encode_vec msg; Some (buf, b)
  | _ => None
  end.

Definition buildFromEvent (b : ExecReportBuilder) (event : EngineEvent) (session_uuid : Z)
    : option (list byte * ExecReportBuilder) :=
  match event with
  | OrderAccepted _ _ _ _ _ _ _ _ _ => buildExecutionReportNew b event session_uuid
  | OrderRejected _ _ _ _ => buildExecutionReportReject b event session_uuid
  | OrderFilled _ _ _ _ _ _ _ maker_session_uuid _ _ _ _ _ _ _ _ _ =>
      buildExecutionReportFill b event session_uuid (maker_session_uuid =? session_uuid)
  | OrderCancelled _ _ _ _ _ _ => buildExecutionReportCancel b event session_uuid
  | OrderModified _ _ _ _ _ _ _ _ => buildExecutionReportModify b event session_uuid
  | OrderCancelRejected _ _ _ _ _ => buildOrderCancelReject b event session_uuid
  | BookUpdate _ _ _ _ _ _ _ _ => Some ([], b)
  end.

End builder.
End ExecReportOps.
Import ExecReportOps.

(** ** Fixed-size strings *)
Lemma c_str_take s n : c_str (take n (c_str s)) = take n (c_str s).
Proof.
  revert n. induction s as [|c s IH]; intros n; simpl; [by destruct n |].
  case_decide; [by destruct n |]. destruct n; simpl; [done |]. by rewrite decide_False, IH.
Qed.

Lemma c_str_zeros s k : c_str (c_str s ++ replicate k Init.Byte.x00) = c_str s.
Proof.
  induction s as [|c s IH]; simpl; [by destruct k |]. case_decide; [by destruct k |]. simpl. by rewrite decide_False, IH.
Qed.

(** A field read back is the string up to its terminator, cut to the width of
    the field. *)
Lemma read_write_fixed s n : readFixedString (writeFixedString s n) n = take n (c_str s).
Proof.
  unfold readFixedString, writeFixedString. rewrite take_ge.
  - rewrite <-(c_str_take s n) at 1. rewrite c_str_zeros. apply c_str_take.
  - rewrite length_app, length_replicate, !length_take. lia.
Qed.

Lemma writeFixedString_length s n : length (writeFixedString s n) = n.
Proof. unfold writeFixedString. rewrite length_app, length_replicate, length_take. lia. Qed.

(** A string without zeros. *)
Definition no_nul (s : list byte) : Prop := Forall (λ c, c ≠ Init.Byte.x00) s.

Lemma c_str_no_nul s : no_nul s → c_str s = s.
Proof. induction 1 as [|c s Hc _ IH]; simpl; [done |]. by rewrite decide_False, IH. Qed.

(** ** Decimal execution ids *)
Lemma chars_cons c s : chars (String c s) = Ascii.byte_of_ascii c :: chars s.
Proof. done. Qed.

Lemma digit_not_nul n : Ascii.byte_of_ascii (pretty_N_char n) ≠ Init.Byte.x00.
Proof. unfold pretty_N_char. by repeat case_match. Qed.

Lemma pretty_N_go_digits k x s : (x < 10 ^ N.of_nat k)%N → no_nul (chars s) →
  (length (chars (pretty_N_go x s)) ≤ k + length (chars s))%nat ∧ no_nul (chars (pretty_N_go x s)).
Proof.
  revert x s. induction k as [|k IH]; intros x s Hx Hs.
  - assert (x = 0)%N as -> by (simpl in Hx; lia). by rewrite pretty_N_go_0.
  - destruct (decide (x = 0)%N) as [->|Hx0]; [rewrite pretty_N_go_0; split; [lia | done] |].
    rewrite pretty_N_go_step by lia. destruct (IH (x / 10)%N (String (pretty_N_char (x mod 10)) s)) as [H1 H2].
    + apply N.Div0.div_lt_upper_bound. by rewrite <-N.pow_succ_r', <-Nat2N.inj_succ.
    + rewrite chars_cons. constructor; [apply digit_not_nul | done].
    + split; [|done]. rewrite chars_cons in H1. simpl in H1. lia.
Qed.

Lemma exec_id_digits n : 0 ≤ n < 2 ^ 64 →
  (length (chars (pretty n)) ≤ 20)%nat ∧ no_nul (chars (pretty n)).
Proof.
  intros Hn. destruct n as [|p|p]; [by split; [simpl; lia | repeat constructor] | | lia].
  change (pretty (Z.pos p)) with (pretty_N_go (N.pos p) "").
  destruct (pretty_N_go_digits 20 (N.pos p) "") as [H1 H2]; [|by constructor|].
  - change (10 ^ N.of_nat 20)%N with 100000000000000000000%N. lia.
  - simpl in H1. split; [lia | done].
Qed.

Lemma chars_inj s s' : chars s = chars s' → s = s'.
Proof.
  intros H. apply (f_equal String.string_of_list_byte) in H. unfold chars in H.
  by rewrite !String.string_of_list_byte_of_string in H.
Qed.

Lemma exec_id_field n : 0 ≤ n < 2 ^ 64 →
  readFixedString (writeFixedString (chars (pretty n)) 40) 40 = chars (pretty n).
Proof.
  intros Hn. destruct (exec_id_digits n Hn) as [Hl Hz]. rewrite read_write_fixed, c_str_no_nul by done.
  apply take_ge. lia.
Qed.
