(* ===== verification/ExecReportTheorems.v ===== *)
(** * Theorems about execution reports

    What the receiver of a report recovers from its bytes: the data of the
    engine event the report was built from, and an execution id of its own. *)
From stdpp Require Import pretty.
From S2P Require Import Prelude Types Sbe ILink3 Dispatcher Order Typed ExecReport.
Import ExecReportOps.

(** ** The receiver's view *)

(** Session, execution id, client order id and sending time of a report. *)
Definition report_stamp (m : ILink3Msg) : option (Z * list byte * list byte * Z) :=
  let stamp uuid exec cl t := Some (uuid, readFixedString exec 40, readFixedString cl 20, t) in
  match m with
  | I_ExecutionReportNew522 m => stamp (ExecutionReportNew522.uuid m) (ExecutionReportNew522.execID m)
      (ExecutionReportNew522.clOrdID m) (ExecutionReportNew522.sendingTimeEpoch m)
  | I_ExecutionReportReject523 m => stamp (ExecutionReportReject523.uuid m) (ExecutionReportReject523.execID m)
      (ExecutionReportReject523.clOrdID m) (ExecutionReportReject523.sendingTimeEpoch m)
  | I_ExecutionReportElimination524 m => stamp (ExecutionReportElimination524.uuid m) (ExecutionReportElimination524.execID m)
      (ExecutionReportElimination524.clOrdID m) (ExecutionReportElimination524.sendingTimeEpoch m)
  | I_ExecutionReportTradeOutright525 m => stamp (ExecutionReportTradeOutright525.uuid m) (ExecutionReportTradeOutright525.execID m)
      (ExecutionReportTradeOutright525.clOrdID m) (ExecutionReportTradeOutright525.sendingTimeEpoch m)
  | I_ExecutionReportModify531 m => stamp (ExecutionReportModify531.uuid m) (ExecutionReportModify531.execID m)
      (ExecutionReportModify531.clOrdID m) (ExecutionReportModify531.sendingTimeEpoch m)
  | I_ExecutionReportCancel534 m => stamp (ExecutionReportCancel534.uuid m) (ExecutionReportCancel534.execID m)
      (ExecutionReportCancel534.clOrdID m) (ExecutionReportCancel534.sendingTimeEpoch m)
  | I_OrderCancelReject535 m => stamp (OrderCancelReject535.uuid m) (OrderCancelReject535.execID m)
      (OrderCancelReject535.clOrdID m) (OrderCancelReject535.sendingTimeEpoch m)
  | _ => None
  end.

(** The client order id of an event, on the side of the maker for a fill to it. *)
Definition event_clordid (is_maker : bool) (e : EngineEvent) : ClOrdId :=
  match e with
  | OrderAccepted _ c _ _ _ _ _ _ _ | OrderRejected c _ _ _ | OrderCancelled _ c _ _ _ _
  | OrderModified _ c _ _ _ _ _ _ | OrderCancelRejected _ c _ _ _ => c
  | OrderFilled _ _ _ _ _ _ mc _ _ _ _ _ tc _ _ _ _ => if is_maker then mc else tc
  | BookUpdate _ _ _ _ _ _ _ _ => []
  end.

(** The report carries the event: the fields, cast back to the types of the
    client, are the event's. *)
Definition report_shows (is_maker : bool) (e : EngineEvent) (m : ILink3Msg) : Prop :=
  match e, m with
  | OrderAccepted oid _ _ sid side p q ot tif, I_ExecutionReportNew522 m =>
      ExecutionReportNew522.orderID m = oid ∧ ExecutionReportNew522.securityID m = sid ∧
      Side_of_u8 (ExecutionReportNew522.side m) = side ∧ mkPrice (ExecutionReportNew522.price m) = p ∧
      i32 (ExecutionReportNew522.orderQty m) = q ∧ OrderType_of_u8 (ExecutionReportNew522.ordType m) = ot ∧
      TimeInForce_of_u8 (ExecutionReportNew522.timeInForce m) = tif
  | OrderRejected _ _ _ code, I_ExecutionReportReject523 m =>
      ExecutionReportReject523.ordRejReason m = code ∧
      ExecutionReportReject523.ordStatus m = ordStatusToChar Rejected
  | OrderFilled _ sid px q aggressor moid _ _ mcum mleaves mst toid _ _ tcum tleaves tst,
    I_ExecutionReportTradeOutright525 m =>
      ExecutionReportTradeOutright525.orderID m = (if is_maker then moid else toid) ∧
      ExecutionReportTradeOutright525.securityID m = sid ∧
      mkPrice (ExecutionReportTradeOutright525.lastPx m) = px ∧ i32 (ExecutionReportTradeOutright525.lastQty m) = q ∧
      i32 (ExecutionReportTradeOutright525.cumQty m) = (if is_maker then mcum else tcum) ∧
      i32 (ExecutionReportTradeOutright525.leavesQty m) = (if is_maker then mleaves else tleaves) ∧
      ExecutionReportTradeOutright525.ordStatus m = ordStatusToChar (if is_maker then mst else tst) ∧
      ExecutionReportTradeOutright525.aggressorIndicator m = (if is_maker then 0 else 1) ∧
      Side_of_u8 (ExecutionReportTradeOutright525.side m) =
        (if is_maker then if bool_decide (aggressor = Buy) then Sell else Buy else aggressor)
  | OrderCancelled oid _ _ sid cum _, I_ExecutionReportCancel534 m =>
      ExecutionReportCancel534.orderID m = oid ∧ ExecutionReportCancel534.securityID m = sid ∧
      i32 (ExecutionReportCancel534.cumQty m) = cum ∧ ExecutionReportCancel534.ordStatus m = ordStatusToChar Canceled
  | OrderModified oid _ _ sid p q cum _, I_ExecutionReportModify531 m =>
      ExecutionReportModify531.orderID m = oid ∧ ExecutionReportModify531.securityID m = sid ∧
      mkPrice (ExecutionReportModify531.price m) = p ∧ i32 (ExecutionReportModify531.orderQty m) = q ∧
      i32 (ExecutionReportModify531.cumQty m) = cum ∧ ExecutionReportModify531.execType m = ordStatusToChar Replaced
  | OrderCancelRejected oid _ _ code _, I_OrderCancelReject535 m =>
      OrderCancelReject535.orderID m = oid ∧ OrderCancelReject535.cxlRejReason m = code
  | _, _ => False
  end.

(** The bytes are a complete report of the event for the session, stamped with
    execution id [n] and time [t]. *)
Definition is_report (is_maker : bool) (e : EngineEvent) (uuid n t : Z) (out : list byte) : Prop :=
  ∃ m, dispatchILink3Message out (length out) = Some (Some m) ∧ report_shows is_maker e m ∧
    report_stamp m = Some (uuid, chars (pretty n), take 20 (c_str (event_clordid is_maker e)), t).

(** ** Building *)
Section building.
Context (system : nat → Z).

Definition builder_ok (b : ExecReportBuilder) : Prop := next_exec_id_ b ∈u 64.
Definition builder_next (b : ExecReportBuilder) : ExecReportBuilder :=
  mkExecReportBuilder (u64 (next_exec_id_ b + 1)) (S (time_reads b)).
Definition builder_time (b : ExecReportBuilder) : Z := u64 (system (time_reads b)).

(** The message of a builder is well formed when its fields are. *)
Ltac solve_wf :=
  repeat match goal with H : side_ok _ |- _ => apply side_ok_u8 in H
                       | H : type_ok _ |- _ => apply type_ok_u8 in H
                       | H : tif_ok _ |- _ => apply tif_ok_u8 in H end;
  hnf; cbn -[Z.pow wrapu writeFixedString replicate];
  rewrite ?writeFixedString_length, ?length_replicate;
  repeat match goal with |- context [wrapu ?w ?z] =>
    pose proof (wrapu_range w z ltac:(lia)); generalize dependent (wrapu w z); intros end;
  repeat split; first [lia | done].

(** The size of a report. *)
Definition report_sized (out : list byte) : Prop := (8 ≤ length out ≤ 300)%nat.

(** A builder whose message [msg] is well formed and shows the event. *)
Definition built (is_maker : bool) (e : EngineEvent) (b : ExecReportBuilder) (uuid : Z)
    (r : option (list byte * ExecReportBuilder)) : Prop :=
  ∃ out, r = Some (out, builder_next b) ∧ report_sized out ∧ is_report is_maker e uuid (next_exec_id_ b) (builder_time b) out.

(** Builds the message, dispatches its encoding and reads its fields back. *)
Ltac solve_built :=
  cbn [currentTimeNanos generateExecId next_exec_id_ time_reads];
  let Hw := fresh "Hw" in let out := fresh "out" in
  let Hl := fresh "Hl" in let Ht := fresh "Ht" in let Hd := fresh "Hd" in
  match goal with |- built _ _ _ _ (encode_vec ?m ≫= _) =>
    assert (sbe_wf m) as Hw by solve_wf;
    destruct (encode_vec_ok m Hw) as (out & -> & Hl & Ht & Hd)
  end;
  exists out; split; [done |]; split; [unfold report_sized; rewrite Hl; split; by apply Nat.leb_le|];
  unfold is_report, dispatchILink3Message; rewrite Hl, Ht; cbn in Hd; cbn -[wrapu wraps writeFixedString]; rewrite Hd;
  eexists; split; [done |]; split;
  [cbn -[wrapu wraps]; split_and!; rewrite ?wraps_wrapu, ?wraps_small by lia;
     try first [done | by apply side_ok_of | by apply type_ok_of | by apply tif_ok_of]
  |cbn -[writeFixedString readFixedString wrapu pretty chars]; by rewrite exec_id_field, read_write_fixed].

Lemma build_new_ok b e uuid :
  event_ok e → builder_ok b → uuid ∈u 64 →
  match e with
  | OrderAccepted _ _ _ _ _ _ _ _ _ => built false e b uuid (buildExecutionReportNew system b e uuid)
  | _ => True
  end.
Proof.
  intros He Hb Hu. destruct e as [oid c u sid s p q ot tif| | | | | |]; try exact I. cbn in He. destruct p as [px]. cbn in He.
  destruct_and!. unfold buildExecutionReportNew. solve_built.
Qed.

Lemma build_reject_ok b e uuid :
  event_ok e → builder_ok b → uuid ∈u 64 →
  match e with
  | OrderRejected _ _ _ _ => built false e b uuid (buildExecutionReportReject system b e uuid)
  | _ => True
  end.
Proof.
  intros He Hb Hu. destruct e as [|c u reason code| | | | |]; try exact I. cbn in He.
  destruct_and!. unfold buildExecutionReportReject. solve_built.
Qed.

Lemma build_fill_ok b e uuid is_maker :
  event_ok e → builder_ok b → uuid ∈u 64 →
  match e with
  | OrderFilled _ _ _ _ _ _ _ _ _ _ _ _ _ _ _ _ _ => built is_maker e b uuid (buildExecutionReportFill system b e uuid is_maker)
  | _ => True
  end.
Proof.
  intros He Hb Hu. destruct e as [| |tid sid [px] q aggr moid mc mu mcum mleaves mst toid tc tu tcum tleaves tst| | | |];
    try exact I. cbn in He.
  destruct_and!. unfold buildExecutionReportFill.
  assert (side_ok (if bool_decide (aggr = Buy) then Sell else Buy)) as Hside
    by (case_bool_decide; [exists 2 | exists 1]; split; [lia | done | lia | done]).
  destruct is_maker; cbv zeta iota; solve_built.
Qed.

Lemma build_cancel_ok b e uuid :
  event_ok e → builder_ok b → uuid ∈u 64 →
  match e with
  | OrderCancelled _ _ _ _ _ _ => built false e b uuid (buildExecutionReportCancel system b e uuid)
  | _ => True
  end.
Proof.
  intros He Hb Hu. destruct e as [| | |oid c u sid cum st| | |]; try exact I. cbn in He.
  destruct_and!. unfold buildExecutionReportCancel. solve_built.
Qed.

Lemma build_modify_ok b e uuid :
  event_ok e → builder_ok b → uuid ∈u 64 →
  match e with
  | OrderModified _ _ _ _ _ _ _ _ => built false e b uuid (buildExecutionReportModify system b e uuid)
  | _ => True
  end.
Proof.
  intros He Hb Hu. destruct e as [| | | |oid c u sid [px] q cum leaves| |]; try exact I. cbn in He.
  destruct_and!. unfold buildExecutionReportModify. solve_built.
Qed.

Lemma build_cancel_reject_ok b e uuid :
  event_ok e → builder_ok b → uuid ∈u 64 →
  match e with
  | OrderCancelRejected _ _ _ _ _ => built false e b uuid (buildOrderCancelReject system b e uuid)
  | _ => True
  end.
Proof.
  intros He Hb Hu. destruct e as [| | | | |oid c u code reason|]; try exact I. cbn in He.
  destruct_and!. unfold buildOrderCancelReject. solve_built.
Qed.

(** The side a report built from an event alone is for. *)
Definition event_side (e : EngineEvent) (uuid : Z) : bool :=
  match e with
  | OrderFilled _ _ _ _ _ _ _ maker_session_uuid _ _ _ _ _ _ _ _ _ => maker_session_uuid =? uuid
  | _ => false
  end.
Definition reportable (e : EngineEvent) : bool :=
  match e with BookUpdate _ _ _ _ _ _ _ _ => false | _ => true end.

Lemma build_from_event_ok b e uuid :
  event_ok e → builder_ok b → uuid ∈u 64 → reportable e = true →
  built (event_side e uuid) e b uuid (buildFromEvent system b e uuid).
Proof.
  intros He Hb Hu Hr.
  pose proof (build_new_ok b e uuid He Hb Hu). pose proof (build_reject_ok b e uuid He Hb Hu).
  pose proof (build_fill_ok b e uuid (event_side e uuid) He Hb Hu). pose proof (build_cancel_ok b e uuid He Hb Hu).
  pose proof (build_modify_ok b e uuid He Hb Hu). pose proof (build_cancel_reject_ok b e uuid He Hb Hu).
  by destruct e.
Qed.

(** A sequence of events, each reported to a session. *)
Fixpoint report_run (b : ExecReportBuilder) (l : list (EngineEvent * Z)) : option (list (list byte) * ExecReportBuilder) :=
  match l with
  | [] => Some ([], b)
  | (e, uuid) :: l =>
      '(out, b) ← buildFromEvent system b e uuid; '(outs, b) ← report_run b l; Some (out :: outs, b)
  end.

(** The execution id the receiver sees. *)
Definition seen_exec_id (out : list byte) : option (list byte) :=
  m ← dispatchILink3Message out (length out); m ← m; '(_, id, _, _) ← report_stamp m; Some id.

Definition to_report (eu : EngineEvent * Z) : Prop := event_ok eu.1 ∧ eu.2 ∈u 64 ∧ reportable eu.1 = true.

Lemma is_report_seen mk e uuid n t out : is_report mk e uuid n t out → seen_exec_id out = Some (chars (pretty n)).
Proof. intros (m & Hd & _ & Hs). unfold seen_exec_id. rewrite Hd. simpl. by rewrite Hs. Qed.

Lemma report_run_ok l b :
  Forall to_report l → builder_ok b → next_exec_id_ b + Z.of_nat (length l) < 2 ^ 64 →
  ∃ outs b', report_run b l = Some (outs, b') ∧ length outs = length l ∧ Forall report_sized outs ∧
    ∀ i e uuid, l !! i = Some (e, uuid) → ∃ out, outs !! i = Some out ∧
      is_report (event_side e uuid) e uuid (next_exec_id_ b + Z.of_nat i) (u64 (system (time_reads b + i)%nat)) out.
Proof.
  revert b. induction l as [|[e uuid] l IH]; intros b Hl Hb Hn; simpl in *; [by eexists _, _ |].
  apply Forall_cons in Hl as [(He & Hu & Hr) Hl]. simpl in *.
  destruct (build_from_event_ok b e uuid He Hb Hu Hr) as (out & -> & Hsz & Hrep). simpl. unfold builder_ok in Hb.
  destruct (IH (builder_next b) Hl) as (outs & b' & -> & Hlen & Hszs & Hi).
  - unfold builder_ok. cbn. by apply wrapu_range.
  - cbn. rewrite wrapu_small by lia. lia.
  - simpl. eexists _, _. split; [done |]. split; [simpl; by rewrite Hlen |]. split; [by constructor|].
    intros [|i] e' uuid' Hlk; simpl in *.
    + simplify_eq. exists out. rewrite Z.add_0_r, Nat.add_0_r. done.
    + destruct (Hi i _ _ Hlk) as (out' & Ho & Hr'). exists out'. split; [done |].
      cbn in Hr'. rewrite wrapu_small in Hr' by lia.
      replace (next_exec_id_ b + Z.of_nat (S i)) with (next_exec_id_ b + 1 + Z.of_nat i) by lia.
      by rewrite <-Nat.add_succ_comm.
Qed.

(** ** Properties *)

(** C24: execution reports round trip. Any sequence of events with fields in
    range, each reported to some session, is encoded without a buffer error; the
    bytes of every report dispatch to the message type of its event, show the
    event's data after the receiver's casts, and carry the session, the
    execution id, the client order id cut to 20 bytes and one clock reading; no
    two reports show the same execution id. *)
Theorem exec_reports_roundtrip l b :
  Forall to_report l → builder_ok b → next_exec_id_ b + Z.of_nat (length l) < 2 ^ 64 →
  ∃ outs b', report_run b l = Some (outs, b') ∧ length outs = length l ∧ NoDup (seen_exec_id <$> outs) ∧
    ∀ i e uuid, l !! i = Some (e, uuid) → ∃ out, outs !! i = Some out ∧
      is_report (event_side e uuid) e uuid (next_exec_id_ b + Z.of_nat i) (u64 (system (time_reads b + i)%nat)) out.
Proof.
  intros Hl Hb Hn. destruct (report_run_ok l b Hl Hb Hn) as (outs & b' & Hrun & Hlen & _ & Hi).
  exists outs, b'. split_and!; try done. apply NoDup_alt. intros i j x Hx Hy.
  assert (∀ k y, (seen_exec_id <$> outs) !! k = Some y → y = Some (chars (pretty (next_exec_id_ b + Z.of_nat k)))) as Hk.
  { intros k y Hk%list_lookup_fmap_Some. destruct Hk as (out & -> & Ho).
    destruct (lookup_lt_is_Some_2 l k) as [[e u] Hlk]; [rewrite <-Hlen; by eapply lookup_lt_Some |].
    destruct (Hi _ _ _ Hlk) as (out' & Ho' & Hr). simplify_eq. by eapply is_report_seen. }
  pose proof (Hk _ _ Hx) as H1. pose proof (Hk _ _ Hy) as H2. rewrite H1 in H2. injection H2 as H2%chars_inj%(inj pretty). lia.
Qed.

End building.

Definition demo_events : list (EngineEvent * Z) :=
  [(OrderAccepted 4 (chars "ord-1") 7 1 Buy (mkPrice (-100)) 5 Limit IOC, 7);
   (OrderFilled 9 1 (mkPrice (-100)) 3 Buy 2 (chars "rest") 8 3 0 Filled 4 (chars "ord-1") 7 3 2 PartiallyFilled, 8);
   (OrderCancelled 4 (chars "ord-1") 7 1 3 Canceled, 7)].

Lemma exec_reports_roundtrip_witness :
  ∃ outs b', report_run (λ n, Z.of_nat n) ExecReportBuilder_init demo_events = Some (outs, b') ∧ length outs = 3%nat ∧
    NoDup (seen_exec_id <$> outs).
Proof.
  destruct (exec_reports_roundtrip (λ n, Z.of_nat n) demo_events ExecReportBuilder_init) as (outs & b' & H1 & H2 & H3 & _).
  - assert (side_ok Buy ∧ type_ok Limit ∧ tif_ok IOC) as (? & ? & ?)
      by (split_and!; [exists 1 | exists 2 | exists 3]; done).
    unfold demo_events. repeat (apply Forall_cons_2; [unfold to_report | ]); try apply Forall_nil_2;
      split_and!; cbn; split_and?; done || lia.
  - split; cbn; lia.
  - cbn. lia.
  - exists outs, b'. split; [exact H1 | split; [exact H2 | exact H3]].
Defined.
