(* ===== verification/Gateway.v ===== *)
(** * Order entry gateway (src/gateway/order_entry_gateway.h and .cpp)

    The gateway decodes application messages on the network side, validates them
    and queues commands; the engine side drains the queue through the matching
    engine, turns the events into reports for the sessions concerned and keeps
    the sessions' net positions. The two sides are methods of one object whose
    state is threaded here; the queue is FIFO. The matching engine is any
    implementation of [IMatchingEngine], with its state and the readings of its
    clock passed along. *)
From S2P Require Import Prelude Types Sbe ILink3 Order Engine InstrumentManager Validator Risk ExecReport.
Import InstrumentManagerOps ValidatorOps RiskOps ExecReportOps.

Inductive OrderCommandType := NewOrder | CancelOrder | ModifyOrder.

(** [oc_order] is a [unique_ptr]: [None] is null. *)
Record OrderCommand := mkOrderCommand {
  oc_type : OrderCommandType;
  oc_session_uuid : Z;
  oc_order : option Order;
  cancel_order_id : OrderId;
  oc_security_id : SecurityId;
  oc_cl_ord_id : ClOrdId;
  oc_order_request_id : Z;
  oc_new_price : Price;
  oc_new_qty : Quantity;
  oc_new_cl_ord_id : ClOrdId;
}.

Record OrderResponse := mkOrderResponse { resp_session_uuid : Z; sbe_message : list byte }.

Record OrderEntryGateway := mkGateway {
  instrument_mgr_ : InstrumentManager;
  risk_manager_ : RiskManager;
  exec_builder_ : ExecReportBuilder;
  command_queue_ : list OrderCommand;
}.

Module GatewayOps.

Definition Gateway_init (m : InstrumentManager) (risk_config : RiskConfig) : OrderEntryGateway :=
  mkGateway m (RiskManager_init risk_config) ExecReportBuilder_init [].

(** ** Decoding *)
Definition decodeNewOrderSingle (session_uuid : Z) (data : buffer) (len : nat) : option OrderCommand :=
  sbe_msg ← NewOrderSingle514.decode data 0;
  let order := mkOrder 0 (readFixedString (NewOrderSingle514.clOrdID sbe_msg) 20) session_uuid
    (NewOrderSingle514.securityID sbe_msg) (Side_of_u8 (NewOrderSingle514.side sbe_msg))
    (OrderType_of_u8 (NewOrderSingle514.ordType sbe_msg)) (TimeInForce_of_u8 (NewOrderSingle514.timeInForce sbe_msg))
    (mkPrice (NewOrderSingle514.price sbe_msg)) (mkPrice (NewOrderSingle514.stopPx sbe_msg))
    (i32 (NewOrderSingle514.orderQty sbe_msg)) 0 (i32 (NewOrderSingle514.displayQty sbe_msg))
    (i32 (NewOrderSingle514.minQty sbe_msg)) 0 New (NewOrderSingle514.orderRequestID sbe_msg) None None in
  Some (mkOrderCommand NewOrder session_uuid (Some order) 0 (NewOrderSingle514.securityID sbe_msg) [] 0 (mkPrice 0) 0 []).

Definition decodeCancelRequest (session_uuid : Z) (data : buffer) (len : nat) : option OrderCommand :=
  sbe_msg ← OrderCancelRequest516.decode data 0;
  Some (mkOrderCommand CancelOrder session_uuid None (OrderCancelRequest516.orderID sbe_msg)
    (OrderCancelRequest516.securityID sbe_msg) (readFixedString (OrderCancelRequest516.clOrdID sbe_msg) 20)
    (OrderCancelRequest516.orderRequestID sbe_msg) (mkPrice 0) 0 []).

Definition decodeModifyRequest (session_uuid : Z) (data : buffer) (len : nat) : option OrderCommand :=
  sbe_msg ← OrderCancelReplaceRequest515.decode data 0;
  let cl := readFixedString (OrderCancelReplaceRequest515.clOrdID sbe_msg) 20 in
  Some (mkOrderCommand ModifyOrder session_uuid None (OrderCancelReplaceRequest515.orderID sbe_msg)
    (OrderCancelReplaceRequest515.securityID sbe_msg) cl (OrderCancelReplaceRequest515.orderRequestID sbe_msg)
    (mkPrice (OrderCancelReplaceRequest515.price sbe_msg)) (i32 (OrderCancelReplaceRequest515.orderQty sbe_msg)) cl).

(** ** The network side; [now] is the reading of the steady clock *)
Definition push (g : OrderEntryGateway) (cmd : OrderCommand) : OrderEntryGateway :=
  mkGateway (instrument_mgr_ g) (risk_manager_ g) (exec_builder_ g) (command_queue_ g ++ [cmd]).
Definition set_risk (g : OrderEntryGateway) (r : RiskManager) : OrderEntryGateway :=
  mkGateway (instrument_mgr_ g) r (exec_builder_ g) (command_queue_ g).

Definition reject_order (ok : bool) (o : Order) : Order := if ok then o else set_status Rejected o.
Definition set_order (cmd : OrderCommand) (o : Order) : OrderCommand :=
  mkOrderCommand (oc_type cmd) (oc_session_uuid cmd) (Some o) (cancel_order_id cmd) (oc_security_id cmd) (oc_cl_ord_id cmd)
    (oc_order_request_id cmd) (oc_new_price cmd) (oc_new_qty cmd) (oc_new_cl_ord_id cmd).

Definition onApplicationMessage (g : OrderEntryGateway) (now : Z) (session_uuid : Z) (templateId : Z)
    (data : buffer) (len : nat) : option OrderEntryGateway :=
  if templateId =? NewOrderSingle514.TEMPLATE_ID then
    cmd ← decodeNewOrderSingle session_uuid data len;
    order ← oc_order cmd;
    val_result ← validateNewOrder (instrument_mgr_ g) order;
    let order := reject_order (valid val_result) order in
    let '(rate_result, risk) := checkRate (risk_manager_ g) now session_uuid in
    let order := reject_order (passed rate_result) order in
    let risk_result := checkOrder risk order in
    let order := reject_order (passed risk_result) order in
    Some (push (set_risk g risk) (set_order cmd order))
  else if templateId =? OrderCancelRequest516.TEMPLATE_ID then
    cmd ← decodeCancelRequest session_uuid data len;
    _ ← validateCancel (instrument_mgr_ g) (cancel_order_id cmd) (oc_security_id cmd);
    Some (push g cmd)
  else if templateId =? OrderCancelReplaceRequest515.TEMPLATE_ID then
    cmd ← decodeModifyRequest session_uuid data len;
    _ ← validateModify (instrument_mgr_ g) (cancel_order_id cmd) (oc_security_id cmd) (oc_new_price cmd) (oc_new_qty cmd);
    Some (push g cmd)
  else Some g.

Definition hasPendingCommands (g : OrderEntryGateway) : bool := negb (bool_decide (command_queue_ g = [])).

(** ** The engine side *)
Section engine.
Context {E : Type} (ime : IMatchingEngine E).
Context (system engine_clock : nat → Z).

(** What [processCommands] works on: the engine, the reads of the engine's clock
    so far, the report builder, the risk manager, the responses and the events
    handed to market data. *)
Record Work := mkWork {
  w_engine : E;
  w_reads : nat;
  w_builder : ExecReportBuilder;
  w_risk : RiskManager;
  responses : list OrderResponse;
  engine_events : list EngineEvent;
}.

(** [responses.push_back({uuid, exec_builder_.build...(...)})]. *)
Definition respond (uuid : Z) (build : ExecReportBuilder → option (list byte * ExecReportBuilder)) (w : Work) : option Work :=
  '(out, b) ← build (w_builder w);
  Some (mkWork (w_engine w) (w_reads w) b (w_risk w) (responses w ++ [mkOrderResponse uuid out]) (engine_events w)).

(** The branch for a fill: a report to each side, then the positions. *)
Definition respond_fill (e : EngineEvent) (w : Work) : option Work :=
  match e with
  | OrderFilled _ _ _ trade_qty aggressor_side _ _ maker_session_uuid _ _ _ _ _ taker_session_uuid _ _ _ =>
      w ← respond maker_session_uuid (λ b, buildExecutionReportFill system b e maker_session_uuid true) w;
      w ← respond taker_session_uuid (λ b, buildExecutionReportFill system b e taker_session_uuid false) w;
      let r := onFill (w_risk w) maker_session_uuid (if bool_decide (aggressor_side = Buy) then Sell else Buy) trade_qty in
      let r := onFill r taker_session_uuid aggressor_side trade_qty in
      Some (mkWork (w_engine w) (w_reads w) (w_builder w) r (responses w) (engine_events w))
  | _ => Some w
  end.

(** The event loops of the three cases of the command switch. *)
Definition visit_new (w : Work) (e : EngineEvent) : option Work :=
  match e with
  | OrderAccepted _ _ session_uuid _ _ _ _ _ _ =>
      respond session_uuid (λ b, buildExecutionReportNew system b e session_uuid) w
  | OrderRejected _ session_uuid _ _ => respond session_uuid (λ b, buildExecutionReportReject system b e session_uuid) w
  | OrderFilled _ _ _ _ _ _ _ _ _ _ _ _ _ _ _ _ _ => respond_fill e w
  | OrderCancelled _ _ session_uuid _ _ _ => respond session_uuid (λ b, buildExecutionReportCancel system b e session_uuid) w
  | OrderModified _ _ session_uuid _ _ _ _ _ => respond session_uuid (λ b, buildExecutionReportModify system b e session_uuid) w
  | OrderCancelRejected _ _ session_uuid _ _ => respond session_uuid (λ b, buildOrderCancelReject system b e session_uuid) w
  | BookUpdate _ _ _ _ _ _ _ _ => Some w
  end.

Definition visit_cancel (w : Work) (e : EngineEvent) : option Work :=
  match e with
  | OrderCancelled _ _ session_uuid _ _ _ => respond session_uuid (λ b, buildExecutionReportCancel system b e session_uuid) w
  | OrderCancelRejected _ _ session_uuid _ _ => respond session_uuid (λ b, buildOrderCancelReject system b e session_uuid) w
  | _ => Some w
  end.

Definition visit_modify (w : Work) (e : EngineEvent) : option Work :=
  match e with
  | OrderModified _ _ session_uuid _ _ _ _ _ => respond session_uuid (λ b, buildExecutionReportModify system b e session_uuid) w
  | OrderCancelRejected _ _ session_uuid _ _ => respond session_uuid (λ b, buildOrderCancelReject system b e session_uuid) w
  | OrderFilled _ _ _ _ _ _ _ _ _ _ _ _ _ _ _ _ _ => respond_fill e w
  | _ => Some w
  end.

Fixpoint for_each (visit : Work → EngineEvent → option Work) (w : Work) (events : list EngineEvent) : option Work :=
  match events with
  | [] => Some w
  | e :: events => w ← visit w e; for_each visit w events
  end.

(** Engine state and events of a call, the events appended to [engine_events]. *)
Definition after_call (w : Work) (reads : nat) (r : E * list EngineEvent) : Work :=
  mkWork r.1 reads (w_builder w) (w_risk w) (responses w) (engine_events w ++ r.2).

Definition process_command (w : Work) (cmd : OrderCommand) : option Work :=
  match oc_type cmd with
  | NewOrder =>
      order ← oc_order cmd;
      if bool_decide (status order = Rejected) then
        let reject_event := OrderRejected (cl_ord_id order) (oc_session_uuid cmd) "Pre-trade risk check failed" 3 in
        respond (oc_session_uuid cmd) (λ b, buildExecutionReportReject system b reject_event (oc_session_uuid cmd)) w
      else
        r ← ime_submitOrder _ ime (w_engine w) (engine_clock (w_reads w)) order;
        for_each visit_new (after_call w (S (w_reads w)) r) r.2
  | CancelOrder =>
      r ← ime_cancelOrder _ ime (w_engine w) (cancel_order_id cmd) (oc_security_id cmd) (oc_session_uuid cmd);
      for_each visit_cancel (after_call w (w_reads w) r) r.2
  | ModifyOrder =>
      r ← ime_modifyOrder _ ime (w_engine w) (cancel_order_id cmd) (oc_security_id cmd) (oc_new_price cmd) (oc_new_qty cmd)
            (oc_new_cl_ord_id cmd);
      for_each visit_modify (after_call w (w_reads w) r) r.2
  end.

Fixpoint process_queue (w : Work) (queue : list OrderCommand) : option Work :=
  match queue with
  | [] => Some w
  | cmd :: queue => w ← process_command w cmd; process_queue w queue
  end.

(** One call of [processCommands] drains the queue: the new gateway, engine and
    clock, the responses and the events. *)
Definition processCommands (g : OrderEntryGateway) (e : E) (reads : nat)
    : option (OrderEntryGateway * E * nat * list OrderResponse * list EngineEvent) :=
  w ← process_queue (mkWork e reads (exec_builder_ g) (risk_manager_ g) [] []) (command_queue_ g);
  Some (mkGateway (instrument_mgr_ g) (w_risk w) (w_builder w) [], w_engine w, w_reads w, responses w, engine_events w).

(** ** Reports outside the command loop *)
Definition buildResponse (g : OrderEntryGateway) (event : EngineEvent) (session_uuid : Z)
    : option (OrderResponse * OrderEntryGateway) :=
  '(out, b) ← buildFromEvent system (exec_builder_ g) event session_uuid;
  Some (mkOrderResponse session_uuid out, mkGateway (instrument_mgr_ g) (risk_manager_ g) b (command_queue_ g)).

Definition buildPreEngineReject (g : OrderEntryGateway) (session_uuid : Z) (cl_ord_id : ClOrdId) (security_id : SecurityId)
    (reject_reason : Z) (reason : string) : option (OrderResponse * OrderEntryGateway) :=
  '(out, b) ← buildExecutionReportReject system (exec_builder_ g)
     (OrderRejected cl_ord_id session_uuid reason reject_reason) session_uuid;
  Some (mkOrderResponse session_uuid out, mkGateway (instrument_mgr_ g) (risk_manager_ g) b (command_queue_ g)).

End engine.
End GatewayOps.
