(* ===== verification/GatewayTheorems.v ===== *)
(** * Theorems about the order entry gateway

    The composition of the gateway with the full matching engine: wire messages
    in, execution reports out. *)
From stdpp Require Import pretty.
From S2P Require Import Prelude Types Sbe ILink3 Dispatcher OrderedMap Order PriceLevel OrderBook BookSpec BookWf BookRefine BookRefineOps BookInv BookCorrect BookFrame Engine EngineTheorems Typed Instrument InstrumentManager Validator Risk ExecReport ExecReportTheorems Gateway.
Import InstrumentManagerOps ValidatorOps RiskOps ExecReportOps GatewayOps.

(** ** Who is told about an event

    The session the event names: of the reject of an unknown order that is 0, a
    session nobody has. *)
Definition deliveries (e : EngineEvent) : list (EngineEvent * Z * bool) :=
  match e with
  | OrderAccepted _ _ u _ _ _ _ _ _ | OrderRejected _ u _ _ | OrderCancelled _ _ u _ _ _
  | OrderModified _ _ u _ _ _ _ _ | OrderCancelRejected _ _ u _ _ => [(e, u, false)]
  | OrderFilled _ _ _ _ _ _ _ mu _ _ _ _ _ tu _ _ _ => [(e, mu, true); (e, tu, false)]
  | BookUpdate _ _ _ _ _ _ _ _ => []
  end.

(** The responses are the reports of the deliveries, in order, each addressed to
    its session and with the next execution id. *)
Inductive delivered : Z → list (EngineEvent * Z * bool) → list OrderResponse → Z → Prop :=
  | delivered_nil n : delivered n [] [] n
  | delivered_cons n e u mk t out ds rs n' :
      is_report mk e u n t out → delivered (u64 (n + 1)) ds rs n' →
      delivered n ((e, u, mk) :: ds) (mkOrderResponse u out :: rs) n'.

Lemma delivered_app n1 ds1 rs1 n2 ds2 rs2 n3 :
  delivered n1 ds1 rs1 n2 → delivered n2 ds2 rs2 n3 → delivered n1 (ds1 ++ ds2) (rs1 ++ rs2) n3.
Proof. induction 1; [done |]. intros. simpl. econstructor; eauto. Qed.

(** ** The event loops *)
Section loops.
Context {E : Type} (system : nat → Z).
Implicit Types (w : Work (E := E)).

(** [w'] is [w] after answering the deliveries [ds]. *)
Record answered w (ds : list (EngineEvent * Z * bool)) w' : Prop := {
  an_engine : w_engine w' = w_engine w;
  an_reads : w_reads w' = w_reads w;
  an_events : engine_events w' = engine_events w;
  an_builder : builder_ok (w_builder w');
  an_responses : ∃ rs, responses w' = responses w ++ rs ∧
    delivered (next_exec_id_ (w_builder w)) ds rs (next_exec_id_ (w_builder w'));
}.

Lemma answered_refl w : builder_ok (w_builder w) → answered w [] w.
Proof. intros Hb. split; [done.. |]. exists []. by rewrite app_nil_r; split; [| constructor]. Qed.

Lemma answered_trans w1 ds1 w2 ds2 w3 : answered w1 ds1 w2 → answered w2 ds2 w3 → answered w1 (ds1 ++ ds2) w3.
Proof.
  intros [? ? ? ? (rs1 & E1 & D1)] [? ? ? ? (rs2 & E2 & D2)]. split; [congruence.. | done |].
  exists (rs1 ++ rs2). split; [by rewrite E2, E1, app_assoc | by eapply delivered_app].
Qed.

Lemma builder_next_ok b : builder_ok (builder_next b).
Proof. apply wrapu_range. lia. Qed.

Lemma respond_answered w uuid build e mk :
  built system mk e (w_builder w) uuid (build (w_builder w)) →
  ∃ w', respond uuid build w = Some w' ∧ answered w [(e, uuid, mk)] w' ∧ w_risk w' = w_risk w.
Proof.
  intros (out & Hb & _ & Hr). unfold respond. rewrite Hb. eexists. split; [done |]. split; [| done].
  split; try done; [apply builder_next_ok |]. exists [mkOrderResponse uuid out]. split; [done |].
  econstructor; [done | constructor].
Qed.

Lemma respond_fill_answered w e :
  event_ok e → builder_ok (w_builder w) →
  match e with OrderFilled _ _ _ _ _ _ _ _ _ _ _ _ _ _ _ _ _ =>
    ∃ w', respond_fill system e w = Some w' ∧ answered w (deliveries e) w' | _ => True end.
Proof.
  intros He Hb. destruct e as [| |tid sid px q aggr moid mc mu mcum mleaves mst toid tc tu tcum tleaves tst| | | |]; try exact I.
  pose proof He as (_ & _ & _ & _ & _ & _ & Hmu & _ & _ & _ & Htu & _). set (e := OrderFilled _ _ _ _ _ _ _ _ _ _ _ _ _ _ _ _ _) in *.
  unfold respond_fill. cbn [deliveries e]. fold e.
  destruct (respond_answered w mu (λ b, buildExecutionReportFill system b e mu true) e true) as (w1 & -> & A1 & _);
    [exact (build_fill_ok system (w_builder w) e mu true He Hb Hmu) |]. cbn [mbind option_bind].
  destruct (respond_answered w1 tu (λ b, buildExecutionReportFill system b e tu false) e false) as (w2 & -> & A2 & _);
    [exact (build_fill_ok system (w_builder w1) e tu false He (an_builder _ _ _ A1) Htu) |]. cbn [mbind option_bind].
  eexists. split; [done |]. destruct (answered_trans _ _ _ _ _ A1 A2). by split.
Qed.

Lemma visit_new_answered w e :
  event_ok e → builder_ok (w_builder w) → ∃ w', visit_new system w e = Some w' ∧ answered w (deliveries e) w'.
Proof.
  intros He Hb.
  pose proof (respond_fill_answered w e He Hb).
  pose proof (λ u, build_new_ok system (w_builder w) e u He Hb). pose proof (λ u, build_reject_ok system (w_builder w) e u He Hb).
  pose proof (λ u, build_cancel_ok system (w_builder w) e u He Hb). pose proof (λ u, build_modify_ok system (w_builder w) e u He Hb).
  pose proof (λ u, build_cancel_reject_ok system (w_builder w) e u He Hb).
  destruct e; cbn [visit_new deliveries]; try done;
    try (match goal with |- context [respond ?u ?f w] =>
      edestruct (respond_answered w u f) as (w' & -> & A & _); [| eexists; by split] end;
      cbn in He; destruct_and!; match goal with H : ∀ _ : Z, _ → built _ _ _ _ _ _ |- _ => by apply H end).
  exists w. split; [done | by apply answered_refl].
Qed.

Lemma for_each_answered w evs :
  Forall event_ok evs → builder_ok (w_builder w) →
  ∃ w', for_each (visit_new system) w evs = Some w' ∧ answered w (evs ≫= deliveries) w'.
Proof.
  intros He. revert w. induction He as [|e evs He Hes IH]; intros w Hb; simpl; [exists w; split; [done | by apply answered_refl] |].
  destruct (visit_new_answered w e He Hb) as (w1 & -> & A1). simpl.
  destruct (IH w1 (an_builder _ _ _ A1)) as (w2 & E2 & A2). exists w2. split; [done | by eapply answered_trans].
Qed.

(** The loops of the cancel and modify cases skip no event those calls produce. *)
Definition cancel_event (e : EngineEvent) : Prop :=
  match e with OrderCancelled _ _ _ _ _ _ | OrderCancelRejected _ _ _ _ _ | BookUpdate _ _ _ _ _ _ _ _ => True | _ => False end.
Definition modify_event (e : EngineEvent) : Prop :=
  match e with
  | OrderModified _ _ _ _ _ _ _ _ | OrderCancelRejected _ _ _ _ _ | BookUpdate _ _ _ _ _ _ _ _
  | OrderFilled _ _ _ _ _ _ _ _ _ _ _ _ _ _ _ _ _ => True
  | _ => False
  end.

Lemma for_each_cancel w evs : Forall cancel_event evs → for_each (visit_cancel system) w evs = for_each (visit_new system) w evs.
Proof.
  intros He. revert w. induction He as [|e evs He Hes IH]; intros w; [done |]. simpl.
  assert (visit_cancel system w e = visit_new system w e) as -> by (by destruct e).
  destruct (visit_new system w e); [apply IH | done].
Qed.

Lemma for_each_modify w evs : Forall modify_event evs → for_each (visit_modify system) w evs = for_each (visit_new system) w evs.
Proof.
  intros He. revert w. induction He as [|e evs He Hes IH]; intros w; [done |]. simpl.
  assert (visit_modify system w e = visit_new system w e) as -> by (by destruct e).
  destruct (visit_new system w e); [apply IH | done].
Qed.

End loops.

(** ** What the calls of the engine report *)
Lemma fill_events_level sid sd tp tid rpt t ms : Forall modify_event (Spec.match_level sid sd tp tid rpt t ms).2.
Proof.
  revert tid rpt t. induction ms as [|m ms IH]; intros tid rpt t; cbn [Spec.match_level]; [constructor |].
  destruct (0 <? remainingQty t); [| constructor].
  assert (∀ l, modify_event (Spec.level_update sid sd tp 1 rpt l)) as Hu by (by intros []).
  destruct (isFullyFilled _).
  - specialize (IH (u64 (tid + 1)) (u32 (rpt + 1)) (Spec.fill (Z.min (remainingQty t) (remainingQty m)) t)).
    destruct (Spec.match_level _ _ _ _ _ _ _) as [[[[? ?] ?] ?] evs]. cbn in *. by repeat constructor.
  - cbn. by repeat constructor.
Qed.

Lemma fill_events_levels sid sd stop tid rpt t L : Forall modify_event (Spec.match_levels sid sd stop tid rpt t L).2.
Proof.
  revert tid rpt t. induction L as [|[tp ms] L IH]; intros tid rpt t; cbn [Spec.match_levels]; [constructor |].
  destruct (_ && _); [| constructor].
  pose proof (fill_events_level sid sd tp tid rpt t ms) as Hl.
  destruct (Spec.match_level _ _ _ _ _ _ _) as [[[[tid1 rpt1] t1] [|m ms']] evs]; cbn in Hl; [| done].
  specialize (IH tid1 rpt1 t1). destruct (Spec.match_levels _ _ _ _ _ _ _) as [[[[? ?] ?] ?] evs']. cbn in *. by apply Forall_app.
Qed.

Lemma modify_events ab o p q c : Forall modify_event (Spec.modifyOrder ab o p q c).2.
Proof.
  unfold Spec.modifyOrder, Spec.removeFromBook, Spec.matchOrder.
  match goal with |- context [Spec.match_levels ?a ?b ?c ?d ?e ?f ?g] =>
    pose proof (fill_events_levels a b c d e f g) as Hl; destruct (Spec.match_levels a b c d e f g) as [[[[? ?] ?] ?] evs] end.
  assert (∀ a b c d e l, modify_event (Spec.level_update a b c d e l)) as Hu by (by intros ? ? ? ? ? []).
  cbn in Hl. destruct (set_alevels _ _ _) as [? ? ? ? ?]. destruct (isFullyFilled _); cbn.
  - by repeat constructor.
  - repeat constructor; [done |]. apply Forall_app. split; [done | by repeat constructor].
Qed.

Lemma cancel_events ab o : Forall cancel_event (Spec.cancelOrder ab o).2.
Proof.
  assert (∀ a b c d e l, cancel_event (Spec.level_update a b c d e l)) as Hu by (by intros ? ? ? ? ? []).
  unfold Spec.cancelOrder, Spec.removeFromBook. cbn. by repeat constructor.
Qed.

(** The engine call of a command. *)
Definition engine_call (now : Timestamp) (cmd : OrderCommand) : option EngineCmd :=
  match oc_type cmd with
  | NewOrder => o ← oc_order cmd; if bool_decide (status o = Rejected) then None else Some (ESubmit now o)
  | CancelOrder => Some (ECancel (cancel_order_id cmd) (oc_security_id cmd) (oc_session_uuid cmd))
  | ModifyOrder => Some (EModify (cancel_order_id cmd) (oc_security_id cmd) (oc_new_price cmd) (oc_new_qty cmd) (oc_new_cl_ord_id cmd))
  end.

(** Commands the gateway may hold in its queue: a new order carries an order; its
    quantity is in range unless it is already rejected; a modified quantity is
    in range. *)
Definition queued_ok (cmd : OrderCommand) : Prop :=
  oc_session_uuid cmd ∈u 64 ∧
  match oc_type cmd with
  | NewOrder => ∃ o, oc_order cmd = Some o ∧ order_typed (set_order_id 0 o) ∧
      (status o = Rejected ∨ qty_ok o ∧ live o)
  | CancelOrder => cancel_order_id cmd ∈u 64
  | ModifyOrder => cancel_order_id cmd ∈u 64 ∧ mantissa (oc_new_price cmd) ∈i 64 ∧ 0 ≤ oc_new_qty cmd < 2 ^ 31
  end.

(** The invariant of an engine the gateway drives. *)
Definition engine_ok (e : FullMatchingEngine) : Prop := engine_inv e ∧ eng_typed e.

Lemma engine_call_ok e now cmd c :
  engine_ok e → queued_ok cmd → next_order_id_ e + 1 < 2 ^ 64 → engine_call now cmd = Some c →
  ∃ e' evs, eng_cmd e c = Some (e', evs) ∧ engine_ok e' ∧ Forall event_ok evs ∧ next_order_id_ e' ≤ next_order_id_ e + 1 ∧
    match oc_type cmd with
    | NewOrder => True
    | CancelOrder => Forall cancel_event evs
    | ModifyOrder => Forall modify_event evs
    end.
Proof.
  intros [Hi Ht] [Hu Hq] Hn Hc. unfold engine_call in Hc.
  assert (eng_cmd_ok c ∧ eng_cmd_typed c) as [Hok Hty].
  { destruct (oc_type cmd).
    - destruct Hq as (o & Ho & Hot & Hst). rewrite Ho in Hc. cbn in Hc. case_bool_decide; [done |]. injection Hc as <-.
      destruct Hst; done.
    - injection Hc as <-. done.
    - injection Hc as <-. cbn. destruct Hq as (? & ? & ?). split_and!; lia. }
  destruct (eng_cmd_inv e c Hi Hok Hn) as (e' & evs & He & Hi').
  destruct (eng_cmd_typed_ok _ _ _ _ He Ht Hty) as [Ht' Hev].
  pose proof (ei_next _ Hi). pose proof (eng_cmd_next _ _ _ _ He ltac:(lia) Hn). destruct (books_exist e Hi) as [A HA].
  exists e', evs. split_and!; try done. destruct (oc_type cmd); [done | |]; injection Hc as <-; cbn in He.
  - pose proof (cancelOrder_inv _ e (cancel_order_id cmd) (oc_security_id cmd) (oc_session_uuid cmd) Hi HA) as H1. cbv zeta in H1.
    destruct (A !! _); [| rewrite H1 in He; injection He as <- <-; by repeat constructor].
    destruct H1 as (e1 & evs1 & H1 & _ & _ & ab & _ & H2). rewrite He in H1. injection H1 as <- <-.
    destruct H2 as [(-> & _)|(m & _ & _ & -> & _)]; [by repeat constructor|apply cancel_events].
  - pose proof (modifyOrder_inv _ e (cancel_order_id cmd) (oc_security_id cmd) (oc_new_price cmd) (oc_new_qty cmd)
      (oc_new_cl_ord_id cmd) Hi HA Hok) as H1. cbv zeta in H1.
    destruct (A !! _); [| rewrite H1 in He; injection He as <- <-; by repeat constructor].
    destruct H1 as (e1 & evs1 & H1 & _ & _ & ab & _ & H2). rewrite He in H1. injection H1 as <- <-.
    destruct H2 as [(-> & _)|(m & _ & _ & -> & _)]; [by repeat constructor|apply modify_events].
Qed.

(** ** Draining the queue *)

(** What a drain does, command by command: a pre-rejected order is answered by a
    reject to its session and never reaches the engine; any other command is
    one engine call whose events are all delivered. *)
Definition pre_reject (cmd : OrderCommand) (o : Order) : EngineEvent :=
  OrderRejected (cl_ord_id o) (oc_session_uuid cmd) "Pre-trade risk check failed" 3.

Inductive drained (engine_clock : nat → Z) :
    FullMatchingEngine → nat → Z → list OrderCommand →
    FullMatchingEngine → nat → Z → list OrderResponse → list EngineEvent → Prop :=
  | drained_nil e reads n : drained engine_clock e reads n [] e reads n [] []
  | drained_reject e reads n cmd o q e' reads' rs1 n1 n' rs evs :
      oc_type cmd = NewOrder → oc_order cmd = Some o → status o = Rejected →
      delivered n (deliveries (pre_reject cmd o)) rs1 n1 →
      drained engine_clock e reads n1 q e' reads' n' rs evs →
      drained engine_clock e reads n (cmd :: q) e' reads' n' (rs1 ++ rs) evs
  | drained_call e reads n cmd c q e1 evs1 reads1 rs1 n1 e' reads' n' rs evs :
      engine_call (engine_clock reads) cmd = Some c → eng_cmd e c = Some (e1, evs1) →
      delivered n (evs1 ≫= deliveries) rs1 n1 →
      drained engine_clock e1 reads1 n1 q e' reads' n' rs evs →
      drained engine_clock e reads n (cmd :: q) e' reads' n' (rs1 ++ rs) (evs1 ++ evs).

Section drain.
Context (system engine_clock : nat → Z).
Let full := EngineOps.full_matching_engine.

(** [w'] is [w] after the commands [q]. *)
Definition drain_step (w : Work (E := FullMatchingEngine)) (q : list OrderCommand) (w' : Work (E := FullMatchingEngine)) : Prop :=
  ∃ rs evs, responses w' = responses w ++ rs ∧ engine_events w' = engine_events w ++ evs ∧
    drained engine_clock (w_engine w) (w_reads w) (next_exec_id_ (w_builder w)) q
      (w_engine w') (w_reads w') (next_exec_id_ (w_builder w')) rs evs ∧
    engine_ok (w_engine w') ∧ builder_ok (w_builder w') ∧
    next_order_id_ (w_engine w') ≤ next_order_id_ (w_engine w) + Z.of_nat (length q).

(** The body of the loop for a command that calls the engine. *)
Lemma call_visits w cmd c e1 evs1 reads1 :
  engine_call (engine_clock (w_reads w)) cmd = Some c → eng_cmd (w_engine w) c = Some (e1, evs1) →
  Forall event_ok evs1 → engine_ok e1 → builder_ok (w_builder w) → next_order_id_ e1 ≤ next_order_id_ (w_engine w) + 1 →
  ∃ w', for_each (visit_new system) (after_call w reads1 (e1, evs1)) evs1 = Some w' ∧ drain_step w [cmd] w'.
Proof.
  intros Hc He Hev Hok Hb Hn.
  destruct (for_each_answered system (after_call w reads1 (e1, evs1)) evs1 Hev Hb) as (w' & Hf & [A1 A2 A3 A4 (rs & A5 & A6)]).
  exists w'. split; [exact Hf |]. cbn in A1, A2, A3, A5, A6. exists rs, (evs1 ++ []). rewrite A1, A2, A3. split_and!; try done.
  - by rewrite app_nil_r.
  - rewrite <-(app_nil_r rs). eapply drained_call; [done | done | done | constructor].
Qed.

Lemma process_command_step w cmd :
  engine_ok (w_engine w) → builder_ok (w_builder w) → queued_ok cmd → next_order_id_ (w_engine w) + 1 < 2 ^ 64 →
  ∃ w', process_command full system engine_clock w cmd = Some w' ∧ drain_step w [cmd] w'.
Proof.
  intros He Hb Hq Hn. unfold process_command. pose proof Hq as [Hu Hqt].
  destruct (engine_call (engine_clock (w_reads w)) cmd) as [c|] eqn:Hc.
  - destruct (engine_call_ok _ _ _ _ He Hq Hn Hc) as (e1 & evs1 & Hcmd & He1 & Hev & Hn1 & Hkind).
    pose proof (λ reads1, call_visits w cmd c e1 evs1 reads1 Hc Hcmd Hev He1 Hb Hn1) as Hv.
    unfold engine_call in Hc. destruct (oc_type cmd).
    + destruct Hqt as (o & Ho & _). rewrite Ho in Hc |- *. cbn in Hc |- *. case_bool_decide; [done |]. injection Hc as <-.
      cbn in Hcmd. rewrite Hcmd. apply Hv.
    + injection Hc as <-. cbn in Hcmd |- *. rewrite Hcmd. cbn. rewrite for_each_cancel by done. apply Hv.
    + injection Hc as <-. cbn in Hcmd |- *. rewrite Hcmd. cbn. rewrite for_each_modify by done. apply Hv.
  - unfold engine_call in Hc. destruct (oc_type cmd) eqn:Hty; [| done..].
    destruct Hqt as (o & Ho & Hot & _). rewrite Ho in Hc |- *. cbn in Hc |- *. case_bool_decide as Hst; [| done].
    assert (event_ok (pre_reject cmd o)) as Hev by (cbn; split; [done | lia]).
    destruct (respond_answered system w (oc_session_uuid cmd)
      (λ b, buildExecutionReportReject system b (pre_reject cmd o) (oc_session_uuid cmd)) (pre_reject cmd o) false)
      as (w' & Hw & [A1 A2 A3 A4 (rs & A5 & A6)] & _);
      [exact (build_reject_ok system (w_builder w) (pre_reject cmd o) (oc_session_uuid cmd) Hev Hb Hu) |].
    exists w'. split; [exact Hw |]. exists (rs ++ []), []. rewrite A1, A2, A3, !app_nil_r, A5. split_and!; try done; [| cbn; lia].
    rewrite <-(app_nil_r rs). eapply drained_reject; [done | done | done | exact A6 | constructor].
Qed.

Lemma drained_app e reads n q1 e1 reads1 n1 rs1 evs1 q2 e2 reads2 n2 rs2 evs2 :
  drained engine_clock e reads n q1 e1 reads1 n1 rs1 evs1 → drained engine_clock e1 reads1 n1 q2 e2 reads2 n2 rs2 evs2 →
  drained engine_clock e reads n (q1 ++ q2) e2 reads2 n2 (rs1 ++ rs2) (evs1 ++ evs2).
Proof.
  induction 1; intros Hd; simpl; [done | |]; rewrite <-?app_assoc.
  - eapply drained_reject; eauto.
  - eapply drained_call; eauto.
Qed.

Lemma process_queue_step q w :
  engine_ok (w_engine w) → builder_ok (w_builder w) → Forall queued_ok q →
  next_order_id_ (w_engine w) + Z.of_nat (length q) < 2 ^ 64 →
  ∃ w', process_queue full system engine_clock w q = Some w' ∧ drain_step w q w'.
Proof.
  intros He Hb Hq. revert w He Hb. induction Hq as [|cmd q Hcmd Hq IH]; intros w He Hb Hn; simpl in *.
  - exists w. split; [done |]. exists [], []. rewrite !app_nil_r. split_and!; try done; [constructor | lia].
  - destruct (process_command_step w cmd He Hb Hcmd) as (w1 & -> & rs1 & evs1 & R1 & V1 & D1 & He1 & Hb1 & N1); [lia |].
    simpl in N1 |- *. destruct (IH w1 He1 Hb1) as (w2 & -> & rs2 & evs2 & R2 & V2 & D2 & He2 & Hb2 & N2); [lia |].
    exists w2. split; [done |]. exists (rs1 ++ rs2), (evs1 ++ evs2).
    rewrite R2, R1, V2, V1, !app_assoc. split_and!; try done; [| cbn; lia]. by apply (drained_app _ _ _ [cmd] _ _ _ _ _ q _ _ _ _ _ D1).
Qed.

End drain.

(** ** Receiving messages *)
Lemma rd_i_range buf o n z : (0 < n)%nat → rd_i buf o n = Some z → z ∈i (8 * Z.of_nat n).
Proof. unfold rd_i. intros Hn (s & Hs & ->)%fmap_Some. apply wraps_range. lia. Qed.

Lemma complete_decodes {M} `{SbeBounds M} data : (8 + sbe_block (M := M) ≤ length data)%nat → ∃ m : M, sbe_decode data 0 = Some m.
Proof. intros Hl. destruct (proj2 (sbe_decode_bounds data 0)) as [m Hm]; [done | by exists m]. Qed.

Ltac field_ranges :=
  repeat match goal with
  | H : rd_u _ _ ?n = Some _ |- _ => apply rd_u_range in H; cbn in H
  | H : rd_i _ _ ?n = Some _ |- _ => apply rd_i_range in H; [cbn in H | lia]
  end.

Lemma decode_new_ok uuid data len :
  uuid ∈u 64 → (124 ≤ length data)%nat →
  ∃ cmd o, decodeNewOrderSingle uuid data len = Some cmd ∧ oc_type cmd = NewOrder ∧ oc_session_uuid cmd = uuid ∧
    oc_order cmd = Some o ∧ order_typed (set_order_id 0 o) ∧ status o = New ∧ filled_qty o = 0.
Proof.
  intros Hu Hl. destruct (complete_decodes (M := NewOrderSingle514.t) data) as [m Hm]; [exact Hl |]. cbn in Hm.
  unfold decodeNewOrderSingle. rewrite Hm. cbn [mbind option_bind]. eexists _, _. do 4 (split; [done |]). split; [| done].
  unfold NewOrderSingle514.decode in Hm. repeat (apply bind_Some in Hm as (? & ? & Hm)). field_ranges. injection Hm as <-. unfold order_typed. cbn.
  split_and!; try lia; try apply wraps_range; try lia;
    (eexists; split; cycle 1; [done | lia]).
Qed.

Lemma decode_cancel_ok uuid data len :
  uuid ∈u 64 → (96 ≤ length data)%nat →
  ∃ cmd, decodeCancelRequest uuid data len = Some cmd ∧ queued_ok cmd.
Proof.
  intros Hu Hl. destruct (complete_decodes (M := OrderCancelRequest516.t) data) as [m Hm]; [exact Hl |]. cbn in Hm.
  unfold decodeCancelRequest. rewrite Hm. cbn [mbind option_bind]. eexists. split; [done |].
  unfold OrderCancelRequest516.decode in Hm. repeat (apply bind_Some in Hm as (? & ? & Hm)). field_ranges. injection Hm as <-. unfold queued_ok. cbn. split; lia.
Qed.

Lemma decode_modify_ok uuid data len m :
  uuid ∈u 64 → OrderCancelReplaceRequest515.decode data 0 = Some m → OrderCancelReplaceRequest515.orderQty m < 2 ^ 31 →
  ∃ cmd, decodeModifyRequest uuid data len = Some cmd ∧ queued_ok cmd.
Proof.
  intros Hu Hm Hq. unfold decodeModifyRequest. rewrite Hm. cbn [mbind option_bind]. eexists. split; [done |].
  unfold OrderCancelReplaceRequest515.decode in Hm. repeat (apply bind_Some in Hm as (? & ? & Hm)). field_ranges. injection Hm as <-. unfold queued_ok. cbn in *.
  rewrite wraps_small by lia. split_and!; lia.
Qed.

(** ** Runs of the gateway with the full matching engine *)
Inductive GwAct :=
  | GMessage (now session_uuid templateId : Z) (data : buffer)
  | GDrain.

Record GwState := mkGwState { gw : OrderEntryGateway; gw_engine : FullMatchingEngine; gw_reads : nat }.

(** A message of a session whose bytes hold a whole block of its template, and,
    for a modify, a quantity that fits [int32_t]. Nothing else is asked of the
    contents. *)
Definition act_ok (a : GwAct) : Prop :=
  match a with
  | GMessage _ uuid tid data =>
      uuid ∈u 64 ∧ (tid = NewOrderSingle514.TEMPLATE_ID → (124 ≤ length data)%nat) ∧
      (tid = OrderCancelRequest516.TEMPLATE_ID → (96 ≤ length data)%nat) ∧
      (tid = OrderCancelReplaceRequest515.TEMPLATE_ID →
         ∃ m, OrderCancelReplaceRequest515.decode data 0 = Some m ∧ OrderCancelReplaceRequest515.orderQty m < 2 ^ 31)
  | GDrain => True
  end.

Record gw_ok (ticks : Instrument → Z) (s : GwState) : Prop := {
  go_registry : registry_ok (instrument_mgr_ (gw s)) ticks;
  go_queue : Forall queued_ok (command_queue_ (gw s));
  go_builder : builder_ok (exec_builder_ (gw s));
  go_engine : engine_ok (gw_engine s);
}.

Section run.
Context (system engine_clock : nat → Z) (ticks : Instrument → Z).

Definition gw_act (s : GwState) (a : GwAct) : option (GwState * list OrderResponse * list EngineEvent) :=
  match a with
  | GMessage now uuid tid data =>
      g ← onApplicationMessage (gw s) now uuid tid data (length data);
      Some (mkGwState g (gw_engine s) (gw_reads s), [], [])
  | GDrain =>
      '(g, e, reads, rs, evs) ← processCommands EngineOps.full_matching_engine system engine_clock (gw s) (gw_engine s) (gw_reads s);
      Some (mkGwState g e reads, rs, evs)
  end.

Fixpoint gw_run (s : GwState) (acts : list GwAct) : option (GwState * list OrderResponse * list EngineEvent) :=
  match acts with
  | [] => Some (s, [], [])
  | a :: acts =>
      '(s, rs, evs) ← gw_act s a; '(s, rs', evs') ← gw_run s acts; Some (s, rs ++ rs', evs ++ evs')
  end.

(** Order ids in use or reserved by queued commands. *)
Definition gw_ids (s : GwState) : Z := next_order_id_ (gw_engine s) + Z.of_nat (length (command_queue_ (gw s))).

(** One call of the gateway queues at most one command, which is fit for the
    queue. *)
Lemma on_message_ok g now uuid tid data :
  registry_ok (instrument_mgr_ g) ticks → act_ok (GMessage now uuid tid data) →
  ∃ g', onApplicationMessage g now uuid tid data (length data) = Some g' ∧
    instrument_mgr_ g' = instrument_mgr_ g ∧ exec_builder_ g' = exec_builder_ g ∧
    (command_queue_ g' = command_queue_ g ∨ ∃ cmd, command_queue_ g' = command_queue_ g ++ [cmd] ∧ queued_ok cmd).
Proof.
  intros Hm (Hu & H514 & H516 & H515). unfold onApplicationMessage.
  destruct (Z.eqb_spec tid NewOrderSingle514.TEMPLATE_ID) as [E|_].
  { destruct (decode_new_ok uuid data (length data) Hu (H514 E)) as (cmd & o & -> & Ht & Hs & Ho & Hot & Hst & Hf).
    cbn [mbind option_bind]. rewrite Ho. cbn [mbind option_bind].
    assert (∃ r, validateNewOrder (instrument_mgr_ g) o = Some r ∧ (valid r = true → qty_ok o)) as (r & -> & Hq).
    { pose proof (validate_verdict _ ticks o Hm) as Hv.
      assert (is_Some (validateNewOrder (instrument_mgr_ g) o)) as [r Hr]
        by (destruct (findBySecurityId _ _) as [[i|]|]; [destruct Hv as (r & -> & _); by eexists | by eexists..]).
      exists r. split; [done |]. intros Hval. destruct (accepted_qty _ _ _ _ Hm Hr Hval) as (i & _ & _ & _ & _ & _ & Hpos & _).
      destruct Hot as (_ & _ & _ & _ & _ & _ & _ & Hqt & _). destruct o; cbn in *; unfold qty_ok; cbn. lia. }
    cbn [mbind option_bind].
    destruct (checkRate (risk_manager_ g) now uuid) as [rate risk].
    eexists. split; [done |]. split_and!; [done | done |]. right. eexists. split; [done |].
    split; [by rewrite <-Hs in Hu |]. cbn. rewrite Ht. eexists. split; [done |].
    unfold reject_order. destruct (valid r), (passed rate), (passed (checkOrder _ _)); (split; [by destruct o |]); try (left; by destruct o).
    right. split; [by apply Hq |]. intros _. left. done. }
  destruct (Z.eqb_spec tid OrderCancelRequest516.TEMPLATE_ID) as [E|_].
  { destruct (decode_cancel_ok uuid data (length data) Hu (H516 E)) as (cmd & -> & Hq). cbn [mbind option_bind].
    destruct (validate_cancel_total _ _ (cancel_order_id cmd) (oc_security_id cmd) Hm) as [r ->]. eexists. split; [done |].
    split_and!; [done | done | right; by exists cmd]. }
  destruct (Z.eqb_spec tid OrderCancelReplaceRequest515.TEMPLATE_ID) as [E|_].
  { destruct (H515 E) as (m & Hd & Hq31). destruct (decode_modify_ok uuid data (length data) m Hu Hd Hq31) as (cmd & -> & Hq).
    cbn [mbind option_bind].
    destruct (validate_modify_total _ _ (cancel_order_id cmd) (oc_security_id cmd) (oc_new_price cmd) (oc_new_qty cmd) Hm) as [r ->].
    eexists. split; [done |].
    split_and!; [done | done | right; by exists cmd]. }
  exists g. split_and!; try done. by left.
Qed.

Lemma gw_act_ok s a :
  gw_ok ticks s → act_ok a → gw_ids s < 2 ^ 64 →
  ∃ s' rs evs, gw_act s a = Some (s', rs, evs) ∧ gw_ok ticks s' ∧ gw_ids s' ≤ gw_ids s + 1.
Proof.
  intros [Hm Hq Hb He] Ha Hn. unfold gw_ids in *. destruct a as [now uuid tid data|]; cbn [gw_act].
  - destruct (on_message_ok (gw s) now uuid tid data Hm Ha) as (g' & -> & Hm' & Hb' & Hq').
    cbn [mbind option_bind]. eexists _, _, _. split; [done |]. split.
    + split; cbn; [by rewrite Hm' | | by rewrite Hb' | done].
      destruct Hq' as [-> |(cmd & -> & Hcmd)]; [done |]. apply Forall_app. split; [done | by apply Forall_singleton].
    + cbn. destruct Hq' as [-> |(cmd & -> & _)]; rewrite ?length_app; cbn; lia.
  - unfold processCommands.
    destruct (process_queue_step system engine_clock (command_queue_ (gw s))
      (mkWork (gw_engine s) (gw_reads s) (exec_builder_ (gw s)) (risk_manager_ (gw s)) [] []))
      as (w' & -> & rs & evs & R & V & D & He' & Hb' & N); [done | done | done | done |].
    cbn in *. eexists _, _, _. split; [done |]. split; [split; cbn; [done | constructor | done | done] | cbn; lia].
Qed.

Lemma gw_run_ok acts s :
  gw_ok ticks s → Forall act_ok acts → gw_ids s + Z.of_nat (length acts) < 2 ^ 64 →
  ∃ s' rs evs, gw_run s acts = Some (s', rs, evs) ∧ gw_ok ticks s' ∧ gw_ids s' ≤ gw_ids s + Z.of_nat (length acts).
Proof.
  intros Hs Ha. revert s Hs. induction Ha as [|a acts Ha Hacts IH]; intros s Hs Hn; simpl in *.
  { eexists _, _, _. split_and!; [done | done | lia]. }
  destruct (gw_act_ok s a Hs Ha) as (s1 & rs1 & evs1 & -> & Hs1 & Hn1); [lia |]. simpl.
  destruct (IH s1 Hs1) as (s2 & rs2 & evs2 & -> & Hs2 & Hn2); [lia |]. simpl. eexists _, _, _. split_and!; [done | done | lia].
Qed.

End run.

(** The state after start-up: a registry, an engine with a book for each of the
    given securities, nothing queued. *)
Definition gw_start (m : InstrumentManager) (cfg : RiskConfig) (sids : list SecurityId) : GwState :=
  mkGwState (Gateway_init m cfg) (foldl EngineOps.addInstrument EngineOps.Engine_init sids) 0.

Lemma start_engine_ok sids : Forall (λ sid, sid ∈i 32) sids →
  engine_ok (foldl EngineOps.addInstrument EngineOps.Engine_init sids) ∧
  next_order_id_ (foldl EngineOps.addInstrument EngineOps.Engine_init sids) = 1.
Proof.
  assert (∀ e, engine_ok e → next_order_id_ e = 1 → Forall (λ sid, sid ∈i 32) sids →
    engine_ok (foldl EngineOps.addInstrument e sids) ∧ next_order_id_ (foldl EngineOps.addInstrument e sids) = 1) as H;
    [| apply H; [split; [apply Engine_init_inv | apply Engine_init_typed] | done]].
  induction sids as [|sid sids IH]; intros e He H1 Hs; [done |]. apply Forall_cons in Hs as [Hsid Hs]. cbn [foldl].
  apply IH; [| | done].
  - destruct He as [Hi Ht]. split; [by apply addInstrument_inv |].
    by apply (eng_cmd_typed_ok e (EAddInstrument sid) _ [] eq_refl Ht).
  - destruct e as [h books o2s owned nid]. cbn in *. by destruct (books !! sid).
Qed.

Lemma start_ok m ticks cfg sids : registry_ok m ticks → Forall (λ sid, sid ∈i 32) sids →
  gw_ok ticks (gw_start m cfg sids) ∧ gw_ids (gw_start m cfg sids) = 1.
Proof.
  intros Hm Hs. destruct (start_engine_ok sids Hs) as [He Hn]. split.
  - split; [done | constructor | split; cbn; lia | done].
  - unfold gw_ids. cbn [gw gw_start gw_engine]. rewrite Hn. cbn. lia.
Qed.

(** ** Properties *)

(** The gateway and the engine together are memory safe. From start-up, any
    interleaving of complete messages of any sessions, with any contents and at
    any times, and of drains of the queue runs to the end without an access
    outside a buffer or to a freed order, as long as modify quantities fit
    [int32_t] and ids do not run out; the engine invariant and the typing of all
    orders and books hold at the end, whatever orders were rejected on the way. *)
Theorem gateway_runs_safe m ticks cfg sids system engine_clock acts :
  registry_ok m ticks → Forall (λ sid, sid ∈i 32) sids → Forall act_ok acts →
  Z.of_nat (length acts) < 2 ^ 64 - 1 →
  ∃ s rs evs, gw_run system engine_clock (gw_start m cfg sids) acts = Some (s, rs, evs) ∧
    engine_inv (gw_engine s) ∧ eng_typed (gw_engine s) ∧ Forall queued_ok (command_queue_ (gw s)).
Proof.
  intros Hm Hs Ha Hn. destruct (start_ok m ticks cfg sids Hm Hs) as [Hok Hid].
  destruct (gw_run_ok system engine_clock ticks acts _ Hok Ha) as (s & rs & evs & Hr & [_ Hq _ [Hi Ht]] & _);
    [rewrite Hid; lia |]. by exists s, rs, evs.
Qed.


(** A seller rests five lots, a buyer takes three and is rejected on a price off
    the tick grid. *)
Definition demo_new (side price qty : Z) : buffer :=
  default [] (encode_vec (NewOrderSingle514.mk price qty 1 side 0 (replicate 20 Init.Byte.x00)
    (writeFixedString (chars "c") 20) 0 0 0 0 (replicate 5 Init.Byte.x00) 0 0 0 2 0 0 Init.Byte.x00 Init.Byte.x00 0 0 0)).
Definition demo_acts : list GwAct :=
  [GMessage 5 7 514 (demo_new 2 250000000 5); GMessage 6 8 514 (demo_new 1 250000000 3); GDrain;
   GMessage 7 8 514 (demo_new 1 250000001 3)].

Lemma demo_acts_ok : Forall act_ok demo_acts.
Proof.
  assert (∀ t s p q, (124 ≤ length (demo_new s p q))%nat → act_ok (GMessage t 7 514 (demo_new s p q)) ∧
    act_ok (GMessage t 8 514 (demo_new s p q))) as H by (intros t s p q Hl; split; split_and!; (lia || done)).
  unfold demo_acts. repeat (apply Forall_cons_2); try apply Forall_nil_2; try done; apply H; vm_compute; lia.
Qed.

Lemma gateway_runs_safe_witness :
  ∃ s rs evs, gw_run (λ _, 1) (λ _, 2) (gw_start (demo_registry Open) demo_risk [1]) demo_acts = Some (s, rs, evs) ∧
    (length rs = 4)%nat ∧ engine_inv (gw_engine s).
Proof.
  destruct (gateway_runs_safe (demo_registry Open) (λ _, 250000000) demo_risk [1] (λ _, 1) (λ _, 2) demo_acts
    (demo_registry_ok Open)) as (s & rs & evs & Hr & Hi & _);
    [repeat constructor; lia | exact demo_acts_ok | cbn; lia |].
  exists s, rs, evs. split; [exact Hr |]. split; [| exact Hi].
  assert ((length ∘ snd ∘ fst <$> gw_run (λ _, 1) (λ _, 2) (gw_start (demo_registry Open) demo_risk [1]) demo_acts) = Some 4%nat) as Hl
    by (vm_compute; reflexivity).
  rewrite Hr in Hl. by injection Hl.
Defined.

