(* ===== verification/MarketData.v ===== *)
(** * Market data messages (src/market_data/incremental_builder.h and .cpp,
    snapshot_builder.h and .cpp, instrument_def_builder.h and .cpp)

    The builders turn engine events, book levels and instruments into MDP 3.0
    messages in vectors of their own. *)
From S2P Require Import Prelude Types Sbe Mdp3 Order Instrument Text.

Module MarketDataOps.

(** ** Incremental messages

    [rpt_seqs_] numbers the reports that come without a number. *)
Abbreviation IncrementalBuilder := (gmap SecurityId Z).

Definition getNextRptSeq (b : IncrementalBuilder) (sec_id : SecurityId) : Z * IncrementalBuilder :=
  let n := u32 (default 0 (b !! sec_id) + 1) in (n, <[sec_id := n]> b).

(** The loop of [buildBookRefresh]: the entries for the book updates among the
    events. *)
Fixpoint book_entries (b : IncrementalBuilder) (book_updates : list EngineEvent)
    : list MDIncrementalRefreshBook46.Entry.t * IncrementalBuilder :=
  match book_updates with
  | [] => ([], b)
  | BookUpdate security_id side price new_qty new_order_count update_action price_level_index rpt_seq :: evs =>
      let '(rptSeq, b) := if negb (rpt_seq =? 0) then (rpt_seq, b) else getNextRptSeq b security_id in
      let entry := MDIncrementalRefreshBook46.Entry.mk (mantissa price) new_qty security_id rptSeq new_order_count
        (u8 price_level_index) (MDUpdateAction_to_u8 update_action)
        (if bool_decide (side = Buy) then MDEntryType_to_char MDE_Bid else MDEntryType_to_char MDE_Offer) in
      let '(entries, b) := book_entries b evs in (entry :: entries, b)
  | _ :: evs => book_entries b evs
  end.

Definition buildBookRefresh (b : IncrementalBuilder) (book_updates : list EngineEvent) (transact_time : Timestamp)
    : option (buffer * IncrementalBuilder) :=
  let '(entries, b) := book_entries b book_updates in
  if bool_decide (entries = []) then Some ([], b) else
  buf ← encode_vec (MDIncrementalRefreshBook46.mk transact_time (Z.lor LastQuoteMsg EndOfEvent) entries);
  Some (buf, b).

(** The loop of [buildTradeSummary]. *)
Fixpoint trade_entries (b : IncrementalBuilder) (trade_events : list EngineEvent)
    : list MDIncrementalRefreshTradeSummary48.MDEntry.t * list MDIncrementalRefreshTradeSummary48.OrderIDEntry.t *
      IncrementalBuilder :=
  match trade_events with
  | [] => ([], [], b)
  | OrderFilled _ security_id trade_price trade_qty aggressor_side maker_order_id _ _ _ _ _ taker_order_id _ _ _ _ _ :: evs =>
      let '(rptSeq, b) := getNextRptSeq b security_id in
      let entry := MDIncrementalRefreshTradeSummary48.MDEntry.mk (mantissa trade_price) trade_qty security_id rptSeq 2
        (Side_to_u8 aggressor_side) (MDUpdateAction_to_u8 MD_New) in
      let maker_oid := MDIncrementalRefreshTradeSummary48.OrderIDEntry.mk maker_order_id trade_qty in
      let taker_oid := MDIncrementalRefreshTradeSummary48.OrderIDEntry.mk taker_order_id trade_qty in
      let '(entries, oids, b) := trade_entries b evs in (entry :: entries, maker_oid :: taker_oid :: oids, b)
  | _ :: evs => trade_entries b evs
  end.

Definition buildTradeSummary (b : IncrementalBuilder) (trade_events : list EngineEvent) (transact_time : Timestamp)
    : option (buffer * IncrementalBuilder) :=
  let '(entries, oids, b) := trade_entries b trade_events in
  if bool_decide (entries = []) then Some ([], b) else
  buf ← encode_vec (MDIncrementalRefreshTradeSummary48.mk transact_time
    (Z.lor (Z.lor LastTradeMsg LastVolumeMsg) EndOfEvent) entries oids);
  Some (buf, b).

Definition is_book_update (e : EngineEvent) : bool :=
  match e with BookUpdate _ _ _ _ _ _ _ _ => true | _ => false end.
Definition is_fill (e : EngineEvent) : bool :=
  match e with OrderFilled _ _ _ _ _ _ _ _ _ _ _ _ _ _ _ _ _ => true | _ => false end.

Definition buildIncrementalPacket (b : IncrementalBuilder) (events : list EngineEvent) (transact_time : Timestamp)
    : option (buffer * IncrementalBuilder) :=
  let book_updates := filter (λ e, is_book_update e = true) events in
  let trades := filter (λ e, is_fill e = true) events in
  '(book_msg, b) ← buildBookRefresh b book_updates transact_time;
  '(trade_msg, b) ← buildTradeSummary b trades transact_time;
  Some (book_msg ++ trade_msg, b).

(** ** Snapshots *)

(** One loop of [buildSnapshot], from position [i] on. *)
Fixpoint snapshot_entries (type : MDEntryType) (i : nat) (levels : list (Price * Quantity)) (counts : list Z)
    : list SnapshotFullRefresh52.Entry.t :=
  match levels with
  | [] => []
  | (p, q) :: levels =>
      SnapshotFullRefresh52.Entry.mk (mantissa p) q (default 0 (counts !! i)) (u8 (Z.of_nat i + 1)) (MDEntryType_to_char type)
      :: snapshot_entries type (S i) levels counts
  end.

Definition buildSnapshot (security_id : SecurityId) (last_msg_seq_num_processed tot_num_reports : Z)
    (bids asks : list (Price * Quantity)) (bid_order_counts ask_order_counts : list Z) (rpt_seq : Z)
    (transact_time : Timestamp) : option buffer :=
  encode_vec (SnapshotFullRefresh52.mk last_msg_seq_num_processed tot_num_reports security_id rpt_seq transact_time
    transact_time 0 (SecurityTradingStatus_to_u8 Open) (mantissa Price_null) (mantissa Price_null) (mantissa Price_null)
    (snapshot_entries MDE_Bid 0 bids bid_order_counts ++ snapshot_entries MDE_Offer 0 asks ask_order_counts)).

(** ** Instrument definitions *)

(** [memset] to zero, then [memcpy] of at most [n] bytes. *)
Definition copyStr (n : nat) (src : list byte) : list byte :=
  take n src ++ replicate (n - length src) Init.Byte.x00.

(** [static_cast<int32_t>(d)]. *)
Definition to_int32 (d : double) : option Z :=
  z ← to_int64 d; if (- 2 ^ 31 <=? z) && (z <? 2 ^ 31) then Some z else None.

Definition maturity_field (s : list byte) : option (list byte) :=
  if (6 <=? length s)%nat then
    year ← TextOps.stoi (take 4 s);
    month ← TextOps.stoi (take 2 (drop 4 s));
    Some (LittleEndianList.le_split 2 (u16 year) ++ [byte.of_Z (u8 month); Init.Byte.x00; Init.Byte.x00])
  else Some (replicate 5 Init.Byte.x00).

Definition buildDefinition (instrument : Instrument) (tot_num_reports : Z) : option buffer :=
  maturityMonthYear ← maturity_field (chars (maturity_month_year instrument));
  minPriceIncrement ← to_int64 (double_mul (tick_size instrument) one_e9);
  displayFactor ← to_int64 (double_mul (display_factor instrument) one_e9);
  minPriceIncrementAmount ← to_int64 (double_mul (min_price_increment_amount instrument) one_e9);
  contractMultiplier ← to_int32 (contract_multiplier instrument);
  unitOfMeasureQty ← to_int64 (double_mul (contract_multiplier instrument) one_e9);
  let null := mantissa Price_null in
  encode_vec (MDInstrumentDefinitionFuture54.mk EndOfEvent tot_num_reports Init.Byte.x41 0
    (SecurityTradingStatus_to_u8 (trading_status instrument)) (i16 (in_channel_id instrument)) (u8 (in_channel_id instrument))
    14 (copyStr 4 (chars "XCME")) (copyStr 6 (chars (security_group instrument))) (copyStr 6 (chars (asset instrument)))
    (copyStr 20 (chars (in_symbol instrument))) (in_security_id instrument) (copyStr 6 (chars "FUT"))
    (copyStr 6 (chars "FXXXXX")) maturityMonthYear (copyStr 3 (chars "USD")) (copyStr 3 (chars "USD")) Init.Byte.x46
    (u32 (min_trade_vol instrument)) (u32 (max_trade_vol instrument)) minPriceIncrement displayFactor 0 0 0
    (copyStr 30 (chars (unit_of_measure instrument))) unitOfMeasureQty null 0 0 0 null null null 0 0
    contractMultiplier contractMultiplier 0 0 minPriceIncrementAmount Init.Byte.x4e 0).

End MarketDataOps.
