(* ===== verification/Publisher.v ===== *)
(** * Market data feeds (src/market_data/feed_sender.cpp, channel_publisher.cpp,
    snapshot_cycler.cpp, market_data_publisher.cpp, src/network/udp_multicast_sender.cpp,
    makeBookSnapshotProvider of src/main.cpp)

    A feed is its next sequence number and the datagrams handed to its socket, in
    order; what the network does with them, and its errors, which the source
    logs, are outside the model. The system clock is a parameter indexed by the
    number of the read. The rounds of the background threads are operations here
    and steps of the process in Exchange.v. *)
From S2P Require Import Prelude Types Sbe Mdp3 Order PriceLevel OrderBook Engine Instrument InstrumentManager MarketData.
Import InstrumentManagerOps MarketDataOps.

Record FeedSender := mkFeedSender { next_seq_num_ : Z; datagrams : list buffer }.

Record SnapshotCycler := mkSnapshotCycler {
  cycler_instruments_ : list SecurityId;
  last_incr_seq_ : Z;
  cycle_count_ : Z;
}.

Record ChannelPublisher := mkChannelPublisher {
  channel_id_ : Z;
  incremental_feed_a_ : FeedSender;
  incremental_feed_b_ : FeedSender;
  snapshot_feed_a_ : FeedSender;
  snapshot_feed_b_ : FeedSender;
  instdef_feed_a_ : FeedSender;
  instdef_feed_b_ : FeedSender;
  incremental_builder_ : gmap SecurityId Z;
  snapshot_cycler_ : option SnapshotCycler;
}.

Record MarketDataPublisher := mkMarketDataPublisher {
  channel_publishers_ : gmap Z ChannelPublisher;
  security_to_channel_ : gmap SecurityId Z;
  md_reads : nat;
}.

(** The depth the snapshot provider returns: levels and order counts per side. *)
Abbreviation Depth := (list (Price * Quantity) * list (Price * Quantity) * list Z * list Z)%type.

Module PublisherOps.

Definition FeedSender_init : FeedSender := mkFeedSender 1 [].

(** [UdpMulticastSender::send]: the packet it hands to the socket. *)
Definition udp_packet (seq_num sending_time : Z) (sbe_messages : buffer) : option buffer :=
  let packet := replicate (PacketHeader.SIZE + length sbe_messages) Init.Byte.x00 in
  packet ← memcpy_to packet 0 (LittleEndianList.le_split 4 (native_to_little32 seq_num)) 4;
  packet ← memcpy_to packet 4 (LittleEndianList.le_split 8 (native_to_little64 sending_time)) 8;
  if (0 <? length sbe_messages)%nat then memcpy_to packet PacketHeader.SIZE sbe_messages (length sbe_messages)
  else Some packet.

(** Feeds read the clock; [t] is the reading. *)
Definition sendWithSeqNum (f : FeedSender) (t seq_num : Z) (sbe_messages : buffer) : option FeedSender :=
  packet ← udp_packet seq_num (u64 t) sbe_messages;
  Some (mkFeedSender (next_seq_num_ f) (datagrams f ++ [packet])).
Definition send (f : FeedSender) (t : Z) (sbe_messages : buffer) : option FeedSender :=
  packet ← udp_packet (next_seq_num_ f) (u64 t) sbe_messages;
  Some (mkFeedSender (u32 (next_seq_num_ f + 1)) (datagrams f ++ [packet])).

Definition setLastIncrementalSeqNum (seq : Z) (c : SnapshotCycler) : SnapshotCycler :=
  mkSnapshotCycler (cycler_instruments_ c) seq (cycle_count_ c).

Definition ChannelPublisher_init (channel_id : Z) : ChannelPublisher :=
  mkChannelPublisher channel_id FeedSender_init FeedSender_init FeedSender_init FeedSender_init FeedSender_init FeedSender_init
    ∅ None.

Definition initSnapshotCycler (c : ChannelPublisher) (instruments : list SecurityId) : ChannelPublisher :=
  mkChannelPublisher (channel_id_ c) (incremental_feed_a_ c) (incremental_feed_b_ c) (snapshot_feed_a_ c) (snapshot_feed_b_ c)
    (instdef_feed_a_ c) (instdef_feed_b_ c) (incremental_builder_ c) (Some (mkSnapshotCycler instruments 0 0)).

Definition currentIncrementalSeqNum (c : ChannelPublisher) : Z := u32 (next_seq_num_ (incremental_feed_a_ c) - 1).

Section clock.
Context (system : nat → Z).

(** The end of [publishIncrementalUpdates] and [publishSecurityStatus]: both
    incremental feeds with one sequence number, which the cycler is told. *)
Definition send_incremental (c : ChannelPublisher) (reads : nat) (packet : buffer) : option (ChannelPublisher * nat) :=
  let seq := next_seq_num_ (incremental_feed_a_ c) in
  feed_a ← send (incremental_feed_a_ c) (system reads) packet;
  feed_b ← sendWithSeqNum (incremental_feed_b_ c) (system (S reads)) seq packet;
  Some (mkChannelPublisher (channel_id_ c) feed_a feed_b (snapshot_feed_a_ c) (snapshot_feed_b_ c) (instdef_feed_a_ c)
    (instdef_feed_b_ c) (incremental_builder_ c) (setLastIncrementalSeqNum seq <$> snapshot_cycler_ c), S (S reads)).

Definition set_builder (b : gmap SecurityId Z) (c : ChannelPublisher) : ChannelPublisher :=
  mkChannelPublisher (channel_id_ c) (incremental_feed_a_ c) (incremental_feed_b_ c) (snapshot_feed_a_ c) (snapshot_feed_b_ c)
    (instdef_feed_a_ c) (instdef_feed_b_ c) b (snapshot_cycler_ c).

Definition publishIncrementalUpdates (c : ChannelPublisher) (reads : nat) (events : list EngineEvent) (transact_time : Timestamp)
    : option (ChannelPublisher * nat) :=
  if bool_decide (events = []) then Some (c, reads) else
  '(packet, b) ← buildIncrementalPacket (incremental_builder_ c) events transact_time;
  let c := set_builder b c in
  if bool_decide (packet = []) then Some (c, reads) else send_incremental c reads packet.

Definition publishSecurityStatus (c : ChannelPublisher) (reads : nat) (security_id : SecurityId)
    (status : SecurityTradingStatus) (transact_time : Timestamp) : option (ChannelPublisher * nat) :=
  buf ← encode_vec (SecurityStatus30.mk transact_time (replicate 6 Init.Byte.x00) (replicate 6 Init.Byte.x00) security_id 0
    EndOfEvent (SecurityTradingStatus_to_u8 status) 0 0);
  send_incremental c reads buf.

Fixpoint replayInstrumentDefinitions_loop (tot : Z) (c : ChannelPublisher) (reads : nat) (instruments : list Instrument)
    : option (ChannelPublisher * nat) :=
  match instruments with
  | [] => Some (c, reads)
  | inst :: instruments =>
      msg ← buildDefinition inst tot;
      if bool_decide (msg = []) then replayInstrumentDefinitions_loop tot c reads instruments else
      feed_a ← send (instdef_feed_a_ c) (system reads) msg;
      feed_b ← send (instdef_feed_b_ c) (system (S reads)) msg;
      replayInstrumentDefinitions_loop tot
        (mkChannelPublisher (channel_id_ c) (incremental_feed_a_ c) (incremental_feed_b_ c) (snapshot_feed_a_ c)
          (snapshot_feed_b_ c) feed_a feed_b (incremental_builder_ c) (snapshot_cycler_ c)) (S (S reads)) instruments
  end.
Definition replayInstrumentDefinitions (c : ChannelPublisher) (reads : nat) (instruments : list Instrument)
    : option (ChannelPublisher * nat) :=
  replayInstrumentDefinitions_loop (u32 (Z.of_nat (length instruments))) c reads instruments.

(** *** The snapshot cycler; [provider] is the callback. *)
Section cycler.
Context (provider : SecurityId → Depth).

Fixpoint runCycle_loop (last_incremental_seq_num tot_num_reports : Z) (count : Z) (feed_a feed_b : FeedSender) (reads : nat)
    (instruments : list SecurityId) : option (Z * FeedSender * FeedSender * nat) :=
  match instruments with
  | [] => Some (count, feed_a, feed_b, reads)
  | sec_id :: instruments =>
      let '(bids, asks, bid_counts, ask_counts) := provider sec_id in
      let count := u32 (count + 1) in
      snapshot ← buildSnapshot sec_id last_incremental_seq_num tot_num_reports bids asks bid_counts ask_counts count
        (u64 (system reads));
      if bool_decide (snapshot = []) then runCycle_loop last_incremental_seq_num tot_num_reports count feed_a feed_b (S reads) instruments
      else
        feed_a ← send feed_a (system (S reads)) snapshot;
        feed_b ← send feed_b (system (S (S reads))) snapshot;
        runCycle_loop last_incremental_seq_num tot_num_reports count feed_a feed_b (S (S (S reads))) instruments
  end.

(** One round of [SnapshotCycler::run]: a cycle with the last incremental number. *)
Definition runCycle (c : ChannelPublisher) (reads : nat) : option (ChannelPublisher * nat) :=
  cy ← snapshot_cycler_ c;
  '(count, feed_a, feed_b, reads) ← runCycle_loop (last_incr_seq_ cy) (u32 (Z.of_nat (length (cycler_instruments_ cy))))
    (cycle_count_ cy) (snapshot_feed_a_ c) (snapshot_feed_b_ c) reads (cycler_instruments_ cy);
  Some (mkChannelPublisher (channel_id_ c) (incremental_feed_a_ c) (incremental_feed_b_ c) feed_a feed_b (instdef_feed_a_ c)
    (instdef_feed_b_ c) (incremental_builder_ c) (Some (mkSnapshotCycler (cycler_instruments_ cy) (last_incr_seq_ cy) count)), reads).
End cycler.

(** *** The publisher *)
Definition MarketDataPublisher_init (channels : list ChannelConfig) (m : InstrumentManager) : MarketDataPublisher :=
  mkMarketDataPublisher
    (foldl (λ pubs ch_cfg, <[cc_channel_id ch_cfg := ChannelPublisher_init (cc_channel_id ch_cfg)]> pubs) ∅ channels)
    (foldl (λ s2c inst, <[in_security_id inst := in_channel_id inst]> s2c) ∅ (instruments_ m)) 0.

Definition getChannelForSecurity (p : MarketDataPublisher) (sec_id : SecurityId) : Z :=
  match security_to_channel_ p !! sec_id with Some ch => ch | None => 0 end.

(** The security of a published event. *)
Definition published_security (e : EngineEvent) : option SecurityId :=
  match e with
  | BookUpdate security_id _ _ _ _ _ _ _ => Some security_id
  | OrderFilled _ security_id _ _ _ _ _ _ _ _ _ _ _ _ _ _ _ => Some security_id
  | _ => None
  end.

(** The grouping loop of [publishEvents]. *)
Definition group_event (p : MarketDataPublisher) (by_channel : gmap Z (list EngineEvent)) (ev : EngineEvent)
    : gmap Z (list EngineEvent) :=
  match published_security ev with
  | None => by_channel
  | Some sec_id =>
      let channel := getChannelForSecurity p sec_id in
      if negb (channel =? 0) then <[channel := default [] (by_channel !! channel) ++ [ev]]> by_channel else by_channel
  end.

Definition set_publisher (ch : Z) (c : ChannelPublisher) (reads : nat) (p : MarketDataPublisher) : MarketDataPublisher :=
  mkMarketDataPublisher (<[ch := c]> (channel_publishers_ p)) (security_to_channel_ p) reads.

(** The publishing loop, over the channels of the hash map in the order [order]. *)
Fixpoint publish_channels (ts : Timestamp) (by_channel : gmap Z (list EngineEvent)) (p : MarketDataPublisher) (order : list Z)
    : option MarketDataPublisher :=
  match order with
  | [] => Some p
  | channel_id :: order =>
      match by_channel !! channel_id, channel_publishers_ p !! channel_id with
      | Some ch_events, Some c =>
          '(c, reads) ← publishIncrementalUpdates c (md_reads p) ch_events ts;
          publish_channels ts by_channel (set_publisher channel_id c reads p) order
      | _, _ => publish_channels ts by_channel p order
      end
  end.

Definition publishEvents (p : MarketDataPublisher) (order : list Z) (events : list EngineEvent) : option MarketDataPublisher :=
  if bool_decide (events = []) then Some p else
  let ts := u64 (system (md_reads p)) in
  let by_channel := foldl (group_event p) ∅ events in
  publish_channels ts by_channel (mkMarketDataPublisher (channel_publishers_ p) (security_to_channel_ p) (S (md_reads p))) order.

(** [start]: a cycler for every channel. *)
Definition start_cyclers (m : InstrumentManager) (p : MarketDataPublisher) : MarketDataPublisher :=
  mkMarketDataPublisher
    (map_imap (λ ch_id c, Some (initSnapshotCycler c (in_security_id <$> getInstrumentsByChannel m ch_id))) (channel_publishers_ p))
    (security_to_channel_ p) (md_reads p).

(** One round of [instdefReplayLoop]. *)
Fixpoint replay_round (m : InstrumentManager) (p : MarketDataPublisher) (order : list Z) : option MarketDataPublisher :=
  match order with
  | [] => Some p
  | ch_id :: order =>
      match channel_publishers_ p !! ch_id with
      | Some c =>
          '(c, reads) ← replayInstrumentDefinitions c (md_reads p) (getInstrumentsByChannel m ch_id);
          replay_round m (set_publisher ch_id c reads p) order
      | None => replay_round m p order
      end
  end.

End clock.

(** [makeBookSnapshotProvider]: the levels of the engine's book, nothing for an
    unknown security. *)
Definition book_snapshot (e : FullMatchingEngine) (sec_id : SecurityId) : Depth :=
  match EngineOps.getOrderBook e sec_id with
  | None => ([], [], [], [])
  | Some book =>
      let side lv := ((λ '(p, l), (p, total_quantity l)) <$> lv) in
      let counts lv := ((λ '(_, l), order_count l) <$> lv) in
      (side (bid_levels_ book), side (ask_levels_ book), counts (bid_levels_ book), counts (ask_levels_ book))
  end.

End PublisherOps.
