(* ===== verification/Listener.v ===== *)
(** * The market data listener (tools/mdp3_listener.cpp)

    The receiving loop, the packet walk and the message decoder of the command
    line listener, with what it prints as a list of values, the fields of each
    line. The arguments, the statistics and [main] are in ListenerMain.v, the text
    of the lines in ListenerText.v. *)
From S2P Require Import Prelude Types Sbe ILink3 Mdp3.

Record Stats := mkStats {
  packetsReceived : Z;
  messagesDecoded : Z;
  gaps : Z;
  lastSeqNum : Z;
}.

(** One line, or one message with its entry lines, on the terminal. *)
Inductive Output :=
| OTooShort (len : nat)
| OGap (expected got missing : Z)
| OPacket (seqNum sendingTime : Z)
| OBook46 (transactTime : Z) (entries : list MDIncrementalRefreshBook46.Entry.t)
| OTrade48 (transactTime : Z) (trades : list (Z * Z * Z * Z * Z))
| OSnapshot52 (securityID rptSeq status : Z) (entries : list SnapshotFullRefresh52.Entry.t)
| OInstrDef54 (symbol : list byte) (securityID : Z) (group asset : list byte) (status minPriceIncrement : Z)
| OSecStatus30 (securityID : Z) (group : list byte) (status event : Z)
| OHeartbeat12
| OChannelReset4 (applIDs : list Z)
| OUnknown (templateId blockLength : Z).

Module ListenerOps.

Definition Stats_init : Stats := mkStats 0 0 0 0.
Definition count_message (s : Stats) : Stats :=
  mkStats (packetsReceived s) (u64 (messagesDecoded s + 1)) (gaps s) (lastSeqNum s).

(** What is printed of a trade: security, price, size, aggressor, number. *)
Definition trade_line (e : MDIncrementalRefreshTradeSummary48.MDEntry.t) : Z * Z * Z * Z * Z :=
  let '(MDIncrementalRefreshTradeSummary48.MDEntry.mk px size sec rpt _ side _) := e in (sec, px, size, side, rpt).

Definition decodeMessage (data : buffer) (offset totalLen : nat) (stats : Stats) : option (Stats * list Output) :=
  if (totalLen <? offset + MessageHeader.SIZE)%nat then Some (stats, []) else
  templateId ← MessageHeader.decodeTemplateId data offset;
  blockLength ← MessageHeader.decodeBlockLength data offset;
  let stats := count_message stats in
  if templateId =? MDIncrementalRefreshBook46.TEMPLATE_ID then
    msg ← MDIncrementalRefreshBook46.decode data offset;
    Some (stats, [OBook46 (MDIncrementalRefreshBook46.transactTime msg) (MDIncrementalRefreshBook46.entries msg)])
  else if templateId =? MDIncrementalRefreshTradeSummary48.TEMPLATE_ID then
    msg ← MDIncrementalRefreshTradeSummary48.decode data offset;
    Some (stats, [OTrade48 (MDIncrementalRefreshTradeSummary48.transactTime msg)
      (trade_line <$> MDIncrementalRefreshTradeSummary48.mdEntries msg)])
  else if templateId =? SnapshotFullRefresh52.TEMPLATE_ID then
    msg ← SnapshotFullRefresh52.decode data offset;
    Some (stats, [OSnapshot52 (SnapshotFullRefresh52.securityID msg) (SnapshotFullRefresh52.rptSeq msg)
      (SnapshotFullRefresh52.mdSecurityTradingStatus msg) (SnapshotFullRefresh52.entries msg)])
  else if templateId =? MDInstrumentDefinitionFuture54.TEMPLATE_ID then
    msg ← MDInstrumentDefinitionFuture54.decode data offset;
    Some (stats, [OInstrDef54 (readFixedString (MDInstrumentDefinitionFuture54.symbol msg) 20)
      (MDInstrumentDefinitionFuture54.securityID msg)
      (readFixedString (MDInstrumentDefinitionFuture54.securityGroup msg) 6)
      (readFixedString (MDInstrumentDefinitionFuture54.asset msg) 6)
      (MDInstrumentDefinitionFuture54.mdSecurityTradingStatus msg)
      (MDInstrumentDefinitionFuture54.minPriceIncrement msg)])
  else if templateId =? SecurityStatus30.TEMPLATE_ID then
    msg ← SecurityStatus30.decode data offset;
    Some (stats, [OSecStatus30 (SecurityStatus30.securityID msg) (readFixedString (SecurityStatus30.securityGroup msg) 6)
      (SecurityStatus30.securityTradingStatus msg) (SecurityStatus30.securityTradingEvent msg)])
  else if templateId =? AdminHeartbeat12.TEMPLATE_ID then Some (stats, [OHeartbeat12])
  else if templateId =? ChannelReset4.TEMPLATE_ID then
    msg ← ChannelReset4.decode data offset;
    Some (stats, [OChannelReset4 (ChannelReset4.Entry.applID <$> ChannelReset4.entries msg)])
  else Some (stats, [OUnknown templateId blockLength]).

(** The second [switch] of [processPacket]: how far to advance. *)
Definition message_size (data : buffer) (offset : nat) (templateId blockLength : Z) : option nat :=
  if templateId =? MDIncrementalRefreshBook46.TEMPLATE_ID then
    MDIncrementalRefreshBook46.encodedLength <$> MDIncrementalRefreshBook46.decode data offset
  else if templateId =? MDIncrementalRefreshTradeSummary48.TEMPLATE_ID then
    MDIncrementalRefreshTradeSummary48.encodedLength <$> MDIncrementalRefreshTradeSummary48.decode data offset
  else if templateId =? SnapshotFullRefresh52.TEMPLATE_ID then
    SnapshotFullRefresh52.encodedLength <$> SnapshotFullRefresh52.decode data offset
  else if templateId =? ChannelReset4.TEMPLATE_ID then
    ChannelReset4.encodedLength <$> ChannelReset4.decode data offset
  else Some (MessageHeader.SIZE + Z.to_nat blockLength)%nat.

(** How the walk over a packet ends: at its end, with a read outside the
    receive buffer, or not within the fuel. *)
Inductive outcome := Done (stats : Stats) (out : list Output) | Overread | OutOfFuel.

Fixpoint walk_packet (fuel : nat) (data : buffer) (offset len : nat) (stats : Stats) (out : list Output) : outcome :=
  if (offset + MessageHeader.SIZE <=? len)%nat then
    match fuel with
    | O => OutOfFuel
    | S fuel =>
        match (blockLength ← MessageHeader.decodeBlockLength data offset;
               templateId ← MessageHeader.decodeTemplateId data offset;
               '(stats, printed) ← decodeMessage data offset len stats;
               msgSize ← message_size data offset templateId blockLength;
               Some (msgSize, stats, printed)) with
        | None => Overread
        | Some (msgSize, stats, printed) =>
            if (msgSize =? 0)%nat then Done stats (out ++ printed)
            else walk_packet fuel data (offset + msgSize) len stats (out ++ printed)
        end
    end
  else Done stats out.

(** The check for a gap in the sequence numbers. *)
Definition check_gap (seqNum : Z) (stats : Stats) : Stats * list Output :=
  if (0 <? lastSeqNum stats) && negb (seqNum =? u32 (lastSeqNum stats + 1)) then
    let gap := u32 (seqNum - lastSeqNum stats - 1) in
    (mkStats (packetsReceived stats) (messagesDecoded stats) (u64 (gaps stats + gap)) (lastSeqNum stats),
     [OGap (u32 (lastSeqNum stats + 1)) seqNum gap])
  else (stats, []).

Definition processPacket (data : buffer) (len : nat) (stats : Stats) : outcome :=
  if (len <? PacketHeader.SIZE)%nat then Done stats [OTooShort len] else
  match (seqNum ← PacketHeader.decodeMsgSeqNum data 0;
         sendingTime ← PacketHeader.decodeSendingTime data 0; Some (seqNum, sendingTime)) with
  | None => Overread
  | Some (seqNum, sendingTime) =>
      let '(stats, printed) := check_gap seqNum stats in
      let stats := mkStats (u64 (packetsReceived stats + 1)) (messagesDecoded stats) (gaps stats) seqNum in
      walk_packet len data PacketHeader.SIZE len stats (printed ++ [OPacket seqNum sendingTime])
  end.

(** [receive_from]: the datagram, cut to the buffer, over what the buffer held. *)
Definition receive_from (recvBuf datagram : buffer) : buffer * nat :=
  let bytes := take (length recvBuf) datagram in (bytes ++ drop (length bytes) recvBuf, length bytes).

(** The receive loop of [main] over the datagrams that arrive. *)
Fixpoint listen (recvBuf : buffer) (datagrams : list buffer) (stats : Stats) : option (Stats * list Output) :=
  match datagrams with
  | [] => Some (stats, [])
  | d :: datagrams =>
      let '(recvBuf, bytesRead) := receive_from recvBuf d in
      match processPacket recvBuf bytesRead stats with
      | Done stats printed => '(stats, out) ← listen recvBuf datagrams stats; Some (stats, printed ++ out)
      | _ => None
      end
  end.

End ListenerOps.
