(* ===== verification/ListenerTheorems.v ===== *)
(** * The listener walks packets

    What the listener does with a packet of well-formed messages, and that its
    walk ends on any packet. *)
From S2P Require Import Prelude Types Sbe ILink3 Mdp3 Dispatcher Listener.
Import ListenerOps.

(** ** Messages back to back *)
Definition MDP3Msg_bytes (m : MDP3Msg) : list byte :=
  match m with
  | M_ChannelReset4 m => sbe_bytes m
  | M_AdminHeartbeat12 m => sbe_bytes m
  | M_SecurityStatus30 m => sbe_bytes m
  | M_MDIncrementalRefreshBook46 m => sbe_bytes m
  | M_MDIncrementalRefreshTradeSummary48 m => sbe_bytes m
  | M_SnapshotFullRefresh52 m => sbe_bytes m
  | M_MDInstrumentDefinitionFuture54 m => sbe_bytes m
  end.

(** What the listener prints of a message. *)
Definition printed (m : MDP3Msg) : Output :=
  match m with
  | M_ChannelReset4 m => OChannelReset4 (ChannelReset4.Entry.applID <$> ChannelReset4.entries m)
  | M_AdminHeartbeat12 m => OHeartbeat12
  | M_SecurityStatus30 m =>
      OSecStatus30 (SecurityStatus30.securityID m) (readFixedString (SecurityStatus30.securityGroup m) 6)
        (SecurityStatus30.securityTradingStatus m) (SecurityStatus30.securityTradingEvent m)
  | M_MDIncrementalRefreshBook46 m => OBook46 (MDIncrementalRefreshBook46.transactTime m) (MDIncrementalRefreshBook46.entries m)
  | M_MDIncrementalRefreshTradeSummary48 m =>
      OTrade48 (MDIncrementalRefreshTradeSummary48.transactTime m) (trade_line <$> MDIncrementalRefreshTradeSummary48.mdEntries m)
  | M_SnapshotFullRefresh52 m =>
      OSnapshot52 (SnapshotFullRefresh52.securityID m) (SnapshotFullRefresh52.rptSeq m)
        (SnapshotFullRefresh52.mdSecurityTradingStatus m) (SnapshotFullRefresh52.entries m)
  | M_MDInstrumentDefinitionFuture54 m =>
      OInstrDef54 (readFixedString (MDInstrumentDefinitionFuture54.symbol m) 20) (MDInstrumentDefinitionFuture54.securityID m)
        (readFixedString (MDInstrumentDefinitionFuture54.securityGroup m) 6)
        (readFixedString (MDInstrumentDefinitionFuture54.asset m) 6)
        (MDInstrumentDefinitionFuture54.mdSecurityTradingStatus m) (MDInstrumentDefinitionFuture54.minPriceIncrement m)
  end.

Lemma MDP3Msg_bytes_length m : MDP3Msg_wf m → length (MDP3Msg_bytes m) = MDP3Msg_encodedLength m.
Proof. destruct m as [m|m|m|m|m|m|m]; intros Hw; exact (sbe_bytes_length m Hw). Qed.

Lemma header_block bl tid sch ver pre post :
  bl ∈u 16 →
  MessageHeader.decodeBlockLength (pre ++ MessageHeader.bytes bl tid sch ver ++ post) (length pre) = Some bl.
Proof.
  intros. unfold MessageHeader.decodeBlockLength. rewrite <-header_payload.
  rewrite <-(Nat.add_0_r (length pre)) at 1.
  apply (rd_u_packed _ _ _ (header_packed bl tid sch ver) _ eq_refl); [| done]. by left.
Qed.

(** The block length in a message's header. *)
Definition MDP3Msg_block (m : MDP3Msg) : Z :=
  match m with
  | M_ChannelReset4 _ => ChannelReset4.BLOCK_LENGTH
  | M_AdminHeartbeat12 _ => AdminHeartbeat12.BLOCK_LENGTH
  | M_SecurityStatus30 _ => SecurityStatus30.BLOCK_LENGTH
  | M_MDIncrementalRefreshBook46 _ => MDIncrementalRefreshBook46.BLOCK_LENGTH
  | M_MDIncrementalRefreshTradeSummary48 _ => MDIncrementalRefreshTradeSummary48.BLOCK_LENGTH
  | M_SnapshotFullRefresh52 _ => SnapshotFullRefresh52.BLOCK_LENGTH
  | M_MDInstrumentDefinitionFuture54 _ => MDInstrumentDefinitionFuture54.BLOCK_LENGTH
  end.

Lemma message_block m pre post :
  MessageHeader.decodeBlockLength (pre ++ MDP3Msg_bytes m ++ post) (length pre) = Some (MDP3Msg_block m).
Proof.
  destruct m; cbn [MDP3Msg_bytes sbe_bytes ChannelReset4.codec AdminHeartbeat12.codec SecurityStatus30.codec
    MDIncrementalRefreshBook46.codec MDIncrementalRefreshTradeSummary48.codec SnapshotFullRefresh52.codec
    MDInstrumentDefinitionFuture54.codec];
  unfold ChannelReset4.bytes, AdminHeartbeat12.bytes, SecurityStatus30.bytes, MDIncrementalRefreshBook46.bytes,
    MDIncrementalRefreshTradeSummary48.bytes, SnapshotFullRefresh52.bytes, MDInstrumentDefinitionFuture54.bytes;
  rewrite <-?app_assoc; by apply header_block.
Qed.

Lemma message_template m pre post :
  MDP3Msg_wf m →
  MessageHeader.decodeTemplateId (pre ++ MDP3Msg_bytes m ++ post) (length pre) = Some (MDP3Msg_template m).
Proof. destruct m as [m|m|m|m|m|m|m]; intros Hw; exact (sbe_template_spec m pre post Hw). Qed.

(** Evaluates the tests on a known template and the decoder of a known type. *)
Ltac eval_template := cbn [Z.eqb Pos.eqb MDP3Msg_template
    ChannelReset4.TEMPLATE_ID AdminHeartbeat12.TEMPLATE_ID SecurityStatus30.TEMPLATE_ID
    MDIncrementalRefreshBook46.TEMPLATE_ID MDIncrementalRefreshTradeSummary48.TEMPLATE_ID
    SnapshotFullRefresh52.TEMPLATE_ID MDInstrumentDefinitionFuture54.TEMPLATE_ID].
Ltac eval_decode H := cbn [sbe_decode
    ChannelReset4.codec AdminHeartbeat12.codec SecurityStatus30.codec MDIncrementalRefreshBook46.codec
    MDIncrementalRefreshTradeSummary48.codec SnapshotFullRefresh52.codec MDInstrumentDefinitionFuture54.codec] in H.

Lemma decode_message m pre post len stats :
  MDP3Msg_wf m → (length pre + MessageHeader.SIZE ≤ len)%nat →
  decodeMessage (pre ++ MDP3Msg_bytes m ++ post) (length pre) len stats = Some (count_message stats, [printed m]).
Proof.
  intros Hw Hl. unfold decodeMessage. destruct (Nat.ltb_spec len (length pre + MessageHeader.SIZE)); [lia |].
  rewrite message_template, message_block by done. cbn [mbind option_bind].
  destruct m as [m|m|m|m|m|m|m]; cbn [MDP3Msg_bytes MDP3Msg_wf] in *; pose proof (sbe_decode_spec m pre post Hw) as Hd;
    eval_decode Hd; eval_template; try rewrite Hd; done.
Qed.

Lemma message_advance m pre post :
  MDP3Msg_wf m →
  message_size (pre ++ MDP3Msg_bytes m ++ post) (length pre) (MDP3Msg_template m) (MDP3Msg_block m) =
    Some (MDP3Msg_encodedLength m).
Proof.
  intros Hw. unfold message_size.
  destruct m as [m|m|m|m|m|m|m]; cbn [MDP3Msg_bytes MDP3Msg_wf] in *; pose proof (sbe_decode_spec m pre post Hw) as Hd;
    eval_decode Hd; eval_template; try rewrite Hd; done.
Qed.

Lemma message_long m : (MessageHeader.SIZE ≤ MDP3Msg_encodedLength m)%nat.
Proof.
  destruct m; cbn [MDP3Msg_encodedLength]; unfold ChannelReset4.encodedLength, AdminHeartbeat12.encodedLength,
    SecurityStatus30.encodedLength, MDIncrementalRefreshBook46.encodedLength, MDIncrementalRefreshTradeSummary48.encodedLength,
    SnapshotFullRefresh52.encodedLength, MDInstrumentDefinitionFuture54.encodedLength; lia.
Qed.

Definition messages_bytes (msgs : list MDP3Msg) : list byte := concat (MDP3Msg_bytes <$> msgs).

Definition count_messages (n : nat) (s : Stats) : Stats := Nat.iter n count_message s.

Lemma walk_messages msgs : ∀ fuel pre post stats out,
  Forall MDP3Msg_wf msgs → (length msgs ≤ fuel)%nat →
  walk_packet fuel (pre ++ messages_bytes msgs ++ post) (length pre) (length pre + length (messages_bytes msgs)) stats out =
    Done (count_messages (length msgs) stats) (out ++ (printed <$> msgs)).
Proof.
  induction msgs as [|m msgs IH]; intros fuel pre post stats out Hw Hf.
  - cbn [messages_bytes fmap list_fmap concat length]. rewrite Nat.add_0_r, app_nil_r.
    destruct fuel; cbn [walk_packet]; destruct (Nat.leb_spec (length pre + MessageHeader.SIZE) (length pre)); try done;
      unfold MessageHeader.SIZE in *; lia.
  - apply Forall_cons in Hw as [Hm Hw]. cbn [length] in Hf. destruct fuel as [|fuel]; [lia |].
    unfold messages_bytes in *. cbn [fmap list_fmap concat]. rewrite <-app_assoc, length_app, MDP3Msg_bytes_length by done.
    pose proof (message_long m) as Hlong. cbn [walk_packet].
    match goal with |- context [(?a <=? ?b)%nat] => destruct (Nat.leb_spec a b); [| lia] end.
    rewrite message_block, message_template, decode_message by (done || lia). cbn [mbind option_bind].
    rewrite message_advance by done. cbn [mbind option_bind].
    destruct (Nat.eqb_spec (MDP3Msg_encodedLength m) 0); [unfold MessageHeader.SIZE in *; lia |].
    rewrite app_assoc. specialize (IH fuel (pre ++ MDP3Msg_bytes m) post (count_message stats) (out ++ [printed m]) Hw ltac:(lia)).
    rewrite length_app, MDP3Msg_bytes_length, <-!Nat.add_assoc in IH by done. rewrite IH. f_equal.
    + unfold count_messages. cbn [length]. by rewrite Nat.iter_succ_r.
    + by rewrite <-app_assoc.
Qed.

(** ** Packets *)

(** The bytes of a packet and what the listener does with it. *)
Definition packet_bytes (seq t : Z) (body : list byte) : list byte := le_split 4 seq ++ le_split 8 t ++ body.

Lemma packet_bytes_length seq t body : length (packet_bytes seq t body) = (PacketHeader.SIZE + length body)%nat.
Proof. unfold packet_bytes. by rewrite !length_app, !length_le_split. Qed.

Lemma packet_seq seq t body post :
  seq ∈u 32 → PacketHeader.decodeMsgSeqNum (packet_bytes seq t body ++ post) 0 = Some seq.
Proof.
  intros Hs. unfold PacketHeader.decodeMsgSeqNum, packet_bytes. rewrite <-!app_assoc. unfold rd_u.
  rewrite <-(app_nil_l (le_split 4 seq)) at 1. rewrite <-app_assoc.
  rewrite (slice_app_eq 0 4 [] (le_split 4 seq)) by (try done; by rewrite length_le_split).
  cbn [fmap option_fmap option_map]. f_equal. rewrite le_combine_split. by apply Z.mod_small.
Qed.

Lemma packet_time seq t body post :
  t ∈u 64 → PacketHeader.decodeSendingTime (packet_bytes seq t body ++ post) 0 = Some t.
Proof.
  intros Hs. unfold PacketHeader.decodeSendingTime, packet_bytes. rewrite <-!app_assoc. unfold rd_u.
  rewrite (slice_app_eq (0 + 4) 8 (le_split 4 seq) (le_split 8 t)) by (by rewrite length_le_split).
  cbn [fmap option_fmap option_map]. f_equal. rewrite le_combine_split. by apply Z.mod_small.
Qed.

Definition count_packet (seq : Z) (s : Stats) : Stats := mkStats (u64 (packetsReceived s + 1)) (messagesDecoded s) (gaps s) seq.

Lemma process_packet msgs seq t post stats :
  seq ∈u 32 → t ∈u 64 → Forall MDP3Msg_wf msgs →
  processPacket (packet_bytes seq t (messages_bytes msgs) ++ post) (length (packet_bytes seq t (messages_bytes msgs))) stats =
    Done (count_messages (length msgs) (count_packet seq (check_gap seq stats).1))
      ((check_gap seq stats).2 ++ OPacket seq t :: (printed <$> msgs)).
Proof.
  intros Hs Ht Hw. unfold processPacket. rewrite packet_seq, packet_time by done. cbn [mbind option_bind].
  rewrite packet_bytes_length. destruct (Nat.ltb_spec (PacketHeader.SIZE + length (messages_bytes msgs)) PacketHeader.SIZE); [lia |].
  destruct (check_gap seq stats) as [stats1 out1]. cbn [fst snd].
  assert (length (le_split 4 seq ++ le_split 8 t) = PacketHeader.SIZE) as El by (by rewrite length_app, !length_le_split).
  unfold packet_bytes. rewrite (app_assoc (le_split 4 seq)), <-(app_assoc (_ ++ _)).
  rewrite <-El at 2 3. rewrite walk_messages; [| done |].
  - by rewrite <-app_assoc.
  - clear -Hw. induction Hw as [|m msgs Hm Hw IH]; [cbn; lia |]. cbn [length]. unfold messages_bytes in *.
    cbn [fmap list_fmap concat]. rewrite length_app, MDP3Msg_bytes_length by done. pose proof (message_long m). unfold MessageHeader.SIZE in *. lia.
Qed.

(** ** Termination *)
Lemma walk_terminates data len : ∀ fuel offset stats out,
  (len ≤ offset + fuel)%nat → walk_packet fuel data offset len stats out ≠ OutOfFuel.
Proof.
  induction fuel as [|fuel IH]; intros offset stats out Hf; cbn [walk_packet];
    destruct (Nat.leb_spec (offset + MessageHeader.SIZE) len); try done.
  - unfold MessageHeader.SIZE in *. lia.
  - destruct (MessageHeader.decodeBlockLength data offset ≫= _) as [[[n stats'] out']|]; [| done].
    destruct (Nat.eqb_spec n 0); [done |]. apply IH. lia.
Qed.
