(* ===== verification/ListenerMain.v ===== *)
(** * The process of the market data listener (tools/mdp3_listener.cpp)

    [main] around the packet walk of [Listener.v]: arguments, the multicast group
    and port, the receive loop with its statistics, and what it prints. Asio is a
    parameter: [socket_ok] tells whether a socket can be bound to an interface and
    port and join a group (it throws otherwise), a [Poll] is the result of a
    non-blocking read. [steady] is the steady clock in nanoseconds by the number of
    the read. A signal is seen at the next test of [g_running]. *)
From stdpp Require Import pretty.
From S2P Require Import Prelude Types Sbe Mdp3 Text Listener.
Import ListenerOps.

Inductive FeedType := Incremental | Snapshot | InstrumentDef.

(** [ChannelConfig] of the listener: group and port of each feed. *)
Record DefaultChannel := mkDefaultChannel {
  incrementalAddr : string; incrementalPort : Z;
  snapshotAddr : string; snapshotPort : Z;
  instdefAddr : string; instdefPort : Z;
}.

Record ListenerArgs := mkListenerArgs {
  channelId : Z;
  feedType : FeedType;
  overrideGroup : string;
  overridePort : Z;
  listenIface : string;
  statsInterval : Z;
}.
Inductive Parsed := RunListener (a : ListenerArgs) | ExitsWith (code : Z) | UncaughtException.

(** What the terminal shows, in order. *)
Inductive Shown :=
| SBanner (channel : Z) (feed group : string) (port : Z) (iface : string)
| SJoined (group : string) (port : Z)
| SOut (o : Output)
| SStatistics (elapsed packets messages gaps lastSeqNum : Z)
| SFinal
| SReceiveError.

(** A read: nothing there, an error (and whether [g_running] still holds then), a
    datagram. *)
Inductive Poll := WouldBlock | Failed (still_running : bool) | Received (datagram : buffer).
Inductive LoopEvent := Signal | Polled (p : Poll).

(** The variables of the loop; [clock_reads] counts the reads of the clock. *)
Record Loop := mkLoop {
  stats : Stats;
  startTime : Z;
  lastPrintTime : Z;
  recvBuf : buffer;
  clock_reads : nat;
}.
Inductive Ending := Exited (code : Z) | StillRunning | Aborted.

Module ListenerMainOps.

(** ** The command line *)
Definition ListenerArgs_init : ListenerArgs := mkListenerArgs 310 Incremental "" 0 "0.0.0.0" 10.

Definition feed_of_name (f : string) : option FeedType :=
  if bool_decide (f = "incremental"%string) then Some Incremental
  else if bool_decide (f = "snapshot"%string) then Some Snapshot
  else if bool_decide (f = "instdef"%string) then Some InstrumentDef
  else None.
Definition feed_name (f : FeedType) : string :=
  match f with Incremental => "incremental" | Snapshot => "snapshot" | InstrumentDef => "instdef" end.

(** An option that takes a value, with its value; [None] for any other word. *)
Definition take_option (arg v : string) (a : ListenerArgs) : option Parsed :=
  let '(mkListenerArgs channel feed group port iface stats) := a in
  let number (k : Z → ListenerArgs) := match TextOps.stoi (chars v) with Some n => RunListener (k n) | None => UncaughtException end in
  if bool_decide (arg = "--channel"%string) then Some (number (λ n, mkListenerArgs n feed group port iface stats))
  else if bool_decide (arg = "--feed"%string) then
    Some (match feed_of_name v with Some f => RunListener (mkListenerArgs channel f group port iface stats) | None => ExitsWith 1 end)
  else if bool_decide (arg = "--group"%string) then Some (RunListener (mkListenerArgs channel feed v port iface stats))
  else if bool_decide (arg = "--port"%string) then Some (number (λ n, mkListenerArgs channel feed group (u16 n) iface stats))
  else if bool_decide (arg = "--iface"%string) then Some (RunListener (mkListenerArgs channel feed group port v stats))
  else if bool_decide (arg = "--stats"%string) then Some (number (λ n, mkListenerArgs channel feed group port iface n))
  else None.

Definition is_help (arg : string) : bool := bool_decide (arg = "--help"%string) || bool_decide (arg = "-h"%string).

Fixpoint parse_args (argv : list string) (a : ListenerArgs) : Parsed :=
  match argv with
  | [] => RunListener a
  | arg :: rest =>
      match rest with
      | v :: rest' =>
          match take_option arg v a with
          | Some (RunListener a) => parse_args rest' a
          | Some other => other
          | None => if is_help arg then ExitsWith 0 else parse_args rest a
          end
      | [] => if is_help arg then ExitsWith 0 else RunListener a
      end
  end.

(** ** Where to listen

    The sums are of type [int]; one that overflows is undefined. *)
Definition port_sum (base channelId : Z) : option Z :=
  let v := base + channelId in if (- 2 ^ 31 <=? v) && (v <? 2 ^ 31) then Some (u16 v) else None.
Definition getDefaultChannel (channelId : Z) : option DefaultChannel :=
  incremental ← port_sum 14000 channelId;
  snapshot ← port_sum 15000 channelId;
  instdef ← port_sum 16000 channelId;
  Some (mkDefaultChannel "239.1.1.1" incremental "239.1.1.2" snapshot "239.1.1.3" instdef).

Definition endpoint (a : ListenerArgs) : option (string * Z) :=
  cfg ← getDefaultChannel (channelId a);
  let '(addr, port) := match feedType a with
                       | Incremental => (incrementalAddr cfg, incrementalPort cfg)
                       | Snapshot => (snapshotAddr cfg, snapshotPort cfg)
                       | InstrumentDef => (instdefAddr cfg, instdefPort cfg)
                       end in
  Some (if bool_decide (overrideGroup a = ""%string) then addr else overrideGroup a,
        if negb (overridePort a =? 0) then overridePort a else port).

(** ** The receive loop *)
Section clock.
Context (steady : nat → Z).

(** [duration_cast<seconds>]. *)
Definition seconds (d : Z) : Z := Z.quot d 1000000000.

Definition printStats (l : Loop) : Loop * list Shown :=
  let now := steady (clock_reads l) in
  let s := stats l in
  (mkLoop s (startTime l) now (recvBuf l) (S (clock_reads l)),
   [SStatistics (seconds (now - startTime l)) (packetsReceived s) (messagesDecoded s) (gaps s) (lastSeqNum s)]).

(** The check at the end of a round; [wanted] is the further condition. *)
Definition periodic (interval : Z) (wanted : bool) (l : Loop) : Loop * list Shown :=
  let now := steady (clock_reads l) in
  let l := mkLoop (stats l) (startTime l) (lastPrintTime l) (recvBuf l) (S (clock_reads l)) in
  if (interval <=? seconds (now - lastPrintTime l)) && wanted then printStats l else (l, []).

(** A round, and whether the loop goes on. *)
Definition loop_body (interval : Z) (p : Poll) (l : Loop) : option (Loop * list Shown * bool) :=
  match p with
  | WouldBlock =>
      let '(l, shown) := periodic interval (0 <? packetsReceived (stats l)) l in Some (l, shown, true)
  | Failed still_running => Some (l, if still_running then [SReceiveError] else [], false)
  | Received datagram =>
      let '(buf, bytesRead) := receive_from (recvBuf l) datagram in
      match processPacket buf bytesRead (stats l) with
      | Done s printed =>
          let '(l, shown) := periodic interval true (mkLoop s (startTime l) (lastPrintTime l) buf (clock_reads l)) in
          Some (l, (SOut <$> printed) ++ shown, true)
      | _ => None
      end
  end.

(** The loop over what happens; it is still waiting when the list ends first. *)
Fixpoint receive_loop (interval : Z) (events : list LoopEvent) (l : Loop) : option (Loop * list Shown * bool) :=
  match events with
  | [] => Some (l, [], false)
  | Signal :: _ => Some (l, [], true)
  | Polled p :: events =>
      '(l, shown, goes_on) ← loop_body interval p l;
      if goes_on : bool then '(l, more, ended) ← receive_loop interval events l; Some (l, shown ++ more, ended)
      else Some (l, shown, true)
  end.

(** The variables when the loop starts; [stack] is what [recvBuf] finds in memory. *)
Definition Loop_init (stack : buffer) : Loop := mkLoop Stats_init (steady 0) (steady 0) stack 1.

Definition main (socket_ok : string → string → Z → bool) (stack : buffer) (argv : list string) (events : list LoopEvent)
    : option (list Shown * Ending) :=
  match parse_args argv ListenerArgs_init with
  | UncaughtException => Some ([], Aborted)
  | ExitsWith code => Some ([], Exited code)
  | RunListener a =>
      '(group, port) ← endpoint a;
      let banner := SBanner (channelId a) (feed_name (feedType a)) group port (listenIface a) in
      if socket_ok (listenIface a) group port then
        '(l, shown, ended) ← receive_loop (statsInterval a) events (Loop_init stack);
        let shown := banner :: SJoined group port :: shown in
        if ended : bool then let '(_, final) := printStats l in Some (shown ++ SFinal :: final, Exited 0)
        else Some (shown, StillRunning)
      else Some ([banner], Exited 1)
  end.
End clock.
End ListenerMainOps.

Import ListenerMainOps.

(** ** The loop is the walk over the datagrams it takes *)

(** The datagrams read before an error or a signal, and whether one came. *)
Fixpoint taken (events : list LoopEvent) : list buffer :=
  match events with
  | Polled WouldBlock :: events => taken events
  | Polled (Received d) :: events => d :: taken events
  | [] | Signal :: _ | Polled (Failed _) :: _ => []
  end.
Fixpoint ends (events : list LoopEvent) : bool :=
  match events with
  | Polled WouldBlock :: events | Polled (Received _) :: events => ends events
  | [] => false
  | Signal :: _ | Polled (Failed _) :: _ => true
  end.
Definition output (s : Shown) : option Output := match s with SOut o => Some o | _ => None end.

Definition outputs (shown : list Shown) : list Output := omap output shown.
Arguments outputs : simpl never.
(** The counters and the output of a loop, and whether it has ended. *)
Definition view (r : Loop * list Shown * bool) : Stats * list Output * bool := (stats r.1.1, outputs r.1.2, r.2).

Lemma outputs_app s1 s2 : outputs (s1 ++ s2) = outputs s1 ++ outputs s2.
Proof. apply omap_app. Qed.
Lemma output_of_printed printed : outputs (SOut <$> printed) = printed.
Proof. unfold outputs. induction printed as [|o printed IH]; [done|]. cbn. by rewrite IH. Qed.

Lemma periodic_keeps steady interval wanted l :
  let r := periodic steady interval wanted l in stats r.1 = stats l ∧ recvBuf r.1 = recvBuf l ∧ outputs r.2 = [].
Proof. unfold periodic. by case_match. Qed.

Lemma receive_loop_listens steady interval events : ∀ l,
  view <$> receive_loop steady interval events l = (., ends events) <$> listen (recvBuf l) (taken events) (stats l).
Proof.
  induction events as [|[|[|still|d]] events IH]; intros l; cbn [receive_loop taken ends listen]; [done..| | |]; unfold view in *.
  - cbn. pose proof (periodic_keeps steady interval (0 <? packetsReceived (stats l)) l) as (S1 & B1 & O1).
    destruct (periodic _ _ _ l) as [l' shown]. cbn in *. specialize (IH l'). rewrite S1, B1 in IH. rewrite <-IH.
    destruct (receive_loop _ _ events l') as [[[l2 more] e]|]; [|done]. cbn. by rewrite outputs_app, O1.
  - by destruct still.
  - unfold loop_body. destruct (receive_from (recvBuf l) d) as [buf n]. destruct (processPacket buf n (stats l)) as [s printed| |]; [|done..].
    pose proof (periodic_keeps steady interval true (mkLoop s (startTime l) (lastPrintTime l) buf (clock_reads l))) as (S1 & B1 & O1).
    destruct (periodic _ _ _ _) as [l' shown]. cbn in *. specialize (IH l'). rewrite S1, B1 in IH.
    destruct (receive_loop _ _ events l') as [[[l2 more] e]|], (listen buf (taken events) s) as [[s2 out]|]; try done. cbn in *.
    injection IH as -> E ->. by rewrite !outputs_app, output_of_printed, O1, E, app_nil_r.
Qed.

Lemma receive_loop_shows steady interval events l s out :
  listen (recvBuf l) (taken events) (stats l) = Some (s, out) →
  ∃ l' shown, receive_loop steady interval events l = Some (l', shown, ends events) ∧ stats l' = s ∧ outputs shown = out.
Proof.
  intros El. pose proof (receive_loop_listens steady interval events l) as Hl. rewrite El in Hl.
  destruct (receive_loop _ _ _ _) as [[[l' shown] ended]|]; [|done]. injection Hl as Hs Ho He. cbn in Hs, Ho, He. subst. by exists l', shown.
Qed.
