(* ===== verification/EngineReplay.v ===== *)
(** * The depth of the engine's books and its market data

    The book updates of any run of the engine, taken security by security,
    rebuild the depth of every book. *)
From S2P Require Import Prelude Types OrderedMap Order PriceLevel OrderBook BookSpec BookWf BookRefine BookRefineOps BookInv BookCorrect BookReplay BookCommands BookFrame Engine EngineTheorems.
Import EngineOps.

(** ** Events of a book *)

(** The security of a published event. *)
Definition event_security (e : EngineEvent) : option SecurityId :=
  match e with
  | BookUpdate sid _ _ _ _ _ _ _ => Some sid
  | OrderFilled _ sid _ _ _ _ _ _ _ _ _ _ _ _ _ _ _ => Some sid
  | _ => None
  end.
Definition of_book (sid : SecurityId) (e : EngineEvent) : Prop := ∀ s, event_security e = Some s → s = sid.
Definition events_of (sid : SecurityId) (evs : list EngineEvent) : list EngineEvent :=
  filter (λ e, event_security e = Some sid) evs.

Lemma events_of_app sid evs1 evs2 : events_of sid (evs1 ++ evs2) = events_of sid evs1 ++ events_of sid evs2.
Proof. apply filter_app. Qed.

(** Events without a security do not touch the depth. *)
Lemma replay_events_of sid d evs : Forall (of_book sid) evs → replay d (events_of sid evs) = replay d evs.
Proof.
  revert d. induction evs as [|e evs IH]; intros d HF; [done |]. apply Forall_cons in HF as [He HF].
  unfold events_of in *. rewrite filter_cons, (replay_cons _ _ evs). destruct (event_security e) as [s|] eqn:Es.
  - rewrite decide_True by (by rewrite (He s Es)). rewrite replay_cons. destruct (replay d [e]); [by apply IH | done].
  - rewrite decide_False by done. rewrite IH by done. by destruct e.
Qed.

Lemma events_of_other sid sid' evs : sid ≠ sid' → Forall (of_book sid) evs → events_of sid' evs = [].
Proof.
  intros Hne HF. unfold events_of. induction HF as [|e evs He _ IH]; [done |].
  rewrite filter_cons, decide_False; [done |]. intros Es. apply Hne. symmetry. by apply He.
Qed.

(** ** What a command does to the abstract book besides *)
Record book_delta (n : nat) (ab ab' : ABook) (evs : list EngineEvent) : Prop := {
  bd_security : a_security ab' = a_security ab;
  bd_length s : (length (alevels_of s ab') ≤ n + length (alevels_of s ab))%nat;
  bd_events : Forall (of_book (a_security ab)) evs;
}.

Lemma book_delta_refl ab evs : Forall (of_book (a_security ab)) evs → book_delta 0 ab ab evs.
Proof. by split. Qed.

Lemma book_delta_trans n1 n2 ab ab1 ab2 evs1 evs2 :
  book_delta n1 ab ab1 evs1 → book_delta n2 ab1 ab2 evs2 → book_delta (n1 + n2) ab ab2 (evs1 ++ evs2).
Proof.
  intros [S1 L1 E1] [S2 L2 E2]. split; [congruence | |].
  - intros s. specialize (L1 s). specialize (L2 s). lia.
  - apply Forall_app. by rewrite <-S1 at 2.
Qed.

Lemma book_delta_le n m ab ab' evs evs' :
  book_delta n ab ab' evs → (n ≤ m)%nat → Forall (of_book (a_security ab)) evs' → book_delta m ab ab' evs'.
Proof. intros [S L E] Hn He. split; [done | | done]. intros s. specialize (L s). lia. Qed.

Lemma of_book_update sid sd p q n a i r : of_book sid (BookUpdate sid sd p q n a i r).
Proof. by intros s [= ->]. Qed.
Lemma of_book_level sid sd p i r ms : of_book sid (Spec.level_update sid sd p i r ms).
Proof. destruct ms; apply of_book_update. Qed.
Lemma of_book_fill tid sid p q m t : of_book sid (Spec.fill_event tid sid p q m t).
Proof. by intros s [= ->]. Qed.

Lemma match_level_of sid sd p ms : ∀ tid rpt t, Forall (of_book sid) (Spec.match_level sid sd p tid rpt t ms).2.
Proof.
  induction ms as [|m ms IH]; intros tid rpt t; cbn [Spec.match_level]; [constructor |].
  destruct (0 <? remainingQty t); [| constructor]. cbv zeta.
  set (q := Z.min _ _). destruct (isFullyFilled (Spec.fill q m)).
  - specialize (IH (u64 (tid + 1)) (u32 (rpt + 1)) (Spec.fill q t)).
    destruct (Spec.match_level sid sd p _ _ _ ms) as [[[[??]?]?] evs]. cbn in *.
    constructor; [apply of_book_fill |]. constructor; [apply of_book_level | done].
  - constructor; [apply of_book_fill |]. constructor; [apply (of_book_level _ _ _ _ _ (_ :: _)) | done].
Qed.

Lemma match_levels_of sid sd stop L : ∀ tid rpt t,
  let r := Spec.match_levels sid sd stop tid rpt t L in
  Forall (of_book sid) r.2 ∧ (length r.1.2 ≤ length L)%nat.
Proof.
  induction L as [|[p ms] L IH]; intros tid rpt t; cbn [Spec.match_levels]; [by split |].
  destruct (_ && _); [| by split]. pose proof (match_level_of sid sd p ms tid rpt t) as Hm.
  destruct (Spec.match_level sid sd p tid rpt t ms) as [[[[tid1 rpt1] t1] ms1] evs1]. cbn in Hm.
  destruct ms1; [| by split]. specialize (IH tid1 rpt1 t1). cbv zeta in IH.
  destruct (Spec.match_levels sid sd stop tid1 rpt1 t1 L) as [[[[tid2 rpt2] t2] L2] evs2]. cbn in *.
  destruct IH. split; [by apply Forall_app | lia].
Qed.

Lemma mkASide_delta sd sid L Lo tid rpt L' tid' rpt' evs n :
  (length L' ≤ n + length L)%nat → Forall (of_book sid) evs →
  book_delta n (mkASide sd sid L Lo tid rpt) (mkASide sd sid L' Lo tid' rpt') evs.
Proof.
  intros Hl He. unfold mkASide. destruct (isBuy sd); split; try done; intros s; unfold alevels_of; destruct (isBuy s); cbn; lia.
Qed.

Lemma matchOrder_delta ab t :
  let '(ab', _, evs) := Spec.matchOrder ab t in book_delta 0 ab ab' evs.
Proof.
  set (sd := Spec.opposite (side t)). rewrite (abook_focus sd ab), (spec_matchOrder_side _ _ _ _ _ t). fold sd.
  destruct (match_levels_of (a_security ab) sd (Spec.limit_test t) (alevels_of sd ab) (a_trade_id ab) (a_rpt_seq ab) t).
  by apply mkASide_delta.
Qed.

Lemma insert_level_length lt o L : (length (Spec.insert_level lt o L) ≤ 1 + length L)%nat.
Proof. induction L as [|[k ms] L IH]; cbn; [lia |]. destruct (lt k (price o)), (lt (price o) k); cbn in *; lia. Qed.

Lemma insertResting_delta ab o : let '(ab', ev) := Spec.insertResting ab o in book_delta 1 ab ab' [ev].
Proof.
  set (sd := own_side o). rewrite (abook_focus sd ab), (spec_insertResting_side _ _ _ _ _ o). fold sd.
  apply mkASide_delta; [apply insert_level_length |]. apply Forall_singleton, of_book_update.
Qed.

Lemma remove_level_length p oid L : (length (Spec.remove_level p oid L) ≤ 0 + length L)%nat.
Proof. induction L as [|[k ms] L IH]; cbn; [lia |]. case_decide; [destruct (Spec.remove_id oid ms) |]; cbn in *; lia. Qed.

Lemma removeFromBook_delta ab o : let '(ab', ev) := Spec.removeFromBook ab o in book_delta 0 ab ab' [ev].
Proof.
  set (sd := own_side o). rewrite (abook_focus sd ab), (spec_removeFromBook_side _ _ _ _ _ o). fold sd.
  apply mkASide_delta; [apply remove_level_length |]. apply Forall_singleton, of_book_level.
Qed.

Lemma post_match_delta ab ab1 t evs :
  book_delta 0 ab ab1 evs →
  let '(ab2, _, evs2) := Spec.post_match ab1 t evs in book_delta 1 ab ab2 evs2.
Proof.
  intros Hd. unfold Spec.post_match.
  assert (∀ e, event_security e = None → book_delta 1 ab ab1 (evs ++ [e])) as Hsnoc.
  { intros e He. eapply book_delta_le; [exact Hd | lia |]. apply Forall_app. split; [apply Hd |]. apply Forall_singleton. intros s Hs. congruence. }
  assert (book_delta 1 ab ab1 evs) as Hsame by (eapply book_delta_le; [exact Hd | lia | apply Hd]).
  destruct (isFullyFilled t); [done |]. case_bool_decide; [by apply Hsnoc |].
  destruct (order_type t); try done; [by apply Hsnoc |].
  pose proof (insertResting_delta ab1 t) as Hi. destruct (Spec.insertResting ab1 t) as [ab2 ev].
  by apply (book_delta_trans 0 1 ab ab1 ab2).
Qed.

Lemma spec_cmd_delta h ab c : book_delta 1 ab (spec_cmd h ab c).1 (spec_cmd h ab c).2.
Proof.
  assert (∀ evs, Forall (of_book (a_security ab)) evs → book_delta 1 ab ab evs) as Hrefl
    by (intros evs He; eapply book_delta_le; [by apply (book_delta_refl ab evs) | lia | done]).
  destruct c as [t|oid|oid p q cl]; cbn [spec_cmd].
  - destruct (h !! t) as [o|]; [| by apply Hrefl]. cbv zeta. unfold Spec.addOrder.
    destruct (_ && _); [apply Hrefl; by apply Forall_singleton |].
    pose proof (matchOrder_delta ab (unlink o)) as Hm. destruct (Spec.matchOrder ab (unlink o)) as [[ab1 t1] evs].
    pose proof (post_match_delta ab ab1 t1 (Spec.accepted (unlink o) :: evs)) as Hp.
    destruct (Spec.post_match ab1 t1 _) as [[ab2 t2] evs2]. apply Hp.
    apply (book_delta_trans 0 0 ab ab ab1 [_]); [| done]. apply book_delta_refl. by apply Forall_singleton.
  - destruct (find_order ab oid) as [m|]; [| apply Hrefl; by apply Forall_singleton]. cbv zeta. unfold Spec.cancelOrder.
    pose proof (removeFromBook_delta ab m) as Hr. destruct (Spec.removeFromBook ab m) as [ab1 ev]. cbn [fst snd].
    eapply book_delta_le; [exact Hr | lia |]. apply (Forall_app _ [_] [_]). split; [apply Hr | by apply Forall_singleton].
  - destruct (find_order ab oid) as [m|]; [| apply Hrefl; by apply Forall_singleton]. cbv zeta. unfold Spec.modifyOrder.
    pose proof (removeFromBook_delta ab m) as Hr. destruct (Spec.removeFromBook ab m) as [ab1 ev].
    set (o1 := Spec.replace p q cl m). set (ev1 := OrderModified _ _ _ _ _ _ _ _).
    pose proof (matchOrder_delta ab1 o1) as Hm. destruct (Spec.matchOrder ab1 o1) as [[ab2 o2] evs].
    assert (book_delta 0 ab ab2 (ev :: ev1 :: evs)) as Hd.
    { pose proof (book_delta_trans 0 0 _ _ _ _ _ Hr Hm) as Hd. eapply book_delta_le; [exact Hd | lia |].
      destruct Hd as [_ _ HF]. apply Forall_cons in HF as [? HF]. constructor; [done |]. by constructor. }
    destruct (isFullyFilled o2); [eapply book_delta_le; [exact Hd | lia | apply Hd] |].
    pose proof (insertResting_delta ab2 o2) as Hi. destruct (Spec.insertResting ab2 o2) as [ab3 ev3]. cbn [fst snd].
    exact (book_delta_trans 0 1 _ _ _ _ _ Hd Hi).
Qed.

(** ** One book of the code *)
Definition side_lengths (n : nat) (b : OrderBook) : Prop :=
  (length (bid_levels_ b) ≤ n)%nat ∧ (length (ask_levels_ b) ≤ n)%nat.

Lemma repr_lengths h b gb ab :
  book_repr h b gb ab → length (bid_levels_ b) = length (a_bids ab) ∧ length (ask_levels_ b) = length (a_asks ab).
Proof.
  intros Hb. pose proof (impl_depth_repr _ _ _ _ Hb) as E. injection E as E1 E2.
  apply (f_equal length) in E1, E2. unfold impl_side_depth in *. rewrite length_fmap, depth_length in *. done.
Qed.

Lemma run_cmd_depth n h b gb ab c h' b' evs :
  book_repr h b gb ab → book_wf ab → cmd_pre h gb ab c → side_lengths n b → Z.of_nat n + 1 < 2 ^ 31 →
  run_cmd h b c = Some (h', b', evs) →
  security_id_ b' = security_id_ b ∧ side_lengths (S n) b' ∧
  replay (impl_depth b) evs = Some (impl_depth b') ∧ Forall (of_book (security_id_ b)) evs.
Proof.
  intros Hb Hwf Hpre [Hl1 Hl2] Hn Hrun. destruct (cmd_refines _ _ _ _ _ Hb Hwf Hpre) as (h1 & b1 & gb1 & E & Hb1 & _).
  rewrite E in Hrun. injection Hrun as <- <- <-. destruct (spec_cmd_delta h ab c) as [Hs Hl He].
  destruct (repr_lengths _ _ _ _ Hb) as [E1 E2], (repr_lengths _ _ _ _ Hb1) as [E3 E4].
  pose proof (Hl Buy) as Hbuy. pose proof (Hl Sell) as Hsell.
  change (length (a_bids (spec_cmd h ab c).1) ≤ 1 + length (a_bids ab))%nat in Hbuy.
  change (length (a_asks (spec_cmd h ab c).1) ≤ 1 + length (a_asks ab))%nat in Hsell.
  rewrite (br_sec _ _ _ _ Hb) in Hs, He. rewrite (br_sec _ _ _ _ Hb1) in Hs. split; [done |]. split; [split; lia |]. split; [| done].
  rewrite (impl_depth_repr _ _ _ _ Hb), (impl_depth_repr _ _ _ _ Hb1). eapply spec_cmd_replay; [done.. |]. split; lia.
Qed.

(** ** The engine *)
Definition eng_depth (e : FullMatchingEngine) (sid : SecurityId) : depth_list * depth_list :=
  match getOrderBook e sid with Some b => impl_depth b | None => ([], []) end.

(** Every book carries its own security and has at most [n] levels per side. *)
Definition books_small (n : nat) (books : gmap SecurityId OrderBook) : Prop :=
  map_Forall (λ sid b, security_id_ b = sid ∧ side_lengths n b) books.

(** What a call does to the depths. *)
Definition depths_follow (n : nat) (e e' : FullMatchingEngine) (evs : list EngineEvent) : Prop :=
  books_small n (order_books_ e') ∧ ∀ sid, replay (eng_depth e sid) (events_of sid evs) = Some (eng_depth e' sid).

Lemma books_small_le n m books : books_small n books → (n ≤ m)%nat → books_small m books.
Proof. intros H Hle sid b Hb. destruct (H sid b Hb) as (? & ? & ?). split; [done |]. split; lia. Qed.

Lemma depths_same n e e' evs :
  books_small n (order_books_ e) → order_books_ e' = order_books_ e → Forall (λ ev, event_security ev = None) evs →
  depths_follow (S n) e e' evs.
Proof.
  intros Hs E He. split; [rewrite E; eapply books_small_le; [done | lia] |]. intros sid.
  rewrite replay_events_of.
  - unfold eng_depth, getOrderBook. rewrite E. induction He as [|ev evs Hev _ IH]; [done |]. rewrite replay_skip; [done |]. by destruct ev.
  - eapply Forall_impl; [exact He |]. intros ev Hev s Hs'. congruence.
Qed.

Lemma depths_book n e h books' o2s owned nid h0 b0 gb ab c h' b' sid evs :
  books_small n (order_books_ e) → Z.of_nat n + 1 < 2 ^ 31 → order_books_ e !! sid = Some b0 →
  book_repr h0 b0 gb ab → book_wf ab → cmd_pre h0 gb ab c → run_cmd h0 b0 c = Some (h', b', evs) →
  books' = <[sid := b']> (order_books_ e) →
  depths_follow (S n) e (mkEngine h books' o2s owned nid) evs.
Proof.
  intros Hs Hn Hb Hrep Hwf Hpre Hrun ->. destruct (Hs _ _ Hb) as [Esid Hl].
  destruct (run_cmd_depth n _ _ _ _ _ _ _ _ Hrep Hwf Hpre Hl Hn Hrun) as (Es & Hl' & Hrp & He). rewrite Esid in *. split.
  - apply map_Forall_insert_2; [done |]. eapply books_small_le; [done | lia].
  - intros sid'. unfold eng_depth, getOrderBook. cbn. destruct (decide (sid = sid')) as [<-|Hne].
    + rewrite lookup_insert_eq, Hb, replay_events_of; done.
    + by rewrite lookup_insert_ne, (events_of_other sid sid') by done.
Qed.

Lemma eng_cmd_depths n e c e' evs :
  engine_inv e → eng_cmd_ok c → next_order_id_ e + 1 < 2 ^ 64 → books_small n (order_books_ e) → Z.of_nat n + 1 < 2 ^ 31 →
  eng_cmd e c = Some (e', evs) → depths_follow (S n) e e' evs.
Proof.
  intros He Hc Hid Hs Hn H. destruct e as [h books o2s owned nid]. destruct c as [sid|now o|oid sid uuid|oid sid p q cl]; cbn in H, Hc.
  - injection H as <- <-. destruct (books !! sid) as [b|] eqn:Eb; [by apply depths_same |]. split.
    + cbn. apply map_Forall_insert_2; [| eapply books_small_le; [done | lia]]. split; [done |]. split; apply Nat.le_0_l.
    + intros sid'. cbn. unfold eng_depth, getOrderBook. cbn. destruct (decide (sid = sid')) as [<-|Hne].
      * by rewrite lookup_insert_eq, Eb.
      * by rewrite lookup_insert_ne.
  - cbn in Hid. pose proof (ei_next _ He) as Hnext. cbn in Hnext. rewrite (wrapu_small 64 (nid + 1)) in H by lia.
    set (o' := set_timestamp (u64 now) (set_order_id nid o)) in *.
    assert (order_id o' = nid ∧ qty_ok o' ∧ live o') as (Eid & Hq & Hl) by (destruct Hc; by destruct o).
    destruct (books !! security_id o') as [b|] eqn:Eb; [| injection H as <- <-; by apply depths_same; [| | apply Forall_singleton]].
    destruct (ei_books _ He _ _ Eb) as (gb & ab & Hbo). cbn in Hbo.
    destruct (books_exist _ He) as [A HA].
    destruct (own_inv A h books o2s owned nid (security_id o') o' He HA Hid Eid) as (Hn1 & Hfree & _).
    set (t := fresh (dom h)) in *. rewrite Eid in H. unfold assign_owned in H. rewrite Hn1 in H.
    destruct (own_book h o2s owned nid (security_id o') (security_id o') o' t b gb ab Hfree Hn1 Hbo) as ((Hrep & Hwf & _) & Htp & Hidf).
    apply bind_Some in H as ([[h2 b2] evs2] & Hadd & H). apply bind_Some in H as (o2 & _ & H).
    assert (depths_follow (S n) (mkEngine h books o2s owned nid) e' evs2) as Hd; [| by repeat case_match; simplify_eq].
    assert (∃ h3 o2s3 owned3 nid3, e' = mkEngine h3 (<[security_id o' := b2]> books) o2s3 owned3 nid3) as (h3 & o2s3 & owned3 & nid3 & ->)
      by (repeat case_match; simplify_eq; by do 4 eexists).
    eapply (depths_book n _ _ _ _ _ _ _ b gb ab (CmdAdd t)); try done.
    exists o'. split; try done; [apply lookup_insert_eq | by rewrite Eid].
  - set (sec := lookup_security o2s oid sid) in *.
    destruct (books !! sec) as [b|] eqn:Eb; [| injection H as <- <-; by apply depths_same; [| | apply Forall_singleton]].
    destruct (ei_books _ He _ _ Eb) as (gb & ab & Hrep & Hwf & _). cbn in Hrep.
    apply bind_Some in H as ([[h2 b2] evs2] & Hcan & H).
    assert (∃ h3 o2s3 owned3, e' = mkEngine h3 (<[sec := b2]> books) o2s3 owned3 nid ∧ evs = evs2) as (h3 & o2s3 & owned3 & -> & ->)
      by (repeat case_match; simplify_eq; by do 3 eexists).
    by eapply (depths_book n _ _ _ _ _ _ _ b gb ab (CmdCancel oid)).
  - set (sec := lookup_security o2s oid sid) in *.
    destruct (books !! sec) as [b|] eqn:Eb; [| injection H as <- <-; by apply depths_same; [| | apply Forall_singleton]].
    destruct (ei_books _ He _ _ Eb) as (gb & ab & Hrep & Hwf & _). cbn in Hrep.
    apply bind_Some in H as ([[h2 b2] evs2] & Hmod & H).
    assert (∃ h3 o2s3 owned3, e' = mkEngine h3 (<[sec := b2]> books) o2s3 owned3 nid ∧ evs = evs2) as (h3 & o2s3 & owned3 & -> & ->).
    { destruct (owned !! oid); [apply bind_Some in H as (o2 & _ & H) |]; repeat case_match; simplify_eq; by do 3 eexists. }
    by eapply (depths_book n _ _ _ _ _ _ _ b gb ab (CmdModify oid p q cl)).
Qed.
