(* ===== verification/FeedLemmas.v ===== *)
(** * From engine events to the wire

    What the builders and the channel publisher put on the incremental feeds,
    message by message, and what the listener makes of it. *)
From S2P Require Import Prelude Types Sbe Mdp3 Dispatcher Order OrderBook BookReplay BookCommands EngineReplay Typed MarketData Publisher Listener ListenerTheorems.
Import MarketDataOps PublisherOps ListenerOps.

(** ** Packets *)
Lemma udp_packet_eq seq t body : udp_packet seq t body = Some (packet_bytes seq t body).
Proof.
  unfold udp_packet, packet_bytes. set (z := Init.Byte.x00).
  replace (replicate (PacketHeader.SIZE + length body) z) with ([] ++ replicate 4 z ++ (replicate 8 z ++ replicate (length body) z))
    by (by rewrite app_nil_l, <-!replicate_add).
  rewrite memcpy_to_app by (by rewrite ?length_replicate, ?length_le_split). cbn [mbind option_bind].
  rewrite app_nil_l, memcpy_to_app by (by rewrite ?length_replicate, ?length_le_split). cbn [mbind option_bind].
  destruct (Nat.ltb_spec 0 (length body)) as [Hl|Hl].
  - rewrite app_assoc, <-(app_nil_r (replicate (length body) z)), memcpy_to_app;
      [by rewrite app_nil_r, <-app_assoc | by rewrite length_replicate | done | by rewrite length_app, !length_le_split].
  - destruct body; [by rewrite app_nil_r | cbn in Hl; lia].
Qed.

Lemma send_eq f t body :
  send f t body = Some (mkFeedSender (u32 (next_seq_num_ f + 1)) (datagrams f ++ [packet_bytes (next_seq_num_ f) (u64 t) body])).
Proof. unfold send. by rewrite udp_packet_eq. Qed.

Lemma sendWithSeqNum_eq f t seq body :
  sendWithSeqNum f t seq body = Some (mkFeedSender (next_seq_num_ f) (datagrams f ++ [packet_bytes seq (u64 t) body])).
Proof. unfold sendWithSeqNum. by rewrite udp_packet_eq. Qed.

(** ** Batches of events *)

(** A batch the builders can encode: values of their types, level indices that
    fit a byte, groups that fit their one-byte counts. *)
Definition index_ok (e : EngineEvent) : Prop :=
  match e with BookUpdate _ _ _ _ _ _ idx _ => 1 ≤ idx < 256 | _ => True end.
Record batch_ok (evs : list EngineEvent) : Prop := {
  bo_events : Forall event_ok evs;
  bo_index : Forall index_ok evs;
  bo_updates : (length (filter (λ e, is_book_update e = true) evs) < 256)%nat;
  bo_fills : (2 * length (filter (λ e, is_fill e = true) evs) < 256)%nat;
}.
Definition builder_ok (b : IncrementalBuilder) : Prop := map_Forall (λ _ n, n ∈u 32) b.

(** The messages of a batch. *)
Definition batch_messages (b : IncrementalBuilder) (evs : list EngineEvent) (tm : Timestamp)
    : list MDP3Msg * IncrementalBuilder :=
  let '(es, b) := book_entries b (filter (λ e, is_book_update e = true) evs) in
  let '(ts, oids, b) := trade_entries b (filter (λ e, is_fill e = true) evs) in
  (match es with [] => []
   | _ => [M_MDIncrementalRefreshBook46 (MDIncrementalRefreshBook46.mk tm (Z.lor LastQuoteMsg EndOfEvent) es)] end ++
   match ts with [] => []
   | _ => [M_MDIncrementalRefreshTradeSummary48 (MDIncrementalRefreshTradeSummary48.mk tm
            (Z.lor (Z.lor LastTradeMsg LastVolumeMsg) EndOfEvent) ts oids)] end, b).

Lemma getNextRptSeq_ok b sid : builder_ok b → (getNextRptSeq b sid).1 ∈u 32 ∧ builder_ok (getNextRptSeq b sid).2.
Proof.
  intros Hb. unfold getNextRptSeq. cbn [fst snd]. pose proof (wrapu_range 32 (default 0 (b !! sid) + 1) ltac:(lia)).
  split; [done |]. by apply map_Forall_insert_2.
Qed.

Lemma book_entries_wf evs : ∀ b,
  builder_ok b → Forall event_ok evs →
  Forall MDIncrementalRefreshBook46.Entry.wf (book_entries b evs).1 ∧ builder_ok (book_entries b evs).2 ∧
  (length (book_entries b evs).1 ≤ length evs)%nat.
Proof.
  induction evs as [|e evs IH]; intros b Hb He; [by cbn; split_and!; [constructor | done | lia] |].
  apply Forall_cons in He as [He Hes].
  destruct e as [| | | | | |sid sd p q n act idx rpt0]; cbn [book_entries length]; try (destruct (IH b Hb Hes) as (? & ? & ?); split_and!; [done | done | lia]).
  set (r := if negb (rpt0 =? 0) then (rpt0, b) else getNextRptSeq b sid).
  assert (r.1 ∈u 32 ∧ builder_ok r.2) as [Hr Hb'].
  { unfold r. destruct (negb _); [| by apply getNextRptSeq_ok]. split; [| done]. by destruct He as (_ & _ & _ & _ & _ & ?). }
  destruct r as [rpt b']. cbn [fst snd] in Hr, Hb'. destruct (IH b' Hb' Hes) as (Hf & Hb2 & Hl).
  destruct (book_entries b' evs) as [es b2]. cbn [fst snd] in *. split_and!; [| done | cbn; lia].
  constructor; [| done]. destruct He as (? & ? & ? & ? & ? & ?). unfold MDIncrementalRefreshBook46.Entry.wf. cbn.
  pose proof (wrapu_range 8 idx ltac:(lia)). split_and!; try lia; by destruct act.
Qed.

Lemma trade_entries_wf evs : ∀ b,
  builder_ok b → Forall event_ok evs →
  Forall MDIncrementalRefreshTradeSummary48.MDEntry.wf (trade_entries b evs).1.1 ∧
  Forall MDIncrementalRefreshTradeSummary48.OrderIDEntry.wf (trade_entries b evs).1.2 ∧
  builder_ok (trade_entries b evs).2 ∧
  (length (trade_entries b evs).1.1 ≤ length evs)%nat ∧
  (length (trade_entries b evs).1.2 ≤ 2 * length evs)%nat.
Proof.
  induction evs as [|e evs IH]; intros b Hb He; [by cbn; split_and!; [constructor | constructor | done | lia | lia] |].
  apply Forall_cons in He as [He Hes].
  destruct e as [| |tid sid px q agg moid mcl muuid mcum mleaves mst toid tcl tuuid tcum tleaves tst| | | |]; cbn [trade_entries length]; try (destruct (IH b Hb Hes) as (? & ? & ? & ? & ?); split_and!; [done | done | done | lia | lia]).
  destruct (getNextRptSeq_ok b sid Hb) as [Hr Hb'].
  destruct (getNextRptSeq b sid) as [rpt b']. cbn [fst snd] in Hr, Hb'.
  destruct (IH b' Hb' Hes) as (Hf & Hg & Hb2 & Hl & Hl').
  destruct (trade_entries b' evs) as [[es oids] b2]. cbn [fst snd] in *.
  destruct He as (_ & ? & ? & ? & Hs & ? & ? & ? & ? & ? & ? & ? & ?). apply side_ok_u8 in Hs.
  split_and!; [| | done | cbn; lia | cbn; lia].
  - constructor; [| done]. unfold MDIncrementalRefreshTradeSummary48.MDEntry.wf. cbn. split_and!; lia.
  - repeat (constructor; [split; cbn; lia |]). done.
Qed.

Lemma Forall_filtered {A} (Q P : A → Prop) `{∀ x, Decision (P x)} (l : list A) : Forall Q l → Forall Q (filter P l).
Proof. intros Hl. apply Forall_forall. intros x [_ Hin]%list_elem_of_filter. by apply (proj1 (Forall_forall _ _) Hl). Qed.

Lemma batch_messages_wf b evs tm :
  builder_ok b → batch_ok evs → tm ∈u 64 →
  Forall MDP3Msg_wf (batch_messages b evs tm).1 ∧ builder_ok (batch_messages b evs tm).2.
Proof.
  intros Hb [He Hi Hu Hf] Ht. unfold batch_messages.
  destruct (book_entries_wf (filter (λ e, is_book_update e = true) evs) b Hb (Forall_filtered _ _ _ He)) as (He1 & Hb1 & Hl1).
  destruct (book_entries b _) as [es b1]. cbn [fst snd] in *.
  destruct (trade_entries_wf (filter (λ e, is_fill e = true) evs) b1 Hb1 (Forall_filtered _ _ _ He)) as (He2 & He3 & Hb2 & Hl2 & Hl3).
  destruct (trade_entries b1 _) as [[ts oids] b2]. cbn [fst snd] in *. split; [| done].
  apply Forall_app. split.
  - destruct es; [done |]. apply Forall_singleton. cbn [MDP3Msg_wf]. unfold MDIncrementalRefreshBook46.wf. cbn -[length]. split_and!; try done; lia.
  - destruct ts; [done |]. apply Forall_singleton. cbn [MDP3Msg_wf]. unfold MDIncrementalRefreshTradeSummary48.wf. cbn -[length].
    split_and!; try done; lia.
Qed.

Lemma buildIncrementalPacket_eq b evs tm :
  builder_ok b → batch_ok evs → tm ∈u 64 →
  buildIncrementalPacket b evs tm =
    Some (messages_bytes (batch_messages b evs tm).1, (batch_messages b evs tm).2).
Proof.
  intros Hb He Ht. destruct (batch_messages_wf b evs tm Hb He Ht) as [Hw _]. revert Hw.
  unfold buildIncrementalPacket, batch_messages, buildBookRefresh, buildTradeSummary.
  destruct (book_entries b _) as [es b1] eqn:E1. destruct (trade_entries b1 _) as [[ts oids] b2] eqn:E2. cbn [fst snd].
  intros [Hw1 Hw2]%Forall_app.
  assert ((if bool_decide (es = []) then Some ([], b1) else
    buf ← encode_vec (MDIncrementalRefreshBook46.mk tm (Z.lor LastQuoteMsg EndOfEvent) es); Some (buf, b1)) =
    Some (messages_bytes (match es with [] => [] | _ => [M_MDIncrementalRefreshBook46
      (MDIncrementalRefreshBook46.mk tm (Z.lor LastQuoteMsg EndOfEvent) es)] end), b1)) as ->.
  { destruct es; [done |]. rewrite bool_decide_eq_false_2 by done. apply Forall_cons in Hw1 as [Hw1 _].
    rewrite encode_vec_bytes by exact Hw1. cbn [mbind option_bind messages_bytes fmap list_fmap concat MDP3Msg_bytes].
    by rewrite app_nil_r. }
  cbn [mbind option_bind]. rewrite E2.
  assert ((if bool_decide (ts = []) then Some ([], b2) else
    buf ← encode_vec (MDIncrementalRefreshTradeSummary48.mk tm (Z.lor (Z.lor LastTradeMsg LastVolumeMsg) EndOfEvent) ts oids);
    Some (buf, b2)) =
    Some (messages_bytes (match ts with [] => [] | _ => [M_MDIncrementalRefreshTradeSummary48
      (MDIncrementalRefreshTradeSummary48.mk tm (Z.lor (Z.lor LastTradeMsg LastVolumeMsg) EndOfEvent) ts oids)] end), b2)) as ->.
  { destruct ts; [done |]. rewrite bool_decide_eq_false_2 by done. apply Forall_cons in Hw2 as [Hw2 _].
    rewrite encode_vec_bytes by exact Hw2. cbn [mbind option_bind messages_bytes fmap list_fmap concat MDP3Msg_bytes].
    by rewrite app_nil_r. }
  cbn [mbind option_bind]. do 2 f_equal. unfold messages_bytes. by rewrite fmap_app, concat_app.
Qed.

(** ** What a subscriber reads *)

(** An entry applied to the depth of security [sid]: by level, as an MDP 3.0
    client does. *)
Definition read_action (z : Z) : MDUpdateAction :=
  if z =? 0 then MD_New else if z =? 1 then MD_Change else if z =? 2 then MD_Delete
  else if z =? 3 then MD_DeleteThru else if z =? 4 then MD_DeleteFrom else MD_Overlay.
Definition apply_entry (sid : SecurityId) (d : depth_list * depth_list) (e : MDIncrementalRefreshBook46.Entry.t)
    : option (depth_list * depth_list) :=
  let '(MDIncrementalRefreshBook46.Entry.mk px size sec _ orders level action type) := e in
  if negb (sec =? sid) then Some d else
  let update := apply_update (read_action action) level (mkPrice px, size, orders) in
  if bool_decide (type = Init.Byte.x30) then update_side true update d
  else if bool_decide (type = Init.Byte.x31) then update_side false update d
  else None.
Definition apply_line (sid : SecurityId) (d : depth_list * depth_list) (o : Output) : option (depth_list * depth_list) :=
  match o with OBook46 _ es => ofold (apply_entry sid) d es | _ => Some d end.
Definition subscriber_depth (sid : SecurityId) (d : depth_list * depth_list) (out : list Output) := ofold (apply_line sid) d out.

(** The trades on the terminal: security, price, size and aggressor. *)
Definition trade_prints (out : list Output) : list (Z * Z * Z * Z) :=
  concat ((λ o, match o with OTrade48 _ ts => fst <$> ts | _ => [] end) <$> out).

(** The same of the events. *)
Definition fill_line (e : EngineEvent) : option (Z * Z * Z * Z) :=
  match e with
  | OrderFilled _ sid px q aggressor _ _ _ _ _ _ _ _ _ _ _ _ => Some (sid, mantissa px, q, Side_to_u8 aggressor)
  | _ => None
  end.

(** Messages of an incremental feed. *)
Definition feed_message (m : MDP3Msg) : Prop :=
  match m with M_MDIncrementalRefreshBook46 _ | M_MDIncrementalRefreshTradeSummary48 _ => True | _ => False end.

Lemma read_action_of a : read_action (MDUpdateAction_to_u8 a) = a.
Proof. by destruct a. Qed.

Lemma book_entries_filter evs : ∀ b, book_entries b (filter (λ e, is_book_update e = true) evs) = book_entries b evs.
Proof.
  induction evs as [|e evs IH]; intros b; [done |]. rewrite filter_cons.
  destruct e; try (rewrite decide_False by done; apply IH). rewrite decide_True by done.
  cbn [book_entries]. by destruct (if negb _ then _ else _) as [n b']; rewrite IH.
Qed.

Lemma trade_entries_filter evs : ∀ b, trade_entries b (filter (λ e, is_fill e = true) evs) = trade_entries b evs.
Proof.
  induction evs as [|e evs IH]; intros b; [done |]. rewrite filter_cons.
  destruct e; try (rewrite decide_False by done; apply IH). rewrite decide_True by done.
  cbn [trade_entries]. by destruct (getNextRptSeq _ _) as [n b']; rewrite IH.
Qed.

Lemma book_entries_replay sid evs : ∀ b d,
  Forall index_ok evs → ofold (apply_entry sid) d (book_entries b evs).1 = replay d (events_of sid evs).
Proof.
  unfold events_of. induction evs as [|e evs IH]; intros b d Hi; [done |]. apply Forall_cons in Hi as [Hi Hev]. rewrite filter_cons.
  destruct e as [| |tid tsid px q agg moid mcl muuid mcum mleaves mst toid tcl tuuid tcum tleaves tst| | | |s sd p q n act idx rpt];
    cbn [book_entries event_security]; try (rewrite decide_False by done; by apply IH).
  - destruct (decide _); [| by apply IH]. rewrite replay_skip by done. by apply IH.
  - destruct (if negb (rpt =? 0) then _ else _) as [rptSeq b']. specialize (IH b').
    destruct (book_entries b' evs) as [es b2]. cbn [fst ofold].
    cbn [apply_entry]. destruct (Z.eqb_spec s sid) as [->|Hne]; cbn [negb].
    + rewrite decide_True by done. unfold replay. cbn [ofold apply_event]. rewrite read_action_of. destruct p as [p]. cbn [mantissa].
      cbn in Hi. rewrite wrapu_small by lia. unfold isBuy. destruct (bool_decide (sd = Buy)); cbn [MDEntryType_to_char];
        repeat first [rewrite bool_decide_eq_true_2 by done | rewrite bool_decide_eq_false_2 by done];
        (destruct (update_side _ _ d) as [d'|]; [exact (IH d' Hev) | done]).
    + rewrite decide_False by congruence. by apply IH.
Qed.

Lemma trade_entries_lines evs : ∀ b,
  fst <$> (trade_line <$> (trade_entries b evs).1.1) = omap fill_line evs.
Proof.
  induction evs as [|e evs IH]; intros b; [done |].
  destruct e as [| |tid tsid px q agg moid mcl muuid mcum mleaves mst toid tcl tuuid tcum tleaves tst| | | |];
    cbn [trade_entries]; try apply IH.
  destruct (getNextRptSeq b tsid) as [rpt b']. specialize (IH b').
  destruct (trade_entries b' evs) as [[es oids] b2]. cbn [fst] in *. cbn. f_equal. exact IH.
Qed.

Lemma batch_feed_messages b evs tm : Forall feed_message (batch_messages b evs tm).1.
Proof.
  unfold batch_messages. destruct (book_entries b _) as [es b1], (trade_entries b1 _) as [[ts oids] b2].
  apply Forall_app. split; [destruct es | destruct ts]; first [apply Forall_nil_2 | by apply Forall_singleton].
Qed.

Lemma batch_reading sid b evs tm d :
  Forall index_ok evs →
  subscriber_depth sid d (printed <$> (batch_messages b evs tm).1) = replay d (events_of sid evs) ∧
  trade_prints (printed <$> (batch_messages b evs tm).1) = omap fill_line evs.
Proof.
  intros Hi. unfold batch_messages. rewrite book_entries_filter.
  pose proof (book_entries_replay sid evs b d Hi) as Hb. destruct (book_entries b evs) as [es b1].
  rewrite trade_entries_filter. pose proof (trade_entries_lines evs b1) as Ht.
  destruct (trade_entries b1 evs) as [[ts oids] b2]. cbn [fst] in *.
  rewrite fmap_app. unfold subscriber_depth, trade_prints. rewrite ofold_app, fmap_app, concat_app. split.
  - rewrite <-Hb. destruct es as [|x es]; [by destruct ts |].
    cbn [fmap list_fmap printed ofold apply_line MDIncrementalRefreshBook46.entries].
    set (d' := apply_entry sid d x ≫= _). by destruct d', ts.
  - rewrite <-Ht. destruct es, ts; cbn; by rewrite ?app_nil_r.
Qed.

Lemma subscriber_app sid d out1 out2 :
  subscriber_depth sid d (out1 ++ out2) = d ← subscriber_depth sid d out1; subscriber_depth sid d out2.
Proof. apply ofold_app. Qed.
Lemma trade_prints_app out1 out2 : trade_prints (out1 ++ out2) = trade_prints out1 ++ trade_prints out2.
Proof. unfold trade_prints. by rewrite fmap_app, concat_app. Qed.

(** ** Sequences of packets *)

(** The datagrams of consecutive packets, each with its sending time and messages. *)
Fixpoint packets (seq : Z) (l : list (Z * list MDP3Msg)) : list buffer :=
  match l with
  | [] => []
  | (t, msgs) :: l => packet_bytes seq t (messages_bytes msgs) :: packets (u32 (seq + 1)) l
  end.
Fixpoint seq_after (seq : Z) (n : nat) : Z := match n with O => seq | S n => seq_after (u32 (seq + 1)) n end.

Lemma packets_length l : ∀ seq, length (packets seq l) = length l.
Proof. induction l as [|[t m] l IH]; intros seq; [done|]. cbn. by rewrite IH. Qed.
Lemma packets_app seq l1 l2 : packets seq (l1 ++ l2) = packets seq l1 ++ packets (seq_after seq (length l1)) l2.
Proof. revert seq. induction l1 as [|[t m] l1 IH]; intros seq; [done |]. cbn. by rewrite IH. Qed.
Lemma seq_after_app seq n m : seq_after seq (n + m) = seq_after (seq_after seq n) m.
Proof. revert seq. induction n as [|n IH]; intros seq; [done |]. apply IH. Qed.

(** A packet the listener can take into a buffer of [n] bytes. *)
Definition packet_fits (n : nat) (p : Z * list MDP3Msg) : Prop :=
  p.1 ∈u 64 ∧ Forall MDP3Msg_wf p.2 ∧ (PacketHeader.SIZE + length (messages_bytes p.2) ≤ n)%nat.

(** The listener is waiting for [seq]: it has seen nothing, or the number before. *)
Definition awaits (seq : Z) (s : Stats) : Prop := lastSeqNum s = 0 ∨ seq = u32 (lastSeqNum s + 1).

Lemma awaits_check seq s : awaits seq s → check_gap seq s = (s, []).
Proof.
  intros Hs. unfold check_gap. destruct (Z.ltb_spec 0 (lastSeqNum s)); [| done].
  destruct Hs as [? | <-]; [lia |]. by rewrite Z.eqb_refl.
Qed.

Lemma count_messages_frame n s :
  gaps (count_messages n s) = gaps s ∧ lastSeqNum (count_messages n s) = lastSeqNum s ∧
  packetsReceived (count_messages n s) = packetsReceived s.
Proof. induction n as [|n IH]; [done |]. exact IH. Qed.

(** What the listener prints for consecutive packets. *)
Fixpoint packet_lines (seq : Z) (l : list (Z * list MDP3Msg)) : list Output :=
  match l with
  | [] => []
  | (t, msgs) :: l => OPacket seq t :: (printed <$> msgs) ++ packet_lines (u32 (seq + 1)) l
  end.

Lemma receive_from_fits recvBuf d :
  (length d ≤ length recvBuf)%nat → receive_from recvBuf d = (d ++ drop (length d) recvBuf, length d).
Proof. intros Hl. unfold receive_from. by rewrite take_ge. Qed.

Lemma listen_packets l : ∀ recvBuf seq stats,
  Forall (packet_fits (length recvBuf)) l → seq ∈u 32 → awaits seq stats →
  ∃ stats', listen recvBuf (packets seq l) stats = Some (stats', packet_lines seq l) ∧
    gaps stats' = gaps stats ∧ awaits (seq_after seq (length l)) stats'.
Proof.
  induction l as [|[t msgs] l IH]; intros recvBuf seq stats Hl Hs Ha; [by exists stats |].
  apply Forall_cons in Hl as [(Ht & Hw & Hb) Hl]. cbn [fst snd] in *. cbn [packets listen].
  rewrite receive_from_fits by (by rewrite packet_bytes_length).
  rewrite process_packet, awaits_check by done. cbn [fst snd].
  set (recvBuf' := packet_bytes _ _ _ ++ drop _ _).
  assert (length recvBuf' = length recvBuf) as El
    by (unfold recvBuf'; rewrite length_app, length_drop, packet_bytes_length; lia).
  set (stats1 := count_messages _ _). destruct (count_messages_frame (length msgs) (count_packet seq stats)) as (Hg & Hlast & _).
  destruct (IH recvBuf' (u32 (seq + 1)) stats1) as (stats' & -> & Hg' & Ha').
  - by rewrite El.
  - apply wrapu_range. lia.
  - right. unfold stats1. by rewrite Hlast.
  - exists stats'. cbn [mbind option_bind]. split; [done |]. split; [| done]. rewrite Hg'. exact Hg.
Qed.

(** ** The channel publisher *)

(** The packet of a batch: its messages, unless there are none. *)
Definition batch_packet (b : IncrementalBuilder) (evs : list EngineEvent) (tm : Timestamp) : list (list MDP3Msg) :=
  match (batch_messages b evs tm).1 with [] => [] | msgs => [msgs] end.

Lemma messages_bytes_nil msgs : messages_bytes msgs = [] → Forall MDP3Msg_wf msgs → msgs = [].
Proof.
  destruct msgs as [|m msgs]; [done |]. intros H Hw. apply Forall_cons in Hw as [Hm _]. exfalso.
  pose proof (message_long m) as Hl. rewrite <-MDP3Msg_bytes_length in Hl by done. unfold messages_bytes in H.
  cbn [fmap list_fmap concat] in H. apply app_eq_nil in H as [H _]. rewrite H in Hl. unfold MessageHeader.SIZE in Hl. cbn in Hl. lia.
Qed.

(** What one publication does to the channel. *)
Definition published (c c' : ChannelPublisher) (lA lB : list (Z * list MDP3Msg)) : Prop :=
  incremental_feed_a_ c' = mkFeedSender (seq_after (next_seq_num_ (incremental_feed_a_ c)) (length lA))
    (datagrams (incremental_feed_a_ c) ++ packets (next_seq_num_ (incremental_feed_a_ c)) lA) ∧
  incremental_feed_b_ c' = mkFeedSender (next_seq_num_ (incremental_feed_b_ c))
    (datagrams (incremental_feed_b_ c) ++ packets (next_seq_num_ (incremental_feed_a_ c)) lB) ∧
  lA.*2 = lB.*2 ∧ Forall (λ p, p.1 ∈u 64) lA ∧ Forall (λ p, p.1 ∈u 64) lB.

Lemma published_nil c c' : incremental_feed_a_ c' = incremental_feed_a_ c → incremental_feed_b_ c' = incremental_feed_b_ c → published c c' [] [].
Proof. intros HA HB. unfold published. rewrite HA, HB. cbn. rewrite !app_nil_r. destruct (incremental_feed_a_ c), (incremental_feed_b_ c). by repeat constructor. Qed.

Lemma published_app c c1 c2 lA1 lB1 lA2 lB2 :
  published c c1 lA1 lB1 → published c1 c2 lA2 lB2 → published c c2 (lA1 ++ lA2) (lB1 ++ lB2).
Proof.
  intros (HA1 & HB1 & E1 & F1 & G1) (HA2 & HB2 & E2 & F2 & G2). unfold published. rewrite HA2, HB2, HA1, HB1. cbn [next_seq_num_ datagrams].
  assert (length lA1 = length lB1) as El by (by rewrite <-(length_fmap snd lA1), E1, length_fmap).
  rewrite length_app, seq_after_app, !packets_app, <-El, !app_assoc, !fmap_app, E1, E2.
  split_and!; try done; by apply Forall_app.
Qed.

(** The frame of the incremental operations. *)
Definition same_rest (c c' : ChannelPublisher) : Prop :=
  channel_id_ c' = channel_id_ c ∧ snapshot_feed_a_ c' = snapshot_feed_a_ c ∧ snapshot_feed_b_ c' = snapshot_feed_b_ c ∧
  instdef_feed_a_ c' = instdef_feed_a_ c ∧ instdef_feed_b_ c' = instdef_feed_b_ c.

Section clock.
Context (system : nat → Z).

Lemma send_incremental_spec c reads body msgs :
  body = messages_bytes msgs →
  ∃ c', send_incremental system c reads body = Some (c', S (S reads)) ∧ same_rest c c' ∧
    published c c' [(u64 (system reads), msgs)] [(u64 (system (S reads)), msgs)] ∧
    incremental_builder_ c' = incremental_builder_ c ∧
    snapshot_cycler_ c' = setLastIncrementalSeqNum (next_seq_num_ (incremental_feed_a_ c)) <$> snapshot_cycler_ c.
Proof.
  intros ->. unfold send_incremental. rewrite send_eq. cbn [mbind option_bind]. rewrite sendWithSeqNum_eq. cbn [mbind option_bind].
  eexists. split; [reflexivity |]. split; [by split_and! |]. split; [| done].
  pose proof (wrapu_range 64 (system reads) ltac:(lia)). pose proof (wrapu_range 64 (system (S reads)) ltac:(lia)).
  split_and!; try done; by apply Forall_singleton.
Qed.

Lemma publishIncrementalUpdates_spec c reads evs tm :
  builder_ok (incremental_builder_ c) → batch_ok evs → tm ∈u 64 →
  ∃ c' reads' lA lB, publishIncrementalUpdates system c reads evs tm = Some (c', reads') ∧
    same_rest c c' ∧ published c c' lA lB ∧ lA.*2 = batch_packet (incremental_builder_ c) evs tm ∧
    incremental_builder_ c' = (batch_messages (incremental_builder_ c) evs tm).2.
Proof.
  intros Hb He Ht. unfold publishIncrementalUpdates. case_bool_decide as Hn.
  - subst evs. exists c, reads, [], []. split_and!; try done. by apply published_nil.
  - rewrite buildIncrementalPacket_eq by done. cbn [mbind option_bind]. unfold batch_packet.
    destruct (batch_messages_wf _ _ _ Hb He Ht) as [Hw _].
    destruct (batch_messages _ evs tm) as [msgs b'] eqn:E. cbn [fst snd] in *. case_bool_decide as Hm.
    + apply messages_bytes_nil in Hm as ->; [| done]. exists (set_builder b' c), reads, [], [].
      split_and!; try done. by apply published_nil.
    + destruct (send_incremental_spec (set_builder b' c) reads _ msgs eq_refl) as (c' & -> & Hr & Hp & Hb' & _).
      exists c', (S (S reads)). eexists _, _. split; [done |]. split; [exact Hr |]. split; [exact Hp |].
      split; [| exact Hb']. by destruct msgs.
Qed.
End clock.
