(* ===== verification/FeedChannels.v ===== *)
(** * Batches of events on the feeds

    What a channel's incremental feeds carry for a sequence of batches, and which
    channel gets which events. *)
From S2P Require Import Prelude Types Sbe Mdp3 Dispatcher Order OrderBook BookSpec BookWf BookRefine BookCommands BookReplay BookCorrect BookTheorems.
From S2P Require Import Engine EngineTheorems EngineReplay Typed Instrument InstrumentManager MarketData Publisher Listener ListenerTheorems FeedLemmas.
Import MarketDataOps PublisherOps ListenerOps.

(** ** The size of a packet *)
Lemma batch_messages_size b evs tm :
  builder_ok b → batch_ok evs → tm ∈u 64 →
  (length (messages_bytes (batch_messages b evs tm).1) ≤ Z.to_nat 20000)%nat.
Proof.
  intros Hb He Ht. destruct (batch_messages_wf b evs tm Hb He Ht) as [Hw _]. revert Hw.
  unfold batch_messages. destruct (book_entries b _) as [es b1], (trade_entries b1 _) as [[ts oids] b2]. cbn [fst].
  unfold messages_bytes. rewrite fmap_app, concat_app, length_app. intros [H1 H2]%Forall_app.
  destruct es as [|e es], ts as [|t ts]; cbn [fmap list_fmap concat length]; rewrite ?app_nil_r;
    repeat match goal with H : Forall _ [_] |- _ => apply Forall_cons in H as [H _] end;
    rewrite ?MDP3Msg_bytes_length by done; cbn [MDP3Msg_encodedLength MDP3Msg_wf] in *;
    unfold MDIncrementalRefreshBook46.encodedLength, MDIncrementalRefreshTradeSummary48.encodedLength,
      MDIncrementalRefreshBook46.wf, MDIncrementalRefreshTradeSummary48.wf, group_length, GroupSize.SIZE, MessageHeader.SIZE in *;
    cbn [MDIncrementalRefreshBook46.entries MDIncrementalRefreshTradeSummary48.mdEntries
      MDIncrementalRefreshTradeSummary48.orderIDEntries] in *;
    change (Z.to_nat MDIncrementalRefreshBook46.BLOCK_LENGTH) with 9%nat;
    change (Z.to_nat MDIncrementalRefreshTradeSummary48.BLOCK_LENGTH) with 9%nat;
    change (Z.to_nat MDIncrementalRefreshBook46.Entry.ENTRY_BLOCK_LENGTH) with 27%nat;
    change (Z.to_nat MDIncrementalRefreshTradeSummary48.MDEntry.ENTRY_BLOCK_LENGTH) with 26%nat;
    change (Z.to_nat MDIncrementalRefreshTradeSummary48.OrderIDEntry.ENTRY_BLOCK_LENGTH) with 12%nat;
    destruct_and?; lia.
Qed.

(** ** Batches *)
Definition recv_size : nat := Z.to_nat 65536.

Section clock.
Context (system : nat → Z).

(** The batches published one after the other. *)
Fixpoint publish_batches (c : ChannelPublisher) (reads : nat) (batches : list (list EngineEvent * Timestamp))
    : option (ChannelPublisher * nat) :=
  match batches with
  | [] => Some (c, reads)
  | (evs, tm) :: batches =>
      '(c, reads) ← publishIncrementalUpdates system c reads evs tm; publish_batches c reads batches
  end.

Definition batches_ok (batches : list (list EngineEvent * Timestamp)) : Prop :=
  Forall (λ p, batch_ok p.1 ∧ p.2 ∈u 64) batches.
Definition batch_events (batches : list (list EngineEvent * Timestamp)) : list EngineEvent := concat batches.*1.

(** What a feed carries for the batches: fitting packets that read as the events. *)
Definition carries (l : list (Z * list MDP3Msg)) (evs : list EngineEvent) : Prop :=
  Forall (packet_fits recv_size) l ∧
  (∀ seq sid d, subscriber_depth sid d (packet_lines seq l) = replay d (events_of sid evs)) ∧
  (∀ seq, trade_prints (packet_lines seq l) = omap fill_line evs) ∧
  Forall (λ p, Forall feed_message p.2) l.

Lemma carries_nil : carries [] [].
Proof. by split_and!. Qed.

Lemma packet_lines_app seq l1 l2 :
  packet_lines seq (l1 ++ l2) = packet_lines seq l1 ++ packet_lines (seq_after seq (length l1)) l2.
Proof. revert seq. induction l1 as [|[t m] l1 IH]; intros seq; [done |]. cbn. by rewrite IH, app_assoc. Qed.

Lemma carries_app l1 l2 evs1 evs2 : carries l1 evs1 → carries l2 evs2 → carries (l1 ++ l2) (evs1 ++ evs2).
Proof.
  intros (F1 & D1 & T1 & M1) (F2 & D2 & T2 & M2). split_and!; [by apply Forall_app | | |].
  - intros seq sid d. rewrite packet_lines_app, subscriber_app, D1. unfold events_of. rewrite filter_app, replay_app. by destruct (replay d _); [apply D2 |].
  - intros seq. by rewrite packet_lines_app, trade_prints_app, T1, T2, omap_app.
  - by apply Forall_app.
Qed.

Lemma batch_carries b evs tm l :
  builder_ok b → batch_ok evs → tm ∈u 64 → Forall (λ p, p.1 ∈u 64) l → l.*2 = batch_packet b evs tm → carries l evs.
Proof.
  intros Hb He Ht Hl El. destruct (batch_messages_wf b evs tm Hb He Ht) as [Hw _].
  pose proof (batch_messages_size b evs tm Hb He Ht) as Hs.
  pose proof (λ sid d, batch_reading sid b evs tm d (bo_index _ He)) as Hr.
  pose proof (batch_feed_messages b evs tm) as Hm.
  unfold batch_packet in El. destruct (batch_messages b evs tm) as [msgs b']. cbn [fst] in *. destruct msgs as [|m msgs].
  - destruct l; [| done]. split_and!; [done | | | done].
    + intros seq sid d. by destruct (Hr sid d) as [<- _].
    + intros seq. by destruct (Hr 0 ([], [])) as [_ <-].
  - destruct l as [|[t msgs'] [|]]; try done. injection El as ->. apply Forall_cons in Hl as [Hl _].
    split_and!.
    + apply Forall_singleton. split; [done |]. split; [done |]. cbn [snd]. unfold recv_size, PacketHeader.SIZE. lia.
    + intros seq sid d. destruct (Hr sid d) as [<- _]. cbn [packet_lines]. by rewrite app_nil_r.
    + intros seq. destruct (Hr 0 ([], [])) as [_ <-]. cbn [packet_lines]. by rewrite app_nil_r.
    + by apply Forall_singleton.
Qed.

Lemma publish_batches_spec batches : ∀ c reads,
  builder_ok (incremental_builder_ c) → batches_ok batches →
  ∃ c' reads' lA lB, publish_batches c reads batches = Some (c', reads') ∧ published c c' lA lB ∧
    carries lA (batch_events batches) ∧ carries lB (batch_events batches).
Proof.
  induction batches as [|[evs tm] batches IH]; intros c reads Hb Hok.
  - exists c, reads, [], []. split; [done |]. split; [by apply published_nil |]. split; apply carries_nil.
  - apply Forall_cons in Hok as [[He Ht] Hok]. cbn [fst snd] in *.
    destruct (publishIncrementalUpdates_spec system c reads evs tm Hb He Ht) as (c1 & reads1 & lA & lB & E & _ & Hp & El & Hb1).
    pose proof (batch_messages_wf _ _ _ Hb He Ht) as [_ Hb1']. rewrite <-Hb1 in Hb1'.
    destruct (IH c1 reads1 Hb1' Hok) as (c2 & reads2 & lA2 & lB2 & E2 & Hp2 & Hc2 & Hd2).
    exists c2, reads2, (lA ++ lA2), (lB ++ lB2). cbn [publish_batches]. rewrite E. cbn [mbind option_bind].
    split; [exact E2 |]. split; [by eapply published_app |].
    pose proof Hp as (_ & _ & E12 & FA & FB). change (batch_events ((evs, tm) :: batches)) with (evs ++ batch_events batches).
    split; (apply carries_app; [| done]); apply (batch_carries (incremental_builder_ c) evs tm); try done. by rewrite <-E12.
Qed.

(** A listener on one of the feeds. *)
Lemma listen_carried l evs recvBuf seq stats :
  carries l evs → length recvBuf = recv_size → seq ∈u 32 → awaits seq stats →
  ∃ stats' out, listen recvBuf (packets seq l) stats = Some (stats', out) ∧ gaps stats' = gaps stats ∧
    awaits (seq_after seq (length l)) stats' ∧
    (∀ sid d, subscriber_depth sid d out = replay d (events_of sid evs)) ∧ trade_prints out = omap fill_line evs.
Proof.
  intros (F & D & T & _) Hr Hs Ha. rewrite <-Hr in F.
  destruct (listen_packets l recvBuf seq stats F Hs Ha) as (stats' & E & Hg & Ha'). eexists _, _. by split_and!.
Qed.

End clock.

(** ** Routing *)

(** The channel an event goes to. *)
Definition routed (p : MarketDataPublisher) (e : EngineEvent) : option Z :=
  sid ← published_security e; let ch := getChannelForSecurity p sid in if ch =? 0 then None else Some ch.
Definition channel_events (p : MarketDataPublisher) (ch : Z) (evs : list EngineEvent) : list EngineEvent :=
  filter (λ e, routed p e = Some ch) evs.
Definition publishers_ok (p : MarketDataPublisher) : Prop :=
  map_Forall (λ _ c, builder_ok (incremental_builder_ c)) (channel_publishers_ p).
(** An order in which the hash map of the channels of a batch can be walked. *)
Definition order_ok (p : MarketDataPublisher) (evs : list EngineEvent) (order : list Z) : Prop :=
  NoDup order ∧ ∀ ev ch, ev ∈ evs → routed p ev = Some ch → ch ∈ order.

Lemma group_events_spec p ch evs : ∀ m,
  default [] (foldl (group_event p) m evs !! ch) = default [] (m !! ch) ++ channel_events p ch evs ∧
  (is_Some (foldl (group_event p) m evs !! ch) → is_Some (m !! ch) ∨ channel_events p ch evs ≠ []).
Proof.
  unfold channel_events. induction evs as [|e evs IH]; intros m; [rewrite app_nil_r; by split; [| left] |].
  cbn [foldl]. destruct (IH (group_event p m e)) as [E1 E2]. rewrite E1. rewrite filter_cons.
  assert (default [] (group_event p m e !! ch) = default [] (m !! ch) ++ (if decide (routed p e = Some ch) then [e] else []) ∧
    (is_Some (group_event p m e !! ch) → is_Some (m !! ch) ∨ routed p e = Some ch)) as [E3 E4].
  { unfold group_event, routed. destruct (published_security e) as [sid|]; cbn [mbind option_bind];
      [| rewrite decide_False by done; rewrite app_nil_r; by split; [| left]].
    destruct (getChannelForSecurity p sid =? 0) eqn:E0; cbn [negb]; [rewrite decide_False by done; rewrite app_nil_r; by split; [| left] |].
    destruct (decide (getChannelForSecurity p sid = ch)) as [<-|Hne].
    - rewrite decide_True by done. rewrite lookup_insert_eq. split; [done | by right].
    - rewrite decide_False by congruence. rewrite lookup_insert_ne by done. rewrite app_nil_r. by split; [| left]. }
  rewrite E3, <-app_assoc. split; [f_equal; by case_decide |].
  intros H. case_decide as Hd; [by right |]. apply E2 in H as [H|H]; [| by right]. left. apply E4 in H as [H|H]; done.
Qed.

Lemma filter_filter_length {A} (P Q : A → Prop) `{!∀ x, Decision (P x), !∀ x, Decision (Q x)} l :
  (length (filter P (filter Q l)) ≤ length (filter P l))%nat.
Proof.
  induction l as [|x l IH]; [done |]. rewrite !filter_cons.
  destruct (decide (Q x)); [rewrite filter_cons |]; destruct (decide (P x)); cbn; lia.
Qed.

Lemma batch_ok_filter P `{!∀ e, Decision (P e)} evs : batch_ok evs → batch_ok (filter P evs).
Proof.
  intros [He Hi Hu Hf]. split.
  - by apply Forall_filtered.
  - apply Forall_forall. intros e [_ Hin]%list_elem_of_filter. by apply (proj1 (Forall_forall _ _) Hi).
  - eapply Nat.le_lt_trans; [apply filter_filter_length | done].
  - pose proof (filter_filter_length (λ e, is_fill e = true) P evs). lia.
Qed.

Section routing.
Context (system : nat → Z).

(** A channel and its events, published. *)
Definition channel_step (c : ChannelPublisher) (evs : list EngineEvent) (ts : Timestamp) (c' : ChannelPublisher) : Prop :=
  ∃ reads reads', publishIncrementalUpdates system c reads evs ts = Some (c', reads').

Lemma publish_channels_spec ts by_channel order : ∀ p,
  NoDup order → publishers_ok p → ts ∈u 64 → map_Forall (λ _ evs, batch_ok evs) by_channel →
  ∃ p', publish_channels system ts by_channel p order = Some p' ∧ publishers_ok p' ∧
    security_to_channel_ p' = security_to_channel_ p ∧
    ∀ ch, match channel_publishers_ p !! ch with
          | None => channel_publishers_ p' !! ch = None
          | Some c => ∃ c', channel_publishers_ p' !! ch = Some c' ∧
              match by_channel !! ch with
              | Some evs => if bool_decide (ch ∈ order) then channel_step c evs ts c' else c' = c
              | None => c' = c
              end
          end.
Proof.
  induction order as [|k order IH]; intros p Hnd Hp Ht Hb.
  - exists p. split_and!; [done | done | done |]. intros ch. destruct (channel_publishers_ p !! ch) as [c|]; [| done].
    exists c. split; [done |]. by destruct (by_channel !! ch).
  - apply NoDup_cons in Hnd as [Hk Hnd]. cbn [publish_channels].
    assert (∀ ch, ch ≠ k → bool_decide (ch ∈ k :: order) = bool_decide (ch ∈ order)) as Hin
      by (intros ch Hne; apply bool_decide_ext; rewrite elem_of_cons; naive_solver).
    destruct (by_channel !! k) as [evs|] eqn:Ek; [destruct (channel_publishers_ p !! k) as [c|] eqn:Ec |].
    + destruct (publishIncrementalUpdates_spec system c (md_reads p) evs ts (Hp _ _ Ec) (Hb _ _ Ek) Ht)
        as (c1 & reads1 & lA & lB & E & _ & _ & _ & Hb1). rewrite E. cbn [mbind option_bind].
      destruct (batch_messages_wf _ evs ts (Hp _ _ Ec) (Hb _ _ Ek) Ht) as [_ Hok]. rewrite <-Hb1 in Hok.
      destruct (IH (set_publisher k c1 reads1 p) Hnd) as (p' & E' & Hp' & Hs & Hch); [by apply map_Forall_insert_2 | done | done |].
      exists p'. split_and!; [done | done | done |]. intros ch. specialize (Hch ch). cbn [set_publisher channel_publishers_] in Hch.
      destruct (decide (ch = k)) as [->|Hne].
      * rewrite lookup_insert_eq in Hch. rewrite Ec, Ek. destruct Hch as (c' & E1 & E2). rewrite Ek in E2.
        rewrite bool_decide_eq_false_2 in E2 by done. subst c'. exists c1. split; [done |].
        rewrite bool_decide_eq_true_2 by (by left). by exists (md_reads p), reads1.
      * rewrite lookup_insert_ne in Hch by done. by rewrite Hin.
    + destruct (IH p Hnd Hp Ht Hb) as (p' & E' & Hp' & Hs & Hch). exists p'. split_and!; [done | done | done |].
      intros ch. specialize (Hch ch). destruct (decide (ch = k)) as [->|Hne]; [by rewrite Ec in * |]. by rewrite Hin.
    + destruct (IH p Hnd Hp Ht Hb) as (p' & E' & Hp' & Hs & Hch). exists p'. split_and!; [done | done | done |].
      intros ch. specialize (Hch ch). destruct (decide (ch = k)) as [->|Hne]; [by rewrite Ek in * |]. by rewrite Hin.
Qed.

Lemma publishEvents_spec p order evs :
  publishers_ok p → batch_ok evs → order_ok p evs order →
  ∃ p', publishEvents system p order evs = Some p' ∧ publishers_ok p' ∧
    security_to_channel_ p' = security_to_channel_ p ∧
    ∀ ch, match channel_publishers_ p !! ch with
          | None => channel_publishers_ p' !! ch = None
          | Some c => ∃ c', channel_publishers_ p' !! ch = Some c' ∧
              channel_step c (channel_events p ch evs) (u64 (system (md_reads p))) c'
          end.
Proof.
  intros Hp Hb [Hnd Hord]. unfold publishEvents. case_bool_decide as Hn.
  - subst evs. exists p. split_and!; [done | done | done |]. intros ch. destruct (channel_publishers_ p !! ch) as [c|]; [| done].
    exists c. split; [done |]. by exists 0%nat, 0%nat.
  - set (bc := foldl (group_event p) ∅ evs).
    assert (∀ ch, bc !! ch = match channel_events p ch evs with [] => None | l => Some l end) as Hbc.
    { intros ch. destruct (group_events_spec p ch evs ∅) as [E1 E2]. fold bc in E1, E2. rewrite lookup_empty in E1, E2. cbn in E1.
      destruct (bc !! ch) as [l|] eqn:E; cbn in E1.
      - destruct E2 as [[? ?]|?]; [by eexists | done |]. rewrite E1. by destruct (channel_events p ch evs).
      - by rewrite <-E1. }
    set (p0 := mkMarketDataPublisher (channel_publishers_ p) (security_to_channel_ p) (S (md_reads p))).
    pose proof (wrapu_range 64 (system (md_reads p)) ltac:(lia)) as Hts.
    destruct (publish_channels_spec (u64 (system (md_reads p))) bc order p0) as (p' & E & Hp' & Hs & Hch); [done | done | done | |].
    { intros ch l Hl. rewrite Hbc in Hl. destruct (channel_events p ch evs) eqn:E; [done |]. injection Hl as <-. rewrite <-E.
      by apply batch_ok_filter. }
    exists p'. split_and!; [done | done | done |]. intros ch. specialize (Hch ch). cbn [p0 channel_publishers_] in Hch.
    destruct (channel_publishers_ p !! ch) as [c|]; [| done]. destruct Hch as (c' & Ec & Hst). exists c'. split; [done |].
    rewrite Hbc in Hst. destruct (channel_events p ch evs) as [|e l] eqn:El; [subst c'; by exists 0%nat, 0%nat |].
    assert (e ∈ channel_events p ch evs) as [Hr Hin]%list_elem_of_filter by (rewrite El; by left).
    rewrite bool_decide_eq_true_2 in Hst by (by eapply Hord). done.
Qed.
End routing.

(** ** The invariant of a channel *)

(** The sequence numbers and the payloads of datagrams. *)
Definition numbers (ds : list buffer) : list (option Z) := (λ d, PacketHeader.decodeMsgSeqNum d 0) <$> ds.
Definition bodies (ds : list buffer) : list buffer := drop PacketHeader.SIZE <$> ds.
Fixpoint consecutive (seq : Z) (n : nat) : list (option Z) :=
  match n with O => [] | S n => Some seq :: consecutive (u32 (seq + 1)) n end.

(** Feeds A and B carry the same payloads under the same numbers 1, 2, 3, ... *)
Record pair_ok (a b : FeedSender) : Prop := {
  po_next : next_seq_num_ a = seq_after 1 (length (datagrams a));
  po_numbers : numbers (datagrams a) = consecutive 1 (length (datagrams a));
  po_same_numbers : numbers (datagrams b) = numbers (datagrams a);
  po_same_bodies : bodies (datagrams b) = bodies (datagrams a);
}.

Record channel_inv (c : ChannelPublisher) : Prop := {
  ci_incremental : pair_ok (incremental_feed_a_ c) (incremental_feed_b_ c);
  ci_snapshot : pair_ok (snapshot_feed_a_ c) (snapshot_feed_b_ c) ∧
    next_seq_num_ (snapshot_feed_b_ c) = next_seq_num_ (snapshot_feed_a_ c);
  ci_instdef : pair_ok (instdef_feed_a_ c) (instdef_feed_b_ c) ∧
    next_seq_num_ (instdef_feed_b_ c) = next_seq_num_ (instdef_feed_a_ c);
  ci_cycler cy : snapshot_cycler_ c = Some cy →
    last_incr_seq_ cy = 0 ∨ Some (last_incr_seq_ cy) = mjoin (last (numbers (datagrams (incremental_feed_a_ c))));
}.

Lemma seq_after_range n : ∀ seq, seq ∈u 32 → seq_after seq n ∈u 32.
Proof. induction n as [|n IH]; intros seq Hs; [done |]. apply IH, wrapu_range. lia. Qed.

Lemma seq_after_snoc seq n : seq_after seq (n + 1) = u32 (seq_after seq n + 1).
Proof. by rewrite seq_after_app. Qed.

Lemma consecutive_snoc n : ∀ seq, consecutive seq (n + 1) = consecutive seq n ++ [Some (seq_after seq n)].
Proof. induction n as [|n IH]; intros seq; [done |]. cbn. by rewrite IH. Qed.

Lemma number_packet seq t body : seq ∈u 32 → PacketHeader.decodeMsgSeqNum (packet_bytes seq t body) 0 = Some seq.
Proof. intros Hs. rewrite <-(app_nil_r (packet_bytes _ _ _)). by apply packet_seq. Qed.

Lemma body_packet seq t body : drop PacketHeader.SIZE (packet_bytes seq t body) = body.
Proof.
  unfold packet_bytes. rewrite app_assoc. apply drop_app_length'. by rewrite length_app, !length_le_split.
Qed.

(** One packet on both feeds of a pair. *)
Lemma pair_step a b t t' body na nb :
  pair_ok a b → na = u32 (next_seq_num_ a + 1) →
  pair_ok (mkFeedSender na (datagrams a ++ [packet_bytes (next_seq_num_ a) t body]))
    (mkFeedSender nb (datagrams b ++ [packet_bytes (next_seq_num_ a) t' body])).
Proof.
  intros [Hn Hnum Hs Hb] ->. assert (next_seq_num_ a ∈u 32) as Hr by (rewrite Hn; apply seq_after_range; lia).
  split; cbn [next_seq_num_ datagrams]; unfold numbers, bodies in *; rewrite ?length_app, ?fmap_app; cbn [length].
  - by rewrite seq_after_snoc, <-Hn.
  - rewrite consecutive_snoc, Hnum. cbn [fmap list_fmap]. by rewrite number_packet, <-Hn.
  - rewrite Hs. cbn [fmap list_fmap]. by rewrite !number_packet.
  - rewrite Hb. cbn [fmap list_fmap]. by rewrite !body_packet.
Qed.

Inductive ChannelOp :=
| CUpdates (events : list EngineEvent) (transact_time : Timestamp)
| CStatus (security_id : SecurityId) (status : SecurityTradingStatus) (transact_time : Timestamp)
| CDefinitions (instruments : list Instrument)
| CCycle (provider : SecurityId → Depth)
| CInitCycler (instruments : list SecurityId).

Section channel_ops.
Context (system : nat → Z).

Definition channel_op (c : ChannelPublisher) (reads : nat) (op : ChannelOp) : option (ChannelPublisher * nat) :=
  match op with
  | CUpdates events tm => publishIncrementalUpdates system c reads events tm
  | CStatus sid status tm => publishSecurityStatus system c reads sid status tm
  | CDefinitions insts => replayInstrumentDefinitions system c reads insts
  | CCycle provider => runCycle system provider c reads
  | CInitCycler insts => Some (initSnapshotCycler c insts, reads)
  end.
Fixpoint channel_run (c : ChannelPublisher) (reads : nat) (ops : list ChannelOp) : option (ChannelPublisher * nat) :=
  match ops with
  | [] => Some (c, reads)
  | op :: ops => '(c, reads) ← channel_op c reads op; channel_run c reads ops
  end.

Lemma send_incremental_inv c reads body c' reads' :
  channel_inv c → send_incremental system c reads body = Some (c', reads') → channel_inv c'.
Proof.
  intros [Hi Hs Hd Hc]. unfold send_incremental. rewrite send_eq. cbn [mbind option_bind]. rewrite sendWithSeqNum_eq.
  cbn [mbind option_bind]. intros [= <- _]. split; cbn; [by apply pair_step | done | done |].
  intros cy' (cy & _ & ->)%fmap_Some. right. rewrite fmap_app, last_app. cbn.
  rewrite number_packet; [done |]. destruct Hi as [-> _ _ _]. apply seq_after_range. lia.
Qed.

Lemma set_builder_inv b c : channel_inv c → channel_inv (set_builder b c).
Proof. by intros []. Qed.

Lemma replay_loop_inv tot insts : ∀ c reads c' reads',
  channel_inv c → replayInstrumentDefinitions_loop system tot c reads insts = Some (c', reads') → channel_inv c'.
Proof.
  induction insts as [|inst insts IH]; intros c reads c' reads' Hc; cbn [replayInstrumentDefinitions_loop]; [by intros [= <- _] |].
  intros (msg & _ & H)%bind_Some. case_bool_decide; [by eapply IH |].
  rewrite send_eq in H. cbn [mbind option_bind] in H. rewrite send_eq in H. cbn [mbind option_bind] in H. eapply IH, H.
  destruct Hc as [Hi Hs [Hd En] Hcy]. split; cbn; [done | done | | done]. rewrite En. split; [by apply pair_step | done].
Qed.

Lemma runCycle_loop_inv provider seq tot secs : ∀ count a b reads count' a' b' reads',
  pair_ok a b → next_seq_num_ b = next_seq_num_ a →
  runCycle_loop system provider seq tot count a b reads secs = Some (count', a', b', reads') →
  pair_ok a' b' ∧ next_seq_num_ b' = next_seq_num_ a'.
Proof.
  induction secs as [|sid secs IH]; intros count a b reads count' a' b' reads' Hp En; cbn [runCycle_loop]; [by intros [= _ <- <- _] |].
  destruct (provider sid) as [[[bids asks] bc] ac]. intros (msg & _ & H)%bind_Some. case_bool_decide; [by eapply IH |].
  rewrite send_eq in H. cbn [mbind option_bind] in H. rewrite send_eq in H. cbn [mbind option_bind] in H.
  eapply IH, H; cbn; rewrite En; [by apply pair_step | done].
Qed.

Lemma channel_op_inv c reads op c' reads' : channel_inv c → channel_op c reads op = Some (c', reads') → channel_inv c'.
Proof.
  intros Hc. destruct op as [evs tm|sid st tm|insts|provider|insts]; cbn [channel_op].
  - unfold publishIncrementalUpdates. case_bool_decide as He; [by intros [= <- _] |]. intros ([packet b] & _ & H)%bind_Some.
    case_bool_decide as Hpk; [injection H as <- _; by apply set_builder_inv |]. by eapply send_incremental_inv, H; apply set_builder_inv.
  - unfold publishSecurityStatus. intros (buf & _ & H)%bind_Some. by eapply send_incremental_inv.
  - by apply replay_loop_inv.
  - unfold runCycle. intros (cy & Ecy & ([[[count a] b] r] & Hl & Hret)%bind_Some)%bind_Some. injection Hret as <- _.
    destruct Hc as [Hi [Hs En] Hd Hcy]. apply runCycle_loop_inv in Hl; [| done..]. split; cbn; [done | done | done |].
    intros cy' [= <-]. exact (Hcy cy Ecy).
  - intros [= <- _]. destruct Hc. split; cbn; try done. intros cy [= <-]. by left.
Qed.
End channel_ops.

Lemma channel_init_inv ch : channel_inv (ChannelPublisher_init ch).
Proof. by repeat split. Qed.
