(* ===== verification/PublisherTotal.v ===== *)
(** * The publisher always returns, and stays ready

    Publication without any condition on the events, snapshot cycles without any
    on the books, and the replay of instrument definitions whose numbers can be
    converted: no encoder writes outside its buffer, and the channels keep their
    invariant. *)
From S2P Require Import Prelude Types Sbe Mdp3 Order OrderedMap OrderBook Engine Instrument Text InstrumentManager MarketData Publisher FeedLemmas FeedChannels.
Import InstrumentManagerOps.

(** ** Publication always returns

    Whatever the numbers in the events and however many there are: the encoders
    write every entry into a buffer of the length they have computed, only the
    one-byte counts wrap. *)
Lemma encode_book_total m : ∃ buf, encode_vec (M := MDIncrementalRefreshBook46.t) m = Some buf.
Proof.
  unfold encode_vec. cbn [sbe_encode sbe_encodedLength MDIncrementalRefreshBook46.codec].
  pose proof (one_group_encode MDIncrementalRefreshBook46.BLOCK_LENGTH MDIncrementalRefreshBook46.TEMPLATE_ID
    MessageHeader.MDP3_SCHEMA_ID MessageHeader.MDP3_VERSION (λ _, True) MDIncrementalRefreshBook46.Entry.fields
    MDIncrementalRefreshBook46.Entry.ENTRY_BLOCK_LENGTH (λ _ _, ltac:(by repeat split)) (λ _ _, eq_refl)
    (MDIncrementalRefreshBook46.fields m) (MDIncrementalRefreshBook46.entries m) []
    (replicate (MDIncrementalRefreshBook46.encodedLength m) Init.Byte.x00) []) as E.
  rewrite app_nil_r in E. eexists. eapply bind_step; [apply E|reflexivity]; [by repeat split|done|by apply Forall_true|apply length_replicate].
Qed.

Lemma encode_trades_total m : ∃ buf, encode_vec (M := MDIncrementalRefreshTradeSummary48.t) m = Some buf.
Proof.
  unfold encode_vec. cbn [sbe_encode sbe_encodedLength MDIncrementalRefreshTradeSummary48.codec].
  pose proof (two_group_encode MDIncrementalRefreshTradeSummary48.BLOCK_LENGTH MDIncrementalRefreshTradeSummary48.TEMPLATE_ID
    MessageHeader.MDP3_SCHEMA_ID MessageHeader.MDP3_VERSION (λ _, True) MDIncrementalRefreshTradeSummary48.MDEntry.fields
    MDIncrementalRefreshTradeSummary48.MDEntry.ENTRY_BLOCK_LENGTH (λ _ _, ltac:(by repeat split)) (λ _ _, eq_refl)
    (λ _, True) MDIncrementalRefreshTradeSummary48.OrderIDEntry.fields
    MDIncrementalRefreshTradeSummary48.OrderIDEntry.ENTRY_BLOCK_LENGTH (λ _ _, ltac:(by repeat split)) (λ _ _, eq_refl)
    (MDIncrementalRefreshTradeSummary48.fields m) (MDIncrementalRefreshTradeSummary48.mdEntries m)
    (MDIncrementalRefreshTradeSummary48.orderIDEntries m) []
    (replicate (MDIncrementalRefreshTradeSummary48.encodedLength m) Init.Byte.x00) []) as E.
  rewrite app_nil_r in E. eexists. eapply bind_step; [apply E|reflexivity]; [by repeat split|done|by apply Forall_true|by apply Forall_true|apply length_replicate].
Qed.

Lemma buildIncrementalPacket_total b evs tm : ∃ r, MarketDataOps.buildIncrementalPacket b evs tm = Some r.
Proof.
  assert (∀ b evs, ∃ r, MarketDataOps.buildBookRefresh b evs tm = Some r) as Hb.
  { intros b0 evs0. unfold MarketDataOps.buildBookRefresh. destruct (MarketDataOps.book_entries b0 evs0) as [es b1].
    case_bool_decide; [by eexists|]. match goal with |- context [encode_vec ?m] => destruct (encode_book_total m) as [buf ->] end. by eexists. }
  assert (∀ b evs, ∃ r, MarketDataOps.buildTradeSummary b evs tm = Some r) as Ht.
  { intros b0 evs0. unfold MarketDataOps.buildTradeSummary. destruct (MarketDataOps.trade_entries b0 evs0) as [[es os] b1].
    case_bool_decide; [by eexists|]. match goal with |- context [encode_vec ?m] => destruct (encode_trades_total m) as [buf ->] end. by eexists. }
  unfold MarketDataOps.buildIncrementalPacket.
  match goal with |- context [MarketDataOps.buildBookRefresh ?b ?e tm] => destruct (Hb b e) as [[? ?] ->] end. cbn [mbind option_bind].
  match goal with |- context [MarketDataOps.buildTradeSummary ?b ?e tm] => destruct (Ht b e) as [[? ?] ->] end. by eexists.
Qed.

Lemma publishIncrementalUpdates_total clock c reads evs ts : ∃ r, PublisherOps.publishIncrementalUpdates clock c reads evs ts = Some r.
Proof.
  unfold PublisherOps.publishIncrementalUpdates. case_bool_decide; [by eexists|].
  destruct (buildIncrementalPacket_total (incremental_builder_ c) evs ts) as [[packet b] ->]. cbn [mbind option_bind].
  case_bool_decide; [by eexists|]. unfold PublisherOps.send_incremental.
  rewrite send_eq. cbn [mbind option_bind]. rewrite sendWithSeqNum_eq. by eexists.
Qed.

Lemma publishEvents_total clock p order evs : ∃ p', PublisherOps.publishEvents clock p order evs = Some p'.
Proof.
  unfold PublisherOps.publishEvents. case_bool_decide; [by eexists|].
  set (by_channel := foldl _ _ _). set (ts := u64 _). generalize (mkMarketDataPublisher (channel_publishers_ p) (security_to_channel_ p) (S (md_reads p))).
  induction order as [|ch order IH]; intros q; cbn [PublisherOps.publish_channels]; [by eexists|].
  destruct (by_channel !! ch), (channel_publishers_ q !! ch) as [c|]; try apply IH.
  match goal with |- context [PublisherOps.publishIncrementalUpdates ?k c ?r ?l ?t] => destruct (publishIncrementalUpdates_total k c r l t) as [[c' r'] ->] end.
  apply IH.
Qed.

(** ** What the publisher keeps

    Every channel only goes on publishing: its feeds keep their invariant and its
    cycler its instruments. *)
Definition keeps_cycler (op : ChannelOp) : Prop := match op with CInitCycler _ => False | _ => True end.
Definition channel_moves (clock : nat → Z) (c c' : ChannelPublisher) : Prop :=
  ∃ op reads reads', keeps_cycler op ∧ channel_op clock c reads op = Some (c', reads').
Definition evolves (clock : nat → Z) (p p' : MarketDataPublisher) : Prop :=
  ∀ ch, option_Forall2 (rtc (channel_moves clock)) (channel_publishers_ p !! ch) (channel_publishers_ p' !! ch).

#[export] Instance evolves_preorder clock : PreOrder (evolves clock).
Proof.
  split; [intros p ch; by destruct (channel_publishers_ p !! ch); constructor|].
  intros p1 p2 p3 H1 H2 ch. specialize (H1 ch). specialize (H2 ch). destruct H1; inversion H2; subst; constructor. by etrans.
Qed.

Lemma evolves_set clock ch c c' reads p op r r' : channel_publishers_ p !! ch = Some c → keeps_cycler op →
  channel_op clock c r op = Some (c', r') → evolves clock p (PublisherOps.set_publisher ch c' reads p).
Proof.
  intros Hc Hk Hop k. cbn. destruct (decide (ch = k)) as [<-|Hne].
  - rewrite lookup_insert_eq, Hc. constructor. apply rtc_once. by exists op, r, r'.
  - rewrite lookup_insert_ne by done. by destruct (channel_publishers_ p !! k); constructor.
Qed.

Lemma publishEvents_evolves clock p order evs p' : PublisherOps.publishEvents clock p order evs = Some p' → evolves clock p p'.
Proof.
  unfold PublisherOps.publishEvents. case_bool_decide; [by intros [= <-]|].
  set (by_channel := foldl _ _ _). set (ts := u64 _). set (q := mkMarketDataPublisher _ _ _). intros Hr.
  change (evolves clock q p'). clearbody q. revert q Hr.
  induction order as [|ch order IH]; intros q; cbn [PublisherOps.publish_channels]; [by intros [= <-]|].
  destruct (by_channel !! ch) as [l|]; [|by apply IH]. destruct (channel_publishers_ q !! ch) as [c|] eqn:Ec; [|by apply IH].
  intros ([c' r'] & E & Hr)%bind_Some. etrans; [|by apply IH]. by eapply (evolves_set _ _ _ _ _ _ (CUpdates l ts)).
Qed.

Lemma replay_round_evolves clock m order : ∀ p p', PublisherOps.replay_round clock m p order = Some p' → evolves clock p p'.
Proof.
  induction order as [|ch order IH]; intros p p'; cbn [PublisherOps.replay_round]; [by intros [= <-]|].
  destruct (channel_publishers_ p !! ch) as [c|] eqn:Ec; [|by apply IH].
  intros ([c' r'] & E & Hr)%bind_Some. etrans; [|by apply IH]. by eapply (evolves_set _ _ _ _ _ _ (CDefinitions _)).
Qed.

(** A channel as [start] has left it, and as it stays. *)
Definition channel_ready (m : InstrumentManager) (ch : Z) (c : ChannelPublisher) : Prop :=
  channel_inv c ∧ cycler_instruments_ <$> snapshot_cycler_ c = Some (in_security_id <$> getInstrumentsByChannel m ch).
Definition publisher_ready (m : InstrumentManager) (p : MarketDataPublisher) : Prop := map_Forall (channel_ready m) (channel_publishers_ p).

Lemma send_incremental_cycler clock c reads body c' reads' : PublisherOps.send_incremental clock c reads body = Some (c', reads') →
  cycler_instruments_ <$> snapshot_cycler_ c' = cycler_instruments_ <$> snapshot_cycler_ c.
Proof.
  unfold PublisherOps.send_incremental. rewrite send_eq. cbn [mbind option_bind]. rewrite sendWithSeqNum_eq.
  intros [= <- _]. cbn. by destruct (snapshot_cycler_ c).
Qed.

Lemma replay_loop_cycler clock tot l : ∀ c reads c' reads',
  PublisherOps.replayInstrumentDefinitions_loop clock tot c reads l = Some (c', reads') → snapshot_cycler_ c' = snapshot_cycler_ c.
Proof.
  induction l as [|i l IH]; intros c reads c' reads'; cbn [PublisherOps.replayInstrumentDefinitions_loop]; [by intros [= <- _]|].
  intros (msg & _ & E)%bind_Some. case_bool_decide; [by eapply IH|]. rewrite !send_eq in E. by apply IH in E.
Qed.

Lemma channel_move_ready clock m ch c c' : channel_moves clock c c' → channel_ready m ch c → channel_ready m ch c'.
Proof.
  intros (op & r & r' & Hk & E) [Hc Hy]. split; [by eapply channel_op_inv|]. rewrite <-Hy. destruct op as [l t|id st t|l|provider|]; [..|done]; cbn in E.
  - unfold PublisherOps.publishIncrementalUpdates in E. case_bool_decide; [by injection E as <- _|].
    apply bind_Some in E as ([packet b] & _ & E). case_bool_decide; [by injection E as <- _|]. by apply send_incremental_cycler in E.
  - unfold PublisherOps.publishSecurityStatus in E. apply bind_Some in E as (buf & _ & E). by apply send_incremental_cycler in E.
  - unfold PublisherOps.replayInstrumentDefinitions in E. apply replay_loop_cycler in E. by rewrite E.
  - unfold PublisherOps.runCycle in E. apply bind_Some in E as (cy & Ecy & E). apply bind_Some in E as ([[[n a] b] k] & _ & [= <- _]).
    cbn. by rewrite Ecy.
Qed.

Lemma evolves_ready clock m p p' : evolves clock p p' → publisher_ready m p → publisher_ready m p'.
Proof.
  intros He Hp ch c' Hc'. specialize (He ch). rewrite Hc' in He. inversion He as [c ? Hm Ec|]; subst. symmetry in Ec.
  specialize (Hp _ _ Ec). clear - Hm Hp. induction Hm as [|? ? ? Hm _ IH]; [done|]. apply IH. by eapply channel_move_ready.
Qed.

Lemma channel_cycler m ch c : channel_ready m ch c → is_Some (snapshot_cycler_ c).
Proof. intros [_ (cy & -> & _)%fmap_Some]. by eexists. Qed.

(** ** Snapshot cycles *)
Lemma encode_snapshot_total m : ∃ buf, encode_vec (M := SnapshotFullRefresh52.t) m = Some buf.
Proof.
  unfold encode_vec. cbn [sbe_encode sbe_encodedLength SnapshotFullRefresh52.codec].
  pose proof (one_group_encode SnapshotFullRefresh52.BLOCK_LENGTH SnapshotFullRefresh52.TEMPLATE_ID
    MessageHeader.MDP3_SCHEMA_ID MessageHeader.MDP3_VERSION (λ _, True) SnapshotFullRefresh52.Entry.fields
    SnapshotFullRefresh52.Entry.ENTRY_BLOCK_LENGTH (λ _ _, ltac:(by repeat split)) (λ _ _, eq_refl)
    (SnapshotFullRefresh52.fields m) (SnapshotFullRefresh52.entries m) []
    (replicate (SnapshotFullRefresh52.encodedLength m) Init.Byte.x00) []) as E.
  rewrite app_nil_r in E. eexists. eapply bind_step; [apply E|reflexivity]; [by repeat split|done|by apply Forall_true|apply length_replicate].
Qed.

Lemma runCycle_total clock provider c reads : is_Some (snapshot_cycler_ c) →
  ∃ c' reads', PublisherOps.runCycle clock provider c reads = Some (c', reads').
Proof.
  intros [cy Hcy]. unfold PublisherOps.runCycle. rewrite Hcy. cbn [mbind option_bind].
  assert (∀ secs seq tot count a b reads, ∃ r, PublisherOps.runCycle_loop clock provider seq tot count a b reads secs = Some r) as Hloop.
  { induction secs as [|sid secs IH]; intros seq tot count a b n; cbn [PublisherOps.runCycle_loop]; [by eexists|].
    destruct (provider sid) as [[[bids asks] bc] ac]. unfold MarketDataOps.buildSnapshot.
    match goal with |- context [encode_vec ?m] => destruct (encode_snapshot_total m) as [buf ->] end. cbn [mbind option_bind].
    case_bool_decide; [apply IH|]. rewrite !send_eq. cbn [mbind option_bind]. apply IH. }
  match goal with |- context [PublisherOps.runCycle_loop ?k ?p ?s ?t ?n ?a ?b ?r ?l] => destruct (Hloop l s t n a b r) as [[[[count a'] b'] r'] ->] end.
  cbn [mbind option_bind]. by do 2 eexists.
Qed.

(** ** Instrument definitions *)

(** The texts and numbers of an instrument can be converted: neither does
    [std::stoi] throw, nor is a number too large for its field. *)
Record definable (i : Instrument) : Prop := {
  df_maturity : is_Some (MarketDataOps.maturity_field (chars (maturity_month_year i)));
  df_tick : is_Some (to_int64 (double_mul (tick_size i) one_e9));
  df_display : is_Some (to_int64 (double_mul (display_factor i) one_e9));
  df_amount : is_Some (to_int64 (double_mul (min_price_increment_amount i) one_e9));
  df_multiplier : is_Some (MarketDataOps.to_int32 (contract_multiplier i));
  df_quantity : is_Some (to_int64 (double_mul (contract_multiplier i) one_e9));
}.

Lemma definable_status status i : definable (set_trading_status status i) ↔ definable i.
Proof. split; by intros []. Qed.

Lemma length_copyStr n s : length (MarketDataOps.copyStr n s) = n.
Proof. unfold MarketDataOps.copyStr. rewrite length_app, length_take, length_replicate. lia. Qed.

Lemma length_maturity s m : MarketDataOps.maturity_field s = Some m → length m = 5%nat.
Proof.
  unfold MarketDataOps.maturity_field. destruct (6 <=? length s)%nat; [|by intros [= <-]].
  intros (year & _ & (month & _ & [= <-])%bind_Some)%bind_Some. done.
Qed.

(** The character arrays of a definition have their sizes. *)
Definition arrays_fit (m : MDInstrumentDefinitionFuture54.t) : Prop :=
  length (MDInstrumentDefinitionFuture54.securityExchange m) = 4%nat ∧ length (MDInstrumentDefinitionFuture54.securityGroup m) = 6%nat ∧
  length (MDInstrumentDefinitionFuture54.asset m) = 6%nat ∧ length (MDInstrumentDefinitionFuture54.symbol m) = 20%nat ∧
  length (MDInstrumentDefinitionFuture54.securityType m) = 6%nat ∧ length (MDInstrumentDefinitionFuture54.cfiCode m) = 6%nat ∧
  length (MDInstrumentDefinitionFuture54.maturityMonthYear m) = 5%nat ∧ length (MDInstrumentDefinitionFuture54.currency m) = 3%nat ∧
  length (MDInstrumentDefinitionFuture54.settlCurrency m) = 3%nat ∧ length (MDInstrumentDefinitionFuture54.unitOfMeasure m) = 30%nat.

Lemma encode_definition_total m : arrays_fit m → ∃ buf, encode_vec (M := MDInstrumentDefinitionFuture54.t) m = Some buf.
Proof.
  intros Hm. unfold encode_vec. cbn [sbe_encode sbe_encodedLength MDInstrumentDefinitionFuture54.codec].
  pose proof (flat_encode arrays_fit MDInstrumentDefinitionFuture54.fields MDInstrumentDefinitionFuture54.BLOCK_LENGTH
    MDInstrumentDefinitionFuture54.TEMPLATE_ID MessageHeader.MDP3_SCHEMA_ID MessageHeader.MDP3_VERSION) as E.
  assert (∀ m, arrays_fit m → packed 0 (MDInstrumentDefinitionFuture54.fields m)) as Hp.
  { clear. intros m (? & ? & ? & ? & ? & ? & ? & ? & ? & ?). solve_packed MDInstrumentDefinitionFuture54.fields. }
  assert (∀ m, arrays_fit m → length (payload (MDInstrumentDefinitionFuture54.fields m)) = Z.to_nat MDInstrumentDefinitionFuture54.BLOCK_LENGTH) as Hl.
  { clear. intros m (? & ? & ? & ? & ? & ? & ? & ? & ? & ?). solve_payload_length MDInstrumentDefinitionFuture54.fields. }
  specialize (E Hp Hl m [] (replicate (MDInstrumentDefinitionFuture54.encodedLength m) Init.Byte.x00) [] Hm (length_replicate _ _)).
  rewrite app_nil_r in E. eexists. eapply bind_step; [apply E|reflexivity].
Qed.

Lemma buildDefinition_total i tot : definable i → ∃ buf, MarketDataOps.buildDefinition i tot = Some buf.
Proof.
  intros [[mat Hm] [? Ht] [? Hd] [? Ha] [? Hc] [? Hq]]. unfold MarketDataOps.buildDefinition.
  rewrite Hm, Ht, Hd, Ha, Hc, Hq. cbn [mbind option_bind]. apply length_maturity in Hm.
  apply encode_definition_total. unfold arrays_fit. cbn -[MarketDataOps.copyStr]. by rewrite !length_copyStr.
Qed.

Lemma replayInstrumentDefinitions_total clock c reads l : Forall definable l →
  ∃ c' reads', PublisherOps.replayInstrumentDefinitions clock c reads l = Some (c', reads').
Proof.
  unfold PublisherOps.replayInstrumentDefinitions. generalize (u32 (Z.of_nat (length l))). intros tot Hi. revert c reads.
  induction Hi as [|i l Hi Hall IH]; intros c reads; cbn [PublisherOps.replayInstrumentDefinitions_loop]; [by do 2 eexists|].
  destruct (buildDefinition_total i tot Hi) as [msg ->]. cbn [mbind option_bind]. case_bool_decide; [apply IH|].
  rewrite !send_eq. cbn [mbind option_bind].
  apply IH.
Qed.

Lemma replay_round_total clock m order : Forall definable (instruments_ m) → ∀ p, ∃ p', PublisherOps.replay_round clock m p order = Some p'.
Proof.
  intros Hm. induction order as [|ch order IH]; intros p; cbn [PublisherOps.replay_round]; [by eexists|].
  destruct (channel_publishers_ p !! ch) as [c|] eqn:Ec; [|by apply IH].
  destruct (replayInstrumentDefinitions_total clock c (md_reads p) (getInstrumentsByChannel m ch)) as (c' & r' & ->).
  { unfold getInstrumentsByChannel. apply Forall_forall. intros i [_ Hi]%list_elem_of_filter. exact (proj1 (Forall_forall _ _) Hm _ Hi). }
  apply IH.
Qed.
