(* ===== verification/FeedRounds.v ===== *)

(** * Background rounds on the wire

    What a listener reads from the snapshots of a cycle, and what it shows of the
    instrument definitions a channel replays. *)
From S2P Require Import Prelude Types Sbe ILink3 Mdp3 Dispatcher Order PriceLevel OrderBook BookReplay BookCommands Engine Instrument InstrumentManager.
From S2P Require Import Typed MarketData Publisher Listener ListenerTheorems EngineReplay FeedLemmas FeedChannels PublisherTotal.
Import MarketDataOps PublisherOps ListenerOps.

(** A snapshot entry inserted at its level, as a client that starts from an
    empty book does. *)
Definition snapshot_entry (d : depth_list * depth_list) (e : SnapshotFullRefresh52.Entry.t) : option (depth_list * depth_list) :=
  let '(SnapshotFullRefresh52.Entry.mk px size orders level type) := e in
  let update := apply_update MD_New level (mkPrice px, size, orders) in
  if bool_decide (type = Init.Byte.x30) then update_side true update d
  else if bool_decide (type = Init.Byte.x31) then update_side false update d
  else None.
Definition snapshots_read (out : list Output) : list (SecurityId * option (depth_list * depth_list)) :=
  omap (λ o, match o with OSnapshot52 sid _ _ es => Some (sid, ofold snapshot_entry ([], []) es) | _ => None end) out.

(** The provider's view of a side. *)
Definition side_levels (M : list (Price * PriceLevel)) : list (Price * Quantity) := (λ '(p, l), (p, total_quantity l)) <$> M.
Definition side_counts (M : list (Price * PriceLevel)) : list Z := (λ '(_, l), order_count l) <$> M.

Lemma side_counts_at M1 p l M2 : side_counts (M1 ++ (p, l) :: M2) !! length M1 = Some (order_count l).
Proof. unfold side_counts. rewrite fmap_app, lookup_app_r by (by rewrite length_fmap). by rewrite length_fmap, Nat.sub_diag. Qed.

Lemma snapshot_entries_read type d M2 : ∀ M1,
  Z.of_nat (length (M1 ++ M2)) < 256 →
  let es := snapshot_entries type (length M1) (side_levels M2) (side_counts (M1 ++ M2)) in
  match type with
  | MDE_Bid => ofold snapshot_entry (impl_side_depth M1, d) es = Some (impl_side_depth (M1 ++ M2), d)
  | MDE_Offer => ofold snapshot_entry (d, impl_side_depth M1) es = Some (d, impl_side_depth (M1 ++ M2))
  | MDE_Trade => True
  end.
Proof.
  induction M2 as [|[[p] l] M2 IH]; intros M1 Hl; [rewrite app_nil_r; by destruct type |].
  assert (M1 ++ (mkPrice p, l) :: M2 = (M1 ++ [(mkPrice p, l)]) ++ M2) as E by (by rewrite <-app_assoc).
  assert (apply_update MD_New (u8 (Z.of_nat (length M1) + 1)) (mkPrice p, total_quantity l, order_count l) (impl_side_depth M1) =
    Some (impl_side_depth (M1 ++ [(mkPrice p, l)]))) as Ed.
  { rewrite length_app in Hl. cbn [length] in Hl. rewrite wrapu_small by lia.
    rewrite <-(app_nil_r (impl_side_depth M1)), apply_update_new by (unfold impl_side_depth; rewrite ?length_fmap; lia).
    unfold impl_side_depth. by rewrite fmap_app. }
  specialize (IH (M1 ++ [(mkPrice p, l)])). rewrite <-E in IH. specialize (IH Hl).
  rewrite length_app, Nat.add_1_r in IH. cbv zeta in IH |- *. cbn [side_levels fmap list_fmap snapshot_entries].
  rewrite side_counts_at. destruct type; [| | done]; (etransitivity; [| exact IH]); cbn [ofold snapshot_entry]; unfold update_side; cbn [fst snd bool_decide]; cbn -[apply_update ofold u8]; by rewrite Ed.
Qed.

Lemma snapshot_entries_wf type counts M : ∀ i,
  levels_typed M → Forall (λ n, n ∈i 32) counts → Forall SnapshotFullRefresh52.Entry.wf (snapshot_entries type i (side_levels M) counts).
Proof.
  induction M as [|[p l] M IH]; intros i HM Hc; [constructor |]. apply Forall_cons in HM as [[Hp [Hq _]] HM].
  cbn [side_levels fmap list_fmap snapshot_entries]. constructor; [| by apply IH].
  pose proof (wrapu_range 8 (Z.of_nat i + 1) ltac:(lia)). unfold SnapshotFullRefresh52.Entry.wf. cbn [fst snd] in *.
  cbn. split_and!; try lia.
  all: destruct (counts !! i) as [n|] eqn:E; cbn; [| lia]; apply (Forall_lookup_1 _ _ _ _ Hc) in E; lia.
Qed.

Lemma snapshot_entries_length type i levels counts : length (snapshot_entries type i levels counts) = length levels.
Proof. revert i. induction levels as [|[p q] levels IH]; intros i; [done |]. cbn. by rewrite IH. Qed.

Lemma side_counts_typed M : levels_typed M → Forall (λ n, n ∈i 32) (side_counts M).
Proof. intros H. apply Forall_fmap. eapply Forall_impl; [exact H |]. intros [p l] [_ [_ ?]]. done. Qed.

(** The message of one security. *)
Definition snapshot_message (e : FullMatchingEngine) (sid : SecurityId) (seq tot count t : Z) : SnapshotFullRefresh52.t :=
  let '(bids, asks, bid_counts, ask_counts) := book_snapshot e sid in
  SnapshotFullRefresh52.mk seq tot sid count t t 0 (SecurityTradingStatus_to_u8 Open) (mantissa Price_null) (mantissa Price_null)
    (mantissa Price_null)
    (snapshot_entries MDE_Bid 0 bids bid_counts ++ snapshot_entries MDE_Offer 0 asks ask_counts).

(** A security whose snapshot can be encoded. *)
Definition snapshot_ok (e : FullMatchingEngine) (sid : SecurityId) : Prop :=
  sid ∈i 32 ∧
  match EngineOps.getOrderBook e sid with
  | Some b => levels_typed (bid_levels_ b) ∧ levels_typed (ask_levels_ b) ∧
      (length (bid_levels_ b) + length (ask_levels_ b) < 256)%nat
  | None => True
  end.

Lemma snapshot_message_ok e sid seq tot count t :
  snapshot_ok e sid → seq ∈u 32 → tot ∈u 32 → count ∈u 32 → t ∈u 64 →
  let m := snapshot_message e sid seq tot count t in
  MDP3Msg_wf (M_SnapshotFullRefresh52 m) ∧
  ofold snapshot_entry ([], []) (SnapshotFullRefresh52.entries m) = Some (eng_depth e sid) ∧
  (length (MDP3Msg_bytes (M_SnapshotFullRefresh52 m)) ≤ 5000)%nat.
Proof.
  intros [Hsid Hb] Hs Ht Hc Htt m.
  assert (Forall SnapshotFullRefresh52.Entry.wf (SnapshotFullRefresh52.entries m) ∧
    (length (SnapshotFullRefresh52.entries m) < 256)%nat ∧
    ofold snapshot_entry ([], []) (SnapshotFullRefresh52.entries m) = Some (eng_depth e sid)) as (Hw & Hl & Hd).
  { unfold m, snapshot_message, book_snapshot, eng_depth. destruct (EngineOps.getOrderBook e sid) as [b|]; [| by split_and!; [constructor | cbn; lia |]].
    destruct Hb as (Hb & Ha & Hlen). cbn [SnapshotFullRefresh52.entries]. fold (side_levels (bid_levels_ b)) (side_levels (ask_levels_ b))
      (side_counts (bid_levels_ b)) (side_counts (ask_levels_ b)). split_and!.
    - apply Forall_app. split; apply snapshot_entries_wf; try done; by apply side_counts_typed.
    - rewrite length_app, !snapshot_entries_length. unfold side_levels. by rewrite !length_fmap.
    - rewrite ofold_app. pose proof (snapshot_entries_read MDE_Bid [] (bid_levels_ b) [] ltac:(cbn; lia)) as E1.
      pose proof (snapshot_entries_read MDE_Offer (impl_side_depth (bid_levels_ b)) (ask_levels_ b) [] ltac:(cbn; lia)) as E2.
      cbn -[snapshot_entries side_levels side_counts impl_side_depth] in E1, E2.
      change ([], []) with (impl_side_depth [], @nil (Price * Quantity * Z)). rewrite E1. cbn [mbind option_bind].
      change (@nil (Price * Quantity * Z)) with (impl_side_depth []). by rewrite E2. }
  assert (MDP3Msg_wf (M_SnapshotFullRefresh52 m)) as Hwf.
  { cbn [MDP3Msg_wf]. unfold SnapshotFullRefresh52.wf. unfold m, snapshot_message in *. destruct (book_snapshot e sid) as [[[? ?] ?] ?].
    cbn -[length snapshot_entries] in *. split_and!; try done; cbn; lia. }
  split; [done |]. split; [done |]. rewrite MDP3Msg_bytes_length by done. cbn [MDP3Msg_encodedLength].
  unfold SnapshotFullRefresh52.encodedLength, group_length, GroupSize.SIZE, MessageHeader.SIZE.
  change (Z.to_nat SnapshotFullRefresh52.BLOCK_LENGTH) with 59%nat.
  change (Z.to_nat SnapshotFullRefresh52.Entry.ENTRY_BLOCK_LENGTH) with 18%nat. lia.
Qed.

(** ** A cycle *)
Definition snapshots_fit (l : list (Z * list MDP3Msg)) (e : FullMatchingEngine) (secs : list SecurityId) : Prop :=
  Forall (packet_fits recv_size) l ∧
  ∀ seq, snapshots_read (packet_lines seq l) = (λ sid, (sid, Some (eng_depth e sid))) <$> secs.

Section cycle.
Context (system : nat → Z) (e : FullMatchingEngine).

Lemma runCycle_loop_spec seq tot secs : ∀ count a b reads,
  Forall (snapshot_ok e) secs → seq ∈u 32 → tot ∈u 32 → next_seq_num_ b = next_seq_num_ a →
  ∃ count' a' b' reads' lA lB,
    runCycle_loop system (book_snapshot e) seq tot count a b reads secs = Some (count', a', b', reads') ∧
    datagrams a' = datagrams a ++ packets (next_seq_num_ a) lA ∧ datagrams b' = datagrams b ++ packets (next_seq_num_ a) lB ∧
    snapshots_fit lA e secs ∧ snapshots_fit lB e secs.
Proof.
  induction secs as [|sid secs IH]; intros count a b reads Hok Hs Ht Hn.
  - exists count, a, b, reads, [], []. cbn. rewrite !app_nil_r. split_and!; try done; constructor; done.
  - apply Forall_cons in Hok as [Hsid Hok]. cbn [runCycle_loop].
    pose proof (wrapu_range 32 (count + 1) ltac:(lia)) as Hc. pose proof (wrapu_range 64 (system reads) ltac:(lia)) as Htm.
    destruct (snapshot_message_ok e sid seq tot (u32 (count + 1)) (u64 (system reads)) Hsid Hs Ht Hc Htm) as (Hw & Hd & Hl).
    set (m := snapshot_message e sid seq tot (u32 (count + 1)) (u64 (system reads))) in *.
    assert (SnapshotFullRefresh52.securityID m = sid) as Em
      by (unfold m, snapshot_message; by destruct (book_snapshot e sid) as [[[? ?] ?] ?]).
    assert (let '(bids, asks, bc, ac) := book_snapshot e sid in
      buildSnapshot sid seq tot bids asks bc ac (u32 (count + 1)) (u64 (system reads)) =
        Some (messages_bytes [M_SnapshotFullRefresh52 m])) as Hbuild.
    { pose proof (encode_vec_bytes m Hw) as E. unfold m, snapshot_message in E |- *. destruct (book_snapshot e sid) as [[[bids asks] bc] ac].
      unfold buildSnapshot. rewrite E. unfold messages_bytes. cbn [fmap list_fmap concat MDP3Msg_bytes]. by rewrite app_nil_r. }
    destruct (book_snapshot e sid) as [[[bids asks] bc] ac]. cbv zeta. rewrite Hbuild. cbn [mbind option_bind].
    rewrite bool_decide_eq_false_2 by (intros E; apply messages_bytes_nil in E; [done | apply Forall_singleton; exact Hw]).
    rewrite send_eq. cbn [mbind option_bind]. rewrite send_eq. cbn [mbind option_bind].
    match goal with |- context [runCycle_loop _ _ _ _ _ ?x ?y _ _] => set (a1 := x); set (b1 := y) end.
    assert (next_seq_num_ b1 = next_seq_num_ a1) as Hn1 by (cbn; by rewrite Hn).
    destruct (IH (u32 (count + 1)) a1 b1 (S (S (S reads))) Hok Hs Ht Hn1) as (count' & a' & b' & reads' & lA & lB & -> & HA & HB & FA & FB).
    unfold a1 in HA, HB. unfold b1 in HB. cbn [next_seq_num_ datagrams] in HA, HB.
    exists count', a', b', reads'.
    exists ((u64 (system (S reads)), [M_SnapshotFullRefresh52 m]) :: lA), ((u64 (system (S (S reads))), [M_SnapshotFullRefresh52 m]) :: lB).
    assert (∀ t l, t ∈u 64 → snapshots_fit l e secs → snapshots_fit ((t, [M_SnapshotFullRefresh52 m]) :: l) e (sid :: secs)) as Hcons.
    { intros t l Htt [Hf Hr]. split.
      - constructor; [| done]. split; [exact Htt |]. split; [apply Forall_singleton; exact Hw |]. cbn [snd]. unfold messages_bytes.
        cbn [fmap list_fmap concat]. rewrite app_nil_r. unfold recv_size, PacketHeader.SIZE. lia.
      - intros s. cbn [packet_lines]. unfold snapshots_read in *. cbn -[ofold snapshot_entry]. rewrite Hr, Em. by rewrite Hd. }
    split; [done |]. split; [by rewrite HA, <-app_assoc |]. split; [by rewrite HB, Hn, <-app_assoc |].
    split; (apply Hcons; [apply wrapu_range; lia |]); [exact FA | exact FB].
Qed.

Lemma snapshots_listened l secs recvBuf seq stats :
  snapshots_fit l e secs → length recvBuf = recv_size → seq ∈u 32 → awaits seq stats →
  ∃ stats' out, listen recvBuf (packets seq l) stats = Some (stats', out) ∧ gaps stats' = gaps stats ∧
    snapshots_read out = (λ sid, (sid, Some (eng_depth e sid))) <$> secs.
Proof.
  intros [F R] Hr Hs Ha. rewrite <-Hr in F.
  destruct (listen_packets l recvBuf seq stats F Hs Ha) as (stats' & E & Hg & _). eexists _, _. by split_and!.
Qed.
End cycle.

(** ** Instrument definitions *)
Import InstrumentManagerOps MarketDataOps PublisherOps ListenerOps.

(** The line of an instrument: symbol, identifier, group, asset, status, tick. *)
Definition definition_line (i : Instrument) : Output :=
  OInstrDef54 (c_str (take 20 (chars (in_symbol i)))) (in_security_id i) (c_str (take 6 (chars (security_group i))))
    (c_str (take 6 (chars (asset i)))) (SecurityTradingStatus_to_u8 (trading_status i)) (default 0 (InstrumentOps.tickMantissa i)).
Definition definitions_read (out : list Output) : list Output :=
  omap (λ o, match o with OInstrDef54 _ _ _ _ _ _ => Some o | _ => None end) out.

Lemma c_str_padded s k : c_str (s ++ replicate k Init.Byte.x00) = c_str s.
Proof. induction s as [|c s IH]; cbn; [by destruct k|]. case_decide; [done|]. by rewrite IH. Qed.

Lemma copyStr_read n s : readFixedString (copyStr n s) n = c_str (take n s).
Proof.
  unfold readFixedString. rewrite take_ge by (by rewrite length_copyStr). apply c_str_padded.
Qed.

Lemma to_int32_range d v : to_int32 d = Some v → v ∈i 32.
Proof.
  unfold to_int32. intros (z & _ & H)%bind_Some. destruct (Z.leb_spec (- 2 ^ 31) z), (Z.ltb_spec z (2 ^ 31)); cbn [andb] in H; simplify_eq. lia.
Qed.

Lemma buildDefinition_spec i tot : definable i → in_security_id i ∈i 32 → tot ∈u 32 →
  ∃ m, buildDefinition i tot = Some (messages_bytes [m]) ∧ MDP3Msg_wf m ∧ printed m = definition_line i ∧
    (length (MDP3Msg_bytes m) ≤ 5000)%nat.
Proof.
  intros [[mat Hm] [tick Ht] [? Hd] [? Ha] [? Hc] [? Hq]] Hid Htot. unfold buildDefinition.
  rewrite Hm, Ht, Hd, Ha, Hc, Hq. cbn [mbind option_bind]. apply length_maturity in Hm.
  match goal with |- context [encode_vec ?m] => set (msg := m) end.
  assert (MDP3Msg_wf (M_MDInstrumentDefinitionFuture54 msg)) as Hw.
  { cbn [MDP3Msg_wf]. unfold MDInstrumentDefinitionFuture54.wf, msg. cbn -[copyStr wrapu wraps]. rewrite !length_copyStr, Hm.
    pose proof (wraps_range 16 (in_channel_id i) ltac:(lia)). pose proof (wrapu_range 8 (in_channel_id i) ltac:(lia)).
    pose proof (wrapu_range 32 (min_trade_vol i) ltac:(lia)). pose proof (wrapu_range 32 (max_trade_vol i) ltac:(lia)).
    apply to_int64_range in Hd, Ha, Hq. apply to_int32_range in Hc. pose proof (to_int64_range _ _ Ht).
    split_and!; try done; try lia; destruct (trading_status i); cbn; lia. }
  exists (M_MDInstrumentDefinitionFuture54 msg). split; [|split; [exact Hw|split]].
  - rewrite encode_vec_bytes by exact Hw. unfold messages_bytes. cbn [fmap list_fmap concat MDP3Msg_bytes]. by rewrite app_nil_r.
  - unfold definition_line, InstrumentOps.tickMantissa. rewrite Ht. unfold msg. cbn -[copyStr readFixedString]. by rewrite !copyStr_read.
  - rewrite MDP3Msg_bytes_length by exact Hw. cbn [MDP3Msg_encodedLength].
    unfold MDInstrumentDefinitionFuture54.encodedLength, MessageHeader.SIZE. apply Nat.leb_le. vm_compute. reflexivity.
Qed.

(** ** A replay *)
Definition definitions_fit (l : list (Z * list MDP3Msg)) (l0 : list Instrument) : Prop :=
  Forall (packet_fits recv_size) l ∧ ∀ seq, definitions_read (packet_lines seq l) = definition_line <$> l0.

Section replay.
Context (system : nat → Z).

Lemma replay_loop_spec tot l0 : ∀ c reads,
  Forall definable l0 → Forall (λ i, in_security_id i ∈i 32) l0 → tot ∈u 32 →
  next_seq_num_ (instdef_feed_b_ c) = next_seq_num_ (instdef_feed_a_ c) →
  ∃ c' reads' lA lB, replayInstrumentDefinitions_loop system tot c reads l0 = Some (c', reads') ∧
    datagrams (instdef_feed_a_ c') = datagrams (instdef_feed_a_ c) ++ packets (next_seq_num_ (instdef_feed_a_ c)) lA ∧
    datagrams (instdef_feed_b_ c') = datagrams (instdef_feed_b_ c) ++ packets (next_seq_num_ (instdef_feed_a_ c)) lB ∧
    definitions_fit lA l0 ∧ definitions_fit lB l0.
Proof.
  induction l0 as [|i l0 IH]; intros c reads Hd Hi Ht Hn.
  - exists c, reads, [], []. cbn. rewrite !app_nil_r. split_and!; try done; constructor; done.
  - apply Forall_cons in Hd as [Hdi Hd]. apply Forall_cons in Hi as [Hii Hi]. cbn [replayInstrumentDefinitions_loop].
    destruct (buildDefinition_spec i tot Hdi Hii Ht) as (m & -> & Hw & Hp & Hl). cbn [mbind option_bind].
    rewrite bool_decide_eq_false_2 by (intros E; apply messages_bytes_nil in E; [done|by apply Forall_singleton]).
    rewrite !send_eq. cbn [mbind option_bind].
    match goal with |- context [replayInstrumentDefinitions_loop _ _ ?x ?r _] => destruct (IH x r Hd Hi Ht) as (c' & r' & lA & lB & -> & HA & HB & FA & FB) end.
    { cbn. by rewrite Hn. }
    cbn [instdef_feed_a_ instdef_feed_b_ next_seq_num_ datagrams] in HA, HB.
    exists c', r', ((u64 (system reads), [m]) :: lA), ((u64 (system (S reads)), [m]) :: lB).
    assert (∀ t l, t ∈u 64 → definitions_fit l l0 → definitions_fit ((t, [m]) :: l) (i :: l0)) as Hcons.
    { intros t l Htt [Hf Hr]. split.
      - constructor; [|done]. split; [exact Htt|]. split; [by apply Forall_singleton|]. cbn [snd]. unfold messages_bytes.
        cbn [fmap list_fmap concat]. rewrite app_nil_r. unfold recv_size, PacketHeader.SIZE. lia.
      - intros s. cbn [packet_lines]. unfold definitions_read in *. cbn [omap list_omap fmap list_fmap app]. rewrite Hp, Hr. done. }
    split; [done|]. split; [by rewrite HA, <-app_assoc|]. split; [by rewrite HB, Hn, <-app_assoc|].
    split; (apply Hcons; [apply wrapu_range; lia|]); [exact FA|exact FB].
Qed.

(** Every listener on one of the two feeds that was up to date sees the
    instruments in order, and no gap. *)
Lemma replay_definitions_read c reads l0 :
  Forall definable l0 → Forall (λ i, in_security_id i ∈i 32) l0 → next_seq_num_ (instdef_feed_a_ c) ∈u 32 →
  next_seq_num_ (instdef_feed_b_ c) = next_seq_num_ (instdef_feed_a_ c) →
  ∃ c' reads' newA newB, replayInstrumentDefinitions system c reads l0 = Some (c', reads') ∧
    datagrams (instdef_feed_a_ c') = datagrams (instdef_feed_a_ c) ++ newA ∧
    datagrams (instdef_feed_b_ c') = datagrams (instdef_feed_b_ c) ++ newB ∧
    ∀ new recvBuf stats, new = newA ∨ new = newB → length recvBuf = recv_size → awaits (next_seq_num_ (instdef_feed_a_ c)) stats →
      ∃ stats' out, listen recvBuf new stats = Some (stats', out) ∧ gaps stats' = gaps stats ∧
        definitions_read out = definition_line <$> l0.
Proof.
  intros Hd Hi Hs Hn. pose proof (wrapu_range 32 (Z.of_nat (length l0)) ltac:(lia)) as Ht.
  destruct (replay_loop_spec _ l0 c reads Hd Hi Ht Hn) as (c' & r' & lA & lB & E & HA & HB & FA & FB).
  exists c', r', (packets (next_seq_num_ (instdef_feed_a_ c)) lA), (packets (next_seq_num_ (instdef_feed_a_ c)) lB).
  split; [exact E|]. split; [exact HA|]. split; [exact HB|]. intros new recvBuf stats Hnew Hr Ha.
  assert (∃ l, new = packets (next_seq_num_ (instdef_feed_a_ c)) l ∧ definitions_fit l l0) as (l & -> & F & R)
    by (destruct Hnew as [->| ->]; [by exists lA|by exists lB]).
  rewrite <-Hr in F. destruct (listen_packets l recvBuf _ stats F Hs Ha) as (stats' & El & Hg & _). eexists _, _. by split_and!.
Qed.

(** A round over the channels touches each of them once. *)
Lemma replay_round_channel m ch c order : ∀ p p', NoDup order → ch ∈ order → channel_publishers_ p !! ch = Some c →
  replay_round system m p order = Some p' →
  ∃ reads c' reads', replayInstrumentDefinitions system c reads (getInstrumentsByChannel m ch) = Some (c', reads') ∧
    channel_publishers_ p' !! ch = Some c'.
Proof.
  assert (∀ order p p', ch ∉ order → replay_round system m p order = Some p' → channel_publishers_ p' !! ch = channel_publishers_ p !! ch) as Hnot.
  { clear. induction order as [|k ks IH]; intros p p'; cbn [replay_round]; [by intros _ [= <-]|]. intros [Hne Hks]%not_elem_of_cons.
    destruct (channel_publishers_ p !! k) as [ck|]; [|by apply IH]. intros ([c' r'] & _ & E)%bind_Some. apply IH in E; [|done].
    rewrite E. cbn. by rewrite lookup_insert_ne. }
  induction order as [|k order IH]; intros p p' Hnd Hin Hc; [by apply elem_of_nil in Hin|].
  apply NoDup_cons in Hnd as [Hk Hnd]. cbn [replay_round]. apply elem_of_cons in Hin as [<-|Hin].
  - rewrite Hc. intros ([c' r'] & E & E2)%bind_Some. apply Hnot in E2; [|done]. exists (md_reads p), c', r'. split; [done|].
    rewrite E2. cbn. by rewrite lookup_insert_eq.
  - destruct (channel_publishers_ p !! k) as [ck|]; [|by apply IH]. intros ([c' r'] & _ & E)%bind_Some.
    apply IH in E; [done..|]. cbn. rewrite lookup_insert_ne; [done|]. by intros ->.
Qed.
End replay.
