(* ===== verification/FeedTheorems.v ===== *)
(** * Theorems about the market data feeds

    From the events of the engine to the terminal of the listener, through the
    builders, the feeds and the wire. *)
From S2P Require Import Prelude Types Sbe Mdp3 Dispatcher Order PriceLevel OrderBook BookSpec BookWf BookRefine BookCommands BookReplay BookCorrect BookTheorems.
From S2P Require Import Engine EngineTheorems EngineReplay Typed Instrument InstrumentManager MarketData Publisher Listener ListenerTheorems ListenerMain FeedLemmas FeedChannels FeedRounds.
Import MarketDataOps PublisherOps ListenerOps ListenerMainOps.

(** ** Round trip *)

(** Nothing is lost between the engine and a listener. Any sequence of
    batches of events published on a channel is accepted, and a listener that
    receives the new datagrams of feed A (or, alone, of feed B) in order, with a
    64 KiB buffer whatever that holds, and that has seen the feed up to there or
    nothing at all, reports no gap, never reads outside its buffer, and prints
    book entries that rebuild, for every security and from any depth, what the
    events' book updates say, and the trades of the events, in order. *)
Theorem feed_listener_roundtrip system c reads batches recvBuf stats :
  builder_ok (incremental_builder_ c) → next_seq_num_ (incremental_feed_a_ c) ∈u 32 → batches_ok batches →
  length recvBuf = recv_size → awaits (next_seq_num_ (incremental_feed_a_ c)) stats →
  ∃ c' reads' newA newB, publish_batches system c reads batches = Some (c', reads') ∧
    datagrams (incremental_feed_a_ c') = datagrams (incremental_feed_a_ c) ++ newA ∧
    datagrams (incremental_feed_b_ c') = datagrams (incremental_feed_b_ c) ++ newB ∧
    ∀ new, new = newA ∨ new = newB →
      ∃ stats' out, listen recvBuf new stats = Some (stats', out) ∧ gaps stats' = gaps stats ∧
        awaits (next_seq_num_ (incremental_feed_a_ c')) stats' ∧
        (∀ sid d, subscriber_depth sid d out = replay d (events_of sid (batch_events batches))) ∧
        trade_prints out = omap fill_line (batch_events batches).
Proof.
  intros Hb Hs Hok Hr Ha.
  destruct (publish_batches_spec system batches c reads Hb Hok) as (c' & reads' & lA & lB & E & (HA & HB & El & _) & HcA & HcB).
  exists c', reads'. eexists _, _. split; [done |]. rewrite HA, HB. split; [done |]. split; [done |].
  assert (length lA = length lB) as Hl by (by rewrite <-(length_fmap snd lA), El, length_fmap).
  intros new [-> | ->]; [by apply listen_carried | rewrite Hl; by apply listen_carried].
Qed.

(** ** From the engine to the terminal *)
Section exchange.
Context (system : nat → Z).

(** The calls of the gateway's drain loop that concern the books: each command
    on the engine, its events to the publisher; [orders] are the orders in which
    the hash map of channels is walked. *)
Fixpoint run_exchange (e : FullMatchingEngine) (p : MarketDataPublisher) (cs : list EngineCmd) (orders : list (list Z))
    : option (FullMatchingEngine * MarketDataPublisher) :=
  match cs with
  | [] => Some (e, p)
  | c :: cs =>
      '(e, evs) ← eng_cmd e c; p ← publishEvents system p (default [] (head orders)) evs; run_exchange e p cs (tail orders)
  end.

(** The events of each command. *)
Fixpoint eng_trace (e : FullMatchingEngine) (cs : list EngineCmd) : list (list EngineEvent) :=
  match cs with
  | [] => []
  | c :: cs => match eng_cmd e c with Some (e, evs) => evs :: eng_trace e cs | None => [] end
  end.

(** The events of a command fit a packet. *)
Record batch_fits (evs : list EngineEvent) : Prop := {
  bf_index : Forall index_ok evs;
  bf_updates : (length (filter (λ e, is_book_update e = true) evs) < 256)%nat;
  bf_fills : (2 * length (filter (λ e, is_fill e = true) evs) < 256)%nat;
}.

Lemma routed_same p p' : security_to_channel_ p' = security_to_channel_ p → ∀ e, routed p' e = routed p e.
Proof. intros E e. unfold routed, getChannelForSecurity. by rewrite E. Qed.

Lemma published_event e : published_security e = event_security e.
Proof. by destruct e. Qed.

Lemma events_of_channel p ch sid evs :
  getChannelForSecurity p sid = ch → ch ≠ 0 → events_of sid (channel_events p ch evs) = events_of sid evs.
Proof.
  intros Hch H0. unfold events_of, channel_events. rewrite list_filter_filter. apply list_filter_iff. intros e.
  split; [by intros [? ?] |]. intros Hs. split; [done |]. unfold routed. rewrite published_event, Hs. cbn [mbind option_bind].
  rewrite Hch. by destruct (Z.eqb_spec ch 0).
Qed.

Lemma run_exchange_spec cs : ∀ orders e p ch c n,
  engine_inv e → eng_typed e → Forall eng_cmd_ok cs → Forall eng_cmd_typed cs →
  next_order_id_ e + Z.of_nat (length cs) < 2 ^ 64 → books_small n (order_books_ e) →
  Z.of_nat n + Z.of_nat (length cs) < 2 ^ 31 → publishers_ok p → channel_publishers_ p !! ch = Some c → ch ≠ 0 →
  Forall batch_fits (eng_trace e cs) → Forall2 (order_ok p) (eng_trace e cs) orders →
  let evs := channel_events p ch (concat (eng_trace e cs)) in
  ∃ e' p' c' lA lB, run_exchange e p cs orders = Some (e', p') ∧ channel_publishers_ p' !! ch = Some c' ∧
    published c c' lA lB ∧ carries lA evs ∧ carries lB evs ∧
    ∀ sid, getChannelForSecurity p sid = ch → replay (eng_depth e sid) (events_of sid evs) = Some (eng_depth e' sid).
Proof.
  induction cs as [|cmd cs IH]; intros orders e p ch c n He Ht Hok Hty Hid Hs Hn Hp Hc H0 Hfit Hord.
  - exists e, p, c, [], []. split_and!; try done; by (apply published_nil || apply carries_nil).
  - apply Forall_cons in Hok as [Hok Hoks]. apply Forall_cons in Hty as [Hty Htys]. cbn [length] in Hid, Hn.
    pose proof (ei_next _ He) as Hnext.
    destruct (eng_cmd_inv e cmd He Hok ltac:(lia)) as (e1 & evs1 & E1 & He1).
    pose proof (eng_cmd_next _ _ _ _ E1 ltac:(lia) ltac:(lia)) as Hid1.
    destruct (eng_cmd_typed_ok _ _ _ _ E1 Ht Hty) as [Ht1 Hev].
    destruct (eng_cmd_depths n _ _ _ _ He Hok ltac:(lia) Hs ltac:(lia) E1) as [Hs1 Hd1].
    cbn [eng_trace] in Hfit, Hord. rewrite E1 in Hfit, Hord. apply Forall_cons in Hfit as [[Hi Hu Hf] Hfits].
    destruct orders as [|order orders]; [by inversion Hord |]. apply Forall2_cons in Hord as [Ho Hord].
    destruct (publishEvents_spec system p order evs1 Hp) as (p1 & Ep & Hp1 & Hsc & Hch); [by split | done |].
    specialize (Hch ch). rewrite Hc in Hch. destruct Hch as (c1 & Hc1 & reads & reads1 & Epub).
    pose proof (batch_ok_filter (λ ev, routed p ev = Some ch) evs1 (Build_batch_ok _ Hev Hi Hu Hf)) as Hbo.
    pose proof (wrapu_range 64 (system (md_reads p)) ltac:(lia)) as Hts.
    destruct (publishIncrementalUpdates_spec system c reads _ _ (Hp _ _ Hc) Hbo Hts) as (c1' & reads1' & lA & lB & E & _ & Hpb & El & _).
    fold (channel_events p ch evs1) in E. rewrite Epub in E. injection E as <- <-.
    destruct (IH orders e1 p1 ch c1 (S n)) as (e2 & p2 & c2 & lA2 & lB2 & E2 & Hc2 & Hpb2 & HcA & HcB & Hd2); try done; [lia | lia | |].
    { eapply Forall2_impl; [exact Hord |]. intros evs o [Hnd Hin]. split; [done |]. intros ev k Hev' Hr. apply (Hin ev); [done |].
      by rewrite <-(routed_same p p1). }
    assert (channel_events p1 ch (concat (eng_trace e1 cs)) = channel_events p ch (concat (eng_trace e1 cs))) as Ece.
    { apply list_filter_iff. intros ev. by rewrite (routed_same p p1). }
    rewrite Ece in *. cbn [eng_trace]. rewrite E1. cbn [concat].
    replace (channel_events p ch (evs1 ++ _)) with (channel_events p ch evs1 ++ channel_events p ch (concat (eng_trace e1 cs)))
      by (unfold channel_events; by rewrite filter_app).
    exists e2, p2, c2, (lA ++ lA2), (lB ++ lB2). pose proof Hpb as (_ & _ & E12 & FA & FB).
    split_and!.
    + cbn [run_exchange]. rewrite E1. cbn [mbind option_bind].
      change (default [] (head (order :: orders))) with order. rewrite Ep. exact E2.
    + done.
    + by eapply published_app.
    + apply carries_app; [| done]. by apply (batch_carries _ _ _ _ (Hp _ _ Hc) Hbo Hts).
    + apply carries_app; [| done]. apply (batch_carries _ _ _ _ (Hp _ _ Hc) Hbo Hts); [done |]. by rewrite <-E12.
    + intros sid Hsid. rewrite events_of_app, replay_app, (events_of_channel p ch sid evs1) by done. rewrite Hd1. apply Hd2.
      unfold getChannelForSecurity. by rewrite Hsc.
Qed.
End exchange.

(** C3: what a market data client sees is the book. Run any sequence of fewer
    than 2^31 engine calls from an empty engine (quantities in range, arguments of
    their types), each followed by the publication of its events, where every call
    has fewer than 256 book updates and fewer than 128 fills and every level index
    is below 256 (beyond that the counts in the packets wrap). Everything succeeds, and the receive loop of
    a listener that was up to date with incremental feed A of a channel (or feed B
    alone), when the datagrams it takes are the new ones in order, with empty reads
    anywhere between them, detects no gap, prints the trades of the channel in
    order, and reads entries that rebuild, for every security of the channel,
    exactly the levels (price, quantity, order count, best first) of the book the
    engine ends with. *)
Theorem listener_rebuilds_books system cs orders p ch c steady interval l events :
  Forall eng_cmd_ok cs → Forall eng_cmd_typed cs → Z.of_nat (length cs) < 2 ^ 31 →
  publishers_ok p → channel_publishers_ p !! ch = Some c → ch ≠ 0 →
  Forall batch_fits (eng_trace EngineOps.Engine_init cs) → Forall2 (order_ok p) (eng_trace EngineOps.Engine_init cs) orders →
  next_seq_num_ (incremental_feed_a_ c) ∈u 32 → length (recvBuf l) = recv_size →
  awaits (next_seq_num_ (incremental_feed_a_ c)) (stats l) →
  ∃ e' p' c' newA newB, run_exchange system EngineOps.Engine_init p cs orders = Some (e', p') ∧
    channel_publishers_ p' !! ch = Some c' ∧
    datagrams (incremental_feed_a_ c') = datagrams (incremental_feed_a_ c) ++ newA ∧
    datagrams (incremental_feed_b_ c') = datagrams (incremental_feed_b_ c) ++ newB ∧
    (taken events = newA ∨ taken events = newB →
      ∃ l' shown, receive_loop steady interval events l = Some (l', shown, ends events) ∧ gaps (stats l') = gaps (stats l) ∧
        trade_prints (outputs shown) = omap fill_line (channel_events p ch (concat (eng_trace EngineOps.Engine_init cs))) ∧
        ∀ sid, getChannelForSecurity p sid = ch → subscriber_depth sid ([], []) (outputs shown) = Some (eng_depth e' sid)).
Proof.
  intros Hok Hty Hn Hp Hc H0 Hfit Hord Hseq Hr Ha.
  destruct (run_exchange_spec system cs orders EngineOps.Engine_init p ch c 0 Engine_init_inv Engine_init_typed Hok Hty)
    as (e' & p' & c' & lA & lB & E & Hc' & (HA & HB & El & _) & HcA & HcB & Hd); try done; [cbn; lia |].
  set (evs := channel_events p ch _) in *.
  exists e', p', c'. eexists _, _. split; [done |]. split; [done |]. rewrite HA, HB. split; [done |]. split; [done |].
  intros Hnew.
  assert (∃ ps, taken events = packets (next_seq_num_ (incremental_feed_a_ c)) ps ∧ carries ps evs) as (ps & Et & Hps)
    by (destruct Hnew as [-> | ->]; eauto).
  destruct (listen_carried ps evs (recvBuf l) _ (stats l) Hps Hr Hseq Ha) as (stats' & out & El' & Hg & _ & Hd' & Ht).
  rewrite <-Et in El'. destruct (receive_loop_shows steady interval events l _ _ El') as (l' & shown & E' & Hs & Ho).
  exists l', shown. rewrite Hs, Ho. split_and!; [done | done | done |]. intros sid Hsid. rewrite Hd'. by rewrite <-(Hd sid Hsid).
Qed.

(** One channel with the two demo securities. *)
Definition demo_publisher : MarketDataPublisher :=
  mkMarketDataPublisher {[310 := ChannelPublisher_init 310]} {[1 := 310; 2 := 310]} 0.
Definition demo_time : nat → Z := λ n, 1000 + Z.of_nat n.

Lemma demo_order_ok evs : order_ok demo_publisher evs [310].
Proof.
  split; [apply NoDup_singleton |]. intros ev ch _. unfold routed. destruct (published_security ev) as [sid|]; [| done]. cbn.
  unfold getChannelForSecurity. destruct (security_to_channel_ demo_publisher !! sid) as [k|] eqn:E; [| done]. cbn in E.
  apply lookup_insert_Some in E as [[_ <-]|[_ [_ <-]%lookup_singleton_Some]]; cbn; intros [= <-]; by left.
Qed.

#[local] Instance index_ok_dec e : Decision (index_ok e).
Proof. destruct e; cbn; apply _. Defined.
Definition fits_b (evs : list EngineEvent) : bool :=
  bool_decide (Forall index_ok evs) && (length (filter (λ e, is_book_update e = true) evs) <? 256)%nat &&
  (2 * length (filter (λ e, is_fill e = true) evs) <? 256)%nat.
Lemma fits_b_spec evs : fits_b evs = true → batch_fits evs.
Proof.
  unfold fits_b. intros [[H1%bool_decide_eq_true H2%Nat.ltb_lt]%andb_true_iff H3%Nat.ltb_lt]%andb_true_iff. by split.
Qed.

Lemma demo_trace_fits : Forall batch_fits (eng_trace EngineOps.Engine_init demo_cmds).
Proof.
  assert (forallb fits_b (eng_trace EngineOps.Engine_init demo_cmds) = true) as H by (vm_compute; reflexivity).
  apply Forall_forall. intros evs Hin. apply fits_b_spec. apply list_elem_of_In in Hin. by eapply forallb_forall in H.
Qed.

(** The datagrams of a feed, with an empty read before each, then a signal. *)
Definition polls (new : list buffer) : list LoopEvent := concat ((λ d, [Polled WouldBlock; Polled (Received d)]) <$> new) ++ [Signal].
Lemma taken_polls new : taken (polls new) = new.
Proof. induction new as [|d new IH]; [done |]. unfold polls in *. cbn. by rewrite IH. Qed.

Definition demo_feed : list buffer :=
  match run_exchange demo_time EngineOps.Engine_init demo_publisher demo_cmds (replicate 9 [310]) with
  | Some (_, p) => default [] ((λ c, datagrams (incremental_feed_b_ c)) <$> channel_publishers_ p !! 310)
  | None => []
  end.

Lemma listener_rebuilds_books_witness :
  ∃ e' p' l' shown,
    run_exchange demo_time EngineOps.Engine_init demo_publisher demo_cmds (replicate 9 [310]) = Some (e', p') ∧
    receive_loop demo_time 10 (polls demo_feed) (Loop_init demo_time (replicate recv_size Init.Byte.x00)) = Some (l', shown, true) ∧
    gaps (stats l') = 0 ∧ length demo_feed ≠ 0%nat ∧
    ∀ sid, getChannelForSecurity demo_publisher sid = 310 → subscriber_depth sid ([], []) (outputs shown) = Some (eng_depth e' sid).
Proof.
  destruct (listener_rebuilds_books demo_time demo_cmds (replicate 9 [310]) demo_publisher 310 (ChannelPublisher_init 310)
    demo_time 10 (Loop_init demo_time (replicate recv_size Init.Byte.x00)) (polls demo_feed)) as (e' & p' & c' & newA & newB & E & Hc & _ & HB & H).
  - exact demo_cmds_ok.
  - exact demo_cmds_typed.
  - done.
  - apply map_Forall_singleton. apply map_Forall_empty.
  - done.
  - done.
  - exact demo_trace_fits.
  - set (tr := eng_trace _ _). assert (length tr = 9%nat) as <- by (vm_compute; reflexivity).
    apply Forall2_replicate_r; [done |]. apply Forall_forall. intros evs _. apply demo_order_ok.
  - done.
  - apply length_replicate.
  - by left.
  - assert (demo_feed = newB) as Ef by (unfold demo_feed; rewrite E, Hc; exact HB).
    rewrite taken_polls in H. destruct (H (or_intror Ef)) as (l' & shown & El & Hg & _ & Hd).
    exists e', p', l', shown. split; [exact E |]. split; [exact El |]. split; [exact Hg |]. split; [| exact Hd].
    assert (length demo_feed =? 0 = false)%nat as Hn by (vm_compute; reflexivity). by apply Nat.eqb_neq in Hn.
Defined.

(** A witness for the round trip: two batches on a fresh channel, the first of
    an add that trades and rests, the second without market data. *)
Definition demo_batch : list EngineEvent :=
  [OrderFilled 1 1 (mkPrice 100) 10 Buy 1 [] 7 10 0 Filled 2 [] 8 10 4 PartiallyFilled;
   BookUpdate 1 Sell (mkPrice 100) 0 0 MD_Delete 1 2; BookUpdate 1 Buy (mkPrice 101) 4 1 MD_New 1 3].

Lemma demo_batch_ok : batch_ok demo_batch.
Proof.
  assert (side_ok Buy) by (by exists 1). split; [| | apply Nat.ltb_lt; reflexivity..].
  - repeat apply Forall_cons_2; try apply Forall_nil_2; cbn; split_and?; first [done | lia].
  - repeat apply Forall_cons_2; try apply Forall_nil_2; cbn; first [done | lia].
Qed.

Lemma feed_listener_roundtrip_witness :
  ∃ c' reads' newA newB, publish_batches demo_time (ChannelPublisher_init 310) 0 [(demo_batch, 5); ([], 6)] = Some (c', reads') ∧
    datagrams (incremental_feed_a_ c') = newA ∧ datagrams (incremental_feed_b_ c') = newB ∧
    ∀ new, new = newA ∨ new = newB →
      ∃ stats' out, listen (replicate recv_size Init.Byte.x00) new Stats_init = Some (stats', out) ∧ gaps stats' = 0 ∧
        awaits (next_seq_num_ (incremental_feed_a_ c')) stats' ∧
        (∀ sid d, subscriber_depth sid d out = replay d (events_of sid demo_batch)) ∧
        trade_prints out = [(1, 100, 10, 1)].
Proof.
  apply (feed_listener_roundtrip demo_time (ChannelPublisher_init 310) 0 [(demo_batch, 5); ([], 6)]).
  - apply map_Forall_empty.
  - done.
  - repeat apply Forall_cons_2; try apply Forall_nil_2; (split; [| done]); [exact demo_batch_ok | split; try constructor; apply Nat.ltb_lt; reflexivity].
  - apply length_replicate.
  - by left.
Defined.

(** ** Routing *)

(** The publisher sends each event to its channel and nowhere else. For any
    batch small enough for a packet, walked in any order of the hash map that
    covers its channels, [publishEvents] succeeds; every channel's publisher ends
    as after publishing just the book updates and fills whose security is mapped
    to that channel, in their order (so a channel without any is unchanged), the
    set of channels and the map of securities stay. *)
Theorem publish_events_routes system p order evs :
  publishers_ok p → batch_ok evs → order_ok p evs order →
  ∃ p', publishEvents system p order evs = Some p' ∧ security_to_channel_ p' = security_to_channel_ p ∧
    ∀ ch, match channel_publishers_ p !! ch with
          | None => channel_publishers_ p' !! ch = None
          | Some c => ∃ c', channel_publishers_ p' !! ch = Some c' ∧
              ∃ reads reads', publishIncrementalUpdates system c reads (channel_events p ch evs) (u64 (system (md_reads p))) =
                Some (c', reads')
          end.
Proof.
  intros Hp Hb Ho. destruct (publishEvents_spec system p order evs Hp Hb Ho) as (p' & E & _ & Hs & Hch).
  exists p'. by split_and!.
Qed.

Lemma publish_events_routes_witness :
  ∃ p', publishEvents demo_time demo_publisher [310] demo_batch = Some p' ∧
    security_to_channel_ p' = security_to_channel_ demo_publisher ∧
    ∀ ch, match channel_publishers_ demo_publisher !! ch with
          | None => channel_publishers_ p' !! ch = None
          | Some c => ∃ c', channel_publishers_ p' !! ch = Some c' ∧
              ∃ reads reads', publishIncrementalUpdates demo_time c reads (channel_events demo_publisher ch demo_batch)
                (u64 (demo_time (md_reads demo_publisher))) = Some (c', reads')
          end.
Proof.
  apply (publish_events_routes demo_time demo_publisher [310] demo_batch).
  - apply map_Forall_singleton, map_Forall_empty.
  - exact demo_batch_ok.
  - apply demo_order_ok.
Defined.

(** ** Redundancy *)

(** The invariant of a channel. Whatever is published on a fresh channel
    (batches of events, status changes, instrument definitions, snapshot cycles,
    a new cycler, in any order), as long as no operation fails: on each of the
    three pairs of feeds, A and B carry the same payloads under the same numbers,
    and the numbers are 1, 2, 3 and so on without a gap; and the cycler announces
    either nothing yet or the number of the last incremental packet. *)
Theorem feeds_redundant system ch ops c reads :
  channel_run system (ChannelPublisher_init ch) 0 ops = Some (c, reads) → channel_inv c.
Proof.
  pose proof (channel_init_inv ch) as Hc. revert Hc. generalize (ChannelPublisher_init ch), 0%nat.
  induction ops as [|op ops IH]; intros c0 n Hc; cbn [channel_run]; [by intros [= <- _] |].
  intros ([c1 n1] & E & H)%bind_Some. by eapply IH, H; eapply channel_op_inv.
Qed.

Definition demo_ops : list ChannelOp :=
  [CInitCycler [1]; CUpdates demo_batch 5; CStatus 1 Halt 6; CCycle (λ _, ([], [], [], [])); CUpdates [] 7].

Lemma feeds_redundant_witness :
  ∃ c reads, channel_run demo_time (ChannelPublisher_init 310) 0 demo_ops = Some (c, reads) ∧ channel_inv c.
Proof.
  eexists _, _. split; [vm_compute; reflexivity |]. eapply (feeds_redundant demo_time 310 demo_ops). vm_compute. reflexivity.
Defined.

(** ** Snapshots *)

(** A snapshot cycle over the engine's books succeeds and, on each of the two
    snapshot feeds, gives a listener that was up to date one snapshot per
    instrument of the channel, in order and without a gap, from which it reads
    exactly the levels of the instrument's book (none for an unknown security). *)
Theorem snapshot_cycle_depth system e c cy reads :
  snapshot_cycler_ c = Some cy → Forall (snapshot_ok e) (cycler_instruments_ cy) → last_incr_seq_ cy ∈u 32 →
  next_seq_num_ (snapshot_feed_a_ c) ∈u 32 → next_seq_num_ (snapshot_feed_b_ c) = next_seq_num_ (snapshot_feed_a_ c) →
  ∃ c' reads' newA newB, runCycle system (book_snapshot e) c reads = Some (c', reads') ∧
    datagrams (snapshot_feed_a_ c') = datagrams (snapshot_feed_a_ c) ++ newA ∧
    datagrams (snapshot_feed_b_ c') = datagrams (snapshot_feed_b_ c) ++ newB ∧
    ∀ new recvBuf stats, new = newA ∨ new = newB → length recvBuf = recv_size → awaits (next_seq_num_ (snapshot_feed_a_ c)) stats →
      ∃ stats' out, listen recvBuf new stats = Some (stats', out) ∧ gaps stats' = gaps stats ∧
        snapshots_read out = (λ sid, (sid, Some (eng_depth e sid))) <$> cycler_instruments_ cy.
Proof.
  intros Hcy Hok Hl Hs Hn. unfold runCycle. rewrite Hcy. cbn [mbind option_bind].
  pose proof (wrapu_range 32 (Z.of_nat (length (cycler_instruments_ cy))) ltac:(lia)) as Htot.
  destruct (runCycle_loop_spec system e _ _ _ (cycle_count_ cy) _ _ reads Hok Hl Htot Hn)
    as (count & a & b & r & lA & lB & -> & HA & HB & FA & FB). cbn [mbind option_bind].
  eexists _, _, (packets _ lA), (packets _ lB). split; [reflexivity |]. split; [exact HA |]. split; [exact HB |].
  intros new recvBuf stats [-> | ->] Hr Ha; by apply (snapshots_listened e _ (cycler_instruments_ cy)).
Qed.

(** A book with a bid and an ask, and a security without a book. *)
Definition demo_snapshot_engine : FullMatchingEngine :=
  mkEngine ∅ {[1 := mkBook 1 [(mkPrice 99, mkLevel (mkPrice 99) 5 2 None None)] [(mkPrice 101, mkLevel (mkPrice 101) 7 1 None None)]
    ∅ 1 1]} ∅ ∅ 1.

Lemma snapshot_cycle_depth_witness :
  ∃ c' reads' newA newB,
    runCycle demo_time (book_snapshot demo_snapshot_engine) (initSnapshotCycler (ChannelPublisher_init 310) [1; 2]) 0 =
      Some (c', reads') ∧ datagrams (snapshot_feed_a_ c') = newA ∧ datagrams (snapshot_feed_b_ c') = newB ∧
    ∀ new, new = newA ∨ new = newB →
      ∃ stats' out, listen (replicate recv_size Init.Byte.x00) new Stats_init = Some (stats', out) ∧ gaps stats' = 0 ∧
        snapshots_read out = [(1, Some ([(mkPrice 99, 5, 2)], [(mkPrice 101, 7, 1)])); (2, Some ([], []))].
Proof.
  destruct (snapshot_cycle_depth demo_time demo_snapshot_engine (initSnapshotCycler (ChannelPublisher_init 310) [1; 2])
    (mkSnapshotCycler [1; 2] 0 0) 0) as (c' & reads' & newA & newB & E & EA & EB & H).
  - done.
  - repeat apply Forall_cons_2; try apply Forall_nil_2; (split; [lia |]); [| done].
    change (levels_typed [(mkPrice 99, mkLevel (mkPrice 99) 5 2 None None)] ∧
      levels_typed [(mkPrice 101, mkLevel (mkPrice 101) 7 1 None None)] ∧ (2 < 256)%nat).
    split; [| split; [| lia]]; (apply Forall_singleton; split; [cbn; lia | split; cbn; lia]).
  - done.
  - done.
  - done.
  - exists c', reads', newA, newB. split; [exact E |]. split; [exact EA |]. split; [exact EB |].
    intros new Hn. apply (H new _ Stats_init Hn); [apply length_replicate | by left].
Defined.

(** ** Termination *)

(** C28: the listener's walk over a packet always ends, whatever bytes arrived,
    whatever the receive buffer holds behind them and however long the packet
    claims its blocks and groups to be: every round that goes on advances, so no
    more rounds are needed than the packet has bytes. *)
Theorem listener_terminates data len stats : processPacket data len stats ≠ OutOfFuel.
Proof.
  unfold processPacket. destruct (len <? PacketHeader.SIZE)%nat; [done |].
  destruct (PacketHeader.decodeMsgSeqNum data 0 ≫= _) as [[seq t]|]; [| done].
  destruct (check_gap seq stats). apply walk_terminates. lia.
Qed.
