(* ===== verification/MpscQueue.v ===== *)
(** * The command queue (src/common/mpsc_queue.h)

    The queue between the network threads and the engine thread, as its threads
    execute it: a step of the model is one access to shared memory, and the
    threads interleave in any order. Nodes are cells of a heap; the allocator
    may hand out any address that is not in use, freed ones included; an access
    to a cell that is not allocated, a second [delete] of a cell and a value
    taken out of a node that has none are faults. Accesses are sequentially
    consistent: the source's release store and acquire load of [next] and the
    exchange on [head_] are the only accesses threads race on, and the order
    between them is what the interleaving fixes. *)
From S2P Require Import Prelude.

Section queue.
Context {T : Type}.

(** [data] is [None] in the sentinel and after the value has been moved out. *)
Record Node := mkNode { data : option T; next : option positive }.

(** Where a producer is in [push]: before it, or at the next access with the
    local variables it holds. *)
Inductive PushPc :=
| PIdle
| PAllocated (node : positive) (value : T)
| PReset (node : positive) (value : T)
| PExchanged (prev node : positive).
Record Producer := mkProducer { pc : PushPc; to_push : list T }.

(** Where the consumer is in [tryPop]. *)
Inductive PopPc :=
| CIdle
| CLoaded (sentinel next : positive)
| CMoved (sentinel next : positive) (value : T)
| CAdvanced (sentinel : positive) (value : T).

Record MPSCQueue := mkQueue {
  heap_ : gmap positive Node;
  head_ : positive;
  tail_ : positive;
  producers : list Producer;
  consumer : PopPc;
}.

(** What a step lets the outside see: a push takes effect, a pop returns. *)
Inductive QEvent := EPush (producer : nat) (value : T) | EPop (value : T) | EEmpty.
Inductive step_result := Stepped (q : MPSCQueue) (e : option QEvent) | Fault.

(** The next access of a producer (with the address its [new] would return) or
    of the consumer, whose thread calls [tryPop] again and again. *)
Inductive Turn := TProducer (i : nat) (fresh_node : positive) | TConsumer.
End queue.
Arguments Node : clear implicits.
Arguments Producer : clear implicits.
Arguments PushPc : clear implicits.
Arguments PopPc : clear implicits.
Arguments MPSCQueue : clear implicits.
Arguments QEvent : clear implicits.
Arguments step_result : clear implicits.

Module MpscOps.
Section ops.
Context {T : Type}.
Implicit Types (q : MPSCQueue T).

Definition MPSCQueue_init (sentinel : positive) (programs : list (list T)) : MPSCQueue T :=
  mkQueue {[sentinel := mkNode None None]} sentinel sentinel (mkProducer PIdle <$> programs) CIdle.

Definition set_next (n : option positive) (nd : Node T) : Node T := mkNode (data nd) n.
Definition set_producer (i : nat) (p : Producer T) (h : gmap positive (Node T)) (hd : positive) q : MPSCQueue T :=
  mkQueue h hd (tail_ q) (<[i := p]> (producers q)) (consumer q).

(** [push] and [pushNode]. *)
Definition push_step (i : nat) (fresh_node : positive) q : step_result T :=
  match producers q !! i with
  | None => Stepped q None
  | Some (mkProducer pc todo) =>
      match pc with
      | PIdle =>
          match todo with
          | [] => Stepped q None
          | value :: todo =>
              (* new Node{value} *)
              match heap_ q !! fresh_node with
              | Some _ => Stepped q None
              | None => Stepped (set_producer i (mkProducer (PAllocated fresh_node value) todo)
                  (<[fresh_node := mkNode (Some value) None]> (heap_ q)) (head_ q) q) None
              end
          end
      | PAllocated node value =>
          (* node->next.store(nullptr) *)
          match heap_ q !! node with
          | None => Fault
          | Some nd => Stepped (set_producer i (mkProducer (PReset node value) todo)
              (<[node := set_next None nd]> (heap_ q)) (head_ q) q) None
          end
      | PReset node value =>
          (* Node* prev = head_.exchange(node) *)
          Stepped (set_producer i (mkProducer (PExchanged (head_ q) node) todo) (heap_ q) node q) (Some (EPush i value))
      | PExchanged prev node =>
          (* prev->next.store(node) *)
          match heap_ q !! prev with
          | None => Fault
          | Some nd => Stepped (set_producer i (mkProducer PIdle todo)
              (<[prev := set_next (Some node) nd]> (heap_ q)) (head_ q) q) None
          end
      end
  end.

Definition set_consumer (c : PopPc T) (h : gmap positive (Node T)) (tl : positive) q : MPSCQueue T :=
  mkQueue h (head_ q) tl (producers q) c.

(** [tryPop]. *)
Definition pop_step q : step_result T :=
  match consumer q with
  | CIdle =>
      (* sentinel = tail_; next = sentinel->next.load() *)
      match heap_ q !! tail_ q with
      | None => Fault
      | Some nd =>
          match next nd with
          | None => Stepped q (Some EEmpty)
          | Some n => Stepped (set_consumer (CLoaded (tail_ q) n) (heap_ q) (tail_ q) q) None
          end
      end
  | CLoaded sentinel n =>
      (* T value = std::move(next->data) *)
      match heap_ q !! n with
      | Some (mkNode (Some value) nx) =>
          Stepped (set_consumer (CMoved sentinel n value) (<[n := mkNode None nx]> (heap_ q)) (tail_ q) q) None
      | _ => Fault
      end
  | CMoved sentinel n value =>
      (* tail_ = next *)
      Stepped (set_consumer (CAdvanced sentinel value) (heap_ q) n q) None
  | CAdvanced sentinel value =>
      (* delete sentinel; return value *)
      match heap_ q !! sentinel with
      | None => Fault
      | Some _ => Stepped (set_consumer CIdle (delete sentinel (heap_ q)) (tail_ q) q) (Some (EPop value))
      end
  end.

Definition turn q (t : Turn) : step_result T :=
  match t with TProducer i p => push_step i p q | TConsumer => pop_step q end.

(** A schedule, with the events in the order they happen. *)
Fixpoint run_queue q (ts : list Turn) : option (MPSCQueue T * list (QEvent T)) :=
  match ts with
  | [] => Some (q, [])
  | t :: ts =>
      match turn q t with
      | Fault => None
      | Stepped q e => '(q, es) ← run_queue q ts; Some (q, option_list e ++ es)
      end
  end.

(** A whole call of [tryPop] (at most four accesses). *)
Fixpoint pop_call (accesses : nat) q : option (MPSCQueue T * option T) :=
  match accesses with
  | O => None
  | S accesses =>
      match pop_step q with
      | Fault => None
      | Stepped q None => pop_call accesses q
      | Stepped q (Some (EPop value)) => Some (q, Some value)
      | Stepped q (Some _) => Some (q, None)
      end
  end.
Definition tryPop q : option (MPSCQueue T * option T) := pop_call 4 q.

(** The destructor: pops until the queue is empty, then deletes the sentinel. *)
Fixpoint drain_loop (fuel : nat) q : option (MPSCQueue T) :=
  match fuel with
  | O => None
  | S fuel => '(q, value) ← tryPop q; match value with Some _ => drain_loop fuel q | None => Some q end
  end.
Definition MPSCQueue_destroy q : option (gmap positive (Node T)) :=
  q ← drain_loop (size (heap_ q)) q;
  _ ← heap_ q !! tail_ q;
  Some (delete (tail_ q) (heap_ q)).

(** [empty], on the consumer's side. *)
Definition queue_empty q : option bool := nd ← heap_ q !! tail_ q; Some (match next nd with None => true | _ => false end).
End ops.
End MpscOps.
