(* ===== verification/MpscTheorems.v ===== *)

(** * Theorems about the command queue

    The invariant: the nodes reachable from [tail_] form one chain that ends in
    [head_]; a link of it is either written or about to be written by the one
    producer that exchanged [head_] between its two nodes; every other allocated
    node belongs to exactly one thread. *)
From S2P Require Import Prelude MpscQueue.
Import MpscOps.

Section inv.
Context {T : Type}.
Implicit Types (q : MPSCQueue T) (h : gmap positive (Node T)).

Definition hdata h (p : positive) : option (option T) := data <$> h !! p.
Definition hnext h (p : positive) : option (option positive) := next <$> h !! p.

(** The node a producer has allocated and not yet published. *)
Definition own_node (c : PushPc T) : option positive :=
  match c with PAllocated n _ | PReset n _ => Some n | _ => None end.
Definition owns q (j : nat) (p : positive) : Prop := ∃ pr, producers q !! j = Some pr ∧ own_node (pc pr) = Some p.
(** The old sentinel the consumer has yet to free. *)
Definition dying q (p : positive) : Prop := ∃ v, consumer q = CAdvanced p v.
(** A producer between its two accesses in [pushNode]. *)
Definition linking q (j : nat) (a b : positive) : Prop := ∃ pr, producers q !! j = Some pr ∧ pc pr = PExchanged a b.

(** What the consumer's local variables hold, and the values not yet returned. *)
Definition consumer_ok h (c : PopPc T) (tail : positive) (ns : list positive) (rest : list T) : Prop :=
  match c with
  | CIdle => Forall2 (λ p v, hdata h p = Some (Some v)) ns rest
  | CLoaded s n => s = tail ∧ head ns = Some n ∧ hnext h tail = Some (Some n) ∧ Forall2 (λ p v, hdata h p = Some (Some v)) ns rest
  | CMoved s n v => s = tail ∧ head ns = Some n ∧ hnext h tail = Some (Some n) ∧
      ∃ rest', rest = v :: rest' ∧ Forall2 (λ p v, hdata h p = Some (Some v)) (List.tl ns) rest'
  | CAdvanced s v => ∃ rest', rest = v :: rest' ∧ Forall2 (λ p v, hdata h p = Some (Some v)) ns rest'
  end.

Record queue_inv q (ns : list positive) (rest : list T) : Prop := {
  qi_last : last (tail_ q :: ns) = Some (head_ q);
  qi_nodup : NoDup (tail_ q :: ns);
  qi_dom p : is_Some (heap_ q !! p) ↔ p ∈ tail_ q :: ns ∨ (∃ j, owns q j p) ∨ dying q p;
  qi_owner j j' p : owns q j p → owns q j' p → j = j';
  qi_own_chain j p : owns q j p → p ∉ tail_ q :: ns;
  qi_own_dying j p : owns q j p → ¬ (dying q p);
  qi_dying_chain p : dying q p → p ∉ tail_ q :: ns;
  qi_links i a b : (tail_ q :: ns) !! i = Some a → (tail_ q :: ns) !! S i = Some b →
    hnext (heap_ q) a = Some (Some b) ∨ hnext (heap_ q) a = Some None ∧ ∃ j, linking q j a b;
  qi_linking j a b : linking q j a b →
    ∃ i, (tail_ q :: ns) !! i = Some a ∧ (tail_ q :: ns) !! S i = Some b ∧ hnext (heap_ q) a = Some None;
  qi_one_linker j j' a b a' : linking q j a b → linking q j' a' b → j = j';
  qi_open : hnext (heap_ q) (head_ q) = Some None;
  qi_own_data j n v : (∃ pr, producers q !! j = Some pr ∧ (pc pr = PAllocated n v ∨ pc pr = PReset n v)) →
    hdata (heap_ q) n = Some (Some v);
  qi_own_next j n v : (∃ pr, producers q !! j = Some pr ∧ pc pr = PReset n v) → hnext (heap_ q) n = Some None;
  qi_consumer : consumer_ok (heap_ q) (consumer q) (tail_ q) ns rest;
}.

(** ** Reading and writing cells *)
Lemma hnext_set h a nd n p :
  h !! a = Some nd → hnext (<[a := set_next n nd]> h) p = if decide (p = a) then Some n else hnext h p.
Proof. intros _. unfold hnext. case_decide as Hp; [subst p; by rewrite lookup_insert_eq | by rewrite lookup_insert_ne]. Qed.
Lemma hdata_set h a nd n p : h !! a = Some nd → hdata (<[a := set_next n nd]> h) p = hdata h p.
Proof.
  intros Ha. unfold hdata. destruct (decide (p = a)) as [->|Hp]; [by rewrite lookup_insert_eq, Ha | by rewrite lookup_insert_ne].
Qed.
Lemma hnext_some h p : is_Some (h !! p) ↔ is_Some (hnext h p).
Proof. unfold hnext. by rewrite fmap_is_Some. Qed.
Lemma set_dom h a nd (nd' : Node T) p : h !! a = Some nd → is_Some (<[a := nd']> h !! p) ↔ is_Some (h !! p).
Proof.
  intros Ha. destruct (decide (p = a)) as [->|Hp]; [rewrite lookup_insert_eq, Ha; by split; eexists | by rewrite lookup_insert_ne].
Qed.

Lemma consumer_ok_data h h' c tail ns rest :
  consumer_ok h c tail ns rest → (∀ p, p ∈ ns → hdata h' p = hdata h p) →
  (∀ n, hnext h tail = Some (Some n) → hnext h' tail = Some (Some n)) → consumer_ok h' c tail ns rest.
Proof.
  intros Hc Hd Hn.
  assert (∀ ns' rest', ns' ⊆ ns → Forall2 (λ p v, hdata h p = Some (Some v)) ns' rest' →
    Forall2 (λ p v, hdata h' p = Some (Some v)) ns' rest') as HF.
  { intros ns' rest' Hsub HF. apply Forall2_same_length_lookup. split; [by eapply Forall2_length |].
    intros i p v Hp Hv. rewrite Hd by (apply Hsub; by eapply list_elem_of_lookup_2). by eapply (Forall2_lookup_lr _ _ _ _ _ _ HF). }
  destruct c as [|s n|s n v|s v]; cbn in *.
  - by apply HF.
  - destruct Hc as (-> & Hh & Hl & HF'). split_and!; auto.
  - destruct Hc as (-> & Hh & Hl & r & -> & HF'). split_and!; auto. exists r. split; [done |]. apply HF; [| done].
    destruct ns; [done |]. cbn. by intros x; right.
  - destruct Hc as (r & -> & HF'). exists r. split; [done |]. by apply HF.
Qed.

(** ** Producers' lists *)
Section set_producer.
Context q (i : nat) (old new : Producer T) h (hd : positive) (Hi : producers q !! i = Some old).
Let q' := set_producer i new h hd q.

Lemma producers_set j pr : producers q' !! j = Some pr ↔ (j = i ∧ pr = new) ∨ (j ≠ i ∧ producers q !! j = Some pr).
Proof using Hi.
  cbn. destruct (decide (j = i)) as [->|Hne].
  - rewrite list_lookup_insert_eq by (by eapply lookup_lt_Some). naive_solver.
  - rewrite list_lookup_insert_ne by done. naive_solver.
Qed.
Lemma owns_set j p : owns q' j p ↔ (j = i ∧ own_node (pc new) = Some p) ∨ (j ≠ i ∧ owns q j p).
Proof using Hi. unfold owns. setoid_rewrite producers_set. naive_solver. Qed.
Lemma linking_set j a b : linking q' j a b ↔ (j = i ∧ pc new = PExchanged a b) ∨ (j ≠ i ∧ linking q j a b).
Proof using Hi. unfold linking. setoid_rewrite producers_set. naive_solver. Qed.
Lemma pcs_set (P : PushPc T → Prop) j :
  (∃ pr, producers q' !! j = Some pr ∧ P (pc pr)) ↔ (j = i ∧ P (pc new)) ∨ (j ≠ i ∧ ∃ pr, producers q !! j = Some pr ∧ P (pc pr)).
Proof using Hi. setoid_rewrite producers_set. naive_solver. Qed.
End set_producer.

(** ** Steps of a producer *)
Lemma alloc_inv q ns rest i p v todo :
  queue_inv q ns rest → producers q !! i = Some (mkProducer PIdle (v :: todo)) → heap_ q !! p = None →
  queue_inv (set_producer i (mkProducer (PAllocated p v) todo) (<[p := mkNode (Some v) None]> (heap_ q)) (head_ q) q) ns rest.
Proof.
  intros [Hla Hnd Hdom How Hoc Hod Hdc Hlk Hlg H1 Hop Hda Hne Hc] Hi Hp.
  assert ((p ∉ tail_ q :: ns) ∧ (∀ j, ¬ (owns q j p)) ∧ ¬ (dying q p)) as (Hpc & Hpo & Hpd).
  { assert (¬ is_Some (heap_ q !! p)) as Hn by (rewrite Hp; by intros [? ?]). rewrite Hdom in Hn. split_and!; [tauto | | tauto].
    intros j Hj. apply Hn. right; left. by exists j. }
  assert (∀ a, a ≠ p → hnext (<[p := mkNode (Some v) None]> (heap_ q)) a = hnext (heap_ q) a) as En
    by (intros a Ha; unfold hnext; by rewrite lookup_insert_ne).
  assert (∀ a, a ≠ p → hdata (<[p := mkNode (Some v) None]> (heap_ q)) a = hdata (heap_ q) a) as Ed
    by (intros a Ha; unfold hdata; by rewrite lookup_insert_ne).
  assert (∀ k a, (tail_ q :: ns) !! k = Some a → a ≠ p) as Hin by (intros k a Ha ->; apply Hpc; by eapply list_elem_of_lookup_2).
  assert (head_ q ≠ p) as Hhd by (rewrite last_lookup in Hla; by eapply Hin).
  split; cbn [set_producer heap_ head_ tail_ consumer]; try done.
  - intros x. rewrite lookup_insert_is_Some', Hdom. setoid_rewrite (owns_set q i _ _ _ _ Hi). cbn. split.
    + intros [-> | [? | [[j Hj] | ?]]]; [right; left; by exists i; left | by left | | by right; right].
      right; left. exists j. right. split; [| done]. intros ->. destruct Hj as (pr & Hpr & Hx). rewrite Hi in Hpr. by injection Hpr as <-.
    + intros [? | [[j [[_ [= ->]] | [_ ?]]] | ?]]; [tauto | by left | right; right; left; by exists j | tauto].
  - intros j j' x. rewrite !(owns_set q i _ _ _ _ Hi). cbn.
    intros [[-> [= <-]] | [_ Hj]] [[-> E] | [_ Hj']]; [done | by apply Hpo in Hj' | injection E as <-; by apply Hpo in Hj | by eapply How].
  - intros j x. rewrite (owns_set q i _ _ _ _ Hi). cbn. intros [[-> [= <-]] | [_ Hj]]; [done | by eapply Hoc].
  - intros j x. rewrite (owns_set q i _ _ _ _ Hi). cbn. intros [[-> [= <-]] | [_ Hj]]; [done | by eapply Hod].
  - intros k a b Ha Hb. rewrite En by (by eapply Hin). destruct (Hlk k a b Ha Hb) as [? | [? [j Hj]]]; [by left | right].
    split; [done |]. exists j. rewrite (linking_set q i _ _ _ _ Hi). right. split; [| done].
    intros ->. destruct Hj as (pr & Hpr & Hx). rewrite Hi in Hpr. by injection Hpr as <-.
  - intros j a b. rewrite (linking_set q i _ _ _ _ Hi). cbn. intros [[_ ?] | [_ Hj]]; [done |].
    destruct (Hlg j a b Hj) as (k & Ha & Hb & E). exists k. split_and!; [done | done |]. rewrite En; [done | by eapply Hin].
  - intros j j' a b a'. rewrite !(linking_set q i _ _ _ _ Hi). cbn. intros [[_ ?] | [_ ?]] [[_ ?] | [_ ?]]; try done. by eapply H1.
  - by rewrite En.
  - intros j n w. rewrite (pcs_set q i _ _ _ _ Hi (λ c, c = PAllocated n w ∨ c = PReset n w)). cbn.
    intros [[-> [[= <- <-] | ?]] | [Hj Hpr]]; [unfold hdata; by rewrite lookup_insert_eq | done |]. rewrite Ed; [by eapply Hda |].
    intros ->. apply (Hpo j). destruct Hpr as (pr & ? & Hx). exists pr. split; [done |]. by destruct Hx as [-> | ->].
  - intros j n w. rewrite (pcs_set q i _ _ _ _ Hi (λ c, c = PReset n w)). cbn. intros [[_ ?] | [Hj Hpr]]; [done |].
    rewrite En; [by eapply Hne |]. intros ->. apply (Hpo j). destruct Hpr as (pr & ? & Hx). exists pr. by rewrite Hx.
  - eapply consumer_ok_data; [done | |].
    + intros x Hx. apply Ed. intros ->. apply Hpc. by right.
    + intros n. rewrite En; [done |]. intros E. apply Hpc. rewrite E. by left.
Qed.

Lemma reset_inv q ns rest i n v todo nd :
  queue_inv q ns rest → producers q !! i = Some (mkProducer (PAllocated n v) todo) → heap_ q !! n = Some nd →
  queue_inv (set_producer i (mkProducer (PReset n v) todo) (<[n := set_next None nd]> (heap_ q)) (head_ q) q) ns rest.
Proof.
  intros [Hla Hnd Hdom How Hoc Hod Hdc Hlk Hlg H1 Hop Hda Hne Hc] Hi Hn.
  assert (owns q i n) as Hown by (eexists; by rewrite Hi).
  pose proof (Hoc _ _ Hown) as Hnc.
  assert (∀ a, a ≠ n → hnext (<[n := set_next None nd]> (heap_ q)) a = hnext (heap_ q) a) as En
    by (intros a Ha; rewrite (hnext_set _ _ _ _ _ Hn); by rewrite decide_False).
  assert (∀ k a, (tail_ q :: ns) !! k = Some a → a ≠ n) as Hin by (intros k a Ha ->; apply Hnc; by eapply list_elem_of_lookup_2).
  assert (head_ q ≠ n) as Hhd by (rewrite last_lookup in Hla; by eapply Hin).
  assert (∀ j x, owns (set_producer i (mkProducer (PReset n v) todo) (<[n := set_next None nd]> (heap_ q)) (head_ q) q) j x ↔ owns q j x) as Eo.
  { intros j x. rewrite (owns_set q i _ _ _ _ Hi). cbn. split; [intros [[-> [= <-]] | [_ ?]]; done |].
    intros Hj. destruct (decide (j = i)) as [->|]; [left | by right]. destruct Hj as (pr & Hpr & Hx). rewrite Hi in Hpr.
    injection Hpr as <-. done. }
  assert (∀ j a b, linking (set_producer i (mkProducer (PReset n v) todo) (<[n := set_next None nd]> (heap_ q)) (head_ q) q) j a b ↔
    linking q j a b) as El.
  { intros j a b. rewrite (linking_set q i _ _ _ _ Hi). cbn. split; [by intros [[_ ?] | [_ ?]] |].
    intros Hj. destruct (decide (j = i)) as [->|]; [| by right]. destruct Hj as (pr & Hpr & Hx). rewrite Hi in Hpr. by injection Hpr as <-. }
  split; cbn [set_producer heap_ head_ tail_ consumer]; try done.
  - intros x. rewrite (set_dom _ _ _ _ _ Hn), Hdom. by setoid_rewrite Eo.
  - intros j j' x. rewrite !Eo. apply How.
  - intros j x. rewrite Eo. apply Hoc.
  - intros j x. rewrite Eo. apply Hod.
  - intros k a b Ha Hb. rewrite En by (by eapply Hin). setoid_rewrite El. by eapply Hlk.
  - intros j a b. rewrite El. intros Hj. destruct (Hlg j a b Hj) as (k & Ha & Hb & E). exists k. split_and!; [done | done |].
    rewrite En; [done | by eapply Hin].
  - intros j j' a b a'. rewrite !El. apply H1.
  - by rewrite En.
  - intros j m w. rewrite (pcs_set q i _ _ _ _ Hi (λ c, c = PAllocated m w ∨ c = PReset m w)), (hdata_set _ _ _ _ _ Hn). cbn.
    intros [[-> [? | [= <- <-]]] | [Hj Hpr]]; [done | | by eapply Hda]. eapply Hda. exists (mkProducer (PAllocated n v) todo). by split; [| left].
  - intros j m w. rewrite (pcs_set q i _ _ _ _ Hi (λ c, c = PReset m w)), (hnext_set _ _ _ _ _ Hn). cbn.
    intros [[-> [= <- <-]] | [Hj Hpr]]; [by rewrite decide_True |]. case_decide; [done | by eapply Hne].
  - eapply consumer_ok_data; [done | |].
    + intros x Hx. by rewrite (hdata_set _ _ _ _ _ Hn).
    + intros m. rewrite En; [done |]. intros E. apply Hnc. rewrite E. by left.
Qed.

Lemma exchange_inv q ns rest i n v todo :
  queue_inv q ns rest → producers q !! i = Some (mkProducer (PReset n v) todo) →
  queue_inv (set_producer i (mkProducer (PExchanged (head_ q) n) todo) (heap_ q) n q) (ns ++ [n]) (rest ++ [v]).
Proof.
  intros [Hla Hnd Hdom How Hoc Hod Hdc Hlk Hlg H1 Hop Hda Hne Hc] Hi.
  assert (owns q i n) as Hown by (eexists; by rewrite Hi).
  pose proof (Hoc _ _ Hown) as Hnc.
  assert (hdata (heap_ q) n = Some (Some v)) as Hdn by (eapply Hda; eexists; split; [exact Hi | by right]).
  assert (hnext (heap_ q) n = Some None) as Hnn by (eapply Hne; by eexists).
  assert (∀ j, owns q j n → j = i) as Honly by (intros j Hj; by eapply How).
  assert ((tail_ q :: ns) !! length ns = Some (head_ q)) as Hhd by (by rewrite last_lookup in Hla).
  assert (∀ j x, owns (set_producer i (mkProducer (PExchanged (head_ q) n) todo) (heap_ q) n q) j x ↔ owns q j x ∧ x ≠ n) as Eo.
  { intros j x. rewrite (owns_set q i _ _ _ _ Hi). cbn. split.
    - intros [[_ ?] | [Hj Ho]]; [done |]. split; [done |]. intros ->. by apply Honly in Ho.
    - intros [Ho Hx]. right. split; [| done]. intros ->. destruct Ho as (pr & Hpr & E). rewrite Hi in Hpr. injection Hpr as <-. cbn in E. congruence. }
  assert (∀ j a b, linking (set_producer i (mkProducer (PExchanged (head_ q) n) todo) (heap_ q) n q) j a b ↔
    (j = i ∧ a = head_ q ∧ b = n) ∨ linking q j a b) as El.
  { intros j a b. rewrite (linking_set q i _ _ _ _ Hi). cbn. split.
    - intros [[-> [= <- <-]] | [_ ?]]; [by left | by right].
    - intros [(-> & -> & ->) | Hj]; [by left |]. right. split; [| done]. intros ->. destruct Hj as (pr & Hpr & E).
      rewrite Hi in Hpr. by injection Hpr as <-. }
  change (tail_ q :: ns ++ [n]) with ((tail_ q :: ns) ++ [n]) in *.
  assert (∀ k a, ((tail_ q :: ns) ++ [n]) !! k = Some a ↔ (tail_ q :: ns) !! k = Some a ∨ k = S (length ns) ∧ a = n) as Elk.
  { intros k a. rewrite lookup_app_Some, list_lookup_singleton_Some. cbn [length]. split.
    - intros [? | (? & ? & <-)]; [by left | right; split; [lia | done]].
    - intros [? | [-> ->]]; [by left | right; split_and!; [lia | lia | done]]. }
  split; cbn [set_producer heap_ head_ tail_ consumer]; change (tail_ q :: ns ++ [n]) with ((tail_ q :: ns) ++ [n]); try done.
  - by rewrite last_snoc.
  - apply NoDup_app. split_and!; [done | | apply NoDup_singleton]. by intros x Hx ->%list_elem_of_singleton.
  - intros x. rewrite Hdom, elem_of_app, list_elem_of_singleton. setoid_rewrite Eo. split.
    + intros [? | [[j Hj] | ?]]; [by left; left | | by right; right].
      destruct (decide (x = n)) as [->|]; [by left; right | right; left; by exists j].
    + intros [[? | ->] | [[j [Hj _]] | ?]]; [by left | right; left; by exists i | right; left; by exists j | by right; right].
  - intros j j' x. rewrite !Eo. intros [? _] [? _]. by eapply How.
  - intros j x. rewrite Eo, elem_of_app, list_elem_of_singleton. intros [Ho Hx] [Hin | ?]; [by eapply Hoc | done].
  - intros j x. rewrite Eo. intros [Ho _]. by eapply Hod.
  - intros x Hx. rewrite elem_of_app, list_elem_of_singleton. intros [Hin | ->]; [by eapply Hdc | by eapply Hod].
  - intros k a b. rewrite !Elk. intros [Ha | [-> ->]] [Hb | [Hk ->]].
    + destruct (Hlk k a b Ha Hb) as [? | [? [j Hj]]]; [by left | right]. split; [done |]. exists j. rewrite El. by right.
    + injection Hk as ->. rewrite Hhd in Ha. injection Ha as <-. right. split; [done |]. exists i. rewrite El. by left.
    + apply lookup_lt_Some in Hb. cbn in Hb. lia.
    + lia.
  - intros j a b. rewrite El. setoid_rewrite Elk. intros [(-> & -> & ->) | Hj].
    + exists (length ns). split_and!; [by left | by right | done].
    + destruct (Hlg j a b Hj) as (k & Ha & Hb & E). exists k. split_and!; [by left | by left | done].
  - intros j j' a b a'. rewrite !El. intros [(-> & -> & ->) | Hj] [(-> & -> & E) | Hj']; [done | | | by eapply H1].
    + exfalso. destruct (Hlg _ _ _ Hj') as (k & _ & Hb & _). apply Hnc. by eapply list_elem_of_lookup_2.
    + exfalso. subst b. destruct (Hlg _ _ _ Hj) as (k & _ & Hb & _). apply Hnc. by eapply list_elem_of_lookup_2.
  - intros j m w. rewrite (pcs_set q i _ _ _ _ Hi (λ c, c = PAllocated m w ∨ c = PReset m w)). cbn.
    intros [[_ [? | ?]] | [Hj Hpr]]; [done | done | by eapply Hda].
  - intros j m w. rewrite (pcs_set q i _ _ _ _ Hi (λ c, c = PReset m w)). cbn. intros [[_ ?] | [Hj Hpr]]; [done | by eapply Hne].
  - clear -Hc Hdn.
    assert (∀ ns' rest', Forall2 (λ p w, hdata (heap_ q) p = Some (Some w)) ns' rest' →
      Forall2 (λ p w, hdata (heap_ q) p = Some (Some w)) (ns' ++ [n]) (rest' ++ [v])) as HF
      by (intros; apply Forall2_app; [done | by repeat constructor]).
    destruct (consumer q) as [|s m|s m w|s w]; cbn in *.
    + by apply HF.
    + destruct Hc as (-> & Hh & Hl & HF'). split_and!; auto. by destruct ns.
    + destruct Hc as (-> & Hh & Hl & r & -> & HF'). destruct ns as [|m' ns]; [done |]. cbn in *. split_and!; auto.
      exists (r ++ [v]). split; [done | by apply HF].
    + destruct Hc as (r & -> & HF'). exists (r ++ [v]). split; [done | by apply HF].
Qed.

Lemma link_inv q ns rest i a b todo nd :
  queue_inv q ns rest → producers q !! i = Some (mkProducer (PExchanged a b) todo) → heap_ q !! a = Some nd →
  queue_inv (set_producer i (mkProducer PIdle todo) (<[a := set_next (Some b) nd]> (heap_ q)) (head_ q) q) ns rest.
Proof.
  intros [Hla Hnd Hdom How Hoc Hod Hdc Hlk Hlg H1 Hop Hda Hne Hc] Hi Ha.
  assert (linking q i a b) as Hlink by (eexists; by split).
  destruct (Hlg i a b Hlink) as (k0 & Hk0 & Hk1 & En0).
  assert (∀ j x, owns (set_producer i (mkProducer PIdle todo) (<[a := set_next (Some b) nd]> (heap_ q)) (head_ q) q) j x ↔ owns q j x) as Eo.
  { intros j x. rewrite (owns_set q i _ _ _ _ Hi). cbn. split; [by intros [[_ ?] | [_ ?]] |].
    intros Hj. right. split; [| done]. intros ->. destruct Hj as (pr & Hpr & Hx). rewrite Hi in Hpr. by injection Hpr as <-. }
  assert (∀ j x y, linking (set_producer i (mkProducer PIdle todo) (<[a := set_next (Some b) nd]> (heap_ q)) (head_ q) q) j x y ↔
    j ≠ i ∧ linking q j x y) as El.
  { intros j x y. rewrite (linking_set q i _ _ _ _ Hi). cbn. split; [by intros [[_ ?] | ?] | by right]. }
  assert (∀ k k' x, (tail_ q :: ns) !! k = Some x → (tail_ q :: ns) !! k' = Some x → k = k') as Hinj
    by (intros k k' x Hx Hx'; by eapply NoDup_lookup).
  split; cbn [set_producer heap_ head_ tail_ consumer]; try done.
  - intros x. rewrite (set_dom _ _ _ _ _ Ha), Hdom. by setoid_rewrite Eo.
  - intros j j' x. rewrite !Eo. apply How.
  - intros j x. rewrite Eo. apply Hoc.
  - intros j x. rewrite Eo. apply Hod.
  - intros k x y Hx Hy. rewrite (hnext_set _ _ _ _ _ Ha). case_decide as Hxa.
    + subst x. rewrite (Hinj k k0 a Hx Hk0) in Hy. left. congruence.
    + destruct (Hlk k x y Hx Hy) as [? | [? [j Hj]]]; [by left | right]. split; [done |]. exists j. rewrite El. split; [| done].
      intros ->. destruct Hj as (pr & Hpr & E). rewrite Hi in Hpr. injection Hpr as <-. cbn in E. congruence.
  - intros j x y. rewrite El. intros [Hj Hl]. destruct (Hlg j x y Hl) as (k & Hx & Hy & E). exists k. split_and!; [done | done |].
    rewrite (hnext_set _ _ _ _ _ Ha). case_decide as Hxa; [| done]. subst x. rewrite (Hinj k k0 a Hx Hk0) in Hy.
    assert (y = b) as -> by congruence. by destruct (H1 j i _ _ _ Hl Hlink).
  - intros j j' x y x'. rewrite !El. intros [_ ?] [_ ?]. by eapply H1.
  - rewrite (hnext_set _ _ _ _ _ Ha). case_decide as Hxa; [| done]. exfalso. rewrite last_lookup in Hla. rewrite Hxa in Hla.
    pose proof (Hinj _ _ _ Hla Hk0) as <-. apply lookup_lt_Some in Hk1. cbn in Hk1. lia.
  - intros j m w. rewrite (pcs_set q i _ _ _ _ Hi (λ c, c = PAllocated m w ∨ c = PReset m w)), (hdata_set _ _ _ _ _ Ha). cbn.
    intros [[_ [? | ?]] | [Hj Hpr]]; [done | done | by eapply Hda].
  - intros j m w. rewrite (pcs_set q i _ _ _ _ Hi (λ c, c = PReset m w)), (hnext_set _ _ _ _ _ Ha). cbn.
    intros [[_ ?] | [Hj Hpr]]; [done |]. case_decide as Hma; [| by eapply Hne]. exfalso. subst m.
    apply (Hoc j a); [| by eapply list_elem_of_lookup_2]. destruct Hpr as (pr & Hpr & E). exists pr. by rewrite E.
  - eapply consumer_ok_data; [done | |].
    + intros x Hx. by rewrite (hdata_set _ _ _ _ _ Ha).
    + intros m Hm. rewrite (hnext_set _ _ _ _ _ Ha). case_decide as Hta; [| done]. congruence.
Qed.

(** ** Steps of the consumer *)
Lemma tail_next q ns rest n :
  queue_inv q ns rest → hnext (heap_ q) (tail_ q) = Some (Some n) → head ns = Some n.
Proof.
  intros [Hla _ _ _ _ _ _ Hlk _ _ Hop _ _ _] Hn. destruct ns as [|b ns]; [injection Hla as E; congruence |].
  destruct (Hlk 0%nat (tail_ q) b) as [E | [E _]]; [done | done | cbn; congruence | congruence].
Qed.

Lemma empty_rest q ns rest :
  queue_inv q ns rest → consumer q = CIdle → hnext (heap_ q) (tail_ q) = Some None → (∀ j a b, ¬ (linking q j a b)) → rest = [].
Proof.
  intros [_ _ _ _ _ _ _ Hlk _ _ _ _ _ Hc] Hi Hn Hl. rewrite Hi in Hc. cbn in Hc.
  destruct ns as [|b ns]; [by inversion Hc |].
  destruct (Hlk 0%nat (tail_ q) b) as [E | [_ [j Hj]]]; [done | done | congruence | by apply Hl in Hj].
Qed.

Lemma load_inv q ns rest n :
  queue_inv q ns rest → consumer q = CIdle → hnext (heap_ q) (tail_ q) = Some (Some n) →
  queue_inv (set_consumer (CLoaded (tail_ q) n) (heap_ q) (tail_ q) q) ns rest.
Proof.
  intros HI Hcons Hn. pose proof (tail_next _ _ _ _ HI Hn) as Hhead. destruct HI as [? ? Hdom ? ? ? ? ? ? ? ? ? ? Hc].
  rewrite Hcons in Hc. assert (∀ p, ¬ (dying q p)) as Hnd by (intros p [v E]; congruence).
  split; cbn [set_consumer heap_ head_ tail_ consumer]; try done.
  - intros p. rewrite Hdom. split; [intros [? | [? | Hd]]; [by left | by right; left | by apply Hnd in Hd] |].
    intros [? | [? | [v ?]]]; [by left | by right; left | done].
  - intros j p _ [v ?]. done.
  - by intros p [v ?].
Qed.

Lemma move_inv q ns rest s n v nx :
  queue_inv q ns rest → consumer q = CLoaded s n → heap_ q !! n = Some (mkNode (Some v) nx) →
  queue_inv (set_consumer (CMoved s n v) (<[n := mkNode None nx]> (heap_ q)) (tail_ q) q) ns rest.
Proof.
  intros [Hla Hnd Hdom How Hoc Hod Hdc Hlk Hlg H1 Hop Hda Hne Hc] Hcons Hn. rewrite Hcons in Hc. destruct Hc as (-> & Hhead & Hnext & HF).
  assert (∀ p, ¬ (dying q p)) as Hndy by (intros p [w E]; congruence).
  assert (∀ p, hnext (<[n := mkNode None nx]> (heap_ q)) p = hnext (heap_ q) p) as En.
  { intros p. unfold hnext. destruct (decide (p = n)) as [->|]; [by rewrite lookup_insert_eq, Hn | by rewrite lookup_insert_ne]. }
  assert (∀ p, p ≠ n → hdata (<[n := mkNode None nx]> (heap_ q)) p = hdata (heap_ q) p) as Ed
    by (intros p Hp; unfold hdata; by rewrite lookup_insert_ne).
  destruct ns as [|n' ns]; [done |]. injection Hhead as ->.
  split; cbn [set_consumer heap_ head_ tail_ consumer]; try done.
  - intros p. rewrite (set_dom _ _ _ _ _ Hn), Hdom. split; [intros [? | [? | Hd]]; [by left | by right; left | by apply Hndy in Hd] |].
    intros [? | [? | [w ?]]]; [by left | by right; left | done].
  - intros j p _ [w ?]. done.
  - by intros p [w ?].
  - setoid_rewrite En. exact Hlk.
  - setoid_rewrite En. exact Hlg.
  - by rewrite En.
  - intros j m w Hm. rewrite Ed; [by eapply Hda |]. intros ->. apply (Hoc j n); [| by right; left].
    destruct Hm as (pr & Hpr & E). exists pr. by destruct E as [-> | ->].
  - setoid_rewrite En. exact Hne.
  - split; [done |]. split; [done |]. split; [by rewrite En |]. inversion HF as [|? w ? rest' Hw HF' E1 E2]; subst.
    exists rest'. split; [f_equal; unfold hdata in Hw; rewrite Hn in Hw; by injection Hw as -> |]. cbn [List.tl].
    apply Forall2_same_length_lookup. split; [by eapply Forall2_length |]. intros k p w' Hp Hw'.
    rewrite Ed by (intros ->; apply NoDup_cons in Hnd as [_ [Hnin _]%NoDup_cons]; apply Hnin; by eapply list_elem_of_lookup_2).
    by eapply (Forall2_lookup_lr _ _ _ _ _ _ HF').
Qed.

Lemma advance_inv q ns rest s n v :
  queue_inv q ns rest → consumer q = CMoved s n v →
  queue_inv (set_consumer (CAdvanced s v) (heap_ q) n q) (List.tl ns) rest.
Proof.
  intros [Hla Hnd Hdom How Hoc Hod Hdc Hlk Hlg H1 Hop Hda Hne Hc] Hcons. rewrite Hcons in Hc. destruct Hc as (-> & Hhead & Hnext & rest' & -> & HF).
  assert (∀ p, ¬ (dying q p)) as Hndy by (intros p [w E]; congruence).
  destruct ns as [|n' ns]; [done |]. injection Hhead as ->. cbn [List.tl] in *. apply NoDup_cons in Hnd as [Htn Hnd].
  split; cbn [set_consumer heap_ head_ tail_ consumer]; try done.
  - intros p. rewrite Hdom, (elem_of_cons (n :: ns)). split.
    + intros [[-> | ?] | [? | Hd]]; [by right; right; exists v | by left | by right; left | by apply Hndy in Hd].
    + intros [? | [? | [w [= <-]]]]; [by left; right | by right; left | by left; left].
  - intros j p Ho Hin. eapply Hoc; [done | by right].
  - intros j p Ho [w [= <-]]. eapply Hoc; [done | by left].
  - by intros p [w [= <-]].
  - intros k a b Ha Hb. exact (Hlk (S k) a b Ha Hb).
  - intros j a b Hj. destruct (Hlg j a b Hj) as (k & Ha & Hb & E). destruct k as [|k]; [| by exists k].
    injection Ha as <-. congruence.
  - by exists rest'.
Qed.

Lemma free_inv q ns rest s v nd :
  queue_inv q ns rest → consumer q = CAdvanced s v → heap_ q !! s = Some nd →
  ∃ rest', rest = v :: rest' ∧ queue_inv (set_consumer CIdle (delete s (heap_ q)) (tail_ q) q) ns rest'.
Proof.
  intros [Hla Hnd Hdom How Hoc Hod Hdc Hlk Hlg H1 Hop Hda Hne Hc] Hcons Hs. rewrite Hcons in Hc. destruct Hc as (rest' & -> & HF).
  assert (dying q s) as Hdy by (by exists v). pose proof (Hdc s Hdy) as Hsc.
  assert (∀ p, p ≠ s → hnext (delete s (heap_ q)) p = hnext (heap_ q) p) as En by (intros p Hp; unfold hnext; by rewrite lookup_delete_ne).
  assert (∀ p, p ≠ s → hdata (delete s (heap_ q)) p = hdata (heap_ q) p) as Ed by (intros p Hp; unfold hdata; by rewrite lookup_delete_ne).
  assert (∀ k a, (tail_ q :: ns) !! k = Some a → a ≠ s) as Hin by (intros k a Ha ->; apply Hsc; by eapply list_elem_of_lookup_2).
  exists rest'. split; [done |]. split; cbn [set_consumer heap_ head_ tail_ consumer]; try done.
  - intros p. rewrite lookup_delete_is_Some, Hdom. split.
    + intros [Hp [? | [? | [w Hw]]]]; [by left | by right; left |]. rewrite Hcons in Hw. by injection Hw as ->.
    + intros [Hp | [[j Ho] | [w ?]]]; [| | done].
      * split; [by intros <- | by left].
      * split; [intros <-; by eapply Hod | right; left; by exists j].
  - intros j p Ho [w ?]. done.
  - by intros p [w ?].
  - intros k a b Ha Hb. rewrite En by (by eapply Hin). by eapply Hlk.
  - intros j a b Hj. destruct (Hlg j a b Hj) as (k & Ha & Hb & E). exists k. rewrite En by (by eapply Hin). done.
  - rewrite En; [done |]. rewrite last_lookup in Hla. by eapply Hin.
  - intros j m w Hm. rewrite Ed; [by eapply Hda |]. intros ->. eapply (Hod j s); [| done]. destruct Hm as (pr & Hpr & E). exists pr. by destruct E as [-> | ->].
  - intros j m w Hm. rewrite En; [by eapply Hne |]. intros ->. eapply (Hod j s); [| done]. destruct Hm as (pr & Hpr & E). exists pr. by rewrite E.
  - apply Forall2_same_length_lookup. split; [by eapply Forall2_length |]. intros k p w Hp Hw.
    rewrite Ed by (by apply (Hin (S k))). by eapply (Forall2_lookup_lr _ _ _ _ _ _ HF).
Qed.
End inv.

(** ** Order, size and destruction *)
Import MpscOps.

Section theorems.
Context {T : Type}.
Implicit Types (q : MPSCQueue T) (es : list (QEvent T)).

(** The values pushed, in the order in which the pushes take effect, those of
    one producer, and the values returned, in order. *)
Definition pushes es : list T := omap (λ e, match e with EPush _ v => Some v | _ => None end) es.
Definition pushes_of (i : nat) es : list T := omap (λ e, match e with EPush j v => if decide (j = i) then Some v else None | _ => None end) es.
Definition pops es : list T := omap (λ e, match e with EPop v => Some v | _ => None end) es.

(** What a producer still has to push. *)
Definition pending (c : PushPc T) : list T := match c with PAllocated _ v | PReset _ v => [v] | _ => [] end.
Definition to_come q (i : nat) : list T :=
  match producers q !! i with Some pr => pending (pc pr) ++ to_push pr | None => [] end.

(** No producer is between its exchange of [head_] and its link. *)
Definition no_link_open q : Prop := ∀ j a b, ¬ (linking q j a b).
Definition at_rest q : Prop := consumer q = CIdle ∧ Forall (λ pr, pc pr = PIdle) (producers q).

(** What an event does to the values in the queue. *)
Definition event_effect (e : option (QEvent T)) (rest rest' : list T) : Prop :=
  match e with
  | Some (EPush _ v) => rest' = rest ++ [v]
  | Some (EPop v) => rest = v :: rest'
  | _ => rest' = rest
  end.

Lemma init_inv sentinel (programs : list (list T)) : queue_inv (MPSCQueue_init sentinel programs) [] [].
Proof.
  assert (∀ j pr, producers (MPSCQueue_init sentinel programs) !! j = Some pr → pc pr = PIdle) as Hidle
    by (intros j pr; cbn; intros (l & -> & _)%list_lookup_fmap_Some; done).
  assert (∀ j p, ¬ (owns (MPSCQueue_init sentinel programs) j p)) as Ho by (intros j p (pr & Hpr & E); by rewrite (Hidle _ _ Hpr) in E).
  assert (∀ j a b, ¬ (linking (MPSCQueue_init sentinel programs) j a b)) as Hl
    by (intros j a b (pr & Hpr & E); by rewrite (Hidle _ _ Hpr) in E).
  split; cbn [MPSCQueue_init heap_ head_ tail_ consumer]; try done.
  - apply NoDup_singleton.
  - intros p. rewrite lookup_singleton_is_Some, list_elem_of_singleton. split; [by intros ->; left |].
    intros [-> | [[j Hj] | [v ?]]]; [done | by apply Ho in Hj | done].
  - intros j j' p Hj. by apply Ho in Hj.
  - intros j p Hj. by apply Ho in Hj.
  - intros j p Hj. by apply Ho in Hj.
  - by intros p [v ?].
  - intros j a b Hj. by apply Hl in Hj.
  - intros j j' a b a' Hj. by apply Hl in Hj.
  - unfold hnext. by rewrite lookup_singleton_eq.
  - intros j n v (pr & Hpr & E). rewrite (Hidle _ _ Hpr) in E. by destruct E.
  - intros j n v (pr & Hpr & E). by rewrite (Hidle _ _ Hpr) in E.
  - constructor.
Qed.

Lemma alive q ns rest p : queue_inv q ns rest → p ∈ tail_ q :: ns ∨ (∃ j, owns q j p) ∨ dying q p → ∃ nd, heap_ q !! p = Some nd.
Proof. intros HI Hp. apply (qi_dom _ _ _ HI) in Hp as [nd ?]. by exists nd. Qed.

(** Every turn is safe and keeps the invariant. *)
Lemma turn_inv q ns rest t :
  queue_inv q ns rest → ∃ q' e ns' rest', turn q t = Stepped q' e ∧ queue_inv q' ns' rest' ∧ event_effect e rest rest' ∧
    (e = Some EEmpty → no_link_open q → rest = []) ∧
    ∀ i, to_come q i = pushes_of i (option_list e) ++ to_come q' i.
Proof.
  intros HI. destruct t as [i p|]; cbn [turn].
  - unfold push_step. destruct (producers q !! i) as [[pc todo]|] eqn:Ei; [| by eexists _, _, _, _].
    assert (∀ c' todo' h hd e, pending pc ++ todo = pushes_of i (option_list e) ++ pending c' ++ todo' →
      (∀ j, j ≠ i → pushes_of j (option_list e) = []) →
      ∀ j, to_come q j = pushes_of j (option_list e) ++ to_come (set_producer i (mkProducer c' todo') h hd q) j) as Hcome.
    { intros c' todo' h hd e He Hoth j. unfold to_come. cbn. destruct (decide (j = i)) as [->|Hne].
      - by rewrite list_lookup_insert_eq, Ei by (by eapply lookup_lt_Some).
      - by rewrite list_lookup_insert_ne, Hoth by done. }
    destruct pc as [|n v|n v|a b].
    + destruct todo as [|v todo]; [by eexists _, _, _, _ |]. destruct (heap_ q !! p) eqn:Ep; [by eexists _, _, _, _ |].
      eexists _, _, _, _. split; [done |]. split; [by apply alloc_inv |]. split; [done |]. split; [done |]. by apply Hcome.
    + destruct (alive q ns rest n HI) as [nd En]; [right; left; exists i; eexists; by rewrite Ei |]. rewrite En.
      eexists _, _, _, _. split; [done |]. split; [by eapply reset_inv |]. split; [done |]. split; [done |]. by apply Hcome.
    + eexists _, _, _, _. split; [done |]. split; [by eapply exchange_inv |]. split; [done |]. split; [done |].
      apply Hcome; [cbn; by rewrite decide_True |]. intros j Hj. cbn. by rewrite decide_False.
    + assert (linking q i a b) as Hl by (eexists; by rewrite Ei).
      destruct (qi_linking _ _ _ HI i a b Hl) as (k & Hk & _). 
      destruct (alive q ns rest a HI) as [nd En]; [left; by eapply list_elem_of_lookup_2 |]. rewrite En.
      eexists _, _, _, _. split; [done |]. split; [by eapply link_inv |]. split; [done |]. split; [done |]. by apply Hcome.
  - unfold pop_step. destruct (consumer q) as [|s n|s n v|s v] eqn:Ec.
    + destruct (alive q ns rest (tail_ q) HI) as [nd En]; [left; by left |]. rewrite En.
      assert (hnext (heap_ q) (tail_ q) = Some (next nd)) as Hn by (unfold hnext; by rewrite En).
      destruct (next nd) as [n|].
      * eexists _, _, _, _. split; [done |]. split; [by apply load_inv |]. by split_and!.
      * exists q, (Some EEmpty), ns, rest. split; [done |]. split; [done |]. split; [done |]. split; [| done].
        intros _ Hl. by eapply empty_rest.
    + pose proof (qi_consumer _ _ _ HI) as Hc. rewrite Ec in Hc. destruct Hc as (-> & Hh & _ & HF).
      destruct ns as [|n' ns]; [done |]. injection Hh as ->. inversion HF as [|? v ? rest' Hv _ E1 E2]; subst.
      unfold hdata in Hv. destruct (heap_ q !! n) as [[d nx]|] eqn:En; [| done]. injection Hv as ->.
      eexists _, _, _, _. split; [done |]. split; [by eapply move_inv |]. by split_and!.
    + eexists _, _, _, _. split; [done |]. split; [by eapply advance_inv |]. by split_and!.
    + destruct (alive q ns rest s HI) as [nd En]; [right; right; by exists v |]. rewrite En.
      destruct (free_inv _ _ _ _ _ _ HI Ec En) as (rest' & -> & HI'). eexists _, _, _, _. split; [done |]. by split_and!.
Qed.

Lemma run_inv ts : ∀ q ns rest, queue_inv q ns rest →
  ∃ q' es ns' rest', run_queue q ts = Some (q', es) ∧ queue_inv q' ns' rest' ∧ rest ++ pushes es = pops es ++ rest' ∧
    ∀ i, to_come q i = pushes_of i es ++ to_come q' i.
Proof.
  induction ts as [|t ts IH]; intros q ns rest HI; [exists q, [], ns, rest; split_and!; [done | done | by rewrite app_nil_r | done] |].
  destruct (turn_inv q ns rest t HI) as (q1 & e & ns1 & rest1 & E & HI1 & Heff & _ & Hc).
  destruct (IH q1 ns1 rest1 HI1) as (q2 & es & ns2 & rest2 & E2 & HI2 & Hes & Hc2).
  exists q2, (option_list e ++ es), ns2, rest2. cbn [run_queue]. rewrite E, E2. cbn [mbind option_bind].
  split; [done |]. split; [done |]. split.
  - unfold pushes, pops in *. rewrite !omap_app. destruct e as [[i v|v|]|]; cbn in Heff |- *; subst; cbn.
    + by rewrite <-Hes, <-app_assoc.
    + by rewrite Hes.
    + done.
    + done.
  - intros i. rewrite Hc, Hc2. unfold pushes_of. by rewrite omap_app, app_assoc.
Qed.

Lemma rest_size q ns rest : queue_inv q ns rest → at_rest q → size (heap_ q) = S (length rest).
Proof.
  intros HI [Hc Hp].
  assert (dom (heap_ q) = list_to_set (tail_ q :: ns)) as E.
  { apply set_eq. intros p. rewrite elem_of_dom, (qi_dom _ _ _ HI), elem_of_list_to_set. split; [| by left].
    intros [? | [(j & pr & Hpr & Ho) | [v ?]]]; [done | | congruence]. rewrite Forall_lookup in Hp. by rewrite (Hp _ _ Hpr) in Ho. }
  rewrite <-size_dom, E, size_list_to_set by apply (qi_nodup _ _ _ HI). cbn [length]. f_equal.
  pose proof (qi_consumer _ _ _ HI) as HF. rewrite Hc in HF. by eapply Forall2_length.
Qed.

(** ** The destructor *)
Lemma at_rest_unlinked q : at_rest q → ∀ j a b, ¬ (linking q j a b).
Proof. intros [_ Hp] j a b (pr & Hpr & E). rewrite Forall_lookup in Hp. by rewrite (Hp _ _ Hpr) in E. Qed.

Lemma tryPop_rest q ns rest : queue_inv q ns rest → at_rest q →
  (ns = [] ∧ tryPop q = Some (q, None)) ∨
  ∃ q' v n ns' rest', ns = n :: ns' ∧ tryPop q = Some (q', Some v) ∧ queue_inv q' ns' rest' ∧ at_rest q'.
Proof.
  intros HI Hr. pose proof (at_rest_unlinked q Hr) as Hl. destruct Hr as [Hc Hp].
  destruct (alive q ns rest (tail_ q) HI) as [nd En]; [left; by left |].
  assert (hnext (heap_ q) (tail_ q) = Some (next nd)) as Hn by (unfold hnext; by rewrite En).
  destruct ns as [|n ns].
  { left. split; [done |]. pose proof (qi_open _ _ _ HI) as Ho. pose proof (qi_last _ _ _ HI) as Hla. cbn in Hla. injection Hla as Hla.
    rewrite <-Hla, Hn in Ho. injection Ho as Ho. unfold tryPop, pop_call, pop_step. by rewrite Hc, En, Ho. }
  right. destruct (qi_links _ _ _ HI 0%nat (tail_ q) n) as [E | [_ [j Hj]]]; [done | done | | by apply Hl in Hj].
  rewrite Hn in E. injection E as E. rewrite E in Hn.
  pose proof (qi_consumer _ _ _ HI) as HF. rewrite Hc in HF. destruct rest as [|v rest]; [by inversion HF |].
  apply Forall2_cons in HF as [Hv _]. unfold hdata in Hv.
  destruct (heap_ q !! n) as [[d nx]|] eqn:Ehn; [| done]. injection Hv as ->.
  set (q1 := set_consumer (CLoaded (tail_ q) n) (heap_ q) (tail_ q) q).
  set (q2 := set_consumer (CMoved (tail_ q) n v) (<[n := mkNode None nx]> (heap_ q)) (tail_ q) q1).
  set (q3 := set_consumer (CAdvanced (tail_ q) v) (heap_ q2) n q2).
  assert (pop_step q = Stepped q1 None) as S1 by (unfold pop_step; by rewrite Hc, En, E).
  assert (pop_step q1 = Stepped q2 None) as S2 by (unfold pop_step; cbn; by rewrite Ehn).
  assert (pop_step q2 = Stepped q3 None) as S3 by done.
  assert (queue_inv q1 (n :: ns) (v :: rest)) as H1 by (by apply load_inv).
  assert (queue_inv q2 (n :: ns) (v :: rest)) as H2 by (by eapply (move_inv q1)).
  assert (queue_inv q3 ns (v :: rest)) as H3 by exact (advance_inv q2 (n :: ns) (v :: rest) (tail_ q) n v H2 eq_refl).
  destruct (alive q3 ns _ (tail_ q) H3) as [nd' En']; [right; right; by eexists |].
  destruct (free_inv q3 _ _ _ _ nd' H3 eq_refl En') as (rest' & _ & H4).
  assert (pop_step q3 = Stepped (set_consumer CIdle (delete (tail_ q) (heap_ q3)) (tail_ q3) q3) (Some (EPop v))) as S4
    by (unfold pop_step; change (consumer q3) with (CAdvanced (tail_ q) v); cbv iota beta; by rewrite En').
  eexists _, v, n, ns, rest'. split; [done |]. split; [| split; [exact H4 | by split]].
  unfold tryPop. cbn [pop_call]. by rewrite S1, S2, S3, S4.
Qed.

Lemma drain_rest ns : ∀ fuel q rest, queue_inv q ns rest → at_rest q → (length ns < fuel)%nat →
  ∃ q', drain_loop fuel q = Some q' ∧ queue_inv q' [] [] ∧ at_rest q'.
Proof.
  induction ns as [|n ns IH]; intros fuel q rest HI Hr Hf; (destruct fuel as [|fuel]; [lia |]); cbn [drain_loop];
    destruct (tryPop_rest _ _ _ HI Hr) as [[E ->] | (q' & v & n' & ns' & rest' & [= <- <-] & -> & HI' & Hr')]; cbn [mbind option_bind]; try done.
  - exists q. split; [done |]. split; [| done]. destruct rest as [|v rest]; [done |].
    pose proof (qi_consumer _ _ _ HI) as HF. rewrite (proj1 Hr) in HF. by inversion HF.
  - eapply IH; [done | done |]. cbn in Hf. lia.
Qed.

Lemma destroy_rest q ns rest : queue_inv q ns rest → at_rest q → MPSCQueue_destroy q = Some ∅.
Proof.
  intros HI Hr. unfold MPSCQueue_destroy. pose proof (qi_consumer _ _ _ HI) as HF. rewrite (proj1 Hr) in HF.
  destruct (drain_rest ns (size (heap_ q)) q rest HI Hr) as (q' & -> & HI' & Hr').
  { rewrite (rest_size _ _ _ HI Hr), (Forall2_length _ _ _ HF). lia. }
  cbn [mbind option_bind]. destruct (alive q' [] [] (tail_ q') HI') as [nd En]; [left; by left |]. rewrite En. cbn. f_equal.
  apply map_size_empty_inv. rewrite map_size_delete, En, (rest_size _ _ _ HI' Hr'). done.
Qed.
End theorems.

(** C31: the command queue is a queue under every interleaving. Let any number of
    producers push their values while the consumer pops, in any order of their
    single accesses to memory and with any addresses the allocator returns: no
    access ever touches freed memory, no node is freed twice, no value is taken
    twice. The values returned are, in order, a prefix of the values pushed, in
    the order in which the pushes took effect, and the values of each producer
    were pushed in its program order. At rest, exactly one node per waiting value
    and the sentinel are allocated, and the destructor frees them all; and [tryPop]
    finds nothing while no producer is between its two accesses only when nothing
    is waiting. *)
Theorem mpsc_queue_fifo {T} (programs : list (list T)) sentinel ts :
  ∃ q es rest, run_queue (MPSCQueue_init sentinel programs) ts = Some (q, es) ∧
    pushes es = pops es ++ rest ∧
    (∀ i program, programs !! i = Some program → program = pushes_of i es ++ to_come q i) ∧
    (at_rest q → size (heap_ q) = S (length rest) ∧ MPSCQueue_destroy q = Some ∅) ∧
    (turn q TConsumer = Stepped q (Some EEmpty) → no_link_open q → rest = []).
Proof.
  destruct (run_inv ts _ _ _ (init_inv sentinel programs)) as (q & es & ns & rest & E & HI & Hes & Hc).
  exists q, es, rest. split; [done |]. split; [done |]. split_and!.
  - intros i program Hi. rewrite <-Hc. unfold to_come. cbn. rewrite list_lookup_fmap, Hi. done.
  - intros Hr. split; [by eapply rest_size | by eapply destroy_rest].
  - intros Ht Hl. destruct (turn_inv _ _ _ TConsumer HI) as (q' & e & ns' & rest' & E' & _ & _ & Hem & _).
    rewrite Ht in E'. injection E' as <- <-. by apply Hem.
Qed.

(** A push that has returned can be invisible for a while: the first producer
    has exchanged [head_] but not yet written its link when the second one
    completes its push and the consumer finds the queue empty. *)
Lemma completed_push_invisible :
  let ts := [TProducer 0 2; TProducer 0 2; TProducer 0 2; TProducer 1 3; TProducer 1 3; TProducer 1 3; TProducer 1 3; TConsumer] in
  ('(q, es) ← run_queue (MPSCQueue_init 1 [[10]; [20]]) ts; Some (es, producers q)) =
  Some ([EPush 0 10; EPush 1 20; EEmpty], [mkProducer (PExchanged 1 2) []; mkProducer PIdle []]).
Proof. vm_compute. reflexivity. Qed.
