(* ===== verification/TcpConnection.v ===== *)
(** * TCP connections (src/network/tcp_connection.cpp)

    A connection cuts the byte stream of its socket into messages and puts a
    framing header in front of every message it sends. Its handlers run on one
    strand, so one handler of the model runs at a time; the socket and the
    scheduler decide what happens next, and that choice is an event:

    - [TReceive]: bytes arrive. [async_read] completes when its buffer is full,
      so they fill the header buffer, then the body buffer, and so on;
    - [TSend] and [TStrand]: a call of [send] and, later, the run of the handler
      it has posted to the strand;
    - [TWriteSome i n]: the [i]th outstanding [async_write] hands [n] more bytes
      to the socket. Nothing in the class waits for one write to end before it
      starts the next, so there may be several;
    - [TReadError], [TWriteError]: the outstanding read or a write fails;
    - [TClose]: somebody calls [close].

    The addresses, the socket options and the log are left out. *)
From S2P Require Import Prelude.
From S2P Require Import Sbe.

Definition kSofhSize : nat := 6.
Definition kSofhEncodingSbe : Z := 0xCAFE.
Definition kMaxBody : Z := 64 * 1024.

(** The outstanding [async_read]: what it has put into its buffer so far. *)
Inductive ReadOp :=
| ReadNone
| ReadHeader (header_buf_ : list byte)
| ReadBody (body_length : Z) (body_buf_ : list byte).

(** [on_message_] and [on_disconnect_] tell whether the callback is set. [posted]
    holds the messages of the handlers waiting on the strand, [writes] what each
    outstanding write has left. *)
Record TcpConnection := mkTcp {
  on_message_ : bool;
  on_disconnect_ : bool;
  closed_ : bool;
  reading : ReadOp;
  posted : list buffer;
  writes : list buffer;
}.

(** What a connection lets the outside see. *)
Inductive TcpOutput := OnMessage (payload : list byte) | OnDisconnect | Wire (bytes : list byte).

Inductive TcpEvent :=
| TReceive (bytes : list byte)
| TSend (data : list byte)
| TStrand
| TWriteSome (i n : nat)
| TReadError
| TWriteError (i : nat)
| TClose.

Module TcpOps.
Definition TcpConnection_init : TcpConnection := mkTcp false false false ReadNone [] [].

Definition set_reading (r : ReadOp) (c : TcpConnection) : TcpConnection :=
  mkTcp (on_message_ c) (on_disconnect_ c) (closed_ c) r (posted c) (writes c).
Definition set_writes (p w : list buffer) (c : TcpConnection) : TcpConnection :=
  mkTcp (on_message_ c) (on_disconnect_ c) (closed_ c) (reading c) p w.

(** [close]: the socket is closed, which aborts the reads and writes. *)
Definition close (c : TcpConnection) : TcpConnection * list TcpOutput :=
  if closed_ c then (c, [])
  else (mkTcp (on_message_ c) false true ReadNone (posted c) [], if on_disconnect_ c then [OnDisconnect] else []).

Definition do_read_header (c : TcpConnection) : TcpConnection := set_reading (ReadHeader []) c.
Definition do_read_body (body_length : Z) (c : TcpConnection) : TcpConnection := set_reading (ReadBody body_length []) c.

Definition start (c : TcpConnection) : TcpConnection :=
  do_read_header (mkTcp true true (closed_ c) (reading c) (posted c) (writes c)).

(** The handler of the header read. *)
Definition on_header (c : TcpConnection) (header_buf_ : list byte) : option (TcpConnection * list TcpOutput) :=
  msg_length ← rd_u header_buf_ 0 4;
  enc_type ← rd_u header_buf_ 4 2;
  let msg_length := big_to_native32 msg_length in
  let enc_type := big_to_native16 enc_type in
  if negb (enc_type =? kSofhEncodingSbe) then Some (close c)
  else if msg_length <=? Z.of_nat kSofhSize then Some (close c)
  else
    let body_length := msg_length - u32 (Z.of_nat kSofhSize) in
    if kMaxBody <? body_length then Some (close c)
    else Some (do_read_body body_length c, []).

(** The handler of the body read. *)
Definition on_body (c : TcpConnection) (body_buf_ : list byte) : TcpConnection * list TcpOutput :=
  (do_read_header c, if on_message_ c then [OnMessage body_buf_] else []).

(** One byte arrives for the outstanding read. *)
Definition on_byte (c : TcpConnection) (b : byte) : option (TcpConnection * list TcpOutput) :=
  match reading c with
  | ReadNone => Some (c, [])
  | ReadHeader got =>
      let got := got ++ [b] in
      if (length got =? kSofhSize)%nat then on_header c got else Some (set_reading (ReadHeader got) c, [])
  | ReadBody body_length got =>
      let got := got ++ [b] in
      if Z.of_nat (length got) =? body_length then Some (on_body c got)
      else Some (set_reading (ReadBody body_length got) c, [])
  end.

Fixpoint receive (c : TcpConnection) (bytes : list byte) : option (TcpConnection * list TcpOutput) :=
  match bytes with
  | [] => Some (c, [])
  | b :: bytes => '(c, out) ← on_byte c b; '(c, outs) ← receive c bytes; Some (c, out ++ outs)
  end.

(** The error branch of both read handlers. *)
Definition read_error (c : TcpConnection) : TcpConnection * list TcpOutput :=
  match reading c with ReadNone => (c, []) | _ => close c end.

(** The buffer [send] builds. *)
Definition frame (data : list byte) : option buffer :=
  let msg := replicate (kSofhSize + length data) Init.Byte.x00 in
  let msg_length := native_to_big32 (u32 (Z.of_nat (kSofhSize + length data))) in
  let encoding_type := native_to_big16 kSofhEncodingSbe in
  msg ← memcpy_to msg 0 (le_split 4 msg_length) 4;
  msg ← memcpy_to msg 4 (le_split 2 encoding_type) 2;
  memcpy_to msg kSofhSize data (length data).

Definition send (c : TcpConnection) (data : list byte) : option TcpConnection :=
  msg ← frame data; Some (set_writes (posted c ++ [msg]) (writes c) c).

(** The handler [send] posts. *)
Definition strand (c : TcpConnection) : TcpConnection :=
  match posted c with
  | [] => c
  | msg :: rest => set_writes rest (if closed_ c then writes c else writes c ++ [msg]) c
  end.

(** An outstanding write makes progress; it ends when it has nothing left. *)
Definition write_some (c : TcpConnection) (i n : nat) : TcpConnection * list TcpOutput :=
  match writes c !! i with
  | None => (c, [])
  | Some w =>
      let rest := drop n w in
      (set_writes (posted c) (match rest with [] => delete i (writes c) | _ => <[i := rest]> (writes c) end) c, [Wire (take n w)])
  end.

(** The handler of a write that failed. *)
Definition write_error (c : TcpConnection) (i : nat) : TcpConnection * list TcpOutput :=
  match writes c !! i with
  | None => (c, [])
  | Some _ => close (set_writes (posted c) (delete i (writes c)) c)
  end.

Definition tcp_step (c : TcpConnection) (e : TcpEvent) : option (TcpConnection * list TcpOutput) :=
  match e with
  | TReceive bytes => receive c bytes
  | TSend data => c ← send c data; Some (c, [])
  | TStrand => Some (strand c, [])
  | TWriteSome i n => Some (write_some c i n)
  | TReadError => Some (read_error c)
  | TWriteError i => Some (write_error c i)
  | TClose => Some (close c)
  end.

Fixpoint tcp_run (c : TcpConnection) (es : list TcpEvent) : option (TcpConnection * list TcpOutput) :=
  match es with
  | [] => Some (c, [])
  | e :: es => '(c, out) ← tcp_step c e; '(c, outs) ← tcp_run c es; Some (c, out ++ outs)
  end.
End TcpOps.
