(* ===== verification/TcpTheorems.v ===== *)
(** * Theorems about the TCP connections: framing and reassembly *)
From S2P Require Import Prelude.
From S2P Require Import Sbe.
From S2P Require Import TcpConnection.
Import TcpOps.

(** ** The frames of the wire *)

(** The length and the encoding type in front of a payload, big-endian. *)
Definition header_bytes (payload_length : Z) : list byte :=
  rev (le_split 4 (payload_length + 6)) ++ rev (le_split 2 0xCAFE).
Definition frame_bytes (payload : list byte) : list byte :=
  header_bytes (Z.of_nat (length payload)) ++ payload.
Definition sendable (payload : list byte) : Prop := 1 ≤ Z.of_nat (length payload) ≤ kMaxBody.

(** [reads s ps bad]: the stream [s] holds the frames of [ps], then the start of
    another frame or, when [bad], a header no frame begins with. *)
Inductive reads : list byte → list (list byte) → bool → Prop :=
| reads_short s : (length s < kSofhSize)%nat → reads s [] false
| reads_partial n s : 1 ≤ n ≤ kMaxBody → Z.of_nat (length s) < n → reads (header_bytes n ++ s) [] false
| reads_bad h s : length h = kSofhSize → (∀ n, 1 ≤ n ≤ kMaxBody → h ≠ header_bytes n) → reads (h ++ s) [] true
| reads_frame p s ps bad : sendable p → reads s ps bad → reads (frame_bytes p ++ s) (p :: ps) bad.

Lemma testbit_byte z k : 0 ≤ k < 8 → Z.testbit (z mod 2 ^ 8) k = Z.testbit z k.
Proof. intros. by rewrite Z.mod_pow2_bits_low by lia. Qed.

(** Byte [k] of a number as bits. *)
Lemma le_split_bytes n : ∀ z, le_split n z = map (λ k, byte.of_Z (Z.shiftr z (8 * Z.of_nat k))) (seq 0 n).
Proof.
  induction n as [|n IH]; intros z; [done|].
  change (le_split (S n) z) with (byte.of_Z z :: le_split n (Z.shiftr z 8)).
  rewrite IH. cbn [seq map]. rewrite Z.shiftr_0_r. f_equal.
  rewrite <-seq_shift, map_map. apply map_ext. intros k.
  rewrite Z.shiftr_shiftr by lia. do 2 f_equal. lia.
Qed.

Lemma byte_of_Z_ext a b : (∀ k, 0 ≤ k < 8 → Z.testbit a k = Z.testbit b k) → byte.of_Z a = byte.of_Z b.
Proof.
  intros H. apply byte.unsigned_inj. rewrite !byte.unsigned_of_Z. unfold byte.wrap.
  apply Z.bits_inj'. intros k Hk. destruct (decide (k < 8)).
  - rewrite !Z.mod_pow2_bits_low by lia. auto with lia.
  - by rewrite !Z.mod_pow2_bits_high by lia.
Qed.

(** Compare two numbers bit by bit. *)
Ltac bits_of :=
  rewrite ?Z.shiftr_spec, ?Z.lor_spec, ?Z.shiftl_spec, ?Z.shiftr_spec, ?Z.land_spec by lia.
Ltac byte_cases k := let H := fresh in assert (k = 0 ∨ k = 1 ∨ k = 2 ∨ k = 3 ∨ k = 4 ∨ k = 5 ∨ k = 6 ∨ k = 7) as H by lia; destruct_or! H; subst k.

(** A swap turns the little-endian bytes of a number into its big-endian ones. *)
Lemma bswap32_bytes z : z ∈u 32 → le_split 4 (bswap32 z) = rev (le_split 4 z).
Proof.
  intros Hz. rewrite !le_split_bytes. cbn [seq map rev app].
  assert (∀ k, 32 ≤ k → Z.testbit z k = false) as Hh.
  { intros k Hk. rewrite <-(Z.mod_small z (2 ^ 32)) by lia. by apply Z.mod_pow2_bits_high. }
  repeat (apply f_equal2; [apply byte_of_Z_ext; intros k Hk; unfold bswap32; byte_cases k;
    rewrite !Z.shiftr_spec, !Z.lor_spec, ?Z.shiftl_spec by lia; rewrite ?Z.shiftr_spec, ?Z.land_spec by lia;
    rewrite ?(Z.testbit_neg_r z) by lia; cbn; rewrite ?andb_true_r, ?andb_false_r, ?orb_false_r; cbn; try done|]).
  done.
Qed.

Lemma bswap64_bytes z : z ∈u 64 → le_split 8 (bswap64 z) = rev (le_split 8 z).
Proof.
  intros Hz. rewrite !le_split_bytes. cbn [seq map rev app].
  assert (∀ k, 64 ≤ k → Z.testbit z k = false) as Hh.
  { intros k Hk. rewrite <-(Z.mod_small z (2 ^ 64)) by lia. by apply Z.mod_pow2_bits_high. }
  repeat (apply f_equal2; [apply byte_of_Z_ext; intros k Hk; unfold bswap64; byte_cases k;
    rewrite !Z.shiftr_spec, !Z.lor_spec, ?Z.shiftl_spec by lia; rewrite ?Z.shiftr_spec, ?Z.land_spec by lia;
    rewrite ?(Z.testbit_neg_r z) by lia; cbn; rewrite ?andb_true_r, ?andb_false_r, ?orb_false_r; cbn; try done|]).
  done.
Qed.

Lemma bswap16_bytes z : z ∈u 16 → le_split 2 (bswap16 z) = rev (le_split 2 z).
Proof.
  intros Hz. rewrite !le_split_bytes. cbn [seq map rev app].
  assert (∀ k, 16 ≤ k → Z.testbit z k = false) as Hh.
  { intros k Hk. rewrite <-(Z.mod_small z (2 ^ 16)) by lia. by apply Z.mod_pow2_bits_high. }
  unfold bswap16, wrapu.
  repeat (apply f_equal2; [apply byte_of_Z_ext; intros k Hk;
    rewrite !Z.shiftr_spec, Z.mod_pow2_bits_low, Z.lor_spec, Z.shiftr_spec, Z.shiftl_spec by lia; byte_cases k;
    rewrite ?Hh, ?(Z.testbit_neg_r z) by lia; cbn; by rewrite ?orb_false_r|]).
  done.
Qed.

Lemma bswap32_range z : bswap32 z ∈u 32.
Proof.
  assert (bswap32 z mod 2 ^ 32 = bswap32 z) as <-; [|by apply Z.mod_pos_bound].
  apply Z.bits_inj'. intros k Hk. destruct (decide (k < 32)); [by rewrite Z.mod_pow2_bits_low by lia|].
  rewrite Z.mod_pow2_bits_high by lia. unfold bswap32.
  rewrite !Z.lor_spec, !Z.shiftl_spec, !Z.shiftr_spec, !Z.land_spec by lia.
  assert (∀ m w j, 0 ≤ m < 2 ^ w → 0 ≤ w → w ≤ j → Z.testbit m j = false) as Hz'.
  { intros m w j Hm Hw Hj. rewrite <-(Z.mod_small m (2 ^ w)) by lia. by apply Z.mod_pow2_bits_high. }
  rewrite (Hz' 0xFF000000 32 (k + 24)), (Hz' 0x00FF0000 24 (k + 8)), (Hz' 0x0000FF00 16 (k - 8)), (Hz' 0x000000FF 8 (k - 24)) by lia.
  by rewrite !andb_false_r.
Qed.

Lemma bswap16_range z : bswap16 z ∈u 16.
Proof. by apply wrapu_range. Qed.

(** The two fields of six bytes, and when they make the header of a frame. *)
Lemma header_fields h :
  length h = kSofhSize → ∃ l e,
    rd_u h 0 4 = Some l ∧ rd_u h 4 2 = Some e ∧ l ∈u 32 ∧
    (big_to_native16 e = kSofhEncodingSbe → h = header_bytes (big_to_native32 l - 6)).
Proof.
  intros Hl. do 6 (destruct h as [|? h]; [done|]). destruct h; [|done].
  exists (le_combine [b; b0; b1; b2]), (le_combine [b3; b4]). split_and!; try done.
  - apply (le_combine_bound [b; b0; b1; b2]).
  - apply (le_combine_bound [b; b0; b1; b2]).
  - intros He. unfold header_bytes. rewrite Z.sub_simpl_r.
    change (0xCAFE) with kSofhEncodingSbe. rewrite <-He.
    unfold big_to_native32, native_to_big32, big_to_native16, native_to_big16.
    rewrite bswap32_bytes by apply (le_combine_bound [b; b0; b1; b2]).
    rewrite bswap16_bytes by apply (le_combine_bound [b3; b4]).
    rewrite !rev_involutive.
    rewrite (split_le_combine' [b; b0; b1; b2]) by done. by rewrite (split_le_combine' [b3; b4]) by done.
Qed.

Lemma header_bytes_length n : length (header_bytes n) = kSofhSize.
Proof. unfold header_bytes. by rewrite length_app, !length_rev, !length_le_split. Qed.

(** The header the class writes is the header of the payload's length. *)
Lemma header_written n : 0 ≤ n ≤ kMaxBody →
  le_split 4 (native_to_big32 (n + 6)) ++ le_split 2 (native_to_big16 kSofhEncodingSbe) = header_bytes n.
Proof.
  intros Hn. unfold header_bytes, native_to_big32, native_to_big16. unfold kMaxBody in Hn.
  by rewrite bswap32_bytes, bswap16_bytes by (unfold kSofhEncodingSbe; lia).
Qed.

Lemma bswap32_twice z : z ∈u 32 → bswap32 (bswap32 z) = z.
Proof.
  intros Hz. pose proof (bswap32_range (bswap32 z)) as Hr.
  assert (le_combine (le_split 4 (bswap32 (bswap32 z))) = le_combine (le_split 4 z)) as E
    by (rewrite !bswap32_bytes, rev_involutive by (done || apply bswap32_range); done).
  rewrite !le_combine_split in E. change (Z.of_nat 4 * 8) with 32 in E. by rewrite !Z.mod_small in E by done.
Qed.

Lemma header_read n : 1 ≤ n ≤ kMaxBody → ∃ l e,
  rd_u (header_bytes n) 0 4 = Some l ∧ rd_u (header_bytes n) 4 2 = Some e ∧
  big_to_native32 l = n + 6 ∧ big_to_native16 e = kSofhEncodingSbe.
Proof.
  intros Hn. unfold kMaxBody in Hn.
  pose proof (bswap32_range (n + 6)) as Hr. pose proof (bswap16_range kSofhEncodingSbe) as Hr'.
  exists (native_to_big32 (n + 6)), (native_to_big16 kSofhEncodingSbe).
  set (ws := [put_u 0 (native_to_big32 (n + 6)) 4; put_u 4 (native_to_big16 kSofhEncodingSbe) 2]).
  assert (packed 0 ws) as Hp by done.
  assert (header_bytes n = [] ++ payload ws ++ []) as -> by (rewrite <-header_written by (unfold kMaxBody; lia); done).
  split_and!; [by apply (rd_u_packed ws [] [] Hp 0 eq_refl 0 4); [constructor|]
    |by apply (rd_u_packed ws [] [] Hp 0 eq_refl 4 2); [constructor; constructor|]|by apply bswap32_twice; lia|done].
Qed.

(** ** What a connection does to the outside *)
Definition delivered (outs : list TcpOutput) : list (list byte) :=
  omap (λ o, match o with OnMessage p => Some p | _ => None end) outs.
Definition disconnects (outs : list TcpOutput) : nat :=
  length (omap (λ o, match o with OnDisconnect => Some () | _ => None end) outs).
Definition wire (outs : list TcpOutput) : list byte :=
  concat (omap (λ o, match o with Wire bs => Some bs | _ => None end) outs).

Lemma delivered_messages_app o1 o2 : delivered (o1 ++ o2) = delivered o1 ++ delivered o2.
Proof. apply omap_app. Qed.
Lemma disconnects_app o1 o2 : disconnects (o1 ++ o2) = (disconnects o1 + disconnects o2)%nat.
Proof. unfold disconnects. by rewrite omap_app, length_app. Qed.
Lemma wire_app o1 o2 : wire (o1 ++ o2) = wire o1 ++ wire o2.
Proof. unfold wire. by rewrite omap_app, concat_app. Qed.
Create Rewrite HintDb tcp.
#[export] Hint Rewrite delivered_messages_app disconnects_app wire_app : tcp.

(** ** The receiving side *)

(** An open connection that has been given [input] and has delivered [ps]. *)
Definition receiving (input : list byte) (ps : list (list byte)) (c : TcpConnection) : Prop :=
  closed_ c = false ∧ on_message_ c = true ∧ on_disconnect_ c = true ∧ Forall sendable ps ∧
  ∃ rest, input = concat (frame_bytes <$> ps) ++ rest ∧
    match reading c with
    | ReadNone => False
    | ReadHeader got => rest = got ∧ (length got < kSofhSize)%nat
    | ReadBody n got => rest = header_bytes n ++ got ∧ 1 ≤ n ≤ kMaxBody ∧ Z.of_nat (length got) < n
    end.

Lemma reads_frames ps s qs bad : Forall sendable ps → reads s qs bad → reads (concat (frame_bytes <$> ps) ++ s) (ps ++ qs) bad.
Proof.
  intros Hps Hs. induction Hps as [|p ps Hp Hps IH]; [done|].
  cbn [fmap list_fmap concat app]. rewrite <-app_assoc. by apply reads_frame.
Qed.

Lemma receiving_reads input ps c : receiving input ps c → reads input ps false.
Proof.
  intros (_ & _ & _ & Hps & rest & -> & Hr). rewrite <-(app_nil_r ps) at 2. apply reads_frames; [done|].
  destruct (reading c) as [|got|n got]; [done|destruct Hr as [-> ?]; by apply reads_short|].
  destruct Hr as (-> & ? & ?). by apply reads_partial.
Qed.

Lemma reads_bad_app s ps t : reads s ps true → reads (s ++ t) ps true.
Proof.
  remember true as bad eqn:E. intros H. revert t E. induction H; intros t E; try done; rewrite <-app_assoc; [by apply reads_bad|by apply reads_frame; auto].
Qed.

(** The connection after one of its events: open and receiving, or closed by it
    with the one report of the disconnection. *)
Definition closed_by (c' : TcpConnection) (out : list TcpOutput) : Prop :=
  closed_ c' = true ∧ reading c' = ReadNone ∧ writes c' = [] ∧ out = [OnDisconnect].

Lemma close_open c : closed_ c = false → on_disconnect_ c = true → closed_by (close c).1 (close c).2 ∧ posted (close c).1 = posted c.
Proof. intros Hc Hd. unfold close. by rewrite Hc, Hd. Qed.

Lemma on_header_spec input ps c h :
  closed_ c = false → on_message_ c = true → on_disconnect_ c = true → Forall sendable ps →
  input = concat (frame_bytes <$> ps) ++ h → length h = kSofhSize →
  ∃ c' out, on_header c h = Some (c', out) ∧ posted c' = posted c ∧
    ((out = [] ∧ receiving input ps c' ∧ writes c' = writes c) ∨ (closed_by c' out ∧ reads input ps true)).
Proof.
  intros Hc Hm Hd Hps -> Hh. destruct (close_open c Hc Hd) as [Hcl Hpc].
  destruct (header_fields h Hh) as (l & e & Hl & He & _ & Hf).
  pose proof (bswap32_range l) as Hr. unfold on_header. rewrite Hl, He. cbn [mbind option_bind].
  assert (∀ P : TcpConnection → list TcpOutput → Prop, (∀ n, 1 ≤ n ≤ kMaxBody → h ≠ header_bytes n) → ∃ c' out, Some (close c) = Some (c', out) ∧ posted c' = posted c ∧
    (P c' out ∨ closed_by c' out ∧ reads (concat (frame_bytes <$> ps) ++ h) ps true)) as Hbad.
  { intros P Hn. exists (close c).1, (close c).2. rewrite <-surjective_pairing. split_and!; [done..|]. right. split; [done|].
    rewrite <-(app_nil_r ps) at 2. apply reads_frames; [done|]. rewrite <-(app_nil_r h). by apply reads_bad. }
  assert (∀ n, 1 ≤ n ≤ kMaxBody → h = header_bytes n → big_to_native16 e = kSofhEncodingSbe ∧ big_to_native32 l = n + 6) as Hv.
  { intros n Hn ->. destruct (header_read n Hn) as (l' & e' & Hl' & He' & ? & ?). by simplify_eq. }
  change (u32 (Z.of_nat kSofhSize)) with 6. change (Z.of_nat kSofhSize) with 6.
  destruct (Z.eqb_spec (big_to_native16 e) kSofhEncodingSbe) as [E|E]; cbn [negb]; [|apply (Hbad (λ c' out, _)); intros n Hn Hhn; by destruct (Hv n Hn Hhn)].
  destruct (Z.leb_spec (big_to_native32 l) 6) as [E1|E1]; [apply (Hbad (λ c' out, _)); intros n Hn Hhn; destruct (Hv n Hn Hhn); lia|].
  destruct (Z.ltb_spec kMaxBody (big_to_native32 l - 6)) as [E2|E2]; [apply (Hbad (λ c' out, _)); intros n Hn Hhn; destruct (Hv n Hn Hhn); lia|].
  eexists _, _. split_and!; [done..|]. left. split_and!; [done| |done].
  repeat (split; [done|]). exists h. split; [done|]. cbn. rewrite app_nil_r. split; [by apply Hf|]. lia.
Qed.

Lemma on_byte_spec input ps c b :
  receiving input ps c →
  ∃ c' out, on_byte c b = Some (c', out) ∧ posted c' = posted c ∧
    ((∃ qs, delivered out = qs ∧ disconnects out = 0%nat ∧ wire out = [] ∧ receiving (input ++ [b]) (ps ++ qs) c' ∧ writes c' = writes c)
     ∨ (closed_by c' out ∧ reads (input ++ [b]) ps true)).
Proof.
  intros (Hc & Hm & Hd & Hps & rest & -> & Hr). unfold on_byte. rewrite <-app_assoc.
  destruct (reading c) as [|got|n got] eqn:Er; [done| |].
  - destruct Hr as [-> Hg]. destruct (Nat.eqb_spec (length (got ++ [b])) kSofhSize) as [E|E].
    + destruct (on_header_spec _ ps c _ Hc Hm Hd Hps eq_refl E) as (c' & out & -> & ? & [(-> & ? & ?)|[? ?]]).
      * exists c', []. split_and!; [done..|]. left. exists []. rewrite app_nil_r. done.
      * exists c', out. auto.
    + eexists _, _. split_and!; [done..|]. left. exists []. rewrite app_nil_r. split_and!; [done..| |done].
      repeat (split; [done|]). exists (got ++ [b]). split; [done|]. cbn. rewrite length_app in *. cbn in *. split; [done|]. unfold kSofhSize in *. lia.
  - destruct Hr as (-> & Hn & Hg). rewrite <-app_assoc. destruct (Z.eqb_spec (Z.of_nat (length (got ++ [b]))) n) as [E|E].
    + eexists _, _. split_and!; [done..|]. left. exists [got ++ [b]]. unfold on_body. rewrite Hm. split_and!; [done..| |done].
      split_and!; [done..| |].
      * apply Forall_app. split; [done|]. apply Forall_singleton. unfold sendable. by rewrite E.
      * exists []. split; [|by unfold kSofhSize; cbn; split; [|lia]].
        rewrite fmap_app, concat_app, app_nil_r. cbn. unfold frame_bytes. by rewrite E, app_nil_r.
    + eexists _, _. split_and!; [done..|]. left. exists []. rewrite app_nil_r. split_and!; [done..| |done].
      repeat (split; [done|]). exists (header_bytes n ++ got ++ [b]). split; [done|]. cbn. split; [done|]. split; [done|].
      rewrite length_app in *. cbn in *. lia.
Qed.

Lemma receive_closed bytes c : reading c = ReadNone → receive c bytes = Some (c, []).
Proof. intros H. induction bytes as [|b bytes IH]; [done|]. cbn. unfold on_byte. rewrite H. cbn. by rewrite IH. Qed.

Lemma receive_spec bytes : ∀ input ps c,
  receiving input ps c →
  ∃ c' out, receive c bytes = Some (c', out) ∧ posted c' = posted c ∧ wire out = [] ∧
    ((disconnects out = 0%nat ∧ receiving (input ++ bytes) (ps ++ delivered out) c' ∧ writes c' = writes c)
     ∨ (disconnects out = 1%nat ∧ closed_ c' = true ∧ reading c' = ReadNone ∧ writes c' = [] ∧ reads (input ++ bytes) (ps ++ delivered out) true)).
Proof.
  induction bytes as [|b bytes IH]; intros input ps c Hc.
  - exists c, []. rewrite !app_nil_r. split_and!; [done..|]. by left.
  - destruct (on_byte_spec _ _ _ b Hc) as (c1 & out & E & Hp & [(qs & Hq & Hn & Hw & Hc1 & Hws)|[(Hcl & Hr & Hws & ->) Hrd]]).
    + destruct (IH _ _ _ Hc1) as (c2 & outs & E2 & Hp2 & Hw2 & H2). exists c2, (out ++ outs). cbn. rewrite E. cbn. rewrite E2.
      autorewrite with tcp. rewrite Hq, Hn, Hw, Hw2. rewrite <-!app_assoc in H2. cbn in H2. rewrite Hws, Hp in *. split_and!; done.
    + exists c1, [OnDisconnect]. cbn. rewrite E. cbn. rewrite receive_closed by done. split_and!; [done..|]. right.
      rewrite app_nil_r. split_and!; [done..|]. change (b :: bytes) with ([b] ++ bytes). rewrite app_assoc. by apply reads_bad_app.
Qed.

(** ** Whole runs *)

(** The bytes that arrive while the connection is open, the payloads given to
    [send], and the events that end a connection. *)
Fixpoint heard (c : TcpConnection) (es : list TcpEvent) : list byte :=
  match es with
  | [] => []
  | e :: es =>
      (match e with TReceive bytes => if closed_ c then [] else bytes | _ => [] end)
      ++ match tcp_step c e with Some (c', _) => heard c' es | None => [] end
  end.
Definition sends (es : list TcpEvent) : list (list byte) := omap (λ e, match e with TSend p => Some p | _ => None end) es.
Definition closing (e : TcpEvent) : bool := match e with TReadError | TWriteError _ | TClose => true | _ => false end.

Lemma frame_Some data : ∃ msg, frame data = Some msg.
Proof.
  unfold frame. set (msg := replicate _ _).
  assert (length msg = kSofhSize + length data)%nat as Hl by apply length_replicate. unfold kSofhSize in *.
  assert (∀ buf o src n, n ≤ length src → o + n ≤ length buf → length buf = length msg → ∃ buf', memcpy_to buf o src n = Some buf' ∧ length buf' = length msg)%nat as Hm.
  { intros buf o src n Hs Hn E. unfold memcpy_to. rewrite decide_True by done. eexists. split; [done|].
    rewrite !length_app, !length_take, length_drop. lia. }
  destruct (Hm msg 0%nat (le_split 4 (native_to_big32 (u32 (Z.of_nat (6 + length data))))) 4%nat) as (m1 & -> & E1); [by rewrite length_le_split|lia..|]. cbn.
  destruct (Hm m1 4%nat (le_split 2 (native_to_big16 kSofhEncodingSbe)) 2%nat) as (m2 & -> & E2); [by rewrite length_le_split|lia..|]. cbn.
  destruct (Hm m2 6%nat data (length data)) as (m3 & -> & _); [lia..|]. by exists m3.
Qed.

Lemma frame_eq data : Z.of_nat (length data) ≤ kMaxBody → frame data = Some (frame_bytes data).
Proof.
  intros Hn. unfold frame, frame_bytes. rewrite <-header_written by lia. unfold kMaxBody in Hn.
  replace (u32 (Z.of_nat (kSofhSize + length data))) with (Z.of_nat (length data) + 6)
    by (rewrite wrapu_small; unfold kSofhSize; lia).
  rewrite replicate_add. cbn [kSofhSize replicate].
  set (l := le_split 4 _). set (e := le_split 2 _). set (z := replicate (length data) _).
  set (z4 := replicate 4 Init.Byte.x00). set (z2 := replicate 2 Init.Byte.x00).
  change ([?a; ?b; ?c; ?d; ?e; ?f] ++ z) with ([] ++ z4 ++ (z2 ++ z)).
  rewrite (memcpy_to_app [] z4 _ l 4 0) by (done || apply length_le_split). cbn [mbind option_bind app].
  rewrite (memcpy_to_app l z2 z e 2 4) by (done || by rewrite ?length_le_split || apply length_le_split). cbn [mbind option_bind].
  rewrite app_assoc, <-(app_nil_r z) at 1.
  rewrite (memcpy_to_app (l ++ e) z [] data (length data) kSofhSize); [by rewrite app_nil_r| |done|].
  - apply length_replicate.
  - unfold l, e. by rewrite length_app, !length_le_split.
Qed.

(** Nothing comes out of a connection that is closed. *)
Definition is_closed (c : TcpConnection) : Prop := closed_ c = true ∧ reading c = ReadNone ∧ writes c = [].

Lemma closed_step c e : is_closed c → ∃ c', tcp_step c e = Some (c', []) ∧ is_closed c'.
Proof.
  intros (Hc & Hr & Hw). destruct e as [bs|data| |i n| |i|]; cbn [tcp_step].
  - rewrite receive_closed by done. by eexists.
  - unfold send. destruct (frame_Some data) as [msg ->]. by eexists.
  - eexists. split; [done|]. unfold strand, is_closed. destruct (posted c); [done|]. cbn. by rewrite Hc.
  - unfold write_some. rewrite Hw, lookup_nil. by eexists.
  - unfold read_error. rewrite Hr. by eexists.
  - unfold write_error. rewrite Hw, lookup_nil. by eexists.
  - unfold close. rewrite Hc. by eexists.
Qed.

Lemma closed_run es : ∀ c, is_closed c → ∃ c', tcp_run c es = Some (c', []) ∧ is_closed c' ∧ heard c es = [].
Proof.
  induction es as [|e es IH]; intros c Hc; [by exists c|].
  destruct (closed_step c e Hc) as (c1 & E & H1). destruct (IH c1 H1) as (c2 & E2 & H2 & Hh).
  exists c2. cbn. rewrite E. cbn. rewrite E2, Hh. split_and!; [done..|]. rewrite app_nil_r. destruct Hc as (-> & _). by destruct e.
Qed.

Lemma closed_by_is_closed c out : closed_by c out → is_closed c ∧ disconnects out = 1%nat ∧ delivered out = [] ∧ wire out = [].
Proof. by intros (? & ? & ? & ->). Qed.

Lemma receiving_writes input ps c p w : receiving input ps c → receiving input ps (set_writes p w c).
Proof. done. Qed.

(** One event of an open connection, its reading side. *)
Lemma open_step input ps c e :
  receiving input ps c →
  ∃ c' out, tcp_step c e = Some (c', out) ∧
    let input' := input ++ match e with TReceive bytes => bytes | _ => [] end in
    (disconnects out = 0%nat ∧ receiving input' (ps ++ delivered out) c')
    ∨ (disconnects out = 1%nat ∧ is_closed c' ∧ wire out = [] ∧ ∃ bad, reads input' (ps ++ delivered out) bad ∧ (closing e = false → bad = true)).
Proof.
  intros H. pose proof H as (Hc & _ & Hd & _).
  assert (∀ p w, ∃ c' out, Some (close (set_writes p w c)) = Some (c', out) ∧
    (disconnects out = 0%nat ∧ receiving (input ++ []) (ps ++ delivered out) c'
     ∨ disconnects out = 1%nat ∧ is_closed c' ∧ wire out = [] ∧ ∃ bad, reads (input ++ []) (ps ++ delivered out) bad ∧ (true = false → bad = true))) as Hclose.
  { intros p w. destruct (close_open (set_writes p w c)) as [(Hk & Hk1 & Hk2 & Hk3) _]; [done..|]. eexists _, _. rewrite <-surjective_pairing. split; [done|]. right.
    rewrite Hk3, !app_nil_r. split_and!; [done..|]. exists false. by split; [eapply receiving_reads|]. }
  destruct e as [bs|data| |i n| |i|]; cbn [tcp_step closing].
  - destruct (receive_spec bs _ _ _ H) as (c' & out & -> & _ & Hw & [(? & ? & _)|(? & ? & ? & ? & ?)]); exists c', out; (split; [done|]); [by left|].
    right. split_and!; [done..|]. by exists true.
  - unfold send. destruct (frame_Some data) as [msg ->]. eexists _, []. split; [done|]. left. by rewrite !app_nil_r.
  - eexists _, []. split; [done|]. left. rewrite !app_nil_r. split; [done|]. unfold strand. by destruct (posted c).
  - unfold write_some. destruct (writes c !! i); eexists _, _; (split; [done|]); left; by rewrite !app_nil_r.
  - unfold read_error. destruct (reading c) eqn:Er; [|by destruct c; apply Hclose..].
    eexists _, []. split; [done|]. left. by rewrite !app_nil_r.
  - unfold write_error. destruct (writes c !! i); [by apply Hclose|]. eexists _, []. split; [done|]. left. by rewrite !app_nil_r.
  - by destruct c; apply Hclose.
Qed.

Lemma open_run es : ∀ input ps c,
  receiving input ps c →
  ∃ c' outs bad, tcp_run c es = Some (c', outs) ∧ reads (input ++ heard c es) (ps ++ delivered outs) bad ∧
    disconnects outs = (if closed_ c' then 1 else 0)%nat ∧ (bad = true → closed_ c' = true) ∧
    (Forall (λ e, closing e = false) es → bad = closed_ c').
Proof.
  induction es as [|e es IH]; intros input ps c H.
  - exists c, [], false. rewrite !app_nil_r. pose proof H as (Hc & _). rewrite Hc. split_and!; [done| |done..]. by eapply receiving_reads.
  - destruct (open_step _ _ _ e H) as (c1 & out & E & [[Hn H1]|(Hn & Hcl & _ & bad & Hr & Hb)]).
    + destruct (IH _ _ _ H1) as (c2 & outs & bad & E2 & Hr & Hd & Hb & Hf). exists c2, (out ++ outs), bad.
      cbn [tcp_run heard]. rewrite E. cbn [mbind option_bind]. rewrite E2. cbn. autorewrite with tcp. rewrite Hn, Hd.
      destruct H as (Hc & _). rewrite <-!app_assoc in Hr. split_and!; [done| |done..|by intros [??]%Forall_cons_1; auto].
      rewrite Hc. by destruct e.
    + destruct (closed_run es c1 Hcl) as (c2 & E2 & Hc2 & Hh). exists c2, (out ++ []), bad.
      cbn [tcp_run heard]. rewrite E. cbn [mbind option_bind]. rewrite E2, Hh. cbn. rewrite !app_nil_r. destruct Hc2 as (-> & _).
      destruct H as (Hc & _). rewrite Hc. split_and!; [done| |done..|intros [??]%Forall_cons_1; auto].
      by destruct e.
Qed.

Lemma start_receiving : receiving [] [] (start TcpConnection_init).
Proof. repeat (split; [done|]). exists []. split; [done|]. cbn. split; [done|]. unfold kSofhSize. lia. Qed.

(** A stream reads in one way only. *)
Lemma header_bytes_inj n m : 1 ≤ n ≤ kMaxBody → 1 ≤ m ≤ kMaxBody → header_bytes n = header_bytes m → n = m.
Proof.
  intros Hn Hm E. destruct (header_read n Hn) as (l & e & Hl & _ & H1 & _), (header_read m Hm) as (l' & e' & Hl' & _ & H2 & _).
  rewrite E in Hl. simplify_eq. lia.
Qed.

Lemma header_app_inj n m s t : 1 ≤ n ≤ kMaxBody → 1 ≤ m ≤ kMaxBody → header_bytes n ++ s = header_bytes m ++ t → n = m ∧ s = t.
Proof.
  intros Hn Hm [E ->]%app_inj_1; [|by rewrite !header_bytes_length]. split; [|done]. by apply header_bytes_inj.
Qed.

Lemma reads_short_inv s ps bad : reads s ps bad → (length s < kSofhSize)%nat → ps = [] ∧ bad = false.
Proof.
  intros H. destruct H; intros Hl; [done|..]; exfalso; unfold frame_bytes in Hl;
    rewrite ?length_app, ?header_bytes_length in Hl; lia.
Qed.

Lemma reads_bad_inv h s ps bad : reads (h ++ s) ps bad → length h = kSofhSize → (∀ n, 1 ≤ n ≤ kMaxBody → h ≠ header_bytes n) → ps = [] ∧ bad = true.
Proof.
  remember (h ++ s) as x eqn:E. intros H Hh Hbad. destruct H as [s' Hs|n s' Hn Hs|h' s' Hh' Hbad'|p s' ps' bad' Hp Hr]; [|exfalso|done|exfalso].
  - rewrite E, length_app in Hs. lia.
  - apply app_inj_1 in E as [<- _]; [by eapply Hbad|by rewrite header_bytes_length].
  - unfold frame_bytes in E. rewrite <-app_assoc in E. apply app_inj_1 in E as [<- _]; [by eapply Hbad|by rewrite header_bytes_length].
Qed.

Lemma reads_valid_inv n t ps bad : reads (header_bytes n ++ t) ps bad → 1 ≤ n ≤ kMaxBody →
  (Z.of_nat (length t) < n ∧ ps = [] ∧ bad = false)
  ∨ ∃ p s qs, t = p ++ s ∧ Z.of_nat (length p) = n ∧ ps = p :: qs ∧ reads s qs bad.
Proof.
  remember (header_bytes n ++ t) as x eqn:E. intros H Hn. destruct H as [s' Hs|m s' Hm Hs|h' s' Hh' Hbad'|p s' ps' bad' Hp Hr].
  - exfalso. rewrite E, length_app, header_bytes_length in Hs. lia.
  - apply header_app_inj in E as [-> ->]; [|done..]. by left.
  - exfalso. apply app_inj_1 in E as [-> _]; [by eapply Hbad'|by rewrite header_bytes_length].
  - unfold frame_bytes in E. rewrite <-app_assoc in E. apply header_app_inj in E as [E <-]; [|done..]. right. by exists p, s', ps'.
Qed.

Lemma reads_det s ps bad : reads s ps bad → ∀ ps' bad', reads s ps' bad' → ps' = ps ∧ bad' = bad.
Proof.
  intros H. induction H as [s Hs|n s Hn Hs|h s Hh Hbad|p s ps bad Hp Hr IH]; intros ps' bad' H'.
  - by apply (reads_short_inv s).
  - destruct (reads_valid_inv _ _ _ _ H' Hn) as [?|(p & t & qs & -> & Hp & _)]; [naive_solver|]. rewrite length_app in Hs. lia.
  - by apply (reads_bad_inv h s).
  - unfold frame_bytes in H'. rewrite <-app_assoc in H'.
    destruct (reads_valid_inv _ _ _ _ H' Hp) as [[Hl _]|(p' & t & qs & E & Hl & -> & Hr')]; [rewrite length_app in Hl; lia|].
    apply app_inj_1 in E as [-> ->]; [|lia]. by destruct (IH _ _ Hr') as [-> ->].
Qed.

(** ** The sending side *)

(** Every handler that starts a write runs when the write before it has ended. *)
Fixpoint exclusive (c : TcpConnection) (es : list TcpEvent) : Prop :=
  match es with
  | [] => True
  | e :: es =>
      (e = TStrand → writes c = []) ∧ match tcp_step c e with Some (c', _) => exclusive c' es | None => True end
  end.

(** What the connection still has to write. *)
Definition unwritten (c : TcpConnection) : list byte := concat (writes c) ++ concat (posted c).

Lemma sending_step input ps c e :
  receiving input ps c → (length (writes c) ≤ 1)%nat → (e = TStrand → writes c = []) → Forall sendable (sends [e]) →
  ∃ c' out, tcp_step c e = Some (c', out) ∧
    (closed_ c' = false → (length (writes c') ≤ 1)%nat ∧ unwritten c ++ concat (frame_bytes <$> sends [e]) = wire out ++ unwritten c').
Proof.
  intros H Hw He Hp. destruct e as [bs|data| |i n| |i|]; cbn [tcp_step sends omap list_omap fmap list_fmap concat]; rewrite ?app_nil_r.
  - destruct (receive_spec bs _ _ _ H) as (c' & out & -> & Hpo & Hwi & [(? & ? & Hws)|(? & Hc & _)]); exists c', out; (split; [done|]); [|congruence].
    unfold unwritten. by rewrite Hwi, Hws, Hpo.
  - unfold send. change (sends [TSend data]) with [data] in Hp. rewrite Forall_singleton in Hp. rewrite frame_eq by apply Hp. eexists _, []. split; [done|]. intros _. split; [done|].
    unfold unwritten. cbn. by rewrite concat_app, <-app_assoc; cbn; rewrite ?app_nil_r.
  - eexists _, []. split; [done|]. intros _. destruct H as (Hc & _). unfold strand, unwritten. rewrite (He eq_refl) in *.
    destruct (posted c) eqn:Ep; [by rewrite Ep, (He eq_refl)|]. cbn. rewrite Hc. cbn. by rewrite ?app_nil_r.
  - unfold write_some. destruct (writes c) as [|w [|]] eqn:Ew; [by eexists _, []; rewrite ?lookup_nil, ?Ew| |cbn in Hw; lia].
    destruct i; cbn; [|by eexists _, []; rewrite ?Ew]. eexists _, [_]. split; [done|]. intros _.
    unfold unwritten, wire. rewrite Ew. cbn. destruct (drop n w) eqn:Ed; cbn; rewrite ?app_nil_r; (split; [lia|]); rewrite <-(take_drop n w) at 1; rewrite Ed; rewrite ?app_nil_r, <-?app_assoc; done.
  - eexists _, _. rewrite <-surjective_pairing. split; [done|]. unfold read_error, close. destruct (reading c), (closed_ c) eqn:Ec; cbn; rewrite ?Ec; try done; destruct (on_disconnect_ c); done.
  - eexists _, _. rewrite <-surjective_pairing. split; [done|]. unfold write_error, close. destruct H as (Hc & _). destruct (writes c !! i); cbn; by rewrite ?Hc.
  - eexists _, _. rewrite <-surjective_pairing. split; [done|]. unfold close. destruct H as (Hc & _). by rewrite Hc.
Qed.

Lemma sending_run es : ∀ input ps c,
  receiving input ps c → (length (writes c) ≤ 1)%nat → exclusive c es → Forall sendable (sends es) →
  ∃ c' outs, tcp_run c es = Some (c', outs) ∧
    wire outs `prefix_of` unwritten c ++ concat (frame_bytes <$> sends es) ∧
    (closed_ c' = false → unwritten c ++ concat (frame_bytes <$> sends es) = wire outs ++ unwritten c').
Proof.
  induction es as [|e es IH]; intros input ps c H Hw Hx Hp.
  - exists c, []. cbn. rewrite app_nil_r. split_and!; [done| |done]. apply prefix_nil.
  - assert (sends (e :: es) = sends [e] ++ sends es) as Es by (by destruct e). rewrite Es in Hp |- *. apply Forall_app in Hp as [Hp1 Hp2].
    destruct Hx as [He Hx]. cbn [tcp_run].
    destruct (sending_step _ _ _ e H Hw He Hp1) as (c1 & out & E & Hs).
    destruct (open_step _ _ _ e H) as (c1' & out' & E' & Ho). rewrite E in E'. simplify_eq. rewrite E in Hx |- *.
    cbn [mbind option_bind]. rewrite fmap_app, concat_app, app_assoc.
    destruct Ho as [[_ H1]|(_ & Hcl & Hwo & _)].
    + pose proof H1 as (Hc1 & _). destruct (Hs Hc1) as [Hw1 ->].
      destruct (IH _ _ _ H1 Hw1 Hx Hp2) as (c2 & outs & E2 & Hpre & Heq). rewrite E2.
      exists c2, (out' ++ outs). rewrite wire_app, <-!app_assoc. split; [done|]. split; [by apply prefix_app|]. intros Hc. by rewrite Heq.
    + destruct (closed_run es c1' Hcl) as (c2 & -> & (Hc2 & _) & _). exists c2, (out' ++ []). rewrite wire_app, Hwo. cbn.
      split; [done|]. split; [apply prefix_nil|]. congruence.
Qed.

(** Reading a prefix of a sequence of frames gives a prefix of their payloads. *)
Lemma reads_prefix s ps : Forall sendable ps → s `prefix_of` concat (frame_bytes <$> ps) →
  ∃ qs, reads s qs false ∧ qs `prefix_of` ps ∧ (s = concat (frame_bytes <$> ps) → qs = ps).
Proof.
  intros Hps. revert s. induction Hps as [|p ps Hp Hps IH]; intros s Hs.
  - apply prefix_nil_inv in Hs as ->. exists []. split_and!; [apply reads_short; unfold kSofhSize; cbn; lia|done..].
  - cbn in Hs. destruct Hs as [t Ht].
    destruct (decide (length (frame_bytes p) ≤ length s)%nat) as [Hl|Hl].
    + assert (s = frame_bytes p ++ drop (length (frame_bytes p)) s) as Es.
      { rewrite <-(take_drop (length (frame_bytes p)) s) at 1. f_equal.
        transitivity (take (length (frame_bytes p)) (s ++ t)); [by rewrite take_app_le|]. by rewrite <-Ht, take_app_length. }
      set (s' := drop _ s) in *. clearbody s'. subst s. rewrite <-app_assoc in Ht. apply app_inv_head in Ht.
      destruct (IH s') as (qs & Hr & Hq & Hd); [by exists t|]. exists (p :: qs).
      split_and!; [by apply reads_frame|by apply prefix_cons|]. intros E. cbn in E. apply app_inv_head in E. by rewrite Hd.
    + exists []. split_and!; [|apply prefix_nil|].
      * assert (s = take (length s) (frame_bytes p)) as Es.
        { transitivity (take (length s) (s ++ t)); [by rewrite take_app_length|]. rewrite <-Ht. apply take_app_le. lia. }
        unfold frame_bytes in Es, Hl. rewrite length_app, header_bytes_length in Hl.
        destruct (decide (length s < kSofhSize)%nat) as [Hs'|Hs']; [by apply reads_short|].
        rewrite take_app_ge in Es by (rewrite header_bytes_length; lia). rewrite Es.
        apply reads_partial; [done|]. rewrite length_take, header_bytes_length. lia.
      * intros ->. exfalso. apply Hl. cbn. rewrite length_app. lia.
Qed.

(** ** Theorems *)

(** C29: whatever is sent, written or closed in between, a started connection
    never fails, hands its owner exactly the payloads of the complete frames in
    the bytes it has heard, in order and however the bytes were cut up, and
    reports the disconnection once, when it closes. Without an error and without
    a call of [close] it closes exactly when a header is not that of a frame with
    a payload of 1 to 65536 bytes. *)
Theorem tcp_reassembles es :
  ∃ c outs bad, tcp_run (start TcpConnection_init) es = Some (c, outs) ∧
    reads (heard (start TcpConnection_init) es) (delivered outs) bad ∧
    (∀ ps' bad', reads (heard (start TcpConnection_init) es) ps' bad' → ps' = delivered outs ∧ bad' = bad) ∧
    disconnects outs = (if closed_ c then 1 else 0)%nat ∧ (bad = true → closed_ c = true) ∧
    (Forall (λ e, closing e = false) es → bad = closed_ c).
Proof.
  destruct (open_run es [] [] _ start_receiving) as (c & outs & bad & Hrun & Hr & Hd & Hb & Hc).
  exists c, outs, bad. split_and!; [done|done|by apply reads_det|done..].
Qed.

(** C30: what one connection writes for its [send] calls, read by another one in
    pieces of any size, is delivered as the payloads sent, in order: a prefix of
    them at any moment, all of them once everything is written and read. No write
    may start before the one before it has ended. *)
Theorem tcp_roundtrip es es' c outs :
  tcp_run (start TcpConnection_init) es = Some (c, outs) →
  exclusive (start TcpConnection_init) es → Forall sendable (sends es) →
  heard (start TcpConnection_init) es' `prefix_of` wire outs → Forall (λ e, closing e = false) es' →
  ∃ c' outs', tcp_run (start TcpConnection_init) es' = Some (c', outs') ∧ closed_ c' = false ∧
    delivered outs' `prefix_of` sends es ∧
    (closed_ c = false → unwritten c = [] → heard (start TcpConnection_init) es' = wire outs → delivered outs' = sends es).
Proof.
  intros Hrun Hx Hp Hh Hn.
  destruct (sending_run es [] [] _ start_receiving) as (c0 & outs0 & E & Hpre & Heq); [cbn; lia|done..|].
  rewrite Hrun in E. simplify_eq. cbn [unwritten start set_reading do_read_header TcpConnection_init writes posted concat app] in *.
  destruct (open_run es' [] [] _ start_receiving) as (c' & outs' & bad & E' & Hr & _ & _ & Hb). cbn [app] in Hr.
  destruct (reads_prefix (heard (start TcpConnection_init) es') (sends es)) as (qs & Hq & Hqp & Hqe); [done|by etrans|].
  destruct (reads_det _ _ _ Hq _ _ Hr) as [Hd Hbad]. exists c', outs'. rewrite Hd. split_and!; [done|by rewrite <-Hb|done|].
  intros Hc Hu Hhe. apply Hqe. rewrite Hhe, (Heq Hc), Hu. by rewrite app_nil_r.
Qed.

Lemma tcp_roundtrip_witness :
  let p1 := [byte.of_Z 1] in let p2 := [byte.of_Z 2; byte.of_Z 3] in
  let es := [TSend p1; TSend p2; TStrand; TWriteSome 0 3; TWriteSome 0 9; TStrand; TWriteSome 0 9] in
  let stream := frame_bytes p1 ++ frame_bytes p2 in
  let es' := [TReceive (take 2 stream); TReceive (take 6 (drop 2 stream)); TReceive (drop 8 stream)] in
  ∃ c' outs', tcp_run (start TcpConnection_init) es' = Some (c', outs') ∧ delivered outs' = [p1; p2].
Proof.
  intros p1 p2 es stream es'.
  destruct (tcp_run (start TcpConnection_init) es) as [[c outs]|] eqn:E; [|by vm_compute in E].
  destruct (tcp_roundtrip es es' c outs E) as (c' & outs' & E' & _ & _ & Hd).
  - vm_compute. split_and!; try done.
  - vm_compute. repeat constructor; done.
  - vm_compute in E. simplify_eq. by exists [].
  - repeat constructor.
  - exists c', outs'. split; [exact E'|]. vm_compute in E. simplify_eq. by apply Hd.
Defined.

(** Two sends whose writes overlap: the socket takes three bytes of the first
    frame, then the whole second one. The reader sees a header that is none. *)
Example overlapping_writes_garble :
  let p := [byte.of_Z 1] in
  let es := [TSend p; TSend p; TStrand; TStrand; TWriteSome 0 3; TWriteSome 1 7; TWriteSome 0 4] in
  match tcp_run (start TcpConnection_init) es with
  | Some (c, outs) =>
      unwritten c = [] ∧ closed_ c = false ∧
      match tcp_run (start TcpConnection_init) [TReceive (wire outs)] with
      | Some (c', outs') => delivered outs' = [] ∧ closed_ c' = true
      | None => False
      end
  | None => False
  end.
Proof. vm_compute. split_and!; reflexivity. Qed.
