(* ===== verification/Config.v ===== *)
(** * Configuration (src/config/exchange_config.h, src/config/channel_config.h,
    src/config/config_loader.cpp)

    The configuration record with its defaults, the checks of [validateConfig] and
    the loading of a YAML file. The YAML library is a parameter: a type of nodes
    with the queries and conversions the loader calls; a conversion or the parser
    may throw. A C++ exception is the left value of a sum. *)
From Stdlib Require Import Floats.SpecFloat.
From stdpp Require Import pretty.
From S2P Require Import Prelude Types Instrument InstrumentManager Risk.

(** A decimal literal, rounded to the nearest double: the correctly rounded
    quotient of two exact doubles. *)
Definition double_of (m : Z) : double := binary_normalize 53 1024 m 0 false.
Definition decimal (m k : Z) : double := SFdiv 53 1024 (double_of m) (double_of (10 ^ k)).

Record NetworkConfig := mkNetworkConfig {
  tcp_listen_address : string;
  tcp_listen_port : Z;
  multicast_base_address : string;
  multicast_base_port : Z;
  io_threads : Z;
}.
Record EngineConfig := mkEngineConfig {
  mode : string;
  pcap_path : string;
  synthetic_fill_probability : double;
  synthetic_fill_latency_ns : Z;
}.
Record SessionConfig := mkSessionConfig {
  hmac_enabled : bool;
  hmac_key : string;
  cfg_keep_alive_interval_ms : Z;
  max_sessions : Z;
  retransmit_buffer_size : Z;
}.
Record ExchangeConfig := mkExchangeConfig {
  network : NetworkConfig;
  channels : list ChannelConfig;
  instruments : list InstrumentConfig;
  engine_config : EngineConfig;
  risk : RiskConfig;
  session : SessionConfig;
  log_level : string;
}.

(** ** Exceptions *)
Inductive exception := ConfigValidationError (what : string) | YamlException.
Definition outcome (A : Type) : Type := exception + A.
#[export] Instance outcome_ret : MRet outcome := λ A a, inr a.
#[export] Instance outcome_bind : MBind outcome := λ A B k m, match m with inl e => inl e | inr a => k a end.

Module ConfigOps.

(** ** Defaults *)
Definition NetworkConfig_init : NetworkConfig := mkNetworkConfig "0.0.0.0" 9563 "239.1.1" 14310 2.
Definition FeedConfig_init : FeedConfig := mkFeed "" 0 "" 0.
Definition ChannelConfig_init : ChannelConfig := mkChannelConfig 0 "" FeedConfig_init FeedConfig_init FeedConfig_init [].
Definition InstrumentConfig_init : InstrumentConfig :=
  mkInstrumentConfig "" 0 0 (decimal 0 0) (decimal 0 0) (decimal 0 0) 1 10000 "" (decimal 1 2).
Definition EngineConfig_init : EngineConfig := mkEngineConfig "full_matching" "" (decimal 1 0) 1000.
Definition RiskConfig_init : RiskConfig := mkRiskConfig 10000 (decimal 10 0) 1000 50000.
Definition SessionConfig_init : SessionConfig := mkSessionConfig false "test_key" 30000 100 10000.
Definition ExchangeConfig_init : ExchangeConfig :=
  mkExchangeConfig NetworkConfig_init [] [] EngineConfig_init RiskConfig_init SessionConfig_init "info".

Definition createDefaultChannels : list ChannelConfig :=
  [mkChannelConfig 310 "ES/MES" (mkFeed "239.1.1.1" 14310 "239.1.1.4" 14310) (mkFeed "239.1.1.2" 15310 "239.1.1.5" 15310) (mkFeed "239.1.1.3" 16310 "239.1.1.6" 16310)
     ["ESH5"%string; "ESM5"%string; "MESH5"%string; "MESM5"%string];
   mkChannelConfig 311 "NQ/MNQ" (mkFeed "239.1.1.1" 14311 "239.1.1.4" 14311) (mkFeed "239.1.1.2" 15311 "239.1.1.5" 15311) (mkFeed "239.1.1.3" 16311 "239.1.1.6" 16311)
     ["NQH5"%string; "NQM5"%string; "MNQH5"%string; "MNQM5"%string];
   mkChannelConfig 312 "YM/MYM" (mkFeed "239.1.1.1" 14312 "239.1.1.4" 14312) (mkFeed "239.1.1.2" 15312 "239.1.1.5" 15312) (mkFeed "239.1.1.3" 16312 "239.1.1.6" 16312)
     ["YMH5"%string; "YMM5"%string; "MYMH5"%string; "MYMM5"%string];
   mkChannelConfig 313 "RTY/M2K" (mkFeed "239.1.1.1" 14313 "239.1.1.4" 14313) (mkFeed "239.1.1.2" 15313 "239.1.1.5" 15313) (mkFeed "239.1.1.3" 16313 "239.1.1.6" 16313)
     ["RTYH5"%string; "RTYM5"%string; "M2KH5"%string; "M2KM5"%string]].
Definition createDefaultInstruments : list InstrumentConfig :=
  [mkInstrumentConfig "ESH5" 1 310 (decimal 25 2) (decimal 500 1) (decimal 1250 2) 1 10000 "202503" (decimal 1 2);
   mkInstrumentConfig "ESM5" 2 310 (decimal 25 2) (decimal 500 1) (decimal 1250 2) 1 10000 "202506" (decimal 1 2);
   mkInstrumentConfig "MESH5" 3 310 (decimal 25 2) (decimal 50 1) (decimal 125 2) 1 10000 "202503" (decimal 1 2);
   mkInstrumentConfig "MESM5" 4 310 (decimal 25 2) (decimal 50 1) (decimal 125 2) 1 10000 "202506" (decimal 1 2);
   mkInstrumentConfig "NQH5" 5 311 (decimal 25 2) (decimal 200 1) (decimal 500 2) 1 10000 "202503" (decimal 1 2);
   mkInstrumentConfig "NQM5" 6 311 (decimal 25 2) (decimal 200 1) (decimal 500 2) 1 10000 "202506" (decimal 1 2);
   mkInstrumentConfig "MNQH5" 7 311 (decimal 25 2) (decimal 20 1) (decimal 50 2) 1 10000 "202503" (decimal 1 2);
   mkInstrumentConfig "MNQM5" 8 311 (decimal 25 2) (decimal 20 1) (decimal 50 2) 1 10000 "202506" (decimal 1 2);
   mkInstrumentConfig "YMH5" 9 312 (decimal 100 2) (decimal 50 1) (decimal 500 2) 1 10000 "202503" (decimal 1 2);
   mkInstrumentConfig "YMM5" 10 312 (decimal 100 2) (decimal 50 1) (decimal 500 2) 1 10000 "202506" (decimal 1 2);
   mkInstrumentConfig "MYMH5" 11 312 (decimal 100 2) (decimal 5 1) (decimal 50 2) 1 10000 "202503" (decimal 1 2);
   mkInstrumentConfig "MYMM5" 12 312 (decimal 100 2) (decimal 5 1) (decimal 50 2) 1 10000 "202506" (decimal 1 2);
   mkInstrumentConfig "RTYH5" 13 313 (decimal 10 2) (decimal 500 1) (decimal 500 2) 1 10000 "202503" (decimal 1 2);
   mkInstrumentConfig "RTYM5" 14 313 (decimal 10 2) (decimal 500 1) (decimal 500 2) 1 10000 "202506" (decimal 1 2);
   mkInstrumentConfig "M2KH5" 15 313 (decimal 10 2) (decimal 50 1) (decimal 50 2) 1 10000 "202503" (decimal 1 2);
   mkInstrumentConfig "M2KM5" 16 313 (decimal 10 2) (decimal 50 1) (decimal 50 2) 1 10000 "202506" (decimal 1 2)].
Definition createDefaultConfig : ExchangeConfig :=
  mkExchangeConfig NetworkConfig_init createDefaultChannels createDefaultInstruments EngineConfig_init RiskConfig_init
    SessionConfig_init "info".

(** ** Validation *)
Definition throw_if (b : bool) (what : string) : outcome unit := if b then inl (ConfigValidationError what) else inr tt.

Fixpoint validate_channels (channel_ids : gset Z) (chs : list ChannelConfig) : outcome (gset Z) :=
  match chs with
  | [] => inr channel_ids
  | ch :: chs =>
      _ ← throw_if (cc_channel_id ch <=? 0) "channel_id must be positive";
      _ ← throw_if (bool_decide (cc_channel_id ch ∈ channel_ids)) ("Duplicate channel_id: " +:+ pretty (cc_channel_id ch));
      _ ← throw_if (bool_decide (cc_symbols ch = [])) ("Channel " +:+ pretty (cc_channel_id ch) +:+ " has no symbols");
      validate_channels ({[cc_channel_id ch]} ∪ channel_ids) chs
  end.

Fixpoint validate_instruments (channels : list ChannelConfig) (channel_ids : gset Z) (security_ids : gset Z) (symbols : gset string)
    (insts : list InstrumentConfig) : outcome unit :=
  match insts with
  | [] => inr tt
  | inst :: insts =>
      _ ← throw_if (bool_decide (ic_symbol inst = "")) "Instrument symbol cannot be empty";
      _ ← throw_if (bool_decide (ic_symbol inst ∈ symbols)) ("Duplicate instrument symbol: " +:+ ic_symbol inst);
      _ ← throw_if (ic_security_id inst <=? 0) ("security_id must be positive for " +:+ ic_symbol inst);
      _ ← throw_if (bool_decide (ic_security_id inst ∈ security_ids)) ("Duplicate security_id: " +:+ pretty (ic_security_id inst));
      _ ← throw_if (SFleb (ic_tick_size inst) (decimal 0 0)) ("tick_size must be positive for " +:+ ic_symbol inst);
      _ ← throw_if (SFleb (ic_contract_multiplier inst) (decimal 0 0)) ("contract_multiplier must be positive for " +:+ ic_symbol inst);
      _ ← throw_if (ic_min_trade_vol inst <=? 0) ("min_trade_vol must be positive for " +:+ ic_symbol inst);
      _ ← throw_if (ic_max_trade_vol inst <? ic_min_trade_vol inst) ("max_trade_vol must be >= min_trade_vol for " +:+ ic_symbol inst);
      _ ← throw_if (negb (bool_decide (ic_channel_id inst ∈ channel_ids)) && negb (bool_decide (channels = [])))
        ("Instrument " +:+ ic_symbol inst +:+ " references unknown channel_id " +:+ pretty (ic_channel_id inst));
      validate_instruments channels channel_ids ({[ic_security_id inst]} ∪ security_ids) ({[ic_symbol inst]} ∪ symbols) insts
  end.

Definition valid_levels : list string := ["trace"; "debug"; "info"; "warn"; "error"; "critical"; "off"]%string.

Definition validateConfig (config : ExchangeConfig) : outcome unit :=
  let net := network config in
  let eng := engine_config config in
  _ ← throw_if (tcp_listen_port net =? 0) "TCP listen port must be non-zero";
  _ ← throw_if (io_threads net <? 1) "io_threads must be at least 1";
  _ ← throw_if (negb (bool_decide (mode eng = "full_matching")) && negb (bool_decide (mode eng = "synthetic")))
    ("engine.mode must be 'full_matching' or 'synthetic', got: " +:+ mode eng);
  _ ← throw_if (bool_decide (mode eng = "synthetic") && bool_decide (pcap_path eng = "")) "pcap_path is required when engine mode is 'synthetic'";
  _ ← throw_if (SFltb (synthetic_fill_probability eng) (decimal 0 0) || SFltb (decimal 1 0) (synthetic_fill_probability eng))
    "synthetic_fill_probability must be between 0.0 and 1.0";
  _ ← throw_if (max_order_qty (risk config) <=? 0) "max_order_qty must be positive";
  _ ← throw_if (SFleb (max_price_deviation_pct (risk config)) (decimal 0 0)) "max_price_deviation_pct must be positive";
  _ ← throw_if (max_orders_per_second (risk config) <=? 0) "max_orders_per_second must be positive";
  _ ← throw_if (max_sessions (session config) <=? 0) "max_sessions must be positive";
  _ ← throw_if (retransmit_buffer_size (session config) <=? 0) "retransmit_buffer_size must be positive";
  channel_ids ← validate_channels ∅ (channels config);
  _ ← validate_instruments (channels config) channel_ids ∅ ∅ (instruments config);
  throw_if (negb (bool_decide (log_level config ∈ valid_levels)))
    ("Invalid log_level: " +:+ log_level config +:+ ". Must be one of: trace, debug, info, warn, error, critical, off").

(** ** Loading *)

(** What the loader uses of the YAML library. *)
Record YamlApi (node : Type) := mkYaml {
  y_get : node → string → node;
  y_defined : node → bool;
  y_is_map : node → bool;
  y_is_sequence : node → bool;
  y_items : node → list node;
  y_as_string : node → outcome string;
  y_as_int : node → outcome Z;
  y_as_int32 : node → outcome Z;
  y_as_uint16 : node → outcome Z;
  y_as_uint32 : node → outcome Z;
  y_as_int64 : node → outcome Z;
  y_as_uint64 : node → outcome Z;
  y_as_double : node → outcome double;
  y_as_bool : node → outcome bool;
}.
Arguments y_get {_}. Arguments y_defined {_}. Arguments y_is_map {_}. Arguments y_is_sequence {_}. Arguments y_items {_}.
Arguments y_as_string {_}. Arguments y_as_int {_}. Arguments y_as_int32 {_}. Arguments y_as_uint16 {_}. Arguments y_as_uint32 {_}.
Arguments y_as_int64 {_}. Arguments y_as_uint64 {_}. Arguments y_as_double {_}. Arguments y_as_bool {_}.

Section load.
Context {node : Type} (y : YamlApi node).

(** [if (node[key]) field = node[key].as<T>()]. *)
Definition field {A} (n : node) (key : string) (as_T : node → outcome A) (default : A) : outcome A :=
  if y_defined y (y_get y n key) then as_T (y_get y n key) else inr default.
Definition is_usable_map (n : node) : bool := y_defined y n && y_is_map y n.

Fixpoint traverse {A} (f : node → outcome A) (ns : list node) : outcome (list A) :=
  match ns with
  | [] => inr []
  | n :: ns => a ← f n; l ← traverse f ns; inr (a :: l)
  end.

Definition parseFeed (n : node) : outcome FeedConfig :=
  if negb (is_usable_map n) then inr FeedConfig_init else
  address_a ← field n "address_a" (y_as_string y) "";
  port_a ← field n "port_a" (y_as_uint16 y) 0;
  address_b ← field n "address_b" (y_as_string y) "";
  port_b ← field n "port_b" (y_as_uint16 y) 0;
  inr (mkFeed address_a port_a address_b port_b).

Definition parseChannel (n : node) : outcome ChannelConfig :=
  channel_id ← field n "channel_id" (y_as_int y) 0;
  name ← field n "name" (y_as_string y) "";
  incremental_feed ← field n "incremental_feed" parseFeed FeedConfig_init;
  snapshot_feed ← field n "snapshot_feed" parseFeed FeedConfig_init;
  instrument_def_feed ← field n "instrument_def_feed" parseFeed FeedConfig_init;
  let syms := y_get y n "symbols" in
  symbols ← (if y_defined y syms && y_is_sequence y syms then traverse (y_as_string y) (y_items y syms) else inr []);
  inr (mkChannelConfig channel_id name incremental_feed snapshot_feed instrument_def_feed symbols).

Definition parseInstrument (n : node) : outcome InstrumentConfig :=
  symbol ← field n "symbol" (y_as_string y) "";
  security_id ← field n "security_id" (y_as_int32 y) 0;
  channel_id ← field n "channel_id" (y_as_int y) 0;
  tick_size ← field n "tick_size" (y_as_double y) (decimal 0 0);
  contract_multiplier ← field n "contract_multiplier" (y_as_double y) (decimal 0 0);
  min_price_increment_amount ← field n "min_price_increment_amount" (y_as_double y) (decimal 0 0);
  min_trade_vol ← field n "min_trade_vol" (y_as_int32 y) 1;
  max_trade_vol ← field n "max_trade_vol" (y_as_int32 y) 10000;
  maturity_month_year ← field n "maturity_month_year" (y_as_string y) "";
  display_factor ← field n "display_factor" (y_as_double y) (decimal 1 2);
  inr (mkInstrumentConfig symbol security_id channel_id tick_size contract_multiplier min_price_increment_amount
    min_trade_vol max_trade_vol maturity_month_year display_factor).

Definition parseNetwork (n : node) : outcome NetworkConfig :=
  if negb (is_usable_map n) then inr NetworkConfig_init else
  tcp_listen_address ← field n "tcp_listen_address" (y_as_string y) "0.0.0.0";
  tcp_listen_port ← field n "tcp_listen_port" (y_as_uint16 y) 9563;
  multicast_base_address ← field n "multicast_base_address" (y_as_string y) "239.1.1";
  multicast_base_port ← field n "multicast_base_port" (y_as_uint16 y) 14310;
  io_threads ← field n "io_threads" (y_as_int y) 2;
  inr (mkNetworkConfig tcp_listen_address tcp_listen_port multicast_base_address multicast_base_port io_threads).

Definition parseEngine (n : node) : outcome EngineConfig :=
  if negb (is_usable_map n) then inr EngineConfig_init else
  mode ← field n "mode" (y_as_string y) "full_matching";
  pcap_path ← field n "pcap_path" (y_as_string y) "";
  synthetic_fill_probability ← field n "synthetic_fill_probability" (y_as_double y) (decimal 1 0);
  synthetic_fill_latency_ns ← field n "synthetic_fill_latency_ns" (y_as_uint64 y) 1000;
  inr (mkEngineConfig mode pcap_path synthetic_fill_probability synthetic_fill_latency_ns).

Definition parseRisk (n : node) : outcome RiskConfig :=
  if negb (is_usable_map n) then inr RiskConfig_init else
  max_order_qty ← field n "max_order_qty" (y_as_int32 y) 10000;
  max_price_deviation_pct ← field n "max_price_deviation_pct" (y_as_double y) (decimal 10 0);
  max_orders_per_second ← field n "max_orders_per_second" (y_as_int32 y) 1000;
  max_position_per_session ← field n "max_position_per_session" (y_as_int64 y) 50000;
  inr (mkRiskConfig max_order_qty max_price_deviation_pct max_orders_per_second max_position_per_session).

Definition parseSession (n : node) : outcome SessionConfig :=
  if negb (is_usable_map n) then inr SessionConfig_init else
  hmac_enabled ← field n "hmac_enabled" (y_as_bool y) false;
  hmac_key ← field n "hmac_key" (y_as_string y) "test_key";
  keep_alive_interval_ms ← field n "keep_alive_interval_ms" (y_as_uint32 y) 30000;
  max_sessions ← field n "max_sessions" (y_as_int y) 100;
  retransmit_buffer_size ← field n "retransmit_buffer_size" (y_as_int y) 10000;
  inr (mkSessionConfig hmac_enabled hmac_key keep_alive_interval_ms max_sessions retransmit_buffer_size).

(** A sequence of the root, or the defaults. *)
Definition parse_list {A} (root : node) (key : string) (parse : node → outcome A) (defaults : list A) : outcome (list A) :=
  let n := y_get y root key in
  if y_defined y n && y_is_sequence y n then traverse parse (y_items y n) else inr defaults.

(** The file: absent, or what [YAML::LoadFile] makes of it. *)
Definition loadConfig (file : option (outcome node)) : outcome ExchangeConfig :=
  match file with
  | None => inr createDefaultConfig
  | Some root =>
      root ← root;
      network ← field root "network" parseNetwork NetworkConfig_init;
      engine ← field root "engine" parseEngine EngineConfig_init;
      risk ← field root "risk" parseRisk RiskConfig_init;
      session ← field root "session" parseSession SessionConfig_init;
      log_level ← field root "log_level" (y_as_string y) "info";
      channels ← parse_list root "channels" parseChannel createDefaultChannels;
      instruments ← parse_list root "instruments" parseInstrument createDefaultInstruments;
      let config := mkExchangeConfig network channels instruments engine risk session log_level in
      _ ← validateConfig config;
      inr config
  end.

End load.
End ConfigOps.
