(* ===== verification/ConfigTheorems.v ===== *)
(** * Theorems about the configuration *)
From Stdlib Require Import Floats.SpecFloat.
From stdpp Require Import pretty.
From S2P Require Import Prelude Types Instrument InstrumentManager Risk Config.
Import ConfigOps.

(** ** What the checks mean *)

(** A positive number; with [nan], also what is no number. *)
Definition above_zero (nan : Prop) (d : double) : Prop :=
  match d with S754_nan => nan | S754_infinity false | S754_finite false _ _ => True | _ => False end.
(** A number that is neither below 0 nor above 1. *)
Definition from_0_to_1 (nan : Prop) (d : double) : Prop :=
  (d = S754_nan → nan) ∧ SFltb d (decimal 0 0) = false ∧ SFltb (decimal 1 0) d = false.

(** The test [d <= 0.0] is false of what is no number. *)
Lemma above_zero_iff d : SFleb d (decimal 0 0) = false ↔ above_zero True d.
Proof. change (decimal 0 0) with (S754_zero false). by destruct d as [[]|[]| |[] m e]; cbn. Qed.

Record valid_channel (ch : ChannelConfig) : Prop := {
  vch_id : 0 < cc_channel_id ch;
  vch_symbols : cc_symbols ch ≠ [];
}.
Record instrument_with (nan : Prop) (chs : list ChannelConfig) (i : InstrumentConfig) : Prop := {
  vi_symbol : ic_symbol i ≠ "";
  vi_id : 0 < ic_security_id i;
  vi_tick : above_zero nan (ic_tick_size i);
  vi_multiplier : above_zero nan (ic_contract_multiplier i);
  vi_volumes : 0 < ic_min_trade_vol i ≤ ic_max_trade_vol i;
  vi_channel : chs = [] ∨ ic_channel_id i ∈ (cc_channel_id <$> chs);
}.
(** With [nan] the doubles need not be numbers. *)
Record config_with (nan : Prop) (c : ExchangeConfig) : Prop := {
  vc_port : tcp_listen_port (network c) ≠ 0;
  vc_threads : 1 ≤ io_threads (network c);
  vc_mode : mode (engine_config c) = "full_matching" ∨ mode (engine_config c) = "synthetic" ∧ pcap_path (engine_config c) ≠ "";
  vc_probability : from_0_to_1 nan (synthetic_fill_probability (engine_config c));
  vc_order_qty : 0 < max_order_qty (risk c);
  vc_deviation : above_zero nan (max_price_deviation_pct (risk c));
  vc_rate : 0 < max_orders_per_second (risk c);
  vc_sessions : 0 < max_sessions (session c);
  vc_buffer : 0 < retransmit_buffer_size (session c);
  vc_channel_ids : NoDup (cc_channel_id <$> channels c);
  vc_channels : Forall valid_channel (channels c);
  vc_security_ids : NoDup (ic_security_id <$> instruments c);
  vc_symbols : NoDup (ic_symbol <$> instruments c);
  vc_instruments : Forall (instrument_with nan (channels c)) (instruments c);
  vc_log_level : log_level c ∈ valid_levels;
}.

(** A valid configuration; one the checks let through; one whose doubles are numbers. *)
Definition valid_config : ExchangeConfig → Prop := config_with False.
Definition accepted_config : ExchangeConfig → Prop := config_with True.
Definition numbers (c : ExchangeConfig) : Prop :=
  synthetic_fill_probability (engine_config c) ≠ S754_nan ∧ max_price_deviation_pct (risk c) ≠ S754_nan ∧
  Forall (λ i, ic_tick_size i ≠ S754_nan ∧ ic_contract_multiplier i ≠ S754_nan) (instruments c).

Lemma above_zero_number d : d ≠ S754_nan → above_zero True d ↔ above_zero False d.
Proof. by destruct d as [| | |]. Qed.

Lemma accepted_valid c : numbers c → accepted_config c ↔ valid_config c.
Proof.
  intros (Hp & Hd & Hi). split; intros []; split; try done.
  - destruct vc_probability0 as [_ H]. by split.
  - by apply above_zero_number.
  - apply Forall_forall. intros i Hin. rewrite Forall_forall in Hi, vc_instruments0. destruct (Hi i Hin), (vc_instruments0 i Hin).
    split; try done; by apply above_zero_number.
  - destruct vc_probability0 as [_ H]. by split.
  - by apply above_zero_number.
  - apply Forall_forall. intros i Hin. rewrite Forall_forall in Hi, vc_instruments0. destruct (Hi i Hin), (vc_instruments0 i Hin).
    split; try done; by apply above_zero_number.
Qed.

Lemma valid_accepted c : valid_config c → numbers c ∧ accepted_config c.
Proof.
  intros Hv. assert (numbers c) as Hn; [|split; [done|by apply accepted_valid]].
  destruct Hv. split_and!.
  - intros E. by destruct vc_probability0 as [Hnan _]; apply Hnan.
  - intros E. by rewrite E in vc_deviation0.
  - eapply Forall_impl; [exact vc_instruments0|]. intros i []. split; intros E; by rewrite ?E in *.
Qed.

(** ** The checks one by one *)
Lemma throw_if_ok {A} b w (k : unit → outcome A) r : (throw_if b w ≫= k) = inr r ↔ b = false ∧ k tt = inr r.
Proof. destruct b; cbn; naive_solver. Qed.

(** Every failure of a sequence of checks is a [ConfigValidationError]. *)
Definition only_validation {A} (x : outcome A) : Prop := match x with inl YamlException => False | _ => True end.
Lemma throw_if_only {A} b w (k : unit → outcome A) : only_validation (k tt) → only_validation (throw_if b w ≫= k).
Proof. by destruct b. Qed.

Lemma validate_channels_only chs : ∀ ids, only_validation (validate_channels ids chs).
Proof. induction chs as [|ch chs IH]; intros ids; [done|]. cbn [validate_channels]. by repeat apply throw_if_only. Qed.
Lemma validate_instruments_only chs cids il : ∀ sids syms, only_validation (validate_instruments chs cids sids syms il).
Proof. induction il as [|i il IH]; intros sids syms; [done|]. cbn [validate_instruments]. by repeat apply throw_if_only. Qed.

Lemma validate_channels_ok chs : ∀ ids r,
  validate_channels ids chs = inr r ↔
  Forall valid_channel chs ∧ NoDup (cc_channel_id <$> chs) ∧ (∀ ch, ch ∈ chs → cc_channel_id ch ∉ ids) ∧
  r = list_to_set (cc_channel_id <$> chs) ∪ ids.
Proof.
  induction chs as [|ch chs IH]; intros ids r; cbn [validate_channels].
  - change (list_to_set (cc_channel_id <$> [])) with (∅ : gset Z). rewrite union_empty_l_L. split; [intros [= <-]; split_and!; [done|constructor|set_solver|done]|by intros (_ & _ & _ & ->)].
  - rewrite !throw_if_ok, IH, Forall_cons, fmap_cons, NoDup_cons, Z.leb_gt, !bool_decide_eq_false.
    rewrite list_to_set_cons. split.
    + intros (? & ? & ? & ? & ? & Hn & ->). split_and!; [by split|done| |done| |set_solver].
      * intros (c & Hc & Hin)%list_elem_of_fmap. specialize (Hn _ Hin). set_solver.
      * intros c [-> |Hin]%elem_of_cons; [done|]. specialize (Hn _ Hin). set_solver.
    + intros ([[? ?] ?] & [Hch ?] & Hn & ->). split_and!; [done|apply Hn; left|done|done|done| |set_solver].
      intros c Hin. rewrite not_elem_of_union, not_elem_of_singleton. split; [|apply Hn; by right].
      intros E. apply Hch. rewrite <-E. by apply list_elem_of_fmap_2.
Qed.

Lemma validate_instruments_ok chs il : ∀ sids syms,
  validate_instruments chs (list_to_set (cc_channel_id <$> chs)) sids syms il = inr tt ↔
  Forall (instrument_with True chs) il ∧ NoDup (ic_security_id <$> il) ∧ NoDup (ic_symbol <$> il) ∧
  (∀ i, i ∈ il → (ic_security_id i ∉ sids) ∧ (ic_symbol i ∉ syms)).
Proof.
  induction il as [|i il IH]; intros sids syms; cbn [validate_instruments].
  - split; [intros _; split_and!; [done|constructor|constructor|set_solver]|done].
  - rewrite !throw_if_ok, IH, Forall_cons, !fmap_cons, !NoDup_cons, !above_zero_iff, !Z.leb_gt, Z.ltb_ge, andb_false_iff, !negb_false_iff,
      !bool_decide_eq_false, !bool_decide_eq_true, elem_of_list_to_set.
    split.
    + intros (? & ? & ? & ? & ? & ? & ? & ? & ? & ? & ? & ? & Hn). split_and!; try done.
      * split; [done|lia|done|done|lia|tauto].
      * intros (j & Hj & Hin)%list_elem_of_fmap. specialize (Hn _ Hin). set_solver.
      * intros (j & Hj & Hin)%list_elem_of_fmap. specialize (Hn _ Hin). set_solver.
      * intros j [-> |Hin]%elem_of_cons; [done|]. specialize (Hn _ Hin). set_solver.
    + intros ([[? ? ? ? ? ?] ?] & [Hid ?] & [Hsy ?] & Hn). destruct (Hn i ltac:(left)).
      split_and!; try done; try lia; [tauto|].
      intros j Hin. destruct (Hn j ltac:(by right)). rewrite !not_elem_of_union, !not_elem_of_singleton. split_and!; try done.
      * intros E. apply Hid. rewrite <-E. by apply list_elem_of_fmap_2.
      * intros E. apply Hsy. rewrite <-E. by apply list_elem_of_fmap_2.
Qed.

Lemma validate_iff c : validateConfig c = inr tt ↔ accepted_config c.
Proof.
  unfold validateConfig.
  assert (∀ k : gset Z → outcome unit, (validate_channels ∅ (channels c) ≫= k) = inr tt ↔
    Forall valid_channel (channels c) ∧ NoDup (cc_channel_id <$> channels c) ∧ k (list_to_set (cc_channel_id <$> channels c)) = inr tt) as Hch.
  { intros k. pose proof (validate_channels_ok (channels c) ∅) as Hv. destruct (validate_channels ∅ (channels c)) as [e|s] eqn:E.
    - cbn. split; [done|]. intros (H1 & H2 & _). destruct (Hv (list_to_set (cc_channel_id <$> channels c) ∪ ∅)) as [_ Hv']. discriminate Hv'.
      split_and!; [done|done|set_solver|done].
    - cbn. destruct (proj1 (Hv s) eq_refl) as (? & ? & _ & ->). rewrite union_empty_r_L. naive_solver. }
  assert (∀ k : unit → outcome unit, (validate_instruments (channels c) (list_to_set (cc_channel_id <$> channels c)) ∅ ∅ (instruments c) ≫= k) = inr tt ↔
    (Forall (instrument_with True (channels c)) (instruments c) ∧ NoDup (ic_security_id <$> instruments c) ∧ NoDup (ic_symbol <$> instruments c)) ∧ k tt = inr tt) as Hin.
  { intros k. pose proof (validate_instruments_ok (channels c) (instruments c) ∅ ∅) as Hv.
    destruct (validate_instruments _ _ _ _ _) as [e|[]]; cbn.
    - split; [done|]. intros [(H1 & H2 & H3) _]. destruct Hv as [_ Hv]. discriminate Hv. split_and!; [done|done|done|set_solver].
    - destruct (proj1 Hv eq_refl) as (? & ? & ? & _). naive_solver. }
  rewrite !throw_if_ok, Hch, Hin. unfold throw_if.
  rewrite !above_zero_iff, !Z.leb_gt, Z.ltb_ge, Z.eqb_neq, !andb_false_iff, !negb_false_iff, orb_false_iff, !bool_decide_eq_false, !bool_decide_eq_true.
  assert ((if negb (bool_decide (log_level c ∈ valid_levels)) then inl (ConfigValidationError ("Invalid log_level: " +:+ log_level c +:+
    ". Must be one of: trace, debug, info, warn, error, critical, off")) else inr tt) = (inr tt : outcome unit) ↔ log_level c ∈ valid_levels) as ->
    by (case_bool_decide; cbn; naive_solver).
  split.
  - intros (? & ? & Hm & Hs & ? & ? & ? & ? & ? & ? & ? & ? & (? & ? & ?) & ?). split; try done.
    + destruct Hm as [Hm|Hm]; [by left|right]. split; [done|]. by destruct Hs.
  - intros []. split_and!; try done.
    + destruct vc_mode0 as [?|[? _]]; [by left|by right].
    + destruct vc_mode0 as [Hm|[_ Hp]]; [left; by rewrite Hm|by right].
    + apply vc_probability0.
    + apply vc_probability0.
Qed.

Lemma validate_only c : only_validation (validateConfig c).
Proof.
  unfold validateConfig. do 10 apply throw_if_only. pose proof (validate_channels_only (channels c) ∅) as Hc.
  destruct (validate_channels _ _) as [|ids]; [done|]. cbn.
  pose proof (validate_instruments_only (channels c) ids (instruments c) ∅ ∅) as Hi.
  destruct (validate_instruments _ _ _ _ _); [done|]. cbn. by destruct (negb _).
Qed.

(** ** Theorems *)

(** C32: the validation accepts exactly the valid configurations, those in which
    every listed condition holds (positive ticks, multipliers and limits, a
    probability between 0 and 1, identifiers, symbols and channel numbers unique,
    every instrument on a known channel), provided its doubles are numbers; it
    rejects every other one with a [ConfigValidationError] and throws nothing else.
    (With a NaN among the doubles the comparisons it makes are false and do not
    reject: [unusable_ticks_accepted].) *)
Theorem validate_config_exact c :
  (valid_config c → validateConfig c = inr tt) ∧
  (numbers c → ¬ valid_config c → ∃ what, validateConfig c = inl (ConfigValidationError what)) ∧
  validateConfig c ≠ inl YamlException.
Proof.
  pose proof (validate_only c) as Ho. split_and!.
  - intros [_ Ha]%valid_accepted. by apply validate_iff.
  - intros Hnum Hn. destruct (validateConfig c) as [[what|]|[]] eqn:E; [by exists what|done|].
    exfalso. by apply Hn, accepted_valid, validate_iff.
  - by destruct (validateConfig c) as [[]|].
Qed.

(** A configuration with a tick of zero is rejected. *)
Definition zero_tick : ExchangeConfig :=
  mkExchangeConfig NetworkConfig_init [] [mkInstrumentConfig "X" 1 310 (decimal 0 0) (decimal 1 0) (decimal 1 0) 1 1 "" (decimal 1 0)]
    EngineConfig_init RiskConfig_init SessionConfig_init "info".
Lemma validate_config_exact_witness :
  (∃ what, validateConfig zero_tick = inl (ConfigValidationError what)) ∧ validateConfig createDefaultConfig = inr tt.
Proof.
  split.
  - apply (validate_config_exact zero_tick).
    + split_and!; [discriminate..|]. repeat constructor; discriminate.
    + intros []. apply Forall_cons in vc_instruments0 as [[] _]. exact vi_tick0.
  - apply (validate_config_exact createDefaultConfig). apply accepted_valid.
    + split_and!; [discriminate..|]. repeat (apply Forall_cons_2; [split; discriminate|]). apply Forall_nil_2.
    + apply validate_iff. vm_compute. reflexivity.
Defined.

(** Whatever the file holds and however the YAML library behaves, a
    configuration [loadConfig] returns has passed the checks; without a file it is the default
    one, which passes too and gives every instrument a tick of at least 0.1. *)
Theorem load_config_valid {node} (y : YamlApi node) file c :
  loadConfig y file = inr c →
  accepted_config c ∧ (file = None → c = createDefaultConfig ∧
    Forall (λ ic, ∃ t, InstrumentOps.tickMantissa (InstrumentManagerOps.make_instrument ic) = Some t ∧ 10 ^ 8 ≤ t) (instruments c)).
Proof.
  destruct file as [root|]; cbn [loadConfig].
  - intros H. split; [|done]. apply validate_iff.
    repeat match type of H with (?m ≫= _) = inr _ => destruct m as [|?] eqn:?; [discriminate H|]; cbn [mbind outcome_bind] in H end.
    injection H as <-. by match goal with u : unit |- _ => destruct u end.
  - intros [= <-]. split; [apply validate_iff; vm_compute; reflexivity|]. intros _. split; [done|].
    unfold createDefaultConfig, createDefaultInstruments. cbn [instruments].
    repeat apply Forall_cons_2; try apply Forall_nil_2; eexists; (split; [vm_compute; reflexivity|lia]).
Qed.

(** A small YAML library: scalars, maps and sequences. *)
Inductive yaml := YUndefined | YInt (z : Z) | YString (s : string) | YMap (l : list (string * yaml)) | YSeq (l : list yaml).
Definition yaml_int (n : yaml) : outcome Z := match n with YInt z => inr z | _ => inl YamlException end.
Definition yaml_demo : YamlApi yaml :=
  mkYaml yaml (λ n key, match n with
      | YMap l => match find (λ kv, String.eqb (fst kv) key) l with Some kv => snd kv | None => YUndefined end
      | _ => YUndefined end)
    (λ n, match n with YUndefined => false | _ => true end) (λ n, match n with YMap _ => true | _ => false end)
    (λ n, match n with YSeq _ => true | _ => false end) (λ n, match n with YSeq l => l | _ => [] end)
    (λ n, match n with YString s => inr s | _ => inl YamlException end) yaml_int yaml_int yaml_int yaml_int yaml_int yaml_int
    (λ n, match n with YInt z => inr (double_of z) | _ => inl YamlException end) (λ n, match n with YInt z => inr (negb (z =? 0)) | _ => inl YamlException end).
Definition demo_file : yaml :=
  YMap [("network", YMap [("io_threads", YInt 4)]); ("log_level", YString "warn");
        ("channels", YSeq [YMap [("channel_id", YInt 310); ("symbols", YSeq [YString "ESH5"])]]);
        ("instruments", YSeq [YMap [("symbol", YString "ESH5"); ("security_id", YInt 1); ("channel_id", YInt 310);
           ("tick_size", YInt 1); ("contract_multiplier", YInt 50)]])]%string.

Lemma load_config_valid_witness :
  ∃ c, loadConfig yaml_demo (Some (inr demo_file)) = inr c ∧ io_threads (network c) = 4 ∧ max_sessions (session c) = 100 ∧ accepted_config c.
Proof.
  destruct (loadConfig yaml_demo (Some (inr demo_file))) as [e|c] eqn:E; [by vm_compute in E|].
  exists c. split; [done|]. destruct (load_config_valid yaml_demo (Some (inr demo_file)) c E) as [Hv _].
  vm_compute in E. injection E as <-. split; [reflexivity|]. split; [reflexivity|exact Hv].
Defined.

(** A tick size that is no number, or so small that it becomes 0, is accepted. *)
Example unusable_ticks_accepted :
  let inst tick := mkInstrumentConfig "X" 1 310 tick (decimal 1 0) (decimal 1 0) 1 1 "" (decimal 1 0) in
  let cfg tick := mkExchangeConfig NetworkConfig_init [] [inst tick] EngineConfig_init RiskConfig_init SessionConfig_init "info" in
  validateConfig (cfg S754_nan) = inr tt ∧
  InstrumentOps.tickMantissa (InstrumentManagerOps.make_instrument (inst S754_nan)) = None ∧
  validateConfig (cfg (decimal 1 10)) = inr tt ∧
  InstrumentOps.tickMantissa (InstrumentManagerOps.make_instrument (inst (decimal 1 10))) = Some 0.
Proof. split_and!; vm_compute; reflexivity. Qed.

