(* ===== verification/ListenerProcess.v ===== *)
(** * Theorems about the process of the listener

    Its arguments, where it listens against where the exchange sends, and its
    receive loop with the statistics it prints. *)
From stdpp Require Import pretty.
From S2P Require Import Prelude Types Sbe Mdp3 Text Instrument InstrumentManager Listener ListenerMain Config.
Import ListenerOps ListenerMainOps.

(** ** Arguments *)
Definition command_line (a : ListenerArgs) : list string :=
  ["--channel"; pretty (channelId a); "--feed"; feed_name (feedType a); "--group"; overrideGroup a;
   "--port"; pretty (overridePort a); "--iface"; listenIface a; "--stats"; pretty (statsInterval a)]%string.

Definition args_ok (a : ListenerArgs) : Prop := channelId a ∈i 32 ∧ overridePort a ∈u 16 ∧ statsInterval a ∈i 32.

Lemma feed_of_feed_name f : feed_of_name (feed_name f) = Some f.
Proof. by destruct f. Qed.

Lemma parse_command_line a : args_ok a → ∀ a0, parse_args (command_line a) a0 = RunListener a.
Proof.
  destruct a as [channel f group port iface interval]. intros (Hc & Hp & Hi) [c0 f0 g0 p0 i0 s0]. cbn [channelId overridePort statsInterval] in *.
  unfold command_line. cbn [channelId feedType overrideGroup overridePort listenIface statsInterval].
  assert (port ∈i 32) as Hp' by (cbn in *; lia).
  cbn [parse_args]. unfold take_option.
  repeat (rewrite bool_decide_eq_true_2 by done). rewrite (stoi_pretty channel) by done.
  repeat (rewrite bool_decide_eq_false_2 by done; repeat rewrite bool_decide_eq_true_2 by done).
  by rewrite feed_of_feed_name, !stoi_pretty, wrapu_small by done.
Qed.

(** ** Where the exchange sends

    The senders that the constructor of a channel's publisher opens. *)
Inductive Copy := FeedA | FeedB.
#[export] Instance endpoint_dec : EqDecision (string * Z) := _.
Definition channel_endpoints (config : ChannelConfig) : list (FeedType * Copy * (string * Z)) :=
  [(Incremental, FeedA, (address_a (cc_incremental_feed config), port_a (cc_incremental_feed config)));
   (Incremental, FeedB, (address_b (cc_incremental_feed config), port_b (cc_incremental_feed config)));
   (Snapshot, FeedA, (address_a (cc_snapshot_feed config), port_a (cc_snapshot_feed config)));
   (Snapshot, FeedB, (address_b (cc_snapshot_feed config), port_b (cc_snapshot_feed config)));
   (InstrumentDef, FeedA, (address_a (cc_instrument_def_feed config), port_a (cc_instrument_def_feed config)));
   (InstrumentDef, FeedB, (address_b (cc_instrument_def_feed config), port_b (cc_instrument_def_feed config)))].

(** Which feeds of the channels send to a group and port. *)
Definition senders (ep : string * Z) (cfgs : list ChannelConfig) : list (Z * FeedType * Copy) :=
  ch ← cfgs; x ← filter (λ x, x.2 = ep) (channel_endpoints ch); [(cc_channel_id ch, x.1.1, x.1.2)].

Definition chosen_feed (channel : Z) (f : FeedType) : ListenerArgs := mkListenerArgs channel f "" 0 "0.0.0.0" 10.

Lemma default_endpoints f : Forall (λ ch, cc_channel_id ch ∈i 32 ∧
    (λ ep, senders ep ConfigOps.createDefaultChannels) <$> endpoint (chosen_feed (cc_channel_id ch) f) = Some [(cc_channel_id ch, f, FeedA)])
  ConfigOps.createDefaultChannels.
Proof. destruct f; repeat constructor; done. Qed.

(** ** The statistics *)

(** Seconds shown by the statistics blocks of a run. *)
Definition elapsed_shown (shown : list Shown) : list Z :=
  omap (λ s, match s with SStatistics elapsed _ _ _ _ => Some elapsed | _ => None end) shown.
(** Each at least [interval] after the one before. *)
Fixpoint spaced (interval from : Z) (times : list Z) : Prop :=
  match times with [] => True | t :: times => from + interval ≤ t ∧ spaced interval t times end.

Lemma elapsed_app s1 s2 : elapsed_shown (s1 ++ s2) = elapsed_shown s1 ++ elapsed_shown s2.
Proof. apply omap_app. Qed.
Lemma elapsed_printed printed : elapsed_shown (SOut <$> printed) = [].
Proof. unfold elapsed_shown. by induction printed. Qed.

Section clock.
Context (steady : nat → Z) (Hclock : ∀ n, steady n ≤ steady (S n)).

Definition since_start (l : Loop) : Z := seconds (lastPrintTime l - startTime l).
Definition clock_ok (l : Loop) : Prop := startTime l ≤ lastPrintTime l ≤ steady (clock_reads l).

Lemma periodic_spaced interval wanted l : clock_ok l →
  let r := periodic steady interval wanted l in clock_ok r.1 ∧ startTime r.1 = startTime l ∧
    ((elapsed_shown r.2 = [] ∧ since_start r.1 = since_start l) ∨
     (elapsed_shown r.2 = [since_start r.1] ∧ since_start l + interval ≤ since_start r.1)).
Proof.
  intros [H1 H2]. pose proof (Hclock (clock_reads l)) as C1. pose proof (Hclock (S (clock_reads l))) as C2.
  unfold periodic, printStats, clock_ok, since_start, seconds. case_match eqn:E; cbn; [|split; [lia|by auto]].
  apply andb_true_iff in E as [E%Z.leb_le _]. unfold seconds in E. cbn in E.
  split; [lia|]. split; [done|]. right. split; [done|].
  rewrite !Z.quot_div_nonneg in * by lia. set (a := steady (clock_reads l)) in *. set (b := steady (S (clock_reads l))) in *.
  assert ((a - startTime l) `div` 1000000000 ≤ (b - startTime l) `div` 1000000000) by (apply Z.div_le_mono; lia).
  pose proof (Z.div_mod (lastPrintTime l - startTime l) 1000000000 ltac:(done)). pose proof (Z.mod_pos_bound (lastPrintTime l - startTime l) 1000000000 ltac:(done)).
  pose proof (Z.div_mod (a - startTime l) 1000000000 ltac:(done)). pose proof (Z.mod_pos_bound (a - startTime l) 1000000000 ltac:(done)).
  pose proof (Z.div_mod (a - lastPrintTime l) 1000000000 ltac:(done)). pose proof (Z.mod_pos_bound (a - lastPrintTime l) 1000000000 ltac:(done)).
  lia.
Qed.

Lemma loop_spaced interval events : ∀ l r, clock_ok l → receive_loop steady interval events l = Some r →
  spaced interval (since_start l) (elapsed_shown r.1.2).
Proof.
  assert (∀ l l' shown, clock_ok l' → startTime l' = startTime l →
    (elapsed_shown shown = [] ∧ since_start l' = since_start l) ∨ (elapsed_shown shown = [since_start l'] ∧ since_start l + interval ≤ since_start l') →
    ∀ more, spaced interval (since_start l') (elapsed_shown more) → spaced interval (since_start l) (elapsed_shown (shown ++ more))) as Hstep.
  { intros l l' shown _ _ [[E E']|[E H]] more Hm; rewrite elapsed_app, E; cbn [app]; [by rewrite <-E'|done]. }
  induction events as [|[|[|still|d]] events IH]; intros l r Hl; cbn [receive_loop]; [by intros [= <-]..| | |]; unfold loop_body.
  - pose proof (periodic_spaced interval (0 <? packetsReceived (stats l)) l Hl) as (Hl' & Hs & H).
    destruct (periodic _ _ _ l) as [l' shown]. cbn [fst snd mbind option_bind] in *. destruct (receive_loop _ _ events l') as [[[l2 more] e]|] eqn:E; [|done].
    intros [= <-]. cbn [fst snd]. eapply Hstep; [done..|]. by apply (IH l' _ Hl' E).
  - destruct still; by intros [= <-].
  - destruct (receive_from (recvBuf l) d) as [buf n]. destruct (processPacket buf n (stats l)) as [s printed| |]; [|done..].
    pose proof (periodic_spaced interval true (mkLoop s (startTime l) (lastPrintTime l) buf (clock_reads l)) Hl) as (Hl' & Hs & H).
    destruct (periodic _ _ _ _) as [l' shown]. cbn [fst snd mbind option_bind] in *. destruct (receive_loop _ _ events l') as [[[l2 more] e]|] eqn:E; [|done].
    intros [= <-]. cbn [fst snd]. rewrite <-app_assoc, elapsed_app, elapsed_printed. cbn [app].
    apply (Hstep _ l' shown Hl' Hs H). by apply (IH l' _ Hl' E).
Qed.
End clock.

(** Every block shows the counters of the datagrams before it. *)
Definition truthful (recvBuf : buffer) (s : Stats) (datagrams : list buffer) (shown : list Shown) : Prop :=
  ∀ pre e p m g q post, shown = pre ++ SStatistics e p m g q :: post →
    ∃ k, listen recvBuf (take k datagrams) s = Some (mkStats p m g q, outputs pre).

Lemma after_printed printed : ∀ x pre (b : Shown) post, output b = None → (SOut <$> printed) ++ x = pre ++ b :: post →
  ∃ pre', pre = (SOut <$> printed) ++ pre' ∧ x = pre' ++ b :: post.
Proof.
  induction printed as [|o printed IH]; intros x pre b post Hb E; [by exists pre|].
  destruct pre as [|o' pre]; [by injection E as <- _|]. injection E as <- E. apply (IH _ _ _ _ Hb) in E as (pre' & -> & ->). by exists pre'.
Qed.

Lemma periodic_truthful steady interval wanted l :
  let r := periodic steady interval wanted l in
  r.2 = [] ∨ ∃ e, r.2 = [SStatistics e (packetsReceived (stats l)) (messagesDecoded (stats l)) (gaps (stats l)) (lastSeqNum (stats l))].
Proof. unfold periodic. case_match; [right; by eexists|by left]. Qed.

Lemma truthful_after recvBuf s datagrams l shown more :
  (shown = [] ∨ ∃ e, shown = [SStatistics e (packetsReceived s) (messagesDecoded s) (gaps s) (lastSeqNum s)]) →
  l = recvBuf → truthful l s datagrams more → truthful recvBuf s datagrams (shown ++ more).
Proof.
  intros [->|[e ->]] -> H; [done|]. intros [|x pre] e' p m g q post E.
  - injection E as <- <- <- <- <- _. exists O. cbn. by destruct s.
  - injection E as <- E. destruct (H _ _ _ _ _ _ _ E) as [k Hk]. by exists k.
Qed.

Lemma loop_truthful steady interval events : ∀ l r, receive_loop steady interval events l = Some r →
  truthful (recvBuf l) (stats l) (taken events) r.1.2.
Proof.
  induction events as [|[|[|still|d]] events IH]; intros l r; cbn [receive_loop taken]; unfold loop_body.
  - intros [= <-] [] ? ? ? ? ? ? [=].
  - intros [= <-] [] ? ? ? ? ? ? [=].
  - pose proof (periodic_keeps steady interval (0 <? packetsReceived (stats l)) l) as (S1 & B1 & _).
    pose proof (periodic_truthful steady interval (0 <? packetsReceived (stats l)) l) as T.
    destruct (periodic _ _ _ l) as [l' shown]. cbn [fst snd mbind option_bind] in *. destruct (receive_loop _ _ events l') as [[[l2 more] e]|] eqn:E; [|done].
    intros [= <-]. apply (truthful_after _ _ _ (recvBuf l') shown more T B1). rewrite <-S1. by apply (IH l' _ E).
  - destruct still; intros [= <-]; [intros [|? []]|intros []]; intros ? ? ? ? ? ? [=].
  - destruct (receive_from (recvBuf l) d) as [buf n] eqn:Er. destruct (processPacket buf n (stats l)) as [s printed| |] eqn:Ep; [|done..].
    set (l1 := mkLoop s (startTime l) (lastPrintTime l) buf (clock_reads l)).
    pose proof (periodic_keeps steady interval true l1) as (S1 & B1 & _). pose proof (periodic_truthful steady interval true l1) as T.
    destruct (periodic _ _ _ l1) as [l' shown]. cbn [fst snd mbind option_bind] in *. destruct (receive_loop _ _ events l') as [[[l2 more] e]|] eqn:E; [|done].
    intros [= <-]. cbn [fst snd]. rewrite <-app_assoc. intros pre e' p m g q post Epre.
    apply after_printed in Epre as (pre' & -> & Epre); [|done].
    assert (truthful buf s (taken events) (shown ++ more)) as H.
    { apply (truthful_after _ _ _ (recvBuf l') shown more T B1). replace (stats l1) with (stats l') by done. by apply (IH l' _ E). }
    destruct (H _ _ _ _ _ _ _ Epre) as [k Hk]. exists (S k). cbn [take listen]. rewrite Er, Ep, Hk. cbn [mbind option_bind].
    by rewrite outputs_app, output_of_printed.
Qed.

(** ** The theorem *)

(** C26: the listener as a process. For every channel of the default configuration
    and every kind of feed, naming them on the command line makes the listener
    listen where exactly one sender of the exchange sends, feed A of that channel.
    And for any arguments in range and a steady clock, if the socket can be set up:
    what it prints of the messages, its counters and whether it is still running
    are those of the plain walk over the datagrams that arrive before the first
    error or signal, however many empty reads come between them; the statistics
    blocks among the output are at least the chosen interval apart, each shows the
    counters of the messages printed before it, and a last one with the final
    counters precedes the exit with code 0. *)
Theorem listener_process steady socket_ok stack a group port events :
  (∀ n, steady n ≤ steady (S n)) → args_ok a → endpoint a = Some (group, port) → socket_ok (listenIface a) group port = true →
  (∀ f ch, ch ∈ ConfigOps.createDefaultChannels → ∃ ep,
     parse_args ["--channel"%string; pretty (cc_channel_id ch); "--feed"%string; feed_name f] ListenerArgs_init =
       RunListener (chosen_feed (cc_channel_id ch) f) ∧
     endpoint (chosen_feed (cc_channel_id ch) f) = Some ep ∧ senders ep ConfigOps.createDefaultChannels = [(cc_channel_id ch, f, FeedA)]) ∧
  match listen stack (taken events) Stats_init, main steady socket_ok stack (command_line a) events with
  | None, None => True
  | Some (s, out), Some (screen, ending) =>
      ∃ shown final, screen = SBanner (channelId a) (feed_name (feedType a)) group port (listenIface a) :: SJoined group port :: shown ++ final ∧
        outputs shown = out ∧ spaced (statsInterval a) 0 (elapsed_shown shown) ∧ truthful stack Stats_init (taken events) shown ∧
        (if ends events then ending = Exited 0 ∧
           ∃ e, final = [SFinal; SStatistics e (packetsReceived s) (messagesDecoded s) (gaps s) (lastSeqNum s)]
         else ending = StillRunning ∧ final = [])
  | _, _ => False
  end.
Proof.
  intros Hclock Ha Hep Hs. split.
  { intros f ch Hch. pose proof (default_endpoints f) as H. rewrite Forall_forall in H. destruct (H ch Hch) as [Hid Hsend].
    destruct (endpoint (chosen_feed (cc_channel_id ch) f)) as [ep|]; [|done]. injection Hsend as Hsend. exists ep. split; [|done].
    cbn [parse_args]. unfold take_option. cbn [ListenerArgs_init]. rewrite bool_decide_eq_true_2 by done. rewrite stoi_pretty by done.
    rewrite bool_decide_eq_false_2, bool_decide_eq_true_2 by done. by rewrite feed_of_feed_name. }
  unfold main. rewrite parse_command_line, Hep by done. cbn [mbind option_bind]. rewrite Hs.
  pose proof (receive_loop_listens steady (statsInterval a) events (Loop_init steady stack)) as H. cbn [Loop_init recvBuf stats] in H.
  destruct (receive_loop _ _ _ _) as [[[l shown] ended]|] eqn:E, (listen _ _ _) as [[s out]|]; try done.
  injection H as H1 H2 H3. cbn in H1, H2, H3. subst. cbn [mbind option_bind].
  assert (spaced (statsInterval a) 0 (elapsed_shown shown)) as Hsp.
  { pose proof (loop_spaced steady Hclock (statsInterval a) events (Loop_init steady stack) _ ltac:(split; cbn; [done|apply Hclock]) E) as H.
    unfold since_start, Loop_init in H. cbn in H. by rewrite Z.sub_diag in H. }
  pose proof (loop_truthful _ _ _ _ _ E) as Ht. cbn [Loop_init recvBuf stats fst snd] in Ht.
  destruct (ends events); cbn.
  - exists shown. eexists. split_and!; try done. by eexists.
  - exists shown, []. split_and!; try done. by rewrite app_nil_r.
Qed.

(** Two heartbeats with a lost packet between them, six seconds apart, then Ctrl-C. *)
Definition heartbeat_packet (seq : Z) : buffer := le_split 4 seq ++ le_split 8 1000 ++ le_split 2 0 ++ le_split 2 12 ++ le_split 2 1 ++ le_split 2 9.
Definition demo_events : list LoopEvent :=
  [Polled WouldBlock; Polled (Received (heartbeat_packet 1)); Polled WouldBlock; Polled (Received (heartbeat_packet 3)); Signal; Polled (Failed true)].
Definition demo_args : ListenerArgs := chosen_feed 311 Snapshot.
Definition demo_clock (n : nat) : Z := Z.of_nat n * 6000000000.

Lemma listener_process_witness :
  let run := main demo_clock (λ _ _ _, true) (replicate 64 Init.Byte.x00) (command_line demo_args) demo_events in
  (∃ ep, senders ep ConfigOps.createDefaultChannels = [(311, Snapshot, FeedA)]) ∧
  (outputs <$> (fst <$> run)) = Some [OPacket 1 1000; OHeartbeat12; OGap 2 3 1; OPacket 3 1000; OHeartbeat12] ∧ (snd <$> run) = Some (Exited 0).
Proof.
  destruct (listener_process demo_clock (λ _ _ _, true) (replicate 64 Init.Byte.x00) demo_args "239.1.1.2" 15311 demo_events) as [Hd Hl].
  - intros n. unfold demo_clock. lia.
  - by repeat constructor.
  - reflexivity.
  - reflexivity.
  - assert (∃ ch, ch ∈ ConfigOps.createDefaultChannels ∧ cc_channel_id ch = 311) as (ch & Hch & E) by (eexists; split; [right; left|done]).
    split.
    { destruct (Hd Snapshot ch Hch) as (ep & _ & _ & Hs). rewrite E in Hs. by exists ep. }
    assert (listen (replicate 64 Init.Byte.x00) (taken demo_events) Stats_init =
      Some (mkStats 2 2 1 3, [OPacket 1 1000; OHeartbeat12; OGap 2 3 1; OPacket 3 1000; OHeartbeat12])) as El by (vm_compute; reflexivity).
    rewrite El in Hl. destruct (main _ _ _ _ _) as [[screen ending]|]; [|done].
    destruct Hl as (shown & final & -> & Ho & _ & _ & -> & e & ->). split; [|done]. cbn [fmap option_fmap option_map fst].
    f_equal. change (outputs (?x :: ?y :: ?t)) with (outputs t). by rewrite outputs_app, Ho.
Defined.
