(* ===== verification/ListenerText.v ===== *)
(** * What the listener writes (tools/mdp3_listener.cpp)

    The lines on the standard output for each value of [Listener.v] and
    [ListenerMain.v]. [local_time] is the time of day in the local time zone of a
    number of seconds since the epoch, as [strftime] prints it. A double is printed
    the way [operator<<] does by default: at most six significant digits. *)
From Stdlib Require Import Floats.SpecFloat.
From stdpp Require Import pretty.
From S2P Require Import Prelude Types Sbe Mdp3 Text Instrument Config Listener ListenerMain.

Module ListenerTextOps.

(** ** Numbers *)

(** Decimal digits of a positive number. *)
Definition dec_length (n : Z) : Z := Z.of_nat (String.length (pretty n)).
(** [num / den * 10 ^ k], rounded to nearest, ties to even. *)
Definition scale_round (num den k : Z) : Z :=
  let '(n, d) := if 0 <=? k then (num * 10 ^ k, den) else (num, den * 10 ^ (- k)) in
  let q := n `div` d in
  let r := 2 * (n `mod` d) in
  if (d <? r) || ((d =? r) && Z.odd q) then q + 1 else q.
(** The exponent of the leading digit of [num / den]. *)
Definition leading (num den : Z) : Z :=
  let x := dec_length num - dec_length den in
  if (if 0 <=? x then den * 10 ^ x <=? num else den <=? num * 10 ^ (- x)) then x else x - 1.
(** Six digits [q] and the exponent of the first. *)
Definition six_digits (num den : Z) : Z * Z :=
  let x := leading num den in
  let q := scale_round num den (5 - x) in
  if q =? 1000000 then (100000, x + 1) else (q, x).

Definition zero_char : Ascii.ascii := pretty_N_char 0.
Fixpoint zeros (n : nat) : string := match n with O => "" | S n => String zero_char (zeros n) end.
Fixpoint strip_zeros (s : string) : string :=
  match s with
  | "" => ""
  | String c s => match strip_zeros s with "" => if bool_decide (c = zero_char) then "" else String c "" | s => String c s end
  end.
Definition with_fraction (whole fraction : string) : string :=
  let f := strip_zeros fraction in if bool_decide (f = ""%string) then whole else whole +:+ "." +:+ f.
Definition pad (n : nat) (s : string) : string := zeros (n - String.length s) +:+ s.

(** [%g] of a positive number. *)
Definition general (num den : Z) : string :=
  let '(q, x) := six_digits num den in
  let digits := pretty q in
  if (-4 <=? x) && (x <? 6) then
    if 0 <=? x then with_fraction (String.substring 0 (Z.to_nat (x + 1)) digits) (String.substring (Z.to_nat (x + 1)) 6 digits)
    else with_fraction "0" (zeros (Z.to_nat (- x - 1)) +:+ digits)
  else with_fraction (String.substring 0 1 digits) (String.substring 1 5 digits) +:+ "e" +:+ (if x <? 0 then "-" else "+") +:+ pad 2 (pretty (Z.abs x)).

Definition show_double (d : double) : string :=
  match d with
  | S754_nan => "nan"
  | S754_infinity s => if s then "-inf" else "inf"
  | S754_zero s => if s then "-0" else "0"
  | S754_finite s m e =>
      (if s then "-" else "") +:+ (if 0 <=? e then general (Zpos m * 2 ^ e) 1 else general (Zpos m) (2 ^ (- e)))
  end.

(** [Price::toDouble]: [1e-9] is the nearest double. *)
Definition toDouble (p : Price) : double := double_mul (double_of (mantissa p)) (decimal 1 9).

(** ** The lines *)
Definition updateActionStr (action : Z) : string :=
  if action =? 0 then "New" else if action =? 1 then "Change" else if action =? 2 then "Delete" else if action =? 3 then "DeleteThru"
  else if action =? 4 then "DeleteFrom" else if action =? 5 then "Overlay" else "Unknown".
Definition entryTypeStr (et : byte) : string :=
  let c := byte.unsigned et in if c =? 48 then "Bid" else if c =? 49 then "Offer" else if c =? 50 then "Trade" else "?".
Definition aggressorSideStr (side : Z) : string := if side =? 1 then "Buy" else if side =? 2 then "Sell" else "None".
Definition tradingStatusStr (status : Z) : string :=
  if status =? 2 then "PreOpen" else if status =? 17 then "Open" else if status =? 18 then "Halt" else if status =? 21 then "Close" else "Unknown".

Definition cat (parts : list string) : string := foldr String.append ""%string parts.
Definition text (bytes : list byte) : string := String.string_of_list_byte bytes.
Definition show_price (mantissa : Z) : string := show_double (toDouble (mkPrice mantissa)).

Definition book_line (e : MDIncrementalRefreshBook46.Entry.t) : string :=
  let '(MDIncrementalRefreshBook46.Entry.mk px size sec rpt orders level action et) := e in
  cat ["    "; entryTypeStr et; " Action="; updateActionStr action; " SecID="; pretty sec; " Level="; pretty level;
       " Price="; show_price px; " Size="; pretty size; " Orders="; pretty orders; " RptSeq="; pretty rpt]%string.
(** From the fields that [trade_line] keeps. *)
Definition trade_text (t : Z * Z * Z * Z * Z) : string :=
  let '(sec, px, size, side, rpt) := t in
  cat ["    Trade SecID="; pretty sec; " Price="; show_price px; " Size="; pretty size; " Aggressor="; aggressorSideStr side;
       " RptSeq="; pretty rpt]%string.
Definition snapshot_line (e : SnapshotFullRefresh52.Entry.t) : string :=
  let '(SnapshotFullRefresh52.Entry.mk px size orders level et) := e in
  cat ["    "; entryTypeStr et; " Level="; pretty level; " Price="; show_price px; " Size="; pretty size; " Orders="; pretty orders]%string.

Section render.
Context (local_time : Z → string).

Definition formatTimestamp (nanos : Z) : string :=
  let secs := nanos `div` 1000000000 in
  let nsRem := nanos `mod` 1000000000 in
  local_time secs +:+ "." +:+ pad 9 (pretty nsRem).

(** Texts for the standard error stream are left out. *)
Definition output_lines (o : Output) : list string :=
  match o with
  | OTooShort _ => []
  | OGap expected got missing =>
      [cat ["*** GAP detected: expected "; pretty expected; " got "; pretty got; " (missing "; pretty missing; " packets)"]]
  | OPacket seqNum sendingTime => [cat ["[Pkt#"; pretty seqNum; "] time="; formatTimestamp sendingTime]]
  | OBook46 transactTime entries =>
      cat ["  [Book46] time="; formatTimestamp transactTime; " entries="; pretty (length entries)] :: (book_line <$> entries)
  | OTrade48 transactTime trades =>
      cat ["  [Trade48] time="; formatTimestamp transactTime; " trades="; pretty (length trades)] :: (trade_text <$> trades)
  | OSnapshot52 securityID rptSeq status entries =>
      cat ["  [Snapshot52] SecID="; pretty securityID; " RptSeq="; pretty rptSeq; " Status="; tradingStatusStr status; " Levels=";
           pretty (length entries)] :: (snapshot_line <$> entries)
  | OInstrDef54 symbol securityID group asset status minPriceIncrement =>
      [cat ["  [InstrDef54] Symbol="; text symbol; " SecID="; pretty securityID; " Group="; text group; " Asset="; text asset;
            " Status="; tradingStatusStr status; " TickSize="; show_price minPriceIncrement]]
  | OSecStatus30 securityID group status event =>
      [cat ["  [SecStatus30] SecID="; pretty securityID; " Group="; text group; " Status="; tradingStatusStr status; " Event="; pretty event]]
  | OHeartbeat12 => ["  [Heartbeat12]"]
  | OChannelReset4 applIDs =>
      [cat ("  [ChannelReset4] entries=" :: pretty (length applIDs) :: ((λ id, " ApplID=" +:+ pretty id) <$> applIDs))]
  | OUnknown templateId blockLength => [cat ["  [Unknown templateId="; pretty templateId; " blockLength="; pretty blockLength; "]"]]
  end%string.

Definition shown_lines (s : Shown) : list string :=
  match s with
  | SBanner channel feed group port iface =>
      ["MDP 3.0 Listener"; "  Channel:  " +:+ pretty channel; "  Feed:     " +:+ feed; "  Group:    " +:+ group;
       "  Port:     " +:+ pretty port; "  Interface:" +:+ iface; ""]
  | SJoined group port => [cat ["Joined multicast group "; group; ":"; pretty port]; "Listening for packets... (Ctrl+C to stop)"; ""]
  | SOut o => output_lines o
  | SStatistics elapsed packets messages gaps lastSeqNum =>
      [""; cat ["--- Statistics (after "; pretty elapsed; "s) ---"]; "  Packets received:  " +:+ pretty packets;
       "  Messages decoded:  " +:+ pretty messages; "  Sequence gaps:     " +:+ pretty gaps; "  Last SeqNum:       " +:+ pretty lastSeqNum; ""]
  | SFinal => [""; "--- Final Statistics ---"]
  | SReceiveError => []
  end%string.
End render.
End ListenerTextOps.

Import ListenerTextOps.

(** With six digits a quarter of a point is lost on a price above 10000. *)
Example prices_shown : show_price <$> [5000250000000; 21000250000000; 250000000; -12500000; 0; 1234567890000000; 10000]
  = ["5000.25"; "21000.2"; "0.25"; "-0.0125"; "0"; "1.23457e+06"; "1e-05"]%string.
Proof. by vm_compute. Qed.

(** ** The digits shown are the nearest *)
Lemma pretty_go_length x : ∀ s, (0 < x)%N → ∃ k, 0 ≤ k ∧ Z.of_nat (String.length (pretty_N_go x s)) = Z.of_nat (String.length s) + k + 1 ∧
  10 ^ k ≤ Z.of_N x < 10 ^ (k + 1).
Proof.
  induction (N.lt_wf_0 x) as [x _ IH]; intros s H0. rewrite pretty_N_go_step by done.
  pose proof (N.div_mod x 10 ltac:(done)) as Hd. pose proof (N.mod_lt x 10 ltac:(done)) as Hm. pose proof (N.le_0_l (x `mod` 10)).
  destruct (decide (0 < x `div` 10)%N) as [H1|H1].
  - destruct (IH (x `div` 10)%N ltac:(by apply N.div_lt) (String (pretty_N_char (x `mod` 10)) s) H1) as (k & Hk & -> & Hb).
    assert (10 ^ (k + 1) = 10 * 10 ^ k) by (by rewrite <-Z.pow_succ_r).
    assert (10 ^ (k + 1 + 1) = 10 * 10 ^ (k + 1)) by (rewrite <-Z.pow_succ_r; [done|lia]).
    exists (k + 1). cbn [String.length]. split_and!; lia.
  - assert (x `div` 10 = 0)%N as E by lia. rewrite E in Hd |- *. rewrite pretty_N_go_0. exists 0. cbn [String.length].
    change (10 ^ (0 + 1)) with 10. change (10 ^ 0) with 1. split_and!; lia.
Qed.

Lemma dec_length_spec n : 0 < n → 1 ≤ dec_length n ∧ 10 ^ (dec_length n - 1) ≤ n < 10 ^ dec_length n.
Proof.
  intros Hn. unfold dec_length, pretty, pretty_Z. destruct n as [|p|]; [lia| |lia]. unfold pretty, pretty_positive, pretty, pretty_N.
  rewrite decide_False by done. destruct (pretty_go_length (N.pos p) "" ltac:(done)) as (k & Hk & -> & Hb). cbn [String.length].
  replace (Z.of_nat 0 + k + 1) with (k + 1) by lia. rewrite Z.add_simpl_r. cbn in Hb. lia.
Qed.

(** [n / d] lies in the decade of [x]. *)
Definition in_decade (num den x : Z) : Prop :=
  (0 ≤ x → den * 10 ^ x ≤ num < den * 10 ^ (x + 1)) ∧ (x < 0 → den ≤ num * 10 ^ (- x) < den * 10).

Lemma leading_spec num den : 0 < num → 0 < den → in_decade num den (leading num den).
Proof.
  intros Hn Hd. unfold leading, in_decade. destruct (dec_length_spec num Hn) as (Ha & Hn1 & Hn2), (dec_length_spec den Hd) as (Hb & Hd1 & Hd2).
  set (a := dec_length num) in *. set (b := dec_length den) in *.
  assert (∀ u v, 0 ≤ u → 0 ≤ v → 10 ^ (u + v) = 10 ^ u * 10 ^ v) as Hpow by (intros; by rewrite Z.pow_add_r).
  assert (∀ u, 0 ≤ u → 0 < 10 ^ u) as Hpos by (intros; by apply Z.pow_pos_nonneg).
  destruct (Z.leb_spec 0 (a - b)) as [Hx|Hx]; case_match eqn:E.
  - apply Z.leb_le in E. split; [|lia]. intros _. split; [done|]. replace a with ((b - 1) + (a - b + 1)) in Hn2 by lia. rewrite Hpow in Hn2 by lia.
    pose proof (Hpos (a - b + 1) ltac:(lia)). nia.
  - apply Z.leb_gt in E. split; intros Hy.
    + rewrite Z.sub_add. split; [|lia]. replace (a - 1) with (b + (a - b - 1)) in Hn1 by lia. rewrite Hpow in Hn1 by lia.
      pose proof (Hpos (a - b - 1) ltac:(lia)). nia.
    + assert (a = b) as Eab by lia. rewrite Eab, Z.sub_diag in *. change (- (0 - 1)) with 1. change (10 ^ 0) with 1 in E. rewrite Z.pow_1_r.
      replace b with (b - 1 + 1) in Hd2 by lia. rewrite Hpow, Z.pow_1_r in Hd2 by lia. lia.
  - apply Z.leb_le in E. split; [lia|]. intros _. split; [done|].
    replace b with (a + - (a - b)) in Hd1 by lia. replace (a + - (a - b) - 1) with (a - 1 + - (a - b)) in Hd1 by lia.
    rewrite (Hpow (a - 1)) in Hd1 by lia. replace a with (a - 1 + 1) in Hn2 by lia. rewrite (Hpow (a - 1) 1), Z.pow_1_r in Hn2 by lia.
    pose proof (Hpos (- (a - b)) ltac:(lia)). nia.
  - apply Z.leb_gt in E. split; [lia|]. intros _. replace (- (a - b - 1)) with (- (a - b) + 1) by lia. rewrite Hpow, Z.pow_1_r by lia.
    split; [|lia]. replace b with (a - 1 + (- (a - b) + 1)) in Hd2 by lia. rewrite (Hpow (a - 1)), (Hpow _ 1), Z.pow_1_r in Hd2 by lia.
    pose proof (Hpos (- (a - b)) ltac:(lia)). nia.
Qed.

(** The error of [q] for [num * 10 ^ k / den] is at most a half. *)
Definition nearest (num den k q : Z) : Prop :=
  if 0 <=? k then 2 * Z.abs (q * den - num * 10 ^ k) ≤ den else 2 * Z.abs (q * (den * 10 ^ (- k)) - num) ≤ den * 10 ^ (- k).

Lemma scale_round_nearest num den k : 0 < den → nearest num den k (scale_round num den k).
Proof.
  intros Hd. unfold nearest, scale_round. destruct (Z.leb_spec 0 k) as [Hk|Hk].
  - set (n := num * 10 ^ k). pose proof (Z.div_mod n den ltac:(lia)). pose proof (Z.mod_pos_bound n den ltac:(lia)).
    destruct (Z.ltb_spec den (2 * (n `mod` den))), (Z.eqb_spec den (2 * (n `mod` den))), (Z.odd (n `div` den)); cbn [orb andb]; lia.
  - assert (0 < den * 10 ^ (- k)) as Hd' by (apply Z.mul_pos_pos; [lia|by apply Z.pow_pos_nonneg; lia]). set (d := den * 10 ^ (- k)) in *.
    pose proof (Z.div_mod num d ltac:(lia)). pose proof (Z.mod_pos_bound num d ltac:(lia)).
    destruct (Z.ltb_spec d (2 * (num `mod` d))), (Z.eqb_spec d (2 * (num `mod` d))), (Z.odd (num `div` d)); cbn [orb andb]; lia.
Qed.

(** Of a positive number six digits are shown, the first not zero, off by at most
    half a unit of the last. *)
Theorem six_digits_nearest num den : 0 < num → 0 < den →
  let '(q, x) := six_digits num den in 10 ^ 5 ≤ q < 10 ^ 6 ∧ nearest num den (5 - x) q.
Proof.
  intros Hn Hd. unfold six_digits. pose proof (leading_spec num den Hn Hd) as [L1 L2]. set (x := leading num den) in *.
  pose proof (scale_round_nearest num den (5 - x) Hd) as H. set (q := scale_round num den (5 - x)) in *.
  assert (∀ u v, 0 ≤ u → 0 ≤ v → 10 ^ (u + v) = 10 ^ u * 10 ^ v) as Hpow by (intros; by rewrite Z.pow_add_r).
  assert (∀ u, 0 ≤ u → 0 < 10 ^ u) as Hpos by (intros; by apply Z.pow_pos_nonneg).
  assert (10 ^ 5 ≤ q ≤ 10 ^ 6) as Hq.
  { unfold nearest in H. destruct (Z.leb_spec 0 (5 - x)) as [Hk|Hk].
    - assert (den * 10 ^ 5 ≤ num * 10 ^ (5 - x) ∧ num * 10 ^ (5 - x) < den * 10 ^ 6).
      { destruct (Z.le_gt_cases 0 x) as [Hx|Hx].
        - specialize (L1 Hx). change 5 with (5 + 0). replace (10 ^ (5 + 0)) with (10 ^ x * 10 ^ (5 - x)) by (rewrite <-Hpow by lia; f_equal; lia).
          replace (10 ^ 6) with (10 ^ (x + 1) * 10 ^ (5 - x)) by (rewrite <-Hpow by lia; f_equal; lia).
          rewrite Z.add_0_r. pose proof (Hpos (5 - x) ltac:(lia)). nia.
        - specialize (L2 Hx). replace (5 - x) with (- x + 5) by lia. rewrite (Hpow (- x) 5) by lia. lia. }
      change (10 ^ 5) with 100000 in *. change (10 ^ 6) with 1000000 in *. nia.
    - assert (0 ≤ x) as Hx by lia. specialize (L1 Hx). replace (- (5 - x)) with (x - 5) in H by lia.
      replace x with (5 + (x - 5)) in L1 by lia. rewrite Hpow in L1 by lia. replace (5 + (x - 5) + 1) with (6 + (x - 5)) in L1 by lia. rewrite (Hpow 6) in L1 by lia.
      pose proof (Hpos (x - 5) ltac:(lia)). change (10 ^ 5) with 100000 in *. change (10 ^ 6) with 1000000 in *. nia. }
  destruct (Z.eqb_spec q 1000000) as [Eq|Nq]; [|split; [change (10 ^ 6) with 1000000 in *; lia|done]].
  split; [done|]. revert H. rewrite Eq. unfold nearest. destruct (Z.leb_spec 0 (5 - x)) as [Hk|Hk], (Z.leb_spec 0 (5 - (x + 1))) as [Hk'|Hk']; try lia; intros H.
  - replace (5 - x) with (5 - (x + 1) + 1) in H by lia. rewrite (Hpow (5 - (x + 1)) 1), Z.pow_1_r in H by lia. lia.
  - assert (x = 5) as -> by lia. change (10 ^ (5 - 5)) with 1 in H. change (10 ^ - (5 - (5 + 1))) with 10. lia.
  - replace (- (5 - (x + 1))) with (- (5 - x) + 1) by lia. rewrite Hpow, Z.pow_1_r by lia. lia.
Qed.
