(* ===== verification/Exchange.v ===== *)
(** * The exchange process (src/main.cpp)

    [main] builds the components from the configuration (Config.v) and connects them by
    callbacks; afterwards its threads drive them. A step of the model is one
    callback of the acceptor or of a connection, or one round of a thread:

    - [XConnect]: a client connects (lines 251 to 304);
    - [XTcp u e]: something happens to the connection of session [u]; complete
      messages go to its session, whose messages to the gateway and to the wire
      are passed on, and a disconnection ends and removes the session;
    - [XEngine order]: a round of the engine loop (lines 350 to 373), the hash
      map of channels being walked in the order [order];
    - [XTimer perm]: a round of the timer loop (lines 379 to 383), the sessions
      being visited in the order [perm] gives their list;
    - [XSnapshot ch]: a round of the snapshot thread of channel [ch]
      (SnapshotCycler::run), which reads the books of the engine;
    - [XDefinitions order]: a round of the instrument definition thread
      (MarketDataPublisher::instdefReplayLoop) over the channels.

    The threads run steps one at a time; the source shares sessions, risk states
    and books between threads without a lock, which is reported apart. A session
    keeps its connection alive through its send callback; a connection that has
    no session is closed at once and never read, so connections are found by the
    identifier of their session. [None] is an access outside a buffer or to a
    freed order, or an exception that no thread catches. *)
From S2P Require Import Prelude Types Order Engine Instrument InstrumentManager Risk Config Gateway Session SessionStep SessionManager.
From S2P Require Import Publisher.
From S2P Require Import TcpConnection.
Import InstrumentManagerOps SessionManagerOps.

Record Exchange := mkExchange {
  session_mgr : Manager;
  connections_ : gmap Z TcpConnection;
  oe_gateway : OrderEntryGateway;
  engine : FullMatchingEngine;
  engine_reads : nat;
  md_publisher : MarketDataPublisher;
}.

Definition set_manager (m : Manager) (x : Exchange) : Exchange :=
  mkExchange m (connections_ x) (oe_gateway x) (engine x) (engine_reads x) (md_publisher x).
Definition set_connection (u : Z) (c : TcpConnection) (x : Exchange) : Exchange :=
  mkExchange (session_mgr x) (<[u := c]> (connections_ x)) (oe_gateway x) (engine x) (engine_reads x) (md_publisher x).
Definition set_gateway (g : OrderEntryGateway) (x : Exchange) : Exchange :=
  mkExchange (session_mgr x) (connections_ x) g (engine x) (engine_reads x) (md_publisher x).
Definition set_md (p : MarketDataPublisher) (x : Exchange) : Exchange :=
  mkExchange (session_mgr x) (connections_ x) (oe_gateway x) (engine x) (engine_reads x) p.

(** What the sessions have emitted is passed on and forgotten. *)
Definition clear_outs (m : Manager) : Manager :=
  mkManager (sessions_ m) (next_uuid_ m) (max_sessions_ m) (session_heap m) (mgr_reads m) [].

Inductive XEvent :=
| XConnect
| XTcp (uuid : Z) (e : TcpEvent)
| XEngine (order : list Z)
| XTimer (perm : list (Z * positive) → list (Z * positive))
| XSnapshot (ch : Z)
| XDefinitions (order : list Z).

Module ExchangeOps.

(** ** Start-up *)

(** [for (auto& inst : getAllInstruments()) setTradingStatus(inst.security_id, status)]. *)
Fixpoint set_statuses (status : SecurityTradingStatus) (ids : list SecurityId) (m : InstrumentManager) : option InstrumentManager :=
  match ids with
  | [] => Some m
  | id :: ids => m ← setTradingStatus m id status; set_statuses status ids m
  end.
Definition all_ids (m : InstrumentManager) : list SecurityId := in_security_id <$> instruments_ m.

(** The two modes build the same engine; any other one ends the process. *)
Definition boot (cfg : ExchangeConfig) : option Exchange :=
  m ← loadFromConfig InstrumentManager_init (instruments cfg) (channels cfg);
  m ← set_statuses PreOpen (all_ids m) m;
  if negb (bool_decide (mode (engine_config cfg) = "full_matching"%string)) && negb (bool_decide (mode (engine_config cfg) = "synthetic"%string))
  then None else
  let full_engine := foldl EngineOps.addInstrument EngineOps.Engine_init (all_ids m) in
  let md := PublisherOps.start_cyclers m (PublisherOps.MarketDataPublisher_init (channels cfg) m) in
  m ← set_statuses Open (all_ids m) m;
  Some (mkExchange (SessionManager_init (max_sessions (session cfg))) ∅ (GatewayOps.Gateway_init m (risk cfg)) full_engine 0 md).

(** The bytes of [cfg.session.hmac_key]. *)
Definition key_bytes (cfg : SessionConfig) : list byte := String.list_byte_of_string (hmac_key cfg).

Section exchange.
(** The clocks of the sessions, the reports, the engine and the market data. *)
Context (steady system report_clock engine_clock md_clock : nat → Z) (lib : openssl) (cfg : SessionConfig).

(** ** The callbacks of a session

    [send_cb]: the connection sends; [app_cb]: the gateway takes the message. *)
Definition callback (x : Exchange) (o : Output) : option Exchange :=
  match o with
  | ToWire uuid data =>
      conn ← connections_ x !! uuid;
      conn ← TcpOps.send conn data;
      Some (set_connection uuid conn x)
  | ToGateway uuid templateId data =>
      g ← GatewayOps.onApplicationMessage (oe_gateway x) (steady (mgr_reads (session_mgr x))) uuid templateId data (length data);
      Some (set_gateway g x)
  end.

Fixpoint callbacks (x : Exchange) (os : list Output) : option Exchange :=
  match os with
  | [] => Some x
  | o :: os => x ← callback x o; callbacks x os
  end.

(** A method call that emits through the callbacks. *)
Definition with_callbacks (x : Exchange) (m : Manager) : option Exchange :=
  callbacks (set_manager (clear_outs m) x) (mgr_outs m).

Definition call_session (x : Exchange) (p : positive) (c : Call) : option Exchange :=
  m ← on_session steady system lib (session_mgr x) p c;
  with_callbacks x m.

(** ** The connection callback of the acceptor *)
Definition on_connection (x : Exchange) : option Exchange :=
  let '(m, session) := createSession steady (session_mgr x) true true in
  match session with
  | None => Some (set_manager m x)
  | Some p =>
      m ← (if hmac_enabled cfg then
             m ← on_session steady system lib m p (SetHmacEnabled true);
             on_session steady system lib m p (SetHmacKey (key_bytes cfg))
           else Some m);
      s ← session_heap m !! p;
      Some (set_connection (uuid_ s) (TcpOps.start TcpOps.TcpConnection_init) (set_manager m x))
  end.

(** ** The callbacks of a connection *)

(** [on_message]: the weak pointer locks while the session is registered. *)
Definition on_message (x : Exchange) (uuid : Z) (msg : list byte) : option Exchange :=
  match findSession (session_mgr x) uuid with
  | Some sess => call_session x sess (Receive msg)
  | None => Some x
  end.

Definition on_disconnect (x : Exchange) (session_uuid : Z) : option Exchange :=
  x ← match findSession (session_mgr x) session_uuid with
      | Some sess =>
          s ← session_heap (session_mgr x) !! sess;
          if bool_decide (state_ s ≠ Terminated) then call_session x sess (Close 0) else Some x
      | None => Some x
      end;
  Some (set_manager (removeSession (session_mgr x) session_uuid) x).

Fixpoint tcp_callbacks (x : Exchange) (uuid : Z) (outs : list TcpOutput) : option Exchange :=
  match outs with
  | [] => Some x
  | OnMessage msg :: outs => x ← on_message x uuid msg; tcp_callbacks x uuid outs
  | OnDisconnect :: outs => x ← on_disconnect x uuid; tcp_callbacks x uuid outs
  | Wire _ :: outs => tcp_callbacks x uuid outs
  end.

(** [send] is called by the sessions, not from outside. *)
Definition on_tcp (x : Exchange) (uuid : Z) (e : TcpEvent) : option Exchange :=
  match e, connections_ x !! uuid with
  | TSend _, _ | _, None => Some x
  | _, Some conn =>
      '(conn, outs) ← TcpOps.tcp_step conn e;
      tcp_callbacks (set_connection uuid conn x) uuid outs
  end.

(** ** A round of the engine thread *)
Fixpoint route_responses (x : Exchange) (responses : list OrderResponse) : option Exchange :=
  match responses with
  | [] => Some x
  | resp :: responses =>
      x ← match findSession (session_mgr x) (resp_session_uuid resp) with
          | Some sess => call_session x sess (SendApp (sbe_message resp))
          | None => Some x
          end;
      route_responses x responses
  end.

Definition engine_round (x : Exchange) (order : list Z) : option Exchange :=
  '(g, e, reads, responses, md_events) ←
    GatewayOps.processCommands EngineOps.full_matching_engine report_clock engine_clock (oe_gateway x) (engine x) (engine_reads x);
  x ← route_responses (mkExchange (session_mgr x) (connections_ x) g e reads (md_publisher x)) responses;
  if bool_decide (md_events = []) then Some x else
  p ← PublisherOps.publishEvents md_clock (md_publisher x) order md_events;
  Some (set_md p x).

(** ** A round of the timer thread *)
Definition timer_round (x : Exchange) (perm : list (Z * positive) → list (Z * positive)) : option Exchange :=
  m ← onTimerTick steady system lib (perm (map_to_list (sessions_ (session_mgr x)))) (session_mgr x);
  with_callbacks x m.

(** ** The rounds of the publisher's threads *)
Definition snapshot_round (x : Exchange) (ch : Z) : option Exchange :=
  match channel_publishers_ (md_publisher x) !! ch with
  | Some c =>
      '(c, reads) ← PublisherOps.runCycle md_clock (PublisherOps.book_snapshot (engine x)) c (md_reads (md_publisher x));
      Some (set_md (PublisherOps.set_publisher ch c reads (md_publisher x)) x)
  | None => Some x
  end.

Definition definition_round (x : Exchange) (order : list Z) : option Exchange :=
  p ← PublisherOps.replay_round md_clock (instrument_mgr_ (oe_gateway x)) (md_publisher x) order;
  Some (set_md p x).

Definition exchange_step (x : Exchange) (e : XEvent) : option Exchange :=
  match e with
  | XConnect => on_connection x
  | XTcp uuid e => on_tcp x uuid e
  | XEngine order => engine_round x order
  | XTimer perm => timer_round x perm
  | XSnapshot ch => snapshot_round x ch
  | XDefinitions order => definition_round x order
  end.

Fixpoint exchange_run (x : Exchange) (es : list XEvent) : option Exchange :=
  match es with
  | [] => Some x
  | e :: es => x ← exchange_step x e; exchange_run x es
  end.
End exchange.
End ExchangeOps.
