(* ===== verification/ExchangeLemmas.v ===== *)

(** * Lemmas for the exchange process

    What the events leave alone (the callbacks change neither the instruments nor
    the publisher, and only a disconnection or the timer ends sessions), what a
    session call emits, and the registry after start-up. *)
From S2P Require Import Prelude Types Sbe Mdp3 OrderedMap Order OrderBook Engine EngineTheorems Session SessionLemmas SessionStep SessionInv.
From S2P Require Import SessionTheorems SessionManager Instrument InstrumentManager Validator Typed Gateway MarketData Publisher FeedChannels.
From S2P Require Import PublisherTotal TcpConnection TcpTheorems Config ConfigTheorems Exchange.
Import InstrumentManagerOps SessionManagerOps ExchangeOps.

Definition flags (x : Exchange) : gmap Z bool := closed_ <$> connections_ x.
Definition insts (x : Exchange) : InstrumentManager := instrument_mgr_ (oe_gateway x).
(** The same connections are open, the same sessions registered, nothing has been
    published. *)
Record same_shape (x x' : Exchange) : Prop := {
  ss_flags : flags x' = flags x;
  ss_sessions : sessions_ (session_mgr x') = sessions_ (session_mgr x);
  ss_insts : insts x' = insts x;
  ss_md : md_publisher x' = md_publisher x;
}.
Lemma same_shape_refl x : same_shape x x.
Proof. done. Qed.
Lemma same_shape_trans x1 x2 x3 : same_shape x1 x2 → same_shape x2 x3 → same_shape x1 x3.
Proof. intros [] []. split; congruence. Qed.
#[export] Instance same_shape_preorder : PreOrder same_shape.
Proof. split; [exact same_shape_refl | exact same_shape_trans]. Qed.

Section shape.
Context (steady system report_clock engine_clock md_clock : nat → Z) (lib : openssl).

Lemma onApplicationMessage_insts g now u t d n g' : GatewayOps.onApplicationMessage g now u t d n = Some g' → instrument_mgr_ g' = instrument_mgr_ g.
Proof.
  unfold GatewayOps.onApplicationMessage. repeat case_match; intros; simplify_option_eq; repeat case_match; simplify_eq; done.
Qed.

Lemma callback_shape x o x' : callback steady x o = Some x' → same_shape x x'.
Proof.
  destruct o as [u d|u t d]; cbn.
  - destruct (connections_ x !! u) as [c|] eqn:Ec; [| done]. cbn. unfold TcpOps.send. destruct (TcpOps.frame d) as [msg|]; [| done].
    intros [= <-]. split; [| done..]. unfold flags. cbn. rewrite fmap_insert. apply insert_id. by rewrite lookup_fmap, Ec.
  - intros (g & Hg & [= <-])%bind_Some. split; [done | done | | done]. by apply onApplicationMessage_insts in Hg.
Qed.
Lemma callbacks_shape os : ∀ x x', callbacks steady x os = Some x' → same_shape x x'.
Proof.
  induction os as [|o os IH]; intros x x'; cbn; [by intros [= <-] |]. intros (x1 & H1%callback_shape & H2%IH)%bind_Some. by etrans.
Qed.
Lemma with_callbacks_shape x m x' : with_callbacks steady x m = Some x' →
  flags x' = flags x ∧ sessions_ (session_mgr x') = sessions_ m ∧ insts x' = insts x ∧ md_publisher x' = md_publisher x.
Proof. unfold with_callbacks. intros [H1 H2 H3 H4]%callbacks_shape. done. Qed.
Lemma call_session_shape x p c x' : call_session steady system lib x p c = Some x' → same_shape x x'.
Proof.
  unfold call_session, on_session. intros (m & Hm & Hw)%bind_Some. apply with_callbacks_shape in Hw as (? & Hs & ? & ?). split; [done | | done..].
  apply bind_Some in Hm as (s & _ & Hm). apply bind_Some in Hm as ([? r] & _ & [= <-]). exact Hs.
Qed.
Lemma on_message_shape x u msg x' : on_message steady system lib x u msg = Some x' → same_shape x x'.
Proof. unfold on_message. destruct (findSession _ _); [apply call_session_shape | by intros [= <-]]. Qed.
Lemma removeSession_sessions m u : sessions_ (removeSession m u) = delete u (sessions_ m).
Proof. unfold removeSession. destruct (sessions_ m !! u) eqn:E; [done |]. by rewrite delete_id. Qed.
Lemma on_disconnect_shape x u x' : on_disconnect steady system lib x u = Some x' →
  flags x' = flags x ∧ sessions_ (session_mgr x') = delete u (sessions_ (session_mgr x)) ∧ insts x' = insts x ∧ md_publisher x' = md_publisher x.
Proof.
  unfold on_disconnect. intros (x1 & H1 & [= <-])%bind_Some.
  assert (same_shape x x1) as [E1 E2 E3 E4]; [| split_and!; [exact E1 | cbn; by rewrite removeSession_sessions, E2 | exact E3 | exact E4]]. destruct (findSession _ _); [| by injection H1 as <-].
  apply bind_Some in H1 as (s & _ & H1). case_bool_decide; [by eapply call_session_shape | by injection H1 as <-].
Qed.
Lemma tcp_callbacks_shape u outs : ∀ x x', tcp_callbacks steady system lib x u outs = Some x' →
  flags x' = flags x ∧ insts x' = insts x ∧ md_publisher x' = md_publisher x ∧
  sessions_ (session_mgr x') = if decide (disconnects outs = 0%nat) then sessions_ (session_mgr x) else delete u (sessions_ (session_mgr x)).
Proof.
  induction outs as [|o outs IH]; intros x x'; cbn [tcp_callbacks]; [by intros [= <-] |].
  destruct o as [msg| |bs].
  - intros (x1 & [E1 E2 E3 E4]%on_message_shape & (-> & -> & -> & ->)%IH)%bind_Some. by rewrite E1, E2, E3, E4.
  - intros (x1 & (E1 & E2 & E3 & E4)%on_disconnect_shape & (-> & -> & -> & ->)%IH)%bind_Some. rewrite E1, E2, E3, E4. split_and!; [done | done | done |].
    rewrite (decide_False (P := disconnects (OnDisconnect :: outs) = _)) by done. case_decide; [done |]. by rewrite delete_delete_eq.
  - apply IH.
Qed.
Lemma route_responses_shape rs : ∀ x x', route_responses steady system lib x rs = Some x' → same_shape x x'.
Proof.
  induction rs as [|r rs IH]; intros x x'; cbn; [by intros [= <-] |]. intros (x1 & H1 & H2%IH)%bind_Some. etrans; [| exact H2].
  destruct (findSession _ _); [by eapply call_session_shape | by injection H1 as <-].
Qed.
Lemma engine_round_shape x order x' : engine_round steady system report_clock engine_clock md_clock lib x order = Some x' →
  flags x' = flags x ∧ sessions_ (session_mgr x') = sessions_ (session_mgr x) ∧ insts x' = insts x ∧
  (md_publisher x' = md_publisher x ∨ ∃ evs, PublisherOps.publishEvents md_clock (md_publisher x) order evs = Some (md_publisher x')).
Proof.
  unfold engine_round. intros ([[[[g e] reads] rs] evs] & E & H)%bind_Some. apply bind_Some in H as (x1 & H1%route_responses_shape & H2).
  assert (insts x1 = insts x) as Ei.
  { rewrite (ss_insts _ _ H1). unfold GatewayOps.processCommands in E. by apply bind_Some in E as (w & _ & [= <- _ _ _ _]). }
  pose proof (ss_md _ _ H1) as Em. cbn in Em.
  case_bool_decide; [injection H2 as <-; split_and!; try done; [apply H1 | apply H1 | by left] |].
  apply bind_Some in H2 as (p & Hp & [= <-]). rewrite Em in Hp. split_and!; try done; [apply H1 | apply H1 | right; by exists evs].
Qed.
Lemma tick_loop_sessions order : ∀ m ts m' ts', tick_loop steady system lib order m ts = Some (m', ts') → sessions_ m' = sessions_ m.
Proof.
  induction order as [|[u p] order IH]; intros m ts m' ts'; cbn; [by intros [= <- _] |].
  intros (m1 & H1 & (s & _ & H2)%bind_Some)%bind_Some. rewrite (IH _ _ _ _ H2). unfold on_session in H1.
  apply bind_Some in H1 as (s1 & _ & H1). by apply bind_Some in H1 as ([? r] & _ & [= <-]).
Qed.
Lemma timer_round_shape x perm x' : timer_round steady system lib x perm = Some x' →
  flags x' = flags x ∧ insts x' = insts x ∧ md_publisher x' = md_publisher x ∧ sessions_ (session_mgr x') ⊆ sessions_ (session_mgr x).
Proof.
  unfold timer_round, onTimerTick. intros (m & ([m1 ts] & E & [= <-])%bind_Some & H)%bind_Some.
  apply with_callbacks_shape in H as (-> & -> & -> & ->). split_and!; [done | done | done |].
  destruct (delete_all_sessions ts m1) as [-> _]. rewrite (tick_loop_sessions _ _ _ _ _ E). apply map_filter_subseteq.
Qed.
End shape.

(** ** The publisher stays ready

    Every channel keeps its invariant and the cycler over its instruments, every
    instrument can be defined. *)
Definition md_ok (x : Exchange) : Prop :=
  publisher_ready (insts x) (md_publisher x) ∧ Forall (λ i, definable i ∧ in_security_id i ∈i 32) (instruments_ (insts x)).

Lemma md_ok_same x x' : md_publisher x' = md_publisher x → insts x' = insts x → md_ok x → md_ok x'.
Proof. unfold md_ok. by intros -> ->. Qed.

Section steps.
Context (steady system report_clock engine_clock md_clock : nat → Z) (lib : openssl) (cfg : SessionConfig).

Lemma on_connection_md x x' : on_connection steady system lib cfg x = Some x' → md_publisher x' = md_publisher x ∧ insts x' = insts x.
Proof.
  unfold on_connection. destruct (createSession _ _ _ _) as [m [p|]]; [|by intros [= <-]].
  by intros (m' & _ & (s & _ & [= <-])%bind_Some)%bind_Some.
Qed.

Lemma on_tcp_md x u e x' : on_tcp steady system lib x u e = Some x' → md_publisher x' = md_publisher x ∧ insts x' = insts x.
Proof.
  unfold on_tcp. destruct (connections_ x !! u) as [c|]; [|by destruct e; intros [= <-]].
  destruct e; first [by intros [= <-] | intros ([c' outs] & _ & (_ & Ei & Em & _)%tcp_callbacks_shape)%bind_Some; by split].
Qed.

Lemma snapshot_round_total x ch : md_ok x → ∃ p, snapshot_round md_clock x ch = Some (set_md p x).
Proof.
  intros [Hc Hd]. unfold snapshot_round. destruct (channel_publishers_ (md_publisher x) !! ch) as [c|] eqn:Ec.
  - pose proof (channel_cycler _ _ _ (map_Forall_lookup_1 _ _ _ _ Hc Ec)) as Hcy.
    destruct (runCycle_total md_clock (PublisherOps.book_snapshot (engine x)) c (md_reads (md_publisher x)) Hcy) as (c' & r' & ->).
    cbn [mbind option_bind]. by eexists.
  - exists (md_publisher x). by destruct x.
Qed.

Lemma definition_round_total x order : md_ok x → ∃ p, definition_round md_clock x order = Some (set_md p x).
Proof.
  intros [Hc Hd]. unfold definition_round. fold (insts x).
  destruct (replay_round_total md_clock (insts x) order) with (p := md_publisher x) as (p & ->).
  { eapply Forall_impl; [exact Hd|]. by intros ? []. }
  by exists p.
Qed.

(** No event changes an instrument, and every channel only goes on publishing. *)
Lemma exchange_step_frame x e x' : exchange_step steady system report_clock engine_clock md_clock lib cfg x e = Some x' →
  insts x' = insts x ∧ evolves md_clock (md_publisher x) (md_publisher x').
Proof.
  intros E. destruct e as [|u e|order|perm|ch|order]; cbn [exchange_step] in E.
  - by apply on_connection_md in E as [-> ->].
  - by apply on_tcp_md in E as [-> ->].
  - apply engine_round_shape in E as (_ & _ & -> & [->|[evs Ep]]); [done|]. split; [done|]. by eapply publishEvents_evolves.
  - by apply timer_round_shape in E as (_ & -> & -> & _).
  - unfold snapshot_round in E. destruct (channel_publishers_ (md_publisher x) !! ch) as [c|] eqn:Ec; [|by injection E as <-].
    apply bind_Some in E as ([c' r'] & E & [= <-]). split; [done|]. by eapply (evolves_set md_clock _ _ _ _ _ (CCycle _)).
  - unfold definition_round in E. apply bind_Some in E as (p & E & [= <-]). split; [done|]. by eapply replay_round_evolves.
Qed.

Lemma step_md x e x' : exchange_step steady system report_clock engine_clock md_clock lib cfg x e = Some x' → md_ok x → md_ok x'.
Proof. unfold md_ok. intros [-> He]%exchange_step_frame [Hc Hd]. split; [by eapply evolves_ready|done]. Qed.

Lemma run_frame es : ∀ x x', exchange_run steady system report_clock engine_clock md_clock lib cfg x es = Some x' →
  insts x' = insts x ∧ evolves md_clock (md_publisher x) (md_publisher x').
Proof.
  induction es as [|e es IH]; intros x x'; cbn [exchange_run]; [by intros [= <-]|].
  intros (x1 & [E1 V1]%exchange_step_frame & [E2 V2]%IH)%bind_Some. split; [congruence|by etrans].
Qed.
End steps.

Import SessionOps SessionManagerOps InstrumentManagerOps ExchangeOps.

(** ** What a session emits *)
Section emits.
Context (steady system : nat → Z) (lib : openssl).

(** A call [c] of the session with identifier [u] may emit [o]: to its own wire,
    or to the gateway the very message it has received. *)
Definition emits (u : Z) (c : Call) (o : Output) : Prop :=
  match o with
  | ToWire v _ => v = u
  | ToGateway v t d => v = u ∧ c = Receive d ∧ template d = Some t
  end.

(** [r'] is [r] with messages of [u] added to the wire. *)
Definition wired (u : Z) (r r' : Run) : Prop :=
  uuid_ (sess r') = uuid_ (sess r) ∧
  ∃ new, outs r' = outs r ++ new ∧ Forall (λ o, match o with ToWire v _ => v = u | _ => False end) new.

Lemma wired_refl u r r' : uuid_ (sess r') = uuid_ (sess r) → outs r' = outs r → wired u r r'.
Proof. intros Hu Ho. split; [done|]. exists []. by rewrite app_nil_r. Qed.

Lemma wired_trans u r1 r2 r3 : wired u r1 r2 → wired u r2 r3 → wired u r1 r3.
Proof.
  intros (E1 & n1 & H1 & F1) (E2 & n2 & H2 & F2). split; [congruence|]. exists (n1 ++ n2).
  rewrite H2, H1, app_assoc. split; [done|]. by apply Forall_app.
Qed.

Lemma wired_send d r r1 : uuid_ (sess r1) = uuid_ (sess r) → send_cb_ (sess r1) = send_cb_ (sess r) → outs r1 = outs r →
  wired (uuid_ (sess r)) r (after_send steady d r1).
Proof.
  intros Es Ec Eo. split; [by cbn; rewrite Es|]. eexists. cbn. rewrite Eo. split; [done|].
  unfold SessionLemmas.wire. rewrite Es, Ec. destruct (send_cb_ (sess r)); [by apply Forall_singleton|by apply Forall_nil_2].
Qed.

Lemma wired_resend ms u : ∀ r, uuid_ (sess r) = u → wired u r (foldl (λ r m, after_send steady m r) r ms).
Proof.
  induction ms as [|m ms IH]; intros r Hu; [by apply wired_refl|]. cbn [foldl].
  eapply wired_trans; [|by apply IH]. rewrite <-Hu. by apply wired_send.
Qed.

Lemma wired_terminate code r r1 : uuid_ (sess r1) = uuid_ (sess r) → send_cb_ (sess r1) = send_cb_ (sess r) → outs r1 = outs r →
  wired (uuid_ (sess r)) r (after_terminate steady system code r1).
Proof. intros. by apply (wired_send _ r (tick r1)). Qed.

Lemma wired_emits u c r r' : wired u r r' →
  ∃ new, outs r' = outs r ++ new ∧ Forall (emits u c) new ∧ gateway new = [].
Proof.
  intros (_ & new & H & F). exists new. split; [done|]. split; [eapply Forall_impl; [exact F|]; by intros []|].
  clear H. induction F as [|o new Ho F IH]; [done|]. by destruct o.
Qed.

Lemma step_emits r c r' : step steady system lib r c r' →
  ∃ new, outs r' = outs r ++ new ∧ Forall (emits (uuid_ (sess r)) c) new ∧ (length (gateway new) ≤ 1)%nat ∧
    (state_ (sess r) ≠ Established → gateway new = []).
Proof.
  intros Hst.
  assert (wired (uuid_ (sess r)) r r' → ∃ new, outs r' = outs r ++ new ∧ Forall (emits (uuid_ (sess r)) c) new ∧
    (length (gateway new) ≤ 1)%nat ∧ (state_ (sess r) ≠ Established → gateway new = [])) as Hw.
  { intros (new & ? & ? & E)%(wired_emits _ c). exists new. rewrite E. split_and!; try done. cbn. lia. }
  destruct Hst; try (by apply Hw, wired_refl).
  - apply Hw. by apply (wired_send _ r).
  - apply Hw. by apply (wired_send _ r).
  - apply Hw. by apply (wired_terminate 8 r (recv steady r)).
  - apply Hw. by apply (wired_terminate 0 r (recv steady r)).
  - apply Hw. by apply (wired_send _ r (recv steady r)).
  - apply Hw. eapply wired_trans; [|by apply wired_resend]. by apply wired_send.
  - assert (wired (uuid_ (sess r)) r (count_seq seq (count_gap steady seq (recv steady r)))) as (Hu & new & Hn & Hf).
    { eapply (wired_trans _ _ (count_gap steady seq (recv steady r))).
      - unfold count_gap. destruct (_ <? _); [by apply (wired_send _ r)|by apply wired_refl].
      - unfold count_seq. destruct (_ =? _); by apply wired_refl. }
    destruct (wired_emits _ (Receive data) _ _ (conj Hu (ex_intro _ new (conj Hn Hf)))) as (new' & Hn' & Hf' & Hg').
    rewrite Hn in Hn'. apply app_inv_head in Hn' as <-.
    exists (new ++ if app_cb_ (sess (count_seq seq (count_gap steady seq (recv steady r)))) then [ToGateway (uuid_ (sess r)) t data] else []).
    cbn. rewrite Hn, Hu, <-app_assoc, gateway_app, Hg'. split_and!; [done| |by destruct (app_cb_ _); cbn; lia|done].
    apply Forall_app. split; [done|]. destruct (app_cb_ _); [by apply Forall_singleton|by apply Forall_nil_2].
  - apply Hw. assert (wired (uuid_ (sess r)) r r1) as (Hu & Hn)
      by (unfold r1; destruct beat; [by apply (wired_send _ r (tick r))|by apply wired_refl]).
    destruct dead; [|done]. eapply wired_trans; [by split|]. rewrite <-Hu. by apply wired_terminate.
  - apply Hw. by apply (wired_send _ r).
  - apply Hw. by apply (wired_terminate _ r).
Qed.
End emits.

(** ** The registry after start-up *)

(** The positions the registry's map holds are those of instruments with a
    positive tick, and every instrument can be defined. *)
Definition registry_inv (m : InstrumentManager) : Prop :=
  (∀ id k, by_security_id_ m !! id = Some k → is_Some (instruments_ m !! k)) ∧
  Forall (λ i, (∃ t, InstrumentOps.tickMantissa i = Some t ∧ 0 < t) ∧ definable i) (instruments_ m).
Definition tick_of (i : Instrument) : Z := default 0 (InstrumentOps.tickMantissa i).

Lemma registry_inv_ok m : registry_inv m → registry_ok m tick_of.
Proof.
  intros [Hk Ht]. split.
  - intros id. unfold findBySecurityId. destruct (by_security_id_ m !! id) as [k|] eqn:E; [|by eexists].
    destruct (Hk _ _ E) as [i ->]. by eexists.
  - intros id i. unfold findBySecurityId. destruct (by_security_id_ m !! id) as [k|] eqn:E; [|done].
    destruct (instruments_ m !! k) as [i'|] eqn:Ei; [|done]. cbn. intros [= ->].
    destruct (proj1 (Forall_lookup _ _) Ht _ _ Ei) as [(t & Et & ?) _]. unfold tick_of. by rewrite Et.
Qed.

(** The instruments, whatever their status. *)
Definition listing (m : InstrumentManager) : list Instrument := set_trading_status PreOpen <$> instruments_ m.

Lemma channel_securities m ch :
  in_security_id <$> getInstrumentsByChannel m ch = in_security_id <$> filter (λ i, in_channel_id i = ch) (listing m).
Proof.
  unfold getInstrumentsByChannel, listing. induction (instruments_ m) as [|i l IH]; [done|].
  rewrite fmap_cons, !filter_cons. cbn [in_channel_id set_trading_status]. case_decide; cbn [fmap list_fmap in_security_id]; by rewrite IH.
Qed.
Lemma listing_ids m : all_ids m = in_security_id <$> listing m.
Proof. unfold all_ids, listing. by rewrite <-list_fmap_compose. Qed.

Lemma setTradingStatus_registry m id status : registry_inv m →
  ∃ m', setTradingStatus m id status = Some m' ∧ registry_inv m' ∧ listing m' = listing m.
Proof.
  intros [Hk Ht]. unfold setTradingStatus. destruct (by_security_id_ m !! id) as [k|] eqn:E; [|by eexists].
  destruct (Hk _ _ E) as [i Hi]. rewrite Hi. cbn. eexists. split; [done|]. split; [split|].
  - intros id' k' E'. cbn in *. rewrite list_lookup_insert_is_Some. naive_solver.
  - cbn. apply Forall_insert; [done|]. rewrite definable_status. by apply (proj1 (Forall_lookup _ _) Ht _ _ Hi).
  - unfold listing. cbn. rewrite list_fmap_insert. apply list_insert_id. by rewrite list_lookup_fmap, Hi.
Qed.

Lemma set_statuses_registry status ids : ∀ m, registry_inv m →
  ∃ m', set_statuses status ids m = Some m' ∧ registry_inv m' ∧ listing m' = listing m.
Proof.
  induction ids as [|id ids IH]; intros m Hm; [by exists m|]. cbn.
  destruct (setTradingStatus_registry m id status Hm) as (m1 & -> & Hm1 & E1). cbn.
  destruct (IH m1 Hm1) as (m2 & -> & Hm2 & E2). exists m2. by rewrite E2, E1.
Qed.

(** A configuration the theorems are about: valid, with identifiers of 32 bits,
    ticks of at least a billionth and instruments that can be defined. *)
Record config_ok (cfg : ExchangeConfig) : Prop := {
  co_valid : accepted_config cfg;
  co_ids : Forall (λ ic, ic_security_id ic ∈i 32) (instruments cfg);
  co_ticks : Forall (λ ic, ∃ t, InstrumentOps.tickMantissa (make_instrument ic) = Some t ∧ 0 < t) (instruments cfg);
  co_definable : Forall (λ ic, definable (make_instrument ic)) (instruments cfg);
}.

Lemma load_registry cfg : config_ok cfg →
  ∃ m, loadFromConfig InstrumentManager_init (instruments cfg) (channels cfg) = Some m ∧ registry_inv m ∧
    Forall (λ sid, sid ∈i 32) (all_ids m).
Proof.
  intros [_ Hi Ht Hd]. destruct (load_ok InstrumentManager_init (instruments cfg) (channels cfg)) as (m & E & Hl).
  exists m. split; [done|]. destruct Hl as [Hin Hid _ _ _ _]. unfold all_ids. rewrite Hin. split; [split|].
  - intros id k Hk%Hid. destruct Hk as [Hk _]. apply list_lookup_fmap_Some in Hk as (i & _ & Hk). by eexists.
  - rewrite Hin. apply Forall_fmap. by apply Forall_and.
  - rewrite <-list_fmap_compose. by apply Forall_fmap.
Qed.

(** ** The publisher after start-up *)
Lemma publisher_started chs m1 m2 : listing m1 = listing m2 →
  publisher_ready m2 (PublisherOps.start_cyclers m1 (PublisherOps.MarketDataPublisher_init chs m1)).
Proof.
  intros Hl ch c. cbn. rewrite map_lookup_imap. intros (c0 & H0 & [= <-])%bind_Some.
  assert (channel_inv c0) as Hc.
  { assert (map_Forall (λ _ : Z, channel_inv) (∅ : gmap Z ChannelPublisher)) as Hp by apply map_Forall_empty. cbn in H0.
    revert H0 Hp. generalize (∅ : gmap Z ChannelPublisher).
    induction chs as [|cc chs IH]; intros pubs H0 Hp; cbn in H0; [exact (map_Forall_lookup_1 _ _ _ _ Hp H0)|].
    apply (IH _ H0). apply map_Forall_insert_2; [apply channel_init_inv|done]. }
  split; [by eapply (channel_op_inv (λ _, 0) c0 0%nat (CInitCycler _))|]. cbn. by rewrite !channel_securities, Hl.
Qed.
