(* ===== verification/ExchangeInv.v ===== *)
(** * The invariant of the exchange process

    The invariants of the components side by side, what ties them together
    (every session has its connection, every queued command comes from a session
    that was established), and its preservation by every callback. *)
From S2P Require Import Prelude Types Sbe ILink3 Order Engine EngineTheorems Typed Instrument InstrumentManager Validator Risk Gateway GatewayTheorems.
From S2P Require Import Session SessionLemmas SessionStep SessionInv SessionTheorems SessionManager Publisher.
From S2P Require Import Config ConfigTheorems PublisherTotal TcpConnection TcpTheorems Exchange ExchangeLemmas.
Import SessionOps SessionManagerOps ExchangeOps.

(** A message of a client: complete for what the session reads of it and, when
    the session forwards it, for what the gateway reads, with a modify quantity
    that fits [int32_t]. *)
Definition client_ok (data : list byte) : Prop :=
  complete data ∧
  (template data = Some NewOrderSingle514.TEMPLATE_ID → (124 ≤ length data)%nat) ∧
  (template data = Some OrderCancelRequest516.TEMPLATE_ID → (96 ≤ length data)%nat) ∧
  (template data = Some OrderCancelReplaceRequest515.TEMPLATE_ID →
     ∃ m, OrderCancelReplaceRequest515.decode data 0 = Some m ∧ OrderCancelReplaceRequest515.orderQty m < 2 ^ 31).

(** The messages one session was handed, out of all of them. *)
Definition payloads (u : Z) (hist : list (Z * list byte)) : list (list byte) :=
  omap (λ '(v, m), if decide (v = u) then Some m else None) hist.

Lemma payloads_app u h1 h2 : payloads u (h1 ++ h2) = payloads u h1 ++ payloads u h2.
Proof. apply omap_app. Qed.

Section handshake.
Context (lib : openssl) (key : list byte).

(** The client of session [u] has sent an authentic Negotiate, and then an
    authentic Establish. *)
Definition negotiated (hist : list (Z * list byte)) (u : Z) : Prop :=
  ∃ neg, neg ∈ payloads u hist ∧ template neg = Some 500 ∧ signed lib key neg.
Definition established (hist : list (Z * list byte)) (u : Z) : Prop :=
  ∃ neg est, [neg; est] `sublist_of` payloads u hist ∧
    template neg = Some 500 ∧ signed lib key neg ∧ template est = Some 503 ∧ signed lib key est.

Lemma negotiated_mono hist new u : negotiated hist u → negotiated (hist ++ new) u.
Proof. intros (neg & ? & ?). exists neg. rewrite payloads_app, elem_of_app. naive_solver. Qed.
Lemma established_mono hist new u : established hist u → established (hist ++ new) u.
Proof.
  intros (neg & est & ? & ?). exists neg, est. rewrite payloads_app. split; [|done]. by apply sublist_inserts_r.
Qed.
Lemma negotiated_new hist u neg : template neg = Some 500 → signed lib key neg → negotiated (hist ++ [(u, neg)]) u.
Proof.
  intros. exists neg. split; [|done]. rewrite payloads_app, elem_of_app. right. cbn. rewrite decide_True by done. left.
Qed.
Lemma established_new hist u est :
  negotiated hist u → template est = Some 503 → signed lib key est → established (hist ++ [(u, est)]) u.
Proof.
  intros (neg & Hin & ? & ?) ? ?. exists neg, est. split; [|done]. rewrite payloads_app. cbn. rewrite decide_True by done.
  apply (sublist_app [neg] _ [est] [est]); [by apply singleton_sublist_l|done].
Qed.

(** How a session comes to be negotiated or established. *)
Lemma step_auth steady system HMAC r c r' :
  lib = Some HMAC → (∀ k d x, HMAC k d = Some x → length x = 32%nat) →
  hmac_enabled_ (sess r) = true → hmac_key_ (sess r) = key → step steady system lib r c r' →
  (state_ (sess r') = Negotiated → state_ (sess r) = Negotiated ∨ ∃ neg, c = Receive neg ∧ template neg = Some 500 ∧ signed lib key neg) ∧
  (state_ (sess r') = Established → state_ (sess r) = Established ∨
     state_ (sess r) = Negotiated ∧ ∃ est, c = Receive est ∧ template est = Some 503 ∧ signed lib key est).
Proof.
  intros HL Hlen He Hk Hst. subst lib key.
  assert (state_ (sess r') = state_ (sess r) → (state_ (sess r') = Negotiated → state_ (sess r) = Negotiated ∨
      ∃ neg, c = Receive neg ∧ template neg = Some 500 ∧ signed (Some HMAC) (hmac_key_ (sess r)) neg) ∧
    (state_ (sess r') = Established → state_ (sess r) = Established ∨
      state_ (sess r) = Negotiated ∧ ∃ est, c = Receive est ∧ template est = Some 503 ∧ signed (Some HMAC) (hmac_key_ (sess r)) est)) as Hsame
    by (intros ->; split; by left).
  destruct Hst as [| |r data neg Ht Hs Hd Ha|r data est Ht Hs Hd Ha|r data t Ht Hs Ha| | |r data u lu ts from n ms| |
    |r now beat dead r1 Hs| | | | | |]; try (by apply Hsame); try (by split).
  - split; [|done]. intros _. right. exists data. split; [done|]. split; [done|]. apply authentic_signed; try done.
    assert (93 ≤ length data)%nat by exact (decode_length (M := Negotiate500.t) data neg Hd). lia.
  - split; [done|]. intros _. right. split; [done|]. exists data. split; [done|]. split; [done|]. apply authentic_signed; try done.
    assert (91 ≤ length data)%nat by exact (decode_length (M := Establish503.t) data est Hd). lia.
  - apply Hsame. by rewrite state_resend.
  - apply Hsame. apply (state_count steady seq (recv steady r)).
  - destruct dead; [by split|]. apply Hsame. subst r1. by destruct beat.
Qed.
End handshake.

(** ** The invariant *)
Definition conn_ok (c : TcpConnection) : Prop := (∃ input ps, receiving input ps c) ∨ is_closed c.
Definition gw_state (x : Exchange) : GwState := mkGwState (oe_gateway x) (engine x) (engine_reads x).
Definition x_ids (x : Exchange) : Z := gw_ids (gw_state x).

Section inv.
Context (steady system report_clock engine_clock md_clock : nat → Z) (lib : openssl) (cfg : SessionConfig).

(** HMACs are required and the library computes them. *)
Definition secured : Prop :=
  hmac_enabled cfg = true ∧ ∃ HMAC, lib = Some HMAC ∧ ∀ k d x, HMAC k d = Some x → length x = 32%nat.

Definition session_secured (hist : list (Z * list byte)) (s : Session) : Prop :=
  hmac_enabled_ s = true ∧ hmac_key_ s = key_bytes cfg ∧
  (state_ s = Negotiated → negotiated lib (key_bytes cfg) hist (uuid_ s)) ∧
  (state_ s = Established → established lib (key_bytes cfg) hist (uuid_ s)).

Record exchange_ok (hist : list (Z * list byte)) (x : Exchange) : Prop := {
  xo_mgr : manager_inv (max_sessions cfg) (session_mgr x);
  xo_outs : mgr_outs (session_mgr x) = [];
  xo_conns : ∀ p s, session_heap (session_mgr x) !! p = Some s →
    1 ≤ uuid_ s < next_uuid_ (session_mgr x) ∧ is_Some (connections_ x !! uuid_ s);
  xo_tcp : map_Forall (λ _, conn_ok) (connections_ x);
  xo_gw : gw_ok tick_of (gw_state x);
  xo_secured : secured → (∀ p s, session_heap (session_mgr x) !! p = Some s → session_secured hist s) ∧
    Forall (λ cmd, established lib (key_bytes cfg) hist (oc_session_uuid cmd)) (command_queue_ (oe_gateway x));
}.

Lemma session_secured_mono hist new s : session_secured hist s → session_secured (hist ++ new) s.
Proof. intros (? & ? & Hn & He). split_and!; try done; intros E; [by apply negotiated_mono, Hn|by apply established_mono, He]. Qed.

Lemma exchange_ok_mono hist new x : exchange_ok hist x → exchange_ok (hist ++ new) x.
Proof.
  intros [H1 H2 H3 H4 H5 H6]. split; try done. intros Hs. destruct (H6 Hs) as [Ha Hb]. split.
  - intros p s Hp. by eapply session_secured_mono, Ha.
  - eapply Forall_impl; [exact Hb|]. intros. by apply established_mono.
Qed.

(** ** The callbacks of a session *)
Lemma onApplicationMessage_uuid g now u t d n g' : GatewayOps.onApplicationMessage g now u t d n = Some g' →
  command_queue_ g' = command_queue_ g ∨ ∃ cmd, command_queue_ g' = command_queue_ g ++ [cmd] ∧ oc_session_uuid cmd = u.
Proof.
  unfold GatewayOps.onApplicationMessage. destruct (_ =? _); [|destruct (_ =? _); [|destruct (_ =? _)]].
  - unfold GatewayOps.decodeNewOrderSingle. intros (cmd & Hcmd & H)%bind_Some. apply bind_Some in Hcmd as (m & _ & [= <-]). cbn in H.
    apply bind_Some in H as (v & _ & H). destruct (RiskOps.checkRate _ _ _) as [rr risk]. injection H as <-. right. eexists. split; [reflexivity|done].
  - unfold GatewayOps.decodeCancelRequest. intros (cmd & Hcmd & H)%bind_Some. apply bind_Some in Hcmd as (m & _ & [= <-]).
    apply bind_Some in H as (v & _ & [= <-]). right. eexists. split; [reflexivity|done].
  - unfold GatewayOps.decodeModifyRequest. intros (cmd & Hcmd & H)%bind_Some. apply bind_Some in Hcmd as (m & _ & [= <-]).
    apply bind_Some in H as (v & _ & [= <-]). right. eexists. split; [reflexivity|done].
  - intros [= <-]. by left.
Qed.

(** What the callbacks of a session leave alone. *)
Record callback_frame (x x' : Exchange) : Prop := {
  cf_mgr : session_mgr x' = session_mgr x;
  cf_dom : dom (connections_ x') = dom (connections_ x);
  cf_engine : engine x' = engine x;
  cf_reads : engine_reads x' = engine_reads x;
}.

Definition out_ok (x : Exchange) (o : Output) : Prop :=
  match o with
  | ToWire u _ => is_Some (connections_ x !! u)
  | ToGateway u t d => u ∈u 64 ∧ client_ok d ∧ template d = Some t
  end.

Lemma send_conn_ok c d : conn_ok c → ∃ c', TcpOps.send c d = Some c' ∧ conn_ok c'.
Proof.
  intros Hc. unfold TcpOps.send. destruct (frame_Some d) as [msg ->]. cbn. eexists. split; [done|].
  destruct Hc as [(input & ps & H)|H]; [left; by exists input, ps|by right].
Qed.

Definition gw_part (x : Exchange) : Prop := map_Forall (λ _, conn_ok) (connections_ x) ∧ gw_ok tick_of (gw_state x).

Lemma callback_ok x o : gw_part x → out_ok x o →
  ∃ x', callback steady x o = Some x' ∧ gw_part x' ∧ callback_frame x x' ∧
    x_ids x' ≤ x_ids x + Z.of_nat (length (SessionTheorems.gateway [o])) ∧
    ∃ q, command_queue_ (oe_gateway x') = command_queue_ (oe_gateway x) ++ q ∧
      Forall (λ cmd, ∃ t d, o = ToGateway (oc_session_uuid cmd) t d) q.
Proof.
  intros [Ht Hg] Ho. destruct o as [u d|u t d]; cbn [callback].
  - destruct Ho as [c Hc]. rewrite Hc. cbn. destruct (send_conn_ok c d (Ht _ _ Hc)) as (c' & -> & Hc'). cbn.
    eexists. split; [done|]. split; [split; [by apply map_Forall_insert_2|done]|]. split.
    { split; cbn; try done. rewrite dom_insert_L. apply elem_of_dom_2 in Hc. set_solver. }
    split; [unfold x_ids, gw_ids; cbn; lia|]. exists []. by rewrite app_nil_r.
  - destruct Ho as (Hu & (Hcm & H514 & H516 & H515) & Htd).
    destruct (on_message_ok tick_of (oe_gateway x) (steady (mgr_reads (session_mgr x))) u t d (go_registry _ _ Hg)) as (g' & E & Hm & Hb & Hq).
    { split; [exact Hu|]. split; [|split]; intros ->; auto. }
    rewrite E. cbn. eexists. split; [done|]. destruct Hg as [G1 G2 G3 G4]. split; [split; [done|]|].
    { split; cbn; [by rewrite Hm| |by rewrite Hb|done].
      destruct Hq as [-> |(cmd & -> & Hcmd)]; [done|]. apply Forall_app. split; [done|by apply Forall_singleton]. }
    split; [done|]. destruct (onApplicationMessage_uuid _ _ _ _ _ _ _ E) as [Eq|(cmd & Eq & Hcu)]; unfold x_ids, gw_ids; cbn; rewrite Eq.
    + split; [lia|]. exists []. by rewrite app_nil_r.
    + rewrite length_app. cbn. split; [lia|]. exists [cmd]. split; [done|]. apply Forall_singleton. rewrite Hcu. by exists t, d.
Qed.

Lemma callbacks_ok os : ∀ x, gw_part x → Forall (out_ok x) os →
  ∃ x', callbacks steady x os = Some x' ∧ gw_part x' ∧ callback_frame x x' ∧
    x_ids x' ≤ x_ids x + Z.of_nat (length (SessionTheorems.gateway os)) ∧
    ∃ q, command_queue_ (oe_gateway x') = command_queue_ (oe_gateway x) ++ q ∧
      Forall (λ cmd, ∃ t d, ToGateway (oc_session_uuid cmd) t d ∈ os) q.
Proof.
  induction os as [|o os IH]; intros x Hx Ho; cbn [callbacks].
  - exists x. split_and!; [done..|cbn; lia|]. exists []. by rewrite app_nil_r.
  - apply Forall_cons in Ho as [Ho Hos]. destruct (callback_ok x o Hx Ho) as (x1 & -> & Hx1 & [F1 F2 F3 F4] & Hi1 & q1 & Q1 & A1). cbn [mbind option_bind].
    destruct (IH x1 Hx1) as (x2 & -> & Hx2 & [F1' F2' F3' F4'] & Hi2 & q2 & Q2 & A2).
    { eapply Forall_impl; [exact Hos|]. intros [u d|u t d]; [|done]. cbn. rewrite <-!elem_of_dom. by rewrite F2. }
    exists x2. split_and!; [done|done|split; congruence| |].
    + change (SessionTheorems.gateway (o :: os)) with (SessionTheorems.gateway ([o] ++ os)). rewrite gateway_app, length_app. lia.
    + exists (q1 ++ q2). rewrite Q2, Q1, app_assoc. split; [done|]. apply Forall_app. split.
      * eapply Forall_impl; [exact A1|]. intros cmd (t & d & ->). exists t, d. left.
      * eapply Forall_impl; [exact A2|]. intros cmd (t & d & ?). exists t, d. by right.
Qed.

(** ** Calls of a session *)
Definition call_ok (c : Call) : Prop := no_set c ∧ match c with Receive d => client_ok d | _ => True end.
Definition after_call (hist : list (Z * list byte)) (u : Z) (c : Call) : list (Z * list byte) :=
  match c with Receive d => hist ++ [(u, d)] | _ => hist end.
Definition call_cost (c : Call) : Z := match c with Receive _ => 1 | _ => 0 end.

(** What the calls of sessions leave alone. *)
Record call_frame (x x' : Exchange) : Prop := {
  kf_sessions : sessions_ (session_mgr x') = sessions_ (session_mgr x);
  kf_next : next_uuid_ (session_mgr x') = next_uuid_ (session_mgr x);
  kf_heap : dom (session_heap (session_mgr x')) = dom (session_heap (session_mgr x));
  kf_dom : dom (connections_ x') = dom (connections_ x);
  kf_engine : engine x' = engine x;
}.
Lemma call_frame_refl x : call_frame x x.
Proof. done. Qed.
Lemma call_frame_trans x1 x2 x3 : call_frame x1 x2 → call_frame x2 x3 → call_frame x1 x3.
Proof. intros [] []. split; congruence. Qed.

(** One session after a call, towards the gateway. *)
Lemma session_secured_step hist s n o c r' :
  secured → session_secured hist s → no_set c → step steady system lib (mkRun s n o) c r' → session_secured (after_call hist (uuid_ s) c) (sess r').
Proof.
  intros [_ (HMAC & HL & Hlen)] (He & Hk & Hn & Hes) Hc Hst.
  destruct (step_hmac _ _ _ _ _ _ Hc Hst) as [Hk' He']. cbn in Hk', He'.
  pose proof (step_identity _ _ _ _ _ _ Hst) as Hid. injection Hid as Hu _ _. cbn in Hu.
  destruct (step_auth lib (key_bytes cfg) steady system HMAC (mkRun s n o) c r' HL Hlen He Hk Hst) as [H1 H2]. cbn in H1, H2.
  unfold session_secured. rewrite Hk', He', Hu. split_and!; [done|done| |].
  - intros [Hs|(neg & -> & ? & ?)]%H1; [|by apply negotiated_new].
    destruct c; try (by apply Hn). by apply negotiated_mono, Hn.
  - intros [Hs|[Hs (est & -> & ? & ?)]]%H2; [|by apply established_new; auto].
    destruct c; try (by apply Hes). by apply established_mono, Hes.
Qed.

Lemma emits_quiet u c new : Forall (emits u c) new → (length (SessionTheorems.gateway new) ≤ 1)%nat →
  Z.of_nat (length (SessionTheorems.gateway new)) ≤ call_cost c.
Proof.
  intros Hf Hl. destruct c; cbn; try lia; (assert (SessionTheorems.gateway new = []) as ->; [|done]); clear Hl;
    (induction Hf as [|o new Ho Hf IH]; [done|]); destruct o; cbn in Ho; naive_solver.
Qed.

Lemma call_session_ok hist x p s c :
  exchange_ok hist x → session_heap (session_mgr x) !! p = Some s → call_ok c →
  ∃ x', call_session steady system lib x p c = Some x' ∧ exchange_ok (after_call hist (uuid_ s) c) x' ∧
    call_frame x x' ∧ x_ids x' ≤ x_ids x + call_cost c.
Proof.
  intros Hx Hp [Hns Hc]. pose proof Hx as [H1 H2 H3 H4 H5 H6]. unfold call_session.
  assert (complete_call c) as Hcc by (destruct c; try done; apply Hc).
  destruct (on_session_inv _ steady system lib _ p c H1 Hcc (mk_is_Some _ _ Hp)) as (m' & E & Hm' & Hs' & Hd' & Ho').
  rewrite E. cbn [mbind option_bind]. unfold on_session in E. rewrite Hp, H2 in E. cbn [mbind option_bind] in E.
  destruct (exec_inv steady system lib c (mkRun s (mgr_reads (session_mgr x)) []) Hcc) as (r & Er & Hst & _); [exact (mi_heap _ _ H1 _ _ Hp)|].
  rewrite Er in E. injection E as <-.
  destruct (step_emits _ _ _ _ _ _ Hst) as (new & Hnew & Hem & Hlen & Hq). cbn in Hnew, Hem, Hq.
  pose proof (step_identity _ _ _ _ _ _ Hst) as Hid. injection Hid as Hu _ _. cbn in Hu.
  destruct (H3 _ _ Hp) as [Hur Huc]. pose proof (mi_uuid _ _ H1) as Hnu.
  unfold with_callbacks. change (mgr_outs (set_session _ _ _)) with (outs r). set (x1 := set_manager _ x).
  destruct (callbacks_ok (outs r) x1) as (x' & -> & [Ht' Hg'] & [F1 F2 F3 F4] & Hids & q & Hqq & Hqf); [by split| |].
  { rewrite Hnew. eapply Forall_impl; [exact Hem|]. intros [v d|v t d]; cbn.
    - by intros ->.
    - intros (-> & -> & Htd). split; [lia|]. by split. }
  exists x'. split; [done|]. split; [split|].
  - rewrite F1. destruct Hm' as [M1 M2 M3 M4 M5]. by split.
  - by rewrite F1.
  - rewrite F1. intros p' s'. cbn. rewrite lookup_insert_Some, <-elem_of_dom, F2, elem_of_dom. cbn.
    intros [[<- <-]|[_ Hs1]]; [by rewrite Hu|by apply H3 in Hs1].
  - done.
  - done.
  - intros Hsec. destruct (H6 Hsec) as [Ha Hb]. rewrite F1. split.
    + intros p' s'. cbn. intros [[<- <-]|[_ Hs1]]%lookup_insert_Some.
      * eapply session_secured_step; eauto.
      * destruct c; try (by eapply Ha); by eapply session_secured_mono, Ha.
    + rewrite Hqq. apply Forall_app. split.
      * eapply Forall_impl; [exact Hb|]. intros cmd Hcmd. destruct c; try done. by apply established_mono.
      * destruct (decide (state_ s = Established)) as [He|Hne].
        -- eapply Forall_impl; [exact Hqf|]. intros cmd (t & d & Hin).
           assert (oc_session_uuid cmd = uuid_ s) as ->.
           { rewrite Hnew in Hin. by apply (proj1 (Forall_forall _ _) Hem) in Hin as [-> _]. }
           destruct (Ha _ _ Hp) as (_ & _ & _ & Hes). destruct c; try (by apply Hes). by apply established_mono, Hes.
        -- destruct q as [|cmd q]; [done|]. exfalso. apply Forall_cons in Hqf as [(t & d & Hin) _].
           specialize (Hq Hne). rewrite Hnew in Hin.
           assert ((t, d) ∈ SessionTheorems.gateway new) as Hg by (apply list_elem_of_omap; by eexists).
           rewrite Hq in Hg. by apply elem_of_nil in Hg.
  - split.
    + split; rewrite ?F1, ?F2; done.
    + rewrite Hnew in Hids. pose proof (emits_quiet _ _ _ Hem Hlen). change (x_ids x1) with (x_ids x) in Hids. cbn [app] in Hids. lia.
Qed.

(** ** The callbacks of a connection *)

(** [x'] follows [x] with at most [n] more engine identifiers spoken for. *)
Definition follows (n : Z) (x x' : Exchange) : Prop :=
  next_uuid_ (session_mgr x') = next_uuid_ (session_mgr x) ∧ x_ids x' ≤ x_ids x + n.

Lemma follows_refl x : follows 0 x x.
Proof. split; [done|lia]. Qed.
Lemma follows_trans n1 n2 n x1 x2 x3 : follows n1 x1 x2 → follows n2 x2 x3 → n1 + n2 ≤ n → follows n x1 x3.
Proof. intros [] [] ?. split; [congruence|lia]. Qed.

Lemma find_session_heap hist x u p : exchange_ok hist x → findSession (session_mgr x) u = Some p →
  ∃ s, session_heap (session_mgr x) !! p = Some s ∧ uuid_ s = u.
Proof. intros Hx Hf. destruct (mi_key _ _ (xo_mgr _ _ Hx) _ _ Hf) as (_ & s & ? & ?). by exists s. Qed.

Lemma on_message_step hist x u msg : exchange_ok hist x → client_ok msg →
  ∃ x', on_message steady system lib x u msg = Some x' ∧ exchange_ok (hist ++ [(u, msg)]) x' ∧ follows 1 x x'.
Proof.
  intros Hx Hm. unfold on_message. destruct (findSession (session_mgr x) u) as [p|] eqn:E.
  - destruct (find_session_heap _ _ _ _ Hx E) as (s & Hp & <-).
    destruct (call_session_ok hist x p s (Receive msg) Hx Hp) as (x' & -> & Hx' & [] & Hi); [done|]. by exists x'.
  - exists x. split_and!; [done|by apply exchange_ok_mono|split; [done|lia]].
Qed.

Lemma remove_session_ok hist x u : exchange_ok hist x → exchange_ok hist (set_manager (removeSession (session_mgr x) u) x).
Proof.
  intros [H1 H2 H3 H4 H5 H6]. assert (∀ m, manager_inv (max_sessions cfg) m → manager_inv (max_sessions cfg) (removeSession m u) ∧
    session_heap (removeSession m u) = session_heap m ∧ mgr_outs (removeSession m u) = mgr_outs m ∧ next_uuid_ (removeSession m u) = next_uuid_ m) as Hr.
  { intros m Hm. split; [by apply removeSession_inv|]. unfold removeSession. by destruct (_ !! _). }
  destruct (Hr _ H1) as (R1 & R2 & R3 & R4). split; cbn; rewrite ?R2, ?R3, ?R4; done.
Qed.

Lemma on_disconnect_step hist x u : exchange_ok hist x →
  ∃ x', on_disconnect steady system lib x u = Some x' ∧ exchange_ok hist x' ∧ follows 0 x x'.
Proof.
  intros Hx. unfold on_disconnect.
  assert (∀ x1, exchange_ok hist x1 → follows 0 x x1 →
    ∃ x', Some (set_manager (removeSession (session_mgr x1) u) x1) = Some x' ∧ exchange_ok hist x' ∧ follows 0 x x') as Hend.
  { intros x1 H1 [F1 F2]. eexists. split; [done|]. split; [by apply remove_session_ok|].
    split; [|exact F2]. cbn. unfold removeSession. by destruct (_ !! u). }
  destruct (findSession (session_mgr x) u) as [p|] eqn:E; cbn [mbind option_bind]; [|by apply Hend, follows_refl].
  destruct (find_session_heap _ _ _ _ Hx E) as (s & Hp & _). rewrite Hp. cbn [mbind option_bind].
  case_bool_decide; cbn [mbind option_bind]; [|by apply Hend, follows_refl].
  destruct (call_session_ok hist x p s (Close 0) Hx Hp) as (x1 & -> & Hx1 & [] & Hi); [done|]. by apply Hend.
Qed.

Lemma tcp_callbacks_step u outs : ∀ hist x, exchange_ok hist x → Forall client_ok (delivered outs) →
  ∃ x', tcp_callbacks steady system lib x u outs = Some x' ∧ exchange_ok (hist ++ ((λ m, (u, m)) <$> delivered outs)) x' ∧
    follows (Z.of_nat (length (delivered outs))) x x'.
Proof.
  induction outs as [|o outs IH]; intros hist x Hx Hc; cbn [tcp_callbacks].
  - exists x. rewrite app_nil_r. split_and!; [done|done|apply follows_refl].
  - destruct o as [msg| |bs]; cbn [delivered omap list_omap] in *; fold (delivered outs) in *.
    + apply Forall_cons in Hc as [Hm Hc]. destruct (on_message_step hist x u msg Hx Hm) as (x1 & -> & Hx1 & F1). cbn [mbind option_bind].
      destruct (IH _ _ Hx1 Hc) as (x2 & -> & Hx2 & F2). exists x2. cbn. rewrite <-app_assoc in Hx2. split_and!; [done|done|].
      eapply follows_trans; [done|done|lia].
    + destruct (on_disconnect_step hist x u Hx) as (x1 & -> & Hx1 & F1). cbn [mbind option_bind].
      destruct (IH _ _ Hx1 Hc) as (x2 & -> & Hx2 & F2). exists x2. split_and!; [done|done|]. eapply follows_trans; [done|done|lia].
    + by apply IH.
Qed.

Lemma tcp_step_conn_ok c e : conn_ok c → ∃ c' outs, TcpOps.tcp_step c e = Some (c', outs) ∧ conn_ok c' ∧
  (length (delivered outs) ≤ match e with TReceive bs => length bs | _ => 0 end)%nat.
Proof.
  intros Hc.
  assert (∀ c' outs, TcpOps.tcp_step c e = Some (c', outs) → (length (delivered outs) ≤ match e with TReceive bs => length bs | _ => 0 end)%nat) as Hl.
  { intros c' outs. destruct e as [bs|d| |i n| |i|]; cbn [TcpOps.tcp_step].
    - clear Hc. revert c c' outs. induction bs as [|b bs IH]; intros c c' outs; cbn; [by intros [= <- <-]|].
      intros ([c1 o1] & E1 & ([c2 o2] & E2 & [= <- <-])%bind_Some)%bind_Some. rewrite delivered_messages_app, length_app.
      specialize (IH _ _ _ E2). assert (length (delivered o1) ≤ 1)%nat; [|lia].
      revert E1. unfold TcpOps.on_byte, TcpOps.on_header, TcpOps.on_body, TcpOps.close.
      destruct (TcpConnection.reading c); intros E1;
        repeat (case_match || (apply bind_Some in E1 as (? & _ & E1))); simplify_eq; cbn; lia.
    - intros (? & _ & [= _ <-])%bind_Some. done.
    - by intros [= _ <-].
    - unfold TcpOps.write_some. destruct (_ !! _); by intros [= _ <-].
    - unfold TcpOps.read_error, TcpOps.close. destruct (TcpConnection.reading c), (closed_ c), (on_disconnect_ c); by intros [= _ <-].
    - unfold TcpOps.write_error, TcpOps.close. destruct (_ !! _); cbn; [|by intros [= _ <-]]. destruct (closed_ c), (on_disconnect_ c); by intros [= _ <-].
    - unfold TcpOps.close. destruct (closed_ c), (on_disconnect_ c); by intros [= _ <-]. }
  destruct Hc as [(input & ps & H)|H].
  - destruct (open_step input ps c e H) as (c' & outs & E & Ho). exists c', outs. split; [done|]. split; [|by eapply Hl].
    destruct Ho as [[_ H']|(_ & H' & _)]; [left; by eexists _, _|by right].
  - destruct (closed_step c e H) as (c' & E & H'). exists c', []. split; [done|]. split; [by right|cbn; lia].
Qed.

(** ** The events *)

(** The messages an event hands to the sessions. *)
Definition handed (x : Exchange) (e : XEvent) : list (Z * list byte) :=
  match e with
  | XTcp u e =>
      match e, connections_ x !! u with
      | TSend _, _ | _, None => []
      | _, Some conn =>
          match TcpOps.tcp_step conn e with Some (_, outs) => (λ m, (u, m)) <$> delivered outs | None => [] end
      end
  | _ => []
  end.
(** How many identifiers an event can use up. *)
Definition cost (e : XEvent) : Z := 1 + match e with XTcp _ (TReceive bytes) => Z.of_nat (length bytes) | _ => 0 end.

Lemma cost_pos e : 1 ≤ cost e.
Proof. unfold cost. destruct e as [|? []| | | |]; lia. Qed.
Lemma total_cost_nonneg es : 0 ≤ zsum cost es.
Proof. apply zsum_nonneg, Forall_forall. intros e _. pose proof (cost_pos e). lia. Qed.

Lemma follows_cost n x x' e : follows n x x' → n ≤ cost e →
  next_uuid_ (session_mgr x') ≤ next_uuid_ (session_mgr x) + cost e ∧ x_ids x' ≤ x_ids x + cost e.
Proof. intros [-> ?] ?. pose proof (cost_pos e). lia. Qed.

Lemma on_tcp_step hist x u e : exchange_ok hist x → Forall (client_ok ∘ snd) (handed x (XTcp u e)) →
  ∃ x', on_tcp steady system lib x u e = Some x' ∧ exchange_ok (hist ++ handed x (XTcp u e)) x' ∧ follows (cost (XTcp u e)) x x'.
Proof.
  intros Hx Hh.
  assert ((∃ d, e = TSend d) ∨ on_tcp steady system lib x u e = match connections_ x !! u with None => Some x | Some conn =>
    '(conn, outs) ← TcpOps.tcp_step conn e; tcp_callbacks steady system lib (set_connection u conn x) u outs end ∧
    handed x (XTcp u e) = match connections_ x !! u with None => [] | Some conn =>
      match TcpOps.tcp_step conn e with Some (_, outs) => (λ m, (u, m)) <$> delivered outs | None => [] end end) as [[d ->]|[-> Eh]].
  { destruct e; try (by left; eexists); by right. }
  { exists x. cbn. rewrite app_nil_r. split_and!; [done|done|split; [done|unfold cost; lia]]. }
  rewrite Eh in Hh |- *. destruct (connections_ x !! u) as [c|] eqn:Ec.
  2: { exists x. rewrite app_nil_r. split_and!; [done|done|split; [done|]]. unfold cost. destruct e; lia. }
  destruct (tcp_step_conn_ok c e (xo_tcp _ _ Hx _ _ Ec)) as (c' & outs & E & Hc' & Hl). rewrite E in Hh |- *. cbn [mbind option_bind].
  assert (exchange_ok hist (set_connection u c' x)) as Hx1.
  { destruct Hx as [H1 H2 H3 H4 H5 H6]. split; try done; [|by apply map_Forall_insert_2].
    intros p s Hp. destruct (H3 _ _ Hp) as [? Hu]. split; [done|]. cbn. rewrite lookup_insert_is_Some.
    destruct (decide (u = uuid_ s)); [by left|by right]. }
  destruct (tcp_callbacks_step u outs hist _ Hx1) as (x' & Ex & Hx' & F1 & F2); [by rewrite Forall_fmap in Hh|].
  exists x'. split; [done|]. split; [done|]. split; [done|]. change (x_ids (set_connection u c' x)) with (x_ids x) in F2.
  unfold cost. destruct e; lia.
Qed.

Lemma set_session_run m p s c f :
  session_heap m !! p = Some s → exec steady system lib c = update f →
  on_session steady system lib m p c =
    Some (mkManager (sessions_ m) (next_uuid_ m) (max_sessions_ m) (<[p := f s]> (session_heap m)) (mgr_reads m) (mgr_outs m)).
Proof. intros Hp E. unfold on_session. rewrite Hp, E. done. Qed.

Lemma on_connection_step hist x : exchange_ok hist x → next_uuid_ (session_mgr x) < 2 ^ 64 - 1 →
  ∃ x', on_connection steady system lib cfg x = Some x' ∧ exchange_ok hist x' ∧
    next_uuid_ (session_mgr x') ≤ next_uuid_ (session_mgr x) + 1 ∧ x_ids x' = x_ids x.
Proof.
  intros Hx Hn. pose proof Hx as [H1 H2 H3 H4 H5 H6].
  pose proof (createSession_inv _ steady (session_mgr x) true true H1 Hn) as Hi. unfold on_connection, createSession in *.
  destruct (_ <=? _).
  { exists x. split; [by destruct x|]. split_and!; [done|lia|done]. }
  cbn [fst] in Hi. set (p := fresh (dom (session_heap (session_mgr x)))) in *.
  set (s0 := Session_init _ _ _ _ _) in *. set (m0 := mkManager _ _ _ _ _ _) in *.
  assert (session_heap m0 !! p = Some s0) as Hp0 by apply lookup_insert_eq.
  pose proof (mi_uuid _ _ H1) as Hnu.
  assert (u64 (next_uuid_ (session_mgr x) + 1) = next_uuid_ (session_mgr x) + 1) as Eu by (apply wrapu_small; lia).
  assert (∀ m s, manager_inv (max_sessions cfg) m → session_heap m = <[p := s]> (session_heap (session_mgr x)) → uuid_ s = uuid_ s0 →
    next_uuid_ m = next_uuid_ m0 → mgr_outs m = mgr_outs m0 → (secured → session_secured hist s) →
    ∃ x', (s ← session_heap m !! p; Some (set_connection (uuid_ s) (TcpOps.start TcpOps.TcpConnection_init) (set_manager m x))) = Some x' ∧
      exchange_ok hist x' ∧ next_uuid_ (session_mgr x') ≤ next_uuid_ (session_mgr x) + 1 ∧ x_ids x' = x_ids x) as Hend.
  { intros m s Hm Eh Es En Eo Hsec. rewrite Eh, lookup_insert_eq. cbn [mbind option_bind]. eexists. split; [done|].
    assert (uuid_ s = next_uuid_ (session_mgr x)) as Eus by (rewrite Es; done).
    assert (next_uuid_ m = next_uuid_ (session_mgr x) + 1) as Enm by (rewrite En; exact Eu).
    split; [split; cbn|split; [cbn; lia|done]].
    - done.
    - rewrite Eo. exact H2.
    - rewrite Eh, Enm. intros q s' [[<- <-]|[Hne Hq]]%lookup_insert_Some.
      + split; [lia|]. by rewrite lookup_insert_eq.
      + destruct (H3 _ _ Hq) as [? Hc]. split; [lia|]. rewrite lookup_insert_is_Some. destruct (decide (uuid_ s = uuid_ s')); [by left|by right].
    - apply map_Forall_insert_2; [|done]. left. exists [], []. apply start_receiving.
    - done.
    - intros Hs. destruct (H6 Hs) as [Ha Hb]. split; [|done]. rewrite Eh. intros q s' [[<- <-]|[Hne Hq]]%lookup_insert_Some; [by apply Hsec|by eapply Ha]. }
  destruct (hmac_enabled cfg) eqn:Eh.
  - rewrite (set_session_run m0 p s0 (SetHmacEnabled true) (set_hmac_enabled true) Hp0) by done. cbn [mbind option_bind].
    set (m1 := mkManager _ _ _ _ _ _). set (s1 := set_hmac_enabled true s0) in *.
    assert (session_heap m1 !! p = Some s1) as Hp1 by apply lookup_insert_eq.
    rewrite (set_session_run m1 p s1 (SetHmacKey (key_bytes cfg)) (set_hmac_key (key_bytes cfg)) Hp1) by done. cbn [mbind option_bind].
    destruct (on_session_inv _ steady system lib m0 p (SetHmacEnabled true) Hi I (mk_is_Some _ _ Hp0)) as (m1' & E1 & Hi1 & _).
    rewrite (set_session_run m0 p s0 _ (set_hmac_enabled true) Hp0) in E1 by done. injection E1 as <-.
    destruct (on_session_inv _ steady system lib m1 p (SetHmacKey (key_bytes cfg)) Hi1 I (mk_is_Some _ _ Hp1)) as (m2' & E2 & Hi2 & _).
    rewrite (set_session_run m1 p s1 _ (set_hmac_key (key_bytes cfg)) Hp1) in E2 by done. injection E2 as <-.
    apply (Hend _ (set_hmac_key (key_bytes cfg) s1)); try done.
    cbn. by rewrite !insert_insert_eq.
  - cbn [mbind option_bind]. apply (Hend m0 s0); try done. intros [Hs _]. congruence.
Qed.

Lemma route_responses_step hist rs : ∀ x, exchange_ok hist x →
  ∃ x', route_responses steady system lib x rs = Some x' ∧ exchange_ok hist x' ∧ follows 0 x x'.
Proof.
  induction rs as [|resp rs IH]; intros x Hx; cbn [route_responses]; [exists x; split_and!; [done|done|apply follows_refl]|].
  destruct (findSession (session_mgr x) (resp_session_uuid resp)) as [p|] eqn:E; cbn [mbind option_bind]; [|by apply IH].
  destruct (find_session_heap _ _ _ _ Hx E) as (s & Hp & _).
  destruct (call_session_ok hist x p s (SendApp (sbe_message resp)) Hx Hp) as (x1 & -> & Hx1 & [] & Hi); [done|]. cbn [mbind option_bind].
  destruct (IH x1 Hx1) as (x2 & -> & Hx2 & F2). exists x2. split_and!; [done|done|].
  apply (follows_trans 0 0 0 x x1 x2); [by split|done|lia].
Qed.

Lemma engine_round_step hist x order : exchange_ok hist x → x_ids x < 2 ^ 64 →
  ∃ x', engine_round steady system report_clock engine_clock md_clock lib x order = Some x' ∧ exchange_ok hist x' ∧ follows 1 x x'.
Proof.
  intros Hx Hn. pose proof Hx as [H1 H2 H3 H4 H5 H6].
  destruct (gw_act_ok report_clock engine_clock tick_of (gw_state x) GDrain H5 I Hn) as (g' & rs & evs & E & Hg' & Hids).
  cbn [gw_act gw_state gw gw_engine gw_reads] in E. apply bind_Some in E as ([[[[g e] reads] rs1] evs1] & E & [= <- <- <-]).
  unfold engine_round. rewrite E. cbn [mbind option_bind].
  assert (command_queue_ g = []) as Hq by (unfold GatewayOps.processCommands in E; by apply bind_Some in E as (w & _ & [= <- _ _ _ _])).
  set (x1 := mkExchange _ _ _ _ _ _). assert (exchange_ok hist x1) as Hx1.
  { split; try done. intros Hs. destruct (H6 Hs). split; [done|]. cbn. by rewrite Hq. }
  destruct (route_responses_step hist rs1 x1 Hx1) as (x2 & -> & Hx2 & F2). cbn [mbind option_bind].
  assert (follows 1 x x2) as F by (apply (follows_trans 1 0 1 x x1 x2); [split; [done|exact Hids]|done|lia]).
  case_bool_decide; [by exists x2|].
  destruct (publishEvents_total md_clock (md_publisher x2) order evs1) as [p' ->]. cbn [mbind option_bind].
  exists (set_md p' x2). split; [done|]. split; [|exact F]. by destruct Hx2.
Qed.

(** *** The timer *)
Lemma on_session_timer hist m p s :
  manager_inv (max_sessions cfg) m → session_heap m !! p = Some s →
  ∃ s' m' new, on_session steady system lib m p Timer = Some m' ∧ manager_inv (max_sessions cfg) m' ∧
    mgr_outs m' = mgr_outs m ++ new ∧ Forall (emits (uuid_ s) Timer) new ∧ next_uuid_ m' = next_uuid_ m ∧
    session_heap m' = <[p := s']> (session_heap m) ∧ uuid_ s' = uuid_ s ∧ (secured → session_secured hist s → session_secured hist s').
Proof.
  intros Hm Hp. destruct (on_session_inv _ steady system lib m p Timer Hm I (mk_is_Some _ _ Hp)) as (m' & E & Hm' & _).
  rewrite E. unfold on_session in E. rewrite Hp in E. cbn [mbind option_bind] in E.
  destruct (exec_inv steady system lib Timer (mkRun s (mgr_reads m) (mgr_outs m)) I) as (r & Er & Hst & _); [exact (mi_heap _ _ Hm _ _ Hp)|].
  rewrite Er in E. injection E as <-.
  destruct (step_emits _ _ _ _ _ _ Hst) as (new & Hnew & Hem & _).
  pose proof (step_identity _ _ _ _ _ _ Hst) as Hid. injection Hid as Hu _ _.
  exists (sess r), (set_session p r m), new. split_and!; try done.
  intros Hs Hss. exact (session_secured_step hist s _ _ Timer r Hs Hss I Hst).
Qed.

(** The heap after some sessions have run, one by one the same sessions. *)
Definition same_sessions (hist : list (Z * list byte)) (h h' : gmap positive Session) : Prop :=
  ∀ p s', h' !! p = Some s' → ∃ s, h !! p = Some s ∧ uuid_ s' = uuid_ s ∧ (secured → session_secured hist s → session_secured hist s').

Lemma tick_loop_run hist order : ∀ m ts,
  manager_inv (max_sessions cfg) m → (∀ u p, (u, p) ∈ order → is_Some (session_heap m !! p)) →
  ∃ m' ts' new, tick_loop steady system lib order m ts = Some (m', ts') ∧ mgr_outs m' = mgr_outs m ++ new ∧
    Forall (λ o, ∃ p s, session_heap m !! p = Some s ∧ emits (uuid_ s) Timer o) new ∧ next_uuid_ m' = next_uuid_ m ∧
    same_sessions hist (session_heap m) (session_heap m').
Proof.
  induction order as [|[u p] order IH]; intros m ts Hm Hin; cbn [tick_loop].
  - exists m, ts, []. rewrite app_nil_r. split_and!; try done. intros q s' Hq. by exists s'.
  - destruct (Hin u p ltac:(left)) as [s Hp].
    destruct (on_session_timer hist m p s Hm Hp) as (s' & m1 & new1 & -> & Hm1 & Ho1 & He1 & Hn1 & Hh1 & Hu1 & Hsec1). cbn [mbind option_bind].
    rewrite Hh1, lookup_insert_eq. cbn [mbind option_bind].
    assert (same_sessions hist (session_heap m) (session_heap m1)) as Hs1.
    { rewrite Hh1. intros q t [[<- <-]|[_ Hq]]%lookup_insert_Some; [by exists s|by exists t]. }
    match goal with |- context [tick_loop _ _ _ _ m1 ?t] => destruct (IH m1 t Hm1) as (m2 & ts2 & new2 & -> & Ho2 & He2 & Hn2 & Hs2) end.
    { intros v q Hq. rewrite Hh1, lookup_insert_is_Some. destruct (decide (p = q)); [by left|right; split; [done|]]. eapply (Hin v). by right. }
    exists m2, ts2, (new1 ++ new2). split; [done|]. split; [by rewrite Ho2, Ho1, app_assoc|]. split; [|split; [congruence|]].
    + apply Forall_app. split; [eapply Forall_impl; [exact He1|]; intros o Ho; by exists p, s|].
      eapply Forall_impl; [exact He2|]. intros o (q & t & Hq & Ho). destruct (Hs1 _ _ Hq) as (t0 & Ht0 & Hut & _).
      exists q, t0. by rewrite <-Hut.
    + intros q t Hq. destruct (Hs2 _ _ Hq) as (t1 & Ht1 & Hu & Hc). destruct (Hs1 _ _ Ht1) as (t0 & Ht0 & Hu' & Hc').
      exists t0. split; [done|]. split; [congruence|auto].
Qed.

Lemma delete_all_outs ts m :
  let m' := foldl (λ m uuid, set_sessions (delete uuid (sessions_ m)) m) m ts in mgr_outs m' = mgr_outs m ∧ next_uuid_ m' = next_uuid_ m.
Proof. revert m. induction ts as [|t ts IH]; intros m; cbn; [done|]. apply (IH (set_sessions _ m)). Qed.

Lemma timer_round_step hist x perm : exchange_ok hist x → (∀ l, perm l ≡ₚ l) →
  ∃ x', timer_round steady system lib x perm = Some x' ∧ exchange_ok hist x' ∧ follows 0 x x'.
Proof.
  intros Hx Hperm. pose proof Hx as [H1 H2 H3 H4 H5 H6]. unfold timer_round.
  set (order := perm _). assert (order ≡ₚ map_to_list (sessions_ (session_mgr x))) as Ho by apply Hperm.
  destruct (tick_run _ steady system lib order _ H1 Ho) as (m' & E & Hm' & _). rewrite E. cbn [mbind option_bind].
  destruct (tick_loop_run hist order (session_mgr x) [] H1) as (m1 & ts & new & E1 & Ho1 & He1 & Hn1 & Hs1).
  { intros u p. rewrite Ho. intros Hup%elem_of_map_to_list. destruct (mi_key _ _ H1 _ _ Hup) as (_ & s & -> & _). by eexists. }
  unfold onTimerTick in E. rewrite E1 in E. injection E as <-.
  destruct (delete_all_sessions ts m1) as [_ Eh]. destruct (delete_all_outs ts m1) as [Eo En].
  set (m' := foldl _ _ _) in *. unfold with_callbacks. set (x1 := set_manager _ x). rewrite Eo, Ho1, H2. cbn [app].
  assert (∀ p s', session_heap m' !! p = Some s' → ∃ s, session_heap (session_mgr x) !! p = Some s ∧ uuid_ s' = uuid_ s ∧
    (secured → session_secured hist s → session_secured hist s')) as Hs by (rewrite Eh; exact Hs1).
  destruct (callbacks_ok new x1) as (x' & -> & [Ht' Hg'] & [F1 F2 F3 F4] & Hids & q & Hq & Hqf); [by split| |].
  { eapply Forall_impl; [exact He1|]. intros [v d|v t d] (p & s & Hp & Hem); cbn in Hem; [subst v; by apply (H3 p)|naive_solver]. }
  assert (∀ u t d, ToGateway u t d ∉ new) as Hnone.
  { intros u t d Hin. apply (proj1 (Forall_forall _ _) He1) in Hin as (p & s & _ & Hem). cbn in Hem. naive_solver. }
  assert (SessionTheorems.gateway new = []) as Hgn.
  { destruct (SessionTheorems.gateway new) as [|[t d] l] eqn:Eg; [done|]. exfalso.
    assert ((t, d) ∈ SessionTheorems.gateway new) as Hin by (rewrite Eg; left). apply list_elem_of_omap in Hin as ([|u t' d'] & Hin & [= -> ->]). by eapply Hnone. }
  assert (q = []) as -> by (destruct q as [|cmd q]; [done|]; apply Forall_cons in Hqf as [(t & d & Hin) _]; by apply Hnone in Hin).
  rewrite app_nil_r in Hq. exists x'. split; [done|]. split; [split|].
  - rewrite F1. destruct Hm' as [M1 M2 M3 M4 M5]. by split.
  - by rewrite F1.
  - rewrite F1. intros p s' Hp. cbn in Hp. destruct (Hs _ _ Hp) as (s & Hps & -> & _). destruct (H3 _ _ Hps) as [? Hc].
    split; [cbn; rewrite En, Hn1; done|]. revert Hc. rewrite <-!elem_of_dom, F2. done.
  - done.
  - done.
  - intros Hsec. destruct (H6 Hsec) as [Ha Hb]. rewrite F1, Hq. split; [|done].
    intros p s' Hp. cbn in Hp. destruct (Hs _ _ Hp) as (s & Hps & _ & Hc). apply Hc; [done|]. by eapply Ha.
  - split; [rewrite F1; cbn; by rewrite En, Hn1|]. rewrite Hgn in Hids. exact Hids.
Qed.

(** *** Any event *)
Definition event_allowed (e : XEvent) : Prop := match e with XTimer perm => ∀ l, perm l ≡ₚ l | _ => True end.

Definition step_of (x : Exchange) (e : XEvent) : option Exchange :=
  exchange_step steady system report_clock engine_clock md_clock lib cfg x e.

Lemma exchange_ok_md hist x p : exchange_ok hist x → exchange_ok hist (set_md p x).
Proof. by intros []. Qed.

Lemma exchange_step_ok hist x e : exchange_ok hist x → md_ok x → event_allowed e → Forall (client_ok ∘ snd) (handed x e) →
  next_uuid_ (session_mgr x) + cost e < 2 ^ 64 → x_ids x + cost e < 2 ^ 64 →
  ∃ x', step_of x e = Some x' ∧ exchange_ok (hist ++ handed x e) x' ∧ md_ok x' ∧
    next_uuid_ (session_mgr x') ≤ next_uuid_ (session_mgr x) + cost e ∧ x_ids x' ≤ x_ids x + cost e.
Proof.
  intros Hx Hmd Ha Hh Hn Hi. pose proof (cost_pos e).
  assert (∃ x', step_of x e = Some x' ∧ exchange_ok (hist ++ handed x e) x' ∧
    next_uuid_ (session_mgr x') ≤ next_uuid_ (session_mgr x) + cost e ∧ x_ids x' ≤ x_ids x + cost e) as (x' & E & ? & ? & ?);
    [|exists x'; split_and!; try done; by eapply step_md].
  unfold step_of. destruct e as [|u te|order|perm|ch|order]; cbn [exchange_step handed] in *; rewrite ?app_nil_r.
  - destruct (on_connection_step hist x Hx ltac:(lia)) as (x' & E & Hx' & Hu & Hids). exists x'. split_and!; try done; lia.
  - destruct (on_tcp_step hist x u te Hx Hh) as (x' & E & Hx' & F). exists x'. split; [done|]. split; [done|]. by eapply follows_cost.
  - destruct (engine_round_step hist x order Hx ltac:(lia)) as (x' & E & Hx' & F). exists x'. split; [done|]. split; [done|]. by eapply follows_cost.
  - destruct (timer_round_step hist x perm Hx Ha) as (x' & E & Hx' & F). exists x'. split; [done|]. split; [done|]. eapply follows_cost; [done|lia].
  - destruct (snapshot_round_total md_clock x ch Hmd) as (p & E). exists (set_md p x). split; [done|]. split; [by apply exchange_ok_md|].
    apply (follows_cost 0); [exact (follows_refl x)|lia].
  - destruct (definition_round_total md_clock x order Hmd) as (p & E). exists (set_md p x). split; [done|]. split; [by apply exchange_ok_md|].
    apply (follows_cost 0); [exact (follows_refl x)|lia].
Qed.

(** ** Runs *)

(** All messages handed to sessions, in order, with the session. *)
Fixpoint history (x : Exchange) (es : list XEvent) : list (Z * list byte) :=
  match es with
  | [] => []
  | e :: es => handed x e ++ match step_of x e with Some x' => history x' es | None => [] end
  end.
Definition total_cost (es : list XEvent) : Z := zsum cost es.

Lemma exchange_run_ok es : ∀ hist x, exchange_ok hist x → md_ok x → Forall event_allowed es → Forall (client_ok ∘ snd) (history x es) →
  next_uuid_ (session_mgr x) + total_cost es < 2 ^ 64 → x_ids x + total_cost es < 2 ^ 64 →
  ∃ x', exchange_run steady system report_clock engine_clock md_clock lib cfg x es = Some x' ∧ exchange_ok (hist ++ history x es) x' ∧ md_ok x'.
Proof.
  induction es as [|e es IH]; intros hist x Hx Hmd Ha Hh Hn Hi; cbn [exchange_run history].
  - exists x. by rewrite app_nil_r.
  - apply Forall_cons in Ha as [Ha Has]. cbn [history] in Hh. apply Forall_app in Hh as [Hh Hhs].
    change (total_cost (e :: es)) with (cost e + total_cost es) in Hn, Hi.
    pose proof (total_cost_nonneg es : 0 ≤ total_cost es).
    destruct (exchange_step_ok hist x e Hx Hmd Ha Hh) as (x1 & E & Hx1 & Hmd1 & Hn1 & Hi1); [lia..|].
    rewrite E in Hhs |- *. unfold step_of in E. rewrite E. cbn [mbind option_bind].
    destruct (IH _ x1 Hx1 Hmd1 Has Hhs) as (x2 & E2 & Hx2); [lia..|]. exists x2. by rewrite <-app_assoc in Hx2.
Qed.
End inv.

(** ** Start-up *)
Lemma boot_ok cfg lib : config_ok cfg →
  ∃ x, boot cfg = Some x ∧ exchange_ok lib (session cfg) [] x ∧ md_ok x ∧ next_uuid_ (session_mgr x) = 1 ∧ x_ids x = 1.
Proof.
  intros Hc. destruct (load_registry cfg Hc) as (m & E & Hm & Hids). unfold boot. rewrite E. cbn [mbind option_bind].
  destruct (set_statuses_registry PreOpen (all_ids m) m Hm) as (m1 & -> & Hm1 & El1). cbn [mbind option_bind].
  assert (negb (bool_decide (mode (engine_config cfg) = "full_matching"%string)) && negb (bool_decide (mode (engine_config cfg) = "synthetic"%string)) = false) as ->.
  { apply andb_false_iff. rewrite !negb_false_iff, !bool_decide_eq_true. destruct (vc_mode _ _ (co_valid _ Hc)) as [?|[? _]]; [by left|by right]. }
  destruct (set_statuses_registry Open (all_ids m1) m1 Hm1) as (m2 & -> & Hm2 & El2). cbn [mbind option_bind].
  eexists. split; [done|]. assert (all_ids m1 = all_ids m) as -> by (by rewrite !listing_ids, El1).
  destruct (start_ok m2 tick_of (risk cfg) (all_ids m) (registry_inv_ok _ Hm2) Hids) as [Hg Hn].
  assert (listing m2 = listing m) as El by congruence.
  assert (Forall (λ i, definable i ∧ in_security_id i ∈i 32) (instruments_ m2)) as Hd.
  { apply Forall_and. split; [destruct Hm2 as [_ Hd]; by eapply Forall_impl; [exact Hd|intros ? []]|].
    apply (Forall_fmap in_security_id (λ sid, sid ∈i 32)). fold (all_ids m2). by rewrite listing_ids, El, <-listing_ids. }
  split; [split; cbn|split; [split; [|exact Hd]|split; [done|exact Hn]]].
  - apply SessionManager_init_inv. pose proof (vc_sessions _ _ (co_valid _ Hc)). lia.
  - done.
  - intros p s. by rewrite lookup_empty.
  - apply map_Forall_empty.
  - exact Hg.
  - intros _. split; [|done]. intros p s. by rewrite lookup_empty.
  - by apply publisher_started.
Qed.
