(* ===== verification/PcapReader.v ===== *)
(** * Capture files (src/engine/pcap_reader.h and .cpp)

    The reader of pcap files and what it makes of them. A file is its bytes; the
    input stream is the part of [std::ifstream] the reader uses: the bytes of the
    file it has open, the read position and whether [good()] holds. The fields
    of the headers are read from the bytes that [read] stores over the structs,
    on a little-endian host. *)
From S2P Require Import Prelude Types Sbe.

Record ifstream := mkStream { contents : option buffer; position : nat; good : bool }.

Record PcapPacket := mkPacket { timestamp_us : Z; data : buffer }.

Record PcapReader := mkReader {
  file_ : ifstream;
  is_open_ : bool;
  is_nanosecond_ : bool;
  global_header_ : buffer;
}.

Module PcapOps.

Definition PCAP_MAGIC_MICROSEC : Z := 0xA1B2C3D4.
Definition PCAP_MAGIC_NANOSEC : Z := 0xA1B23C4D.
Definition ETHERNET_HEADER_LEN : nat := 14.
Definition UDP_HEADER_LEN : nat := 8.
Definition IP_PROTOCOL_UDP : Z := 17.
Definition LINKTYPE_ETHERNET : Z := 1.
Definition sizeof_PcapGlobalHeader : nat := 24.
Definition sizeof_PcapPacketHeader : nat := 16.

(** ** The stream *)
Definition stream_is_open (f : ifstream) : bool := bool_decide (is_Some (contents f)).

(** [file_.open(path, binary)], where [file] is what the path names. *)
Definition stream_open (file : option buffer) (f : ifstream) : ifstream :=
  match contents f, file with
  | None, Some bytes => mkStream (Some bytes) 0 true
  | _, _ => mkStream (contents f) (position f) false
  end.
Definition stream_close (f : ifstream) : ifstream :=
  mkStream None 0 (stream_is_open f && good f).

(** [file_.read(dst, n)]: the bytes stored and the stream; a short read stores
    what there is and fails, a failed stream stores nothing. *)
Definition stream_read (f : ifstream) (n : nat) : list byte * ifstream :=
  match contents f with
  | Some bytes =>
      if good f then
        let got := take n (drop (position f) bytes) in
        (got, mkStream (Some bytes) (position f + length got) (length got =? n)%nat)
      else ([], f)
  | None => ([], mkStream None (position f) false)
  end.

(** [read] into a struct or vector that holds [dst]. *)
Definition read_over (dst : buffer) (f : ifstream) : buffer * ifstream :=
  let '(got, f) := stream_read f (length dst) in (got ++ drop (length got) dst, f).

(** ** Opening *)
Definition PcapReader_init : PcapReader :=
  mkReader (mkStream None 0 true) false false (replicate sizeof_PcapGlobalHeader Init.Byte.x00).

Definition magic_number (header : buffer) : option Z := rd_u header 0 4.
Definition network (header : buffer) : option Z := rd_u header 20 4.

Definition open (file : option buffer) (r : PcapReader) : option (PcapReader * bool) :=
  let f := stream_open file (file_ r) in
  if negb (stream_is_open f) then Some (mkReader f (is_open_ r) (is_nanosecond_ r) (global_header_ r), false) else
  let '(header, f) := read_over (global_header_ r) f in
  let closed nano := Some (mkReader (stream_close f) (is_open_ r) nano header, false) in
  if negb (good f) then closed (is_nanosecond_ r) else
  magic ← magic_number header;
  link ← network header;
  if magic =? PCAP_MAGIC_MICROSEC then
    if negb (link =? LINKTYPE_ETHERNET) then closed false else Some (mkReader f true false header, true)
  else if magic =? PCAP_MAGIC_NANOSEC then
    if negb (link =? LINKTYPE_ETHERNET) then closed true else Some (mkReader f true true header, true)
  else closed (is_nanosecond_ r).

Definition isOpen (r : PcapReader) : bool := is_open_ r.

(** ** Frames

    [stripHeaders]: the offset of the UDP payload, or -1. The [int] that is
    returned is a [Z]; reading outside the frame is [None]. *)
Definition be16 (data : buffer) (o : nat) : option Z :=
  hi ← rd_u data o 1; lo ← rd_u data (o + 1) 1; Some (Z.lor (Z.shiftl hi 8) lo).

(** EtherType and length of the Ethernet header, or -1. *)
Definition ethernet (data : buffer) (len : nat) : option (option (Z * nat)) :=
  if (len <? ETHERNET_HEADER_LEN)%nat then Some None else
  ether_type ← be16 data 12;
  if ether_type =? 0x8100 then
    let eth_header_len := (ETHERNET_HEADER_LEN + 4)%nat in
    if (len <? eth_header_len)%nat then Some None else
    ether_type ← be16 data (eth_header_len - 2);
    Some (Some (ether_type, eth_header_len))
  else Some (Some (ether_type, ETHERNET_HEADER_LEN)).

Definition stripHeaders (data : buffer) (len : nat) : option Z :=
  eth ← ethernet data len;
  match eth with
  | None => Some (-1)
  | Some (ether_type, ip) =>
      if negb (ether_type =? 0x0800) then Some (-1) else
      if (len <? ip + 20)%nat then Some (-1) else
      ip0 ← rd_u data ip 1;
      let ip_version := Z.land (Z.shiftr ip0 4) 0x0F in
      if negb (ip_version =? 4) then Some (-1) else
      let ip_ihl := Z.land ip0 0x0F in
      let ip_header_len := (Z.to_nat ip_ihl * 4)%nat in
      if (ip_header_len <? 20)%nat || (len <? ip + ip_header_len)%nat then Some (-1) else
      protocol ← rd_u data (ip + 9) 1;
      if negb (protocol =? IP_PROTOCOL_UDP) then Some (-1) else
      let udp_start := (ip + ip_header_len)%nat in
      if (len <? udp_start + UDP_HEADER_LEN)%nat then Some (-1) else
      Some (Z.of_nat (udp_start + UDP_HEADER_LEN))
  end.

(** ** Packets

    [readNext] calls itself on a frame that is not UDP; every call reads at
    least a packet header, so the bytes of the file bound the calls. [Crashed] is
    an access outside a buffer or the end of the process. *)
Inductive result (A : Type) := Returned (a : A) | Crashed | OutOfFuel.
Arguments Returned {A}.
Arguments Crashed {A}.
Arguments OutOfFuel {A}.

Definition set_file (f : ifstream) (r : PcapReader) : PcapReader :=
  mkReader f (is_open_ r) (is_nanosecond_ r) (global_header_ r).

Definition timestamp_of (nano : bool) (ts_sec ts_usec : Z) : Z :=
  u64 (ts_sec * 1000000 + (if nano then ts_usec / 1000 else ts_usec)).

(** The body of [readNext]; [None] in place of its answer stands for the call
    on itself. *)
Definition readNext_body (r : PcapReader) (packet : PcapPacket) : result (PcapReader * PcapPacket * option bool) :=
  if negb (is_open_ r) then Returned (r, packet, Some false) else
  let '(pkt_hdr, f) := read_over (replicate sizeof_PcapPacketHeader Init.Byte.x00) (file_ r) in
  if negb (good f) then Returned (set_file f r, packet, Some false) else
  match (ts_sec ← rd_u pkt_hdr 0 4; ts_usec ← rd_u pkt_hdr 4 4; incl_len ← rd_u pkt_hdr 8 4;
         Some (ts_sec, ts_usec, incl_len)) with
  | None => Crashed
  | Some (ts_sec, ts_usec, incl_len) =>
      let packet := mkPacket (timestamp_of (is_nanosecond_ r) ts_sec ts_usec) (data packet) in
      let '(raw, f) := read_over (replicate (Z.to_nat incl_len) Init.Byte.x00) f in
      if negb (good f) then Returned (set_file f r, packet, Some false) else
      match stripHeaders raw (length raw) with
      | None => Crashed
      | Some payload_offset =>
          if payload_offset <? 0 then Returned (set_file f r, packet, None)
          else
            let payload_len := (length raw - Z.to_nat payload_offset)%nat in
            match slice (Z.to_nat payload_offset) payload_len raw with
            | None => Crashed
            | Some data => Returned (set_file f r, mkPacket (timestamp_us packet) data, Some true)
            end
      end
  end.

Fixpoint readNext (fuel : nat) (r : PcapReader) (packet : PcapPacket) : result (PcapReader * PcapPacket * bool) :=
  match readNext_body r packet with
  | Returned (r, packet, Some answer) => Returned (r, packet, answer)
  | Returned (r, packet, None) =>
      match fuel with O => OutOfFuel | S fuel => readNext fuel r packet end
  | Crashed => Crashed
  | OutOfFuel => OutOfFuel
  end.

Definition reset (r : PcapReader) : PcapReader :=
  match contents (file_ r) with
  | Some bytes => set_file (mkStream (Some bytes) sizeof_PcapGlobalHeader true) r
  | None => r
  end.

(** [readAll]: the packets read until [readNext] returns false. *)
Definition stream_bytes (r : PcapReader) : nat := length (default [] (contents (file_ r))).

Fixpoint readAll_loop (fuel : nat) (r : PcapReader) (pkt : PcapPacket) (packets : list PcapPacket)
    : result (PcapReader * list PcapPacket) :=
  match readNext (stream_bytes r) r pkt with
  | Returned (r, pkt, true) =>
      match fuel with
      | O => OutOfFuel
      | S fuel => readAll_loop fuel r (mkPacket (timestamp_us pkt) []) (packets ++ [pkt])
      end
  | Returned (r, _, false) => Returned (r, packets)
  | Crashed => Crashed
  | OutOfFuel => OutOfFuel
  end.

Definition readAll (r : PcapReader) : result (PcapReader * list PcapPacket) :=
  readAll_loop (stream_bytes r) r (mkPacket 0 []) [].

End PcapOps.
