(* ===== verification/PcapTheorems.v ===== *)
(** * Theorems about capture files

    The grammar of captured frames and files, and what the reader makes of them. *)
From S2P Require Import Prelude Types Sbe PcapReader.
Import PcapOps.

(** ** Frames

    UDP over IPv4 over Ethernet, with at most one VLAN tag. [ihl] is the length
    of the IPv4 header in 32-bit words. *)
Record UdpFrame := mkFrame {
  addresses : list byte;
  vlan_tag : option (list byte);
  ihl : nat;
  ip_to_protocol : list byte;
  ip_from_checksum : list byte;
  udp_header : list byte;
  udp_payload : list byte;
}.

Definition frame_ok (f : UdpFrame) : Prop :=
  length (addresses f) = 12%nat ∧
  (∀ tag, vlan_tag f = Some tag → length tag = 2%nat) ∧
  (5 ≤ ihl f ≤ 15)%nat ∧
  length (ip_to_protocol f) = 8%nat ∧
  length (ip_from_checksum f) = (ihl f * 4 - 10)%nat ∧
  length (udp_header f) = 8%nat.

Definition version_byte (ihl : nat) : byte := byte.of_Z (0x40 + Z.of_nat ihl).

Definition ethernet_bytes (f : UdpFrame) : list byte :=
  addresses f ++ match vlan_tag f with Some tag => [Init.Byte.x81; Init.Byte.x00] ++ tag | None => [] end
  ++ [Init.Byte.x08; Init.Byte.x00].
Definition ip_bytes (f : UdpFrame) : list byte :=
  version_byte (ihl f) :: ip_to_protocol f ++ Init.Byte.x11 :: ip_from_checksum f.
Definition frame_bytes (f : UdpFrame) : list byte :=
  ethernet_bytes f ++ ip_bytes f ++ udp_header f ++ udp_payload f.

(** ** Reading single bytes *)
Lemma rd_u_byte d o : rd_u d o 1 = byte.unsigned <$> d !! o.
Proof.
  unfold rd_u, slice. case_decide as H.
  - destruct (lookup_lt_is_Some_2 d o) as [b Hb]; [lia|]. rewrite Hb. cbn.
    rewrite (drop_S _ _ _ Hb). cbn. f_equal. unfold le_combine. rewrite Z.shiftl_0_l, Z.lor_0_r. done.
  - rewrite lookup_ge_None_2 by lia. done.
Qed.

Lemma lor_byte h l : 0 ≤ l < 256 → Z.lor (Z.shiftl h 8) l = h * 256 + l.
Proof.
  intros Hl. pose proof (Z.add_lor_land (Z.shiftl h 8) l) as E. assert (Z.land (Z.shiftl h 8) l = 0) as E0.
  2:{ rewrite E0, Z.add_0_r in E. rewrite E, Z.shiftl_mul_pow2 by lia. lia. }
  apply Z.bits_inj'. intros n Hn.
  rewrite Z.land_spec, Z.bits_0. destruct (decide (n < 8)).
  - by rewrite Z.shiftl_spec_low.
  - rewrite <-(Z.mod_small l (2 ^ 8)) by lia. by rewrite Z.mod_pow2_bits_high, andb_false_r by lia.
Qed.

Lemma be16_bytes d o : be16 d o = b1 ← d !! o; b2 ← d !! S o; Some (byte.unsigned b1 * 256 + byte.unsigned b2).
Proof.
  unfold be16. rewrite !rd_u_byte, Nat.add_1_r. destruct (d !! o) as [b1|]; [cbn|done]. destruct (d !! S o) as [b2|]; [cbn|done].
  f_equal. apply lor_byte. apply byte.unsigned_range.
Qed.

Lemma be16_app pre b1 b2 post o :
  o = length pre → be16 (pre ++ b1 :: b2 :: post) o = Some (byte.unsigned b1 * 256 + byte.unsigned b2).
Proof.
  intros ->. rewrite be16_bytes, (list_lookup_middle pre (b2 :: post) b1 (length pre)) by done. cbn [mbind option_bind].
  change (pre ++ b1 :: b2 :: post) with (pre ++ [b1] ++ b2 :: post).
  by rewrite app_assoc, list_lookup_middle by (rewrite length_app; cbn; lia).
Qed.

Lemma rd_byte_app pre b post o : o = length pre → rd_u (pre ++ b :: post) o 1 = Some (byte.unsigned b).
Proof. intros ->. by rewrite rd_u_byte, list_lookup_middle. Qed.

Lemma be16_inj b1 b2 c1 c2 :
  byte.unsigned b1 * 256 + byte.unsigned b2 = byte.unsigned c1 * 256 + byte.unsigned c2 → b1 = c1 ∧ b2 = c2.
Proof.
  pose proof (byte.unsigned_range b1). pose proof (byte.unsigned_range b2).
  pose proof (byte.unsigned_range c1). pose proof (byte.unsigned_range c2).
  intros. split; apply byte.unsigned_inj; lia.
Qed.

(** The first byte of an IPv4 header. *)
Lemma version_byte_iff b :
  Z.land (Z.shiftr (byte.unsigned b) 4) 0x0F = 4 →
  (Z.to_nat (Z.land (byte.unsigned b) 0x0F) ≤ 15)%nat ∧ b = version_byte (Z.to_nat (Z.land (byte.unsigned b) 0x0F)).
Proof. destruct b; vm_compute; by repeat first [split | lia | intros [=] ]. Qed.

Lemma version_byte_fields n : (n ≤ 15)%nat →
  Z.land (Z.shiftr (byte.unsigned (version_byte n)) 4) 0x0F = 4 ∧ Z.to_nat (Z.land (byte.unsigned (version_byte n)) 0x0F) = n.
Proof. intros Hn. do 16 (destruct n as [|n]; [done|]). lia. Qed.

Lemma split_list {A} n (l : list A) : (n ≤ length l)%nat → ∃ a b, l = a ++ b ∧ length a = n.
Proof. intros. exists (take n l), (drop n l). rewrite take_drop, length_take. split; [done|lia]. Qed.

(** ** The Ethernet header *)
Definition eth_prefix (a : list byte) (v : option (list byte)) : list byte :=
  a ++ match v with Some tag => [Init.Byte.x81; Init.Byte.x00] ++ tag | None => [] end ++ [Init.Byte.x08; Init.Byte.x00].

Lemma eth_accepts a v rest :
  length a = 12%nat → (∀ tag, v = Some tag → length tag = 2%nat) →
  ethernet (eth_prefix a v ++ rest) (length (eth_prefix a v ++ rest)) = Some (Some (0x0800, length (eth_prefix a v))).
Proof.
  intros Ha Hv. unfold ethernet, eth_prefix. rewrite !length_app, Ha. destruct v as [tag|].
  - specialize (Hv _ eq_refl). rewrite !length_app, Hv. cbn [length Nat.add Nat.ltb Nat.leb ETHERNET_HEADER_LEN].
    rewrite <-!app_assoc. cbn [app]. rewrite (be16_app a _ _ _ 12) by done. cbn [mbind option_bind].
    change (byte.unsigned _ * 256 + byte.unsigned _) with 0x8100. cbn.
    change (a ++ Init.Byte.x81 :: Init.Byte.x00 :: tag ++ Init.Byte.x08 :: Init.Byte.x00 :: rest)
      with (a ++ [Init.Byte.x81; Init.Byte.x00] ++ tag ++ Init.Byte.x08 :: Init.Byte.x00 :: rest).
    rewrite 2!app_assoc, (be16_app _ _ _ _ (ETHERNET_HEADER_LEN + 4 - 2)); [done|]. rewrite !length_app, Ha, Hv. done.
  - cbn [length Nat.add Nat.ltb Nat.leb ETHERNET_HEADER_LEN app].
    rewrite <-!app_assoc. cbn [app]. rewrite (be16_app a _ _ _ 12) by done. done.
Qed.

Lemma eth_inverts d n :
  ethernet d (length d) = Some (Some (0x0800, n)) →
  ∃ a v rest, length a = 12%nat ∧ (∀ tag, v = Some tag → length tag = 2%nat) ∧
    d = eth_prefix a v ++ rest ∧ n = length (eth_prefix a v).
Proof.
  unfold ethernet. case_match eqn:E1; [done|]. apply Nat.ltb_ge in E1. unfold ETHERNET_HEADER_LEN in E1.
  destruct (split_list 12 d) as (a & d1 & -> & Ha); [lia|]. rewrite length_app, Ha in *.
  destruct d1 as [|b1 [|b2 d1]]; cbn [length] in E1; [lia..|]. rewrite (be16_app a _ _ _ 12) by done. cbn [mbind option_bind].
  destruct (Z.eqb_spec (byte.unsigned b1 * 256 + byte.unsigned b2) 0x8100) as [E2|E2].
  - case_match eqn:E3; [done|]. apply Nat.ltb_ge in E3. cbn [ETHERNET_HEADER_LEN Nat.add length] in E3.
    destruct (be16_inj b1 b2 Init.Byte.x81 Init.Byte.x00) as [-> ->]; [done|].
    destruct (split_list 2 d1) as (tag & d2 & -> & Ht); [lia|]. rewrite length_app in *.
    destruct d2 as [|c1 [|c2 d2]]; cbn [length] in E3; [lia..|].
    change (a ++ Init.Byte.x81 :: Init.Byte.x00 :: tag ++ c1 :: c2 :: d2)
      with (a ++ [Init.Byte.x81; Init.Byte.x00] ++ tag ++ c1 :: c2 :: d2).
    rewrite 2!app_assoc, (be16_app _ _ _ _ (ETHERNET_HEADER_LEN + 4 - 2)); [|rewrite !length_app, Ha, Ht; done]. cbn [mbind option_bind]. intros [= E4 <-].
    destruct (be16_inj c1 c2 Init.Byte.x08 Init.Byte.x00) as [-> ->]; [done|].
    exists a, (Some tag), d2. split; [done|]. split; [by intros ? [= <-]|]. unfold eth_prefix.
    rewrite !length_app, Ha, Ht. split; [|done]. by rewrite <-!app_assoc.
  - intros [= E4 <-]. destruct (be16_inj b1 b2 Init.Byte.x08 Init.Byte.x00) as [-> ->]; [done|].
    exists a, None, d1. split; [done|]. split; [done|]. unfold eth_prefix. rewrite !length_app, Ha. split; [|done].
    by rewrite <-!app_assoc.
Qed.

Lemma eth_total d : is_Some (ethernet d (length d)).
Proof.
  unfold ethernet. case_match eqn:E1; [done|]. apply Nat.ltb_ge in E1. unfold ETHERNET_HEADER_LEN in E1.
  destruct (split_list 12 d) as (a & d1 & -> & Ha); [lia|]. rewrite length_app, Ha in *.
  destruct d1 as [|b1 [|b2 d1]]; cbn [length] in E1; [lia..|]. rewrite (be16_app a _ _ _ 12) by done. cbn [mbind option_bind].
  case_match; [|done]. case_match eqn:E3; [done|]. apply Nat.ltb_ge in E3. cbn [ETHERNET_HEADER_LEN Nat.add length] in E3.
  destruct (split_list 2 d1) as (tag & d2 & -> & Ht); [lia|]. rewrite length_app in *.
  destruct d2 as [|c1 [|c2 d2]]; cbn [length] in E3; [lia..|].
  change (a ++ b1 :: b2 :: tag ++ c1 :: c2 :: d2) with (a ++ [b1; b2] ++ tag ++ c1 :: c2 :: d2).
  rewrite 2!app_assoc, (be16_app _ _ _ _ (ETHERNET_HEADER_LEN + 4 - 2)); [done|]. rewrite !length_app, Ha, Ht. done.
Qed.

(** ** The IPv4 and UDP headers *)
Lemma frame_split f : frame_bytes f = eth_prefix (addresses f) (vlan_tag f) ++ version_byte (ihl f) ::
  ip_to_protocol f ++ Init.Byte.x11 :: ip_from_checksum f ++ udp_header f ++ udp_payload f.
Proof. unfold frame_bytes, ethernet_bytes, ip_bytes, eth_prefix. rewrite <-!app_assoc. cbn [app]. by rewrite <-!app_assoc. Qed.

Lemma strip_accepts f : frame_ok f → ∃ hdr, frame_bytes f = hdr ++ udp_payload f ∧
  stripHeaders (frame_bytes f) (length (frame_bytes f)) = Some (Z.of_nat (length hdr)).
Proof.
  intros (Ha & Hv & Hi & Hp & Hc & Hu).
  exists (ethernet_bytes f ++ ip_bytes f ++ udp_header f). split; [unfold frame_bytes; by rewrite <-!app_assoc|].
  replace (length (ethernet_bytes f ++ ip_bytes f ++ udp_header f))
    with (length (eth_prefix (addresses f) (vlan_tag f)) + ihl f * 4 + 8)%nat.
  2:{ unfold ethernet_bytes, ip_bytes, eth_prefix. rewrite !length_app. cbn [length]. rewrite length_app. cbn [length]. lia. }
  rewrite frame_split. unfold stripHeaders. rewrite eth_accepts by done. cbn [mbind option_bind].
  set (p := eth_prefix _ _). change (0x0800 =? 0x0800) with true. cbn [negb].
  rewrite (rd_byte_app p _ _ (length p)) by done. destruct (version_byte_fields (ihl f)) as [E4 E5]; [lia|].
  rewrite length_app. cbn [length]. rewrite !length_app. cbn [length]. rewrite !length_app, Hp, Hc, Hu.
  cbn [mbind option_bind]. rewrite E4, E5. cbn [negb Z.eqb Pos.eqb].
  rewrite (proj2 (Nat.ltb_ge _ _)) by lia. rewrite (proj2 (Nat.ltb_ge (ihl f * 4) 20)) by lia.
  rewrite (proj2 (Nat.ltb_ge _ _)) by lia. cbn [orb].
  change (p ++ version_byte (ihl f) :: ip_to_protocol f ++ Init.Byte.x11 :: ip_from_checksum f ++ udp_header f ++ udp_payload f)
    with (p ++ ([version_byte (ihl f)] ++ ip_to_protocol f) ++ Init.Byte.x11 :: ip_from_checksum f ++ udp_header f ++ udp_payload f).
  rewrite app_assoc, rd_byte_app by (rewrite !length_app, Hp; done). cbn [mbind option_bind].
  change (byte.unsigned Init.Byte.x11 =? IP_PROTOCOL_UDP) with true. unfold UDP_HEADER_LEN; cbn [negb].
  rewrite (proj2 (Nat.ltb_ge _ _)) by lia. done.
Qed.

Lemma strip_cases d :
  stripHeaders d (length d) = Some (-1) ∨
  ∃ f, frame_ok f ∧ frame_bytes f = d ∧ ∃ z, stripHeaders d (length d) = Some z ∧ 0 ≤ z.
Proof.
  destruct (eth_total d) as [[[et n]|] E].
  2:{ left. unfold stripHeaders. by rewrite E. }
  destruct (Z.eqb_spec et 0x0800) as [->|Ht].
  2:{ left. unfold stripHeaders. rewrite E. cbn [mbind option_bind]. by rewrite (proj2 (Z.eqb_neq _ _) Ht). }
  destruct (eth_inverts _ _ E) as (a & v & rest & Ha & Hv & -> & ->). clear E. unfold stripHeaders. rewrite eth_accepts by done.
  cbn [mbind option_bind]. change (0x0800 =? 0x0800) with true. cbn [negb]. set (p := eth_prefix a v). rewrite !length_app.
  case_match eqn:E1; [by left|]. apply Nat.ltb_ge in E1.
  destruct rest as [|b rest]; cbn [length] in E1; [lia|]. rewrite (rd_byte_app p _ _ (length p)) by done. cbn [mbind option_bind].
  case_match eqn:E2; [by left|]. apply negb_false_iff, Z.eqb_eq, version_byte_iff in E2 as [Hi ->].
  set (n := Z.to_nat (Z.land (byte.unsigned b) 15)) in *. destruct (version_byte_fields n) as [_ ->]; [done|].
  case_match eqn:E3; [by left|]. apply orb_false_iff in E3 as [E3 E4]. apply Nat.ltb_ge in E3, E4. cbn [length] in E4.
  destruct (split_list 8 rest) as (ip1 & [|pr rest1] & -> & H1); [lia| |]; rewrite length_app in E1, E4; cbn [length] in E1, E4; [lia|].
  change (p ++ version_byte n :: ip1 ++ pr :: rest1) with (p ++ ([version_byte n] ++ ip1) ++ pr :: rest1).
  rewrite app_assoc, rd_byte_app by (rewrite !length_app, H1; done). cbn [mbind option_bind].
  case_match eqn:E5; [by left|]. apply negb_false_iff, Z.eqb_eq in E5. change IP_PROTOCOL_UDP with (byte.unsigned Init.Byte.x11) in E5.
  apply byte.unsigned_inj in E5 as ->. destruct (split_list (n * 4 - 10) rest1) as (ip2 & rest2 & -> & H2); [lia|].
  case_match eqn:E6; [by left|]. apply Nat.ltb_ge in E6. unfold UDP_HEADER_LEN in E6. cbn [length app] in E6.
  rewrite !length_app in E6. cbn [length] in E6. rewrite length_app in E6.
  destruct (split_list 8 rest2) as (udp & pay & -> & H3); [lia|]. right.
  exists (mkFrame a v n ip1 ip2 udp pay). split; [by repeat split; cbn; try lia|]. split.
  - rewrite frame_split. cbn [addresses vlan_tag ihl ip_to_protocol ip_from_checksum udp_header udp_payload]. fold p.
    rewrite <-!app_assoc. done.
  - eexists. split; [done|lia].
Qed.

(** The frame parser accepts exactly UDP over IPv4 over Ethernet with at most
    one VLAN tag. *)
Theorem strip_headers_exact d : ∃ z, stripHeaders d (length d) = Some z ∧
  ((z = -1 ∧ ∀ f, frame_ok f → frame_bytes f ≠ d) ∨
   ∃ f, frame_ok f ∧ frame_bytes f = d ∧ 0 ≤ z ≤ Z.of_nat (length d) ∧ drop (Z.to_nat z) d = udp_payload f).
Proof.
  destruct (strip_cases d) as [E|(f & Hf & <- & z & E & Hz)].
  - exists (-1). split; [done|]. left. split; [done|]. intros f Hf <-.
    destruct (strip_accepts f Hf) as (hdr & _ & E'). rewrite E in E'. injection E'. lia.
  - exists z. split; [done|]. right. exists f. split; [done|]. split; [done|].
    destruct (strip_accepts f Hf) as (hdr & Hs & E'). rewrite E in E'. injection E' as ->.
    rewrite Nat2Z.id, Hs, drop_app_length, length_app. split; [lia|done].
Qed.

(** ** Capture files *)

(** A captured frame: a UDP frame, or bytes that are none, with its time in
    seconds and micro- or nanoseconds and its original length. *)
Record Capture := mkCapture {
  cap_sec : Z; cap_sub : Z; cap_orig : Z;
  cap_frame : UdpFrame + list byte;
}.
Definition cap_bytes (c : Capture) : list byte :=
  match cap_frame c with inl f => frame_bytes f | inr other => other end.
Definition cap_ok (c : Capture) : Prop :=
  cap_sec c ∈u 32 ∧ cap_sub c ∈u 32 ∧ Z.of_nat (length (cap_bytes c)) ∈u 32 ∧
  match cap_frame c with inl f => frame_ok f | inr other => ∀ f, frame_ok f → frame_bytes f ≠ other end.
Definition record_bytes (c : Capture) : list byte :=
  (le_split 4 (cap_sec c) ++ le_split 4 (cap_sub c) ++ le_split 4 (Z.of_nat (length (cap_bytes c))) ++ le_split 4 (cap_orig c))
  ++ cap_bytes c.

Definition pcap_header (nano : bool) (version_zone_snap : list byte) : list byte :=
  le_split 4 (if nano then PCAP_MAGIC_NANOSEC else PCAP_MAGIC_MICROSEC) ++ version_zone_snap ++ le_split 4 LINKTYPE_ETHERNET.

(** What ends a capture: nothing, or a record that was cut short. *)
Definition cut_short (tail : list byte) : Prop :=
  (length tail < 16)%nat ∨ ∃ n, rd_u tail 8 4 = Some n ∧ (length tail < 16 + Z.to_nat n)%nat.

Definition captured (nano : bool) (c : Capture) : option PcapPacket :=
  match cap_frame c with
  | inl f => Some (mkPacket (timestamp_of nano (cap_sec c) (cap_sub c)) (udp_payload f))
  | inr _ => None
  end.

(** ** Reading records *)
Definition reader_at (nano : bool) (hdr pre rest : list byte) : PcapReader :=
  mkReader (mkStream (Some (pre ++ rest)) (length pre) true) true nano hdr.

Lemma read_over_app dst pre s post : length s = length dst →
  read_over dst (mkStream (Some (pre ++ s ++ post)) (length pre) true) =
  (s, mkStream (Some (pre ++ s ++ post)) (length (pre ++ s)) true).
Proof.
  intros E. unfold read_over, stream_read. cbn [contents good position]. rewrite drop_app_length, <-E, take_app_length.
  by rewrite Nat.eqb_refl, E, drop_all, app_nil_r, length_app, E.
Qed.

Lemma read_over_short dst pre s : (length s < length dst)%nat →
  good (read_over dst (mkStream (Some (pre ++ s)) (length pre) true)).2 = false.
Proof.
  intros E. unfold read_over, stream_read. cbn [contents good position]. rewrite drop_app_length.
  cbn. apply Nat.eqb_neq. rewrite length_take. lia.
Qed.

Lemma rd_u_split pre n z post o : o = length pre → z ∈u (8 * Z.of_nat n) → rd_u (pre ++ le_split n z ++ post) o n = Some z.
Proof.
  intros -> Hz. unfold rd_u. rewrite (slice_app_eq (length pre) n pre (le_split n z)) by (by rewrite ?length_le_split).
  cbn. by rewrite le_combine_split, (Z.mul_comm _ 8), Z.mod_small.
Qed.

Lemma record_header a b c d : a ∈u 32 → b ∈u 32 → c ∈u 32 →
  let hdr := le_split 4 a ++ le_split 4 b ++ le_split 4 c ++ le_split 4 d in
  length hdr = 16%nat ∧ rd_u hdr 0 4 = Some a ∧ rd_u hdr 4 4 = Some b ∧ rd_u hdr 8 4 = Some c.
Proof.
  intros Ha Hb Hc hdr. subst hdr. split; [by rewrite !length_app, !length_le_split|].
  split; [by apply (rd_u_split [])|]. split; [by apply (rd_u_split (le_split 4 a)); rewrite ?length_le_split|].
  rewrite app_assoc. by apply (rd_u_split (le_split 4 a ++ le_split 4 b)); rewrite ?length_app, ?length_le_split.
Qed.

(** What [readNext] does with the next whole record. *)
Lemma read_record nano hdr pre c rest packet : cap_ok c →
  readNext_body (reader_at nano hdr pre (record_bytes c ++ rest)) packet =
  Returned (reader_at nano hdr (pre ++ record_bytes c) rest,
    match captured nano c with Some p => p | None => mkPacket (timestamp_of nano (cap_sec c) (cap_sub c)) (data packet) end,
    match captured nano c with Some _ => Some true | None => None end).
Proof.
  intros (Hs & Hu & Hl & Hf). unfold reader_at, record_bytes.
  destruct (record_header _ _ _ (cap_orig c) Hs Hu Hl) as (Hlen & R1 & R2 & R3). set (ph := le_split 4 _ ++ _) in *.
  unfold readNext_body. cbn [is_open_ file_ negb is_nanosecond_]. rewrite <-app_assoc.
  rewrite read_over_app by (by rewrite Hlen). cbn [good negb]. rewrite R1, R2, R3. cbn [mbind option_bind].
  rewrite (app_assoc pre ph), read_over_app by (rewrite length_replicate; lia). cbn [good negb].
  unfold captured, cap_bytes in *. destruct (cap_frame c) as [f|other].
  - destruct (strip_accepts f Hf) as (h & E & ->). rewrite (proj2 (Z.ltb_ge _ _)), Nat2Z.id by lia.
    replace (length (frame_bytes f) - length h)%nat with (length (udp_payload f)) by (rewrite E, length_app; lia).
    pose proof (slice_app h (udp_payload f) []) as X. rewrite app_nil_r, <-E in X. rewrite X. unfold set_file. cbn.
    by rewrite <-!app_assoc.
  - destruct (strip_headers_exact other) as (z & -> & [[-> _]|(f & Hok & E & _)]); [|by destruct (Hf _ Hok)].
    unfold set_file. cbn. by rewrite <-!app_assoc.
Qed.

(** The fields of a reader that reading leaves alone. *)
Definition same_file (r r' : PcapReader) : Prop :=
  contents (file_ r') = contents (file_ r) ∧ is_open_ r' = is_open_ r ∧ is_nanosecond_ r' = is_nanosecond_ r ∧
  global_header_ r' = global_header_ r.

Lemma read_over_contents dst f : contents (read_over dst f).2 = contents f.
Proof. unfold read_over, stream_read. by destruct f as [[?|] ? []]. Qed.

Lemma body_same_file r packet r' packet' a : readNext_body r packet = Returned (r', packet', a) → same_file r r'.
Proof.
  unfold readNext_body, same_file, set_file. case_match; [by intros [= <- _ _]|].
  pose proof (read_over_contents (replicate sizeof_PcapPacketHeader Init.Byte.x00) (file_ r)) as E1.
  destruct (read_over _ _) as [ph f]. cbn in E1. case_match; [by intros [= <- _ _]|]. case_match; [|done].
  destruct p as [[sec us] n]. pose proof (read_over_contents (replicate (Z.to_nat n) Init.Byte.x00) f) as E2. rewrite E1 in E2.
  destruct (read_over _ f) as [raw f']. cbn in E2. by repeat case_match; intros; simplify_eq.
Qed.

Lemma read_tail nano hdr pre tail packet : cut_short tail →
  ∃ r p, readNext_body (reader_at nano hdr pre tail) packet = Returned (r, p, Some false).
Proof.
  intros Ht. unfold readNext_body, reader_at. cbn [is_open_ file_ negb is_nanosecond_].
  destruct (decide (length tail < 16)%nat) as [Hs|Hs].
  - pose proof (read_over_short (replicate sizeof_PcapPacketHeader Init.Byte.x00) pre tail Hs) as E.
    destruct (read_over _ _) as [ph f]. cbn in E. rewrite E. by repeat eexists.
  - destruct Ht as [|(n & Hn & Ht)]; [done|]. destruct (split_list 16 tail) as (ph & rest & -> & Hp); [lia|].
    rewrite read_over_app by (by rewrite Hp). cbn [good negb].
    assert (∀ o, (o + 4 ≤ 16)%nat → rd_u ph o 4 = rd_u (ph ++ rest) o 4) as E.
    { intros o Ho. unfold rd_u, slice. rewrite length_app, !decide_True by lia.
      by rewrite drop_app_le, take_app_le by (rewrite ?length_drop; lia). }
    rewrite <-E in Hn by lia. rewrite Hn. destruct (proj2 (rd_u_is_Some ph 0 4)) as [ts ->]; [lia|].
    destruct (proj2 (rd_u_is_Some ph 4 4)) as [us ->]; [lia|]. cbn [mbind option_bind]. rewrite app_assoc.
    pose proof (read_over_short (replicate (Z.to_nat n) Init.Byte.x00) (pre ++ ph) rest) as E2.
    rewrite length_replicate in E2. rewrite length_app in Ht. specialize (E2 ltac:(lia)).
    destruct (read_over (replicate (Z.to_nat n) _) _) as [raw f]. cbn in E2. rewrite E2. by repeat eexists.
Qed.

Lemma readNext_eq fuel r packet : readNext fuel r packet =
  match readNext_body r packet with
  | Returned (r, packet, Some answer) => Returned (r, packet, answer)
  | Returned (r, packet, None) => match fuel with O => OutOfFuel | S fuel => readNext fuel r packet end
  | Crashed => Crashed
  | OutOfFuel => OutOfFuel
  end.
Proof. by destruct fuel. Qed.

Definition records (recs : list Capture) : list byte := concat (record_bytes <$> recs).

Lemma records_cons c recs : records (c :: recs) = record_bytes c ++ records recs.
Proof. done. Qed.

Lemma record_length c : (16 ≤ length (record_bytes c))%nat.
Proof. unfold record_bytes. rewrite !length_app, !length_le_split. lia. Qed.

Lemma records_length recs : (length recs ≤ length (records recs))%nat.
Proof. induction recs as [|c recs IH]; [done|]. rewrite records_cons, length_app. pose proof (record_length c). cbn. lia. Qed.

Lemma captured_length nano recs : (length (omap (captured nano) recs) ≤ length (records recs))%nat.
Proof.
  induction recs as [|c recs IH]; [done|]. rewrite records_cons, length_app. pose proof (record_length c).
  cbn [omap list_omap]. change (list_omap _ _ (captured nano) recs) with (omap (captured nano) recs).
  destruct (captured nano c); cbn [length]; lia.
Qed.

(** One call over whole records: it skips what is no UDP frame. *)
Lemma next_packet nano hdr tail recs : cut_short tail → Forall cap_ok recs → ∀ fuel pre packet, (length recs ≤ fuel)%nat →
  let result := readNext fuel (reader_at nano hdr pre (records recs ++ tail)) packet in
  match omap (captured nano) recs with
  | [] => ∃ r p, result = Returned (r, p, false)
  | p :: ps => ∃ pre' rest, omap (captured nano) rest = ps ∧ Forall cap_ok rest ∧ (length rest < length recs)%nat ∧
      pre' ++ records rest = pre ++ records recs ∧ result = Returned (reader_at nano hdr pre' (records rest ++ tail), p, true)
  end.
Proof.
  intros Ht. induction 1 as [|c recs Hc Hrecs IH]; intros fuel pre packet Hfuel; cbn zeta.
  - cbn [omap list_omap records fmap list_fmap concat app]. rewrite readNext_eq.
    destruct (read_tail nano hdr pre tail packet Ht) as (r & p & ->). eauto.
  - rewrite records_cons, <-app_assoc, readNext_eq, (read_record _ _ _ c) by done. cbn [omap list_omap].
    destruct (captured nano c) as [p|].
    + exists (pre ++ record_bytes c), recs. rewrite <-app_assoc. cbn [length]. split_and!; first [done | lia].
    + destruct fuel as [|fuel]; cbn [length] in Hfuel; [lia|].
      specialize (IH fuel (pre ++ record_bytes c) (mkPacket (timestamp_of nano (cap_sec c) (cap_sub c)) (data packet)) ltac:(lia)).
      cbn zeta in IH. change (list_omap _ _ (captured nano) recs) with (omap (captured nano) recs).
      destruct (omap (captured nano) recs); [done|]. destruct IH as (pre' & rest & ? & ? & ? & E & ?).
      exists pre', rest. rewrite <-app_assoc in *. cbn [length]. split_and!; first [done | lia | congruence].
Qed.

Lemma next_same_file fuel : ∀ r packet r' packet' a, readNext fuel r packet = Returned (r', packet', a) → same_file r r'.
Proof.
  induction fuel as [|fuel IH]; intros r packet r' packet' a; rewrite readNext_eq;
    destruct (readNext_body r packet) as [[[r1 p1] [b|]]| |] eqn:E; intros H; try done; apply body_same_file in E;
    [by simplify_eq..|]. apply IH in H. unfold same_file in *. destruct E as (? & ? & ? & ?), H as (? & ? & ? & ?). repeat split; congruence.
Qed.

Lemma same_file_trans r1 r2 r3 : same_file r1 r2 → same_file r2 r3 → same_file r1 r3.
Proof. intros (? & ? & ? & ?) (? & ? & ? & ?). repeat split; congruence. Qed.

Lemma readAll_loop_eq fuel r pkt packets : readAll_loop fuel r pkt packets =
  match readNext (stream_bytes r) r pkt with
  | Returned (r, pkt, true) =>
      match fuel with O => OutOfFuel | S fuel => readAll_loop fuel r (mkPacket (timestamp_us pkt) []) (packets ++ [pkt]) end
  | Returned (r, _, false) => Returned (r, packets)
  | Crashed => Crashed
  | OutOfFuel => OutOfFuel
  end.
Proof. by destruct fuel. Qed.

Lemma all_packets nano hdr tail : cut_short tail → ∀ fuel recs pre packet acc, Forall cap_ok recs → (length recs ≤ fuel)%nat →
  ∃ r, readAll_loop fuel (reader_at nano hdr pre (records recs ++ tail)) packet acc =
       Returned (r, acc ++ omap (captured nano) recs) ∧
       same_file (reader_at nano hdr pre (records recs ++ tail)) r.
Proof.
  intros Ht. induction fuel as [fuel IH] using lt_wf_ind; intros recs pre packet acc Hrecs Hfuel; rewrite readAll_loop_eq.
  set (r0 := reader_at nano hdr pre (records recs ++ tail)).
  assert (length recs ≤ stream_bytes r0)%nat as Hb.
  { unfold stream_bytes, r0. cbn. rewrite !length_app. pose proof (records_length recs). lia. }
  pose proof (next_packet nano hdr tail recs Ht Hrecs (stream_bytes r0) pre packet Hb) as N. cbn zeta in N. fold r0 in N.
  destruct (omap (captured nano) recs) as [|p ps].
  - destruct N as (r & p & E). rewrite E, app_nil_r. apply next_same_file in E. eauto.
  - destruct N as (pre' & rest & Hps & Hrest & Hlen & Hpre & E). rewrite E. apply next_same_file in E.
    destruct fuel as [|fuel]; [lia|].
    destruct (IH fuel ltac:(lia) rest pre' (mkPacket (timestamp_us p) []) (acc ++ [p]) Hrest ltac:(lia)) as (r & -> & Hr).
    exists r. rewrite Hps, <-app_assoc. split; [done|]. by eapply same_file_trans.
Qed.

(** Opening a capture leaves the reader behind the header. *)
Lemma open_capture nano version_zone_snap rest :
  length version_zone_snap = 16%nat →
  let hdr := pcap_header nano version_zone_snap in
  length hdr = 24%nat ∧ open (Some (hdr ++ rest)) PcapReader_init = Some (reader_at nano hdr hdr rest, true).
Proof.
  intros Hv hdr. assert (length hdr = 24%nat) as Hh by (unfold hdr, pcap_header; by rewrite !length_app, !length_le_split, Hv).
  split; [done|]. unfold open. cbn [file_ PcapReader_init].
  change (stream_open (Some (hdr ++ rest)) (mkStream None 0 true)) with (mkStream (Some (hdr ++ rest)) 0 true).
  change (stream_is_open (mkStream (Some (hdr ++ rest)) 0 true)) with true. cbn [negb global_header_ PcapReader_init].
  pose proof (read_over_app (replicate sizeof_PcapGlobalHeader Init.Byte.x00) [] hdr rest) as E. cbn [app length] in E.
  rewrite E by (by rewrite Hh). cbn [good negb].
  assert (magic_number hdr = Some (if nano then PCAP_MAGIC_NANOSEC else PCAP_MAGIC_MICROSEC)) as ->.
  { unfold magic_number, hdr, pcap_header. by apply (rd_u_split []); [|destruct nano]. }
  assert (network hdr = Some LINKTYPE_ETHERNET) as ->.
  { unfold network, hdr, pcap_header. rewrite app_assoc, <-(app_nil_r (le_split 4 LINKTYPE_ETHERNET)).
    by apply rd_u_split; [rewrite length_app, length_le_split, Hv|]. }
  cbn [mbind option_bind]. by destruct nano.
Qed.

(** C38: a capture is read back. A file in either resolution that holds any
    sequence of frames, and may end in a record that was cut short, opens, and
    [readAll] returns the payload of every UDP frame, in order, with its time in
    microseconds, and nothing else; after [reset] it does so again. *)
Theorem pcap_roundtrip nano version_zone_snap recs tail :
  length version_zone_snap = 16%nat → Forall cap_ok recs → cut_short tail →
  let file := pcap_header nano version_zone_snap ++ records recs ++ tail in
  ∃ r r1 r2, open (Some file) PcapReader_init = Some (r, true) ∧
    readAll r = Returned (r1, omap (captured nano) recs) ∧
    readAll (reset r1) = Returned (r2, omap (captured nano) recs).
Proof.
  intros Hv Hrecs Ht file. destruct (open_capture nano version_zone_snap (records recs ++ tail) Hv) as [Hh Ho].
  set (hdr := pcap_header nano version_zone_snap) in *. set (r := reader_at nano hdr hdr (records recs ++ tail)) in *.
  assert (length recs ≤ stream_bytes r)%nat as Hb.
  { unfold stream_bytes, r. cbn. rewrite !length_app. pose proof (records_length recs). lia. }
  destruct (all_packets nano hdr tail Ht (stream_bytes r) recs hdr (mkPacket 0 []) [] Hrecs Hb) as (r1 & E1 & Hr1). fold r in E1, Hr1.
  assert (reset r1 = r) as Hreset.
  { destruct Hr1 as (Hc & Hop & Hn & Hg). unfold reset. rewrite Hc. unfold set_file. rewrite Hop, Hn, Hg.
    unfold r, reader_at. cbn. by rewrite Hh. }
  exists r, r1, r1. by rewrite Hreset.
Qed.

(** ** Any file *)
Definition unread (r : PcapReader) : nat := (stream_bytes r - position (file_ r))%nat.

Lemma read_over_good dst f : good (read_over dst f).2 = true →
  length (read_over dst f).1 = length dst ∧ contents (read_over dst f).2 = contents f ∧
  ∃ bytes, contents f = Some bytes ∧ position (read_over dst f).2 = (position f + length dst)%nat ∧
    (length dst = 0 ∨ position f + length dst ≤ length bytes)%nat.
Proof.
  unfold read_over, stream_read. destruct f as [[bytes|] p g]; cbn; [|done]. destruct g; cbn; [|done].
  intros E%Nat.eqb_eq. rewrite length_app, length_drop, E. split; [lia|]. split; [done|]. exists bytes.
  split; [done|]. split; [lia|]. rewrite length_take, length_drop in E. lia.
Qed.

(** The body never reads outside its buffers, and when it goes on it has read at
    least a packet header. *)
Lemma body_total r packet : ∃ r' packet' a, readNext_body r packet = Returned (r', packet', a) ∧
  (a = Some false ∨ (unread r' < unread r)%nat).
Proof.
  unfold readNext_body, unread, stream_bytes. case_match; [by eauto 10|].
  pose proof (read_over_good (replicate sizeof_PcapPacketHeader Init.Byte.x00) (file_ r)) as G1.
  destruct (read_over _ (file_ r)) as [ph f1]. cbn [fst snd] in G1. case_match eqn:E1; [by eauto 10|]. apply negb_false_iff in E1.
  destruct (G1 E1) as (L1 & C1 & bytes & Hb & P1 & B1). clear G1. rewrite length_replicate in *. unfold sizeof_PcapPacketHeader in *.
  destruct (proj2 (rd_u_is_Some ph 0 4)) as [ts ->]; [lia|]. destruct (proj2 (rd_u_is_Some ph 4 4)) as [us ->]; [lia|].
  destruct (proj2 (rd_u_is_Some ph 8 4)) as [n ->]; [lia|]. cbn [mbind option_bind].
  pose proof (read_over_good (replicate (Z.to_nat n) Init.Byte.x00) f1) as G2.
  destruct (read_over _ f1) as [raw f2]. cbn [fst snd] in G2. case_match eqn:E2; [by eauto 10|]. apply negb_false_iff in E2.
  destruct (G2 E2) as (L2 & C2 & bytes' & Hb' & P2 & B2). clear G2. rewrite length_replicate in *.
  destruct (strip_headers_exact raw) as (z & -> & Hz).
  assert (∀ r0, (default [] (contents (file_ r0)) = bytes → position (file_ r0) = position f2 →
    length (default [] (contents (file_ r0))) - position (file_ r0) < length (default [] (contents (file_ r))) - position (file_ r))%nat) as Hlt.
  { intros r0 -> ->. rewrite Hb. cbn. lia. }
  case_match eqn:E3.
  - do 3 eexists. split; [done|]. right. apply Hlt; [|done]. cbn. by rewrite C2, C1, Hb.
  - destruct Hz as [[-> _]|(f & _ & <- & Hz & Hd)]; [done|].
    unfold slice. rewrite decide_True by lia. do 3 eexists. split; [done|]. right. apply Hlt; [|done]. cbn. by rewrite C2, C1, Hb.
Qed.

Lemma next_total fuel : ∀ r packet, (unread r ≤ fuel)%nat → ∃ r' packet' a,
  readNext fuel r packet = Returned (r', packet', a) ∧ (a = false ∨ unread r' < unread r)%nat.
Proof.
  induction fuel as [|fuel IH]; intros r packet Hf; rewrite readNext_eq;
    destruct (body_total r packet) as (r1 & p1 & [[]|] & -> & [?|Hu]); try done; try (by eauto 10); [lia|].
  destruct (IH r1 p1 ltac:(lia)) as (r2 & p2 & a & -> & Ha). do 3 eexists. split; [done|].
  destruct Ha; [by left|right; lia].
Qed.

(** Any file is safe to read. Whatever the bytes of the file and the state
    of the reader, opened or not, the reader never reads outside its buffers,
    [readNext] stops looking for a UDP frame and [readAll] returns. *)
Theorem pcap_reads_any_file r packet :
  (∃ answer, readNext (stream_bytes r) r packet = Returned answer) ∧ ∃ packets, readAll r = Returned packets.
Proof.
  assert (∀ fuel r packet acc, (unread r ≤ fuel)%nat → ∃ x, readAll_loop fuel r packet acc = Returned x) as H.
  { clear. induction fuel as [fuel IH] using lt_wf_ind. intros r packet acc Hf. rewrite readAll_loop_eq.
    destruct (next_total (stream_bytes r) r packet) as (r' & p' & [] & -> & Ha); [unfold unread; lia| |by eauto].
    destruct Ha as [|Hu]; [done|]. destruct fuel as [|fuel]; [lia|]. apply IH; lia. }
  split; [|apply H; unfold unread; lia].
  destruct (next_total (stream_bytes r) r packet) as (r' & p' & a & -> & _); [unfold unread; lia|by eauto].
Qed.

(** ** Instances *)
Lemma not_udp d f : stripHeaders d (length d) = Some (-1) → frame_ok f → frame_bytes f ≠ d.
Proof. intros E Hf <-. destruct (strip_accepts f Hf) as (h & _ & E'). rewrite E in E'. injection E'. lia. Qed.

Definition demo_frame (tag : option (list byte)) (words : nat) (payload : list byte) : UdpFrame :=
  let z := Init.Byte.x00 in
  mkFrame (replicate 12 Init.Byte.xaa) tag words (replicate 8 z) (replicate (words * 4 - 10) z) (replicate 8 z) payload.

Definition demo_captures : list Capture :=
  [mkCapture 10 999 60 (inl (demo_frame None 5 [Init.Byte.x01; Init.Byte.x02]));
   mkCapture 10 1999 60 (inr (replicate 42 Init.Byte.x06));
   mkCapture 11 5000 0 (inl (demo_frame (Some [Init.Byte.x00; Init.Byte.x07]) 6 []))].

Lemma pcap_roundtrip_witness :
  ∃ r r1 r2, open (Some (pcap_header true (replicate 16 Init.Byte.x00) ++ records demo_captures ++ [Init.Byte.x05])) PcapReader_init = Some (r, true) ∧
    readAll r = Returned (r1, [mkPacket 10000000 [Init.Byte.x01; Init.Byte.x02]; mkPacket 11000005 []]) ∧
    readAll (reset r1) = Returned (r2, [mkPacket 10000000 [Init.Byte.x01; Init.Byte.x02]; mkPacket 11000005 []]).
Proof.
  apply (pcap_roundtrip true (replicate 16 Init.Byte.x00) demo_captures [Init.Byte.x05]).
  - done.
  - apply Forall_cons_2; [|apply Forall_cons_2; [|apply Forall_cons_2; [|done]]]; unfold cap_ok, frame_ok; cbn;
      split_and!; try lia; try done.
    + intros f Hf. by apply (not_udp (replicate 42 Init.Byte.x06)).
    + by intros ? [= <-].
  - left. cbn. lia.
Defined.

(** The length in the UDP header is not used: Ethernet pads a frame of a short
    datagram to 60 bytes, and the padding becomes part of the payload. *)
Example padding_is_payload :
  stripHeaders (frame_bytes (demo_frame None 5 [Init.Byte.x01]) ++ replicate 17 Init.Byte.x00) 60 = Some 42.
Proof. by vm_compute. Qed.
