(* ===== verification/SyntheticEngine.v ===== *)
(** * The synthetic engine (src/engine/synthetic_engine.h and .cpp)

    An engine that fills orders against replayed market data: submitted orders
    are compared with the best prices of the replay, the rest waits for trades of
    the replay. Orders are owned by [resting_orders_] and by nobody else, so they
    are values of that map. The steady clock and the random source are parameters
    indexed by the number of the read; [running_] may be cleared by another
    thread, which is a parameter as well. Methods do not overlap, the waits that
    pace the replay are left out, and a call of the market data callback is
    recorded with its bytes. *)
From Stdlib Require Import Floats.SpecFloat.
From S2P Require Import Prelude Types Sbe Mdp3 Order Engine Instrument PcapReader.
Import PcapOps.

Record BBO := mkBBO { best_bid : Price; bid_size : Quantity; best_ask : Price; ask_size : Quantity }.
Record RestingOrder := mkResting { resting_order : Order; submit_time : Timestamp }.

Record SyntheticEngine := mkSynthetic {
  pcap_reader_ : PcapReader;
  fill_probability_ : double;
  fill_latency_ns_ : Z;
  bbos_ : gmap SecurityId BBO;
  resting_orders_ : gmap OrderId RestingOrder;
  orders_by_security_ : gmap SecurityId (list OrderId);
  next_order_id_ : Z;
  next_trade_id_ : Z;
  md_callback_ : option (list buffer);
  running_ : bool;
  replay_thread_joinable : bool;
  pending_events_ : list EngineEvent;
  clock_reads : nat;
  rng_reads : nat;
}.

Module SyntheticOps.

Definition zero_double : double := S754_zero false.
Definition one_double : double := S754_finite false (2 ^ 52) (-52).

Definition BBO_init : BBO := mkBBO (mkPrice 0) 0 (mkPrice 0) 0.
Definition SyntheticEngine_init : SyntheticEngine :=
  mkSynthetic PcapReader_init one_double 1000 ∅ ∅ ∅ 1 1 None false false [] 0 0.

(** Assignments to the fields. *)
Definition set_reader v (e : SyntheticEngine) : SyntheticEngine :=
  let '(mkSynthetic _ a2 a3 a4 a5 a6 a7 a8 a9 a10 a11 a12 a13 a14) := e in
  mkSynthetic v a2 a3 a4 a5 a6 a7 a8 a9 a10 a11 a12 a13 a14.
Definition set_probability v (e : SyntheticEngine) : SyntheticEngine :=
  let '(mkSynthetic a1 _ a3 a4 a5 a6 a7 a8 a9 a10 a11 a12 a13 a14) := e in
  mkSynthetic a1 v a3 a4 a5 a6 a7 a8 a9 a10 a11 a12 a13 a14.
Definition set_latency v (e : SyntheticEngine) : SyntheticEngine :=
  let '(mkSynthetic a1 a2 _ a4 a5 a6 a7 a8 a9 a10 a11 a12 a13 a14) := e in
  mkSynthetic a1 a2 v a4 a5 a6 a7 a8 a9 a10 a11 a12 a13 a14.
Definition set_bbos v (e : SyntheticEngine) : SyntheticEngine :=
  let '(mkSynthetic a1 a2 a3 _ a5 a6 a7 a8 a9 a10 a11 a12 a13 a14) := e in
  mkSynthetic a1 a2 a3 v a5 a6 a7 a8 a9 a10 a11 a12 a13 a14.
Definition set_order_counter v (e : SyntheticEngine) : SyntheticEngine :=
  let '(mkSynthetic a1 a2 a3 a4 a5 a6 _ a8 a9 a10 a11 a12 a13 a14) := e in
  mkSynthetic a1 a2 a3 a4 a5 a6 v a8 a9 a10 a11 a12 a13 a14.
Definition set_trade_counter v (e : SyntheticEngine) : SyntheticEngine :=
  let '(mkSynthetic a1 a2 a3 a4 a5 a6 a7 _ a9 a10 a11 a12 a13 a14) := e in
  mkSynthetic a1 a2 a3 a4 a5 a6 a7 v a9 a10 a11 a12 a13 a14.
Definition set_callback v (e : SyntheticEngine) : SyntheticEngine :=
  let '(mkSynthetic a1 a2 a3 a4 a5 a6 a7 a8 _ a10 a11 a12 a13 a14) := e in
  mkSynthetic a1 a2 a3 a4 a5 a6 a7 a8 v a10 a11 a12 a13 a14.
Definition set_running v (e : SyntheticEngine) : SyntheticEngine :=
  let '(mkSynthetic a1 a2 a3 a4 a5 a6 a7 a8 a9 _ a11 a12 a13 a14) := e in
  mkSynthetic a1 a2 a3 a4 a5 a6 a7 a8 a9 v a11 a12 a13 a14.
Definition set_thread v (e : SyntheticEngine) : SyntheticEngine :=
  let '(mkSynthetic a1 a2 a3 a4 a5 a6 a7 a8 a9 a10 _ a12 a13 a14) := e in
  mkSynthetic a1 a2 a3 a4 a5 a6 a7 a8 a9 a10 v a12 a13 a14.
Definition set_pending v (e : SyntheticEngine) : SyntheticEngine :=
  let '(mkSynthetic a1 a2 a3 a4 a5 a6 a7 a8 a9 a10 a11 _ a13 a14) := e in
  mkSynthetic a1 a2 a3 a4 a5 a6 a7 a8 a9 a10 a11 v a13 a14.
Definition set_orders resting by_security (e : SyntheticEngine) : SyntheticEngine :=
  let '(mkSynthetic a1 a2 a3 a4 _ _ a7 a8 a9 a10 a11 a12 a13 a14) := e in
  mkSynthetic a1 a2 a3 a4 resting by_security a7 a8 a9 a10 a11 a12 a13 a14.
Definition count_clock (e : SyntheticEngine) : SyntheticEngine :=
  let '(mkSynthetic a1 a2 a3 a4 a5 a6 a7 a8 a9 a10 a11 a12 a13 a14) := e in
  mkSynthetic a1 a2 a3 a4 a5 a6 a7 a8 a9 a10 a11 a12 (S a13) a14.
Definition count_rng (e : SyntheticEngine) : SyntheticEngine :=
  let '(mkSynthetic a1 a2 a3 a4 a5 a6 a7 a8 a9 a10 a11 a12 a13 a14) := e in
  mkSynthetic a1 a2 a3 a4 a5 a6 a7 a8 a9 a10 a11 a12 a13 (S a14).

(** ** Configuration *)

(** [std::max(0.0, std::min(1.0, prob))]. *)
Definition setFillProbability (prob : double) (e : SyntheticEngine) : SyntheticEngine :=
  let m := if SFltb prob one_double then prob else one_double in
  set_probability (if SFltb zero_double m then m else zero_double) e.
Definition setFillLatencyNs (latency_ns : Z) (e : SyntheticEngine) : SyntheticEngine := set_latency latency_ns e.
Definition setMarketDataCallback (e : SyntheticEngine) : SyntheticEngine := set_callback (Some []) e.
Definition getBBO (e : SyntheticEngine) (security_id : SecurityId) : BBO := default BBO_init (bbos_ e !! security_id).

(** ** Orders against the best prices *)
Definition isMarketable (order : Order) (bbo : BBO) : bool :=
  if bool_decide (order_type order = Market) then
    if bool_decide (side order = Buy) then negb (Price_isNull (best_ask bbo)) && (0 <? ask_size bbo)
    else negb (Price_isNull (best_bid bbo)) && (0 <? bid_size bbo)
  else if bool_decide (side order = Buy) then
    negb (Price_isNull (best_ask bbo)) && (0 <? ask_size bbo) && Price_ge (price order) (best_ask bbo)
  else negb (Price_isNull (best_bid bbo)) && (0 <? bid_size bbo) && Price_le (price order) (best_bid bbo).

(** The order, the next trade id and the event. *)
Definition generateFill (trade_id : Z) (order : Order) (fill_price : Price) (fill_qty : Quantity) : Order * Z * EngineEvent :=
  let order := set_filled_qty (i32 (filled_qty order + fill_qty)) order in
  let order := if isFullyFilled order then set_status Filled order else set_status PartiallyFilled order in
  (order, u64 (trade_id + 1),
   OrderFilled trade_id (security_id order) fill_price fill_qty (side order)
     0 (chars "MARKET") 0 fill_qty 0 Filled
     (order_id order) (cl_ord_id order) (session_uuid order) (filled_qty order) (remainingQty order) (status order)).

Definition OrderAccepted_of (order : Order) : EngineEvent :=
  OrderAccepted (order_id order) (cl_ord_id order) (session_uuid order) (security_id order) (side order) (price order)
    (quantity order) (order_type order) (time_in_force order).
Definition OrderCancelled_of (order : Order) : EngineEvent :=
  OrderCancelled (order_id order) (cl_ord_id order) (session_uuid order) (security_id order) (filled_qty order) Canceled.

Section parameters.
Context (steady : nat → Timestamp) (draw : nat → double).

Definition nowNs (e : SyntheticEngine) : Timestamp * SyntheticEngine := (u64 (steady (clock_reads e)), count_clock e).

Definition submitOrder (e : SyntheticEngine) (order : Order) : SyntheticEngine * list EngineEvent :=
  let order := set_order_id (next_order_id_ e) order in
  let e := set_order_counter (u64 (next_order_id_ e + 1)) e in
  let '(now, e) := nowNs e in
  let order := set_status New (set_timestamp now order) in
  let sec_id := security_id order in
  let oid := order_id order in
  let events := [OrderAccepted_of order] in
  let bbo := default BBO_init (bbos_ e !! sec_id) in
  if isMarketable order bbo then
    let fill_price := if bool_decide (side order = Buy) then best_ask bbo else best_bid bbo in
    let fill_qty := remainingQty order in
    let '(_, next, fill) := generateFill (next_trade_id_ e) order fill_price fill_qty in
    (set_trade_counter next e, events ++ [fill])
  else if bool_decide (time_in_force order = IOC) || bool_decide (time_in_force order = FOK) then
    let order := set_status Canceled order in
    (e, events ++ [OrderCancelled_of order])
  else
    let by_security := <[sec_id := default [] (orders_by_security_ e !! sec_id) ++ [oid]]> (orders_by_security_ e) in
    let '(now, e) := nowNs e in
    let resting := if decide (is_Some (resting_orders_ e !! oid)) then resting_orders_ e
                   else <[oid := mkResting order now]> (resting_orders_ e) in
    (set_orders resting by_security e, events).

Definition cancelOrder (e : SyntheticEngine) (oid : OrderId) (sid : SecurityId) (uuid : Z) : SyntheticEngine * list EngineEvent :=
  match resting_orders_ e !! oid with
  | None => (e, [OrderCancelRejected oid [] uuid 1 "Unknown order"])
  | Some r =>
      let order := set_status Canceled (resting_order r) in
      let sec_orders := filter (λ id, id ≠ oid) (default [] (orders_by_security_ e !! sid)) in
      (set_orders (delete oid (resting_orders_ e)) (<[sid := sec_orders]> (orders_by_security_ e)) e,
       [OrderCancelled_of order])
  end.

Definition modifyOrder (e : SyntheticEngine) (oid : OrderId) (sid : SecurityId) (new_price : Price) (new_qty : Quantity)
    (new_cl_ord_id : ClOrdId) : SyntheticEngine * list EngineEvent :=
  match resting_orders_ e !! oid with
  | None => (e, [OrderCancelRejected oid [] 0 1 "Unknown order"])
  | Some r =>
      let order := set_status Replaced (set_cl_ord_id new_cl_ord_id (set_quantity new_qty (set_price new_price (resting_order r)))) in
      (set_orders (<[oid := mkResting order (submit_time r)]> (resting_orders_ e)) (orders_by_security_ e) e,
       [OrderModified (order_id order) (cl_ord_id order) (session_uuid order) (security_id order) new_price new_qty
          (filled_qty order) (remainingQty order)])
  end.

(** ** The replayed market *)
Definition updateBBO_entry (bbos : gmap SecurityId BBO) (entry : MDIncrementalRefreshBook46.Entry.t) : gmap SecurityId BBO :=
  let '(MDIncrementalRefreshBook46.Entry.mk px size sec_id _ _ level action type) := entry in
  let bbo := default BBO_init (bbos !! sec_id) in
  let sets := (action =? MDUpdateAction_to_u8 MD_New) || (action =? MDUpdateAction_to_u8 MD_Change)
              || (action =? MDUpdateAction_to_u8 MD_Overlay) in
  let bbo :=
    if bool_decide (type = Init.Byte.x30) then
      if level =? 1 then
        if sets then mkBBO (mkPrice px) size (best_ask bbo) (ask_size bbo)
        else if action =? MDUpdateAction_to_u8 MD_Delete then mkBBO Price_null 0 (best_ask bbo) (ask_size bbo)
        else bbo
      else bbo
    else if bool_decide (type = Init.Byte.x31) then
      if level =? 1 then
        if sets then mkBBO (best_bid bbo) (bid_size bbo) (mkPrice px) size
        else if action =? MDUpdateAction_to_u8 MD_Delete then mkBBO (best_bid bbo) (bid_size bbo) Price_null 0
        else bbo
      else bbo
    else bbo in
  <[sec_id := bbo]> bbos.

Definition updateBBO (e : SyntheticEngine) (msg : MDIncrementalRefreshBook46.t) : SyntheticEngine :=
  set_bbos (foldl updateBBO_entry (bbos_ e) (MDIncrementalRefreshBook46.entries msg)) e.

(** [uniform_real_distribution(0.0, 1.0)] drawn from the generator. *)
Definition shouldFill (e : SyntheticEngine) : bool * SyntheticEngine :=
  if SFleb one_double (fill_probability_ e) then (true, e)
  else if SFleb (fill_probability_ e) zero_double then (false, e)
  else (SFltb (draw (rng_reads e)) (fill_probability_ e), count_rng e).

Definition trade_reaches (order : Order) (trade_price : Price) : bool :=
  if bool_decide (side order = Buy) && Price_le trade_price (price order) then true
  else bool_decide (side order = Sell) && Price_ge trade_price (price order).

(** The loop over the order ids of the security: the engine, the events and the
    ids that are filled. *)
Definition check_order (trade_price : Price) (trade_qty : Quantity) (st : SyntheticEngine * list EngineEvent * list OrderId)
    (oid : OrderId) : SyntheticEngine * list EngineEvent * list OrderId :=
  let '(e, events, filled_ids) := st in
  match resting_orders_ e !! oid with
  | None => st
  | Some r =>
      let order := resting_order r in
      if negb (trade_reaches order trade_price) then st else
      let '(fills, e) := shouldFill e in
      if negb fills then (e, events, filled_ids) else
      let fill_qty := Z.min (remainingQty order) trade_qty in
      if fill_qty <=? 0 then (e, events, filled_ids) else
      let '(order, next, fill) := generateFill (next_trade_id_ e) order trade_price fill_qty in
      let e := set_trade_counter next
                 (set_orders (<[oid := mkResting order (submit_time r)]> (resting_orders_ e)) (orders_by_security_ e) e) in
      (e, events ++ [fill], if isFullyFilled order then filled_ids ++ [oid] else filled_ids)
  end.

Definition remove_filled (sid : SecurityId) (e : SyntheticEngine) (oid : OrderId) : SyntheticEngine :=
  set_orders (delete oid (resting_orders_ e))
    (<[sid := filter (λ id, id ≠ oid) (default [] (orders_by_security_ e !! sid))]> (orders_by_security_ e)) e.

Definition checkFillsOnTrade (e : SyntheticEngine) (sid : SecurityId) (trade_price : Price) (trade_qty : Quantity)
    (aggressor_side : Side) : SyntheticEngine * list EngineEvent :=
  match orders_by_security_ e !! sid with
  | None => (e, [])
  | Some order_ids =>
      let '(e, events, filled_ids) := foldl (check_order trade_price trade_qty) (e, [], []) order_ids in
      (foldl (remove_filled sid) e filled_ids, events)
  end.

(** An entry of a trade summary. *)
Definition process_trade (e : SyntheticEngine) (entry : MDIncrementalRefreshTradeSummary48.MDEntry.t) : SyntheticEngine :=
  let '(MDIncrementalRefreshTradeSummary48.MDEntry.mk px size sec_id _ _ side _) := entry in
  let aggressor := if side =? 1 then Buy else Sell in
  let '(e, fill_events) := checkFillsOnTrade e sec_id (mkPrice px) size aggressor in
  match fill_events with [] => e | _ => set_pending (pending_events_ e ++ fill_events) e end.

(** The walk over the messages of a packet; every message is at least a header
    long, so the length of the packet bounds the rounds. *)
Fixpoint process_messages (fuel : nat) (e : SyntheticEngine) (data : buffer) (offset len : nat) : result SyntheticEngine :=
  if (offset + MessageHeader.SIZE <=? len)%nat then
    match fuel with
    | O => OutOfFuel
    | S fuel =>
        match (template_id ← MessageHeader.decodeTemplateId data offset;
               block_length ← MessageHeader.decodeBlockLength data offset;
               if template_id =? MDIncrementalRefreshBook46.TEMPLATE_ID then
                 msg ← MDIncrementalRefreshBook46.decode data offset;
                 Some (updateBBO e msg, (offset + MDIncrementalRefreshBook46.encodedLength msg)%nat)
               else if template_id =? MDIncrementalRefreshTradeSummary48.TEMPLATE_ID then
                 msg ← MDIncrementalRefreshTradeSummary48.decode data offset;
                 Some (foldl process_trade e (MDIncrementalRefreshTradeSummary48.mdEntries msg),
                       (offset + MDIncrementalRefreshTradeSummary48.encodedLength msg)%nat)
               else Some (e, (offset + (MessageHeader.SIZE + Z.to_nat block_length))%nat)) with
        | None => Crashed
        | Some (e, offset) => process_messages fuel e data offset len
        end
    end
  else Returned e.

Definition MDP3_PACKET_HEADER_SIZE : nat := 12.

Definition processReplayedPacket (e : SyntheticEngine) (data : buffer) (len : nat) : result SyntheticEngine :=
  if (len <? MDP3_PACKET_HEADER_SIZE)%nat then Returned e
  else process_messages len e data MDP3_PACKET_HEADER_SIZE len.

(** ** The replay thread *)

(** [md_callback_(data, size)]. *)
Definition forward (bytes : buffer) (e : SyntheticEngine) : SyntheticEngine :=
  set_callback ((λ calls, calls ++ [bytes]) <$> md_callback_ e) e.

(** [stopped n]: another thread has called [stopReplay] before the [n]th load of
    [running_] in the loop. *)
Context (stopped : nat → bool).

Fixpoint replayLoop (fuel : nat) (loads : nat) (e : SyntheticEngine) (packet : PcapPacket) : result SyntheticEngine :=
  if stopped loads then Returned (set_running false e) else
  match readNext (stream_bytes (pcap_reader_ e)) (pcap_reader_ e) packet with
  | Crashed => Crashed
  | OutOfFuel => OutOfFuel
  | Returned (reader, _, false) => Returned (set_running false (set_reader reader e))
  | Returned (reader, packet, true) =>
      let e := set_reader reader e in
      if stopped (S loads) then Returned (set_running false e) else
      match (match data packet with
             | [] => Returned e
             | bytes => processReplayedPacket (forward bytes e) bytes (length bytes)
             end) with
      | Returned e =>
          match fuel with
          | O => OutOfFuel
          | S fuel => replayLoop fuel (S (S loads)) e packet
          end
      | failed => failed
      end
  end.

(** [startReplay], with the thread's work in place of the thread; [file] is what
    the path of the reader names. Assigning to a thread that was not joined ends
    the process. *)
Definition startReplay (file : option buffer) (e : SyntheticEngine) : result SyntheticEngine :=
  if running_ e then Returned e else
  let run e :=
    let e := set_running true e in
    if replay_thread_joinable e then Crashed
    else replayLoop (stream_bytes (pcap_reader_ e)) 0 (set_thread true e) (mkPacket 0 []) in
  if isOpen (pcap_reader_ e) then run e else
  match open file (pcap_reader_ e) with
  | None => Crashed
  | Some (reader, false) => Returned (set_reader reader e)
  | Some (reader, true) => run (set_reader reader e)
  end.

Definition stopReplay (e : SyntheticEngine) : SyntheticEngine := set_thread false (set_running false e).

(** The engine behind the gateway's interface; it reads its own clock. *)
Definition synthetic_engine : IMatchingEngine SyntheticEngine :=
  Build_IMatchingEngine _ (λ e _ order, Some (submitOrder e order)) (λ e oid sid uuid, Some (cancelOrder e oid sid uuid))
    (λ e oid sid p q cl, Some (modifyOrder e oid sid p q cl)).

End parameters.
End SyntheticOps.
