(* ===== verification/SyntheticTheorems.v ===== *)
(** * Theorems about the synthetic engine

    The market it replays, from the books of the exchange to its best prices, and
    the fills of its orders. *)
From Stdlib Require Import Floats.SpecFloat.
From S2P Require Import Prelude Types Sbe Mdp3 Dispatcher Order PriceLevel OrderBook BookSpec BookWf BookReplay BookCommands Engine EngineTheorems EngineReplay Typed.
From S2P Require Import Instrument InstrumentManager MarketData Publisher Listener ListenerTheorems FeedLemmas FeedChannels FeedTheorems.
From S2P Require Import PcapReader PcapTheorems SyntheticEngine.
Import MarketDataOps PublisherOps ListenerOps PcapOps SyntheticOps.

(** ** The quotes and the depth

    A quote has no size, or it is the best level. *)
Definition quote_side (p : Price) (q : Quantity) (d : depth_list) : Prop :=
  q = 0 ∨ ∃ n, head d = Some (p, q, n).
Definition quotes_ok (b : BBO) (d : depth_list * depth_list) : Prop :=
  quote_side (best_bid b) (bid_size b) d.1 ∧ quote_side (best_ask b) (ask_size b) d.2.

Lemma quotes_init d : quotes_ok BBO_init d.
Proof. by split; left. Qed.

Lemma quote_update p q d act level px size orders d' :
  apply_update (read_action act) level (px, size, orders) d = Some d' → quote_side p q d →
  if level =? 1 then
    if (act =? 0) || (act =? 1) then quote_side px size d' else act = 2
  else quote_side p q d'.
Proof.
  unfold apply_update. case_decide as Hi; [|done]. destruct Hi as [H1 Hi]. intros Ha Hq.
  assert ((act = 0 ∧ read_action act = MD_New) ∨ (act = 1 ∧ read_action act = MD_Change) ∨ (act = 2 ∧ read_action act = MD_Delete)) as Hact.
  { revert Ha. unfold read_action. destruct (Z.eqb_spec act 0), (Z.eqb_spec act 1), (Z.eqb_spec act 2); try by auto.
    by repeat case_match. }
  destruct (Z.eqb_spec level 1) as [->|Hn].
  - destruct Hact as [[-> E]|[[-> E]|[-> E]]]; rewrite E in *; cbn in *; [| |done]; injection Ha as <-; right; exists orders; [done|].
    destruct d; [cbn in Hi; lia|done].
  - destruct Hq as [->|[n Hd]]; [by left|]. right. exists n. destruct d as [|y d]; [done|]. injection Hd as ->.
    replace (Z.to_nat (level - 1)) with (S (Z.to_nat (level - 2))) in Ha by lia.
    destruct Hact as [[-> E]|[[-> E]|[-> E]]]; rewrite E in *; by injection Ha as <-.
Qed.

Lemma entry_quotes sid bbos d entry d' :
  apply_entry sid d entry = Some d' → quotes_ok (default BBO_init (bbos !! sid)) d →
  quotes_ok (default BBO_init (updateBBO_entry bbos entry !! sid)) d'.
Proof.
  destruct entry as [px size sec rpt orders level action type]. cbn [updateBBO_entry apply_entry].
  destruct (Z.eqb_spec sec sid) as [->|Hne]; cbn [negb].
  2:{ intros [= <-]. by rewrite lookup_insert_ne. }
  rewrite lookup_insert_eq. cbn [default from_option id]. set (b := default BBO_init (bbos !! sid)). intros Hd [Hb Hs].
  assert (∀ p q dd dd', apply_update (read_action action) level (mkPrice px, size, orders) dd = Some dd' → quote_side p q dd →
    let r := if level =? 1 then if (action =? 0) || (action =? 1) || (action =? 5) then (mkPrice px, size)
             else if action =? 2 then (Price_null, 0) else (p, q) else (p, q) in quote_side r.1 r.2 dd') as Hstep.
  { intros p q dd dd' Hdd Hq. pose proof (quote_update p q dd action level _ size orders dd' Hdd Hq) as H.
    destruct (level =? 1); [|done]. destruct (Z.eqb_spec action 0) as [->|]; [done|]. destruct (Z.eqb_spec action 1) as [->|]; [done|].
    cbn in H. subst action. by left. }
  case_bool_decide as Et; [|case_bool_decide as Et2; [|done]]; unfold update_side in Hd;
    apply bind_Some in Hd as (dd' & Hdd & [= <-]); cbn [MDUpdateAction_to_u8];
    [specialize (Hstep _ _ _ _ Hdd Hb) | specialize (Hstep _ _ _ _ Hdd Hs)]; cbn zeta in Hstep;
    destruct (level =? 1), ((action =? 0) || (action =? 1) || (action =? 5)), (action =? 2); by split.
Qed.

(** ** Messages *)

(** What the trades of the replay leave alone. *)
Definition market (e : SyntheticEngine) : gmap SecurityId BBO * PcapReader * option (list buffer) :=
  (bbos_ e, pcap_reader_ e, md_callback_ e).

Section parameters.
Context (steady : nat → Timestamp) (draw : nat → double).

Definition process_msg (e : SyntheticEngine) (m : MDP3Msg) : SyntheticEngine :=
  match m with
  | M_MDIncrementalRefreshBook46 m => updateBBO e m
  | M_MDIncrementalRefreshTradeSummary48 m => foldl (process_trade draw) e (MDIncrementalRefreshTradeSummary48.mdEntries m)
  | _ => e
  end.

Lemma process_walk msgs : ∀ fuel e pre post,
  Forall MDP3Msg_wf msgs → Forall feed_message msgs → (length msgs ≤ fuel)%nat →
  process_messages draw fuel e (pre ++ messages_bytes msgs ++ post) (length pre) (length pre + length (messages_bytes msgs)) =
  Returned (foldl process_msg e msgs).
Proof.
  induction msgs as [|m msgs IH]; intros fuel e pre post Hw Hm Hf.
  - cbn [messages_bytes fmap list_fmap concat length]. rewrite Nat.add_0_r.
    destruct fuel; cbn [process_messages]; destruct (Nat.leb_spec (length pre + MessageHeader.SIZE) (length pre)); try done;
      unfold MessageHeader.SIZE in *; lia.
  - apply Forall_cons in Hw as [Hwm Hw], Hm as [Hm Hms]. cbn [length] in Hf. destruct fuel as [|fuel]; [lia |].
    unfold messages_bytes in *. cbn [fmap list_fmap concat]. rewrite <-app_assoc, length_app, MDP3Msg_bytes_length by done.
    pose proof (message_long m) as Hlong. cbn [process_messages].
    match goal with |- context [(?a <=? ?b)%nat] => destruct (Nat.leb_spec a b); [| lia] end.
    rewrite message_block, message_template by done. cbn [mbind option_bind].
    specialize (λ e', IH fuel e' (pre ++ MDP3Msg_bytes m) post Hw Hms ltac:(lia)).
    rewrite length_app, MDP3Msg_bytes_length, <-app_assoc, <-Nat.add_assoc in IH by done.
    set (rest := concat (MDP3Msg_bytes <$> msgs)) in *.
    destruct m as [m|m|m|m|m|m|m]; try done; cbn [MDP3Msg_bytes MDP3Msg_wf] in *;
      pose proof (sbe_decode_spec m pre (rest ++ post) Hwm) as Hd; eval_decode Hd; eval_template; rewrite Hd; cbn [mbind option_bind];
      apply IH.
Qed.

Lemma should_market e : market (shouldFill draw e).2 = market e.
Proof. unfold shouldFill. repeat case_match; by destruct e. Qed.

Lemma trade_market px qty st oid : market (check_order draw px qty st oid).1.1 = market st.1.1.
Proof.
  destruct st as [[e evs] ids]. unfold check_order. destruct (resting_orders_ e !! oid); [|done]. case_match; [done|].
  pose proof (should_market e) as H1. destruct (shouldFill draw e) as [b e1]. cbn [snd] in H1.
  case_match; [done|]. case_match; [done|]. destruct (generateFill _ _ _ _) as [[o next] fill]. cbn [fst]. rewrite <-H1. by destruct e1.
Qed.

Lemma trade_entry_market e entry : market (process_trade draw e entry) = market e.
Proof.
  destruct entry as [px size sid rpt orders side action]. unfold process_trade, checkFillsOnTrade.
  destruct (orders_by_security_ e !! sid) as [ids|]; [|done].
  assert (∀ st, market (foldl (check_order draw (mkPrice px) size) st ids).1.1 = market st.1.1) as H1.
  { induction ids as [|oid ids IH]; intros st; [done|]. cbn. by rewrite IH, trade_market. }
  specialize (H1 (e, [], [])). destruct (foldl _ _ _) as [[e1 evs] filled]. cbn [fst] in H1.
  assert (∀ e, market (foldl (remove_filled sid) e filled) = market e) as H2.
  { induction filled as [|oid filled IH]; intros e'; [done|]. cbn. rewrite IH. by destruct e'. }
  specialize (H2 e1). rewrite H1 in H2. destruct evs; [done|]. rewrite <-H2. by destruct (foldl _ _ _).
Qed.

Lemma process_market e m : feed_message m →
  market (process_msg e m) = (foldl updateBBO_entry (bbos_ e)
    match m with M_MDIncrementalRefreshBook46 m => MDIncrementalRefreshBook46.entries m | _ => [] end, pcap_reader_ e, md_callback_ e).
Proof.
  destruct m as [m|m|m|m|m|m|m]; try done; intros _; cbn [process_msg].
  - unfold updateBBO. by destruct e.
  - generalize (MDIncrementalRefreshTradeSummary48.mdEntries m). intros l. revert e.
    induction l as [|x l IH]; intros e; [done|]. cbn [foldl]. rewrite IH. pose proof (trade_entry_market e x) as E.
    unfold market in E. injection E as E1 E2 E3. cbn. by rewrite E1, E2, E3.
Qed.

(** ** Packets *)
Definition msg_entries (m : MDP3Msg) : list MDIncrementalRefreshBook46.Entry.t :=
  match m with M_MDIncrementalRefreshBook46 m => MDIncrementalRefreshBook46.entries m | _ => [] end.
Definition packets_entries (l : list (Z * list MDP3Msg)) : list MDIncrementalRefreshBook46.Entry.t :=
  concat ((λ p, concat (msg_entries <$> p.2)) <$> l).

Lemma process_msgs_market msgs : ∀ e, Forall feed_message msgs →
  market (foldl (process_msg) e msgs) = (foldl updateBBO_entry (bbos_ e) (concat (msg_entries <$> msgs)), pcap_reader_ e, md_callback_ e).
Proof.
  induction msgs as [|m msgs IH]; intros e Hm; [done|]. apply Forall_cons in Hm as [Hm Hms]. cbn [foldl]. rewrite IH by done.
  pose proof (process_market e m Hm) as E. fold (msg_entries m) in E. unfold market in E. injection E as -> -> ->.
  cbn [fmap list_fmap concat]. by rewrite foldl_app.
Qed.

Lemma replay_packet e seq t msgs : Forall MDP3Msg_wf msgs → Forall feed_message msgs →
  let bytes := packet_bytes seq t (messages_bytes msgs) in
  ∃ e', processReplayedPacket draw e bytes (length bytes) = Returned e' ∧
    market e' = (foldl updateBBO_entry (bbos_ e) (concat (msg_entries <$> msgs)), pcap_reader_ e, md_callback_ e).
Proof.
  intros Hw Hm bytes. exists (foldl process_msg e msgs). split; [|by apply process_msgs_market].
  unfold processReplayedPacket, bytes. rewrite packet_bytes_length. unfold MDP3_PACKET_HEADER_SIZE, PacketHeader.SIZE.
  rewrite (proj2 (Nat.ltb_ge _ _)) by lia. unfold packet_bytes. rewrite app_assoc.
  assert (length (le_split 4 seq ++ le_split 8 t) = 12%nat) as El by (by rewrite length_app, !length_le_split).
  pose proof (process_walk msgs (12 + length (messages_bytes msgs)) e (le_split 4 seq ++ le_split 8 t) [] Hw Hm) as H.
  rewrite app_nil_r, El in H. apply H. clear -Hw. induction msgs as [|m msgs IH]; [cbn; lia|].
  apply Forall_cons in Hw as [Hm Hw]. specialize (IH Hw). unfold messages_bytes in *. cbn [fmap list_fmap concat length].
  rewrite length_app, MDP3Msg_bytes_length by done. pose proof (message_long m). unfold MessageHeader.SIZE in *. lia.
Qed.

(** ** The replay of a capture *)
Lemma replay_capture nano hdr tail : cut_short tail → ∀ l seq fuel recs pre loads e packet,
  Forall cap_ok recs → data <$> omap (captured nano) recs = packets seq l →
  Forall (λ p, Forall MDP3Msg_wf p.2 ∧ Forall feed_message p.2) l → (length l ≤ fuel)%nat →
  pcap_reader_ e = reader_at nano hdr pre (records recs ++ tail) →
  ∃ e', replayLoop draw (λ _, false) fuel loads e packet = Returned e' ∧
    bbos_ e' = foldl updateBBO_entry (bbos_ e) (packets_entries l) ∧
    md_callback_ e' = (λ calls, calls ++ packets seq l) <$> md_callback_ e ∧ running_ e' = false.
Proof.
  intros Ht l. induction l as [|[t msgs] l IH]; intros seq fuel recs pre loads e packet Hrecs Hcap Hl Hf Hr.
  all: assert (length recs ≤ stream_bytes (pcap_reader_ e))%nat as Hb
    by (rewrite Hr; unfold stream_bytes; cbn; rewrite !length_app; pose proof (records_length recs); lia);
    pose proof (next_packet nano hdr tail recs Ht Hrecs (stream_bytes (pcap_reader_ e)) pre packet Hb) as N; cbn zeta in N;
    rewrite <-Hr in N; cbn [packets] in Hcap; destruct (omap (captured nano) recs) as [|p ps]; try done.
  - destruct N as (r & p & N).
    assert (replayLoop draw (λ _, false) fuel loads e packet = Returned (set_running false (set_reader r e))) as ->
      by (destruct fuel; cbn; by rewrite N).
    eexists. split; [done|]. cbn [packets packets_entries fmap list_fmap concat foldl]. destruct e as [? ? ? ? ? ? ? ? c ?]. cbn.
    split; [done|]. split; [|done]. destruct c; cbn; [by rewrite app_nil_r|done].
  - destruct N as (pre' & rest & Hps & Hrest & _ & _ & N). injection Hcap as Hp Hcap. rewrite <-Hps in Hcap.
    apply Forall_cons in Hl as [[Hw Hm] Hl]. cbn [length snd] in *. destruct fuel as [|fuel]; [lia|].
    set (r := reader_at nano hdr pre' (records rest ++ tail)) in *. set (bytes := packet_bytes seq t (messages_bytes msgs)) in *.
    destruct (replay_packet (forward bytes (set_reader r e)) seq t msgs Hw Hm) as (e1 & E1 & M1). cbn zeta in E1. fold bytes in E1.
    assert (replayLoop draw (λ _, false) (S fuel) loads e packet = replayLoop draw (λ _, false) fuel (S (S loads)) e1 p) as ->.
    { cbn [replayLoop]. rewrite N, Hp. cbv iota.
      assert (∃ b bs, bytes = b :: bs) as (b & bs & Eb) by (destruct bytes eqn:Eb; [|by eauto]; unfold bytes, packet_bytes in Eb; by cbn in Eb).
      rewrite Eb in *. by rewrite E1. }
    assert (bbos_ e1 = foldl updateBBO_entry (bbos_ e) (concat (msg_entries <$> msgs)) ∧ pcap_reader_ e1 = r ∧
      md_callback_ e1 = (λ calls, calls ++ [bytes]) <$> md_callback_ e) as (B1 & R1 & C1)
      by (unfold market in M1; injection M1 as -> -> ->; by destruct e).
    destruct (IH (u32 (seq + 1)) fuel rest pre' (S (S loads)) e1 p Hrest Hcap Hl ltac:(lia) R1) as (e' & -> & B & C & R).
    exists e'. split; [done|]. rewrite B, B1, C, C1. unfold packets_entries. cbn [fmap list_fmap concat snd packets].
    rewrite foldl_app. split; [done|]. split; [|done]. fold bytes. destruct (md_callback_ e); cbn; [by rewrite <-app_assoc|done].
Qed.
End parameters.

(** The quotes after packets whose book updates a client can apply. *)
Lemma entries_quotes sid es : ∀ bbos d d',
  ofold (apply_entry sid) d es = Some d' → quotes_ok (default BBO_init (bbos !! sid)) d →
  quotes_ok (default BBO_init (foldl updateBBO_entry bbos es !! sid)) d'.
Proof.
  induction es as [|x es IH]; intros bbos d d'; cbn [ofold foldl]; [by intros [= ->]|].
  intros (d1 & H1 & H2)%bind_Some Hq. apply (IH _ _ _ H2). by eapply entry_quotes.
Qed.

Lemma lines_entries sid l : ∀ seq d, Forall (λ p, Forall feed_message p.2) l →
  subscriber_depth sid d (packet_lines seq l) = ofold (apply_entry sid) d (packets_entries l).
Proof.
  induction l as [|[t msgs] l IH]; intros seq d Hl; [done|]. apply Forall_cons in Hl as [Hm Hl]. cbn [snd] in Hm.
  transitivity (subscriber_depth sid d ((printed <$> msgs) ++ packet_lines (u32 (seq + 1)) l)); [done|].
  unfold packets_entries. cbn [fmap list_fmap concat snd]. rewrite subscriber_app, ofold_app.
  assert (subscriber_depth sid d (printed <$> msgs) = ofold (apply_entry sid) d (concat (msg_entries <$> msgs))) as ->.
  { clear -Hm. revert d. induction Hm as [|m msgs Hm _ IH]; intros d; [done|]. unfold subscriber_depth in *.
    cbn [fmap list_fmap ofold concat]. rewrite ofold_app. destruct m; try done; cbn [printed apply_line msg_entries];
      [by destruct (ofold _ _ _); [apply IH|]|apply IH]. }
  by destruct (ofold _ _ _); [apply IH|].
Qed.

(** ** From the books of the exchange to the orders of the synthetic engine *)

(** Prices and quantities of the fills among events. *)
Definition fills_of (evs : list EngineEvent) : list (Price * Quantity) :=
  omap (λ e, match e with OrderFilled _ _ px q _ _ _ _ _ _ _ _ _ _ _ _ _ => Some (px, q) | _ => None end) evs.
Definition limit_reaches (o : Order) (px : Price) : Prop :=
  order_type o = Market ∨ if bool_decide (side o = Buy) then mantissa px ≤ mantissa (price o) else mantissa (price o) ≤ mantissa px.

Lemma submit_at_best steady s o d :
  quotes_ok (getBBO s (security_id o)) d →
  fills_of (submitOrder steady s o).2 = [] ∨
  ∃ px q n, fills_of (submitOrder steady s o).2 = [(px, remainingQty o)] ∧
    head (if bool_decide (side o = Buy) then d.2 else d.1) = Some (px, q, n) ∧ 0 < q ∧ limit_reaches o px.
Proof.
  intros [Hb Ha]. unfold submitOrder, nowNs. set (o' := set_status New _).
  assert (side o' = side o ∧ order_type o' = order_type o ∧ price o' = price o ∧ security_id o' = security_id o ∧ remainingQty o' = remainingQty o)
    as (Es & Et & Ep & Eid & Er) by (unfold o'; by destruct o).
  cbn [bbos_]. rewrite Eid. assert (default BBO_init (bbos_ (count_clock (set_order_counter (u64 (next_order_id_ s + 1)) s)) !! security_id o)
    = getBBO s (security_id o)) as -> by (by destruct s). set (b := getBBO s (security_id o)) in *.
  destruct (isMarketable o' b) eqn:Em; [|left; by destruct (_ || _)].
  right. unfold generateFill. cbn [snd fills_of omap list_omap app]. rewrite Er.
  unfold isMarketable in Em. rewrite Es, Et, Ep in *. unfold limit_reaches.
  revert Em. destruct (bool_decide (side o = Buy)); intros Em.
  - destruct Ha as [Ha|[n Ha]].
    { rewrite Ha in Em. change (0 <? 0) with false in Em. by case_bool_decide; rewrite andb_false_r in Em. }
    exists (best_ask b), (ask_size b), n. split; [done|]. split; [done|]. case_bool_decide.
    + apply andb_true_iff in Em as [_ ?%Z.ltb_lt]. auto.
    + apply andb_true_iff in Em as [[_ ?%Z.ltb_lt]%andb_true_iff Hp]. split; [done|]. right. by apply Z.leb_le in Hp.
  - destruct Hb as [Hb|[n Hb]].
    { rewrite Hb in Em. change (0 <? 0) with false in Em. by case_bool_decide; rewrite andb_false_r in Em. }
    exists (best_bid b), (bid_size b), n. split; [done|]. split; [done|]. case_bool_decide.
    + apply andb_true_iff in Em as [_ ?%Z.ltb_lt]. auto.
    + apply andb_true_iff in Em as [[_ ?%Z.ltb_lt]%andb_true_iff Hp]. split; [done|]. right. by apply Z.leb_le in Hp.
Qed.


(** The feed of the demo exchange, captured. *)
Definition capture_of (d : buffer) : Capture := mkCapture 1 2 0 (inl (demo_frame None 5 d)).

Lemma captured_data nano (ds : list buffer) : data <$> omap (captured nano) (capture_of <$> ds) = ds.
Proof. induction ds as [|d ds IH]; [done|]. cbn. f_equal. exact IH. Qed.

Lemma capture_of_ok (ds : list buffer) : Forall (λ d, Z.of_nat (length d) < 2 ^ 20) ds → Forall cap_ok (capture_of <$> ds).
Proof.
  intros H. apply Forall_fmap. eapply Forall_impl; [exact H|]. intros d Hd. cbn in Hd |- *. unfold cap_ok, capture_of, cap_bytes. cbn -[frame_bytes].
  assert (length (frame_bytes (demo_frame None 5 d)) = 42 + length d)%nat as -> by done.
  unfold frame_ok. cbn. split_and!; first [done | lia].
Qed.

Definition demo_feed : list buffer :=
  match run_exchange demo_time EngineOps.Engine_init demo_publisher demo_cmds (replicate 9 [310]) with
  | Some (_, p) => match channel_publishers_ p !! 310 with Some c => datagrams (incremental_feed_a_ c) | None => [] end
  | None => []
  end.

Lemma demo_feed_short : Forall (λ d, Z.of_nat (length d) < 2 ^ 20) demo_feed.
Proof.
  assert (forallb (λ d, Z.of_nat (length d) <? 2 ^ 20) demo_feed = true) as H by (vm_compute; reflexivity).
  apply Forall_forall. intros d Hin. apply list_elem_of_In in Hin. by eapply forallb_forall, Z.ltb_lt in H.
Qed.

Definition demo_synthetic : SyntheticEngine := setMarketDataCallback SyntheticEngine_init.

