(* ===== verification/SyntheticAudit.v ===== *)
(** * The life of an order in the synthetic engine

    An abstract account of every order, which accepts an event only where it
    belongs in the order's life, and the proof that the synthetic engine refines
    it: whatever is submitted, cancelled, modified and replayed. *)
From Stdlib Require Import Floats.SpecFloat.
From S2P Require Import Prelude Types Sbe Mdp3 Dispatcher Order BookReplay Engine EngineTheorems EngineReplay Typed Instrument Publisher Listener ListenerTheorems FeedLemmas FeedChannels PcapReader PcapTheorems.
From S2P Require Import SyntheticEngine SyntheticTheorems.
Import PublisherOps ListenerOps PcapOps SyntheticOps.

(** ** The specification *)

(** What is known of an order that is neither finished nor cancelled. *)
Record Account := mkAccount {
  ac_security : SecurityId;
  ac_side : Side;
  ac_type : OrderType;
  ac_price : Price;
  ac_quantity : Z;
  ac_filled : Z;
}.

(** The price is one the order allows: any for a market order, else its limit or better. *)
Definition allows (a : Account) (px : Price) : bool :=
  bool_decide (ac_type a = Market) ||
  if bool_decide (ac_side a = Buy) then Price_le px (ac_price a) else Price_ge px (ac_price a).

(** An order is accepted once under a new id; a fill is at an allowed price, of at
    least one and at most the open quantity, and reports the totals after it; a
    cancellation or a modification reports the quantity filled; an order that is
    filled or cancelled is finished. *)
Definition audit (accounts : gmap OrderId Account) (e : EngineEvent) : option (gmap OrderId Account) :=
  match e with
  | OrderAccepted oid _ _ sid sd p q ot _ =>
      if decide (accounts !! oid = None) then Some (<[oid := mkAccount sid sd ot p q 0]> accounts) else None
  | OrderFilled _ sid px q sd _ _ _ _ _ _ oid _ _ cum leaves st =>
      a ← accounts !! oid;
      let filled := ac_filled a + q in
      if decide (sid = ac_security a ∧ sd = ac_side a ∧ allows a px = true ∧ 0 < q ∧ filled ≤ ac_quantity a ∧ cum = filled ∧
                 leaves = ac_quantity a - filled ∧ st = if leaves =? 0 then Filled else PartiallyFilled) then
        Some (if leaves =? 0 then delete oid accounts
              else <[oid := mkAccount sid (ac_side a) (ac_type a) (ac_price a) (ac_quantity a) filled]> accounts)
      else None
  | OrderModified oid _ _ sid p q cum leaves =>
      a ← accounts !! oid;
      if decide (sid = ac_security a ∧ cum = ac_filled a ∧ leaves = q - cum) then
        Some (<[oid := mkAccount sid (ac_side a) (ac_type a) p q cum]> accounts)
      else None
  | OrderCancelled oid _ _ sid cum st =>
      a ← accounts !! oid;
      if decide (sid = ac_security a ∧ cum = ac_filled a ∧ st = Canceled) then Some (delete oid accounts) else None
  | OrderCancelRejected oid _ _ _ _ => if decide (accounts !! oid = None) then Some accounts else None
  | OrderRejected _ _ _ _ | BookUpdate _ _ _ _ _ _ _ _ => None
  end.

(** ** Runs of the engine *)
Inductive SynCall :=
| SynSubmit (o : Order)
| SynCancel (oid : OrderId) (sid : SecurityId) (uuid : Z)
| SynModify (oid : OrderId) (sid : SecurityId) (p : Price) (q : Quantity) (cl : ClOrdId)
| SynPacket (data : buffer).

(** What callers pass: a new order is unfilled and its quantity positive, a
    modified quantity is not negative, both fit [int32_t]. *)
Definition syn_call_ok (c : SynCall) : Prop :=
  match c with
  | SynSubmit o => filled_qty o = 0 ∧ 0 < quantity o < 2 ^ 31
  | SynModify _ _ _ q _ => 0 ≤ q < 2 ^ 31
  | _ => True
  end.

Section runs.
Context (steady : nat → Timestamp) (draw : nat → double).

(** A call and the events it produces, returned or put into [pending_events_]. *)
Definition syn_call (e : SyntheticEngine) (c : SynCall) : result (SyntheticEngine * list EngineEvent) :=
  match c with
  | SynSubmit o => Returned (submitOrder steady e o)
  | SynCancel oid sid uuid => Returned (cancelOrder e oid sid uuid)
  | SynModify oid sid p q cl => Returned (modifyOrder e oid sid p q cl)
  | SynPacket data =>
      match processReplayedPacket draw e data (length data) with
      | Returned e' => Returned (e', drop (length (pending_events_ e)) (pending_events_ e'))
      | Crashed => Crashed
      | OutOfFuel => OutOfFuel
      end
  end.

Fixpoint syn_run (e : SyntheticEngine) (cs : list SynCall) : result (SyntheticEngine * list EngineEvent) :=
  match cs with
  | [] => Returned (e, [])
  | c :: cs =>
      match syn_call e c with
      | Returned (e, evs) =>
          match syn_run e cs with
          | Returned (e, evs') => Returned (e, evs ++ evs')
          | failed => failed
          end
      | failed => failed
      end
  end.

(** ** The refinement *)
Definition account_of (r : RestingOrder) : Account :=
  let o := resting_order r in mkAccount (security_id o) (side o) (order_type o) (price o) (quantity o) (filled_qty o).

Record order_sound (next : Z) (oid : OrderId) (r : RestingOrder) : Prop := {
  os_id : order_id (resting_order r) = oid;
  os_next : oid < next;
  os_quantity : 0 ≤ quantity (resting_order r) < 2 ^ 31;
  os_filled : 0 ≤ filled_qty (resting_order r) < 2 ^ 31;
}.

(** Filled orders wait for the end of the loop in [done]. *)
Record refines (done : list OrderId) (e : SyntheticEngine) (accounts : gmap OrderId Account) : Prop := {
  rf_accounts oid : accounts !! oid = if decide (oid ∈ done) then None else account_of <$> resting_orders_ e !! oid;
  rf_sound : map_Forall (order_sound (next_order_id_ e)) (resting_orders_ e);
  rf_done oid r : oid ∈ done → resting_orders_ e !! oid = Some r → filled_qty (resting_order r) = quantity (resting_order r);
}.

Lemma refines_lookup e a oid : refines [] e a → a !! oid = account_of <$> resting_orders_ e !! oid.
Proof. intros H. rewrite (rf_accounts _ _ _ H). case_decide as Hin; [by apply elem_of_nil in Hin|done]. Qed.

Lemma refines_intro e a :
  (∀ oid, a !! oid = account_of <$> resting_orders_ e !! oid) → map_Forall (order_sound (next_order_id_ e)) (resting_orders_ e) →
  refines [] e a.
Proof.
  intros Ha Hs. split; [|done|].
  - intros oid. rewrite Ha. case_decide as Hin; [by apply elem_of_nil in Hin|done].
  - intros oid r Hin. by apply elem_of_nil in Hin.
Qed.

(** Events that lead from accounts of one state to accounts of another. *)
Definition audited done e evs done' e' : Prop :=
  next_order_id_ e' = next_order_id_ e ∧
  ∀ a, refines done e a → ∃ a', ofold audit a evs = Some a' ∧ refines done' e' a'.

Lemma refines_same done e e' accounts :
  resting_orders_ e' = resting_orders_ e → next_order_id_ e' = next_order_id_ e → refines done e accounts → refines done e' accounts.
Proof. intros Hr Hn [H1 H2 H3]. split; rewrite ?Hr, ?Hn; done. Qed.

Lemma audited_same done e e' : resting_orders_ e' = resting_orders_ e → next_order_id_ e' = next_order_id_ e → audited done e [] done e'.
Proof. intros Hr Hn. split; [done|]. intros a Ha. exists a. split; [done|]. by eapply refines_same. Qed.

Lemma audited_trans d1 e1 evs1 d2 e2 evs2 d3 e3 :
  audited d1 e1 evs1 d2 e2 → audited d2 e2 evs2 d3 e3 → audited d1 e1 (evs1 ++ evs2) d3 e3.
Proof.
  intros [N1 H1] [N2 H2]. split; [by rewrite N2|]. intros a Ha. destruct (H1 a Ha) as (a1 & E1 & A1). destruct (H2 a1 A1) as (a2 & E2 & A2).
  exists a2. rewrite ofold_app, E1. by split.
Qed.

End runs.

(** ** Fills *)
Lemma generate_fill trade_id o px q :
  0 ≤ quantity o < 2 ^ 31 → 0 ≤ filled_qty o < 2 ^ 31 → 0 < q ≤ remainingQty o →
  let o' := (generateFill trade_id o px q).1.1 in
  filled_qty o' = filled_qty o + q ∧ filled_qty o + q ≤ quantity o ∧
  isFullyFilled o' = (filled_qty o + q =? quantity o) ∧
  order_id o' = order_id o ∧ quantity o' = quantity o ∧
  (∀ r, account_of (mkResting o' r) = mkAccount (security_id o) (side o) (order_type o) (price o) (quantity o) (filled_qty o + q)) ∧
  ∃ cl u st, (generateFill trade_id o px q).2 =
    OrderFilled trade_id (security_id o) px q (side o) 0 (chars "MARKET") 0 q 0 Filled (order_id o) cl u
      (filled_qty o + q) (quantity o - (filled_qty o + q)) st ∧
    st = if quantity o - (filled_qty o + q) =? 0 then Filled else PartiallyFilled.
Proof.
  intros Hq Hf Hr. unfold remainingQty in Hr. rewrite wraps_small in Hr by lia.
  unfold generateFill. set (o1 := set_filled_qty _ _).
  assert (filled_qty o1 = filled_qty o + q) as E1 by (unfold o1; destruct o; cbn in *; apply wraps_small; lia).
  assert (quantity o1 = quantity o) as E2 by (unfold o1; by destruct o).
  assert (isFullyFilled o1 = (filled_qty o + q =? quantity o)) as E3
    by (unfold isFullyFilled; rewrite E1, E2; destruct (Z.eqb_spec (filled_qty o + q) (quantity o)), (Z.leb_spec (quantity o) (filled_qty o + q)); lia).
  cbn [fst snd]. rewrite E3.
  set (o' := if filled_qty o + q =? quantity o then set_status Filled o1 else set_status PartiallyFilled o1).
  assert (∃ st, o' = set_status st o1 ∧ st = if filled_qty o + q =? quantity o then Filled else PartiallyFilled) as (st & -> & Hst)
    by (unfold o'; destruct (_ =? _); eauto).
  assert (o1 = set_filled_qty (filled_qty o + q) o) as -> by (unfold o1; by rewrite wraps_small by lia).
  unfold isFullyFilled, remainingQty, account_of in *. destruct o; cbn in *.
  rewrite wraps_small by lia. split_and!; try done; [lia|]. eexists _, _, _. split; [done|]. subst st.
  match goal with |- (if ?a then _ else _) = (if ?b then _ else _) => assert (a = b) as -> by lia end. done.
Qed.

Lemma generate_next trade_id o px q : (generateFill trade_id o px q).1.2 = u64 (trade_id + 1).
Proof. done. Qed.

Section trades.
Context (draw : nat → double).

Lemma should_orders e :
  resting_orders_ (shouldFill draw e).2 = resting_orders_ e ∧ next_order_id_ (shouldFill draw e).2 = next_order_id_ e ∧
  pending_events_ (shouldFill draw e).2 = pending_events_ e.
Proof. unfold shouldFill. repeat case_match; by destruct e. Qed.

Lemma trade_reaches_allows r px : trade_reaches (resting_order r) px = true → allows (account_of r) px = true.
Proof.
  unfold trade_reaches, allows. destruct r as [o t]. cbn. intros H. apply orb_true_iff. right.
  destruct (side o) eqn:E; cbn in H; case_bool_decide; try done; by destruct (Price_le px (price o)).
Qed.

Lemma check_order_audited px q done e evs oid :
  ∃ e' new done', check_order draw px q (e, evs, done) oid = (e', evs ++ new, done') ∧
    pending_events_ e' = pending_events_ e ∧ audited done e new done' e'.
Proof.
  unfold check_order. destruct (resting_orders_ e !! oid) as [r|] eqn:Er.
  2:{ exists e, [], done. rewrite app_nil_r. split_and!; [done..|]. by apply audited_same. }
  destruct (trade_reaches (resting_order r) px) eqn:Ereach; cbn [negb].
  2:{ exists e, [], done. rewrite app_nil_r. split_and!; [done..|]. by apply audited_same. }
  pose proof (should_orders e) as (H1 & H2 & H3). destruct (shouldFill draw e) as [b e1]. cbn [snd] in H1, H2, H3.
  destruct b; cbn [negb].
  2:{ exists e1, [], done. rewrite app_nil_r. split_and!; [done..|]. by apply audited_same. }
  destruct (Z.leb_spec (Z.min (remainingQty (resting_order r)) q) 0) as [Hz|Hz].
  { exists e1, [], done. rewrite app_nil_r. split_and!; [done..|]. by apply audited_same. }
  set (o := resting_order r) in *. set (n := Z.min (remainingQty o) q) in *.
  destruct (generateFill (next_trade_id_ e1) o px n) as [[o' next] fill] eqn:Eg.
  eexists _, [fill], _. split; [done|]. split; [by destruct e1|].
  split; [by destruct e1|]. intros a [Ha Hs Hd].
  pose proof (Hs oid r Er) as [Hid Hn Hq Hf]. fold o in Hid, Hq, Hf.
  pose proof (generate_fill (next_trade_id_ e1) o px n Hq Hf ltac:(lia)) as (G1 & G2 & G3 & G4 & G5 & G6 & cl & u & st & G7 & Gst).
  rewrite Eg in *. cbn [fst snd] in *.
  assert (oid ∉ done) as Hnd.
  { intros Hin. specialize (Hd oid r Hin Er). fold o in Hd. unfold n, remainingQty in Hz. rewrite Hd, Z.sub_diag in Hz.
    rewrite wraps_small in Hz; lia. }
  assert (a !! oid = Some (account_of r)) as Hoid by (rewrite Ha, decide_False, Er by done; done).
  set (a' := if quantity o - (filled_qty o + n) =? 0 then delete oid a
             else <[oid := mkAccount (security_id o) (side o) (order_type o) (price o) (quantity o) (filled_qty o + n)]> a).
  exists a'. split.
  { rewrite G7. cbn [ofold audit]. rewrite Hid, Hoid. cbn [mbind option_bind]. rewrite decide_True; [done|].
    split_and!; try done. by apply trade_reaches_allows. }
  subst a'. rewrite G3. split.
  - intros id. destruct e1 as [? ? ? ? rest ? nid]. cbn in H1, H2 |- *. subst rest nid.
    destruct (Z.eqb_spec (filled_qty o + n) (quantity o)) as [E|E].
    + rewrite (proj2 (Z.eqb_eq _ 0)) by lia. destruct (decide (id = oid)) as [->|Hne].
      * rewrite lookup_delete_eq, decide_True; [done|]. apply elem_of_app. right. by apply list_elem_of_singleton.
      * rewrite lookup_delete_ne, Ha, lookup_insert_ne by done. destruct (decide (id ∈ done)) as [Hin|Hin].
        -- rewrite decide_True; [done|]. apply elem_of_app. by left.
        -- rewrite decide_False; [done|]. intros [?|?%list_elem_of_singleton]%elem_of_app; done.
    + rewrite (proj2 (Z.eqb_neq _ 0)) by lia. destruct (decide (id = oid)) as [->|Hne].
      * rewrite !lookup_insert_eq, decide_False by done. cbn. by rewrite G6.
      * by rewrite !lookup_insert_ne, Ha by done.
  - destruct e1 as [? ? ? ? rest ? nid]. cbn in H1, H2 |- *. subst rest nid. apply map_Forall_insert_2; [|done].
    split; cbn; rewrite ?G4, ?G5, ?G1; lia.
  - intros id r' Hin. destruct e1 as [? ? ? ? rest ? nid]. cbn in H1 |- *. subst rest.
    destruct (decide (id = oid)) as [->|Hne].
    + rewrite lookup_insert_eq. intros [= <-]. cbn. rewrite G1, G5. destruct (Z.eqb_spec (filled_qty o + n) (quantity o)); done.
    + rewrite lookup_insert_ne by done. intros Hr'. apply (Hd id); [|done].
      destruct (_ =? _); [|done]. by apply elem_of_app in Hin as [?|?%list_elem_of_singleton].
Qed.

Lemma check_orders_audited px q ids : ∀ done e evs,
  ∃ e' new done', foldl (check_order draw px q) (e, evs, done) ids = (e', evs ++ new, done') ∧
    pending_events_ e' = pending_events_ e ∧ audited done e new done' e'.
Proof.
  induction ids as [|oid ids IH]; intros done e evs; cbn [foldl].
  - exists e, [], done. rewrite app_nil_r. split_and!; [done..|]. by apply audited_same.
  - destruct (check_order_audited px q done e evs oid) as (e1 & new1 & d1 & -> & P1 & A1).
    destruct (IH d1 e1 (evs ++ new1)) as (e2 & new2 & d2 & -> & P2 & A2).
    exists e2, (new1 ++ new2), d2. rewrite app_assoc, P2. split_and!; [done..|]. by eapply audited_trans.
Qed.

Lemma remove_filled_orders sid ids : ∀ e,
  let e' := foldl (remove_filled sid) e ids in
  (∀ id, resting_orders_ e' !! id = if decide (id ∈ ids) then None else resting_orders_ e !! id) ∧
  next_order_id_ e' = next_order_id_ e ∧ pending_events_ e' = pending_events_ e.
Proof.
  induction ids as [|oid ids IH]; intros e; [by split_and!|]. cbn [foldl]. destruct (IH (remove_filled sid e oid)) as (H1 & H2 & H3).
  split_and!; [|rewrite H2; by destruct e|rewrite H3; by destruct e]. intros id. rewrite H1.
  assert (resting_orders_ (remove_filled sid e oid) = delete oid (resting_orders_ e)) as -> by (by destruct e).
  destruct (decide (id = oid)) as [->|Hne].
  - rewrite (decide_True (P := oid ∈ oid :: ids)) by (by left). rewrite lookup_delete_eq. by case_decide.
  - rewrite lookup_delete_ne by done. destruct (decide (id ∈ ids)).
    + rewrite decide_True; [done|]. by right.
    + rewrite decide_False; [done|]. by intros [->|?]%elem_of_cons.
Qed.

(** The filled orders leave at the end of the loop. *)
Lemma remove_filled_audited sid ids e : audited ids e [] [] (foldl (remove_filled sid) e ids).
Proof.
  destruct (remove_filled_orders sid ids e) as (H1 & H2 & _). split; [done|]. intros a [Ha Hs Hd]. exists a. split; [done|]. split.
  - intros id. rewrite Ha, H1. by case_decide.
  - rewrite H2. intros id r. rewrite H1. case_decide; [done|]. apply Hs.
  - intros id r Hin. by apply elem_of_nil in Hin.
Qed.

Lemma process_trade_audited e entry :
  let e' := process_trade draw e entry in
  ∃ new, pending_events_ e' = pending_events_ e ++ new ∧ audited [] e new [] e'.
Proof.
  destruct entry as [px size sid rpt orders side action]. unfold process_trade, checkFillsOnTrade.
  destruct (orders_by_security_ e !! sid) as [ids|].
  2:{ exists []. rewrite app_nil_r. split; [done|]. by apply audited_same. }
  destruct (check_orders_audited (mkPrice px) size ids [] e []) as (e1 & new & d & -> & P1 & A1).
  destruct (remove_filled_orders sid d e1) as (_ & H2 & H3). pose proof (remove_filled_audited sid d e1) as A2.
  pose proof (audited_trans _ _ _ _ _ _ _ _ A1 A2) as A. rewrite app_nil_r in A. cbn [app]. set (e2 := foldl _ e1 d) in *.
  exists new. destruct new as [|x new].
  - by rewrite app_nil_r, H3.
  - split; [rewrite <-P1, <-H3; by destruct e2|]. rewrite <-(app_nil_r (x :: new)). eapply audited_trans; [exact A|].
    by apply audited_same; destruct e2.
Qed.

Lemma process_trades_audited entries : ∀ e,
  let e' := foldl (process_trade draw) e entries in
  ∃ new, pending_events_ e' = pending_events_ e ++ new ∧ audited [] e new [] e'.
Proof.
  induction entries as [|x entries IH]; intros e; cbn [foldl].
  - exists []. rewrite app_nil_r. split; [done|]. by apply audited_same.
  - destruct (process_trade_audited e x) as (n1 & P1 & A1). destruct (IH (process_trade draw e x)) as (n2 & P2 & A2).
    exists (n1 ++ n2). rewrite P2, P1, app_assoc. split; [done|]. by eapply audited_trans.
Qed.

(** ** Packets: the walk ends, or a read is past the end *)
Section walk.
Context (R : SyntheticEngine → SyntheticEngine → Prop) (R_refl : ∀ e, R e e) (R_trans : ∀ e1 e2 e3, R e1 e2 → R e2 e3 → R e1 e3).
Context (R_book : ∀ e m, R e (updateBBO e m)) (R_trades : ∀ e entries, R e (foldl (process_trade draw) e entries)).

Definition walk_ok (e : SyntheticEngine) (r : result SyntheticEngine) : Prop :=
  match r with Returned e' => R e e' | Crashed => True | OutOfFuel => False end.

Lemma process_messages_walk data len : ∀ fuel offset e, (len ≤ offset + fuel)%nat →
  walk_ok e (process_messages draw fuel e data offset len).
Proof.
  induction fuel as [|fuel IH]; intros offset e Hf; cbn [process_messages];
    destruct (Nat.leb_spec (offset + MessageHeader.SIZE) len) as [Hl|Hl]; try apply R_refl.
  { unfold MessageHeader.SIZE in Hl. lia. }
  match goal with |- context [match ?x with Some _ => _ | None => _ end] => destruct x as [[e1 o1]|] eqn:E end; [|done].
  apply bind_Some in E as (tid & _ & E). apply bind_Some in E as (bl & _ & E).
  assert ((offset + 8 ≤ o1)%nat ∧ R e e1) as [Ho H1].
  { destruct (_ =? _); [|destruct (_ =? _)]; [apply bind_Some in E as (m & _ & [= <- <-])..|injection E as <- <-].
    - split; [unfold MDIncrementalRefreshBook46.encodedLength, MessageHeader.SIZE; lia|done].
    - split; [unfold MDIncrementalRefreshTradeSummary48.encodedLength, MessageHeader.SIZE; lia|done].
    - split; [unfold MessageHeader.SIZE; lia|done]. }
  specialize (IH o1 e1 ltac:(lia)). destruct (process_messages draw fuel e1 data o1 len) as [e2| |]; [|done|done].
  by eapply R_trans.
Qed.

Lemma process_packet_walk e data len : walk_ok e (processReplayedPacket draw e data len).
Proof.
  unfold processReplayedPacket. case_match; [apply R_refl|]. apply process_messages_walk. unfold MDP3_PACKET_HEADER_SIZE. lia.
Qed.
End walk.

Definition adds (e e' : SyntheticEngine) : Prop := ∃ new, pending_events_ e' = pending_events_ e ++ new ∧ audited [] e new [] e'.

Lemma process_packet_adds e data len : walk_ok adds e (processReplayedPacket draw e data len).
Proof.
  apply process_packet_walk.
  - intros e1. exists []. rewrite app_nil_r. split; [done|]. by apply audited_same.
  - intros e1 e2 e3 (n1 & P1 & A1) (n2 & P2 & A2). exists (n1 ++ n2). rewrite P2, P1, app_assoc. split; [done|]. by eapply audited_trans.
  - intros e1 m. exists []. rewrite app_nil_r. split; [by destruct e1|]. by apply audited_same; destruct e1.
  - intros e1 entries. apply process_trades_audited.
Qed.
End trades.

(** ** The calls of the gateway *)
Section calls.
Context (steady : nat → Timestamp).

Definition submits (c : SynCall) : Z := match c with SynSubmit _ => 1 | _ => 0 end.

Lemma submit_audited e o a :
  syn_call_ok (SynSubmit o) → 0 ≤ next_order_id_ e → next_order_id_ e + 1 < 2 ^ 64 → refines [] e a →
  let '(e', evs) := submitOrder steady e o in
  next_order_id_ e' = next_order_id_ e + 1 ∧ ∃ a', ofold audit a evs = Some a' ∧ refines [] e' a'.
Proof.
  intros [Hf Hq] Hlo Hhi HR. pose proof (λ id, refines_lookup e a id HR) as Ha. destruct HR as [_ Hs _]. unfold submitOrder. cbn [nowNs].
  set (now := u64 _). set (e1 := count_clock _). set (o1 := set_status New _).
  assert (resting_orders_ e1 = resting_orders_ e ∧ next_order_id_ e1 = next_order_id_ e + 1) as [R1 N1]
    by (unfold e1; destruct e; cbn in *; split; [done|]; apply wrapu_small; lia).
  assert (order_id o1 = next_order_id_ e ∧ filled_qty o1 = 0 ∧ quantity o1 = quantity o ∧ order_type o1 = order_type o ∧
    price o1 = price o ∧ side o1 = side o) as (E1 & E2 & E3 & E4 & E5 & E6) by (unfold o1; destruct o; cbn in *; by split_and!).
  assert (resting_orders_ e !! next_order_id_ e = None) as Hfresh
    by (destruct (_ !! _) as [r|] eqn:Er; [|done]; apply Hs in Er as [_ ? _ _]; lia).
  assert (a !! order_id o1 = None) as Hnone by (by rewrite E1, Ha, Hfresh).
  assert (∀ l, ofold audit a (OrderAccepted_of o1 :: l) = ofold audit (<[order_id o1 := account_of (mkResting o1 0)]> a) l) as Hacc.
  { intros l. cbn [ofold audit OrderAccepted_of]. rewrite decide_True by done. unfold account_of. cbn. by rewrite E2. }
  assert (map_Forall (order_sound (next_order_id_ e1)) (resting_orders_ e)) as Hs1
    by (rewrite N1; intros id r Hr; destruct (Hs id r Hr); split; [done|lia|done|done]).
  destruct (isMarketable o1 _) eqn:Em; [|destruct (_ || _)].
  - set (px := if bool_decide (side o1 = Buy) then _ else _).
    assert (remainingQty o1 = quantity o) as Erem by (unfold remainingQty; rewrite E2, E3, wraps_small; lia).
    pose proof (generate_fill (next_trade_id_ e1) o1 px (remainingQty o1) ltac:(lia) ltac:(lia) ltac:(lia))
      as (_ & _ & _ & _ & _ & _ & cl & u & st & G7 & Gst).
    destruct (generateFill _ _ _ _) as [[o' next] fill]. cbn [fst snd] in G7. split; [by rewrite <-N1; destruct e1|].
    exists a. split.
    + cbn [app]. rewrite Hacc, G7. cbn [ofold audit]. rewrite lookup_insert_eq. cbn [mbind option_bind].
      rewrite Erem, E2, E3 in *. cbn [Z.add] in *. rewrite Z.sub_diag in *. cbn [Z.eqb] in *.
      rewrite decide_True.
      * cbn [mbind option_bind Z.eqb]. f_equal. apply delete_insert_id. done.
      * unfold account_of. cbn. rewrite E2, E3. split_and!; try done; [|lia..]. unfold allows. cbn.
        unfold isMarketable in Em. unfold px. rewrite E4, E5, E6 in *. case_bool_decide; [done|]. cbn.
        destruct (bool_decide (side o = Buy)); apply andb_true_iff in Em as [_ Em]; [exact Em|exact Em].
    + apply refines_intro; [intros id; rewrite Ha|]; by destruct e1; cbn in *; subst.
  - split; [done|]. exists a. split.
    + cbn [app]. rewrite Hacc. cbn [ofold audit OrderCancelled_of].
      assert (order_id (set_status Canceled o1) = order_id o1 ∧ security_id (set_status Canceled o1) = security_id o1 ∧
        filled_qty (set_status Canceled o1) = filled_qty o1) as (-> & -> & ->) by (by destruct o1).
      rewrite lookup_insert_eq. cbn [mbind option_bind]. rewrite decide_True by done. cbn. f_equal. by apply delete_insert_id.
    + apply refines_intro; [intros id; by rewrite Ha, R1|by rewrite R1].
  - assert (resting_orders_ (count_clock e1) = resting_orders_ e) as -> by (rewrite <-R1; by destruct e1).
    rewrite E1, Hfresh, decide_False by (by intros [? ?]). split; [by rewrite <-N1; destruct e1|].
    eexists. split; [rewrite Hacc; done|]. apply refines_intro.
    + intros id. destruct e1; cbn in *; subst. rewrite E1. destruct (decide (id = next_order_id_ e)) as [->|Hne].
      * by rewrite !lookup_insert_eq.
      * by rewrite !lookup_insert_ne, Ha by done.
    + assert (next_order_id_ e1 = next_order_id_ e + 1 → order_sound (next_order_id_ e1) (next_order_id_ e) (mkResting o1 (u64 (steady (clock_reads e1)))))
        as Hnew by (intros Hn; split; cbn; lia).
      specialize (Hnew N1). destruct e1; cbn in *. by apply map_Forall_insert_2.
Qed.

Lemma cancel_audited e oid sid uuid :
  let '(e', evs) := cancelOrder e oid sid uuid in audited [] e evs [] e'.
Proof.
  unfold cancelOrder. destruct (resting_orders_ e !! oid) as [r|] eqn:Er.
  - split; [by destruct e|]. intros a HR. pose proof (λ id, refines_lookup e a id HR) as Ha. destruct HR as [_ Hs _]. pose proof (Hs oid r Er) as [Hid _ _ _].
    assert (OrderCancelled_of (set_status Canceled (resting_order r)) = OrderCancelled oid (cl_ord_id (resting_order r))
      (session_uuid (resting_order r)) (security_id (resting_order r)) (filled_qty (resting_order r)) Canceled) as ->
      by (destruct r as [o t]; rewrite <-Hid; by destruct o).
    assert (a !! oid = Some (account_of r)) as Hoid by (by rewrite Ha, Er).
    exists (delete oid a). split.
    + cbn [ofold audit]. rewrite Hoid. cbn [mbind option_bind]. by rewrite decide_True.
    + destruct e as [? ? ? ? rest]; cbn in *. apply refines_intro; cbn.
      * intros id. destruct (decide (id = oid)) as [->|Hne]; [by rewrite !lookup_delete_eq|by rewrite !lookup_delete_ne, Ha].
      * by apply map_Forall_delete.
  - split; [done|]. intros a Ha. exists a. split; [|done]. cbn [ofold audit].
    rewrite decide_True; [done|]. by rewrite (refines_lookup _ _ _ Ha), Er.
Qed.

Lemma modify_audited e oid sid p q cl :
  syn_call_ok (SynModify oid sid p q cl) → let '(e', evs) := modifyOrder e oid sid p q cl in audited [] e evs [] e'.
Proof.
  intros Hq. unfold modifyOrder. destruct (resting_orders_ e !! oid) as [r|] eqn:Er.
  - split; [by destruct e|]. intros a HR. pose proof (λ id, refines_lookup e a id HR) as Ha. destruct HR as [_ Hs _]. pose proof (Hs oid r Er) as [Hid Hn Hq0 Hf].
    destruct r as [o t]. cbn [resting_order submit_time] in *. set (o' := set_status _ _).
    assert (order_id o' = oid ∧ quantity o' = q ∧ filled_qty o' = filled_qty o ∧ security_id o' = security_id o ∧ side o' = side o ∧
      order_type o' = order_type o ∧ price o' = p ∧ remainingQty o' = q - filled_qty o) as (E1 & E2 & E3 & E4 & E5 & E6 & E7 & E8).
    { unfold o', remainingQty. cbn in Hq. destruct o; cbn in *. split_and!; try done. apply wraps_small; lia. }
    assert (a !! oid = Some (account_of (mkResting o t))) as Hoid by (by rewrite Ha, Er).
    exists (<[oid := account_of (mkResting o' t)]> a). split.
    + rewrite E1, E3, E4, E8. cbn [ofold audit]. rewrite Hoid. cbn [mbind option_bind]. rewrite decide_True by done.
      cbn. do 3 f_equal. unfold account_of. cbn. by rewrite E2, E3, E4, E5, E6, E7.
    + destruct e as [? ? ? ? rest ? nid]; cbn in *. apply refines_intro; cbn.
      * intros id. destruct (decide (id = oid)) as [->|Hne]; [by rewrite !lookup_insert_eq|by rewrite !lookup_insert_ne, Ha].
      * apply map_Forall_insert_2; [|done]. split; cbn; lia.
  - split; [done|]. intros a Ha. exists a. split; [|done]. cbn [ofold audit].
    rewrite decide_True; [done|]. by rewrite (refines_lookup _ _ _ Ha), Er.
Qed.

Context (draw : nat → double).

Lemma call_audited e c a :
  syn_call_ok c → 0 ≤ next_order_id_ e → next_order_id_ e + submits c < 2 ^ 64 → refines [] e a →
  match syn_call steady draw e c with
  | Returned (e', evs) => next_order_id_ e' = next_order_id_ e + submits c ∧ ∃ a', ofold audit a evs = Some a' ∧ refines [] e' a'
  | Crashed => True
  | OutOfFuel => False
  end.
Proof.
  intros Hc Hlo Hhi Ha. destruct c as [o|oid sid uuid|oid sid p q cl|data]; cbn [syn_call submits] in *.
  - pose proof (submit_audited e o a Hc Hlo Hhi Ha) as H. by destruct (submitOrder steady e o).
  - pose proof (cancel_audited e oid sid uuid) as H. destruct (cancelOrder e oid sid uuid) as [e' evs]. destruct H as [N H].
    split; [lia|by apply H].
  - pose proof (modify_audited e oid sid p q cl Hc) as H. destruct (modifyOrder e oid sid p q cl) as [e' evs]. destruct H as [N H].
    split; [lia|by apply H].
  - pose proof (process_packet_adds draw e data (length data)) as H. destruct (processReplayedPacket _ _ _ _) as [e'| |]; [|done|done].
    destruct H as (new & P & N & H). rewrite P, drop_app_length. split; [lia|by apply H].
Qed.

Lemma run_audited cs : ∀ e a,
  Forall syn_call_ok cs → 0 ≤ next_order_id_ e → next_order_id_ e + zsum submits cs < 2 ^ 64 → refines [] e a →
  match syn_run steady draw e cs with
  | Returned (e', evs) => ∃ a', ofold audit a evs = Some a' ∧ refines [] e' a'
  | Crashed => True
  | OutOfFuel => False
  end.
Proof.
  induction cs as [|c cs IH]; intros e a Hok Hlo Hhi Ha; cbn [syn_run]; [by exists a|].
  apply Forall_cons in Hok as [Hc Hok]. cbn [zsum] in Hhi.
  assert (0 ≤ zsum submits cs ∧ 0 ≤ submits c) as [Hz Hz1] by (split; [apply zsum_nonneg, Forall_forall; intros c' _|]; [by destruct c'|by destruct c]).
  pose proof (call_audited e c a Hc Hlo ltac:(lia) Ha) as H1. destruct (syn_call steady draw e c) as [[e1 evs1]| |]; [|done|done].
  destruct H1 as (N1 & a1 & E1 & A1). specialize (IH e1 a1 Hok ltac:(lia) ltac:(lia) A1).
  destruct (syn_run steady draw e1 cs) as [[e2 evs2]| |]; [|done|done]. destruct IH as (a2 & E2 & A2).
  exists a2. by rewrite ofold_app, E1.
Qed.
End calls.

(** A packet of the incremental feed, whole. *)
Definition feed_packet (c : SynCall) : Prop :=
  match c with
  | SynPacket data => ∃ seq t msgs, data = packet_bytes seq t (messages_bytes msgs) ∧ Forall MDP3Msg_wf msgs ∧ Forall feed_message msgs
  | _ => True
  end.

Lemma feed_run steady draw cs : ∀ e, Forall feed_packet cs → ∃ e' evs, syn_run steady draw e cs = Returned (e', evs).
Proof.
  induction cs as [|c cs IH]; intros e Hf; cbn [syn_run]; [by eauto|]. apply Forall_cons in Hf as [Hc Hf].
  assert (∃ e1 evs1, syn_call steady draw e c = Returned (e1, evs1)) as (e1 & evs1 & ->).
  { destruct c as [o|oid sid uuid|oid sid p q cl|data]; cbn [syn_call].
    - destruct (submitOrder steady e o). by eauto.
    - destruct (cancelOrder e oid sid uuid). by eauto.
    - destruct (modifyOrder e oid sid p q cl). by eauto.
    - destruct Hc as (seq & t & msgs & -> & Hw & Hm). destruct (replay_packet draw e seq t msgs Hw Hm) as (e' & -> & _). by eauto. }
  destruct (IH e1 Hf) as (e2 & evs2 & ->). by eauto.
Qed.

(** C33: the synthetic engine refines the accounts. Whatever is submitted,
    cancelled and modified and whatever packets are replayed between these calls,
    in any order and with any draws of the random source: every packet is walked
    to its end or to a read past it (a whole packet of the incremental feed to its
    end), and the events, those returned and those put into [pending_events_], are
    accepted by the audit: an order is accepted once, filled only at prices it
    allows and only while it rests, never for more than its quantity, with the
    totals of every report right, and finished orders get no further event. The
    accounts at the end are the resting orders. *)
Theorem synthetic_run_audited steady draw cs :
  Forall syn_call_ok cs → zsum submits cs < 2 ^ 64 - 1 →
  match syn_run steady draw SyntheticEngine_init cs with
  | Returned (e, evs) => ofold audit ∅ evs = Some (account_of <$> resting_orders_ e)
  | Crashed => ¬ Forall feed_packet cs
  | OutOfFuel => False
  end.
Proof.
  intros Hok Hn. pose proof (run_audited steady draw cs SyntheticEngine_init ∅ Hok) as H.
  assert (refines [] SyntheticEngine_init ∅) as H0
    by (apply refines_intro; [intros oid; by rewrite !lookup_empty|apply map_Forall_empty]).
  specialize (H ltac:(done) ltac:(cbn; lia) H0). destruct (syn_run _ _ _ _) as [[e evs]| |] eqn:E; [| |done].
  - destruct H as (a & -> & HR). f_equal. apply map_eq. intros oid. by rewrite (refines_lookup _ _ _ HR), lookup_fmap.
  - intros Hf. destruct (feed_run steady draw cs SyntheticEngine_init Hf) as (e & evs & E'). by rewrite E in E'.
Qed.

(** A market of 100 bid and 105 asked, orders that trade at once, rest, are
    modified and cancelled, and trades of the replay. *)
Definition book_entry (px size level action : Z) (type : byte) : MDIncrementalRefreshBook46.Entry.t :=
  MDIncrementalRefreshBook46.Entry.mk px size 1 1 1 level action type.
Definition book_packet (entries : list MDIncrementalRefreshBook46.Entry.t) : SynCall :=
  SynPacket (packet_bytes 1 5 (messages_bytes [M_MDIncrementalRefreshBook46 (MDIncrementalRefreshBook46.mk 5 128 entries)])).
Definition trade_packet (px size : Z) : SynCall :=
  SynPacket (packet_bytes 1 5 (messages_bytes [M_MDIncrementalRefreshTradeSummary48
    (MDIncrementalRefreshTradeSummary48.mk 5 128 [MDIncrementalRefreshTradeSummary48.MDEntry.mk px size 1 1 1 1 0] [])])).

Definition demo_calls : list SynCall :=
  [book_packet [book_entry 100 5 1 0 Init.Byte.x30; book_entry 105 5 1 0 Init.Byte.x31];
   SynSubmit (demo_order 1 Sell 110 6); SynSubmit (demo_order 1 Buy 105 4); SynSubmit (demo_order 1 Buy 100 10);
   trade_packet 100 4; SynModify 3 1 (mkPrice 100) 7 []; trade_packet 99 10; trade_packet 112 4; SynCancel 1 1 7; SynCancel 3 1 7].

Lemma synthetic_run_audited_witness :
  ∃ e evs, syn_run (λ _, 0) (λ _, zero_double) SyntheticEngine_init demo_calls = Returned (e, evs) ∧
    fills_of evs = [(mkPrice 105, 4); (mkPrice 100, 4); (mkPrice 99, 3); (mkPrice 112, 4)] ∧
    ofold audit ∅ evs = Some (account_of <$> resting_orders_ e).
Proof.
  assert (Forall syn_call_ok demo_calls) as Hok by (unfold demo_calls; repeat constructor; cbn; lia).
  pose proof (synthetic_run_audited (λ _, 0) (λ _, zero_double) demo_calls Hok ltac:(vm_compute; reflexivity)) as H.
  assert (match syn_run (λ _, 0) (λ _, zero_double) SyntheticEngine_init demo_calls with
          | Returned (e, evs) => fills_of evs = [(mkPrice 105, 4); (mkPrice 100, 4); (mkPrice 99, 3); (mkPrice 112, 4)]
          | _ => False end) as Hf by (vm_compute; reflexivity).
  destruct (syn_run _ _ _ _) as [[e evs]| |]; [|done|done]. by exists e, evs.
Defined.

(** ** What the engine does not do *)
Definition after (cs : list SynCall) : SyntheticEngine * list EngineEvent :=
  match syn_run (λ _, 0) (λ _, zero_double) SyntheticEngine_init cs with Returned r => r | _ => (SyntheticEngine_init, []) end.

(** Deleting the best level empties the quote, although the second level moves up. *)
Example second_level_lost :
  let entries := [book_entry 101 5 1 0 Init.Byte.x30; book_entry 100 7 2 0 Init.Byte.x30; book_entry 101 0 1 2 Init.Byte.x30] in
  let b := getBBO (after [book_packet entries]).1 1 in
  (best_bid b, bid_size b) = (Price_null, 0) ∧
  ofold (apply_entry 1) ([], []) entries = Some ([(mkPrice 100, 7, 1)], []).
Proof. vm_compute. done. Qed.

(** Every resting order is filled with the whole quantity of the trade: a trade of
    four lots fills eight. *)
Example trade_counted_twice :
  fills_of (after [SynSubmit (demo_order 1 Buy 100 4); SynSubmit (demo_order 1 Buy 100 4); trade_packet 100 4]).2 =
  [(mkPrice 100, 4); (mkPrice 100, 4)].
Proof. vm_compute. done. Qed.

(** An order modified to less than what is filled rests with negative open quantity. *)
Example negative_leaves :
  let cs := [SynSubmit (demo_order 1 Buy 100 9); trade_packet 100 4; SynModify 1 1 (mkPrice 100) 3 []] in
  last (after cs).2 = Some (OrderModified 1 [] 7 1 (mkPrice 100) 3 4 (-1)) ∧
  let e := (after (cs ++ [trade_packet 100 4])).1 in
  remainingQty <$> (resting_order <$> resting_orders_ e !! 1) = Some (-1) ∧ length (pending_events_ e) = 1%nat.
Proof. vm_compute. done. Qed.

(** Replaying again after the end of a capture, without [stopReplay] between, ends
    the process. *)
Example replay_twice :
  let file := Some (pcap_header false (replicate 16 Init.Byte.x00)) in
  match startReplay (λ _, zero_double) (λ _, false) file SyntheticEngine_init with
  | Returned e => startReplay (λ _, zero_double) (λ _, false) file e
  | failed => failed
  end = Crashed.
Proof. vm_compute. done. Qed.
