(* ===== verification/SyntheticTrades.v ===== *)
(** * Trades of the replay against the resting orders

    Which orders a replayed trade fills, in which order, and what stays: the loop
    of [checkFillsOnTrade] over the ids of a security, against a definition that
    looks at each resting order by itself. *)
From Stdlib Require Import Sorted Floats.SpecFloat.
From S2P Require Import Prelude Types Sbe Mdp3 Order Engine EngineTheorems Instrument PcapReader SyntheticEngine SyntheticTheorems SyntheticAudit.
Import PcapOps SyntheticOps.

(** ** The definition per order *)
Section trade.
Context (sid : SecurityId) (px : Price) (qty : Quantity).

Definition open_qty (r : RestingOrder) : Z := quantity (resting_order r) - filled_qty (resting_order r).

(** The trade reaches the order: a buyer would have paid the price or more, a seller
    taken the price or less. *)
Definition reached (r : RestingOrder) : Prop :=
  let o := resting_order r in
  security_id o = sid ∧ (side o = Buy ∧ mantissa px ≤ mantissa (price o) ∨ side o = Sell ∧ mantissa (price o) ≤ mantissa px).
#[global] Instance reached_dec r : Decision (reached r).
Proof. unfold reached. apply _. Defined.

(** The trade fills the order, by the smaller of its open quantity and [qty]. *)
Definition hits (r : RestingOrder) : bool := bool_decide (reached r ∧ 0 < open_qty r ∧ 0 < qty).
Definition trade_share (r : RestingOrder) : Quantity := Z.min (open_qty r) qty.

(** The order after the trade, if it still rests: an order filled completely leaves,
    another one has so much more filled and is partially filled. *)
Definition after_trade (r : RestingOrder) : option RestingOrder :=
  if hits r then
    if open_qty r <=? qty then None
    else Some (mkResting (set_status PartiallyFilled (set_filled_qty (filled_qty (resting_order r) + qty) (resting_order r))) (submit_time r))
  else Some r.
End trade.

(** Order id, price and quantity of the fills among events. *)
Definition fill_reports (evs : list EngineEvent) : list (OrderId * Price * Quantity) :=
  omap (λ e, match e with OrderFilled _ _ px q _ _ _ _ _ _ _ oid _ _ _ _ _ => Some (oid, px, q) | _ => None end) evs.

(** ** The index of the orders by security *)
Record listed (e : SyntheticEngine) : Prop := {
  ls_listed oid r : resting_orders_ e !! oid = Some r →
    order_id (resting_order r) = oid ∧ oid ∈ default [] (orders_by_security_ e !! security_id (resting_order r));
  ls_sorted sid ids : orders_by_security_ e !! sid = Some ids → StronglySorted Z.lt ids ∧ Forall (λ id, id < next_order_id_ e) ids;
  ls_security sid ids id r : orders_by_security_ e !! sid = Some ids → id ∈ ids → resting_orders_ e !! id = Some r →
    security_id (resting_order r) = sid;
}.

Definition identity (r : RestingOrder) : OrderId * SecurityId := (order_id (resting_order r), security_id (resting_order r)).

Lemma listed_same e e' :
  orders_by_security_ e' = orders_by_security_ e → next_order_id_ e' = next_order_id_ e →
  (∀ oid, identity <$> resting_orders_ e' !! oid = identity <$> resting_orders_ e !! oid) → listed e → listed e'.
Proof.
  intros Hb Hn Hr [H1 H2 H3].
  assert (∀ oid r, resting_orders_ e' !! oid = Some r → ∃ r0, resting_orders_ e !! oid = Some r0 ∧ identity r0 = identity r) as Hr'.
  { intros oid r E. specialize (Hr oid). rewrite E in Hr. cbn in Hr. destruct (_ !! oid) as [r0|]; [|done]. injection Hr as E1 E2. exists r0. unfold identity. by rewrite E1, E2. }
  unfold identity in Hr'. split; rewrite ?Hb, ?Hn; [|done|].
  - intros oid r (r0 & E & [= E1 E2])%Hr'. rewrite <-E1, <-E2. by apply H1.
  - intros sid ids id r Hs Hi (r0 & E & [= E1 E2])%Hr'. rewrite <-E2. by eapply H3.
Qed.

Lemma sorted_filter (P : OrderId → Prop) `{!∀ x, Decision (P x)} l : StronglySorted Z.lt l → StronglySorted Z.lt (filter P l).
Proof.
  induction 1 as [|x l Hs IH Hx]; [constructor|]. rewrite filter_cons. case_decide; [|done]. constructor; [done|].
  apply Forall_forall. intros y [_ Hy]%list_elem_of_filter. by eapply Forall_forall in Hx.
Qed.

Lemma sorted_snoc l x : StronglySorted Z.lt l → Forall (λ y, y < x) l → StronglySorted Z.lt (l ++ [x]).
Proof.
  induction 1 as [|y l Hs IH Hy]; intros Hx; cbn; [by repeat constructor|]. apply Forall_cons in Hx as [Hyx Hx].
  constructor; [by apply IH|]. apply Forall_app. by repeat constructor.
Qed.

(** Cancelled and filled orders leave the map and one of the lists. *)
Lemma listed_remove sid oid e : listed e → listed (remove_filled sid e oid).
Proof.
  intros [H1 H2 H3]. unfold remove_filled. destruct e as [? ? ? ? rest bysec nid]; cbn in *.
  assert (∀ s ids, <[sid := filter (λ id, id ≠ oid) (default [] (bysec !! sid))]> bysec !! s = Some ids →
    ids = [] ∨ ∃ ids0, bysec !! s = Some ids0 ∧ (ids = ids0 ∨ ids = filter (λ id, id ≠ oid) ids0)) as Hs.
  { intros s ids. destruct (decide (s = sid)) as [->|Hne].
    - rewrite lookup_insert_eq. intros [= <-]. destruct (bysec !! sid) as [ids0|]; [|by left]. right. exists ids0. auto.
    - rewrite lookup_insert_ne by done. eauto. }
  split; cbn.
  - intros id r [Hne Hr]%lookup_delete_Some. destruct (H1 _ _ Hr) as [Hi Hin]. split; [done|].
    destruct (decide (security_id (resting_order r) = sid)) as [E|E].
    + rewrite E in *. rewrite lookup_insert_eq. cbn. by apply list_elem_of_filter.
    + by rewrite lookup_insert_ne.
  - intros s ids [->|(ids0 & Hl & [->| ->])]%Hs; [repeat constructor|by apply H2 in Hl|]. apply H2 in Hl as [? Hn]. split; [by apply sorted_filter|].
    apply Forall_forall. intros x [_ Hx]%list_elem_of_filter. by eapply Forall_forall in Hn.
  - intros s ids id r Hl Hin [_ Hr]%lookup_delete_Some. apply Hs in Hl as [->|(ids0 & Hl & [->| ->])]; [by apply elem_of_nil in Hin|by eapply H3|].
    apply list_elem_of_filter in Hin as [_ Hin]. by eapply H3.
Qed.

Lemma listed_rest e e' oid r :
  listed e → resting_orders_ e !! oid = None → oid = next_order_id_ e → order_id (resting_order r) = oid →
  resting_orders_ e' = <[oid := r]> (resting_orders_ e) → next_order_id_ e' = next_order_id_ e + 1 →
  orders_by_security_ e' = <[security_id (resting_order r) := default [] (orders_by_security_ e !! security_id (resting_order r)) ++ [oid]]>
    (orders_by_security_ e) → listed e'.
Proof.
  intros [H1 H2 H3] Hfresh Hoid Hr E1 E2 E3. set (sid := security_id (resting_order r)) in *.
  assert (∀ s ids, orders_by_security_ e' !! s = Some ids →
    ∃ ids0, default [] (orders_by_security_ e !! s) = ids0 ∧ ids = if decide (s = sid) then ids0 ++ [oid] else ids0) as Hs.
  { intros s ids. rewrite E3. destruct (decide (s = sid)) as [->|Hne]; [rewrite lookup_insert_eq; intros [= <-]; by eexists|].
    rewrite lookup_insert_ne by done. intros ->. by eexists. }
  assert (∀ s, StronglySorted Z.lt (default [] (orders_by_security_ e !! s)) ∧ Forall (λ id, id < oid) (default [] (orders_by_security_ e !! s))) as Hd.
  { intros s. destruct (orders_by_security_ e !! s) as [ids|] eqn:Eb; [|by repeat constructor]. rewrite Hoid. by apply H2 in Eb. }
  split; rewrite ?E1, ?E2.
  - intros id r'. rewrite lookup_insert_Some. intros [[<- <-]|[Hne Hl]].
    + split; [done|]. fold sid. rewrite E3, lookup_insert_eq. apply elem_of_app. right. by apply list_elem_of_singleton.
    + destruct (H1 _ _ Hl) as [Hi Hin]. split; [done|]. rewrite E3. destruct (decide (security_id (resting_order r') = sid)) as [Es|Es].
      * rewrite Es in *. rewrite lookup_insert_eq. apply elem_of_app. by left.
      * by rewrite lookup_insert_ne.
  - intros s ids (ids0 & <- & ->)%Hs. destruct (Hd s) as [Hso Hlt]. rewrite <-Hoid. case_decide.
    + split; [by apply sorted_snoc|]. apply Forall_app. split; [|repeat constructor; lia]. eapply Forall_impl; [exact Hlt|]. cbn. lia.
    + split; [done|]. eapply Forall_impl; [exact Hlt|]. cbn. lia.
  - intros s ids id r' (ids0 & <- & ->)%Hs Hin. rewrite lookup_insert_Some. intros [[<- <-]|[Hne Hl]].
    + case_decide; [done|]. destruct (Hd s) as [_ Hlt]. eapply Forall_forall in Hlt; [|exact Hin]. cbn in Hlt. lia.
    + destruct (orders_by_security_ e !! s) as [ids|] eqn:Eb; cbn in *.
      * eapply (H3 s); [exact Eb| |exact Hl]. case_decide; [|done]. by apply elem_of_app in Hin as [?|?%list_elem_of_singleton].
      * case_decide; [by apply list_elem_of_singleton in Hin|by apply elem_of_nil in Hin].
Qed.

(** ** The index survives every call *)
Section calls.
Context (steady : nat → Timestamp) (draw : nat → double).

Lemma should_index e : orders_by_security_ (shouldFill draw e).2 = orders_by_security_ e ∧ fill_probability_ (shouldFill draw e).2 = fill_probability_ e.
Proof. unfold shouldFill. repeat case_match; by destruct e. Qed.

Lemma generate_identity trade_id o px n t t' : identity (mkResting (generateFill trade_id o px n).1.1 t) = identity (mkResting o t').
Proof. unfold generateFill, identity. case_match; by destruct o. Qed.

Lemma check_order_index px q st oid :
  let e := st.1.1 in let e' := (check_order draw px q st oid).1.1 in
  orders_by_security_ e' = orders_by_security_ e ∧ next_order_id_ e' = next_order_id_ e ∧ fill_probability_ e' = fill_probability_ e ∧
  ∀ id, identity <$> resting_orders_ e' !! id = identity <$> resting_orders_ e !! id.
Proof.
  destruct st as [[e evs] done]. cbn [fst]. unfold check_order. destruct (resting_orders_ e !! oid) as [r|] eqn:Er; [|done].
  case_match; [done|]. pose proof (should_orders draw e) as (H1 & H2 & _). pose proof (should_index e) as (H3 & H4).
  destruct (shouldFill draw e) as [b e1]. cbn [snd] in *. do 2 (case_match; [cbn; by rewrite H1, H2, H3, H4|]).
  set (n := Z.min _ _). pose proof (generate_identity (next_trade_id_ e1) (resting_order r) px n (submit_time r) (submit_time r)) as Hi.
  destruct (generateFill _ _ _ _) as [[o next] fill]. cbn [fst] in *. destruct e1 as [? p ? ? rest bysec nid]; cbn in *. subst.
  split_and!; [done..|]. intros id. destruct (decide (id = oid)) as [->|Hne]; [|by rewrite lookup_insert_ne].
  rewrite lookup_insert_eq, Er. cbn. by rewrite Hi.
Qed.

Lemma check_orders_index px q ids : ∀ st,
  let e := st.1.1 in let e' := (foldl (check_order draw px q) st ids).1.1 in
  orders_by_security_ e' = orders_by_security_ e ∧ next_order_id_ e' = next_order_id_ e ∧ fill_probability_ e' = fill_probability_ e ∧
  ∀ id, identity <$> resting_orders_ e' !! id = identity <$> resting_orders_ e !! id.
Proof.
  induction ids as [|oid ids IH]; intros st; [done|]. cbn [foldl]. destruct (IH (check_order draw px q st oid)) as (A1 & A2 & A3 & A4).
  destruct (check_order_index px q st oid) as (B1 & B2 & B3 & B4). cbn zeta. rewrite A1, A2, A3. split_and!; [done..|].
  intros id. by rewrite A4.
Qed.

Lemma listed_removes sid ids : ∀ e, listed e → listed (foldl (remove_filled sid) e ids).
Proof. induction ids as [|oid ids IH]; intros e He; [done|]. by apply IH, listed_remove. Qed.

Lemma removes_probability sid ids : ∀ e, fill_probability_ (foldl (remove_filled sid) e ids) = fill_probability_ e.
Proof. induction ids as [|oid ids IH]; intros e; [done|]. cbn. rewrite IH. by destruct e. Qed.

(** The index is kept, and so is the probability of a fill. *)
Definition keeps (e e' : SyntheticEngine) : Prop :=
  (listed e → listed e') ∧ fill_probability_ e' = fill_probability_ e.

Lemma trade_keeps e entry : keeps e (process_trade draw e entry).
Proof.
  destruct entry as [px size sid rpt orders side action]. unfold process_trade, checkFillsOnTrade.
  destruct (orders_by_security_ e !! sid) as [ids|]; [|done].
  pose proof (check_orders_index (mkPrice px) size ids (e, [], [])) as (A1 & A2 & A3 & A4).
  destruct (foldl _ _ _) as [[e1 evs] done]. cbn [fst] in *. set (e2 := foldl (remove_filled sid) e1 done).
  assert (keeps e e2) as [H1 H2].
  { split; [|unfold e2; by rewrite removes_probability]. intros He. by eapply listed_removes, listed_same. }
  destruct evs; [done|]. split; [|rewrite <-H2; by destruct e2]. intros He. by apply (listed_same e2); [destruct e2..|apply H1].
Qed.

Lemma packet_keeps e data len : walk_ok keeps e (processReplayedPacket draw e data len).
Proof.
  apply process_packet_walk.
  - done.
  - intros e1 e2 e3 [A1 A2] [B1 B2]. split; [auto|by rewrite B2].
  - intros e1 m. split; [|by destruct e1]. by apply listed_same; destruct e1.
  - intros e1 entries. revert e1. induction entries as [|x entries IH]; intros e1; [done|]. cbn [foldl].
    destruct (trade_keeps e1 x) as [A1 A2], (IH (process_trade draw e1 x)) as [B1 B2]. split; [auto|by rewrite B2].
Qed.

Lemma submit_keeps e o : next_order_id_ e + 1 < 2 ^ 64 → 0 ≤ next_order_id_ e → keeps e (submitOrder steady e o).1.
Proof.
  intros Hhi Hlo. unfold submitOrder, nowNs. set (o1 := set_status New _).
  assert (security_id o1 = security_id o ∧ order_id o1 = next_order_id_ e) as [E1 E2] by (unfold o1; by destruct o).
  set (bbo := default BBO_init _). clearbody bbo.
  assert (∀ e', orders_by_security_ e' = orders_by_security_ e → resting_orders_ e' = resting_orders_ e →
    next_order_id_ e' = u64 (next_order_id_ e + 1) → listed e → listed e') as Hup.
  { intros e' B R N [H1 H2 H3]. rewrite wrapu_small in N by lia. split; rewrite ?B, ?R, ?N; [done| |done].
    intros sid ids Hl. destruct (H2 _ _ Hl) as [Hs Hn]. split; [done|]. eapply Forall_impl; [exact Hn|]. cbn. lia. }
  destruct (isMarketable o1 bbo); [|destruct (_ || _)].
  - destruct (generateFill _ _ _ _) as [[o' next] fill]. by split; [apply Hup|]; destruct e.
  - by split; [apply Hup|]; destruct e.
  - cbn [fst]. rewrite E1, E2. split; [|by destruct e]. intros HL. pose proof HL as [H1 H2 H3]. destruct e as [? ? ? ? rest bysec nid]; cbn in *.
    rewrite (wrapu_small 64 (nid + 1)) by lia.
    assert (rest !! nid = None) as Hfresh.
    { destruct (rest !! nid) as [r|] eqn:Er; [|done]. destruct (H1 _ _ Er) as [_ Hin].
      destruct (bysec !! _) as [ids|] eqn:Eb; [|by apply elem_of_nil in Hin]. destruct (H2 _ _ Eb) as [_ Hn].
      eapply Forall_forall in Hn; [|exact Hin]. cbn in Hn. lia. }
    rewrite decide_False by (rewrite Hfresh; by intros [? ?]).
    eapply (listed_rest _ _ nid (mkResting o1 _)); [exact HL|done|done|exact E2|done|done|]. cbn. by rewrite E1.
Qed.

Lemma call_keeps e c : 0 ≤ next_order_id_ e → next_order_id_ e + submits c < 2 ^ 64 →
  match syn_call steady draw e c with Returned (e', _) => keeps e e' ∧ next_order_id_ e' = next_order_id_ e + submits c | _ => True end.
Proof.
  intros Hlo Hhi. destruct c as [o|oid sid uuid|oid sid p q cl|data]; cbn [syn_call submits] in *.
  - pose proof (submit_keeps e o Hhi Hlo) as H. assert (next_order_id_ (submitOrder steady e o).1 = next_order_id_ e + 1) as Hn.
    { unfold submitOrder, nowNs. destruct (isMarketable _ _); [destruct (generateFill _ _ _ _) as [[? ?] ?]|destruct (_ || _)];
        destruct e; cbn in *; apply wrapu_small; lia. }
    by destruct (submitOrder steady e o).
  - unfold cancelOrder. destruct (resting_orders_ e !! oid); split; [|destruct e; cbn; lia|done|lia].
    split; [exact (listed_remove sid oid e)|by destruct e].
  - unfold modifyOrder. destruct (resting_orders_ e !! oid) as [r|] eqn:Er; split; [|destruct e; cbn; lia|done|lia].
    split; [|by destruct e]. apply listed_same; [by destruct e..|]. intros id. destruct e as [? ? ? ? rest]; cbn in *.
    destruct (decide (id = oid)) as [->|Hne]; [|by rewrite lookup_insert_ne]. rewrite lookup_insert_eq, Er.
    destruct r as [o t]. by destruct o.
  - pose proof (packet_keeps e data (length data)) as H. pose proof (process_packet_adds draw e data (length data)) as Ha.
    destruct (processReplayedPacket _ _ _ _) as [e'| |]; [|done|done]. split; [done|]. destruct Ha as (new & _ & -> & _). lia.
Qed.

Lemma run_keeps cs : ∀ e, 0 ≤ next_order_id_ e → next_order_id_ e + zsum submits cs < 2 ^ 64 →
  match syn_run steady draw e cs with Returned (e', _) => keeps e e' | _ => True end.
Proof.
  induction cs as [|c cs IH]; intros e Hlo Hhi; cbn [syn_run]; [done|]. cbn [zsum] in Hhi.
  assert (0 ≤ zsum submits cs ∧ 0 ≤ submits c) as [Hz Hz1] by (split; [apply zsum_nonneg, Forall_forall; intros c' _|]; [by destruct c'|by destruct c]).
  pose proof (call_keeps e c Hlo ltac:(lia)) as H1. destruct (syn_call steady draw e c) as [[e1 evs1]| |]; [|done|done].
  destruct H1 as [[K1 P1] N1]. specialize (IH e1 ltac:(lia) ltac:(lia)). destruct (syn_run steady draw e1 cs) as [[e2 evs2]| |]; [|done|done].
  destruct IH as [K2 P2]. split; [auto|by rewrite P2].
Qed.

(** ** The loop, when every fill is drawn *)
Lemma should_always e : SFleb one_double (fill_probability_ e) = true → shouldFill draw e = (true, e).
Proof. unfold shouldFill. by intros ->. Qed.

Definition in_range (r : RestingOrder) : Prop :=
  0 ≤ quantity (resting_order r) < 2 ^ 31 ∧ 0 ≤ filled_qty (resting_order r) < 2 ^ 31.

(** The order as [generateFill] leaves it. *)
Definition traded (px : Price) (q : Quantity) (r : RestingOrder) : RestingOrder :=
  mkResting (generateFill 0 (resting_order r) px (trade_share q r)).1.1 (submit_time r).

Lemma traded_after sid px q r : in_range r → hits sid px q r = true →
  after_trade sid px q r = if isFullyFilled (resting_order (traded px q r)) then None else Some (traded px q r).
Proof.
  intros [Hq Hf] Hh. unfold after_trade. rewrite Hh. apply bool_decide_eq_true in Hh as (_ & H0 & Hq0).
  unfold traded, generateFill, trade_share, open_qty in *. destruct r as [o t]. cbn [resting_order submit_time fst] in *.
  rewrite wraps_small by lia.
  set (o1 := set_filled_qty (filled_qty o + Z.min _ _) o).
  assert (∀ st, isFullyFilled (set_status st o1) = isFullyFilled o1) as Est by (intros st; unfold o1; by destruct o).
  assert (isFullyFilled o1 = (quantity o - filled_qty o <=? q)) as E by (unfold isFullyFilled, o1; destruct o; cbn in *; lia).
  rewrite E. destruct (Z.leb_spec (quantity o - filled_qty o) q); rewrite Est, E.
  - done.
  - unfold o1. by rewrite Z.min_r by lia.
Qed.

Lemma reaches_iff o px : trade_reaches o px = true ↔
  side o = Buy ∧ mantissa px ≤ mantissa (price o) ∨ side o = Sell ∧ mantissa (price o) ≤ mantissa px.
Proof.
  unfold trade_reaches, Price_le, Price_ge.
  destruct (Z.leb_spec (mantissa px) (mantissa (price o))), (Z.leb_spec (mantissa (price o)) (mantissa px));
    repeat case_bool_decide; cbn; split; intros Hx; (done || naive_solver (congruence || lia)).
Qed.

Lemma check_hit sid px q e evs done oid r :
  SFleb one_double (fill_probability_ e) = true → resting_orders_ e !! oid = Some r → security_id (resting_order r) = sid → in_range r →
  check_order draw px q (e, evs, done) oid =
  if hits sid px q r then
    (set_trade_counter (u64 (next_trade_id_ e + 1))
       (set_orders (<[oid := traded px q r]> (resting_orders_ e)) (orders_by_security_ e) e),
     evs ++ [(generateFill (next_trade_id_ e) (resting_order r) px (trade_share q r)).2],
     if isFullyFilled (resting_order (traded px q r)) then done ++ [oid] else done)
  else (e, evs, done).
Proof.
  intros Hp Hr Hsid [Hq Hf]. unfold check_order. rewrite Hr.
  assert (remainingQty (resting_order r) = open_qty r) as Er by (unfold remainingQty, open_qty; apply wraps_small; lia).
  assert (hits sid px q r = trade_reaches (resting_order r) px && (0 <? trade_share q r)) as ->.
  { unfold hits, reached, trade_share. pose proof (reaches_iff (resting_order r) px) as Hi. destruct (trade_reaches _ _); cbn [andb].
    - destruct (Z.ltb_spec 0 (Z.min (open_qty r) q)); [apply bool_decide_eq_true | apply bool_decide_eq_false]; [split; [by split; [|apply Hi]|lia]|lia].
    - apply bool_decide_eq_false. intros [[_ Hx%Hi] _]. done. }
  destruct (trade_reaches _ px); [|done]. cbn [andb negb].
  rewrite should_always by done. cbn [negb]. rewrite Er. fold (trade_share q r).
  destruct (Z.leb_spec (trade_share q r) 0), (Z.ltb_spec 0 (trade_share q r)); try lia; done.
Qed.

Lemma fill_report trade_id o px n : fill_reports [(generateFill trade_id o px n).2] = [(order_id o, px, n)].
Proof. unfold generateFill. cbn. by case_match; destruct o. Qed.

(** The report of the trade on the order with an id. *)
Definition report (sid : SecurityId) (px : Price) (q : Quantity) (rest : gmap OrderId RestingOrder) (id : OrderId) : option (OrderId * Price * Quantity) :=
  r ← rest !! id; if hits sid px q r then Some (id, px, trade_share q r) else None.

Lemma check_all sid px q ids : ∀ e evs done,
  SFleb one_double (fill_probability_ e) = true → NoDup ids →
  (∀ id r, id ∈ ids → resting_orders_ e !! id = Some r → security_id (resting_order r) = sid ∧ order_id (resting_order r) = id ∧ in_range r) →
  ∃ e' new done', foldl (check_order draw px q) (e, evs, done) ids = (e', evs ++ new, done ++ done') ∧
    fill_reports new = omap (report sid px q (resting_orders_ e)) ids ∧
    (∀ id, id ∈ done' → id ∈ ids) ∧
    ∀ id, (if decide (id ∈ done') then None else resting_orders_ e' !! id) =
          if decide (id ∈ ids) then resting_orders_ e !! id ≫= after_trade sid px q else resting_orders_ e !! id.
Proof.
  induction ids as [|oid ids IH]; intros e evs done Hp Hnd Hids.
  { exists e, [], []. cbn. rewrite !app_nil_r. split_and!; done. }
  apply NoDup_cons in Hnd as [Hni Hnd]. cbn [foldl].
  assert (∃ e1 new1 done1, check_order draw px q (e, evs, done) oid = (e1, evs ++ new1, done ++ done1) ∧
    SFleb one_double (fill_probability_ e1) = true ∧ fill_reports new1 = omap (report sid px q (resting_orders_ e)) [oid] ∧
    (∀ id, id ≠ oid → resting_orders_ e1 !! id = resting_orders_ e !! id) ∧ (∀ id, id ∈ done1 → id = oid) ∧
    (if decide (oid ∈ done1) then None else resting_orders_ e1 !! oid) = resting_orders_ e !! oid ≫= after_trade sid px q)
    as (e1 & new1 & done1 & -> & Hp1 & R1 & O1 & D1 & A1).
  { destruct (resting_orders_ e !! oid) as [r|] eqn:Er.
    2:{ exists e, [], []. unfold check_order. rewrite Er, !app_nil_r. cbn. unfold report. rewrite Er. split_and!; try done.
        intros id Hin. by apply elem_of_nil in Hin. }
    destruct (Hids oid r ltac:(by left) Er) as (Hsid & Hoid & Hir). rewrite (check_hit sid) with (r := r) by done.
    cbn [omap list_omap]. unfold report at 1. rewrite Er. cbn [mbind option_bind].
    destruct (hits sid px q r) eqn:Eh; [rewrite (traded_after sid px q r Hir Eh) | unfold after_trade; rewrite Eh].
    2:{ exists e, [], []. rewrite !app_nil_r. cbn. split_and!; try done. intros id Hin. by apply elem_of_nil in Hin. }
    eexists _, [_], (if isFullyFilled (resting_order (traded px q r)) then [oid] else []). split.
    { by destruct (isFullyFilled _); rewrite ?app_nil_r. }
    split; [by destruct e|]. split; [by rewrite fill_report, Hoid|]. split.
    { intros id Hne. destruct e; cbn in *. by rewrite lookup_insert_ne. }
    destruct (isFullyFilled _).
    - split; [intros id ->%list_elem_of_singleton; done|]. rewrite decide_True; [done|]. by apply list_elem_of_singleton.
    - split; [intros id Hin; by apply elem_of_nil in Hin|]. cbn. destruct e; cbn. by rewrite lookup_insert_eq. }
  destruct (IH e1 (evs ++ new1) (done ++ done1) Hp1 Hnd) as (e' & new & done' & -> & R2 & D2 & A2).
  { intros id r Hin Hr. rewrite O1 in Hr by (by intros ->). apply Hids; [by right|done]. }
  exists e', (new1 ++ new), (done1 ++ done'). rewrite !app_assoc. split; [done|]. split_and!.
  - unfold fill_reports in *. rewrite omap_app, R1, R2.
    assert (omap (report sid px q (resting_orders_ e1)) ids = omap (report sid px q (resting_orders_ e)) ids) as ->;
      [|exact (eq_sym (omap_app (report sid px q (resting_orders_ e)) [oid] ids))].
    clear -O1 Hni. induction ids as [|x ids IH]; [done|]. apply not_elem_of_cons in Hni as [? Hni]. cbn.
    rewrite IH by done. assert (report sid px q (resting_orders_ e1) x = report sid px q (resting_orders_ e) x) as -> by (unfold report; by rewrite O1).
    done.
  - intros id [->%D1|?%D2]%elem_of_app; [by left|by right].
  - intros id. specialize (A2 id). destruct (decide (id = oid)) as [->|Hne].
    + rewrite (decide_True (P := oid ∈ oid :: ids)) by (by left). rewrite <-A1.
      rewrite (decide_False (P := oid ∈ ids)) in A2 by done. rewrite (decide_False (P := oid ∈ done')) in A2 by (by intros ?%D2).
      rewrite <-A2. destruct (decide (oid ∈ done1)); [rewrite decide_True by (apply elem_of_app; by left); done|].
      rewrite decide_False; [done|]. by intros [?|?%D2]%elem_of_app.
    + rewrite O1 in A2 by done.
      assert (∀ {B} (x y : B), (if decide (id ∈ done1 ++ done') then x else y) = if decide (id ∈ done') then x else y) as ->.
      { intros B x y. destruct (decide (id ∈ done')); [by rewrite decide_True by (apply elem_of_app; by right)|].
        rewrite decide_False; [done|]. by intros [?%D1|?]%elem_of_app. }
      rewrite A2. destruct (decide (id ∈ ids)); [by rewrite decide_True by (by right)|]. rewrite decide_False; [done|].
      by intros [->|?]%elem_of_cons.
Qed.
End calls.

(** The quantities of the resting orders after a run, from the audit. *)
Lemma run_sound steady draw cs : Forall syn_call_ok cs → zsum submits cs < 2 ^ 64 - 1 →
  match syn_run steady draw SyntheticEngine_init cs with
  | Returned (e, _) => map_Forall (λ _, in_range) (resting_orders_ e)
  | _ => True
  end.
Proof.
  intros Hok Hn. pose proof (run_audited steady draw cs SyntheticEngine_init ∅ Hok) as H.
  assert (refines [] SyntheticEngine_init ∅) as H0
    by (apply refines_intro; [intros oid; by rewrite !lookup_empty|apply map_Forall_empty]).
  specialize (H ltac:(done) ltac:(cbn; lia) H0). destruct (syn_run _ _ _ _) as [[e evs]| |]; [|done|done].
  destruct H as (a & _ & HR). eapply map_Forall_impl; [exact (rf_sound _ _ _ HR)|]. intros oid r [_ _ ??]. by split.
Qed.


