(* ===== verification/Client.v ===== *)
(** * The test client (tools/ilink3_client.cpp)

    The handshake, the messages it sends, the thread that reads and counts the
    reports, the heartbeat thread and the two ways to drive it. The socket is the
    bytes that will still arrive before the other side closes, and the bytes
    written; [broken n] tells how many bytes the [n]th write transfers before it
    fails, if it does. The threads share the session without a lock: a round of
    each is one step here. What is printed is a [Line] for every received
    message; the other texts are left out. *)
From Stdlib Require Import Floats.SpecFloat.
From stdpp Require Import pretty.
From S2P Require Import Prelude Types Sbe ILink3 Instrument Text Config.

Record ClientSession := mkClientSession {
  cs_uuid : Z;
  nextOutSeqNo : Z;
  nextInSeqNo : Z;
  keepAliveIntervalMs : Z;
  cs_state : string;
  nextOrderRequestID : Z;
  nextClOrdCounter : Z;
  orderMap : gmap Z (list byte);
  ordersSent : Z;
  ordersAccepted : Z;
  ordersRejected : Z;
  ordersCancelled : Z;
  ordersModified : Z;
  fills : Z;
}.

(** A received message on the terminal. *)
Inductive Line :=
| LTooShort (len : nat)
| LAccepted (orderID : Z) (clOrdID : list byte) (securityID side orderQty : Z) (price : Price)
| LRejected (clOrdID : list byte) (reason : Z)
| LFill (orderID lastQty : Z) (lastPx : Price) (cumQty leavesQty aggressor : Z)
| LCancelled (orderID cumQty : Z)
| LModified (orderID orderQty : Z) (price : Price)
| LEliminated (orderID cumQty : Z)
| LCancelRejected (orderID reason : Z)
| LLapsed
| LTerminated (errorCodes : Z)
| LNotApplied (fromSeqNo msgCount : Z)
| LUnknown (templateId blockLength : Z).

(** [payload] is the vector of the reader thread. *)
Record Client := mkClient {
  cl_session : ClientSession;
  g_running : bool;
  incoming : list byte;
  written : list byte;
  write_count : nat;
  cl_reads : nat;
  payload : list byte;
  printed : list Line;
}.

(** A line typed at the prompt; a number that does not parse leaves the arguments
    out. *)
Inductive Command :=
| CmdBlank
| CmdBuy (args : option (Z * Z * double))
| CmdSell (args : option (Z * Z * double))
| CmdCancel (args : option Z)
| CmdModify (args : option (Z * Z * double))
| CmdStatus
| CmdOrders
| CmdQuit
| CmdUnknown.

Definition CM (A : Type) : Type := Client → option (A * Client).
#[export] Instance CM_ret : MRet CM := λ A a c, Some (a, c).
#[export] Instance CM_bind : MBind CM := λ A B k m c, '(a, c) ← m c; k a c.

Module ClientOps.

Definition ClientSession_init : ClientSession := mkClientSession 0 1 1 30000 "Disconnected" 1 1 ∅ 0 0 0 0 0 0.
Definition Client_init (stream : list byte) : Client :=
  mkClient ClientSession_init true stream [] 0 0 (replicate (Z.to_nat 65536) Init.Byte.x00) [].

(** Assignments to the members of the session. *)
Definition set_uuid v (s : ClientSession) : ClientSession :=
  let '(mkClientSession _ a2 a3 a4 a5 a6 a7 a8 a9 a10 a11 a12 a13 a14) := s in mkClientSession v a2 a3 a4 a5 a6 a7 a8 a9 a10 a11 a12 a13 a14.
Definition set_out v (s : ClientSession) : ClientSession :=
  let '(mkClientSession a1 _ a3 a4 a5 a6 a7 a8 a9 a10 a11 a12 a13 a14) := s in mkClientSession a1 v a3 a4 a5 a6 a7 a8 a9 a10 a11 a12 a13 a14.
Definition set_in v (s : ClientSession) : ClientSession :=
  let '(mkClientSession a1 a2 _ a4 a5 a6 a7 a8 a9 a10 a11 a12 a13 a14) := s in mkClientSession a1 a2 v a4 a5 a6 a7 a8 a9 a10 a11 a12 a13 a14.
Definition set_keep_alive v (s : ClientSession) : ClientSession :=
  let '(mkClientSession a1 a2 a3 _ a5 a6 a7 a8 a9 a10 a11 a12 a13 a14) := s in mkClientSession a1 a2 a3 v a5 a6 a7 a8 a9 a10 a11 a12 a13 a14.
Definition set_cs_state v (s : ClientSession) : ClientSession :=
  let '(mkClientSession a1 a2 a3 a4 _ a6 a7 a8 a9 a10 a11 a12 a13 a14) := s in mkClientSession a1 a2 a3 a4 v a6 a7 a8 a9 a10 a11 a12 a13 a14.
Definition set_request v (s : ClientSession) : ClientSession :=
  let '(mkClientSession a1 a2 a3 a4 a5 _ a7 a8 a9 a10 a11 a12 a13 a14) := s in mkClientSession a1 a2 a3 a4 a5 v a7 a8 a9 a10 a11 a12 a13 a14.
Definition set_counter v (s : ClientSession) : ClientSession :=
  let '(mkClientSession a1 a2 a3 a4 a5 a6 _ a8 a9 a10 a11 a12 a13 a14) := s in mkClientSession a1 a2 a3 a4 a5 a6 v a8 a9 a10 a11 a12 a13 a14.
Definition set_orders v (s : ClientSession) : ClientSession :=
  let '(mkClientSession a1 a2 a3 a4 a5 a6 a7 _ a9 a10 a11 a12 a13 a14) := s in mkClientSession a1 a2 a3 a4 a5 a6 a7 v a9 a10 a11 a12 a13 a14.
Definition set_sent v (s : ClientSession) : ClientSession :=
  let '(mkClientSession a1 a2 a3 a4 a5 a6 a7 a8 _ a10 a11 a12 a13 a14) := s in mkClientSession a1 a2 a3 a4 a5 a6 a7 a8 v a10 a11 a12 a13 a14.
Definition set_accepted v (s : ClientSession) : ClientSession :=
  let '(mkClientSession a1 a2 a3 a4 a5 a6 a7 a8 a9 _ a11 a12 a13 a14) := s in mkClientSession a1 a2 a3 a4 a5 a6 a7 a8 a9 v a11 a12 a13 a14.
Definition set_rejected v (s : ClientSession) : ClientSession :=
  let '(mkClientSession a1 a2 a3 a4 a5 a6 a7 a8 a9 a10 _ a12 a13 a14) := s in mkClientSession a1 a2 a3 a4 a5 a6 a7 a8 a9 a10 v a12 a13 a14.
Definition set_cancelled v (s : ClientSession) : ClientSession :=
  let '(mkClientSession a1 a2 a3 a4 a5 a6 a7 a8 a9 a10 a11 _ a13 a14) := s in mkClientSession a1 a2 a3 a4 a5 a6 a7 a8 a9 a10 a11 v a13 a14.
Definition set_modified v (s : ClientSession) : ClientSession :=
  let '(mkClientSession a1 a2 a3 a4 a5 a6 a7 a8 a9 a10 a11 a12 _ a14) := s in mkClientSession a1 a2 a3 a4 a5 a6 a7 a8 a9 a10 a11 a12 v a14.
Definition set_fills v (s : ClientSession) : ClientSession :=
  let '(mkClientSession a1 a2 a3 a4 a5 a6 a7 a8 a9 a10 a11 a12 a13 _) := s in mkClientSession a1 a2 a3 a4 a5 a6 a7 a8 a9 a10 a11 a12 a13 v.

Definition on_session (f : ClientSession → ClientSession) (c : Client) : Client :=
  mkClient (f (cl_session c)) (g_running c) (incoming c) (written c) (write_count c) (cl_reads c) (payload c) (printed c).
Definition set_g_running v (c : Client) : Client :=
  mkClient (cl_session c) v (incoming c) (written c) (write_count c) (cl_reads c) (payload c) (printed c).
Definition set_incoming v (c : Client) : Client :=
  mkClient (cl_session c) (g_running c) v (written c) (write_count c) (cl_reads c) (payload c) (printed c).
Definition set_payload v (c : Client) : Client :=
  mkClient (cl_session c) (g_running c) (incoming c) (written c) (write_count c) (cl_reads c) v (printed c).
Definition tick (c : Client) : Client :=
  mkClient (cl_session c) (g_running c) (incoming c) (written c) (write_count c) (S (cl_reads c)) (payload c) (printed c).
Definition add_written bs (c : Client) : Client :=
  mkClient (cl_session c) (g_running c) (incoming c) (written c ++ bs) (S (write_count c)) (cl_reads c) (payload c) (printed c).
Definition add_line l (c : Client) : Client :=
  mkClient (cl_session c) (g_running c) (incoming c) (written c) (write_count c) (cl_reads c) (payload c) (printed c ++ [l]).

Definition self : CM Client := λ c, Some (c, c).
Definition update (f : Client → Client) : CM unit := λ c, Some (tt, f c).
Definition modify (f : ClientSession → ClientSession) : CM unit := update (on_session f).
Definition lift {A} (x : option A) : CM A := λ c, a ← x; Some (a, c).
Definition when (b : bool) (m : CM unit) : CM unit := if b then m else mret tt.
Definition tprint (l : Line) : CM unit := update (add_line l).

Section client.
(** The clocks, the failing writes, and what an uninitialised [char buf[4096]] holds. *)
Context (steady system : nat → Z) (broken : nat → option nat) (stack : list byte).

Definition nowNanos : CM Z := λ c, Some (u64 (system (cl_reads c)), tick c).
Definition steady_count : CM Z := λ c, Some (u64 (steady (cl_reads c)), tick c).

(** [asio::write]: everything, or a part and an error. *)
Definition asio_write (bs : list byte) : CM bool := λ c,
  match broken (write_count c) with
  | None => Some (true, add_written bs c)
  | Some k => Some (false, add_written (take k bs) c)
  end.

(** [asio::read] of [n] bytes. *)
Definition asio_read (n : nat) : CM (option (list byte)) := λ c,
  if (n <=? length (incoming c))%nat then Some (Some (take n (incoming c)), set_incoming (drop n (incoming c)) c)
  else Some (None, set_incoming [] c).

Definition sendFramed (sbe_data : list byte) : CM unit :=
  sofh ← lift (SOFH.encode (replicate SOFH.SIZE Init.Byte.x00) 0 (SOFH.framedLength (u32 (Z.of_nat (length sbe_data)))));
  ok ← asio_write sofh;
  if ok : bool then _ ← asio_write sbe_data; mret tt else mret tt.

(** [encode] into a local buffer that holds [buf], then [sendFramed]: the buffer. *)
Definition send_encoded {M} `{SbeCodec M} (m : M) (buf : buffer) : CM buffer :=
  '(buf, len) ← lift (sbe_encode m buf 0);
  _ ← sendFramed (take len buf);
  mret buf.

Definition fixed (s : string) (n : nat) : list byte := writeFixedString (chars s) n.
#[global] Arguments fixed : simpl never.

(** The handshake's two replies: the framing header, its length checked against
    [sizeof(buf)], and the payload over the front of [buf]. *)
Definition read_reply (buf : buffer) : CM (option buffer) :=
  sofhBuf ← asio_read SOFH.SIZE;
  match sofhBuf with
  | None => mret None
  | Some sofhBuf =>
      msgLen ← lift (SOFH.decodeMessageLength sofhBuf 0);
      let payloadLen := u32 (msgLen - u32 (Z.of_nat SOFH.SIZE)) in
      if 4096 <? payloadLen then mret None else
      got ← asio_read (Z.to_nat payloadLen);
      match got with
      | None => mret None
      | Some got => mret (Some (got ++ drop (length got) buf))
      end
  end.

Definition performHandshake : CM bool :=
  uuid ← steady_count;
  _ ← modify (set_uuid uuid);
  now ← nowNanos;
  buf ← send_encoded (Negotiate500.mk (replicate 32 Init.Byte.x00) (fixed "TestClient" 20) uuid now (fixed "T01" 3) (fixed "TEST" 5) 1 0) stack;
  _ ← modify (set_cs_state "NegotiateSent");
  reply ← read_reply buf;
  match reply with
  | None => mret false
  | Some buf =>
      templateId ← lift (MessageHeader.decodeTemplateId buf 0);
      if negb (templateId =? NegotiationResponse501.TEMPLATE_ID) then mret false else
      _ ← lift (NegotiationResponse501.decode buf 0);
      _ ← modify (set_cs_state "Negotiated");
      now ← nowNanos;
      c ← self;
      buf ← send_encoded (Establish503.mk (replicate 32 Init.Byte.x00) (fixed "TestClient" 20) (cs_uuid (cl_session c)) now (fixed "T01" 3)
               (fixed "TEST" 5) 30000 (nextOutSeqNo (cl_session c)) 0) buf;
      _ ← modify (set_cs_state "EstablishSent");
      reply ← read_reply buf;
      match reply with
      | None => mret false
      | Some buf =>
          templateId ← lift (MessageHeader.decodeTemplateId buf 0);
          if negb (templateId =? EstablishmentAck504.TEMPLATE_ID) then mret false else
          estAck ← lift (EstablishmentAck504.decode buf 0);
          _ ← modify (set_keep_alive (EstablishmentAck504.keepAliveInterval estAck));
          _ ← modify (set_in (EstablishmentAck504.nextSeqNo estAck));
          _ ← modify (set_cs_state "Established");
          mret true
      end
  end.

(** ** Orders *)

(** [session.nextOutSeqNo++] and the other counters. *)
Definition take_seq : CM Z :=
  c ← self; let v := nextOutSeqNo (cl_session c) in _ ← modify (set_out (u32 (v + 1))); mret v.
Definition take_request : CM Z :=
  c ← self; let v := nextOrderRequestID (cl_session c) in _ ← modify (set_request (u64 (v + 1))); mret v.
Definition take_counter : CM Z :=
  c ← self; let v := nextClOrdCounter (cl_session c) in _ ← modify (set_counter (u32 (v + 1))); mret v.

(** ["ORD-" + std::to_string(n)]. *)
Definition cl_ord (prefix : string) (n : Z) : list byte := writeFixedString (chars prefix ++ chars (pretty n)) 20.
#[global] Arguments cl_ord : simpl never.
Definition fromDouble (d : double) : option Z := to_int64 (double_mul d one_e9).

Definition sendOrder (side securityID qty : Z) (price : double) : CM unit :=
  px ← lift (fromDouble price);
  seq ← take_seq;
  request ← take_request;
  now ← nowNanos;
  counter ← take_counter;
  _ ← send_encoded (NewOrderSingle514.mk px qty securityID side seq (fixed "TestClient" 20) (cl_ord "ORD-" counter) 0 request now 0
         (fixed "US,NY" 5) 0 qty 0 (OrderType_to_u8 Limit) (TimeInForce_to_u8 Day) 0 Init.Byte.x00 Init.Byte.x00 0 0 0) stack;
  c ← self;
  modify (set_sent (u32 (ordersSent (cl_session c) + 1))).

Definition sendCancel (orderID : Z) : CM unit :=
  seq ← take_seq;
  now ← nowNanos;
  request ← take_request;
  counter ← take_counter;
  _ ← send_encoded (OrderCancelRequest516.mk orderID 0 0 seq (fixed "TestClient" 20) (cl_ord "CXL-" counter) 0 (Side_to_u8 Buy) request now
         (fixed "US,NY" 5) 0) stack;
  mret tt.

Definition sendModify (orderID newQty : Z) (newPrice : double) : CM unit :=
  px ← lift (fromDouble newPrice);
  seq ← take_seq;
  now ← nowNanos;
  request ← take_request;
  counter ← take_counter;
  _ ← send_encoded (OrderCancelReplaceRequest515.mk px newQty 0 (Side_to_u8 Buy) seq (fixed "TestClient" 20) (cl_ord "MOD-" counter) 0 orderID 0
         request now (fixed "US,NY" 5) 0 newQty 0 (OrderType_to_u8 Limit) (TimeInForce_to_u8 Day) 0 0 Init.Byte.x00 Init.Byte.x00 0 0 0) stack;
  mret tt.

Definition sendSequenceHeartbeat : CM unit :=
  c ← self;
  _ ← send_encoded (Sequence506.mk (cs_uuid (cl_session c)) (nextOutSeqNo (cl_session c)) 0 0) (take 256 stack);
  mret tt.

Definition sendTerminate : CM unit :=
  c ← self;
  now ← nowNanos;
  _ ← send_encoded (Terminate507.mk (cs_uuid (cl_session c)) now 0 0) (take 256 stack);
  modify (set_cs_state "Terminated").

(** ** Received messages *)

(** [data] is the vector, of which the message is the first [len] bytes. *)
Definition processMessage (data : buffer) (len : nat) : CM unit :=
  if (len <? MessageHeader.SIZE)%nat then tprint (LTooShort len) else
  templateId ← lift (MessageHeader.decodeTemplateId data 0);
  blockLength ← lift (MessageHeader.decodeBlockLength data 0);
  if templateId =? ExecutionReportNew522.TEMPLATE_ID then
    er ← lift (ExecutionReportNew522.decode data 0);
    let clOrd := readFixedString (ExecutionReportNew522.clOrdID er) 20 in
    _ ← modify (λ s, set_orders (<[ExecutionReportNew522.orderID er := clOrd]> (orderMap s)) s);
    _ ← modify (λ s, set_accepted (u32 (ordersAccepted s + 1)) s);
    tprint (LAccepted (ExecutionReportNew522.orderID er) clOrd (ExecutionReportNew522.securityID er) (ExecutionReportNew522.side er)
      (ExecutionReportNew522.orderQty er) (mkPrice (ExecutionReportNew522.price er)))
  else if templateId =? ExecutionReportReject523.TEMPLATE_ID then
    er ← lift (ExecutionReportReject523.decode data 0);
    _ ← modify (λ s, set_rejected (u32 (ordersRejected s + 1)) s);
    tprint (LRejected (readFixedString (ExecutionReportReject523.clOrdID er) 20) (ExecutionReportReject523.ordRejReason er))
  else if templateId =? ExecutionReportTradeOutright525.TEMPLATE_ID then
    er ← lift (ExecutionReportTradeOutright525.decode data 0);
    _ ← modify (λ s, set_fills (u32 (fills s + 1)) s);
    tprint (LFill (ExecutionReportTradeOutright525.orderID er) (ExecutionReportTradeOutright525.lastQty er)
      (mkPrice (ExecutionReportTradeOutright525.lastPx er)) (ExecutionReportTradeOutright525.cumQty er)
      (ExecutionReportTradeOutright525.leavesQty er) (ExecutionReportTradeOutright525.aggressorIndicator er))
  else if templateId =? ExecutionReportCancel534.TEMPLATE_ID then
    er ← lift (ExecutionReportCancel534.decode data 0);
    _ ← modify (λ s, set_cancelled (u32 (ordersCancelled s + 1)) s);
    _ ← modify (λ s, set_orders (delete (ExecutionReportCancel534.orderID er) (orderMap s)) s);
    tprint (LCancelled (ExecutionReportCancel534.orderID er) (ExecutionReportCancel534.cumQty er))
  else if templateId =? ExecutionReportModify531.TEMPLATE_ID then
    er ← lift (ExecutionReportModify531.decode data 0);
    _ ← modify (λ s, set_modified (u32 (ordersModified s + 1)) s);
    tprint (LModified (ExecutionReportModify531.orderID er) (ExecutionReportModify531.orderQty er) (mkPrice (ExecutionReportModify531.price er)))
  else if templateId =? ExecutionReportElimination524.TEMPLATE_ID then
    er ← lift (ExecutionReportElimination524.decode data 0);
    tprint (LEliminated (ExecutionReportElimination524.orderID er) (ExecutionReportElimination524.cumQty er))
  else if templateId =? OrderCancelReject535.TEMPLATE_ID then
    cr ← lift (OrderCancelReject535.decode data 0);
    tprint (LCancelRejected (OrderCancelReject535.orderID cr) (OrderCancelReject535.cxlRejReason cr))
  else if templateId =? Sequence506.TEMPLATE_ID then
    seq ← lift (Sequence506.decode data 0);
    when (negb (Sequence506.keepAliveIntervalLapsed seq =? 0)) (tprint LLapsed)
  else if (templateId =? NegotiationResponse501.TEMPLATE_ID) || (templateId =? EstablishmentAck504.TEMPLATE_ID) then mret tt
  else if templateId =? Terminate507.TEMPLATE_ID then
    term ← lift (Terminate507.decode data 0);
    _ ← tprint (LTerminated (Terminate507.errorCodes term));
    _ ← modify (set_cs_state "Terminated");
    update (set_g_running false)
  else if templateId =? NotApplied513.TEMPLATE_ID then
    na ← lift (NotApplied513.decode data 0);
    tprint (LNotApplied (NotApplied513.fromSeqNo na) (NotApplied513.msgCount na))
  else tprint (LUnknown templateId blockLength).

Definition state_is (st : string) (c : Client) : bool := bool_decide (cs_state (cl_session c) = st).

(** The body of the reader's loop: whether it goes on to the test of the loop. A
    message longer than the vector, which is resized for it, fills it. *)
Definition reader_body : CM bool :=
  sofhBuf ← asio_read SOFH.SIZE;
  match sofhBuf with
  | None => _ ← update (set_g_running false); mret false
  | Some sofhBuf =>
      msgLen ← lift (SOFH.decodeMessageLength sofhBuf 0);
      let payloadLen := u32 (msgLen - u32 (Z.of_nat SOFH.SIZE)) in
      got ← asio_read (Z.to_nat payloadLen);
      match got with
      | None => _ ← update (set_g_running false); mret false
      | Some got =>
          c ← self;
          _ ← update (set_payload (got ++ drop (length got) (payload c)));
          c ← self;
          _ ← processMessage (payload c) (Z.to_nat payloadLen);
          mret true
      end
  end.

(** Every round but the last takes a header from the stream, so its length bounds
    the rounds; the result tells whether the loop ended within the fuel. *)
Fixpoint readerThread (fuel : nat) : CM bool :=
  c ← self;
  if g_running c && negb (state_is "Terminated" c) then
    match fuel with
    | O => mret false
    | S fuel => goes_on ← reader_body; if goes_on : bool then readerThread fuel else mret true
    end
  else mret true.

(** A round of the heartbeat thread, after its sleep; it ends with the test of the loop. *)
Definition keepalive_round : CM bool :=
  c ← self;
  _ ← when (g_running c && state_is "Established" c) sendSequenceHeartbeat;
  c ← self;
  mret (g_running c && state_is "Established" c).

(** ** Driving the client *)

(** [iss >> id >> qty >> price], where the first extraction gave [id]. *)
Definition order_args (id : option (Z * list byte)) : option (Z * Z * double) :=
  '(id, iss) ← id; '(qty, iss) ← TextOps.read_unsigned 32 iss; '(price, _) ← TextOps.read_double iss; Some (id, qty, price).

(** The words of a line; [named]: [cmd] is the given one. *)
Definition parse_line (line : list byte) : Command :=
  match TextOps.read_word line with
  | None => CmdBlank
  | Some (cmd, iss) =>
      let named (w : string) := bool_decide (cmd = chars w) in
      if named "buy" || named "sell" then
        let args := order_args (TextOps.read_signed 32 iss) in if named "buy" then CmdBuy args else CmdSell args
      else if named "cancel" then CmdCancel (fst <$> TextOps.read_unsigned 64 iss)
      else if named "modify" then CmdModify (order_args (TextOps.read_unsigned 64 iss))
      else if named "status" then CmdStatus else if named "orders" then CmdOrders else if named "quit" then CmdQuit else CmdUnknown
  end.

(** A line at the prompt: whether the loop goes on to its test. *)
Definition run_command (cmd : Command) : CM bool :=
  match cmd with
  | CmdBuy (Some (secId, qty, price)) => _ ← sendOrder (Side_to_u8 Buy) secId qty price; mret true
  | CmdSell (Some (secId, qty, price)) => _ ← sendOrder (Side_to_u8 Sell) secId qty price; mret true
  | CmdCancel (Some orderId) => _ ← sendCancel orderId; mret true
  | CmdModify (Some (orderId, qty, price)) => _ ← sendModify orderId qty price; mret true
  | CmdQuit => _ ← sendTerminate; _ ← update (set_g_running false); mret false
  | CmdBlank | CmdBuy None | CmdSell None | CmdCancel None | CmdModify None | CmdStatus | CmdOrders | CmdUnknown => mret true
  end.

(** [lines] are those of the standard input, up to its end. *)
Fixpoint interactiveLoop (lines : list (list byte)) : CM unit :=
  c ← self;
  if g_running c && state_is "Established" c then
    match lines with
    | [] => mret tt
    | line :: lines => goes_on ← run_command (parse_line line); if goes_on : bool then interactiveLoop lines else mret tt
    end
  else mret tt.

Definition double_add (x y : double) : double := SFadd 53 1024 x y.

(** [5000.0 + (i % 10) * 0.25]. *)
Definition auto_price (i : Z) : double := double_add (double_of 5000) (double_mul (double_of (Z.rem i 10)) (decimal 25 2)).

(** [remaining] counts down to [numOrders]. *)
Fixpoint auto_loop (remaining : nat) (i : Z) : CM unit :=
  match remaining with
  | O => mret tt
  | S remaining =>
      c ← self;
      if g_running c then
        _ ← sendOrder (if Z.rem i 2 =? 0 then Side_to_u8 Buy else Side_to_u8 Sell) 1 1 (auto_price i);
        auto_loop remaining (i + 1)
      else mret tt
  end.

Definition autoTest (numOrders : Z) : CM unit :=
  _ ← auto_loop (Z.to_nat numOrders) 0;
  sendTerminate.

End client.

(** ** The command line *)
Record Options := mkOptions { opt_host : string; opt_port : string; opt_interactive : bool; opt_auto : Z }.
Inductive Parsed := RunClient (opts : Options) | ExitZero | Uncaught.

Fixpoint parse_args (args : list string) (o : Options) : Parsed :=
  match args with
  | [] => RunClient o
  | arg :: rest =>
      let '(mkOptions host port interactive auto) := o in
      if bool_decide (arg = "--host"%string) && negb (bool_decide (rest = [])) then
        match rest with v :: rest => parse_args rest (mkOptions v port interactive auto) | [] => RunClient o end
      else if bool_decide (arg = "--port"%string) && negb (bool_decide (rest = [])) then
        match rest with v :: rest => parse_args rest (mkOptions host v interactive auto) | [] => RunClient o end
      else if bool_decide (arg = "--auto"%string) && negb (bool_decide (rest = [])) then
        match rest with
        | v :: rest => match TextOps.stoi (chars v) with Some n => parse_args rest (mkOptions host port false n) | None => Uncaught end
        | [] => RunClient o
        end
      else if bool_decide (arg = "--interactive"%string) then parse_args rest (mkOptions host port true auto)
      else if bool_decide (arg = "--help"%string) || bool_decide (arg = "-h"%string) then ExitZero
      else parse_args rest o
  end.
Definition Options_init : Options := mkOptions "127.0.0.1" "19000" true 0.
End ClientOps.
