(* ===== verification/ClientTheorems.v ===== *)
(** * Theorems about the test client

    The client and the exchange it talks to: the handshake with a session, what
    the lines typed after it say, the messages sent for them and their numbers. *)
From Stdlib Require Import Floats.SpecFloat.
From stdpp Require Import pretty.
From S2P Require Import Prelude Types Sbe ILink3 Dispatcher Order Instrument Text Config Session SessionLemmas SessionStep SessionInv SessionTheorems SessionNumbers.
From S2P Require Import TcpConnection TcpTheorems ExecReport Typed ExecReportTheorems Client.
Import SessionOps ClientOps.

(** ** Running the client *)
Lemma cm_bind {A B} (m : CM A) (k : A → CM B) c a c' : m c = Some (a, c') → (m ≫= k) c = k a c'.
Proof. intros E. unfold mbind, CM_bind. by rewrite E. Qed.
Lemma cm_assoc {A B C} (m : CM A) (k : A → CM B) (k' : B → CM C) c : ((m ≫= k) ≫= k') c = (m ≫= λ a, k a ≫= k') c.
Proof. unfold mbind, CM_bind. by destruct (m c) as [[a c']|]. Qed.
Lemma cm_ret {A} (a : A) c : mret (M := CM) a c = Some (a, c).
Proof. done. Qed.
Lemma cm_ret_bind {A B} (a : A) (k : A → CM B) c : (mret a ≫= k) c = k a c.
Proof. done. Qed.
Lemma cm_self {B} (k : Client → CM B) c : (self ≫= k) c = k c c.
Proof. done. Qed.
Lemma cm_update f c : update f c = Some (tt, f c).
Proof. done. Qed.
Lemma cm_update_bind {B} f (k : unit → CM B) c : (update f ≫= k) c = k tt (f c).
Proof. done. Qed.
Lemma cm_modify f c : modify f c = Some (tt, on_session f c).
Proof. done. Qed.
Lemma cm_modify_bind {B} f (k : unit → CM B) c : (modify f ≫= k) c = k tt (on_session f c).
Proof. done. Qed.
Lemma cm_lift {A B} (a : A) (k : A → CM B) c : (lift (Some a) ≫= k) c = k a c.
Proof. done. Qed.
Lemma cm_now {B} system (k : Z → CM B) c : (nowNanos system ≫= k) c = k (u64 (system (cl_reads c))) (tick c).
Proof. done. Qed.
Lemma cm_steady {B} steady (k : Z → CM B) c : (steady_count steady ≫= k) c = k (u64 (steady (cl_reads c))) (tick c).
Proof. done. Qed.
Lemma cm_tprint l c : tprint l c = Some (tt, add_line l c).
Proof. done. Qed.
Lemma cm_tprint_bind {B} l (k : unit → CM B) c : (tprint l ≫= k) c = k tt (add_line l c).
Proof. done. Qed.
Lemma cm_seq {B} (k : Z → CM B) c :
  (take_seq ≫= k) c = k (nextOutSeqNo (cl_session c)) (on_session (set_out (u32 (nextOutSeqNo (cl_session c) + 1))) c).
Proof. done. Qed.
Lemma cm_request {B} (k : Z → CM B) c :
  (take_request ≫= k) c = k (nextOrderRequestID (cl_session c)) (on_session (set_request (u64 (nextOrderRequestID (cl_session c) + 1))) c).
Proof. done. Qed.
Lemma cm_counter {B} (k : Z → CM B) c :
  (take_counter ≫= k) c = k (nextClOrdCounter (cl_session c)) (on_session (set_counter (u32 (nextClOrdCounter (cl_session c) + 1))) c).
Proof. done. Qed.

#[export] Hint Rewrite @cm_ret @cm_ret_bind @cm_self @cm_update @cm_update_bind @cm_modify @cm_modify_bind @cm_lift @cm_now @cm_steady
  @cm_tprint @cm_tprint_bind @cm_seq @cm_request @cm_counter @cm_assoc : client.
Ltac client := repeat (autorewrite with client; cbv beta).

(** ** Sending *)
Definition sent (p : list byte) (c : Client) : Client := add_written p (add_written (header_bytes (Z.of_nat (length p))) c).

Lemma written_sent p c : written (sent p c) = written c ++ frame_bytes p.
Proof. unfold sent, add_written, frame_bytes. cbn. by rewrite <-app_assoc. Qed.

Lemma sofh_encode n : 0 ≤ n ≤ kMaxBody →
  SOFH.encode (replicate SOFH.SIZE Init.Byte.x00) 0 (SOFH.framedLength (u32 n)) = Some (header_bytes n).
Proof.
  intros Hn. unfold kMaxBody in Hn. unfold SOFH.encode, SOFH.framedLength, SOFH.SIZE, SOFH.SBE_ENCODING_TYPE. rewrite (wrapu_small 32 n), wrapu_small by lia.
  replace (Z.of_nat 6 + n) with (n + 6) by lia. rewrite <-header_written by (unfold kMaxBody; lia).
  unfold kSofhEncodingSbe. set (ws := [put_u 0 _ 4; put_u 4 _ 2]). assert (packed 0 ws) as Hp by done.
  pose proof (run_cpys_packed ws [] (replicate 6 Init.Byte.x00) [] 0 0 Hp eq_refl eq_refl) as H. cbn [app] in H. by rewrite !app_nil_r in H.
Qed.

Section sending.
Context (broken : nat → option nat) (Hb : ∀ n, broken n = None).

Lemma client_sends_frame p c : Z.of_nat (length p) ≤ kMaxBody → sendFramed broken p c = Some (tt, sent p c).
Proof.
  intros Hp. unfold sendFramed. rewrite sofh_encode by lia. client.
  assert (∀ bs c', asio_write broken bs c' = Some (true, add_written bs c')) as Hw by (intros; unfold asio_write; by rewrite Hb).
  rewrite (cm_bind _ _ _ _ _ (Hw _ _)). cbv iota. by rewrite (cm_bind _ _ _ _ _ (Hw _ _)).
Qed.

Lemma client_sends_message {M} `{SbeCodecOk M} (m : M) buf c :
  sbe_wf m → (sbe_encodedLength m ≤ length buf)%nat → Z.of_nat (sbe_encodedLength m) ≤ kMaxBody →
  send_encoded broken m buf c = Some (sbe_bytes m ++ drop (sbe_encodedLength m) buf, sent (sbe_bytes m) c).
Proof.
  intros Hw Hl Hm. unfold send_encoded.
  pose proof (sbe_encode_spec m [] (take (sbe_encodedLength m) buf) (drop (sbe_encodedLength m) buf) Hw) as E.
  rewrite length_take, Nat.min_l in E by done. specialize (E eq_refl). cbn [app length] in E. rewrite take_drop in E. rewrite E. client.
  assert (take (sbe_encodedLength m) (sbe_bytes m ++ drop (sbe_encodedLength m) buf) = sbe_bytes m) as ->
    by (rewrite <-(sbe_bytes_length m Hw); apply take_app_length).
  rewrite (cm_bind _ _ _ _ _ (client_sends_frame _ c ltac:(rewrite sbe_bytes_length by done; lia))). done.
Qed.
End sending.

(** ** The messages it sends *)
Lemma fixed_length s n : length (fixed s n) = n.
Proof. apply writeFixedString_length. Qed.
Lemma cl_ord_length s n : length (cl_ord s n) = 20%nat.
Proof. apply writeFixedString_length. Qed.

Lemma fromDouble_range d px : fromDouble d = Some px → px ∈i 64.
Proof. apply to_int64_range. Qed.

Ltac decode_seq d := unfold d; let H := fresh in intros H; repeat (apply bind_Some in H as (? & ? & H)); injection H as <-; assumption.
Lemma decode_seq514 data m : NewOrderSingle514.decode data 0 = Some m → rd_u data (MessageHeader.SIZE + 17) 4 = Some (NewOrderSingle514.seqNum m).
Proof. decode_seq NewOrderSingle514.decode. Qed.
Lemma decode_seq515 data m : OrderCancelReplaceRequest515.decode data 0 = Some m →
  rd_u data (MessageHeader.SIZE + 17) 4 = Some (OrderCancelReplaceRequest515.seqNum m).
Proof. decode_seq OrderCancelReplaceRequest515.decode. Qed.
Lemma decode_seq516 data m : OrderCancelRequest516.decode data 0 = Some m → rd_u data (MessageHeader.SIZE + 17) 4 = Some (OrderCancelRequest516.seqNum m).
Proof. decode_seq OrderCancelRequest516.decode. Qed.

(** An encoded order message is an application message with its number. *)
Lemma app_of {M} `{SbeCodecOk M} (m : M) seq :
  sbe_wf m → sbe_template (M := M) ∈ [514; 515; 516] → (29 ≤ sbe_encodedLength m)%nat → Z.of_nat (sbe_encodedLength m) < 2 ^ 64 →
  (sbe_decode (sbe_bytes m) 0 = Some m → rd_u (sbe_bytes m) (MessageHeader.SIZE + 17) 4 = Some seq) → seq < 2 ^ 32 - 1 →
  app_msg (sbe_template (M := M), sbe_bytes m, seq).
Proof.
  intros Hw Ht Hl Hl2 Hd Hs. pose proof (sbe_bytes_length m Hw) as HL.
  pose proof (sbe_decode_spec m [] [] Hw) as Hdec. pose proof (sbe_template_spec m [] [] Hw) as Htem. cbn [app length] in Hdec, Htem.
  rewrite app_nil_r in Hdec, Htem. specialize (Hd Hdec).
  assert (sbe_template (M := M) = 514 ∨ sbe_template (M := M) = 515 ∨ sbe_template (M := M) = 516) as Ht' by set_solver.
  split; cbn [fst snd]; [exact Htem|lia|lia| | |done].
  - split; [by rewrite HL|]. right. exists (sbe_template (M := M)). split; [exact Htem|]. rewrite HL.
    destruct Ht' as [-> |[-> | ->]]; cbn; lia.
  - unfold client_seq_of. by destruct Ht' as [-> |[-> | ->]].
Qed.

(** What the counters of the session promise. *)
Record counters_ok (s : ClientSession) : Prop := {
  co_uuid : cs_uuid s ∈u 64;
  co_out : nextOutSeqNo s ∈u 32;
  co_request : nextOrderRequestID s ∈u 64;
  co_counter : nextClOrdCounter s ∈u 32;
}.

(** Only counters change. *)
Definition same_client (c c' : Client) : Prop :=
  g_running c' = g_running c ∧ incoming c' = incoming c ∧ payload c' = payload c ∧ printed c' = printed c ∧
  cs_state (cl_session c') = cs_state (cl_session c) ∧ cs_uuid (cl_session c') = cs_uuid (cl_session c) ∧
  nextInSeqNo (cl_session c') = nextInSeqNo (cl_session c) ∧ counters_ok (cl_session c').

(** The client sends an order message under its next number. *)
Definition sends_order (c c' : Client) (t : Z) (p : list byte) : Prop :=
  written c' = written c ++ frame_bytes p ∧ same_client c c' ∧
  nextOutSeqNo (cl_session c') = u32 (nextOutSeqNo (cl_session c) + 1) ∧
  (nextOutSeqNo (cl_session c) < 2 ^ 32 - 1 → app_msg (t, p, nextOutSeqNo (cl_session c))).

Section messages.
Context (system : nat → Z) (broken : nat → option nat) (stack : list byte) (Hb : ∀ n, broken n = None) (Hs : length stack = 4096%nat).

Ltac client_wf :=
  repeat match goal with |- context [wrapu ?w ?z] =>
    pose proof (wrapu_range w z ltac:(lia)); generalize dependent (wrapu w z); intros end;
  unfold sbe_wf; cbn; unfold NewOrderSingle514.wf, OrderCancelReplaceRequest515.wf, OrderCancelRequest516.wf, Sequence506.wf, Terminate507.wf; cbn;
  rewrite ?fixed_length, ?cl_ord_length; split_and!; first [done | lia].

(** Runs the [send_encoded] at the head of the goal. *)
Ltac order_message :=
  match goal with |- context [send_encoded _ ?m ?buf] =>
    let Hw := fresh "Hw" in assert (sbe_wf m) as Hw by client_wf;
    rewrite (cm_bind _ _ _ _ _ (client_sends_message broken Hb m buf _ Hw ltac:(rewrite ?length_take, Hs; apply Nat.leb_le; done) ltac:(by apply Z.leb_le)))
  end.
(** [sends_order] of the client's next state. *)
Ltac sent_order Hw dec :=
  split; [cbn; unfold frame_bytes; by rewrite <-app_assoc|];
  split; [split_and!; try done; split; cbn; auto with width|];
  split; [done|]; intros ?;
  refine (app_of _ _ Hw _ _ _ _ _); [set_solver|apply Nat.leb_le; done|by apply Z.ltb_lt|apply dec|done].

Lemma sendOrder_run side sec qty price px c :
  counters_ok (cl_session c) → fromDouble price = Some px → side ∈u 8 → sec ∈i 32 → qty ∈u 32 →
  ∃ c' m, sendOrder system broken stack side sec qty price c = Some (tt, c') ∧ sends_order c c' 514 (sbe_bytes m) ∧
    sbe_wf m ∧ NewOrderSingle514.securityID m = sec ∧ NewOrderSingle514.price m = px ∧ NewOrderSingle514.orderQty m = qty ∧
    NewOrderSingle514.side m = side ∧ ordersSent (cl_session c') = u32 (ordersSent (cl_session c) + 1).
Proof.
  intros [C1 C2 C3 C4] Hpx Hside Hsec Hqty. unfold sendOrder. rewrite Hpx. client. apply fromDouble_range in Hpx.
  destruct c as [[]]. cbn in C1, C2, C3, C4 |- *. order_message. client.
  eexists _, _. split; [done|]. split_and!; [|exact Hw|done..]. sent_order Hw decode_seq514.
Qed.

(** A cancel or a modification names security 0 and the buy side, whatever the order. *)
Lemma sendCancel_run oid c :
  counters_ok (cl_session c) → oid ∈u 64 →
  ∃ c' m, sendCancel system broken stack oid c = Some (tt, c') ∧ sends_order c c' 516 (sbe_bytes m) ∧
    sbe_wf m ∧ OrderCancelRequest516.orderID m = oid ∧ OrderCancelRequest516.securityID m = 0.
Proof.
  intros [C1 C2 C3 C4] Hoid. unfold sendCancel. client. destruct c as [[]]. cbn in C1, C2, C3, C4 |- *. order_message. client.
  eexists _, _. split; [done|]. split_and!; [|exact Hw|done..]. sent_order Hw decode_seq516.
Qed.

Lemma sendModify_run oid qty price px c :
  counters_ok (cl_session c) → fromDouble price = Some px → oid ∈u 64 → qty ∈u 32 →
  ∃ c' m, sendModify system broken stack oid qty price c = Some (tt, c') ∧ sends_order c c' 515 (sbe_bytes m) ∧
    sbe_wf m ∧ OrderCancelReplaceRequest515.orderID m = oid ∧ OrderCancelReplaceRequest515.securityID m = 0 ∧
    OrderCancelReplaceRequest515.orderQty m = qty ∧ OrderCancelReplaceRequest515.price m = px.
Proof.
  intros [C1 C2 C3 C4] Hpx Hoid Hqty. unfold sendModify. rewrite Hpx. client. apply fromDouble_range in Hpx.
  destruct c as [[]]. cbn in C1, C2, C3, C4 |- *. order_message. client.
  eexists _, _. split; [done|]. split_and!; [|exact Hw|done..]. sent_order Hw decode_seq515.
Qed.

Lemma heartbeat_run c : counters_ok (cl_session c) →
  ∃ c', sendSequenceHeartbeat broken stack c = Some (tt, c') ∧ same_client c c' ∧
    nextOutSeqNo (cl_session c') = nextOutSeqNo (cl_session c) ∧
    written c' = written c ++ frame_bytes (sbe_bytes (Sequence506.mk (cs_uuid (cl_session c)) (nextOutSeqNo (cl_session c)) 0 0)).
Proof.
  intros [C1 C2 C3 C4]. unfold sendSequenceHeartbeat. client. destruct c as [[]]. cbn in C1, C2, C3, C4 |- *.
  order_message. client. eexists. split; [done|]. split_and!; try done. cbn. unfold frame_bytes. by rewrite <-app_assoc.
Qed.
End messages.

(** ** The handshake *)
Lemma asio_read_app n p rest c : incoming c = p ++ rest → n = length p → asio_read n c = Some (Some p, set_incoming rest c).
Proof.
  intros E ->. unfold asio_read. rewrite E, (proj2 (Nat.leb_le _ _)) by (rewrite length_app; lia).
  by rewrite take_app_length, drop_app_length.
Qed.

Lemma header_length_read n : 1 ≤ n ≤ kMaxBody → SOFH.decodeMessageLength (header_bytes n) 0 = Some (n + 6).
Proof. intros Hn. destruct (header_read n Hn) as (l & e & El & _ & Hl & _). unfold SOFH.decodeMessageLength. rewrite El. cbn. by f_equal. Qed.

Lemma payload_length n : 1 ≤ n ≤ kMaxBody → u32 (n + 6 - u32 (Z.of_nat SOFH.SIZE)) = n.
Proof. intros Hn. unfold kMaxBody in Hn. rewrite (wrapu_small 32 (Z.of_nat _)) by (unfold SOFH.SIZE; lia). unfold SOFH.SIZE. rewrite wrapu_small; lia. Qed.

Lemma read_reply_run buf d rest c :
  incoming c = frame_bytes d ++ rest → 1 ≤ Z.of_nat (length d) ≤ 4096 →
  read_reply buf c = Some (Some (d ++ drop (length d) buf), set_incoming rest c).
Proof.
  intros E Hd. unfold read_reply, frame_bytes in *. rewrite <-app_assoc in E.
  rewrite (cm_bind _ _ _ _ _ (asio_read_app _ _ _ _ E (eq_sym (header_bytes_length _)))).
  rewrite header_length_read by (unfold kMaxBody; lia). client. rewrite payload_length by (unfold kMaxBody; lia).
  rewrite (proj2 (Z.ltb_ge _ _)) by lia.
  assert (incoming (set_incoming (d ++ rest) c) = d ++ rest) as E' by done.
  rewrite (cm_bind _ _ _ _ _ (asio_read_app (Z.to_nat (Z.of_nat (length d))) _ _ _ E' ltac:(lia))). done.
Qed.

Section handshake.
Context (steady system : nat → Z) (broken : nat → option nat) (stack : list byte) (Hb : ∀ n, broken n = None) (Hs : length stack = 4096%nat).

(** The two messages of a client in its initial state. *)
Definition neg_msg : Negotiate500.t :=
  Negotiate500.mk (replicate 32 Init.Byte.x00) (fixed "TestClient" 20) (u64 (steady 0)) (u64 (system 1)) (fixed "T01" 3) (fixed "TEST" 5) 1 0.
Definition est_msg : Establish503.t :=
  Establish503.mk (replicate 32 Init.Byte.x00) (fixed "TestClient" 20) (u64 (steady 0)) (u64 (system 2)) (fixed "T01" 3) (fixed "TEST" 5) 30000 1 0.

Lemma neg_msg_wf : sbe_wf neg_msg.
Proof.
  clear Hb Hs. pose proof (wrapu_range 64 (steady 0) ltac:(lia)). pose proof (wrapu_range 64 (system 1) ltac:(lia)).
  unfold neg_msg, sbe_wf. cbn. unfold Negotiate500.wf. cbn. rewrite !fixed_length. split_and!; first [done|lia].
Qed.
Lemma est_msg_wf : sbe_wf est_msg.
Proof.
  clear Hb Hs. pose proof (wrapu_range 64 (steady 0) ltac:(lia)). pose proof (wrapu_range 64 (system 2) ltac:(lia)).
  unfold est_msg, sbe_wf. cbn. unfold Establish503.wf. cbn. rewrite !fixed_length. split_and!; first [done|lia].
Qed.

(** The session once established. *)
Definition established_session (ack : EstablishmentAck504.t) : ClientSession :=
  mkClientSession (u64 (steady 0)) 1 (EstablishmentAck504.nextSeqNo ack) (EstablishmentAck504.keepAliveInterval ack) "Established" 1 1 ∅ 0 0 0 0 0 0.

Lemma handshake_run (resp : NegotiationResponse501.t) (ack : EstablishmentAck504.t) rest :
  sbe_wf resp → sbe_wf ack →
  let c := Client_init (frame_bytes (sbe_bytes resp) ++ frame_bytes (sbe_bytes ack) ++ rest) in
  ∃ c', performHandshake steady system broken stack c = Some (true, c') ∧
    written c' = frame_bytes (sbe_bytes neg_msg) ++ frame_bytes (sbe_bytes est_msg) ∧ incoming c' = rest ∧
    cl_session c' = established_session ack ∧ g_running c' = true ∧ length (payload c') = Z.to_nat 65536 ∧ printed c' = [].
Proof.
  intros Hwr Hwa c. unfold performHandshake. client. cbn [c Client_init cl_reads tick on_session].
  pose proof (sbe_bytes_length _ Hwr) as Lr. pose proof (sbe_bytes_length _ Hwa) as La.
  rewrite (cm_bind _ _ _ _ _ (client_sends_message broken Hb neg_msg stack _ neg_msg_wf ltac:(rewrite Hs; apply Nat.leb_le; done) ltac:(by apply Z.leb_le))).
  client.
  match goal with |- context [(read_reply ?b ≫= _) ?c] =>
    rewrite (cm_bind _ _ _ _ _ (read_reply_run b (sbe_bytes resp) (frame_bytes (sbe_bytes ack) ++ rest) c eq_refl ltac:(rewrite Lr; split; by apply Z.leb_le))) end.
  match goal with |- context [sbe_bytes resp ++ ?d] => set (tail := d) end.
  pose proof (sbe_template_spec resp [] tail Hwr) as Ht. pose proof (sbe_decode_spec resp [] tail Hwr) as Hd. cbn [app length] in Ht, Hd.
  rewrite Ht. client. cbn [negb]. change (sbe_template =? NegotiationResponse501.TEMPLATE_ID) with true. cbn [negb].
  change (NegotiationResponse501.decode (sbe_bytes resp ++ tail) 0) with (sbe_decode (M := NegotiationResponse501.t) (sbe_bytes resp ++ tail) 0).
  rewrite Hd. client. cbn [cl_reads tick on_session set_incoming sent add_written cl_session].
  match goal with |- context [send_encoded _ ?m ?buf] => change m with est_msg;
    rewrite (cm_bind _ _ _ _ _ (client_sends_message broken Hb est_msg buf _ est_msg_wf
      ltac:(rewrite length_app, Lr; unfold tail; rewrite length_drop, length_app, length_drop, Hs, Lr, (sbe_bytes_length _ neg_msg_wf); apply Nat.leb_le; done)
      ltac:(by apply Z.leb_le))) end.
  client.
  match goal with |- context [(read_reply ?b ≫= _) ?c] =>
    rewrite (cm_bind _ _ _ _ _ (read_reply_run b (sbe_bytes ack) rest c eq_refl ltac:(rewrite La; split; by apply Z.leb_le))) end.
  match goal with |- context [sbe_bytes ack ++ ?d] => set (tail' := d) end.
  pose proof (sbe_template_spec ack [] tail' Hwa) as Ht'. pose proof (sbe_decode_spec ack [] tail' Hwa) as Hd'. cbn [app length] in Ht', Hd'.
  rewrite Ht'. client. change (sbe_template =? EstablishmentAck504.TEMPLATE_ID) with true. cbn [negb].
  change (EstablishmentAck504.decode (sbe_bytes ack ++ tail') 0) with (sbe_decode (M := EstablishmentAck504.t) (sbe_bytes ack ++ tail') 0).
  rewrite Hd'. client. eexists. split; [done|]. split_and!; try done.
Qed.
End handshake.

(** ** The session's side *)
Section server.
Context (steady system : nat → Z) (lib : openssl).
Local Abbreviation step := (SessionStep.step steady system lib).

Lemma step_negotiate_inv r data r' neg :
  step r (Receive data) r' → template data = Some 500 → (8 ≤ length data)%nat → state_ (sess r) = Connected →
  Negotiate500.decode data 0 = Some neg → authentic lib (sess r) data = true →
  r' = after_send steady (sbe_bytes (NegotiationResponse501.mk (uuid_ (sess r)) (Negotiate500.sendingTime neg) 0 0 0 0 0))
         (upd (set_state Negotiated) (recv steady r)).
Proof.
  intros Hst Ht Hl Hs Hd Ha. inversion Hst; simplify_eq; try lia; try congruence; try (exfalso; unfold ignored in *; rewrite Hs in *; naive_solver (first [lia | set_solver])).
Qed.

Lemma step_establish_inv r data r' est :
  step r (Receive data) r' → template data = Some 503 → (8 ≤ length data)%nat → state_ (sess r) = Negotiated →
  Establish503.decode data 0 = Some est → authentic lib (sess r) data = true →
  r' = after_send steady (sbe_bytes (EstablishmentAck504.mk (uuid_ (sess r)) (Establish503.sendingTime est)
         (u16 (clamp_keep_alive (Establish503.keepAliveInterval est))) (next_out_seq_ (sess r)) 0 0)) (establish steady est (recv steady r)).
Proof.
  intros Hst Ht Hl Hs Hd Ha. inversion Hst; simplify_eq; try lia; try congruence; try (exfalso; unfold ignored in *; rewrite Hs in *; naive_solver (first [lia | set_solver])).
Qed.

Lemma step_sequence_inv r data r' :
  step r (Receive data) r' → template data = Some 506 → (8 ≤ length data)%nat → r' = recv steady r.
Proof. intros Hst Ht Hl. inversion Hst; simplify_eq; try lia; try done; try (exfalso; naive_solver (first [lia | set_solver])). Qed.

(** Whole messages are complete. *)
Lemma sent_complete {M} `{SbeCodecOk M} (m : M) :
  sbe_wf m → (8 + body_read (sbe_template (M := M)) ≤ sbe_encodedLength m)%nat → Z.of_nat (sbe_encodedLength m) < 2 ^ 64 →
  complete (sbe_bytes m) ∧ template (sbe_bytes m) = Some (sbe_template (M := M)) ∧ (8 ≤ length (sbe_bytes m))%nat ∧ sbe_decode (sbe_bytes m) 0 = Some m.
Proof.
  intros Hw Hl Hz. pose proof (sbe_bytes_length m Hw) as HL. pose proof (sbe_template_spec m [] [] Hw) as Ht.
  pose proof (sbe_decode_spec m [] [] Hw) as Hd. cbn [app length] in Ht, Hd. rewrite app_nil_r in Ht, Hd.
  split; [|split; [exact Ht|split; [lia|exact Hd]]].
  split; [by rewrite HL|]. right. exists (sbe_template (M := M)). split; [exact Ht|by rewrite HL].
Qed.

(** A session that waits for its client, without authentication. *)
Definition waiting (u : Z) (t0 t1 : Z) (n : nat) : Run := mkRun (Session_init u true true t0 t1) n [].

Lemma session_accepts u t0 t1 n neg est :
  sbe_wf neg → sbe_wf est → u ∈u 64 →
  let resp := NegotiationResponse501.mk u (Negotiate500.sendingTime neg) 0 0 0 0 0 in
  let ack := EstablishmentAck504.mk u (Establish503.sendingTime est) (u16 (clamp_keep_alive (Establish503.keepAliveInterval est))) 1 0 0 in
  sbe_wf resp ∧ sbe_wf ack ∧
  ∃ r, exec_all steady system lib [Receive (sbe_bytes neg); Receive (sbe_bytes est)] (waiting u t0 t1 n) = Some (tt, r) ∧
    outs r = [ToWire u (sbe_bytes resp); ToWire u (sbe_bytes ack)] ∧ session_inv (sess r) ∧
    uuid_ (sess r) = u ∧ send_cb_ (sess r) = true ∧ app_cb_ (sess r) = true ∧ state_ (sess r) = Established ∧
    next_in_seq_ (sess r) = Establish503.nextSeqNo est ∧ next_out_seq_ (sess r) = 1 ∧
    keep_alive_interval_ms_ (sess r) = clamp_keep_alive (Establish503.keepAliveInterval est).
Proof.
  intros Hn He Hu resp ack.
  assert (sbe_wf resp) as Hwr by (unfold resp, sbe_wf; cbn; unfold NegotiationResponse501.wf; cbn; destruct Hn as (_ & _ & _ & ? & _); split_and!; first [done|lia]).
  assert (sbe_wf ack) as Hwa.
  { pose proof (wrapu_range 16 (clamp_keep_alive (Establish503.keepAliveInterval est)) ltac:(lia)).
    unfold ack, sbe_wf. cbn. unfold EstablishmentAck504.wf. cbn. destruct He as (_ & _ & _ & ? & _). split_and!; first [done|lia]. }
  split; [done|]. split; [done|].
  destruct (sent_complete neg Hn ltac:(apply Nat.leb_le; done) ltac:(by apply Z.ltb_lt)) as (Cn & Tn & Ln & Dn).
  destruct (sent_complete est He ltac:(apply Nat.leb_le; done) ltac:(by apply Z.ltb_lt)) as (Ce & Te & Le & De).
  destruct (exec_inv steady system lib (Receive (sbe_bytes neg)) (waiting u t0 t1 n) Cn (Session_init_inv _ _ _ _ _)) as (r1 & E1 & S1 & I1).
  pose proof (step_negotiate_inv _ _ _ neg S1 Tn Ln eq_refl Dn eq_refl) as R1.
  destruct (exec_inv steady system lib (Receive (sbe_bytes est)) r1 Ce I1) as (r2 & E2 & S2 & I2).
  pose proof (step_establish_inv _ _ _ est S2 Te Le ltac:(by rewrite R1) De ltac:(by rewrite R1)) as R2.
  exists r2. split.
  { change (exec_all _ _ _ _ _) with ((exec steady system lib (Receive (sbe_bytes neg)) ≫= λ _, exec steady system lib (Receive (sbe_bytes est)) ≫= λ _, mret tt) (waiting u t0 t1 n)).
    rewrite (bind_run _ _ _ _ _ E1). by rewrite (bind_run _ _ _ _ _ E2). }
  rewrite R2, R1 in *. split_and!; try done.
Qed.
End server.

(** ** Client and session in step *)
(** What happens at the client: a line is typed, the heartbeat thread wakes. *)
Inductive ClientInput := Typed (line : list byte) | Wake.

(** *** What a line says

    The commands by their texts: words, numbers and blanks between them. A price is
    its whole part and its decimals, which may be missing together with the point. *)
Definition Decimal : Type := Z * list Z.
Definition units (px : Decimal) : Z := foldl (λ v d, 10 * v + d) px.1 px.2.
Definition decimal_ok (px : Decimal) : Prop := 0 ≤ px.1 ∧ Forall (λ d, 0 ≤ d < 10) px.2.
Definition digit_byte (d : Z) : byte := Ascii.byte_of_ascii (pretty_N_char (Z.to_N d)).
Definition decimals (ds : list Z) : list byte := match ds with [] => [] | _ => chars "." ++ (digit_byte <$> ds) end.
Definition price_text (px : Decimal) : list byte := chars (pretty px.1) ++ decimals px.2.

Definition blank (c : byte) : Prop := c = Init.Byte.x20 ∨ c = Init.Byte.x09.
Definition gap (g : list byte) : Prop := g ≠ [] ∧ Forall blank g.
(** Behind a word or number: the end of the line, or a blank and anything. *)
Definition ended (t : list byte) : Prop := match t with [] => True | c :: _ => blank c end.

Inductive Intent :=
| WantOrder (s : Side) (sec qty : Z) (px : Decimal)
| WantCancel (oid : Z)
| WantModify (oid qty : Z) (px : Decimal).

Definition command (g0 : list byte) (word : string) (g1 : list byte) (id : Z) (rest : list byte) : list byte :=
  g0 ++ chars word ++ g1 ++ chars (pretty id) ++ rest.
Definition quantity_price (g2 : list byte) (qty : Z) (g3 : list byte) (px : Decimal) (t : list byte) : list byte :=
  g2 ++ chars (pretty qty) ++ g3 ++ price_text px ++ t.

(** The mantissa the price becomes: the double nearest to the number typed, times
    10^9 in double arithmetic, cut to an integer. On the grid of quarters, below
    2^21, nothing is lost. *)
Definition wire_price (px : Decimal) : option Z := to_int64 (double_mul (nearest (units px) (length px.2)) one_e9).
Definition price_sent (px : Decimal) (v : Z) : Prop :=
  wire_price px = Some v ∧ ∀ n, 0 ≤ n < 2 ^ 23 → 4 * units px = n * 10 ^ Z.of_nat (length px.2) → v = n * 250000000.

(** What a message with this template id and these bytes says. *)
Definition intent_shows (it : Intent) (m : Z * list byte) : Prop :=
  match it with
  | WantOrder s sec qty px => m.1 = 514 ∧ ∃ n, NewOrderSingle514.decode m.2 0 = Some n ∧ NewOrderSingle514.securityID n = sec ∧
      NewOrderSingle514.orderQty n = qty ∧ price_sent px (NewOrderSingle514.price n) ∧
      NewOrderSingle514.side n = match s with Sell => 2 | _ => 1 end
  | WantCancel oid => m.1 = 516 ∧ ∃ n, OrderCancelRequest516.decode m.2 0 = Some n ∧ OrderCancelRequest516.orderID n = oid ∧
      OrderCancelRequest516.securityID n = 0
  | WantModify oid qty px => m.1 = 515 ∧ ∃ n, OrderCancelReplaceRequest515.decode m.2 0 = Some n ∧
      OrderCancelReplaceRequest515.orderID n = oid ∧ OrderCancelReplaceRequest515.securityID n = 0 ∧
      OrderCancelReplaceRequest515.orderQty n = qty ∧ price_sent px (OrderCancelReplaceRequest515.price n)
  end.

Inductive says : list byte → Intent → Prop :=
| says_order word s sec qty px g0 g1 g2 g3 t :
    (word, s) ∈ [("buy", Buy); ("sell", Sell)]%string → sec ∈i 32 → qty ∈u 32 → decimal_ok px → is_Some (wire_price px) →
    Forall blank g0 → gap g1 → gap g2 → gap g3 → ended t →
    says (command g0 word g1 sec (quantity_price g2 qty g3 px t)) (WantOrder s sec qty px)
| says_modify oid qty px g0 g1 g2 g3 t :
    oid ∈u 64 → qty ∈u 32 → decimal_ok px → is_Some (wire_price px) →
    Forall blank g0 → gap g1 → gap g2 → gap g3 → ended t →
    says (command g0 "modify" g1 oid (quantity_price g2 qty g3 px t)) (WantModify oid qty px)
| says_cancel oid g0 g1 t :
    oid ∈u 64 → Forall blank g0 → gap g1 → ended t → says (command g0 "cancel" g1 oid t) (WantCancel oid).

(** Lines that ask for nothing: blank, another word (but not quit), or a command
    whose arguments are missing. *)
Definition order_words : list string := ["buy"; "sell"; "cancel"; "modify"]%string.
Inductive idle : list byte → Prop :=
| idle_blank line : Forall blank line → idle line
| idle_word g word t : Forall blank g → word ≠ [] → Forall (λ c, 33 ≤ byte.unsigned c) word → word ∉ chars <$> ("quit"%string :: order_words) →
    ended t → idle (g ++ word ++ t)
| idle_unfinished g word t : Forall blank g → word ∈ order_words → Forall blank t → idle (g ++ chars word ++ t).

(** What a sequence of inputs asks for. *)
Inductive asks : list ClientInput → list Intent → Prop :=
| asks_nothing : asks [] []
| asks_wake l its : asks l its → asks (Wake :: l) its
| asks_idle line l its : idle line → asks l its → asks (Typed line :: l) its
| asks_order line it l its : says line it → asks l its → asks (Typed line :: l) (it :: its).

(** *** The client reads what the line says *)
Lemma blank_space c : blank c → TextOps.isspace c = true ∧ TextOps.digit_value c = None.
Proof. by intros [-> | ->]. Qed.

Lemma skip_blanks g s : Forall blank g → TextOps.skip_spaces (g ++ s) = TextOps.skip_spaces s.
Proof. induction 1 as [|c g [Hc _]%blank_space _ IH]; [done|]. cbn [app TextOps.skip_spaces]. by rewrite Hc. Qed.

Lemma readers_skip g s : Forall blank g →
  (∀ w, TextOps.read_signed w (g ++ s) = TextOps.read_signed w s) ∧ (∀ w, TextOps.read_unsigned w (g ++ s) = TextOps.read_unsigned w s) ∧
  TextOps.read_double (g ++ s) = TextOps.read_double s ∧ TextOps.read_word (g ++ s) = TextOps.read_word s.
Proof.
  intros Hg. unfold TextOps.read_signed, TextOps.read_unsigned, TextOps.read_double, TextOps.read_word. by rewrite skip_blanks.
Qed.

Lemma ended_stops t : ended t → stops t.
Proof. unfold ended, stops. destruct t as [|c t]; [done|]. by intros [_ Hc]%blank_space. Qed.
Lemma gap_stops g s : gap g → stops (g ++ s).
Proof. intros [Hn Hg]. destruct g as [|c g]; [done|]. apply Forall_cons in Hg as [[_ Hc]%blank_space _]. done. Qed.
Lemma blank_ended t : Forall blank t → ended t.
Proof. by destruct 1. Qed.
Lemma gap_ended g s : gap g → ended (g ++ s).
Proof. intros [Hn Hg]. destruct g as [|c g]; [done|]. by apply Forall_cons in Hg as [? _]. Qed.

Lemma span_word_at word t : Forall (λ c, 33 ≤ byte.unsigned c) word → ended t → TextOps.span_word (word ++ t) = (word, t).
Proof.
  intros Hw Ht. induction Hw as [|c word Hc _ IH]; cbn [app].
  - destruct t as [|c t]; [done|]. cbn. by destruct (blank_space c Ht) as [-> _].
  - cbn [TextOps.span_word]. assert (TextOps.isspace c = false) as ->; [|by rewrite IH].
    unfold TextOps.isspace. rewrite (proj2 (Z.eqb_neq _ 32)), (proj2 (Z.leb_gt _ 13)), andb_false_r by lia. done.
Qed.

Lemma read_word_at g word t : Forall blank g → word ≠ [] → Forall (λ c, 33 ≤ byte.unsigned c) word → ended t →
  TextOps.read_word (g ++ word ++ t) = Some (word, t).
Proof.
  intros Hg Hn Hw Ht. destruct (readers_skip g (word ++ t) Hg) as (_ & _ & _ & ->). unfold TextOps.read_word.
  assert (TextOps.skip_spaces (word ++ t) = word ++ t) as ->.
  { destruct Hw as [|c word Hc _]; [done|]. cbn [app TextOps.skip_spaces]. unfold TextOps.isspace.
    rewrite (proj2 (Z.eqb_neq _ 32)), (proj2 (Z.leb_gt _ 13)), andb_false_r by lia. done. }
  rewrite span_word_at by done. by destruct word.
Qed.

Lemma order_word_at g word t : Forall blank g → word ∈ order_words → ended t → TextOps.read_word (g ++ chars word ++ t) = Some (chars word, t).
Proof.
  intros Hg Hw Ht. apply read_word_at; [done| | |done];
    repeat (apply elem_of_cons in Hw as [->|Hw]; [try done; by repeat constructor|]); by apply elem_of_nil in Hw.
Qed.

Lemma span_decimals ds t : Forall (λ d, 0 ≤ d < 10) ds → stops t → ∀ v,
  TextOps.span_digits v ((digit_byte <$> ds) ++ t) = (foldl (λ v d, 10 * v + d) v ds, t).
Proof.
  intros Hds Ht. induction Hds as [|d ds Hd _ IH]; intros v; [by apply span_stops|]. cbn [fmap list_fmap app TextOps.span_digits foldl].
  unfold digit_byte at 1. rewrite digit_char by lia. by rewrite Z2N.id, IH by lia.
Qed.

(** A double ends where its digits do. *)
Lemma no_exponent t : ended t → match t with
    | c :: t' => if (byte.unsigned c =? 101) || (byte.unsigned c =? 69) then
        let '(eneg, t) := TextOps.read_sign t' in
        _ ← head t ≫= TextOps.digit_value; let '(e, rest) := TextOps.span_digits 0 t in Some (if eneg then - e else e, rest)
        else Some (0, t)
    | [] => Some (0, []) end = Some (0, t).
Proof. unfold ended, blank. destruct t as [|c t]; [done|]. intros [-> | ->]; reflexivity. Qed.

Lemma scaled_nearest m k : 0 ≤ m → TextOps.scaled false m (0 - Z.of_nat k) = nearest m k.
Proof.
  intros Hm. unfold TextOps.scaled, nearest. destruct k as [|k]; [change (0 - Z.of_nat 0) with 0; change (10 ^ 0) with 1; by rewrite Z.mul_1_r|].
  rewrite (proj2 (Z.leb_gt _ _)) by lia. replace (- (0 - Z.of_nat (S k))) with (Z.of_nat (S k)) by lia. reflexivity.
Qed.

Lemma units_nonneg px : decimal_ok px → 0 ≤ units px.
Proof.
  destruct px as [w ds]. unfold decimal_ok, units. cbn [fst snd]. intros [Hw Hds]. revert w Hw.
  induction Hds as [|d ds Hd _ IH]; intros w Hw; cbn [foldl]; [done|]. apply IH. lia.
Qed.

(** The digits of a price, and how many of them are decimals. *)
Lemma price_digits px t : decimal_ok px → ended t →
  ∃ s1, TextOps.skip_spaces (price_text px ++ t) = price_text px ++ t ∧ TextOps.read_sign (price_text px ++ t) = (false, price_text px ++ t) ∧
    TextOps.span_digits 0 (price_text px ++ t) = (px.1, s1) ∧ (length s1 < length (price_text px ++ t))%nat ∧
    match s1 with
    | c :: t0 => if byte.unsigned c =? 46 then let '(m, t') := TextOps.span_digits px.1 t0 in (m, (length t0 - length t')%nat, t') else (px.1, O, s1)
    | [] => (px.1, O, [])
    end = (units px, length px.2, t).
Proof.
  destruct px as [w ds]. intros [Hw Hds] Ht. cbn [fst snd] in *. unfold price_text. cbn [fst snd]. rewrite <-!app_assoc.
  replace (pretty w) with (pretty (Z.to_N w)) by (destruct w; [done..|lia]).
  pose proof (proj2 (pretty_digits (Z.to_N w))) as Hn.
  exists (decimals ds ++ t).
  destruct (printed_number (Z.to_N w) (decimals ds ++ t)) as (-> & -> & _ & ->).
  { destruct ds; [by apply ended_stops|done]. }
  rewrite Z2N.id by done. split; [done|]. split; [done|]. split; [done|]. split.
  { rewrite (length_app (chars _)). destruct (chars (pretty (Z.to_N w))); [done|cbn [length]; lia]. }
  destruct ds as [|d ds]; [cbn [decimals app]; destruct t as [|c t]; [done|]; by destruct Ht as [-> | ->]|].
  unfold decimals. change (chars ".") with [Init.Byte.x2e]. cbn [app]. change (byte.unsigned Init.Byte.x2e =? 46) with true. cbv iota.
  rewrite (span_decimals _ t Hds (ended_stops _ Ht) w). do 2 f_equal. rewrite length_app, length_fmap. lia.
Qed.

Lemma read_double_at px t : decimal_ok px → is_Some (wire_price px) → ended t →
  TextOps.read_double (price_text px ++ t) = Some (nearest (units px) (length px.2), t).
Proof.
  intros Hd Hp Ht. destruct (price_digits px t Hd Ht) as (s1 & E1 & E2 & E3 & Hl & E4).
  unfold TextOps.read_double. rewrite E1, E2, E3, E4, (proj2 (Nat.eqb_neq _ _)), no_exponent by (done || lia). cbn [mbind option_bind].
  rewrite scaled_nearest by by apply units_nonneg. unfold wire_price in Hp.
  destruct (nearest (units px) (length px.2)); try done; by destruct Hp.
Qed.

Lemma order_args_at (id : Z) g2 qty g3 px t :
  qty ∈u 32 → decimal_ok px → is_Some (wire_price px) → gap g2 → gap g3 → ended t →
  order_args (Some (id, quantity_price g2 qty g3 px t)) = Some (id, qty, nearest (units px) (length px.2)).
Proof.
  intros Hq Hd Hp [Hn2 H2] [Hn3 H3] Ht. unfold order_args, quantity_price. cbn [mbind option_bind].
  destruct (readers_skip g2 (chars (pretty qty) ++ g3 ++ price_text px ++ t) H2) as (_ & -> & _).
  rewrite read_unsigned_pretty by (done || by apply gap_stops). cbn [mbind option_bind].
  destruct (readers_skip g3 (price_text px ++ t) H3) as (_ & _ & -> & _). by rewrite read_double_at.
Qed.

Definition command_of (it : Intent) : Command :=
  match it with
  | WantOrder s sec qty px => let args := Some (sec, qty, nearest (units px) (length px.2)) in match s with Sell => CmdSell args | _ => CmdBuy args end
  | WantCancel oid => CmdCancel (Some oid)
  | WantModify oid qty px => CmdModify (Some (oid, qty, nearest (units px) (length px.2)))
  end.

Lemma parse_says line it : says line it → parse_line line = command_of it.
Proof.
  destruct 1 as [word s sec qty px g0 g1 g2 g3 t Hw Hs Hq Hd Hp H0 H1 H2 H3 Ht|oid qty px g0 g1 g2 g3 t Ho Hq Hd Hp H0 H1 H2 H3 Ht|oid g0 g1 t Ho H0 H1 Ht];
    unfold parse_line, command; rewrite order_word_at by (done || (by apply gap_ended) || set_solver).
  - destruct (readers_skip g1 (chars (pretty sec) ++ quantity_price g2 qty g3 px t) (proj2 H1)) as (-> & _).
    rewrite read_signed_pretty by (done || by apply gap_stops). rewrite order_args_at by done.
    apply elem_of_cons in Hw as [[= -> ->]|[= -> ->]%list_elem_of_singleton]; done.
  - destruct (readers_skip g1 (chars (pretty oid) ++ quantity_price g2 qty g3 px t) (proj2 H1)) as (_ & -> & _).
    rewrite read_unsigned_pretty by (done || by apply gap_stops). rewrite order_args_at by done. done.
  - destruct (readers_skip g1 (chars (pretty oid) ++ t) (proj2 H1)) as (_ & -> & _).
    rewrite read_unsigned_pretty by (done || by apply ended_stops). done.
Qed.

(** A price that is on a grid of tenths need not arrive on it: 2050.2 becomes
    2050.199999999. And a negative quantity is taken for a large one. *)
Example typed_price_truncated :
  match parse_line (chars "buy 13 1 2050.2") with CmdBuy (Some (_, _, px)) => fromDouble px | _ => None end = Some 2050199999999.
Proof. by vm_compute. Qed.
Example typed_negative_quantity :
  match parse_line (chars "sell 1 -5 10") with CmdSell (Some (_, qty, _)) => Some qty | _ => None end = Some 4294967291.
Proof. by vm_compute. Qed.

Lemma read_none_blank g : Forall blank g →
  (∀ w, TextOps.read_signed w g = None) ∧ (∀ w, TextOps.read_unsigned w g = None) ∧ TextOps.read_word g = None.
Proof.
  intros Hg. rewrite <-(app_nil_r g). destruct (readers_skip g [] Hg) as (Es & Eu & _ & ->).
  split; [by intros; rewrite Es|]. split; [by intros; rewrite Eu|done].
Qed.

(** An idle line is a command without arguments, or none of the commands. *)
Lemma parse_idle line : idle line →
  parse_line line ∈ [CmdBlank; CmdBuy None; CmdSell None; CmdCancel None; CmdModify None; CmdStatus; CmdOrders; CmdUnknown].
Proof.
  destruct 1 as [line Hl|g word t Hg Hn Hw Hi Ht|g word t Hg Hw Ht]; unfold parse_line.
  - destruct (read_none_blank line Hl) as (_ & _ & ->). set_solver.
  - rewrite read_word_at by done. unfold order_words in Hi. cbn [fmap list_fmap] in Hi. rewrite !not_elem_of_cons in Hi.
    destruct Hi as (? & ? & ? & ? & ? & _). do 4 (rewrite bool_decide_eq_false_2 by done). cbn [orb].
    repeat case_bool_decide; first [done | set_solver].
  - rewrite order_word_at by (done || by apply blank_ended). destruct (read_none_blank t Ht) as (Es & Eu & _).
    repeat (apply elem_of_cons in Hw as [->|Hw]; [cbn; rewrite ?Es, ?Eu; cbn; set_solver|]). by apply elem_of_nil in Hw.
Qed.

Record in_step (c : Client) (r : Session.Run) : Prop := {
  is_counters : counters_ok (cl_session c);
  is_running : g_running c = true;
  is_state : cs_state (cl_session c) = "Established"%string;
  is_inv : session_inv (sess r);
  is_send : send_cb_ (sess r) = true;
  is_app : app_cb_ (sess r) = true;
  is_established : state_ (sess r) = Established;
  is_number : nextOutSeqNo (cl_session c) = next_in_seq_ (sess r);
}.

Section in_step.
Context (steady system : nat → Z) (lib : openssl).
Context (csystem : nat → Z) (broken : nat → option nat) (stack : list byte) (Hb : ∀ n, broken n = None) (Hs : length stack = 4096%nat).

Definition client_input (i : ClientInput) : CM unit :=
  match i with
  | Typed line => _ ← run_command csystem broken stack (parse_line line); mret tt
  | Wake => _ ← keepalive_round broken stack; mret tt
  end.
Fixpoint drive (l : list ClientInput) : CM unit :=
  match l with [] => mret tt | i :: l => _ ← client_input i; drive l end.

(** The payloads of an input, what the session makes of them and hands to the gateway. *)
Definition input_result (c : Client) (r : Session.Run) (c' : Client) (ps : list (list byte)) (r' : Session.Run) (msgs : list (Z * list byte)) : Prop :=
  written c' = written c ++ concat (frame_bytes <$> ps) ∧ Forall sendable ps ∧
  exec_all steady system lib (Receive <$> ps) r = Some (tt, r') ∧ uuid_ (sess r') = uuid_ (sess r) ∧
  outs r' = outs r ++ ((λ m, ToGateway (uuid_ (sess r)) m.1 m.2) <$> msgs) ∧
  next_in_seq_ (sess r') = next_in_seq_ (sess r) + Z.of_nat (length msgs) ∧ in_step c' r'.

Lemma nothing_sent c r : in_step c r → input_result c r c [] r [].
Proof. intros H. split_and!; rewrite ?app_nil_r; try done. cbn. lia. Qed.

Lemma order_in_step c r c' t p : in_step c r → nextOutSeqNo (cl_session c) < 2 ^ 32 - 1 → sends_order c c' t p → sendable p →
  ∃ r', input_result c r c' [p] r' [(t, p)].
Proof.
  intros [I1 I2 I3 I4 I5 I6 I7 I8] Hq (Hw & (S1 & S2 & S3 & S4 & S5 & S6 & S7 & S8) & Hn & Ham) Hp.
  pose proof (Ham Hq) as [A1 A2 A3 A4 A5 A6]. cbn [fst snd] in *.
  destruct (exec_inv steady system lib (Receive p) r A4 I4) as (r' & E & Hst & Hi).
  pose proof (step_app_inv steady system lib r p r' t _ Hst A1 A3 A2 I7 A5) as R.
  pose proof (inv_in _ I4) as Hin. set (q := nextOutSeqNo (cl_session c)) in *.
  assert (r' = put [ToGateway (uuid_ (sess r)) t p] (upd (set_next_in_seq (q + 1)) (recv steady r))) as R'.
  { rewrite R. unfold count_gap, count_seq, forward. cbn. rewrite I8, Z.ltb_irrefl. cbn. rewrite Z.eqb_refl. cbn. rewrite I6.
    rewrite wrapu_small by lia. done. }
  exists r'. split_and!.
  - rewrite Hw. cbn. by rewrite app_nil_r.
  - by constructor.
  - cbn [fmap list_fmap exec_all]. rewrite (bind_run _ _ _ _ _ E). done.
  - by rewrite R'.
  - by rewrite R'.
  - rewrite R'. cbn. lia.
  - split; [done|by rewrite S1|by rewrite S5|done|by rewrite R'|by rewrite R'|by rewrite R'|].
    rewrite Hn, R'. cbn. rewrite wrapu_small; lia.
Qed.

Lemma sendable_bytes {M} `{SbeCodecOk M} (m : M) : sbe_wf m → 1 ≤ Z.of_nat (sbe_encodedLength m) ≤ kMaxBody → sendable (sbe_bytes m).
Proof. intros Hw Hl. unfold sendable. by rewrite sbe_bytes_length. Qed.

Lemma decode_sent {M} `{SbeCodecOk M} (m : M) : sbe_wf m → sbe_decode (sbe_bytes m) 0 = Some m.
Proof. intros Hw. pose proof (sbe_decode_spec m [] [] Hw) as H1. cbn [app length] in H1. by rewrite app_nil_r in H1. Qed.

(** An input that asks for [its]. *)
Definition input_step (i : ClientInput) (its : list Intent) (c : Client) (r : Session.Run) : Prop :=
  ∃ c' ps r' msgs, client_input i c = Some (tt, c') ∧ input_result c r c' ps r' msgs ∧ Forall2 intent_shows its msgs.

Lemma idle_in_step line c r : idle line → in_step c r → input_step (Typed line) [] c r.
Proof.
  intros Hl%parse_idle Hi. exists c, [], r, []. split; [|split; [by apply nothing_sent|constructor]].
  cbn. repeat (apply elem_of_cons in Hl as [->|Hl]; [done|]). by apply elem_of_nil in Hl.
Qed.

Lemma order_in {M} `{SbeCodecOk M} i it c r c' t (m : M) :
  in_step c r → nextOutSeqNo (cl_session c) < 2 ^ 32 - 1 → client_input i c = Some (tt, c') →
  sends_order c c' t (sbe_bytes m) → sbe_wf m → (1 <=? Z.of_nat (sbe_encodedLength m)) && (Z.of_nat (sbe_encodedLength m) <=? kMaxBody) = true →
  (sbe_decode (sbe_bytes m) 0 = Some m → intent_shows it (t, sbe_bytes m)) → input_step i [it] c r.
Proof.
  intros Hi Hq E Hsend Hw [?%Z.leb_le ?%Z.leb_le]%andb_true_iff Hshow.
  destruct (order_in_step c r c' t _ Hi Hq Hsend (sendable_bytes m Hw ltac:(lia))) as (r' & Hr).
  exists c', [sbe_bytes m], r', [(t, sbe_bytes m)]. split; [done|]. split; [done|].
  constructor; [by apply Hshow, decode_sent|constructor].
Qed.

Lemma price_arrives px v : wire_price px = Some v → price_sent px v.
Proof. intros E. split; [done|]. intros n Hn Hu. unfold wire_price in E. rewrite (quarters_exact n) in E by done. congruence. Qed.

Lemma says_in_step line it c r : says line it → in_step c r → nextOutSeqNo (cl_session c) < 2 ^ 32 - 1 → input_step (Typed line) [it] c r.
Proof.
  intros Hsay Hi Hq. pose proof (is_counters _ _ Hi) as Hc. pose proof (parse_says line it Hsay) as Hp.
  assert (∀ cmd c', command_of it = cmd → run_command csystem broken stack cmd c = Some (true, c') → client_input (Typed line) c = Some (tt, c')) as Hrun.
  { intros cmd c' <- E. cbn. rewrite Hp. by rewrite (cm_bind _ _ _ _ _ E). }
  destruct Hsay as [word s sec qty px g0 g1 g2 g3 t Hw Hs1 Hq1 Hd [v Hv] _ _ _ _ _|oid qty px g0 g1 g2 g3 t Ho Hq1 Hd [v Hv] _ _ _ _ _|oid g0 g1 t Ho _ _ _].
  - assert (s = Buy ∨ s = Sell) as Hs2 by (apply elem_of_cons in Hw as [[= _ ->]|[= _ ->]%list_elem_of_singleton]; auto).
    destruct (sendOrder_run csystem broken stack Hb Hs (Side_to_u8 s) sec qty _ v c Hc Hv ltac:(by destruct Hs2 as [-> | ->]) Hs1 Hq1)
      as (c' & m & E & Hsend & Hwf & M1 & M2 & M3 & M4 & _).
    eapply (order_in _ _ c r c' 514 m); try done.
    + apply (Hrun _ c' eq_refl). destruct Hs2 as [-> | ->]; cbn; by rewrite (cm_bind _ _ _ _ _ E).
    + intros Hdec. split; [done|]. exists m. rewrite M2. split_and!; try done; [by apply price_arrives|]. rewrite M4. by destruct Hs2 as [-> | ->].
  - destruct (sendModify_run csystem broken stack Hb Hs oid qty _ v c Hc Hv Ho Hq1) as (c' & m & E & Hsend & Hwf & M1 & M2 & M3 & M4).
    eapply (order_in _ _ c r c' 515 m); try done; [apply (Hrun _ c' eq_refl); cbn; by rewrite (cm_bind _ _ _ _ _ E)|].
    intros Hdec. split; [done|]. exists m. rewrite M4. split_and!; try done. by apply price_arrives.
  - destruct (sendCancel_run csystem broken stack Hb Hs oid c Hc Ho) as (c' & m & E & Hsend & Hwf & M1 & M2).
    eapply (order_in _ _ c r c' 516 m); try done; [apply (Hrun _ c' eq_refl); cbn; by rewrite (cm_bind _ _ _ _ _ E)|].
    intros Hdec. split; [done|]. by exists m.
Qed.

Lemma wake_in_step c r : in_step c r → input_step Wake [] c r.
Proof.
  intros Hi. pose proof (is_counters _ _ Hi) as Hc.
  unfold input_step. cbn [client_input]. unfold keepalive_round. client. unfold state_is. rewrite (is_running _ _ Hi), (is_state _ _ Hi). cbn [andb bool_decide].
  destruct (heartbeat_run broken stack Hb Hs c Hc) as (c' & E & HS & Hn & Hw). set (m := Sequence506.mk _ _ 0 0) in Hw.
  rewrite bool_decide_eq_true_2 by done. cbn [when]. rewrite (cm_bind _ _ _ _ _ E). client.
  assert (sbe_wf m) as Hwm by (destruct Hc as [? ? ? ?]; unfold m, sbe_wf; cbn; unfold Sequence506.wf; cbn; split_and!; first [done|lia]).
  destruct (sent_complete m Hwm ltac:(apply Nat.leb_le; done) ltac:(by apply Z.ltb_lt)) as (Cm & Tm & Lm & _).
  destruct (exec_inv steady system lib (Receive (sbe_bytes m)) r Cm (is_inv _ _ Hi)) as (r' & E' & Hst & Hi').
  pose proof (step_sequence_inv _ _ _ _ _ _ Hst Tm Lm) as R.
  exists c', [sbe_bytes m], r', []. split; [done|]. split; [|constructor].
  destruct HS as (S1 & S2 & S3 & S4 & S5 & S6 & S7 & S8). destruct Hi as [I1 I2 I3 I4 I5 I6 I7 I8].
  split_and!.
  - rewrite Hw. cbn. by rewrite app_nil_r.
  - constructor; [|constructor]. apply (sendable_bytes m Hwm). split; by apply Z.leb_le.
  - cbn [fmap list_fmap exec_all]. by rewrite (bind_run _ _ _ _ _ E').
  - by rewrite R.
  - rewrite R. cbn. by rewrite app_nil_r.
  - rewrite R. cbn. lia.
  - split; rewrite ?S1, ?S5, ?Hn; first [done | by rewrite R].
Qed.

Lemma exec_all_app cs1 cs2 r r1 : exec_all steady system lib cs1 r = Some (tt, r1) →
  exec_all steady system lib (cs1 ++ cs2) r = exec_all steady system lib cs2 r1.
Proof.
  revert r. induction cs1 as [|c cs1 IH]; intros r; cbn [exec_all app]; [by intros [= ->]|].
  unfold mbind, SM_bind. destruct (exec steady system lib c r) as [[[] r2]|]; cbn; [apply IH|done].
Qed.

Lemma drive_cons i its1 l its2 c r :
  input_step i its1 c r →
  (∀ c1 r1, in_step c1 r1 → nextOutSeqNo (cl_session c1) = nextOutSeqNo (cl_session c) + Z.of_nat (length its1) →
    ∃ c' ps r' msgs, drive l c1 = Some (tt, c') ∧ input_result c1 r1 c' ps r' msgs ∧ Forall2 intent_shows its2 msgs) →
  in_step c r →
  ∃ c' ps r' msgs, drive (i :: l) c = Some (tt, c') ∧ input_result c r c' ps r' msgs ∧ Forall2 intent_shows (its1 ++ its2) msgs.
Proof.
  intros (c1 & ps1 & r1 & msgs1 & E1 & (W1 & P1 & X1 & U1 & O1 & N1 & I1) & S1) Hl Hi.
  destruct (Hl c1 r1 I1) as (c2 & ps2 & r2 & msgs2 & E2 & (W2 & P2 & X2 & U2 & O2 & N2 & I2) & S2).
  { by rewrite (is_number _ _ I1), N1, <-(is_number _ _ Hi), (Forall2_length _ _ _ S1). }
  exists c2, (ps1 ++ ps2), r2, (msgs1 ++ msgs2). split; [cbn [drive]; by rewrite (cm_bind _ _ _ _ _ E1)|].
  split; [|by apply Forall2_app].
  split_and!; [rewrite W2, W1, fmap_app, concat_app; by rewrite app_assoc|by apply Forall_app| |by rewrite U2| | |done].
  - rewrite fmap_app. by rewrite (exec_all_app _ _ _ _ X1).
  - rewrite O2, O1, U1, fmap_app. by rewrite app_assoc.
  - rewrite N2, N1, length_app. lia.
Qed.

Lemma drive_in_step l its : asks l its → ∀ c r,
  in_step c r → nextOutSeqNo (cl_session c) + Z.of_nat (length its) < 2 ^ 32 →
  ∃ c' ps r' msgs, drive l c = Some (tt, c') ∧ input_result c r c' ps r' msgs ∧ Forall2 intent_shows its msgs.
Proof.
  induction 1 as [|l its _ IH|line l its Hidle _ IH|line it l its Hsay _ IH]; intros c r Hi Hq; cbn [length] in Hq.
  - exists c, [], r, []. split; [done|]. split; [by apply nothing_sent|constructor].
  - apply (drive_cons _ []); [by apply wake_in_step| |done]. intros c1 r1 Hi1 Hn1. apply IH; [done|cbn in Hn1; lia].
  - apply (drive_cons _ []); [by apply idle_in_step| |done]. intros c1 r1 Hi1 Hn1. apply IH; [done|cbn in Hn1; lia].
  - apply (drive_cons _ [it]); [apply says_in_step; [done..|lia]| |done]. intros c1 r1 Hi1 Hn1. apply IH; [done|cbn [length] in Hn1; lia].
Qed.
End in_step.

(** C36: client and exchange stay in step. The two messages of the client's
    handshake take a fresh session, without authentication, to Established, and
    the session's two answers complete the handshake; the client then expects the
    session's next number. After that, whatever commands of the documented form are
    typed (with numbers in range of their fields and a price whose mantissa fits 64
    bits), mixed with blank lines, other words and commands without arguments, and
    whenever the heartbeat thread wakes, as long as the sequence numbers fit 32
    bits: what the client has written is a sequence of frames, the session takes
    their payloads without reporting a gap or sending anything, hands the gateway
    exactly one message per command, in order, with the side, security, quantity,
    order id and price typed (the price through a double: exact if it is a multiple
    of a quarter below 2^21, else the product with 10^9 cut to an integer; the
    security of a cancel or modification is 0), and both sides agree on the next
    number. *)
Theorem client_keeps_step steady system lib csteady csystem broken stack u t0 t1 n inputs intents :
  (∀ i, broken i = None) → length stack = 4096%nat → u ∈u 64 → asks inputs intents → Z.of_nat (length intents) < 2 ^ 32 - 1 →
  ∃ p1 p2 d1 d2 r, exec_all steady system lib [Receive p1; Receive p2] (waiting u t0 t1 n) = Some (tt, r) ∧
    outs r = [ToWire u d1; ToWire u d2] ∧ state_ (sess r) = Established ∧
    ∀ rest, ∃ c, performHandshake csteady csystem broken stack (Client_init (frame_bytes d1 ++ frame_bytes d2 ++ rest)) = Some (true, c) ∧
      written c = frame_bytes p1 ++ frame_bytes p2 ∧ incoming c = rest ∧ cs_state (cl_session c) = "Established"%string ∧
      nextInSeqNo (cl_session c) = next_out_seq_ (sess r) ∧ keepAliveIntervalMs (cl_session c) = keep_alive_interval_ms_ (sess r) ∧
      ∃ c' ps r' msgs, drive csystem broken stack inputs c = Some (tt, c') ∧
        written c' = written c ++ concat (frame_bytes <$> ps) ∧ Forall sendable ps ∧
        exec_all steady system lib (Receive <$> ps) r = Some (tt, r') ∧
        outs r' = outs r ++ ((λ m, ToGateway u m.1 m.2) <$> msgs) ∧ Forall2 intent_shows intents msgs ∧
        state_ (sess r') = Established ∧ cs_state (cl_session c') = "Established"%string ∧ nextOutSeqNo (cl_session c') = next_in_seq_ (sess r').
Proof.
  intros Hb Hs Hu Hin Hn.
  destruct (session_accepts steady system lib u t0 t1 n (neg_msg csteady csystem) (est_msg csteady csystem) (neg_msg_wf _ _) (est_msg_wf _ _) Hu)
    as (Hwr & Hwa & r & E & Ho & Hi & Hru & Hsc & Hac & Hst & Hnin & Hout & Hka).
  set (resp := NegotiationResponse501.mk _ _ _ _ _ _ _) in *. set (ack := EstablishmentAck504.mk _ _ _ _ _ _) in *.
  exists (sbe_bytes (neg_msg csteady csystem)), (sbe_bytes (est_msg csteady csystem)), (sbe_bytes resp), (sbe_bytes ack), r.
  split; [exact E|]. split; [exact Ho|]. split; [exact Hst|]. intros rest.
  destruct (handshake_run csteady csystem broken stack Hb Hs resp ack rest Hwr Hwa) as (c & Ec & W & In & Cs & G & _ & _).
  exists c. split; [exact Ec|]. split; [exact W|]. split; [exact In|]. rewrite Cs. split; [done|]. rewrite Hout, Hka. split; [done|]. split; [done|].
  assert (in_step c r) as His.
  { split; [rewrite Cs; split; cbn; [apply wrapu_range; lia|lia..]|exact G|by rewrite Cs|exact Hi|exact Hsc|exact Hac|exact Hst|].
    rewrite Cs, Hnin. reflexivity. }
  destruct (drive_in_step steady system lib csystem broken stack Hb Hs inputs intents Hin c r His) as (c' & ps & r' & msgs & Ed & (R1 & R2 & R3 & R4 & R5 & R6 & R7) & Sh).
  { rewrite Cs. cbn. lia. }
  exists c', ps, r', msgs. rewrite Hru in R5.
  split; [exact Ed|]. split; [exact R1|]. split; [exact R2|]. split; [exact R3|]. split; [exact R5|]. split; [exact Sh|].
  split; [apply R7|]. split; [apply R7|]. apply R7.
Qed.

(** A session at the prompt. *)
Definition demo_inputs : list ClientInput :=
  [Typed (chars "buy 1 3 5000.50"); Wake; Typed (chars " cancel  1 please"); Typed (chars "help"); Typed (chars "modify 1 4 5001"); Typed (chars "sell")].
Definition demo_intents : list Intent := [WantOrder Buy 1 3 (5000, [5; 0]); WantCancel 1; WantModify 1 4 (5001, [])].
Lemma demo_asks : asks demo_inputs demo_intents.
Proof.
  assert (gap [Init.Byte.x20] ∧ gap [Init.Byte.x20; Init.Byte.x20]) as [Hg Hg2] by (split; (split; [done|by repeat constructor])).
  assert (decimal_ok (5000, [5; 0]) ∧ decimal_ok (5001, [])) as [Hd Hd'] by (split; (split; [done|by repeat constructor])).
  assert (Forall blank [Init.Byte.x20]) as H1 by by repeat constructor.
  apply asks_order, asks_wake, asks_order, asks_idle, asks_order, asks_idle, asks_nothing.
  - apply (says_order "buy" Buy 1 3 (5000, [5; 0]) [] [Init.Byte.x20] [Init.Byte.x20] [Init.Byte.x20] []); try done; try (by constructor).
  - apply (says_cancel 1 [Init.Byte.x20] [Init.Byte.x20; Init.Byte.x20] (chars " please")); [done..|by left].
  - apply (idle_word [] (chars "help") []); [constructor|done|by repeat constructor| |done]. apply (bool_decide_unpack _). by vm_compute.
  - apply (says_modify 1 4 (5001, []) [] [Init.Byte.x20] [Init.Byte.x20] [Init.Byte.x20] []); try done; try (by constructor).
  - apply (idle_unfinished [] "sell" []); [constructor|set_solver|constructor].
Qed.

Lemma client_keeps_step_witness :
  ∃ p1 p2 d1 d2 r, exec_all SDemo.clock SDemo.clock None [Receive p1; Receive p2] (waiting 7 0 0 2) = Some (tt, r) ∧
    outs r = [ToWire 7 d1; ToWire 7 d2] ∧
    ∀ rest, ∃ c c' msgs, performHandshake SDemo.clock SDemo.clock (λ _, None) (replicate 4096 Init.Byte.x00)
        (Client_init (frame_bytes d1 ++ frame_bytes d2 ++ rest)) = Some (true, c) ∧
      drive SDemo.clock (λ _, None) (replicate 4096 Init.Byte.x00) demo_inputs c = Some (tt, c') ∧
      length msgs = 3%nat ∧ Forall2 intent_shows demo_intents msgs.
Proof.
  destruct (client_keeps_step SDemo.clock SDemo.clock None SDemo.clock SDemo.clock (λ _, None) (replicate 4096 Init.Byte.x00) 7 0 0 2
    demo_inputs demo_intents) as (p1 & p2 & d1 & d2 & r & E & Ho & _ & H).
  - done.
  - apply length_replicate.
  - done.
  - apply demo_asks.
  - done.
  - exists p1, p2, d1, d2, r. split; [exact E|]. split; [exact Ho|]. intros rest.
    destruct (H rest) as (c & Ec & _ & _ & _ & _ & _ & c' & ps & r' & msgs & Ed & _ & _ & _ & _ & Sh & _).
    exists c, c', msgs. split; [exact Ec|]. split; [exact Ed|]. split; [by apply Forall2_length in Sh|exact Sh].
Defined.
