(* ===== verification/ClientReports.v ===== *)
(** * The reports the test client counts

    The reader thread on the frames of execution reports: what the client knows
    afterwards, from the engine events the reports were built from. *)
From S2P Require Import Prelude Types Sbe ILink3 Dispatcher Order TcpConnection TcpTheorems ExecReport Typed ExecReportTheorems Client ClientTheorems.
Import ExecReportOps ClientOps.

(** ** Messages at the front of a longer buffer *)
Lemma slice_app_r {A} o n (b t s : list A) : slice o n b = Some s → slice o n (b ++ t) = Some s.
Proof.
  unfold slice. case_decide as H1; [|done]. intros [= <-]. rewrite decide_True by (rewrite length_app; lia).
  by rewrite drop_app_le, take_app_le by (rewrite ?length_drop; lia).
Qed.
Lemma rd_u_app_r b t o n z : rd_u b o n = Some z → rd_u (b ++ t) o n = Some z.
Proof. unfold rd_u. intros (s & Hs & ->)%fmap_Some. by rewrite (slice_app_r _ _ _ _ _ Hs). Qed.
Lemma rd_i_app_r b t o n z : rd_i b o n = Some z → rd_i (b ++ t) o n = Some z.
Proof. unfold rd_i. intros (s & Hs & ->)%fmap_Some. by rewrite (slice_app_r _ _ _ _ _ Hs). Qed.
Lemma rd_c_app_r b t o n z : rd_c b o n = Some z → rd_c (b ++ t) o n = Some z.
Proof. apply slice_app_r. Qed.
Lemma rd_b_app_r b t o z : rd_b b o = Some z → rd_b (b ++ t) o = Some z.
Proof. unfold rd_b. intros (s & Hs & E)%bind_Some. by rewrite (slice_app_r _ _ _ _ _ Hs). Qed.

Lemma bind_mono {A B} (x x' : option A) (k k' : A → option B) r :
  (∀ v, x = Some v → x' = Some v) → (∀ v, k v = Some r → k' v = Some r) → x ≫= k = Some r → x' ≫= k' = Some r.
Proof. intros Hx Hk (v & E & H)%bind_Some. rewrite (Hx v E). by apply Hk. Qed.

Ltac decode_app d :=
  unfold d;
  repeat (apply bind_mono; [intros ?; first [apply rd_u_app_r | apply rd_i_app_r | apply rd_c_app_r | apply rd_b_app_r]|intros ?]);
  exact (λ H, H).
Lemma decode_app522 b t m : ExecutionReportNew522.decode b 0 = Some m → ExecutionReportNew522.decode (b ++ t) 0 = Some m.
Proof. decode_app ExecutionReportNew522.decode. Qed.
Lemma decode_app523 b t m : ExecutionReportReject523.decode b 0 = Some m → ExecutionReportReject523.decode (b ++ t) 0 = Some m.
Proof. decode_app ExecutionReportReject523.decode. Qed.
Lemma decode_app525 b t m : ExecutionReportTradeOutright525.decode b 0 = Some m → ExecutionReportTradeOutright525.decode (b ++ t) 0 = Some m.
Proof. decode_app ExecutionReportTradeOutright525.decode. Qed.
Lemma decode_app531 b t m : ExecutionReportModify531.decode b 0 = Some m → ExecutionReportModify531.decode (b ++ t) 0 = Some m.
Proof. decode_app ExecutionReportModify531.decode. Qed.
Lemma decode_app534 b t m : ExecutionReportCancel534.decode b 0 = Some m → ExecutionReportCancel534.decode (b ++ t) 0 = Some m.
Proof. decode_app ExecutionReportCancel534.decode. Qed.
Lemma decode_app535 b t m : OrderCancelReject535.decode b 0 = Some m → OrderCancelReject535.decode (b ++ t) 0 = Some m.
Proof. decode_app OrderCancelReject535.decode. Qed.

(** What a successful dispatch says of the bytes. *)
Lemma dispatch_inv b m : dispatchILink3Message b (length b) = Some (Some m) →
  match m with
  | I_ExecutionReportNew522 n => MessageHeader.decodeTemplateId b 0 = Some 522 ∧ ExecutionReportNew522.decode b 0 = Some n
  | I_ExecutionReportReject523 n => MessageHeader.decodeTemplateId b 0 = Some 523 ∧ ExecutionReportReject523.decode b 0 = Some n
  | I_ExecutionReportTradeOutright525 n => MessageHeader.decodeTemplateId b 0 = Some 525 ∧ ExecutionReportTradeOutright525.decode b 0 = Some n
  | I_ExecutionReportModify531 n => MessageHeader.decodeTemplateId b 0 = Some 531 ∧ ExecutionReportModify531.decode b 0 = Some n
  | I_ExecutionReportCancel534 n => MessageHeader.decodeTemplateId b 0 = Some 534 ∧ ExecutionReportCancel534.decode b 0 = Some n
  | I_OrderCancelReject535 n => MessageHeader.decodeTemplateId b 0 = Some 535 ∧ OrderCancelReject535.decode b 0 = Some n
  | _ => True
  end.
Proof.
  unfold dispatchILink3Message. destruct (_ <? _)%nat; [done|]. intros (tid & Ht & H)%bind_Some. rewrite Ht.
  repeat match type of H with (if tid =? ?k then _ else _) = _ =>
    destruct (Z.eqb_spec tid k) as [->|_]; [apply bind_Some in H as (n & Hd & [= <-]); first [exact I | by split]|] end.
  done.
Qed.

(** ** What the client makes of an event *)

(** The line printed for a report of the event. *)
Definition line_shows (mk : bool) (e : EngineEvent) (l : Line) : Prop :=
  match e, l with
  | OrderAccepted oid c _ sid side p q _ _, LAccepted oid' c' sid' side' q' p' =>
      oid' = oid ∧ c' = take 20 (c_str c) ∧ sid' = sid ∧ Side_of_u8 side' = side ∧ i32 q' = q ∧ p' = p
  | OrderRejected c _ _ code, LRejected c' code' => c' = take 20 (c_str c) ∧ code' = code
  | OrderFilled _ _ px q _ moid _ _ mcum mleaves _ toid _ _ tcum tleaves _, LFill oid q' px' cum leaves aggressor =>
      oid = (if mk then moid else toid) ∧ i32 q' = q ∧ px' = px ∧ i32 cum = (if mk then mcum else tcum) ∧
      i32 leaves = (if mk then mleaves else tleaves) ∧ aggressor = (if mk then 0 else 1)
  | OrderCancelled oid _ _ _ cum _, LCancelled oid' cum' => oid' = oid ∧ i32 cum' = cum
  | OrderModified oid _ _ _ p q _ _, LModified oid' q' p' => oid' = oid ∧ i32 q' = q ∧ p' = p
  | OrderCancelRejected oid _ _ code _, LCancelRejected oid' code' => oid' = oid ∧ code' = code
  | _, _ => False
  end.

(** The orders the client keeps: accepted and not reported cancelled. *)
Definition track (orders : gmap Z (list byte)) (e : EngineEvent) : gmap Z (list byte) :=
  match e with
  | OrderAccepted oid c _ _ _ _ _ _ _ => <[oid := take 20 (c_str c)]> orders
  | OrderCancelled oid _ _ _ _ _ => delete oid orders
  | _ => orders
  end.

Definition is_accepted (e : EngineEvent) : bool := match e with OrderAccepted _ _ _ _ _ _ _ _ _ => true | _ => false end.
Definition is_rejected (e : EngineEvent) : bool := match e with OrderRejected _ _ _ _ => true | _ => false end.
Definition is_fill (e : EngineEvent) : bool := match e with OrderFilled _ _ _ _ _ _ _ _ _ _ _ _ _ _ _ _ _ => true | _ => false end.
Definition is_cancelled (e : EngineEvent) : bool := match e with OrderCancelled _ _ _ _ _ _ => true | _ => false end.
Definition is_modified (e : EngineEvent) : bool := match e with OrderModified _ _ _ _ _ _ _ _ => true | _ => false end.
Definition count (f : EngineEvent → bool) (es : list EngineEvent) : Z := zsum (λ e, Z.b2z (f e)) es.

Lemma count_range f es : 0 ≤ count f es ≤ Z.of_nat (length es).
Proof. unfold count. induction es as [|e es IH]; cbn [zsum length]; [lia|]. destruct (f e); cbn; lia. Qed.

(** The session after the events [es], from a session [s]. *)
Definition counts (s : ClientSession) (es : list EngineEvent) (s' : ClientSession) : Prop :=
  ordersAccepted s' = ordersAccepted s + count is_accepted es ∧ ordersRejected s' = ordersRejected s + count is_rejected es ∧
  fills s' = fills s + count is_fill es ∧ ordersCancelled s' = ordersCancelled s + count is_cancelled es ∧
  ordersModified s' = ordersModified s + count is_modified es ∧ orderMap s' = foldl track (orderMap s) es ∧
  (cs_uuid s', nextOutSeqNo s', nextInSeqNo s', cs_state s', ordersSent s') = (cs_uuid s, nextOutSeqNo s, nextInSeqNo s, cs_state s, ordersSent s).

(** Counters that [k] more reports do not wrap. *)
Definition small (k : Z) (s : ClientSession) : Prop :=
  0 ≤ ordersAccepted s ∧ ordersAccepted s + k < 2 ^ 32 ∧ 0 ≤ ordersRejected s ∧ ordersRejected s + k < 2 ^ 32 ∧ 0 ≤ fills s ∧ fills s + k < 2 ^ 32 ∧
  0 ≤ ordersCancelled s ∧ ordersCancelled s + k < 2 ^ 32 ∧ 0 ≤ ordersModified s ∧ ordersModified s + k < 2 ^ 32.

Ltac report_done :=
  unfold counts, count; cbn; unwrap; subst;
  split; [split_and!; first [done | lia]|];
  refine ((λ x : _ ∧ _, conj (proj2 x) (proj1 x)) _); split; [split_and!; reflexivity|cbn; split_and!; done].

Lemma process_report mk e uuid n t out tail c :
  is_report mk e uuid n t out → report_sized out → small 1 (cl_session c) →
  ∃ c' l, processMessage (out ++ tail) (length out) c = Some (tt, c') ∧ counts (cl_session c) [e] (cl_session c') ∧ line_shows mk e l ∧
    printed c' = printed c ++ [l] ∧ g_running c' = g_running c ∧ incoming c' = incoming c ∧ payload c' = payload c.
Proof.
  intros (m & Hd & Hs & Hst) [Hl _] Hsm. apply dispatch_inv in Hd. unfold processMessage.
  rewrite (proj2 (Nat.ltb_ge _ _)) by (unfold MessageHeader.SIZE; lia).
  assert (is_Some (MessageHeader.decodeBlockLength (out ++ tail) 0)) as [bl Hbl]
    by (apply rd_u_is_Some; rewrite length_app; lia).
  assert (∀ z, MessageHeader.decodeTemplateId out 0 = Some z → MessageHeader.decodeTemplateId (out ++ tail) 0 = Some z) as Ht by (intros z; apply rd_u_app_r).
  destruct c as [[? ? ? ? ? ? ? om ? a r ca mo fi] run inc wr wc rd pay pr]. unfold small in Hsm. cbn in Hsm.
  destruct e, m; try done; destruct Hd as [Htid Hd]; rewrite (Ht _ Htid), Hbl; client; cbn in Hst, Hs.
  - apply (decode_app522 _ tail) in Hd. destruct Hs as (? & ? & ? & ? & ? & ? & ?). cbn -[ExecutionReportNew522.decode]. rewrite Hd. client. injection Hst as _ _ Hc _.
    eexists _, _. split; [done|]. rewrite Hc. report_done.
  - apply (decode_app523 _ tail) in Hd. destruct Hs as (? & ?). cbn -[ExecutionReportReject523.decode]. rewrite Hd. client. injection Hst as _ _ Hc _.
    eexists _, _. split; [done|]. rewrite Hc. report_done.
  - apply (decode_app525 _ tail) in Hd. destruct_and?. cbn -[ExecutionReportTradeOutright525.decode]. rewrite Hd. client.
    eexists _, _. split; [done|]. report_done.
  - apply (decode_app534 _ tail) in Hd. destruct_and?. cbn -[ExecutionReportCancel534.decode]. rewrite Hd. client.
    eexists _, _. split; [done|]. report_done.
  - apply (decode_app531 _ tail) in Hd. destruct_and?. cbn -[ExecutionReportModify531.decode]. rewrite Hd. client.
    eexists _, _. split; [done|]. report_done.
  - apply (decode_app535 _ tail) in Hd. destruct_and?. cbn -[OrderCancelReject535.decode]. rewrite Hd. client.
    eexists _, _. split; [done|]. report_done.
Qed.

(** ** The reader thread *)

(** A frame on the stream: the reader takes it and processes its payload. *)
Lemma reader_frame out rest c c' :
  incoming c = frame_bytes out ++ rest → 1 ≤ Z.of_nat (length out) ≤ kMaxBody →
  (∀ tail, payload (set_payload (out ++ tail) (set_incoming rest c)) = out ++ tail →
    processMessage (out ++ tail) (length out) (set_payload (out ++ tail) (set_incoming rest c)) = Some (tt, c' tail)) →
  ∃ tail, reader_body c = Some (true, c' tail).
Proof.
  intros E Hl H. unfold reader_body, frame_bytes in *. rewrite <-app_assoc in E.
  rewrite (cm_bind _ _ _ _ _ (asio_read_app _ _ _ _ E (eq_sym (header_bytes_length _)))).
  rewrite header_length_read by done. client. rewrite payload_length by done.
  assert (incoming (set_incoming (out ++ rest) c) = out ++ rest) as E' by done.
  rewrite (cm_bind _ _ _ _ _ (asio_read_app (Z.to_nat (Z.of_nat (length out))) _ _ _ E' ltac:(lia))). client.
  rewrite Nat2Z.id. exists (drop (length out) (payload c)). by rewrite (cm_bind _ _ _ _ _ (H (drop (length out) (payload c)) eq_refl)).
Qed.

Lemma reader_eof c : incoming c = [] → reader_body c = Some (false, set_g_running false (set_incoming [] c)).
Proof.
  intros E. assert (asio_read SOFH.SIZE c = Some (None, set_incoming [] c)) as H by (unfold asio_read; by rewrite E).
  unfold reader_body. by rewrite (cm_bind _ _ _ _ _ H).
Qed.

Definition shown (eu : EngineEvent * Z) (l : Line) : Prop := line_shows (event_side eu.1 eu.2) eu.1 l.

Lemma reader_reports system l : ∀ outs b fuel c,
  Forall report_sized outs → length outs = length l →
  (∀ i e uuid, l !! i = Some (e, uuid) → ∃ out, outs !! i = Some out ∧
     is_report (event_side e uuid) e uuid (next_exec_id_ b + Z.of_nat i) (u64 (system (time_reads b + i)%nat)) out) →
  (length outs < fuel)%nat → small (Z.of_nat (length l)) (cl_session c) → g_running c = true → cs_state (cl_session c) ≠ "Terminated"%string →
  incoming c = concat (frame_bytes <$> outs) →
  ∃ c' lines, readerThread fuel c = Some (true, c') ∧ g_running c' = false ∧ counts (cl_session c) l.*1 (cl_session c') ∧
    printed c' = printed c ++ lines ∧ Forall2 shown l lines.
Proof.
  induction l as [|[e uuid] l IH]; intros outs b fuel c Hsz Hlen Hrep Hf Hsm Hrun Hst Hin.
  - destruct outs; [|done]. destruct fuel; [cbn in Hf; lia|]. exists (set_g_running false (set_incoming [] c)), [].
    cbn [readerThread]. client. unfold state_is. rewrite Hrun, bool_decide_eq_false_2 by done. cbn [andb negb].
    rewrite (cm_bind _ _ _ _ _ (reader_eof c Hin)). split; [done|]. split; [done|]. split; [|split; [by rewrite app_nil_r|constructor]].
    unfold counts, count. cbn. rewrite !Z.add_0_r. by split_and!.
  - destruct outs as [|out outs]; [done|]. apply Forall_cons in Hsz as [Hs1 Hsz]. destruct fuel; [cbn in Hf; lia|]. cbn [length] in *.
    destruct (Hrep 0%nat e uuid eq_refl) as (out' & [= <-] & Hr0).
    assert (small 1 (cl_session c)) as Hsm1 by (unfold small in *; lia).
    assert (∃ rest, rest = concat (frame_bytes <$> outs)) as [rest Hrest] by eauto.
    assert (incoming c = frame_bytes out ++ rest) as Hin' by (by rewrite Hrest).
    set (after := λ tail, set_payload (out ++ tail) (set_incoming rest c)).
    set (c1 := λ tail, (default ((), c) (processMessage (out ++ tail) (length out) (after tail))).2).
    destruct (reader_frame out rest c c1 Hin') as (tail & Eb).
    { destruct Hs1 as [? ?]. unfold kMaxBody. lia. }
    { intros tail _. destruct (process_report _ e uuid _ _ out tail (after tail) Hr0 Hs1 Hsm1) as (c' & ln & E & _). unfold c1. by rewrite E. }
    destruct (process_report _ e uuid _ _ out tail (after tail) Hr0 Hs1 Hsm1) as (c' & ln & E & C1 & L1 & P1 & G1 & I1 & _).
    unfold c1 in Eb. rewrite E in Eb. cbn [default from_option id snd] in Eb.
    cbn in C1, P1, G1, I1. pose proof C1 as (A1 & A2 & A3 & A4 & A5 & A6 & A7). injection A7 as A7 A8 A9 A10 A11.
    destruct (IH outs (mkExecReportBuilder (next_exec_id_ b + 1) (S (time_reads b))) fuel c') as (c'' & lines & E' & G2 & C2 & P2 & F2); try done.
    + lia.
    + intros i e' u' Hi. destruct (Hrep (S i) e' u' Hi) as (o & Ho & Hro). exists o. split; [done|]. cbn.
      replace (next_exec_id_ b + 1 + Z.of_nat i) with (next_exec_id_ b + Z.of_nat (S i)) by lia. by replace (S (time_reads b + i)) with (time_reads b + S i)%nat by lia.
    + lia.
    + unfold count in *. cbn in A1, A2, A3, A4, A5. unfold small in *. rewrite A1, A2, A3, A4, A5.
      destruct e; cbn; lia.
    + by rewrite G1.
    + by rewrite A10.
    + by rewrite I1.
    + exists c'', (ln :: lines). split.
      { cbn [readerThread]. client. unfold state_is. rewrite Hrun, bool_decide_eq_false_2 by done. cbn [andb negb].
        rewrite (cm_bind _ _ _ _ _ Eb). exact E'. }
      split; [done|]. split; [|split; [rewrite P2, P1; by rewrite <-app_assoc|by constructor]].
      destruct C2 as (B1 & B2 & B3 & B4 & B5 & B6 & B7). unfold counts, count in *. cbn in A1, A2, A3, A4, A5, A6 |- *.
      rewrite B1, B2, B3, B4, B5, B6, B7, A1, A2, A3, A4, A5, A6, A7, A8, A9, A10, A11. split_and!; first [done | lia].
Qed.

(** C37: the client counts what happened. Whatever events are reported to it (with
    fields in range, fewer than 2^32), encoded, framed and closed with the end of
    the stream: the reader thread reads without leaving a buffer, prints one line
    per report, with the data of the event, in order, and ends; the session has
    counted every kind of report exactly, and its map holds the orders accepted
    and not reported cancelled, with the first 20 bytes of their client order ids. *)
Theorem client_counts_reports system l b :
  Forall to_report l → builder_ok b → next_exec_id_ b + Z.of_nat (length l) < 2 ^ 64 → Z.of_nat (length l) < 2 ^ 32 →
  ∃ outs b', report_run system b l = Some (outs, b') ∧
    let stream := concat (frame_bytes <$> outs) in
    ∃ c lines, readerThread (S (length stream)) (Client_init stream) = Some (true, c) ∧ g_running c = false ∧
      printed c = lines ∧ Forall2 shown l lines ∧
      ordersAccepted (cl_session c) = count is_accepted l.*1 ∧ ordersRejected (cl_session c) = count is_rejected l.*1 ∧
      fills (cl_session c) = count is_fill l.*1 ∧ ordersCancelled (cl_session c) = count is_cancelled l.*1 ∧
      ordersModified (cl_session c) = count is_modified l.*1 ∧ orderMap (cl_session c) = foldl track ∅ l.*1.
Proof.
  intros Hl Hb Hn Hn2. destruct (report_run_ok system l b Hl Hb Hn) as (outs & b' & Hrun & Hlen & Hsz & Hrep).
  exists outs, b'. split; [done|]. intros stream.
  destruct (reader_reports system l outs b (S (length stream)) (Client_init stream) Hsz Hlen Hrep) as (c & lines & E & G & C & P & F);
    [|unfold small; cbn; lia|done|done|done|].
  { unfold stream. clear. induction outs as [|o outs IH]; cbn; [lia|].
    assert (length (frame_bytes o) = (kSofhSize + length o)%nat) as E by (unfold frame_bytes; by rewrite length_app, header_bytes_length).
    rewrite length_app, E. unfold kSofhSize. cbn in IH. lia. }
  exists c, lines. destruct C as (C1 & C2 & C3 & C4 & C5 & C6 & _). cbn in *. split_and!; first [done | lia].
Qed.

Lemma client_counts_reports_witness :
  ∃ outs b', report_run (λ n, Z.of_nat n) ExecReportBuilder_init demo_events = Some (outs, b') ∧
    ∃ c, readerThread (S (length (concat (frame_bytes <$> outs)))) (Client_init (concat (frame_bytes <$> outs))) = Some (true, c) ∧
      ordersAccepted (cl_session c) = count is_accepted demo_events.*1 ∧ fills (cl_session c) = count is_fill demo_events.*1.
Proof.
  destruct (client_counts_reports (λ n, Z.of_nat n) demo_events ExecReportBuilder_init) as (outs & b' & E & c & lines & Ec & _ & _ & _ & C1 & _ & C3 & _).
  - assert (side_ok Buy ∧ type_ok Limit ∧ tif_ok IOC) as (? & ? & ?)
      by (split_and!; [exists 1 | exists 2 | exists 3]; done).
    unfold demo_events. repeat (apply Forall_cons_2; [unfold to_report | ]); try apply Forall_nil_2;
      split_and!; cbn; split_and?; done || lia.
  - split; cbn; lia.
  - cbn. lia.
  - cbn. lia.
  - exists outs, b'. split; [exact E|]. exists c. split; [exact Ec|]. split; [exact C1|exact C3].
Defined.
