(* ===== verification/Lifecycle.v ===== *)
(** * From the command line to the end of the process (src/main.cpp,
    src/network/tcp_acceptor.cpp, src/network/io_context_pool.cpp)

    [main] reads its arguments and the configuration, starts the exchange of
    Exchange.v behind an acceptor, runs it, and shuts it down. The acceptor keeps
    one [async_accept] outstanding and hands every accepted connection to
    [main]'s callback; the pool gives the connections to its I/O contexts in
    turn.

    A connection is named by its session's identifier, [None] standing for one
    that [main] has refused and closed. The outcome of an accept is an event, as
    is everything that happens to the exchange; the listening socket can be
    opened and the options of accepted sockets can be set. The number of hardware
    threads and the files are arguments. Text on the console is left out. *)
From S2P Require Import Prelude Types InstrumentManager Config Gateway Session SessionManager Publisher TcpConnection Exchange.
Import InstrumentManagerOps SessionManagerOps ExchangeOps.

(** A context of the pool: whether its work guard is held, whether it is stopped. *)
Record IoContext := mkContext { guarded : bool; ctx_stopped : bool }.
Record IoContextPool := mkIoPool {
  io_contexts_ : list IoContext;
  threads_ : list nat;
  next_io_context_ : nat;
}.
(** [pending] is the context given to the outstanding [async_accept]. *)
Record TcpAcceptor := mkAcceptor {
  listening : bool;
  pending : option nat;
  acceptor_connections_ : list (option Z);
  stopped_ : bool;
}.
(** [assigned] lists the contexts of the accepted connections, oldest first. *)
Record Process := mkProcess {
  exchange : Exchange;
  acceptor : TcpAcceptor;
  io_pool : IoContextPool;
  assigned : list nat;
}.
Inductive MainEvent := MAccept (ec : bool) | MExchange (e : XEvent).

Record AppArgs := mkArgs { config_path : string; arg_log_level : string; arg_mode : string }.
Inductive level_enum := lvl_trace | lvl_debug | lvl_info | lvl_warn | lvl_err.
(** What [main] has come to when its threads would start. *)
Inductive Launch := Running (cfg : ExchangeConfig) (level : level_enum) (p : Process) | ExitSuccess | ExitFailure | Broken.

Module IoPoolOps.
Definition IoContextPool_init (pool_size hardware_concurrency : nat) : IoContextPool :=
  let pool_size := match pool_size with O => match hardware_concurrency with O => 1%nat | n => n end | n => n end in
  mkIoPool (replicate pool_size (mkContext true false)) [] 0.
Definition start (p : IoContextPool) : IoContextPool :=
  if bool_decide (threads_ p = []) then mkIoPool (io_contexts_ p) (seq 0 (length (io_contexts_ p))) (next_io_context_ p) else p.
Definition stop (p : IoContextPool) : IoContextPool :=
  mkIoPool ((λ _, mkContext false true) <$> io_contexts_ p) [] (next_io_context_ p).
Definition get_io_context (p : IoContextPool) : option (nat * IoContextPool) :=
  _ ← io_contexts_ p !! next_io_context_ p;
  Some (next_io_context_ p, mkIoPool (io_contexts_ p) (threads_ p) ((next_io_context_ p + 1) mod length (io_contexts_ p))).
End IoPoolOps.

Module LifecycleOps.
(** ** Arguments *)

(** [inr] is the end of the process by [std::exit]. *)
Fixpoint parseArgs (argv : list string) (args : AppArgs) : AppArgs + unit :=
  match argv with
  | [] => inl args
  | a :: rest =>
      match rest with
      | v :: rest' =>
          if bool_decide (a = "--config"%string) then parseArgs rest' (mkArgs v (arg_log_level args) (arg_mode args))
          else if bool_decide (a = "--log-level"%string) then parseArgs rest' (mkArgs (config_path args) v (arg_mode args))
          else if bool_decide (a = "--mode"%string) then parseArgs rest' (mkArgs (config_path args) (arg_log_level args) v)
          else if bool_decide (a = "--help"%string) || bool_decide (a = "-h"%string) then inr tt
          else parseArgs rest args
      | [] => if bool_decide (a = "--help"%string) || bool_decide (a = "-h"%string) then inr tt else inl args
      end
  end.
Definition AppArgs_init : AppArgs := mkArgs "config/exchange_config.yaml" "" "".

Definition initLogging (level_str : string) : level_enum :=
  if bool_decide (level_str = "debug"%string) then lvl_debug
  else if bool_decide (level_str = "info"%string) then lvl_info
  else if bool_decide (level_str = "warn"%string) then lvl_warn
  else if bool_decide (level_str = "error"%string) then lvl_err
  else if bool_decide (level_str = "trace"%string) then lvl_trace
  else lvl_info.

(** The overrides of lines 168 to 173. *)
Definition set_mode (m : string) (e : EngineConfig) : EngineConfig :=
  mkEngineConfig m (pcap_path e) (synthetic_fill_probability e) (synthetic_fill_latency_ns e).
Definition apply_overrides (args : AppArgs) (cfg : ExchangeConfig) : ExchangeConfig :=
  let level := if bool_decide (arg_log_level args = EmptyString) then log_level cfg else arg_log_level args in
  let engine := if bool_decide (arg_mode args = EmptyString) then engine_config cfg else set_mode (arg_mode args) (engine_config cfg) in
  mkExchangeConfig (network cfg) (channels cfg) (instruments cfg) engine (risk cfg) (session cfg) level.
Definition known_mode (cfg : ExchangeConfig) : bool :=
  bool_decide (mode (engine_config cfg) = "full_matching"%string) || bool_decide (mode (engine_config cfg) = "synthetic"%string).

(** ** The acceptor *)
Definition TcpAcceptor_init : TcpAcceptor := mkAcceptor true None [] false.
Definition set_pending (n : option nat) (a : TcpAcceptor) : TcpAcceptor := mkAcceptor (listening a) n (acceptor_connections_ a) (stopped_ a).
Definition set_exchange (x : Exchange) (p : Process) : Process := mkProcess x (acceptor p) (io_pool p) (assigned p).

Definition do_accept (p : Process) : option Process :=
  if stopped_ (acceptor p) then Some p else
  '(io_ctx, pool) ← IoPoolOps.get_io_context (io_pool p);
  Some (mkProcess (exchange p) (set_pending (Some io_ctx) (acceptor p)) pool (assigned p)).

Definition connection_count (p : Process) : nat := length (acceptor_connections_ (acceptor p)).

(** [main] up to the point where its threads run: the components are built and
    the acceptor started. *)
Definition launch (hardware_concurrency : nat) (cfg : ExchangeConfig) : option Process :=
  x ← boot cfg;
  p ← do_accept (mkProcess x TcpAcceptor_init (IoPoolOps.IoContextPool_init (Z.to_nat (io_threads (network cfg))) hardware_concurrency) []);
  Some (mkProcess (exchange p) (acceptor p) (IoPoolOps.start (io_pool p)) (assigned p)).

Section process.
Context (steady system report_clock engine_clock md_clock : nat → Z) (lib : openssl) (cfg : SessionConfig).

(** The connection [on_connection] is given, after the call. *)
Definition handle (x : Exchange) : option Z :=
  if max_sessions_ (session_mgr x) <=? activeSessionCount (session_mgr x) then None else Some (next_uuid_ (session_mgr x)).

(** The handler of [async_accept]. *)
Definition on_accept (ec : bool) (p : Process) : option Process :=
  match pending (acceptor p) with
  | None => Some p
  | Some io_ctx =>
      let a := set_pending None (acceptor p) in
      if ec then Some (mkProcess (exchange p) a (io_pool p) (assigned p)) else
      let conn := handle (exchange p) in
      x ← on_connection steady system lib cfg (exchange p);
      do_accept (mkProcess x (mkAcceptor (listening a) None (conn :: acceptor_connections_ a) (stopped_ a)) (io_pool p) (assigned p ++ [io_ctx]))
  end.

(** Connections come from the acceptor only. *)
Definition main_step (p : Process) (e : MainEvent) : option Process :=
  match e with
  | MAccept ec => on_accept ec p
  | MExchange XConnect => Some p
  | MExchange e => x ← exchange_step steady system report_clock engine_clock md_clock lib cfg (exchange p) e; Some (set_exchange x p)
  end.
Fixpoint main_run (p : Process) (es : list MainEvent) : option Process :=
  match es with
  | [] => Some p
  | e :: es => p ← main_step p e; main_run p es
  end.

(** ** Shutdown *)

(** [conn->close()] on every connection, with [main]'s [on_disconnect]. *)
Fixpoint close_all (x : Exchange) (conns : list (option Z)) : option Exchange :=
  match conns with
  | [] => Some x
  | None :: conns => close_all x conns
  | Some uuid :: conns => x ← on_tcp steady system lib x uuid TClose; close_all x conns
  end.
(** [TcpAcceptor::stop], the connections in the order of the hash set. *)
Definition acceptor_stop (order : list (option Z)) (p : Process) : option Process :=
  let a := mkAcceptor false (pending (acceptor p)) (acceptor_connections_ (acceptor p)) true in
  x ← close_all (exchange p) order;
  Some (mkProcess x (mkAcceptor false (pending a) [] true) (io_pool p) (assigned p)).

(** Lines 398 to 433, the threads being joined. *)
Definition shutdown (order : list (option Z)) (p : Process) : option Process :=
  p ← acceptor_stop order p;
  let g := oe_gateway (exchange p) in
  m ← set_statuses Close (all_ids (instrument_mgr_ g)) (instrument_mgr_ g);
  let x := set_gateway (mkGateway m (risk_manager_ g) (exec_builder_ g) (command_queue_ g)) (exchange p) in
  Some (mkProcess x (acceptor p) (IoPoolOps.stop (io_pool p)) (assigned p)).
End process.

(** [main]: [files] is what is found at a path. *)
Section main.
Context {node : Type} (y : ConfigOps.YamlApi node) (files : string → option (outcome node)).
Definition main (hardware_concurrency : nat) (argv : list string) : Launch :=
  match parseArgs argv AppArgs_init with
  | inr _ => ExitSuccess
  | inl args =>
      match (cfg ← ConfigOps.loadConfig y (files (config_path args)); _ ← ConfigOps.validateConfig cfg; mret cfg) with
      | inl _ => ExitFailure
      | inr cfg =>
          let cfg := apply_overrides args cfg in
          if negb (known_mode cfg) then ExitFailure
          else match launch hardware_concurrency cfg with Some p => Running cfg (initLogging (log_level cfg)) p | None => Broken end
      end
  end.
End main.
End LifecycleOps.
