(* ===== verification/LifecycleTheorems.v ===== *)
(** * Theorems about the life of the process

    The exchange behind its acceptor, from the start to the end of [main]: what
    runs is a run of Exchange.v, registered sessions have open connections, and
    the shutdown closes everything. *)
From S2P Require Import Prelude Types Order Engine Instrument InstrumentManager Validator Risk Gateway GatewayTheorems.
From S2P Require Import Session SessionStep SessionInv SessionTheorems SessionManager Publisher Config ConfigTheorems.
From S2P Require Import PublisherTotal TcpConnection TcpTheorems Exchange ExchangeLemmas ExchangeInv Lifecycle.
Import InstrumentManagerOps SessionManagerOps ExchangeOps LifecycleOps.

(** ** Registered sessions have open connections *)
Definition tied (x : Exchange) : Prop := ∀ u, is_Some (sessions_ (session_mgr x) !! u) → flags x !! u = Some false.

Lemma tied_same x x' : same_shape x x' → tied x → tied x'.
Proof. intros [E1 E2 _] Ht u. rewrite E1, E2. apply Ht. Qed.
Lemma tied_fewer x x' : flags x' = flags x → sessions_ (session_mgr x') ⊆ sessions_ (session_mgr x) → tied x → tied x'.
Proof. intros E Hs Ht u [p Hp]. rewrite E. apply Ht. exists p. by eapply lookup_weaken. Qed.

Section steps.
Context (steady system report_clock engine_clock md_clock : nat → Z) (lib : openssl) (cfg : SessionConfig).
Abbreviation ok := (exchange_ok lib cfg).

(** What one event does to a connection, the callbacks included. *)
Lemma on_tcp_shape hist x u e x' : ok hist x → on_tcp steady system lib x u e = Some x' →
  insts x' = insts x ∧ dom (flags x') = dom (flags x) ∧ (∀ v, flags x !! v = Some true → flags x' !! v = Some true) ∧
  sessions_ (session_mgr x') ⊆ sessions_ (session_mgr x) ∧ (tied x → tied x').
Proof.
  intros Hx He.
  assert (x' = x ∨ ∃ c c' outs, connections_ x !! u = Some c ∧ TcpOps.tcp_step c e = Some (c', outs) ∧
    tcp_callbacks steady system lib (set_connection u c' x) u outs = Some x') as [-> | (c & c' & outs & Hc & Hs & Ht)].
  { unfold on_tcp in He. destruct (connections_ x !! u) as [c|]; [| destruct e; injection He as <-; by left].
    destruct e; first [by injection He as <-; left | by apply bind_Some in He as ([c' outs] & ? & ?); right; exists c, c', outs]. }
  { done. }
  apply tcp_callbacks_shape in Ht as (Ef & Ei & _ & Es). cbn in Es.
  assert (flags x' = <[u := closed_ c']> (flags x)) as Ef' by (rewrite Ef; unfold flags; cbn; by rewrite fmap_insert).
  assert (flags x !! u = Some (closed_ c)) as Hu by (unfold flags; by rewrite lookup_fmap, Hc).
  assert (closed_ c' = closed_ c ∧ disconnects outs = 0%nat ∨ closed_ c = false ∧ closed_ c' = true ∧ disconnects outs = 1%nat) as Hcase.
  { destruct (xo_tcp _ _ _ _ Hx _ _ Hc) as [(input & ps & H)|H].
    - destruct (open_step _ _ _ e H) as (c1 & outs1 & E & [[? H1]|(? & (H1 & _) & _)]); rewrite Hs in E; injection E as <- <-.
      + left. split; [| done]. by rewrite (proj1 H), (proj1 H1).
      + right. split_and!; [apply H | done | done].
    - destruct (closed_step _ e H) as (c1 & E & H1). rewrite Hs in E. injection E as <- ->. left. by rewrite (proj1 H), (proj1 H1). }
  split; [done |]. split; [| split; [| split]].
  - rewrite Ef', dom_insert_L. apply elem_of_dom_2 in Hu. set_solver.
  - intros v Hv. rewrite Ef'. apply lookup_insert_Some. destruct (decide (u = v)) as [<-|]; [left | by right]. split; [done |].
    rewrite Hu in Hv. injection Hv as Hv. destruct Hcase as [[-> _]|(? & ? & _)]; congruence.
  - rewrite Es. case_decide; [done | apply delete_subseteq].
  - intros Ht v. rewrite Es, Ef'. destruct Hcase as [[-> ->]|(_ & -> & ->)].
    + rewrite decide_True by done. intros Hv%Ht. rewrite lookup_insert_Some. destruct (decide (u = v)) as [<-|]; [left; split; [done | congruence] | by right].
    + rewrite decide_False, lookup_delete_is_Some by done. intros [Hne Hv%Ht]. by rewrite lookup_insert_ne.
Qed.

Lemma step_shape hist x e x' : ok hist x → e ≠ XConnect →
  exchange_step steady system report_clock engine_clock md_clock lib cfg x e = Some x' →
  insts x' = insts x ∧ dom (flags x') = dom (flags x) ∧ (tied x → tied x').
Proof.
  intros Hx Hne. destruct e as [|u e|order|perm|ch|order]; cbn; [done | | | | |].
  - intros (? & ? & _ & _ & ?)%(on_tcp_shape hist); done.
  - intros (Ef & Es & ? & _)%engine_round_shape. split_and!; [done | by rewrite Ef | apply tied_fewer; by rewrite ?Es].
  - intros (Ef & ? & _ & ?)%timer_round_shape. split_and!; [done | by rewrite Ef | by apply tied_fewer].
  - unfold snapshot_round. destruct (_ !! ch) as [c|]; [| by intros [= <-]]. by intros ([] & _ & [= <-])%bind_Some.
  - unfold definition_round. by intros (q & _ & [= <-])%bind_Some.
Qed.

Lemma connect_shape hist x x' : ok hist x → next_uuid_ (session_mgr x) < 2 ^ 64 - 1 → on_connection steady system lib cfg x = Some x' →
  insts x' = insts x ∧ dom (flags x') = (if handle x is Some u then {[u]} else ∅) ∪ dom (flags x) ∧ (tied x → tied x').
Proof.
  intros Hx Hn. unfold on_connection, createSession, handle. destruct (_ <=? _) eqn:Ecap.
  { intros [= <-]. split_and!; [done | | done]. unfold flags. cbn. set_solver. }
  cbn [fst snd]. set (p := fresh _). set (s0 := SessionOps.Session_init _ _ _ _ _). set (m0 := mkManager _ _ _ _ _ _).
  assert (∀ m, sessions_ m = sessions_ m0 → (∃ s, session_heap m !! p = Some s ∧ uuid_ s = next_uuid_ (session_mgr x)) →
    (s ← session_heap m !! p; Some (set_connection (uuid_ s) (TcpOps.start TcpOps.TcpConnection_init) (set_manager m x))) = Some x' →
    insts x' = insts x ∧ dom (flags x') = {[next_uuid_ (session_mgr x)]} ∪ dom (flags x) ∧ (tied x → tied x')) as Hend.
  { intros m Es (s & -> & Eu) [= <-]. rewrite Eu. split_and!; [done | |].
    - unfold flags. cbn. rewrite fmap_insert, dom_insert_L. done.
    - intros Ht v. unfold flags. cbn. rewrite Es, fmap_insert. cbn. rewrite lookup_insert_is_Some, lookup_insert_Some.
      intros [->|[? Hv%Ht]]; [by left | by right]. }
  assert (session_heap m0 !! p = Some s0) as Hp0 by apply lookup_insert_eq.
  destruct (hmac_enabled cfg).
  - intros (m & Hm & H)%bind_Some. apply bind_Some in Hm as (m1 & H1 & H2).
    rewrite (set_session_run steady system lib _ _ _ (SetHmacEnabled true) (set_hmac_enabled true) Hp0) in H1 by done.
    injection H1 as <-.
    erewrite (set_session_run steady system lib _ _ _ (SetHmacKey (key_bytes cfg)) (set_hmac_key (key_bytes cfg))) in H2;
      [| apply lookup_insert_eq | done]. injection H2 as <-.
    eapply Hend; [| | exact H]; [done |]. eexists. split; [apply lookup_insert_eq | done].
  - apply Hend; [done |]. by exists s0.
Qed.
End steps.

(** ** The process while it runs *)

(** What the exchange sees of a sequence of events: connections are accepted until
    the first accept that fails. *)
Fixpoint project (accepting : bool) (es : list MainEvent) : list XEvent :=
  match es with
  | [] => []
  | MAccept true :: es => project false es
  | MAccept false :: es => (if accepting then [XConnect] else []) ++ project accepting es
  | MExchange XConnect :: es => project accepting es
  | MExchange e :: es => e :: project accepting es
  end.

Definition sessions_of (conns : list (option Z)) : gset Z := list_to_set (omap id conns).
Definition accepting (p : Process) : bool := bool_decide (is_Some (pending (acceptor p))).

Section running.
Context (steady system report_clock engine_clock md_clock : nat → Z) (lib : openssl) (cfg : SessionConfig).
Context (n : nat) (m0 : InstrumentManager).
Abbreviation ok := (exchange_ok lib cfg).
Abbreviation run := (main_run steady system report_clock engine_clock md_clock lib cfg).
Abbreviation xrun := (exchange_run steady system report_clock engine_clock md_clock lib cfg).
Abbreviation hist_of := (history steady system report_clock engine_clock md_clock lib cfg).

Record running_ok (hist : list (Z * list byte)) (p : Process) : Prop := {
  ro_exchange : ok hist (exchange p);
  ro_md : md_ok (exchange p);
  ro_tied : tied (exchange p);
  ro_insts : insts (exchange p) = m0;
  ro_tracked : dom (flags (exchange p)) = sessions_of (acceptor_connections_ (acceptor p));
  ro_open : listening (acceptor p) = true ∧ stopped_ (acceptor p) = false;
  ro_pool : length (io_contexts_ (io_pool p)) = n ∧ (next_io_context_ (io_pool p) < n)%nat;
  ro_turns : ∀ k c, assigned p !! k = Some c → c = (k mod n)%nat;
  ro_count : length (assigned p) = length (acceptor_connections_ (acceptor p));
  ro_next : accepting p = true → pending (acceptor p) = Some (length (assigned p) mod n)%nat ∧
    next_io_context_ (io_pool p) = (S (length (assigned p)) mod n)%nat;
}.

Lemma get_io_context_ok (q : IoContextPool) : length (io_contexts_ q) = n → (next_io_context_ q < n)%nat →
  ∃ q', IoPoolOps.get_io_context q = Some (next_io_context_ q, q') ∧ length (io_contexts_ q') = n ∧
    next_io_context_ q' = ((next_io_context_ q + 1) mod n)%nat ∧ (next_io_context_ q' < n)%nat.
Proof.
  intros Hl Hn. unfold IoPoolOps.get_io_context. destruct (lookup_lt_is_Some_2 (io_contexts_ q) (next_io_context_ q)) as [c ->]; [lia |].
  cbn. rewrite Hl. eexists. split; [done |]. cbn. split_and!; [done | done |]. apply Nat.mod_upper_bound. lia.
Qed.
Lemma succ_mod k : n ≠ 0%nat → ((k mod n + 1) mod n = S k mod n)%nat.
Proof. intros Hn. rewrite Nat.Div0.add_mod_idemp_l. f_equal. lia. Qed.

Lemma accept_ok hist p : running_ok hist p → accepting p = true → next_uuid_ (session_mgr (exchange p)) < 2 ^ 64 - 1 →
  ∃ p', on_accept steady system lib cfg false p = Some p' ∧ running_ok hist p' ∧ accepting p' = true ∧
    on_connection steady system lib cfg (exchange p) = Some (exchange p') ∧
    next_uuid_ (session_mgr (exchange p')) ≤ next_uuid_ (session_mgr (exchange p)) + 1 ∧ x_ids (exchange p') = x_ids (exchange p).
Proof.
  intros [Hx Hmd Ht Hi Htr [Hl Hst] [Hn1 Hn2] Htu Hco Hne] Ha Hu. destruct (Hne Ha) as [Hp Hnx]. unfold on_accept. rewrite Hp.
  destruct (on_connection_step steady system lib cfg hist _ Hx Hu) as (x' & E & Hx' & Hu' & Hids). rewrite E. cbn.
  destruct (connect_shape steady system lib cfg hist _ _ Hx Hu E) as (Ei & Ed & Hti).
  unfold do_accept. cbn. rewrite Hst.
  destruct (get_io_context_ok (io_pool p) Hn1 Hn2) as (q & -> & Hq1 & Hq2 & Hq3). cbn.
  eexists. split; [done |]. split; [split; cbn | split_and!; done].
  - done.
  - apply on_connection_md in E as [? ?]. by eapply md_ok_same.
  - by apply Hti.
  - by rewrite Ei.
  - rewrite Ed, Htr. unfold sessions_of. destruct (handle (exchange p)) as [v|]; cbn; set_solver.
  - done.
  - done.
  - intros k c [Hk|[Hk Hc]]%lookup_app_Some; [by apply Htu |]. apply list_lookup_singleton_Some in Hc as [Hk' <-].
    f_equal. lia.
  - rewrite length_app, Hco. cbn. lia.
  - intros _. rewrite length_app. cbn. rewrite Nat.add_1_r, Hnx, <-succ_mod by lia. split; [done |]. rewrite Hq2, Hnx. apply succ_mod. lia.
Qed.

Lemma other_ok hist p e x' : running_ok hist p → e ≠ XConnect → ok (hist ++ handed (exchange p) e) x' →
  exchange_step steady system report_clock engine_clock md_clock lib cfg (exchange p) e = Some x' →
  running_ok (hist ++ handed (exchange p) e) (set_exchange x' p).
Proof.
  intros [Hx Hmd Ht Hi Htr Hl Hn Htu Hco Hne] He Hx' E. destruct (step_shape _ _ _ _ _ _ _ hist _ _ _ Hx He E) as (Ei & Ed & Hti).
  split; cbn; try done; [by eapply step_md | by apply Hti | by rewrite Ei | by rewrite Ed].
Qed.

Lemma run_ok es : ∀ hist p, running_ok hist p → let pes := project (accepting p) es in
  Forall event_allowed pes → Forall (client_ok ∘ snd) (hist_of (exchange p) pes) →
  next_uuid_ (session_mgr (exchange p)) + total_cost pes < 2 ^ 64 - 1 → x_ids (exchange p) + total_cost pes < 2 ^ 64 →
  ∃ p', run p es = Some p' ∧ xrun (exchange p) pes = Some (exchange p') ∧ running_ok (hist ++ hist_of (exchange p) pes) p'.
Proof.
  induction es as [|e es IH]; intros hist p Hp pes Ha Hh Hn Hi; subst pes.
  { exists p. cbn. by rewrite app_nil_r. }
  assert (∀ es, 0 ≤ total_cost es) as Hpos by exact total_cost_nonneg.
  destruct e as [[]|e].
  - (* the accept fails *)
    assert (main_step steady system report_clock engine_clock md_clock lib cfg p (MAccept true) = Some (mkProcess (exchange p) (set_pending None (acceptor p)) (io_pool p) (assigned p))) as E.
    { cbn. unfold on_accept. destruct (pending (acceptor p)) eqn:E; [done |]. destruct p as [x [] q l]. cbn in *. by subst. }
    cbn [main_run project] in *. rewrite E. cbn [mbind option_bind].
    apply (IH hist (mkProcess (exchange p) (set_pending None (acceptor p)) (io_pool p) (assigned p))); try done.
    destruct Hp as [Hx Hmd Ht Hii Htr Hl Hpo Htu Hco Hne]. by split.
  - destruct (accepting p) eqn:Eacc; cbn [project app] in *.
    + (* a connection *)
      apply Forall_cons in Ha as [_ Ha]. change (total_cost (XConnect :: ?l)) with (1 + total_cost l) in Hn, Hi.
      pose proof (Hpos (project true es)).
      destruct (accept_ok hist p Hp Eacc ltac:(lia)) as (p1 & E & Hp1 & Ea1 & Ex & Hu1 & Hi1).
      cbn [main_run main_step]. rewrite E. cbn [mbind option_bind]. cbn [history] in Hh. unfold step_of in Hh |- *. cbn [exchange_run exchange_step handed history app] in *.
      unfold step_of. cbn [exchange_step]. rewrite Ex in Hh |- *. cbn [mbind option_bind]. rewrite <-Ea1 in *. apply IH; [done | done | done | lia | lia].
    + assert (pending (acceptor p) = None) as Ep by (apply bool_decide_eq_false in Eacc; by apply eq_None_not_Some).
      cbn [main_run main_step]. unfold on_accept. rewrite Ep. cbn [mbind option_bind]. rewrite <-Eacc in *. by apply IH.
  - assert (e = XConnect ∨ e ≠ XConnect) as [->|He] by (destruct e; by auto).
    { cbn [main_run main_step project mbind option_bind] in *. by apply IH. }
    assert (project (accepting p) (MExchange e :: es) = e :: project (accepting p) es) as E by (by destruct e).
    rewrite E in *. apply Forall_cons in Ha as [Ha1 Ha]. cbn [history] in Hh. apply Forall_app in Hh as [Hh1 Hh].
    change (total_cost (e :: ?l)) with (cost e + total_cost l) in Hn, Hi. pose proof (Hpos (project (accepting p) es)).
    assert (next_uuid_ (session_mgr (exchange p)) + cost e < 2 ^ 64) by lia. assert (x_ids (exchange p) + cost e < 2 ^ 64) by lia.
    destruct (exchange_step_ok steady system report_clock engine_clock md_clock lib cfg hist _ e (ro_exchange _ _ Hp) (ro_md _ _ Hp) Ha1 Hh1) as (x' & Es & Hx' & _ & Hn1 & Hi1); [done | done |].
    rewrite Es in Hh. pose proof (other_ok hist p e x' Hp He Hx' Es) as Hp1.
    assert (run p (MExchange e :: es) = run (set_exchange x' p) es) as Er.
    { unfold step_of in Es. cbn [main_run main_step]. destruct e; [done | by rewrite Es..]. }
    rewrite Er. cbn [exchange_run history]. rewrite Es. unfold step_of in Es. rewrite Es. cbn [mbind option_bind]. rewrite app_assoc.
    apply (IH _ _ Hp1); change (accepting (set_exchange x' p)) with (accepting p); cbn [exchange set_exchange]; try done; lia.
Qed.
End running.

(** ** Statuses *)
Definition registered (m : InstrumentManager) : Prop := indexes (all_ids m) (by_security_id_ m) ∧ NoDup (all_ids m).
Definition all_status (status : SecurityTradingStatus) (m : InstrumentManager) : Prop := Forall (λ i, trading_status i = status) (instruments_ m).

(** [m'] is [m] with the instruments of [ids] in a status. *)
Definition statuses_set (status : SecurityTradingStatus) (ids : list SecurityId) (m m' : InstrumentManager) : Prop :=
  all_ids m' = all_ids m ∧ by_security_id_ m' = by_security_id_ m ∧
  ∀ k i', instruments_ m' !! k = Some i' → ∃ i, instruments_ m !! k = Some i ∧
    trading_status i' = if decide (in_security_id i ∈ ids) then status else trading_status i.

Lemma registered_set status ids m m' : registered m → statuses_set status ids m m' → registered m'.
Proof. unfold registered. by intros ? (-> & -> & _). Qed.
Lemma status_one m id status : registered m → ∃ m', setTradingStatus m id status = Some m' ∧ statuses_set status [id] m m'.
Proof.
  intros [Hix Hnd]. unfold setTradingStatus. destruct (by_security_id_ m !! id) as [k|] eqn:E.
  - apply Hix in E as [Hk _]. pose proof Hk as Hk'. unfold all_ids in Hk'. apply list_lookup_fmap_Some in Hk' as (i & -> & Hi). rewrite Hi. cbn.
    eexists. split; [done |]. split_and!; [| done |].
    + unfold all_ids. cbn. rewrite list_fmap_insert. apply list_insert_id. by rewrite list_lookup_fmap, Hi.
    + intros j i'. cbn. intros [(-> & <- & _)|[Hne Hj]]%list_lookup_insert_Some; [exists i; split; [done |]; by rewrite decide_True by set_solver |].
      exists i'. split; [done |]. rewrite decide_False; [done |]. intros Hid%list_elem_of_singleton.
      apply Hne. eapply (NoDup_lookup (all_ids m)); [done | exact Hk |]. unfold all_ids. by rewrite list_lookup_fmap, Hj, <-Hid.
  - exists m. split; [done |]. split_and!; [done | done |]. intros k i Hi. exists i. split; [done |].
    rewrite decide_False; [done |]. intros Hid%list_elem_of_singleton.
    assert (by_security_id_ m !! id = Some k) as E'; [| congruence]. apply Hix.
    assert (all_ids m !! k = Some id) as Hk by (unfold all_ids; by rewrite list_lookup_fmap, Hi, <-Hid).
    split; [done |]. intros j Hj. by rewrite (NoDup_lookup _ _ _ _ Hnd Hk Hj).
Qed.
Lemma statuses_all status ids : ∀ m, registered m → ∃ m', set_statuses status ids m = Some m' ∧ statuses_set status ids m m'.
Proof.
  induction ids as [|id ids IH]; intros m Hm; cbn.
  - exists m. split; [done |]. split_and!; [done | done |]. intros k i Hi. by exists i.
  - destruct (status_one m id status Hm) as (m1 & -> & H1). cbn. destruct (IH m1 (registered_set _ _ _ _ Hm H1)) as (m2 & -> & H2).
    exists m2. split; [done |]. destruct H1 as (A1 & B1 & C1), H2 as (A2 & B2 & C2). split_and!; [congruence | congruence |].
    intros k i2 Hi2. destruct (C2 _ _ Hi2) as (i1 & Hi1 & E2). destruct (C1 _ _ Hi1) as (i & Hi & E1). exists i. split; [done |].
    assert (in_security_id i1 = in_security_id i) as Eid.
    { pose proof (f_equal (.!! k) A1) as E. unfold all_ids in E. rewrite !list_lookup_fmap, Hi, Hi1 in E. by injection E. }
    rewrite E2, E1, Eid. repeat case_decide; set_solver.
Qed.
Lemma statuses_every status m : registered m →
  ∃ m', set_statuses status (all_ids m) m = Some m' ∧ registered m' ∧ all_status status m' ∧ all_ids m' = all_ids m.
Proof.
  intros Hm. destruct (statuses_all status (all_ids m) m Hm) as (m' & E & Hs). exists m'. split; [done |]. split; [by eapply registered_set |].
  destruct Hs as (A & _ & C). split; [| done]. apply Forall_lookup. intros k i' Hi'. destruct (C _ _ Hi') as (i & Hi & ->).
  apply decide_True. unfold all_ids. apply list_elem_of_fmap. exists i. split; [done |]. by eapply list_elem_of_lookup_2.
Qed.

(** ** Shutdown *)
Section shutdown.
Context (steady system : nat → Z) (lib : openssl) (cfg : SessionConfig).

Lemma close_one hist x u : exchange_ok lib cfg hist x → ∃ x', on_tcp steady system lib x u TClose = Some x' ∧
  exchange_ok lib cfg hist x' ∧ insts x' = insts x ∧ dom (flags x') = dom (flags x) ∧ (tied x → tied x') ∧
  (∀ v, flags x !! v = Some true → flags x' !! v = Some true) ∧ (u ∈ dom (flags x) → flags x' !! u = Some true).
Proof.
  intros Hx. assert (handed x (XTcp u TClose) = []) as Hh.
  { cbn. destruct (connections_ x !! u) as [c|]; [| done]. unfold TcpOps.close. by destruct (closed_ c), (on_disconnect_ c). }
  destruct (on_tcp_step steady system lib cfg hist x u TClose Hx) as (x' & E & Hx' & _); [by rewrite Hh |].
  rewrite Hh, app_nil_r in Hx'. destruct (on_tcp_shape steady system lib cfg hist x u TClose x' Hx E) as (Ei & Ed & Hm & _ & Ht).
  exists x'. split_and!; try done. intros [b Hb]%elem_of_dom. unfold flags in Hb. rewrite lookup_fmap in Hb.
  unfold on_tcp in E. destruct (connections_ x !! u) as [c|] eqn:Ec; [| done].
  apply bind_Some in E as ([c' outs] & [= Es] & (-> & _)%tcp_callbacks_shape). unfold flags. cbn. rewrite fmap_insert, lookup_insert_eq.
  unfold TcpOps.close in Es. destruct (closed_ c) eqn:Ecl; simplify_eq; cbn; by rewrite ?Ecl.
Qed.

Lemma close_all_ok conns : ∀ hist x, exchange_ok lib cfg hist x → ∃ x', close_all steady system lib x conns = Some x' ∧
  exchange_ok lib cfg hist x' ∧ insts x' = insts x ∧ dom (flags x') = dom (flags x) ∧ (tied x → tied x') ∧
  (∀ v, flags x !! v = Some true → flags x' !! v = Some true) ∧ (∀ u, Some u ∈ conns → u ∈ dom (flags x) → flags x' !! u = Some true).
Proof.
  induction conns as [|[u|] conns IH]; intros hist x Hx; cbn [close_all].
  - exists x. split_and!; try done. by intros u ?%not_elem_of_nil.
  - destruct (close_one hist x u Hx) as (x1 & -> & Hx1 & Ei1 & Ed1 & Ht1 & Hm1 & Hu1). cbn [mbind option_bind].
    destruct (IH hist x1 Hx1) as (x2 & -> & Hx2 & Ei2 & Ed2 & Ht2 & Hm2 & Hu2). exists x2.
    split_and!; [done | done | congruence | congruence | auto | auto |].
    intros v [[= ->]|Hv]%elem_of_cons Hd; [auto |]. apply Hu2; [done |]. by rewrite Ed1.
  - destruct (IH hist x Hx) as (x2 & -> & Hx2 & Ei2 & Ed2 & Ht2 & Hm2 & Hu2). exists x2. split_and!; try done.
    intros v [?|Hv]%elem_of_cons Hd; [done | by apply Hu2].
Qed.

Lemma shutdown_ok n m0 hist p order : registered m0 → running_ok lib cfg n m0 hist p → order ≡ₚ acceptor_connections_ (acceptor p) →
  ∃ p', shutdown steady system lib order p = Some p' ∧ sessions_ (session_mgr (exchange p')) = ∅ ∧
    map_Forall (λ _, is_closed) (connections_ (exchange p')) ∧ all_status Types.Close (insts (exchange p')) ∧
    connection_count p' = 0%nat ∧ listening (acceptor p') = false ∧ threads_ (io_pool p') = [] ∧
    Forall (λ c, ctx_stopped c = true) (io_contexts_ (io_pool p')).
Proof.
  intros Hm0 Hp Ho. pose proof Hp as [Hx _ Ht Hi Htr _ _ _ _ _]. unfold shutdown, acceptor_stop.
  destruct (close_all_ok order hist (exchange p) Hx) as (x1 & -> & Hx1 & Ei & Ed & Ht1 & _ & Hcl). cbn.
  fold (insts x1). rewrite Ei, Hi. destruct (statuses_every Types.Close m0 Hm0) as (m' & -> & _ & Hst & _). cbn.
  assert (∀ u b, flags x1 !! u = Some b → b = true) as Hall.
  { intros u b Hb. assert (u ∈ dom (flags (exchange p))) as Hu by (rewrite <-Ed; by eapply elem_of_dom_2).
    rewrite Hcl in Hb; [by injection Hb | | done]. rewrite Ho. rewrite Htr in Hu. unfold sessions_of in Hu.
    apply elem_of_list_to_set, list_elem_of_omap in Hu as (h & Hh & Eh). unfold id in Eh. by subst h. }
  eexists. split; [done |]. cbn. split_and!; try done.
  - apply map_empty. intros u. apply eq_None_not_Some. intros Hs. apply (Ht1 Ht) in Hs. by apply Hall in Hs.
  - intros u c Hc. destruct (xo_tcp _ _ _ _ Hx1 _ _ Hc) as [(input & ps & H)|H]; [| done].
    assert (flags x1 !! u = Some (closed_ c)) as Hf by (unfold flags; by rewrite lookup_fmap, Hc).
    apply Hall in Hf. by rewrite (proj1 H) in Hf.
  - by apply Forall_fmap, Forall_true.
Qed.
End shutdown.

(** ** The start *)
Lemma boot_state cfg x : config_ok cfg → boot cfg = Some x →
  registered (insts x) ∧ all_status Types.Open (insts x) ∧ connections_ x = ∅ ∧ sessions_ (session_mgr x) = ∅.
Proof.
  intros Hc. unfold boot. destruct (load_ok InstrumentManager_init (instruments cfg) (channels cfg)) as (m & -> & Hl). cbn [mbind option_bind].
  assert (registered m) as Hm.
  { split; [exact (ld_security _ _ _ Hl) |]. unfold all_ids. rewrite (ld_instruments _ _ _ Hl), <-list_fmap_compose.
    exact (vc_security_ids _ _ (co_valid _ Hc)). }
  destruct (statuses_every PreOpen m Hm) as (m1 & -> & Hm1 & _). cbn [mbind option_bind].
  destruct (_ && _); [done |].
  destruct (statuses_every Types.Open m1 Hm1) as (m2 & -> & Hm2 & Ho & _). cbn [mbind option_bind]. intros [= <-].
  split_and!; [exact Hm2 | exact Ho | done | done].
Qed.

Lemma boot_override args cfg : known_mode cfg = true → known_mode (apply_overrides args cfg) = true → boot (apply_overrides args cfg) = boot cfg.
Proof.
  unfold known_mode. intros H1 H2. unfold boot. rewrite <-!negb_orb, H1, H2. done.
Qed.
Lemma valid_mode cfg : accepted_config cfg → known_mode cfg = true.
Proof. intros Hv. unfold known_mode. apply orb_true_iff. rewrite !bool_decide_eq_true. destruct (vc_mode _ _ Hv) as [?|[? _]]; auto. Qed.

Lemma launch_ok hardware cfg args lib : config_ok cfg → known_mode (apply_overrides args cfg) = true →
  ∃ p0, launch hardware (apply_overrides args cfg) = Some p0 ∧ boot cfg = Some (exchange p0) ∧ accepting p0 = true ∧
    next_uuid_ (session_mgr (exchange p0)) = 1 ∧ x_ids (exchange p0) = 1 ∧
    registered (insts (exchange p0)) ∧ all_status Types.Open (insts (exchange p0)) ∧
    running_ok lib (session cfg) (Z.to_nat (io_threads (network cfg))) (insts (exchange p0)) [] p0.
Proof.
  intros Hc Hm. pose proof (valid_mode _ (co_valid _ Hc)) as Hm0. unfold launch. rewrite boot_override by done.
  destruct (boot_ok cfg lib Hc) as (x & E & Hx & Hmd & Hn & Hi). rewrite E. cbn [mbind option_bind].
  destruct (boot_state cfg x Hc E) as (Hr & Ho & Hcn & Hs). pose proof (vc_threads _ _ (co_valid _ Hc)) as Ht.
  cbn [network apply_overrides]. set (n := Z.to_nat _). assert (n ≠ 0%nat) as Hnz by lia.
  unfold do_accept, IoPoolOps.get_io_context. cbn [stopped_ acceptor io_pool TcpAcceptor_init].
  assert (IoPoolOps.IoContextPool_init n hardware = mkIoPool (replicate n (mkContext true false)) [] 0) as -> by (unfold IoPoolOps.IoContextPool_init; by destruct n).
  cbn [io_contexts_ next_io_context_]. rewrite lookup_replicate_2 by lia. cbn [mbind option_bind exchange acceptor assigned io_pool fst snd].
  eexists. split; [done |]. unfold insts in *. split_and!; try done. split; cbn; try done.
  - intros u. rewrite Hs, lookup_empty. by intros [? ?].
  - unfold flags. rewrite Hcn. unfold sessions_of. cbn. by rewrite fmap_empty, dom_empty_L.
  - unfold IoPoolOps.start. cbn. rewrite length_replicate. split; [done |]. apply Nat.mod_upper_bound. lia.
  - unfold IoPoolOps.start. cbn. rewrite length_replicate. by rewrite Nat.Div0.mod_0_l.
Qed.

(** ** The theorem *)

(** C40: the process from its command line to its end. If the arguments do not ask
    for help, the file they name loads with identifiers of 32 bits, ticks of at
    least a billionth and instruments that can be defined, and the mode the
    arguments leave is one of the two, then [main] starts; and for any sequence of
    accepts (failed ones too) and of events of the exchange that C4 allows (complete
    client messages, modify quantities that fit [int32_t], identifiers that do not
    run out):
    - the exchange runs as in C4, seeing the connections up to the first accept
      that failed and none after it;
    - every registered session has an open connection, every instrument is open,
      all accepted connections are still counted, and the [k]-th of them runs on
      context [k] modulo the configured number of threads;
    - the shutdown, in whatever order the connections are closed, ends with every
      connection closed, no session registered, every instrument closed, the
      listening socket closed, the contexts stopped, and 0 connections counted. *)
Theorem process_lifecycle {node} (y : ConfigOps.YamlApi node) files steady system report_clock engine_clock md_clock lib
    hardware argv args cfg es :
  parseArgs argv AppArgs_init = inl args → ConfigOps.loadConfig y (files (config_path args)) = inr cfg →
  Forall (λ ic, ic_security_id ic ∈i 32) (instruments cfg) →
  Forall (λ ic, ∃ t, InstrumentOps.tickMantissa (make_instrument ic) = Some t ∧ 0 < t) (instruments cfg) →
  Forall (λ ic, definable (make_instrument ic)) (instruments cfg) →
  known_mode (apply_overrides args cfg) = true →
  ∃ p0, main y files hardware argv = Running (apply_overrides args cfg) (initLogging (log_level (apply_overrides args cfg))) p0 ∧
    boot cfg = Some (exchange p0) ∧
    let xs := project true es in let threads := Z.to_nat (io_threads (network cfg)) in
    (Forall event_allowed xs →
     Forall (client_ok ∘ snd) (history steady system report_clock engine_clock md_clock lib (session cfg) (exchange p0) xs) →
     total_cost xs < 2 ^ 64 - 2 →
     ∃ p, main_run steady system report_clock engine_clock md_clock lib (session cfg) p0 es = Some p ∧
       exchange_run steady system report_clock engine_clock md_clock lib (session cfg) (exchange p0) xs = Some (exchange p) ∧
       tied (exchange p) ∧ all_status Types.Open (insts (exchange p)) ∧ connection_count p = length (assigned p) ∧
       (∀ k c, assigned p !! k = Some c → c = (k mod threads)%nat) ∧
       ∀ order, order ≡ₚ acceptor_connections_ (acceptor p) →
         ∃ p', shutdown steady system lib order p = Some p' ∧ sessions_ (session_mgr (exchange p')) = ∅ ∧
           map_Forall (λ _, is_closed) (connections_ (exchange p')) ∧ all_status Types.Close (insts (exchange p')) ∧
           connection_count p' = 0%nat ∧ listening (acceptor p') = false ∧ threads_ (io_pool p') = [] ∧
           Forall (λ c, ctx_stopped c = true) (io_contexts_ (io_pool p'))).
Proof.
  intros Hargs Hload Hids Hticks Hdef Hmode. destruct (load_config_valid y _ _ Hload) as [Hv _].
  assert (config_ok cfg) as Hc by done.
  destruct (launch_ok hardware cfg args lib Hc Hmode) as (p0 & Hl & Hb & Ha & Hn & Hi & Hr & Ho & Hp).
  exists p0. split; [| split; [done |]].
  { unfold main. rewrite Hargs, Hload. cbn [mbind outcome_bind]. rewrite (proj2 (validate_iff cfg) Hv). cbn [mbind outcome_bind mret outcome_ret].
    by rewrite Hmode, Hl. }
  intros xs threads Hall Hcl Hcost. unfold xs in *.
  pose proof (run_ok steady system report_clock engine_clock md_clock lib (session cfg) threads (insts (exchange p0)) es [] p0 Hp) as Hr'.
  rewrite Ha in Hr'. destruct (Hr' Hall Hcl) as (p & Hrun & Hx & Hp'); [lia | lia |].
  pose proof Hp' as [_ _ Ht Hin _ _ _ Htu Hco _]. exists p. split_and!; [done | done | done | by rewrite Hin | done | done |].
  intros order Hord. by eapply shutdown_ok.
Qed.

(** A client connects and another; one sends rubbish; the engine and the timer run;
    an accept fails, and the next connection is not seen. *)
Module LifeDemo.
Definition files (path : string) : option (outcome yaml) := if bool_decide (path = "x.yaml"%string) then Some (inr demo_file) else None.
Definition argv : list string := ["--config"; "x.yaml"; "--verbose"; "--mode"; "synthetic"; "--mode"]%string.
Definition args : AppArgs := mkArgs "x.yaml" "" "synthetic".
Definition cfg : ExchangeConfig :=
  match ConfigOps.loadConfig yaml_demo (files "x.yaml") with inr c => c | inl _ => ConfigOps.createDefaultConfig end.
Definition clock (n : nat) : Z := 1000 + Z.of_nat n.
Definition events : list MainEvent :=
  [MAccept false; MExchange (XDefinitions [310]); MAccept false; MExchange (XTcp 1 (TReceive (replicate 6 Init.Byte.x00)));
   MExchange (XEngine [310]); MExchange (XSnapshot 310); MExchange (XTimer id); MAccept true; MAccept false].
Lemma one_instrument : ∃ ic, instruments cfg = [ic] ∧ ic_security_id ic = 1 ∧ InstrumentOps.tickMantissa (make_instrument ic) = Some 1000000000 ∧
  definable (make_instrument ic).
Proof.
  eexists. split; [vm_compute; reflexivity |]. split; [vm_compute; reflexivity |]. split; [vm_compute; reflexivity |].
  split; vm_compute; eexists; reflexivity.
Qed.
Lemma silent x : boot cfg = Some x → history clock clock clock clock clock None (session cfg) x (project true events) = [].
Proof. intros E. vm_compute in E. injection E as <-. vm_compute. reflexivity. Qed.
Definition turns (p : Process) : list nat * list (option Z) := (assigned p, acceptor_connections_ (acceptor p)).
Lemma accepted p0 p : main yaml_demo files 8 argv = Running (apply_overrides args cfg) lvl_warn p0 →
  main_run clock clock clock clock clock None (session cfg) p0 events = Some p → turns p = ([0; 1]%nat, [Some 2; Some 1]).
Proof. intros E. vm_compute in E. injection E as <-. intros E. vm_compute in E. injection E as <-. reflexivity. Qed.
End LifeDemo.

Lemma process_lifecycle_witness :
  ∃ p0 p p', main yaml_demo LifeDemo.files 8 LifeDemo.argv = Running (apply_overrides LifeDemo.args LifeDemo.cfg) lvl_warn p0 ∧
    main_run LifeDemo.clock LifeDemo.clock LifeDemo.clock LifeDemo.clock LifeDemo.clock None (session LifeDemo.cfg) p0 LifeDemo.events = Some p ∧
    tied (exchange p) ∧ assigned p = [0; 1]%nat ∧
    shutdown LifeDemo.clock LifeDemo.clock None [Some 1; Some 2] p = Some p' ∧ connection_count p' = 0%nat ∧ sessions_ (session_mgr (exchange p')) = ∅.
Proof.
  destruct (process_lifecycle yaml_demo LifeDemo.files LifeDemo.clock LifeDemo.clock LifeDemo.clock LifeDemo.clock LifeDemo.clock None 8
    LifeDemo.argv LifeDemo.args LifeDemo.cfg LifeDemo.events) as (p0 & Hm & Hb & H).
  - vm_compute. reflexivity.
  - vm_compute. reflexivity.
  - destruct LifeDemo.one_instrument as (ic & -> & Ei & _). apply Forall_singleton. rewrite Ei. lia.
  - destruct LifeDemo.one_instrument as (ic & -> & _ & Et & _). apply Forall_singleton. exists 1000000000. split; [exact Et | lia].
  - destruct LifeDemo.one_instrument as (ic & -> & _ & _ & Hd). apply Forall_singleton. exact Hd.
  - vm_compute. reflexivity.
  - assert (initLogging (log_level (apply_overrides LifeDemo.args LifeDemo.cfg)) = lvl_warn) as El by (vm_compute; reflexivity).
    rewrite El in Hm. destruct H as (p & Hrun & _ & Ht & _ & _ & _ & Hs).
    + repeat (apply Forall_cons_2; [by try intros l |]). apply Forall_nil_2.
    + rewrite (LifeDemo.silent _ Hb). apply Forall_nil_2.
    + vm_compute. reflexivity.
    + pose proof (LifeDemo.accepted _ _ Hm Hrun) as Ea. injection Ea as Ea1 Ea2.
      destruct (Hs [Some 1; Some 2]) as (p' & Hsh & Hse & _ & _ & Hcc & _).
      { rewrite Ea2. apply Permutation_swap. }
      exists p0, p, p'. split_and!; [exact Hm | exact Hrun | exact Ht | exact Ea1 | exact Hsh | exact Hcc | exact Hse].
Defined.

(** An accept that completed before the shutdown and whose handler runs after it:
    the connection is tracked and stays open, its session registered. *)
Example late_accept :
  match main yaml_demo LifeDemo.files 8 LifeDemo.argv with
  | Running cfg _ p =>
      (λ p, (connection_count p, size (sessions_ (session_mgr (exchange p))), flags (exchange p) !! 1)) <$>
        (p ← shutdown LifeDemo.clock LifeDemo.clock None [] p; on_accept LifeDemo.clock LifeDemo.clock None (session cfg) false p)
      = Some (1%nat, 1%nat, Some false)
  | _ => False
  end.
Proof. vm_compute. reflexivity. Qed.

(** Two levels the validation accepts do not exist for the logger. *)
Example levels_without_effect :
  Forall (λ l, l ∈ ConfigOps.valid_levels ∧ initLogging l = lvl_info) ["critical"; "off"]%string.
Proof. repeat (apply Forall_cons_2; [split; [by apply (bool_decide_unpack _) | reflexivity] |]). apply Forall_nil_2. Qed.
