(* ===== verification/ExchangeTheorems.v ===== *)

(** * Theorems about the exchange process

    From the bytes on the clients' connections to the books, with all components
    wired together as [main] wires them; and, at any moment of any run, what the
    snapshot and instrument definition feeds of a channel tell a listener. *)
From S2P Require Import Prelude Types Sbe ILink3 Order PriceLevel OrderBook Engine EngineTheorems Session SessionStep SessionInv SessionTheorems.
From S2P Require Import SessionManager Instrument InstrumentManager Validator Risk Typed Gateway GatewayTheorems MarketData Publisher Listener.
From S2P Require Import ListenerMain EngineReplay FeedLemmas FeedChannels PublisherTotal FeedRounds FeedTheorems TcpConnection TcpTheorems Config.
From S2P Require Import ConfigTheorems Exchange ExchangeLemmas ExchangeInv LifecycleTheorems.
Import SessionManagerOps ExchangeOps.

(** C4: the wired exchange is safe. From any configuration the validation accepts
    with 32-bit security ids, ticks of at least a billionth and instruments whose
    maturity and factors can be converted, the process starts, and whatever happens then
    (clients that connect, bytes cut up in any way, write progress, errors and
    closed connections, rounds of the engine, the timer, the snapshot threads and
    the instrument definition thread in any order and over any iteration order of
    the hash maps), no step reads or writes outside a buffer, touches a freed order
    or ends in an uncaught exception, as long as the clients' messages are complete
    (the bytes of a message reach to the end of its template), modify quantities
    fit [int32_t] and 64-bit identifiers do not run out. Afterwards the number of registered sessions is
    within its limit, every registered session has its own connection, every
    connection is open with its stream in step or closed for good, the engine
    satisfies its invariant with all values of their types, and no book is
    crossed or locked. *)
Theorem exchange_runs_safe steady system report_clock engine_clock md_clock lib cfg :
  config_ok cfg → ∃ x0, boot cfg = Some x0 ∧ ∀ es,
    Forall event_allowed es →
    Forall (client_ok ∘ snd) (history steady system report_clock engine_clock md_clock lib (session cfg) x0 es) →
    total_cost es < 2 ^ 64 - 1 →
    ∃ x, exchange_run steady system report_clock engine_clock md_clock lib (session cfg) x0 es = Some x ∧
      activeSessionCount (session_mgr x) ≤ max_sessions (session cfg) ∧
      (∀ u p, findSession (session_mgr x) u = Some p → ∃ s, session_heap (session_mgr x) !! p = Some s ∧
         uuid_ s = u ∧ session_inv s ∧ is_Some (connections_ x !! u)) ∧
      (∀ u c, connections_ x !! u = Some c → (∃ input ps, receiving input ps c) ∨ is_closed c) ∧
      engine_inv (engine x) ∧ eng_typed (engine x) ∧ Forall queued_ok (command_queue_ (oe_gateway x)) ∧
      ∀ sid b, EngineOps.getOrderBook (engine x) sid = Some b → bid_levels_ b ≠ [] → ask_levels_ b ≠ [] →
        mantissa (OrderBookOps.bestBid b) < mantissa (OrderBookOps.bestAsk b).
Proof.
  intros Hc. destruct (boot_ok cfg lib Hc) as (x0 & E & Hx0 & Hmd & Hn & Hi). exists x0. split; [done|]. intros es Ha Hh Hcost.
  destruct (exchange_run_ok steady system report_clock engine_clock md_clock lib (session cfg) es [] x0 Hx0 Hmd Ha Hh)
    as (x & Hrun & [[M1 M2 M3 M4 M5] _ H3 H4 [G1 G2 G3 [Hinv Hty]] _] & _); [lia..|].
  exists x. split; [done|]. cbn in G2, Hinv, Hty. split; [lia|]. split; [|split; [done|]].
  - intros u p Hp. destruct (M4 _ _ Hp) as (_ & s & Hs & <-). exists s. destruct (H3 _ _ Hs). eauto.
  - split; [done|]. split; [done|]. split; [done|]. intros sid b. by apply engine_book_uncrossed.
Qed.

(** C5: only authenticated clients trade. When the exchange requires HMACs and the
    library computes them, every command that ever waits for the engine carries
    the identifier of a session whose connection has delivered, in this order, a
    Negotiate and an Establish that both bear the HMAC of their contents under
    the configured key; so does every session that is established. *)
Theorem exchange_orders_authenticated steady system report_clock engine_clock md_clock HMAC cfg x0 es x :
  config_ok cfg → hmac_enabled (session cfg) = true → (∀ k d r, HMAC k d = Some r → length r = 32%nat) →
  boot cfg = Some x0 → Forall event_allowed es →
  Forall (client_ok ∘ snd) (history steady system report_clock engine_clock md_clock (Some HMAC) (session cfg) x0 es) →
  total_cost es < 2 ^ 64 - 1 →
  exchange_run steady system report_clock engine_clock md_clock (Some HMAC) (session cfg) x0 es = Some x →
  let heard := history steady system report_clock engine_clock md_clock (Some HMAC) (session cfg) x0 es in
  (∀ cmd, cmd ∈ command_queue_ (oe_gateway x) →
     ∃ neg est, [neg; est] `sublist_of` payloads (oc_session_uuid cmd) heard ∧
       template neg = Some 500 ∧ signed (Some HMAC) (key_bytes (session cfg)) neg ∧
       template est = Some 503 ∧ signed (Some HMAC) (key_bytes (session cfg)) est) ∧
  (∀ p s, session_heap (session_mgr x) !! p = Some s → state_ s = Established →
     established (Some HMAC) (key_bytes (session cfg)) heard (uuid_ s)).
Proof.
  intros Hc He Hlen E Ha Hh Hcost Hrun heard.
  destruct (boot_ok cfg (Some HMAC) Hc) as (x1 & E1 & Hx0 & Hmd & Hn & Hi). rewrite E in E1. injection E1 as <-.
  destruct (exchange_run_ok steady system report_clock engine_clock md_clock (Some HMAC) (session cfg) es [] x0 Hx0 Hmd Ha Hh)
    as (x' & Hrun' & Hx & _); [lia..|]. rewrite Hrun in Hrun'. injection Hrun' as <-.
  destruct (xo_secured _ _ _ _ Hx) as [H1 H2]; [split; [done|by exists HMAC]|]. split.
  - intros cmd Hin. exact (proj1 (Forall_forall _ _) H2 _ Hin).
  - intros p s Hp Hs. by apply (H1 p s Hp).
Qed.

(** A run with one client: it connects, authenticates, sends a cancel in pieces and
    the engine answers. *)
Module XDemo.
Definition cfg : ExchangeConfig :=
  mkExchangeConfig ConfigOps.NetworkConfig_init
    [mkChannelConfig 310 "ES" (mkFeed "a" 1 "b" 2) (mkFeed "a" 3 "b" 4) (mkFeed "a" 5 "b" 6) ["ESH5"%string]]
    [demo_instrument "ESH5" 1] ConfigOps.EngineConfig_init demo_risk
    (mkSessionConfig true "aaaaaaaaaaaaaaaaaaaaaaaaaaaaaaaa" 30000 10 10000) "info".
Definition stream : list byte := frame_bytes AuthDemo.neg ++ frame_bytes AuthDemo.est ++ frame_bytes AuthDemo.app.
Definition events : list XEvent :=
  [XConnect; XTcp 1 (TReceive (take 10 stream)); XDefinitions [310]; XTcp 1 (TReceive (drop 10 stream)); XTcp 1 TStrand; XTimer id].
Definition more : list XEvent := events ++ [XEngine [310]; XSnapshot 310; XTcp 1 TStrand; XTcp 1 TReadError].
Definition clock (n : nat) : Z := 1000 + Z.of_nat n.
Definition x0 : Exchange := default (mkExchange (SessionManager_init 0) ∅ (GatewayOps.Gateway_init InstrumentManagerOps.InstrumentManager_init demo_risk)
  EngineOps.Engine_init 0 (mkMarketDataPublisher ∅ ∅ 0)) (boot cfg).

Lemma config : config_ok cfg.
Proof.
  split; [apply validate_iff; vm_compute; reflexivity| | |].
  - apply Forall_singleton. cbn. lia.
  - apply Forall_singleton. exists 250000000. split; [vm_compute; reflexivity|lia].
  - apply Forall_singleton. split; vm_compute; eexists; reflexivity.
Qed.
Lemma booted : boot cfg = Some x0.
Proof. vm_compute. reflexivity. Qed.
Lemma allowed : Forall event_allowed more.
Proof. repeat (apply Forall_cons_2; [by try intros l|]). apply Forall_nil_2. Qed.
Lemma messages : history clock clock clock clock clock (Some demo_hmac) (session cfg) x0 more = [(1, AuthDemo.neg); (1, AuthDemo.est); (1, AuthDemo.app)].
Proof. vm_compute. reflexivity. Qed.
Lemma messages_prefix : history clock clock clock clock clock (Some demo_hmac) (session cfg) x0 events = [(1, AuthDemo.neg); (1, AuthDemo.est); (1, AuthDemo.app)].
Proof. vm_compute. reflexivity. Qed.
Lemma clients : Forall (client_ok ∘ snd) [(1, AuthDemo.neg); (1, AuthDemo.est); (1, AuthDemo.app)].
Proof.
  pose proof AuthDemo.complete_calls as Hc. unfold AuthDemo.calls in Hc.
  apply Forall_cons in Hc as [H1 Hc]. apply Forall_cons in Hc as [H2 Hc]. apply Forall_cons in Hc as [H3 _].
  repeat apply Forall_cons_2; [| | |apply Forall_nil_2]; (split; [done|]);
    (split; [|split]); intros E; vm_compute in E; try discriminate; apply Nat.leb_le; vm_compute; reflexivity.
Qed.
End XDemo.

Lemma exchange_runs_safe_witness :
  ∃ x, exchange_run XDemo.clock XDemo.clock XDemo.clock XDemo.clock XDemo.clock (Some demo_hmac) (session XDemo.cfg) XDemo.x0 XDemo.more = Some x ∧
    activeSessionCount (session_mgr x) ≤ 10 ∧ engine_inv (engine x).
Proof.
  destruct (exchange_runs_safe XDemo.clock XDemo.clock XDemo.clock XDemo.clock XDemo.clock (Some demo_hmac) XDemo.cfg XDemo.config)
    as (x0 & E & H). rewrite XDemo.booted in E. injection E as <-.
  destruct (H XDemo.more XDemo.allowed) as (x & Hx & Hn & _ & _ & Hi & _).
  - rewrite XDemo.messages. exact XDemo.clients.
  - vm_compute. reflexivity.
  - exists x. split; [exact Hx|split; [exact Hn|exact Hi]].
Defined.

Lemma exchange_orders_authenticated_witness :
  ∃ x cmd, exchange_run XDemo.clock XDemo.clock XDemo.clock XDemo.clock XDemo.clock (Some demo_hmac) (session XDemo.cfg) XDemo.x0 XDemo.events = Some x ∧
    cmd ∈ command_queue_ (oe_gateway x) ∧ oc_session_uuid cmd = 1 ∧
    ∃ neg est, [neg; est] `sublist_of` [AuthDemo.neg; AuthDemo.est; AuthDemo.app] ∧
      signed (Some demo_hmac) AuthDemo.key neg ∧ signed (Some demo_hmac) AuthDemo.key est.
Proof.
  destruct (exchange_run XDemo.clock XDemo.clock XDemo.clock XDemo.clock XDemo.clock (Some demo_hmac) (session XDemo.cfg) XDemo.x0 XDemo.events)
    as [x|] eqn:E; [|by vm_compute in E].
  assert (Forall event_allowed XDemo.events) as Ha by (pose proof XDemo.allowed as Ha; by apply Forall_app in Ha as [Ha _]).
  destruct (exchange_orders_authenticated XDemo.clock XDemo.clock XDemo.clock XDemo.clock XDemo.clock demo_hmac XDemo.cfg XDemo.x0 XDemo.events x
    XDemo.config eq_refl demo_hmac_length XDemo.booted Ha) as [H _].
  - rewrite XDemo.messages_prefix. exact XDemo.clients.
  - vm_compute. reflexivity.
  - exact E.
  - assert (∃ cmd, head (command_queue_ (oe_gateway x)) = Some cmd ∧ oc_session_uuid cmd = 1) as (cmd & Hh & Hu)
      by (vm_compute in E; injection E as <-; vm_compute; eexists; split; reflexivity).
    assert (cmd ∈ command_queue_ (oe_gateway x)) as Hin by (destruct (command_queue_ _); [done|injection Hh as ->; left]).
    exists x, cmd. split; [done|]. split; [exact Hin|]. split; [exact Hu|].
    destruct (H cmd Hin) as (neg & est & Hs & _ & Hneg & _ & Hest). rewrite XDemo.messages_prefix, Hu in Hs.
    exists neg, est. split; [exact Hs|]. split; [exact Hneg|exact Hest].
Defined.

(** A maturity that is text: the configuration is valid and the exchange starts,
    and the first round of the instrument definition thread ends the process,
    [std::stoi] throwing in a thread that does not catch. *)
Definition text_maturity (ic : InstrumentConfig) : InstrumentConfig :=
  mkInstrumentConfig (ic_symbol ic) (ic_security_id ic) (ic_channel_id ic) (ic_tick_size ic) (ic_contract_multiplier ic)
    (ic_min_price_increment_amount ic) (ic_min_trade_vol ic) (ic_max_trade_vol ic) "DEC2025" (ic_display_factor ic).
Example maturity_ends_process :
  let cfg := mkExchangeConfig (network XDemo.cfg) (channels XDemo.cfg) (text_maturity <$> instruments XDemo.cfg) (engine_config XDemo.cfg)
    (risk XDemo.cfg) (session XDemo.cfg) (log_level XDemo.cfg) in
  ConfigOps.validateConfig cfg = inr tt ∧
  match boot cfg with
  | Some x => exchange_step XDemo.clock XDemo.clock XDemo.clock XDemo.clock XDemo.clock None (session cfg) x (XDefinitions [310]) = None
  | None => False
  end.
Proof. split; vm_compute; reflexivity. Qed.

(** ** The background feeds *)
Import InstrumentManagerOps SessionManagerOps ListenerOps ListenerMainOps ExchangeOps.

(** ** The registry of a run *)
Lemma boot_lists cfg x : config_ok cfg → boot cfg = Some x →
  listing (insts x) = make_instrument <$> instruments cfg ∧
  Forall (λ cc, is_Some (channel_publishers_ (md_publisher x) !! cc_channel_id cc)) (channels cfg).
Proof.
  intros Hc. destruct (load_registry cfg Hc) as (m & E & Hm & _).
  destruct (load_ok InstrumentManager_init (instruments cfg) (channels cfg)) as (m' & E' & Hl). rewrite E in E'. injection E' as <-.
  assert (listing m = make_instrument <$> instruments cfg) as Hlist
    by (unfold listing; rewrite (ld_instruments _ _ _ Hl), <-list_fmap_compose; done).
  unfold boot. rewrite E. cbn [mbind option_bind].
  destruct (set_statuses_registry PreOpen (all_ids m) m Hm) as (m1 & -> & Hm1 & E1). cbn [mbind option_bind].
  destruct (_ && _); [done|].
  destruct (set_statuses_registry Open (all_ids m1) m1 Hm1) as (m2 & -> & _ & E2). cbn [mbind option_bind]. intros [= <-].
  split; [cbn; congruence|]. apply Forall_forall. intros cc Hcc. cbn. rewrite map_lookup_imap.
  assert (∀ chs (pubs : gmap Z ChannelPublisher) k, (k ∈ cc_channel_id <$> chs) ∨ is_Some (pubs !! k) →
    is_Some (foldl (λ pubs cc, <[cc_channel_id cc := PublisherOps.ChannelPublisher_init (cc_channel_id cc)]> pubs) pubs chs !! k)) as Hfold.
  { clear. induction chs as [|cc chs IH]; intros pubs k; cbn [foldl fmap list_fmap].
    - by intros [?%elem_of_nil|?].
    - intros Hk. apply IH. rewrite lookup_insert_is_Some, elem_of_cons in *.
      destruct (decide (cc_channel_id cc = k)); naive_solver. }
  destruct (Hfold (channels cfg) (∅ : gmap Z ChannelPublisher) (cc_channel_id cc)) as [c ->];
    [left; apply list_elem_of_fmap; by exists cc|by eexists].
Qed.

(** The instruments of a channel are those of the configuration, open. *)
Definition listed (cfg : ExchangeConfig) (ch : Z) : list InstrumentConfig := filter (λ ic, ic_channel_id ic = ch) (instruments cfg).

Lemma channel_instruments cfg m ch : listing m = make_instrument <$> instruments cfg → all_status Types.Open m →
  getInstrumentsByChannel m ch = (λ ic, set_trading_status Types.Open (make_instrument ic)) <$> listed cfg ch.
Proof.
  unfold listing, all_status, getInstrumentsByChannel, listed. generalize (instruments_ m), (instruments cfg). clear.
  induction l as [|i l IH]; intros [|ic ics]; try done. cbn [fmap list_fmap]. intros Hil [Ho Hs]%Forall_cons.
  pose proof (f_equal head Hil) as Hi. cbn [head] in Hi. apply (inj Some) in Hi. pose proof (f_equal tail Hil) as Hl. cbn [tail] in Hl.
  assert (i = set_trading_status Types.Open (make_instrument ic)) as -> by (rewrite <-Hi, <-Ho; by destruct i).
  rewrite !filter_cons. cbn [in_channel_id set_trading_status make_instrument]. case_decide; cbn [fmap list_fmap]; by rewrite (IH ics).
Qed.

(** Between [c] and [c'] a pair of feeds has sent new datagrams: the receive loop of
    a listener that was up to date with the pair, when it takes those of one feed
    in order, sees no gap, and what is read off its output is [what]. *)
Definition feeds_show {A} (feed_a feed_b : ChannelPublisher → FeedSender) (read : list Output → A) (what : A) (c c' : ChannelPublisher) : Prop :=
  ∃ newA newB, datagrams (feed_a c') = datagrams (feed_a c) ++ newA ∧ datagrams (feed_b c') = datagrams (feed_b c) ++ newB ∧
    ∀ steady interval l events, taken events = newA ∨ taken events = newB → length (recvBuf l) = recv_size →
      awaits (next_seq_num_ (feed_a c)) (stats l) →
      ∃ l' shown, receive_loop steady interval events l = Some (l', shown, ends events) ∧ gaps (stats l') = gaps (stats l) ∧
        read (outputs shown) = what.

Lemma last_number n : ∀ seq s, seq ∈u 32 → mjoin (last (consecutive seq n)) = Some s → s ∈u 32.
Proof.
  induction n as [|n IH]; intros seq s Hs; cbn; [done|]. destruct n as [|n]; [by intros [= <-]|].
  apply (IH (u32 (seq + 1))). apply wrapu_range. lia.
Qed.

Lemma ready_snapshot m ch c : channel_ready m ch c → ∃ cy, snapshot_cycler_ c = Some cy ∧
  cycler_instruments_ cy = in_security_id <$> getInstrumentsByChannel m ch ∧ last_incr_seq_ cy ∈u 32 ∧
  next_seq_num_ (snapshot_feed_a_ c) ∈u 32 ∧ next_seq_num_ (snapshot_feed_b_ c) = next_seq_num_ (snapshot_feed_a_ c).
Proof.
  intros [[Hi [Hs En] _ Hcy] (cy & Ec & Ei)%fmap_Some]. symmetry in Ei. exists cy. split_and!; try done.
  - destruct (Hcy cy Ec) as [->|El]; [lia|]. rewrite (po_numbers _ _ Hi) in El. symmetry in El. apply last_number in El; lia.
  - destruct (Hcy cy Ec) as [->|El]; [lia|]. rewrite (po_numbers _ _ Hi) in El. symmetry in El. apply last_number in El; lia.
  - rewrite (po_next _ _ Hs). apply seq_after_range. lia.
  - rewrite (po_next _ _ Hs). apply seq_after_range. lia.
Qed.

(** The two rounds of a channel that is ready. *)
Section rounds.
Context (md_clock : nat → Z) (x : Exchange) (ch : Z) (c : ChannelPublisher).
Context (Hc : channel_publishers_ (md_publisher x) !! ch = Some c) (Hmd : md_ok x) (Hty : eng_typed (engine x)).

Definition books_fit (sids : list SecurityId) : Prop := ∀ sid b, sid ∈ sids → EngineOps.getOrderBook (engine x) sid = Some b →
  (length (bid_levels_ b) + length (ask_levels_ b) < 256)%nat.

Lemma securities_ok : books_fit (in_security_id <$> getInstrumentsByChannel (insts x) ch) →
  Forall (snapshot_ok (engine x)) (in_security_id <$> getInstrumentsByChannel (insts x) ch).
Proof using Hmd Hty.
  intros Hb. apply Forall_forall. intros sid Hin. split.
  - apply list_elem_of_fmap in Hin as (i & -> & [_ Hi]%list_elem_of_filter).
    by apply (proj1 (Forall_forall _ _) (proj2 Hmd)) in Hi as [_ ?].
  - destruct (EngineOps.getOrderBook (engine x) sid) as [b|] eqn:Eb; [|done]. destruct Hty as (_ & Hbt & _).
    destruct (Hbt _ _ Eb) as (_ & _ & _ & ? & ?). split_and!; [done|done|]. by eapply Hb.
Qed.

Lemma snapshot_round_shows : books_fit (in_security_id <$> getInstrumentsByChannel (insts x) ch) →
  ∃ x' c', snapshot_round md_clock x ch = Some x' ∧ channel_publishers_ (md_publisher x') !! ch = Some c' ∧
    feeds_show snapshot_feed_a_ snapshot_feed_b_ snapshots_read
      ((λ i, (in_security_id i, Some (eng_depth (engine x) (in_security_id i)))) <$> getInstrumentsByChannel (insts x) ch) c c'.
Proof using Hc Hmd Hty.
  intros Hb. apply securities_ok in Hb. unfold snapshot_round. rewrite Hc.
  destruct (ready_snapshot _ _ _ (map_Forall_lookup_1 _ _ _ _ (proj1 Hmd) Hc)) as (cy & Ecy & Ei & Hl & Hs & En). rewrite <-Ei in Hb.
  destruct (snapshot_cycle_depth md_clock (engine x) c cy (md_reads (md_publisher x)) Ecy Hb Hl Hs En) as (c' & r' & newA & newB & -> & EA & EB & H).
  cbn [mbind option_bind]. eexists _, c'. split; [done|]. split; [apply lookup_insert_eq|]. exists newA, newB. split; [done|]. split; [done|].
  intros steady interval l events Hev Hr Ha. destruct (H (taken events) (recvBuf l) (stats l) Hev Hr Ha) as (s & out & El & Hg & Hd).
  destruct (receive_loop_shows steady interval events l s out El) as (l' & shown & E & <- & <-).
  exists l', shown. split; [done|]. split; [done|]. by rewrite Hd, Ei, <-list_fmap_compose.
Qed.

Lemma definition_round_shows order : NoDup order → ch ∈ order →
  ∃ x' c', definition_round md_clock x order = Some x' ∧ channel_publishers_ (md_publisher x') !! ch = Some c' ∧
    feeds_show instdef_feed_a_ instdef_feed_b_ definitions_read (definition_line <$> getInstrumentsByChannel (insts x) ch) c c'.
Proof using Hc Hmd.
  intros Hnd Hin. destruct (definition_round_total md_clock x order Hmd) as (p & E). exists (set_md p x).
  unfold definition_round in E. fold (insts x) in E. apply bind_Some in E as (p' & Ep & [= ->]).
  destruct (replay_round_channel md_clock (insts x) ch c order _ _ Hnd Hin Hc Ep) as (reads & c' & r' & Er & Ec').
  destruct (map_Forall_lookup_1 _ _ _ _ (proj1 Hmd) Hc) as [[_ _ [Hp En] _] _].
  destruct (replay_definitions_read md_clock c reads (getInstrumentsByChannel (insts x) ch)) as (c1 & r1 & newA & newB & E1 & EA & EB & H); [| |..|done|].
  - apply Forall_forall. intros i [_ Hi]%list_elem_of_filter. by apply (proj1 (Forall_forall _ _) (proj2 Hmd)) in Hi as [? _].
  - apply Forall_forall. intros i [_ Hi]%list_elem_of_filter. by apply (proj1 (Forall_forall _ _) (proj2 Hmd)) in Hi as [_ ?].
  - rewrite (po_next _ _ Hp). apply seq_after_range. lia.
  - rewrite Er in E1. injection E1 as <- <-. exists c'. split.
    + unfold definition_round. fold (insts x). by rewrite Ep.
    + split; [exact Ec'|]. exists newA, newB. split; [done|]. split; [done|].
      intros steady interval l events Hev Hr Ha. destruct (H (taken events) (recvBuf l) (stats l) Hev Hr Ha) as (s & out & El & Hg & Hd).
      destruct (receive_loop_shows steady interval events l s out El) as (l' & shown & E & <- & <-). by exists l', shown.
Qed.
End rounds.

(** ** The theorem *)

(** C27: what the exchange publishes in the background is true, at any moment of any
    run that C4 allows (the same conditions on the configuration, the clients'
    messages and the identifiers). For every channel of the configuration: a round of its
    snapshot thread (books of fewer than 256 levels) gives the receive loop of a
    listener on snapshot feed A or B, if it was up to date, one snapshot per
    instrument configured for the channel, in order and without a gap, that reads
    as exactly the levels of the instrument's book at that moment; and a round of
    the instrument definition thread, over the channels in any order, shows a
    listener on definition feed A or B the configured instruments of the channel
    in order: symbol, identifier, group and asset cut to their fields, open for
    trading, and the tick as the engine checks it. *)
Theorem exchange_background_feeds steady system report_clock engine_clock md_clock lib cfg :
  config_ok cfg → ∃ x0, boot cfg = Some x0 ∧ ∀ es,
    Forall event_allowed es →
    Forall (client_ok ∘ snd) (history steady system report_clock engine_clock md_clock lib (session cfg) x0 es) →
    total_cost es < 2 ^ 64 - 1 →
    ∃ x, exchange_run steady system report_clock engine_clock md_clock lib (session cfg) x0 es = Some x ∧
      ∀ ch, ch ∈ cc_channel_id <$> channels cfg → ∃ c, channel_publishers_ (md_publisher x) !! ch = Some c ∧
        (books_fit x (ic_security_id <$> listed cfg ch) →
         ∃ x' c', exchange_step steady system report_clock engine_clock md_clock lib (session cfg) x (XSnapshot ch) = Some x' ∧
           channel_publishers_ (md_publisher x') !! ch = Some c' ∧
           feeds_show snapshot_feed_a_ snapshot_feed_b_ snapshots_read
             ((λ ic, (ic_security_id ic, Some (eng_depth (engine x) (ic_security_id ic)))) <$> listed cfg ch) c c') ∧
        ∀ order, NoDup order → ch ∈ order →
         ∃ x' c', exchange_step steady system report_clock engine_clock md_clock lib (session cfg) x (XDefinitions order) = Some x' ∧
           channel_publishers_ (md_publisher x') !! ch = Some c' ∧
           feeds_show instdef_feed_a_ instdef_feed_b_ definitions_read
             ((λ ic, definition_line (set_trading_status Types.Open (make_instrument ic))) <$> listed cfg ch) c c'.
Proof.
  intros Hc. destruct (boot_ok cfg lib Hc) as (x0 & E & Hx0 & Hmd0 & Hn & Hi). exists x0. split; [done|]. intros es Ha Hh Hcost.
  destruct (exchange_run_ok steady system report_clock engine_clock md_clock lib (session cfg) es [] x0 Hx0 Hmd0 Ha Hh)
    as (x & Hrun & Hx & Hmd); [lia..|].
  pose proof (xo_gw _ _ _ _ Hx) as [_ _ _ [_ Hty]]. cbn in Hty.
  exists x. split; [done|]. intros ch Hch. destruct (run_frame _ _ _ _ _ _ _ es _ _ Hrun) as [Ei He].
  destruct (boot_lists cfg x0 Hc E) as [El Hpubs]. destruct (boot_state cfg x0 Hc E) as (_ & Ho & _). rewrite <-Ei in El, Ho.
  pose proof (channel_instruments cfg (insts x) ch El Ho) as Einst.
  assert (is_Some (channel_publishers_ (md_publisher x) !! ch)) as [c Ec].
  { apply list_elem_of_fmap in Hch as (cc & -> & Hcc). destruct (proj1 (Forall_forall _ _) Hpubs _ Hcc) as [c0 Hc0].
    specialize (He (cc_channel_id cc)). rewrite Hc0 in He. inversion He. by eexists. }
  exists c. split; [done|]. split.
  - intros Hb. destruct (snapshot_round_shows md_clock x ch c Ec Hmd Hty) as (x' & c' & Es & Ec' & Hs).
    { by rewrite Einst, <-list_fmap_compose. }
    exists x', c'. split; [done|]. split; [done|]. by rewrite Einst, <-list_fmap_compose in Hs.
  - intros order Hnd Hin. destruct (definition_round_shows md_clock x ch c Ec Hmd order Hnd Hin) as (x' & c' & Es & Ec' & Hs).
    exists x', c'. split; [done|]. split; [done|]. by rewrite Einst, <-list_fmap_compose in Hs.
Qed.

(** After the demonstration run: what listeners of the snapshot and definition feeds
    of channel 310 see. *)
Lemma demo_books : (λ x, (λ b, (bid_levels_ b, ask_levels_ b)) <$> EngineOps.getOrderBook (engine x) 1) <$>
    exchange_run XDemo.clock XDemo.clock XDemo.clock XDemo.clock XDemo.clock (Some demo_hmac) (session XDemo.cfg) XDemo.x0 XDemo.more =
  Some (Some ([], [])).
Proof. vm_compute. reflexivity. Qed.

Lemma exchange_background_feeds_witness :
  ∃ x c xs cs xd cd, exchange_run XDemo.clock XDemo.clock XDemo.clock XDemo.clock XDemo.clock (Some demo_hmac) (session XDemo.cfg) XDemo.x0 XDemo.more = Some x ∧
    channel_publishers_ (md_publisher x) !! 310 = Some c ∧
    channel_publishers_ (md_publisher xs) !! 310 = Some cs ∧
    feeds_show snapshot_feed_a_ snapshot_feed_b_ snapshots_read [(1, Some ([], []))] c cs ∧
    channel_publishers_ (md_publisher xd) !! 310 = Some cd ∧
    feeds_show instdef_feed_a_ instdef_feed_b_ definitions_read
      [OInstrDef54 (chars "ESH5") 1 (chars "ES") (chars "ES") 17 250000000] c cd.
Proof.
  destruct (exchange_background_feeds XDemo.clock XDemo.clock XDemo.clock XDemo.clock XDemo.clock (Some demo_hmac) XDemo.cfg XDemo.config)
    as (x0 & E & H). rewrite XDemo.booted in E. injection E as <-.
  destruct (H XDemo.more XDemo.allowed) as (x & Hx & Hch).
  - rewrite XDemo.messages. exact XDemo.clients.
  - vm_compute. reflexivity.
  - pose proof demo_books as Hb. rewrite Hx in Hb. injection Hb as Hb.
    destruct (EngineOps.getOrderBook (engine x) 1) as [b|] eqn:Eb; [|done]. injection Hb as Hbids Hasks.
    destruct (Hch 310) as (c & Ec & Hs & Hd); [by left|].
    destruct Hs as (xs & cs & _ & Ecs & Hs).
    { intros sid b' Hin Eb'. assert (sid = 1) as -> by (by apply list_elem_of_singleton in Hin). rewrite Eb in Eb'. injection Eb' as <-. rewrite Hbids, Hasks. cbn. lia. }
    destruct (Hd [310]) as (xd & cd & _ & Ecd & Hdef); [apply NoDup_singleton|by left|].
    exists x, c, xs, cs, xd, cd. split; [exact Hx|]. split; [exact Ec|]. split; [exact Ecs|]. split; [|split; [exact Ecd|exact Hdef]].
    assert (eng_depth (engine x) 1 = ([], [])) as Edep by (unfold eng_depth; rewrite Eb; destruct b; cbn in Hbids, Hasks; by subst).
    rewrite <-Edep. exact Hs.
Defined.
