(* ===== verification/BufferPool.v ===== *)
(** * The buffer pool (src/common/buffer_pool.h)

    A pool of buffers of one size behind a free list that any thread pushes on
    and pops from. As in [MpscQueue.v] a step of the model is one access to
    shared memory and the threads interleave in any order; the allocator may
    hand out any address that is not in use, freed ones included, and a weak
    compare-exchange may fail without a reason. An access to a node that is not
    allocated, a second [delete] and a null buffer are faults. A buffer is its
    index in [buffers_]; what its owner does with it is modelled as far as the
    pool can see it: the length it writes, and passing it to another thread. *)
From S2P Require Import Prelude.

Record PoolBuffer := mkBuffer { data : Z; capacity : Z; length : Z }.
Record FreeNode := mkFree { buffer : option nat; next : option positive }.

(** Where a thread is: in [acquire] (its local [head], then the popped node), or
    in [release]. *)
Inductive PoolPc :=
| Idle
| Loaded (head : positive)
| ReadNext (head : positive) (head_next : option positive)
| Popped (node : positive)
| GotBuffer (node : positive) (buf : nat)
| ResetDone (node : positive) (buf : nat)
| Releasing (buf : nat)
| Cleared (buf : nat)
| Allocated (node : positive) (buf : nat)
| Filled (node : positive)
| Pushing (node : positive).
Record Thread := mkThread { pc : PoolPc; held : list nat }.

Record BufferPool := mkPool {
  bufferSize_ : Z;
  storage_size : Z;
  buffers_ : list PoolBuffer;
  freeList_ : option positive;
  nodes : gmap positive FreeNode;
  threads : list Thread;
}.

(** What happens at a step: a buffer leaves or enters the free list, an acquire
    finds it empty, a buffer is returned to the caller with its length. *)
Inductive PoolEvent := EPop (thread buf : nat) | EPush (thread buf : nat) | ENull (thread : nat) | EAcquired (thread buf : nat) (len : Z).
Inductive pool_result := PStepped (p : BufferPool) (e : option PoolEvent) | PFault.

(** The scheduler's choice: an idle thread calls [acquire], releases the [k]-th
    buffer it holds, writes into it or passes it on; a thread inside a call makes
    its next access, with the address its [new] would return and whether its
    compare-exchange fails spuriously. *)
Inductive PoolTurn :=
| TAcquire (i : nat)
| TRelease (i k : nat)
| TWrite (i k : nat) (len : Z)
| TPass (i k j : nat)
| TStep (i : nat) (fresh_node : positive) (spurious : bool).

Module PoolOps.

(** ** Construction *)

(** [PoolBuffer::reset]. *)
Definition reset (b : PoolBuffer) : PoolBuffer := mkBuffer (data b) (capacity b) 0.
Definition descriptor (bufferSize : Z) (i : nat) : PoolBuffer := mkBuffer (u64 (Z.of_nat i * bufferSize)) bufferSize 0.
(** One round of the constructor's loop, with the address of the new node. *)
Definition add_free (s : gmap positive FreeNode * option positive) (x : nat * positive) : gmap positive FreeNode * option positive :=
  (<[x.2 := mkFree (Some x.1) s.2]> s.1, Some x.2).
Definition BufferPool_init (bufferSize : Z) (addresses : list positive) (nthreads : nat) : BufferPool :=
  let count := List.length addresses in
  let s := foldl add_free (∅, None) (zip (seq 0 count) addresses) in
  mkPool bufferSize (u64 (Z.of_nat count * bufferSize)) (descriptor bufferSize <$> seq 0 count) s.2 s.1
    (replicate nthreads (mkThread Idle [])).

(** ** One step *)
Definition set_thread (i : nat) (t : Thread) (p : BufferPool) : BufferPool :=
  mkPool (bufferSize_ p) (storage_size p) (buffers_ p) (freeList_ p) (nodes p) (<[i := t]> (threads p)).
Definition set_nodes (h : gmap positive FreeNode) (p : BufferPool) : BufferPool :=
  mkPool (bufferSize_ p) (storage_size p) (buffers_ p) (freeList_ p) h (threads p).
Definition set_freeList (f : option positive) (p : BufferPool) : BufferPool :=
  mkPool (bufferSize_ p) (storage_size p) (buffers_ p) f (nodes p) (threads p).
Definition set_buffer (f : PoolBuffer → PoolBuffer) (b : nat) (p : BufferPool) : BufferPool :=
  mkPool (bufferSize_ p) (storage_size p) (alter f b (buffers_ p)) (freeList_ p) (nodes p) (threads p).

(** The head of [popFreeList]'s loop: null ends the call. *)
Definition pop_loop (i : nat) (hs : list nat) (p : BufferPool) : pool_result :=
  match freeList_ p with
  | None => PStepped (set_thread i (mkThread Idle hs) p) (Some (ENull i))
  | Some head => PStepped (set_thread i (mkThread (Loaded head) hs) p) None
  end.

(** The next access of a thread inside [acquire] or [release]. *)
Definition pool_step (i : nat) (fresh_node : positive) (spurious : bool) (t : Thread) (p : BufferPool) : pool_result :=
  let goto c := set_thread i (mkThread c (held t)) in
  match pc t with
  | Idle => PStepped p None
  | Loaded head =>
      (* head->next, the argument of the compare-exchange *)
      match nodes p !! head with
      | None => PFault
      | Some nd => PStepped (goto (ReadNext head (next nd)) p) None
      end
  | ReadNext head head_next =>
      (* freeList_.compare_exchange_weak(head, head_next) *)
      if negb spurious && bool_decide (freeList_ p = Some head)
      then PStepped (goto (Popped head) (set_freeList head_next p))
             (EPop i <$> (nodes p !! head ≫= buffer))
      else pop_loop i (held t) p
  | Popped node =>
      (* buf = node->buffer *)
      match nodes p !! node ≫= buffer with
      | None => PFault
      | Some b => PStepped (goto (GotBuffer node b) p) None
      end
  | GotBuffer node b =>
      (* buf->reset() *)
      match buffers_ p !! b with
      | None => PFault
      | Some _ => PStepped (goto (ResetDone node b) (set_buffer reset b p)) None
      end
  | ResetDone node b =>
      (* delete node; return buf *)
      match nodes p !! node with
      | None => PFault
      | Some _ => PStepped (set_thread i (mkThread Idle (b :: held t)) (set_nodes (delete node (nodes p)) p))
                    (EAcquired i b ∘ length <$> buffers_ p !! b)
      end
  | Releasing b =>
      (* buf->reset() *)
      match buffers_ p !! b with
      | None => PFault
      | Some _ => PStepped (goto (Cleared b) (set_buffer reset b p)) None
      end
  | Cleared b =>
      (* new FreeNode *)
      match nodes p !! fresh_node with
      | Some _ => PStepped p None
      | None => PStepped (goto (Allocated fresh_node b) (set_nodes (<[fresh_node := mkFree None None]> (nodes p)) p)) None
      end
  | Allocated node b =>
      (* node->buffer = buf *)
      match nodes p !! node with
      | None => PFault
      | Some nd => PStepped (goto (Filled node) (set_nodes (<[node := mkFree (Some b) (next nd)]> (nodes p)) p)) None
      end
  | Filled node =>
      (* node->next = freeList_.load() *)
      match nodes p !! node with
      | None => PFault
      | Some nd => PStepped (goto (Pushing node) (set_nodes (<[node := mkFree (buffer nd) (freeList_ p)]> (nodes p)) p)) None
      end
  | Pushing node =>
      (* freeList_.compare_exchange_weak(node->next, node) *)
      match nodes p !! node with
      | None => PFault
      | Some nd =>
          if negb spurious && bool_decide (freeList_ p = next nd)
          then PStepped (goto Idle (set_freeList (Some node) p)) (EPush i <$> buffer nd)
          else PStepped (set_nodes (<[node := mkFree (buffer nd) (freeList_ p)]> (nodes p)) p) None
      end
  end.

(** The thread an idle turn is about, with the buffer at [k] in its hands. *)
Definition idle_holding (i k : nat) (p : BufferPool) : option (Thread * nat) :=
  t ← threads p !! i; b ← held t !! k; if pc t is Idle then Some (t, b) else None.

Definition pool_turn (p : BufferPool) (u : PoolTurn) : pool_result :=
  match u with
  | TAcquire i =>
      match threads p !! i with
      | Some (mkThread Idle hs) => pop_loop i hs p
      | _ => PStepped p None
      end
  | TRelease i k =>
      match idle_holding i k p with
      | Some (t, b) => PStepped (set_thread i (mkThread (Releasing b) (delete k (held t))) p) None
      | None => PStepped p None
      end
  | TWrite i k len =>
      match idle_holding i k p with
      | Some (t, b) => PStepped (set_buffer (λ x, mkBuffer (data x) (capacity x) len) b p) None
      | None => PStepped p None
      end
  | TPass i k j =>
      match idle_holding i k p with
      | Some (t, b) =>
          let p := set_thread i (mkThread Idle (delete k (held t))) p in
          match threads p !! j with
          | Some t' => PStepped (set_thread j (mkThread (pc t') (b :: held t')) p) None
          | None => PStepped (set_thread i t p) None
          end
      | None => PStepped p None
      end
  | TStep i fresh_node spurious =>
      match threads p !! i with
      | Some t => pool_step i fresh_node spurious t p
      | None => PStepped p None
      end
  end.

(** A schedule, with the events in the order they happen. *)
Fixpoint run_pool (p : BufferPool) (us : list PoolTurn) : option (BufferPool * list PoolEvent) :=
  match us with
  | [] => Some (p, [])
  | u :: us =>
      match pool_turn p u with
      | PFault => None
      | PStepped p e => '(p, es) ← run_pool p us; Some (p, option_list e ++ es)
      end
  end.

(** The destructor: walks the free list and deletes every node. *)
Fixpoint drain (fuel : nat) (node : option positive) (h : gmap positive FreeNode) : option (gmap positive FreeNode) :=
  match fuel, node with
  | _, None => Some h
  | O, Some _ => None
  | S fuel, Some n => nd ← h !! n; drain fuel (next nd) (delete n h)
  end.
Definition BufferPool_destroy (p : BufferPool) : option (gmap positive FreeNode) := drain (size (nodes p)) (freeList_ p) (nodes p).
End PoolOps.
