(* ===== verification/PoolTheorems.v ===== *)
(** * The buffer pool with one acquiring thread

    Whatever the threads do, in any order, as long as only one of them calls
    [acquire]: the free list behaves as a stack, no freed node is touched, and a
    buffer has one owner. With two acquiring threads neither holds. *)
From S2P Require Import Prelude BufferPool.
Import PoolOps.

(** ** The abstract free list *)
Module PoolSpec.
Definition stack_event (s : list nat) (e : PoolEvent) : option (list nat) :=
  match e, s with
  | EPop _ b, x :: s => if bool_decide (x = b) then Some s else None
  | EPop _ _, [] => None
  | EPush _ b, s => Some (b :: s)
  | ENull _, [] => Some []
  | ENull _, _ :: _ => None
  | EAcquired _ _ len, s => if bool_decide (len = 0) then Some s else None
  end.

(** The buffer a thread inside a call is carrying, with the nodes it owns. *)
Definition node_buffer (h : gmap positive FreeNode) (n : positive) : list nat := option_list (h !! n ≫= buffer).
Definition carried (h : gmap positive FreeNode) (c : PoolPc) : list nat :=
  match c with
  | Idle | Loaded _ | ReadNext _ _ => []
  | Popped n | Filled n | Pushing n => node_buffer h n
  | GotBuffer _ b | ResetDone _ b | Releasing b | Cleared b | Allocated _ b => [b]
  end.
Definition in_hand (h : gmap positive FreeNode) (t : Thread) : list nat := carried h (pc t) ++ held t.
(** The buffers outside the free list, with the threads that have them. *)
Definition in_use (p : BufferPool) : list nat := concat (in_hand (nodes p) <$> threads p).

(** The bytes of a buffer. *)
Definition span (x : PoolBuffer) (z : Z) : Prop := data x ≤ z < data x + capacity x.
Definition apart (p : BufferPool) : Prop :=
  (∀ b x z, buffers_ p !! b = Some x → span x z → 0 ≤ z < storage_size p) ∧
  (∀ b b' x y z, buffers_ p !! b = Some x → buffers_ p !! b' = Some y → span x z → span y z → b = b').

Definition acquirer_only (a : nat) (u : PoolTurn) : Prop := if u is TAcquire i then i = a else True.
Definition quiet (t : Thread) : Prop := pc t = Idle.
End PoolSpec.
Import PoolSpec.

(** ** The invariant *)
Section inv.
Context (a : nat) (bufferSize : Z) (count : nat).
Implicit Types (p : BufferPool) (h : gmap positive FreeNode) (ns : list (positive * nat)) (t : Thread) (limbo : list nat).

Fixpoint chain h (l : option positive) ns : Prop :=
  match ns with
  | [] => l = None
  | (n, b) :: ns => l = Some n ∧ ∃ nx, h !! n = Some (mkFree (Some b) nx) ∧ chain h nx ns
  end.
Definition own (c : PoolPc) : list positive :=
  match c with
  | Popped n | GotBuffer n _ | ResetDone n _ | Allocated n _ | Filled n | Pushing n => [n]
  | _ => []
  end.
(** Buffers whose length is known to be zero. *)
Definition clean h (c : PoolPc) : list nat :=
  match c with
  | ResetDone _ b | Cleared b | Allocated _ b => [b]
  | Filled n | Pushing n => node_buffer h n
  | _ => []
  end.
Definition pc_ok h ns (i : nat) (c : PoolPc) : Prop :=
  match c with
  | Loaded n => i = a ∧ n ∈ ns.*1
  | ReadNext n nx => i = a ∧ ∃ b, (n, b) ∈ ns ∧ h !! n = Some (mkFree (Some b) nx)
  | Popped n | Filled n | Pushing n => ∃ b nx, h !! n = Some (mkFree (Some b) nx)
  | _ => True
  end.
Definition empty_length (bs : list PoolBuffer) (b : nat) : Prop := length <$> bs !! b = Some 0.

Record pool_inv p ns limbo : Prop := {
  pi_chain : chain (nodes p) (freeList_ p) ns;
  pi_nodup : NoDup (ns.*1 ++ concat (own ∘ pc <$> threads p));
  pi_dom n : is_Some (nodes p !! n) ↔ n ∈ ns.*1 ++ concat (own ∘ pc <$> threads p);
  pi_buffers : ns.*2 ++ limbo ++ in_use p ≡ₚ seq 0 count;
  pi_shape : (λ x, (data x, capacity x)) <$> buffers_ p = (λ x, (data x, capacity x)) ∘ descriptor bufferSize <$> seq 0 count;
  pi_free_clean b : b ∈ ns.*2 → empty_length (buffers_ p) b;
  pi_clean i t b : threads p !! i = Some t → b ∈ clean (nodes p) (pc t) → empty_length (buffers_ p) b;
  pi_pc i t : threads p !! i = Some t → pc_ok (nodes p) ns i (pc t);
}.

(** Taking thread [i] out of the list of threads. *)
Lemma threads_split (ts : list Thread) i t :
  ts !! i = Some t → ∃ rest,
    (∀ B (f : Thread → list B), concat (f <$> ts) ≡ₚ f t ++ concat (f <$> rest)) ∧
    (∀ B (f : Thread → list B) t', concat (f <$> <[i := t']> ts) ≡ₚ f t' ++ concat (f <$> rest)) ∧
    (∀ u, u ∈ rest → ∃ j, j ≠ i ∧ ts !! j = Some u) ∧ (∀ j u, j ≠ i → ts !! j = Some u → u ∈ rest).
Proof.
  intros Hi. pose proof (lookup_lt_Some _ _ _ Hi) as Hlt. exists (take i ts ++ drop (S i) ts). split_and!.
  - intros B f. rewrite <-(take_drop_middle ts i t) at 1 by done. rewrite !fmap_app, fmap_cons, !concat_app, concat_cons. solve_Permutation.
  - intros B f t'. rewrite insert_take_drop by done. rewrite !fmap_app, fmap_cons, !concat_app, concat_cons. solve_Permutation.
  - intros u [Hu|Hu]%elem_of_app.
    + apply list_elem_of_lookup_1 in Hu as [j Hj]. rewrite lookup_take_Some in Hj. destruct Hj. exists j. split; [lia | done].
    + apply list_elem_of_lookup_1 in Hu as [j Hj]. rewrite lookup_drop in Hj. exists (S i + j)%nat. split; [lia | done].
  - intros j u Hj Hu. apply elem_of_app. destruct (decide (j < i)%nat); [left | right]; apply list_elem_of_lookup.
    + exists j. by apply lookup_take_Some.
    + exists (j - S i)%nat. rewrite lookup_drop, <-Hu. f_equal. lia.
Qed.

Lemma carried_ext h h' c : (∀ n, n ∈ own c → h' !! n = h !! n) → carried h' c = carried h c ∧ clean h' c = clean h c.
Proof. intros E. destruct c; try done; cbn; unfold node_buffer; rewrite E by (by left); done. Qed.
Lemma clean_carried h c : clean h c ⊆ carried h c.
Proof. destruct c; cbn; set_solver. Qed.
Lemma chain_ext h h' ns : ∀ l, (∀ n, n ∈ ns.*1 → h' !! n = h !! n) → chain h l ns → chain h' l ns.
Proof.
  induction ns as [|[n b] ns IH]; intros l E; [done |]. intros (-> & nx & Hn & Hc). split; [done |]. exists nx.
  split; [rewrite E; [done | by left] | apply IH; [| done]]. intros m Hm. apply E. by right.
Qed.
Lemma chain_lookup h ns n b : ∀ l, chain h l ns → (n, b) ∈ ns → ∃ nx, h !! n = Some (mkFree (Some b) nx).
Proof.
  induction ns as [|[m c] ns IH]; intros l; [by intros _ ?%not_elem_of_nil |]. intros (-> & nx & Hn & Hc) [[= -> ->]|Hin]%elem_of_cons.
  - by exists nx.
  - by eapply IH.
Qed.

(** What one thread's step has to establish; the rest is a frame. *)
Lemma step_frame p ns limbo i t p' ns' limbo' t' :
  pool_inv p ns limbo → threads p !! i = Some t → threads p' = <[i := t']> (threads p) →
  chain (nodes p') (freeList_ p') ns' →
  NoDup (ns'.*1 ++ own (pc t')) →
  (∀ n, n ∈ ns'.*1 ++ own (pc t') → is_Some (nodes p' !! n) ∧ (n ∈ ns.*1 ++ own (pc t) ∨ nodes p !! n = None)) →
  (∀ n, n ∉ ns'.*1 ++ own (pc t') → nodes p' !! n = if decide (n ∈ ns.*1 ++ own (pc t)) then None else nodes p !! n) →
  ns'.*2 ++ limbo' ++ in_hand (nodes p') t' ≡ₚ ns.*2 ++ limbo ++ in_hand (nodes p) t →
  (λ x, (data x, capacity x)) <$> buffers_ p' = (λ x, (data x, capacity x)) <$> buffers_ p →
  (∀ b, b ∉ ns.*2 ++ in_hand (nodes p) t → buffers_ p' !! b = buffers_ p !! b) →
  (∀ b, b ∈ ns'.*2 ++ clean (nodes p') (pc t') → empty_length (buffers_ p') b) →
  pc_ok (nodes p') ns' i (pc t') →
  (i ≠ a → ∀ n b, (n, b) ∈ ns → (n, b) ∈ ns' ∧ nodes p' !! n = nodes p !! n) →
  pool_inv p' ns' limbo'.
Proof.
  intros [Hch Hnd Hdom Hbuf Hsh Hfc Hcl Hpc] Hi Hts' Hch' Hnd' Hnew Hold Hbuf' Hsh' Hframe Hcl' Hpc' Hna.
  destruct (threads_split _ _ _ Hi) as (rest & S1 & S2 & Hrest & Hin).
  assert (∀ n, is_Some (nodes p !! n) ↔ n ∈ (ns.*1 ++ own (pc t)) ++ concat (own ∘ pc <$> rest)) as Hdom'
    by (intros n; by rewrite Hdom, S1, app_assoc).
  rewrite S1, app_assoc in Hnd.
  apply NoDup_app in Hnd as (Hnd1 & Hdisj & Hnd2).
  assert (∀ u n, u ∈ rest → n ∈ own (pc u) → n ∈ concat (own ∘ pc <$> rest)) as Hcat.
  { intros u n Hu Hn. apply list_elem_of_In, in_concat. exists (own (pc u)). rewrite <-!list_elem_of_In. split; [| done].
    by apply (list_elem_of_fmap_2 (own ∘ pc)). }
  (* the nodes of the other threads are not touched *)
  assert (∀ n, n ∈ concat (own ∘ pc <$> rest) → n ∉ ns'.*1 ++ own (pc t') ∧ nodes p' !! n = nodes p !! n) as Hoth.
  { intros n Hn. assert (n ∉ ns.*1 ++ own (pc t)) as Hn1 by (intros ?; by eapply Hdisj).
    assert (n ∉ ns'.*1 ++ own (pc t')) as Hn2.
    { intros Hx. destruct (Hnew n Hx) as (_ & [?|E]); [done |]. assert (is_Some (nodes p !! n)) as [? ?]; [| congruence].
      apply Hdom', elem_of_app. by right. }
    split; [done |]. rewrite Hold by done. by rewrite decide_False. }
  assert (∀ u, u ∈ rest → carried (nodes p') (pc u) = carried (nodes p) (pc u) ∧ clean (nodes p') (pc u) = clean (nodes p) (pc u)) as Hcar.
  { intros u Hu. apply carried_ext. intros n Hn. by eapply Hoth, Hcat. }
  assert (in_hand (nodes p') <$> rest = in_hand (nodes p) <$> rest) as Ehand.
  { apply list_fmap_ext. intros j u Hu. unfold in_hand. by rewrite (proj1 (Hcar u (list_elem_of_lookup_2 _ _ _ Hu))). }
  assert (NoDup (ns.*2 ++ limbo ++ in_hand (nodes p) t ++ concat (in_hand (nodes p) <$> rest))) as Hnb.
  { unfold in_use in Hbuf. rewrite S1 in Hbuf. rewrite Hbuf. apply NoDup_seq. }
  assert (∀ j u b, j ≠ i → threads p !! j = Some u → b ∈ clean (nodes p) (pc u) → buffers_ p' !! b = buffers_ p !! b) as Hfr.
  { intros j u b Hj Hu Hb. apply Hframe. intros Hx.
    assert (b ∈ concat (in_hand (nodes p) <$> rest)) as Hy.
    { apply list_elem_of_In, in_concat. exists (in_hand (nodes p) u). rewrite <-!list_elem_of_In. split; [by eapply list_elem_of_fmap_2, Hin |].
      apply elem_of_app. left. by apply clean_carried. }
    rewrite !app_assoc, <-(app_assoc _ limbo) in Hnb. apply NoDup_app in Hnb as (_ & Hd & _). apply (Hd b); [| done].
    rewrite !elem_of_app in *. tauto. }
  split.
  - done.
  - rewrite Hts', S2, app_assoc. apply NoDup_app. split_and!; [done | | done]. intros n Hx Hn. by apply (proj1 (Hoth n Hn)).
  - intros n. rewrite Hts', S2, app_assoc, elem_of_app. cbn. destruct (decide (n ∈ ns'.*1 ++ own (pc t'))) as [Hx|Hx].
    { split; [by left | intros _; by apply Hnew]. }
    rewrite Hold by done. case_decide as Hy.
    + split; [by intros [? ?] | intros [?|?]; [done |]]. exfalso. by eapply Hdisj.
    + rewrite Hdom', elem_of_app. tauto.
  - unfold in_use. rewrite Hts', S2, Ehand, <-Hbuf. unfold in_use. rewrite S1, (app_assoc limbo'), (app_assoc _ _ (concat _)), Hbuf'.
    by rewrite <-!app_assoc.
  - by rewrite Hsh'.
  - intros b Hb. apply Hcl', elem_of_app. by left.
  - intros j u b. rewrite Hts'. intros [(-> & <- & _)|[Hj Hu]]%list_lookup_insert_Some Hb.
    + apply Hcl', elem_of_app. by right.
    + rewrite (proj2 (Hcar u (Hin _ _ (not_eq_sym Hj) Hu))) in Hb. unfold empty_length.
      rewrite (Hfr j u b (not_eq_sym Hj) Hu Hb). by eapply Hcl.
  - intros j u. rewrite Hts'. intros [(-> & <- & _)|[Hj Hu]]%list_lookup_insert_Some; [done |].
    pose proof (Hin _ _ (not_eq_sym Hj) Hu) as Hr. pose proof (Hpc j u Hu) as Hk.
    assert (∀ n, n ∈ own (pc u) → nodes p' !! n = nodes p !! n) as En by (intros n Hn; by eapply Hoth, Hcat).
    destruct (pc u) as [|n|n nx|n|n b|n b|b|b|n b|n|n] eqn:Epc; cbn in *; try done.
    2: { destruct Hk as (-> & b & Hb & Hn). split; [done |]. exists b. destruct (Hna Hj n b Hb) as [? ->]. done. }
    2-4: destruct Hk as (b & nx & Hn); exists b, nx; rewrite En; [done | by left].
    destruct Hk as (-> & Hn). split; [done |]. apply list_elem_of_fmap in Hn as ([n' b] & -> & Hnb'). 
    by eapply (list_elem_of_fmap_2 fst), Hna.
Qed.
(** A step that leaves the nodes and the free list alone. *)
Lemma step_local p ns limbo i t p' limbo' t' :
  pool_inv p ns limbo → threads p !! i = Some t → threads p' = <[i := t']> (threads p) →
  nodes p' = nodes p → freeList_ p' = freeList_ p → own (pc t') = own (pc t) →
  limbo' ++ in_hand (nodes p) t' ≡ₚ limbo ++ in_hand (nodes p) t →
  (λ x, (data x, capacity x)) <$> buffers_ p' = (λ x, (data x, capacity x)) <$> buffers_ p →
  (∀ b, b ∉ in_hand (nodes p) t → buffers_ p' !! b = buffers_ p !! b) →
  (∀ b, b ∈ clean (nodes p) (pc t') → empty_length (buffers_ p') b) →
  pc_ok (nodes p) ns i (pc t') →
  pool_inv p' ns limbo'.
Proof.
  intros Hinv Hi Ht En Ef Eo Hb Hsh Hfr Hcl Hpc. pose proof Hinv as [Hch Hnd Hdom Hbuf _ Hfc _ _].
  destruct (threads_split _ _ _ Hi) as (rest & S1 & _).
  eapply step_frame; try done; rewrite ?En, ?Ef, ?Eo; try done.
  - rewrite S1, app_assoc in Hnd. by apply NoDup_app in Hnd as (? & _).
  - intros n Hn. split; [| by left]. apply Hdom. rewrite S1, app_assoc. apply elem_of_app. by left.
  - intros n Hn. by rewrite decide_False.
  - by rewrite Hb.
  - intros b Hn. apply Hfr. set_solver.
  - intros b [Hx|Hx]%elem_of_app; [| by apply Hcl]. specialize (Hfc b Hx). unfold empty_length in *. rewrite Hfr; [done |].
    unfold in_use in Hbuf. rewrite S1 in Hbuf. assert (NoDup (ns.*2 ++ limbo ++ in_hand (nodes p) t ++ concat (in_hand (nodes p) <$> rest))) as Hnb
      by (rewrite Hbuf; apply NoDup_seq).
    apply NoDup_app in Hnb as (_ & Hd & _). intros Hy. apply (Hd b Hx). rewrite !elem_of_app. tauto.
Qed.

(** A step that writes into the node the thread owns. *)
Lemma step_own p ns limbo i t p' t' n nd :
  pool_inv p ns limbo → threads p !! i = Some t → threads p' = <[i := t']> (threads p) →
  nodes p' = <[n := nd]> (nodes p) → freeList_ p' = freeList_ p → buffers_ p' = buffers_ p →
  own (pc t) = [n] → own (pc t') = [n] →
  in_hand (nodes p') t' = in_hand (nodes p) t → clean (nodes p') (pc t') = clean (nodes p) (pc t) →
  pc_ok (nodes p') ns i (pc t') →
  pool_inv p' ns limbo.
Proof.
  intros Hinv Hi Ht En Ef Eb Eo Eo' Hb Hcl Hpc. pose proof Hinv as [Hch Hnd Hdom Hbuf _ Hfc Hcl0 _].
  destruct (threads_split _ _ _ Hi) as (rest & S1 & _).
  rewrite S1, app_assoc in Hnd. apply NoDup_app in Hnd as (Hnd & _ & _). cbn in Hnd. rewrite Eo in Hnd.
  assert (n ∉ ns.*1) as Hn by (apply NoDup_app in Hnd as (_ & Hd & _); intros Hx; apply (Hd n Hx); by left).
  eapply step_frame; try done; rewrite ?Ef, ?Eb, ?Eo, ?Eo'; try done.
  - eapply chain_ext; [| done]. intros m Hm. rewrite En, lookup_insert_ne; [done |]. by intros ->.
  - intros m Hm. split; [| by left]. rewrite En, lookup_insert_is_Some', Hdom, S1. cbn. rewrite Eo.
    right. rewrite app_assoc. apply elem_of_app. by left.
  - intros m Hm. rewrite decide_False by done. rewrite En, lookup_insert_ne; [done |]. intros ->. apply Hm, elem_of_app. by right; left.
  - by rewrite Hb.
  - rewrite Hcl. intros b [Hx|Hx]%elem_of_app; [by apply Hfc | by eapply Hcl0].
  - intros _ m b Hm. split; [done |]. rewrite En, lookup_insert_ne; [done |]. intros ->. apply Hn. by apply (list_elem_of_fmap_2 fst _ (m, b)).
Qed.
(** ** The steps *)
Definition steps ns limbo (r : pool_result) : Prop :=
  match r with
  | PFault => False
  | PStepped p' e => ∃ ns', pool_inv p' ns' limbo ∧ ofold stack_event ns.*2 (option_list e) = Some ns'.*2
  end.
Lemma stays ns limbo p' : pool_inv p' ns limbo → steps ns limbo (PStepped p' None).
Proof. intros Hi. by exists ns. Qed.

Lemma set_thread_same p i t : threads p !! i = Some t → set_thread i t p = p.
Proof. intros Hi. unfold set_thread. destruct p; cbn in *. by rewrite list_insert_id. Qed.

Lemma chain_null h l ns : chain h l ns → l = None → ns = [].
Proof. destruct ns as [|[n b] ns]; [done |]. by intros (-> & _). Qed.
Lemma chain_head h l n ns : chain h l ns → l = Some n → n ∈ ns.*1.
Proof. destruct ns as [|[m b] ns]; [by intros -> |]. intros (-> & _) [= ->]. by left. Qed.

Lemma pop_loop_inv p ns limbo t :
  pool_inv p ns limbo → threads p !! a = Some t → own (pc t) = [] → carried (nodes p) (pc t) = [] →
  steps ns limbo (pop_loop a (held t) p).
Proof.
  intros Hinv Hi Ho Hc. unfold pop_loop. destruct (freeList_ p) as [head|] eqn:Ef.
  - apply stays. eapply step_local with (t' := mkThread (Loaded head) (held t)) (limbo := limbo); try done; cbn; unfold in_hand; cbn; rewrite ?Hc; try done.
    + intros b. by rewrite elem_of_nil.
    + split; [done |]. eapply chain_head; [apply Hinv | done].
  - exists ns. split.
    + eapply step_local with (t' := mkThread Idle (held t)) (limbo := limbo); try done; cbn; unfold in_hand; cbn; rewrite ?Hc; try done.
      intros b. by rewrite elem_of_nil.
    + cbn. by rewrite (chain_null _ _ _ (pi_chain _ _ _ Hinv) Ef).
Qed.
Lemma buffer_exists p ns limbo i t b : pool_inv p ns limbo → threads p !! i = Some t → b ∈ in_hand (nodes p) t → is_Some (buffers_ p !! b).
Proof.
  intros Hinv Hi Hb. pose proof Hinv as [_ _ _ Hbuf Hsh _ _ _]. destruct (threads_split _ _ _ Hi) as (rest & S1 & _).
  assert (b ∈ seq 0 count) as Hc. { rewrite <-Hbuf. unfold in_use. rewrite S1, !elem_of_app. tauto. }
  apply lookup_lt_is_Some. apply (f_equal List.length) in Hsh. rewrite !length_fmap, length_seq in Hsh. apply elem_of_seq in Hc. lia.
Qed.
Lemma own_exists p ns limbo i t n : pool_inv p ns limbo → threads p !! i = Some t → n ∈ own (pc t) → is_Some (nodes p !! n) ∧ n ∉ ns.*1.
Proof.
  intros [_ Hnd Hdom _ _ _ _ _] Hi Hn. destruct (threads_split _ _ _ Hi) as (rest & S1 & _). rewrite Hdom. rewrite S1 in Hnd |- *. cbn.
  split; [rewrite !elem_of_app; tauto |]. apply NoDup_app in Hnd as (_ & Hd & _). intros Hx. apply (Hd n Hx). apply elem_of_app. by left.
Qed.
Lemma alter_frame (f : PoolBuffer → PoolBuffer) b (bs : list PoolBuffer) :
  (∀ x, data (f x) = data x ∧ capacity (f x) = capacity x) →
  (λ x, (data x, capacity x)) <$> alter f b bs = (λ x, (data x, capacity x)) <$> bs.
Proof.
  intros Hf. apply list_eq. intros k. rewrite !list_lookup_fmap. destruct (decide (k = b)) as [->|Hk].
  - rewrite list_lookup_alter_eq. destruct (bs !! b); [| done]. cbn. by rewrite !(proj1 (Hf _)), !(proj2 (Hf _)).
  - by rewrite list_lookup_alter_ne.
Qed.

(** [reset] on the buffer a thread carries. *)
Lemma pool_reset_inv p ns limbo i t t' b :
  pool_inv p ns limbo → threads p !! i = Some t → carried (nodes p) (pc t) = [b] → in_hand (nodes p) t' = in_hand (nodes p) t →
  own (pc t') = own (pc t) → clean (nodes p) (pc t') = [b] → pc_ok (nodes p) ns i (pc t') →
  steps ns limbo (match buffers_ p !! b with None => PFault | Some _ => PStepped (set_thread i t' (set_buffer reset b p)) None end).
Proof.
  intros Hinv Hi Hc Hh Ho Hcl Hpc.
  assert (b ∈ in_hand (nodes p) t) as Hb by (unfold in_hand; rewrite Hc; by left).
  destruct (buffer_exists _ _ _ _ _ _ Hinv Hi Hb) as [x Hx]. rewrite Hx.
  apply stays. eapply step_local with (t' := t') (limbo := limbo); try done; cbn.
  - by rewrite Hh.
  - by apply alter_frame.
  - intros b' Hb'. rewrite list_lookup_alter_ne; [done |]. by intros ->.
  - rewrite Hcl. intros b' ->%list_elem_of_singleton. unfold empty_length. by rewrite list_lookup_alter_eq, Hx.
Qed.

Lemma acquire_step p ns limbo i t fresh_node spurious :
  pool_inv p ns limbo → threads p !! i = Some t →
  match pc t with Loaded _ | ReadNext _ _ | Popped _ | GotBuffer _ _ | ResetDone _ _ => True | _ => False end →
  steps ns limbo (pool_step i fresh_node spurious t p).
Proof.
  intros Hinv Hi Hacq. pose proof (pi_pc _ _ _ Hinv _ _ Hi) as Hok. destruct t as [c hs]. cbn in *. unfold pool_step. cbn.
  destruct c as [|n|n nx|n|n b|n b|b|b|n b|n|n]; cbn in Hok; try done; clear Hacq.
  - (* head->next *)
    destruct Hok as (-> & Hn). apply list_elem_of_fmap in Hn as ([n' b] & -> & Hnb). cbn.
    destruct (chain_lookup _ _ _ _ _ (pi_chain _ _ _ Hinv) Hnb) as [nx Hn]. rewrite Hn. cbn.
    apply stays. eapply step_local with (t' := mkThread (ReadNext n' nx) hs) (limbo := limbo); try done; cbn.
    + intros b'. by rewrite elem_of_nil.
    + split; [done |]. by exists b.
  - (* the compare-exchange *)
    destruct Hok as (-> & b & Hnb & Hn). case_match eqn:Hcas; [| by apply (pop_loop_inv p ns limbo _ Hinv Hi)].
    apply andb_true_iff in Hcas as [_ Hf%bool_decide_eq_true].
    pose proof Hinv as [Hch Hnd Hdom Hbuf _ Hfc _ _]. destruct ns as [|[n' b'] ns]; [by rewrite Hf in Hch |].
    destruct Hch as (E & nx' & Hn' & Hch). rewrite Hf in E. injection E as <-. rewrite Hn in Hn'. injection Hn' as <- <-. rewrite Hn. cbn.
    destruct (threads_split _ _ _ Hi) as (rest & S1 & _). rewrite S1 in Hnd. cbn in *.
    exists ns. split; [| cbn; by rewrite bool_decide_true].
    eapply (step_frame p ((n, b) :: ns) limbo a _ _ ns limbo (mkThread (Popped n) hs)); try done; cbn.
    + rewrite <-Permutation_cons_append. rewrite app_comm_cons in Hnd. by apply NoDup_app in Hnd as (? & _).
    + intros m Hm. split; [apply Hdom; rewrite S1; set_solver | set_solver].
    + intros m Hm. rewrite decide_False by set_solver. done.
    + unfold in_hand. cbn. unfold node_buffer. rewrite Hn. cbn. solve_Permutation.
    + rewrite app_nil_r. intros m Hm. apply Hfc. by right.
    + by exists b, nx.
  - (* node->buffer *)
    destruct Hok as (b & nx & Hn). rewrite Hn. cbn. apply stays.
    eapply step_local with (t' := mkThread (GotBuffer n b) hs) (limbo := limbo); try done; cbn.
    + unfold in_hand. cbn. unfold node_buffer. by rewrite Hn.
    + intros b'. by rewrite elem_of_nil.
  - by apply (pool_reset_inv p ns limbo i (mkThread (GotBuffer n b) hs) (mkThread (ResetDone n b) hs)).
  - (* delete node; return buf *)
    destruct (own_exists _ _ _ _ _ n Hinv Hi) as [[nd Hn] Hni]; [by left |]. rewrite Hn.
    pose proof (pi_clean _ _ _ Hinv _ _ b Hi ltac:(by left)) as Hz. unfold empty_length in Hz.
    destruct (buffers_ p !! b) as [x|] eqn:Hx; [| done]. injection Hz as Hz. cbn.
    exists ns. split; [| cbn; by rewrite bool_decide_true].
    pose proof Hinv as [Hch Hnd Hdom _ _ Hfc _ _]. destruct (threads_split _ _ _ Hi) as (rest & S1 & _). rewrite S1 in Hnd.
    eapply (step_frame p ns limbo i _ _ ns limbo (mkThread Idle (b :: hs))); try done; cbn.
    + eapply chain_ext; [| done]. intros m Hm. rewrite lookup_delete_ne; [done |]. by intros ->.
    + rewrite app_nil_r. by apply NoDup_app in Hnd as (? & _).
    + rewrite app_nil_r. intros m Hm. rewrite lookup_delete_ne by (by intros ->). split; [| set_solver].
      apply Hdom. apply elem_of_app. by left.
    + rewrite app_nil_r. intros m Hm. destruct (decide (m = n)) as [->|Hmn].
      * rewrite lookup_delete_eq, decide_True by set_solver. done.
      * rewrite lookup_delete_ne, decide_False by set_solver. done.
    + rewrite app_nil_r. done.
    + intros _ m b' Hm. split; [done |]. rewrite lookup_delete_ne; [done |]. intros ->. apply Hni. by apply (list_elem_of_fmap_2 fst _ (m, b')).
Qed.
Lemma release_step p ns limbo i t fresh_node spurious :
  pool_inv p ns limbo → threads p !! i = Some t →
  match pc t with Releasing _ | Cleared _ | Allocated _ _ | Filled _ | Pushing _ => True | _ => False end →
  steps ns limbo (pool_step i fresh_node spurious t p).
Proof.
  intros Hinv Hi Hrel. pose proof (pi_pc _ _ _ Hinv _ _ Hi) as Hok. destruct t as [c hs]. cbn in *. unfold pool_step. cbn.
  destruct c as [|n|n nx|n|n b|n b|b|b|n b|n|n]; cbn in Hok; try done; clear Hrel.
  - by apply (pool_reset_inv p ns limbo i (mkThread (Releasing b) hs) (mkThread (Cleared b) hs)).
  - (* new FreeNode *)
    destruct (nodes p !! fresh_node) as [?|] eqn:Hf; [by apply stays |]. apply stays.
    pose proof Hinv as [Hch Hnd Hdom _ _ Hfc Hcl _]. destruct (threads_split _ _ _ Hi) as (rest & S1 & _).
    assert (fresh_node ∉ ns.*1) as Hni by (intros Hx; destruct (proj2 (Hdom fresh_node)) as [? ?]; [set_solver | congruence]).
    eapply (step_frame p ns limbo i _ _ ns limbo (mkThread (Allocated fresh_node b) hs)); try done; cbn.
    + eapply chain_ext; [| done]. intros m Hm. rewrite lookup_insert_ne; [done |]. by intros ->.
    + rewrite <-Permutation_cons_append. apply NoDup_cons. split; [done |]. by apply NoDup_app in Hnd as (? & _).
    + intros m [Hm| ->%list_elem_of_singleton]%elem_of_app; [| rewrite lookup_insert_eq; split; [done | by right]].
      rewrite lookup_insert_is_Some'. split; [right; apply Hdom, elem_of_app; by left | left; apply elem_of_app; by left].
    + rewrite app_nil_r. intros m Hm. rewrite lookup_insert_ne by set_solver. rewrite decide_False by set_solver. done.
    + intros b' [Hx|Hx]%elem_of_app; [by apply Hfc | by eapply (Hcl i _ b' Hi)].
    + intros _ m b' Hm. split; [done |]. rewrite lookup_insert_ne; [done |]. intros ->. apply Hni. by apply (list_elem_of_fmap_2 fst _ (m, b')).
  - (* node->buffer = buf *)
    destruct (own_exists _ _ _ _ _ n Hinv Hi) as [[nd Hn] _]; [by left |]. rewrite Hn. apply stays.
    eapply (step_own p ns limbo i _ _ (mkThread (Filled n) hs) n); try done; cbn; unfold in_hand, node_buffer; cbn;
      unfold node_buffer; rewrite ?lookup_insert_eq; try done. by exists b, (next nd).
  - (* node->next = freeList_.load() *)
    destruct Hok as (b & nx & Hn). rewrite Hn. apply stays.
    eapply (step_own p ns limbo i _ _ (mkThread (Pushing n) hs) n); try done; cbn; unfold in_hand, node_buffer; cbn;
      unfold node_buffer; rewrite ?lookup_insert_eq, ?Hn; try done. by exists b, (freeList_ p).
  - (* the compare-exchange *)
    destruct Hok as (b & nx & Hn). rewrite Hn. case_match eqn:Hcas.
    2: { apply stays. eapply (step_own p ns limbo i _ _ (mkThread (Pushing n) hs) n); try done; cbn; unfold in_hand, node_buffer; cbn;
      unfold node_buffer; rewrite ?lookup_insert_eq, ?Hn; try done; [by rewrite list_insert_id | by exists b, (freeList_ p)]. }
    apply andb_true_iff in Hcas as [_ Hf%bool_decide_eq_true].
    exists ((n, b) :: ns). split; [| done].
    pose proof Hinv as [Hch Hnd Hdom _ _ Hfc Hcl _]. destruct (threads_split _ _ _ Hi) as (rest & S1 & _). rewrite S1 in Hnd. cbn in Hnd.
    assert (NoDup (n :: ns.*1)) as Hnd' by (rewrite <-Permutation_middle, app_comm_cons in Hnd; by apply NoDup_app in Hnd as (? & _)).
    eapply (step_frame p ns limbo i _ _ ((n, b) :: ns) limbo (mkThread Idle hs)); try done; cbn.
    + split; [done |]. exists nx. split; [done |]. cbn in Hf. by rewrite <-Hf.
    + by rewrite app_nil_r.
    + rewrite app_nil_r. intros m Hm. split; [apply Hdom; rewrite S1; set_solver | set_solver].
    + rewrite app_nil_r. intros m Hm. rewrite decide_False by set_solver. done.
    + unfold in_hand. cbn. unfold node_buffer. rewrite Hn. cbn. solve_Permutation.
    + rewrite app_nil_r. intros b' [->|Hx]%elem_of_cons; [| by apply Hfc]. eapply Hcl; [exact Hi |]. cbn. unfold node_buffer. rewrite Hn. by left.
    + intros _ m b' Hm. split; [by right | done].
Qed.

(** ** Every turn *)
Lemma idle_holding_Some i k p t b : idle_holding i k p = Some (t, b) → ∃ hs, t = mkThread Idle hs ∧ threads p !! i = Some t ∧ hs !! k = Some b.
Proof.
  unfold idle_holding. intros Hx. simplify_option_eq. destruct H as [c hs]. cbn in *. destruct c; try done. simplify_eq. by exists hs.
Qed.
Lemma give_back p ns limbo i t b :
  pool_inv p ns (b :: limbo) → threads p !! i = Some t → pool_inv (set_thread i (mkThread (pc t) (b :: held t)) p) ns limbo.
Proof.
  intros Hinv Hi. eapply (step_local p ns (b :: limbo) i t _ limbo (mkThread (pc t) (b :: held t))); try done; cbn.
  - unfold in_hand. cbn. solve_Permutation.
  - intros b' Hb. by eapply (pi_clean _ _ _ Hinv i t b').
  - by eapply (pi_pc _ _ _ Hinv i t).
Qed.
Lemma hand_over p ns limbo i hs k b :
  pool_inv p ns limbo → threads p !! i = Some (mkThread Idle hs) → hs !! k = Some b →
  pool_inv (set_thread i (mkThread Idle (delete k hs)) p) ns (b :: limbo).
Proof.
  intros Hinv Hi Hk. eapply (step_local p ns limbo i _ _ (b :: limbo) (mkThread Idle (delete k hs))); try done; cbn.
  - unfold in_hand. cbn. rewrite Permutation_middle. f_equiv. symmetry. by apply delete_Permutation.
  - intros b'. by rewrite elem_of_nil.
Qed.

Lemma pool_turn_inv p ns u : pool_inv p ns [] → acquirer_only a u → steps ns [] (pool_turn p u).
Proof.
  intros Hinv Hu. destruct u as [i|i k|i k len|i k j|i fresh_node spurious]; cbn in *.
  - subst i. destruct (threads p !! a) as [[c hs]|] eqn:Hi; [| by apply stays]. destruct c; try by apply stays.
    by apply (pop_loop_inv p ns [] (mkThread Idle hs)).
  - destruct (idle_holding i k p) as [[t b]|] eqn:E; [| by apply stays].
    apply idle_holding_Some in E as (hs & -> & Hi & Hk). apply stays.
    eapply (step_local p ns [] i _ _ [] (mkThread (Releasing b) (delete k hs))); try done; cbn.
    + unfold in_hand. cbn. symmetry. by apply delete_Permutation.
    + intros b'. by rewrite elem_of_nil.
  - destruct (idle_holding i k p) as [[t b]|] eqn:E; [| by apply stays].
    apply idle_holding_Some in E as (hs & -> & Hi & Hk). apply stays.
    eapply (step_local p ns [] i _ _ [] (mkThread Idle hs)); try done; cbn.
    + by rewrite list_insert_id.
    + by apply alter_frame.
    + intros b' Hb'. rewrite list_lookup_alter_ne; [done |]. intros ->. apply Hb'. unfold in_hand. cbn. by eapply list_elem_of_lookup_2.
    + intros b'. by rewrite elem_of_nil.
  - destruct (idle_holding i k p) as [[t b]|] eqn:E; [| by apply stays].
    apply idle_holding_Some in E as (hs & -> & Hi & Hk). cbn.
    pose proof (hand_over _ _ _ _ _ _ _ Hinv Hi Hk) as Hinv'.
    destruct (<[i:=mkThread Idle (delete k hs)]> (threads p) !! j) as [t'|] eqn:Hj; apply stays.
    + by apply give_back.
    + unfold set_thread. cbn. rewrite list_insert_insert_eq. by rewrite (list_insert_id _ _ _ Hi); destruct p.
  - destruct (threads p !! i) as [t|] eqn:Hi; [| by apply stays].
    destruct (pc t) eqn:E; try (apply acquire_step; [done | done | by rewrite E]); try (apply release_step; [done | done | by rewrite E]).
    unfold pool_step. rewrite E. by apply stays.
Qed.

Lemma pool_run_inv us : ∀ p ns, pool_inv p ns [] → Forall (acquirer_only a) us →
  ∃ p' es ns', run_pool p us = Some (p', es) ∧ pool_inv p' ns' [] ∧ ofold stack_event ns.*2 es = Some ns'.*2.
Proof.
  induction us as [|u us IH]; intros p ns Hinv Hus; [by exists p, [], ns |].
  apply Forall_cons in Hus as [Hu Hus]. pose proof (pool_turn_inv p ns u Hinv Hu) as Hs. cbn.
  destruct (pool_turn p u) as [p1 e|]; [| done]. destruct Hs as (ns1 & Hinv1 & E1).
  destruct (IH p1 ns1 Hinv1 Hus) as (p' & es & ns' & -> & Hinv' & E2). exists p', (option_list e ++ es), ns'.
  split_and!; [done | done |]. by rewrite ofold_app, E1.
Qed.
End inv.

(** ** Construction and destruction *)
Lemma add_free_chain xs : ∀ h l ns, chain h l ns → NoDup (xs.*2 ++ ns.*1) → (∀ n, is_Some (h !! n) ↔ n ∈ ns.*1) →
  let s := foldl add_free (h, l) xs in let ns' := reverse (prod_swap <$> xs) ++ ns in
  chain s.1 s.2 ns' ∧ (∀ n, is_Some (s.1 !! n) ↔ n ∈ ns'.*1).
Proof.
  induction xs as [|[b n] xs IH]; intros h l ns Hc Hnd Hdom; [done |]. cbn in Hnd. apply NoDup_cons in Hnd as [Hn Hnd].
  cbn zeta. rewrite fmap_cons, reverse_cons, <-app_assoc. cbn.
  apply (IH (<[n:=mkFree (Some b) l]> h) (Some n) ((n, b) :: ns)).
  - split; [done |]. exists l. rewrite lookup_insert_eq. split; [done |]. eapply chain_ext; [| done].
    intros m Hm. rewrite lookup_insert_ne; [done |]. intros ->. apply Hn, elem_of_app. by right.
  - cbn. rewrite <-Permutation_middle. by apply NoDup_cons.
  - intros m. rewrite lookup_insert_is_Some', Hdom. cbn. rewrite elem_of_cons. naive_solver.
Qed.

Lemma pool_init_inv a bufferSize addresses nthreads : NoDup addresses →
  ∃ ns, pool_inv a bufferSize (List.length addresses) (BufferPool_init bufferSize addresses nthreads) ns [] ∧
    ns.*2 = reverse (seq 0 (List.length addresses)).
Proof.
  intros Hnd. set (n := List.length addresses). set (xs := zip (seq 0 n) addresses).
  assert (xs.*1 = seq 0 n) as E1 by (apply fst_zip; by rewrite length_seq).
  assert (xs.*2 = addresses) as E2 by (apply snd_zip; by rewrite length_seq).
  destruct (add_free_chain xs ∅ None []) as [Hc Hdom]; [done | by rewrite E2, app_nil_r | |].
  { intros m. rewrite lookup_empty. split; [by intros [? ?] | by intros ?%not_elem_of_nil]. }
  rewrite app_nil_r in Hc, Hdom. set (ns := reverse (prod_swap <$> xs)) in *.
  assert (ns.*2 = reverse (seq 0 n)) as Ens by (unfold ns; rewrite fmap_reverse, <-list_fmap_compose, <-E1; f_equal; apply list_fmap_ext; by intros ? []).
  assert (ns.*1 = reverse addresses) as Ena by (unfold ns; rewrite fmap_reverse, <-list_fmap_compose, <-E2; f_equal; apply list_fmap_ext; by intros ? []).
  exists ns. split; [| done].
  assert (∀ B (f : Thread → list B), f (mkThread Idle []) = [] → concat (f <$> replicate nthreads (mkThread Idle [])) = []) as Hrep.
  { intros B f Hf. induction nthreads; [done |]. cbn. by rewrite Hf. }
  unfold BufferPool_init. fold n xs. split; cbn; try done.
  - rewrite Hrep, app_nil_r, Ena by done. by rewrite reverse_Permutation.
  - intros m. by rewrite Hrep, app_nil_r.
  - unfold in_use. cbn. rewrite Hrep, app_nil_r, Ens by done. apply reverse_Permutation.
  - by rewrite list_fmap_compose.
  - intros b. rewrite Ens, elem_of_reverse, elem_of_seq. intros Hb. unfold empty_length.
    rewrite list_lookup_fmap, lookup_seq_lt by lia. done.
  - intros i t b [-> _]%lookup_replicate. by intros ?%not_elem_of_nil.
  - by intros i t [-> _]%lookup_replicate.
Qed.

Lemma drain_chain ns : ∀ fuel h l, chain h l ns → NoDup ns.*1 → (∀ n, is_Some (h !! n) ↔ n ∈ ns.*1) → (List.length ns ≤ fuel)%nat →
  drain fuel l h = Some ∅.
Proof.
  induction ns as [|[n b] ns IH]; intros fuel h l Hc Hnd Hdom Hf.
  - cbn in Hc. subst l. assert (h = ∅) as -> by (apply map_empty; intros m; apply eq_None_not_Some; rewrite Hdom; apply not_elem_of_nil).
    by destruct fuel.
  - destruct Hc as (-> & nx & Hn & Hc). cbn in Hnd, Hdom, Hf. apply NoDup_cons in Hnd as [Hnn Hnd]. destruct fuel as [|fuel]; [lia |]. cbn.
    rewrite Hn. cbn. apply IH; [| done | | lia].
    + eapply chain_ext; [| done]. intros m Hm. rewrite lookup_delete_ne; [done |]. by intros ->.
    + intros m. rewrite lookup_delete_is_Some, Hdom, elem_of_cons. split; [naive_solver |]. intros Hm. split; [by intros -> | by right].
Qed.

Lemma quiet_destroy a bufferSize count p ns limbo : pool_inv a bufferSize count p ns limbo → Forall quiet (threads p) → BufferPool_destroy p = Some ∅.
Proof.
  intros [Hc Hnd Hdom _ _ _ _ _] Hq.
  assert (concat (own ∘ pc <$> threads p) = []) as E. { clear -Hq. induction Hq as [|[c hs] ts Hc' _ IH]; [done |]. cbn in *. unfold quiet in Hc'. cbn in Hc'. by subst c. }
  assert (∀ m, is_Some (nodes p !! m) ↔ m ∈ ns.*1) as Hdom' by (intros m; by rewrite Hdom, E, app_nil_r).
  rewrite E, app_nil_r in Hnd. eapply drain_chain; try done.
  assert (dom (nodes p) = list_to_set ns.*1 :> gset positive) as Ed by (apply set_eq; intros m; by rewrite elem_of_dom, elem_of_list_to_set, Hdom').
  rewrite <-size_dom, Ed, size_list_to_set by done. by rewrite length_fmap.
Qed.

Lemma shape_apart a bufferSize addresses nthreads p ns limbo :
  let count := List.length addresses in
  0 ≤ bufferSize → Z.of_nat count * bufferSize < 2 ^ 64 →
  pool_inv a bufferSize count p ns limbo → storage_size p = storage_size (BufferPool_init bufferSize addresses nthreads) → apart p.
Proof.
  intros count Hs Hc Hinv Est. pose proof (pi_shape _ _ _ _ _ _ Hinv) as Hsh.
  assert (∀ b x, buffers_ p !! b = Some x → (b < count)%nat ∧ data x = Z.of_nat b * bufferSize ∧ capacity x = bufferSize) as Hx.
  { intros b x Hb. pose proof (f_equal (.!! b) Hsh) as E. rewrite !list_lookup_fmap, Hb in E. cbn in E.
    destruct (seq 0 count !! b) as [b'|] eqn:Eb; [| done]. apply lookup_seq in Eb as [-> Hlt]. cbn in E. injection E as E1 E2.
    rewrite wrapu_small in E1 by (split; [lia | nia]). done. }
  cbn in Est. rewrite wrapu_small in Est by lia. split.
  - intros b x z Hb. destruct (Hx b x Hb) as (? & E1 & E2). unfold span. rewrite E1, E2, Est. fold count. nia.
  - intros b b' x y z Hb Hb'. destruct (Hx b x Hb) as (? & E1 & E2), (Hx b' y Hb') as (? & E3 & E4). unfold span. rewrite E1, E2, E3, E4. nia.
Qed.

Lemma turn_storage p u p' e : pool_turn p u = PStepped p' e → storage_size p' = storage_size p.
Proof.
  destruct u as [i|i k|i k len|i k j|i fresh_node spurious]; cbn; unfold pool_step, pop_loop; intros; repeat case_match; simplify_eq; done.
Qed.
Lemma run_storage us : ∀ p p' es, run_pool p us = Some (p', es) → storage_size p' = storage_size p.
Proof.
  induction us as [|u us IH]; intros p p' es; cbn; [by intros [= <- _] |].
  destruct (pool_turn p u) as [p1 e|] eqn:E; [| done]. intros Hr. simplify_option_eq. destruct H as [p2 es2]. simplify_eq.
  rewrite (IH _ _ _ Heqo). by eapply turn_storage.
Qed.

(** ** The theorem *)

(** C39: for a pool whose storage size fits 64 bits, any number of threads and any
    schedule in which a single thread calls [acquire] (while every thread writes
    into, passes on and releases the buffers it holds): no step touches a freed
    node, a null buffer or frees a node twice; the buffers that leave and enter
    the free list do so as pops and pushes of one stack that starts with all
    buffers, [acquire] returns null only when that stack is empty, and every
    buffer arrives with length 0; each buffer is in the stack or with one thread,
    never twice, and different buffers share no byte; and when no call is under
    way the destructor frees every node. *)
Theorem pool_is_stack bufferSize addresses nthreads acquirer us :
  NoDup addresses → 0 ≤ bufferSize → Z.of_nat (List.length addresses) * bufferSize < 2 ^ 64 → Forall (acquirer_only acquirer) us →
  let all := seq 0 (List.length addresses) in
  ∃ p es free, run_pool (BufferPool_init bufferSize addresses nthreads) us = Some (p, es) ∧
    ofold stack_event (reverse all) es = Some free ∧
    free ++ in_use p ≡ₚ all ∧ NoDup (free ++ in_use p) ∧ apart p ∧
    (Forall quiet (threads p) → BufferPool_destroy p = Some ∅).
Proof.
  intros Hnd Hs Hc Hus all. destruct (pool_init_inv acquirer bufferSize addresses nthreads Hnd) as (ns & Hinv & Ens).
  destruct (pool_run_inv _ _ _ us _ _ Hinv Hus) as (p & es & ns' & Hr & Hinv' & He). rewrite Ens in He.
  pose proof (pi_buffers _ _ _ _ _ _ Hinv') as Hp. cbn in Hp.
  exists p, es, ns'.*2. split_and!; try done.
  - rewrite Hp. apply NoDup_seq.
  - eapply shape_apart; [done | done | exact Hinv' |]. by eapply run_storage.
  - by eapply quiet_destroy.
Qed.

(** ** With two acquiring threads *)
Definition calls (i n : nat) (f : positive) : list PoolTurn := replicate n (TStep i f false).

(** Both load the head; one takes the node and deletes it; the other reads
    [head->next]. *)
Example acquire_after_free :
  run_pool (BufferPool_init 64 [1; 2]%positive 2) ([TAcquire 0; TAcquire 1] ++ calls 1 5 1 ++ [TStep 0 1 false]) = None.
Proof. reflexivity. Qed.

(** One thread holds a head and its next; the other takes both buffers and
    releases them into nodes at the same addresses: the stale exchange succeeds and
    one buffer is with both threads. *)
Example acquired_twice :
  let us := [TAcquire 0; TStep 0 1 false] ++ TAcquire 1 :: calls 1 5 1 ++ TAcquire 1 :: calls 1 5 1
    ++ TRelease 1 1 :: calls 1 5 2 ++ calls 0 4 1 ++ TRelease 1 0 :: calls 1 5 1
    ++ TAcquire 1 :: calls 1 2 1 ++ TAcquire 0 :: calls 0 3 1 ++ calls 1 3 1 in
  (λ r, (pc <$> threads r.1, held <$> threads r.1)) <$> run_pool (BufferPool_init 64 [1; 2]%positive 2) us
  = Some ([GotBuffer 1 0; Idle], [[1%nat]; [0%nat]]).
Proof. vm_compute. reflexivity. Qed.

(** Three threads, the first of which acquires while the others release what it
    passes them, with a spurious failure on the way. *)
Definition sample_schedule : list PoolTurn :=
  TAcquire 0 :: calls 0 5 1 ++ TAcquire 0 :: calls 0 5 1 ++ [TPass 0 0 1; TPass 0 0 2; TWrite 1 0 17; TRelease 1 0; TRelease 2 0; TAcquire 0]
    ++ [TStep 1 7 false; TStep 2 9 false; TStep 1 2 false; TStep 2 3 false; TStep 1 1 false; TStep 2 1 false; TStep 1 1 false; TStep 2 1 false;
        TStep 0 1 false; TStep 1 1 true; TStep 2 1 false; TStep 1 1 false; TStep 0 1 false] ++ calls 1 1 1 ++ calls 0 8 1.
Lemma pool_is_stack_witness :
  let r := run_pool (BufferPool_init 64 [1; 2; 3]%positive 3) sample_schedule in
  (snd <$> r) = Some [EPop 0 2; EAcquired 0 2 0; EPop 0 1; EAcquired 0 1 0; EPush 2 2; EPush 1 1; EPop 0 1; EAcquired 0 1 0] ∧
  ∃ p es free, r = Some (p, es) ∧ ofold stack_event [2; 1; 0]%nat es = Some free ∧ free ++ in_use p ≡ₚ seq 0 3 ∧ NoDup (free ++ in_use p) ∧
    apart p ∧ (Forall quiet (threads p) → BufferPool_destroy p = Some ∅).
Proof.
  split; [vm_compute; reflexivity |].
  apply (pool_is_stack 64 [1; 2; 3]%positive 3 0 sample_schedule).
  - by apply (bool_decide_unpack _).
  - done.
  - done.
  - by repeat constructor.
Defined.
