(* ===== verification/SpscQueue.v ===== *)
(** * Single-producer single-consumer queue (src/common/spsc_queue.h)

    The wrapper around rigtorp::SPSCQueue. The wrapped queue is a parameter: its
    operations, and as laws what its documentation promises of them, relative to
    the elements it holds. A call is one step; producer and consumer calls may come
    in any order. *)
From S2P Require Import Prelude.

(** The wrapped queue: [rt_front] gives null on an empty queue, [rt_pop] must not
    be called on one. *)
Class RigtorpQueue (T Q : Type) := {
  rt_make : nat → Q;
  rt_front : Q → option T;
  rt_pop : Q → option Q;
  rt_try_push : T → Q → Q * bool;
  rt_size : Q → nat;
  rt_empty : Q → bool;
  rt_capacity : Q → nat;
}.
Class RigtorpLaws (T Q : Type) `{RigtorpQueue T Q} := {
  rt_elements : Q → list T;
  rt_make_spec n : (1 ≤ n)%nat → rt_elements (rt_make n) = [] ∧ rt_capacity (rt_make n) = n;
  rt_front_spec q : rt_front q = head (rt_elements q);
  rt_pop_spec q x l : rt_elements q = x :: l → ∃ q', rt_pop q = Some q' ∧ rt_elements q' = l ∧ rt_capacity q' = rt_capacity q;
  rt_pop_empty q : rt_elements q = [] → rt_pop q = None;
  rt_push_spec x q : let (q', ok) := rt_try_push x q in
    ok = (length (rt_elements q) <? rt_capacity q)%nat ∧ rt_elements q' = rt_elements q ++ (if ok then [x] else []) ∧
    rt_capacity q' = rt_capacity q;
  rt_size_spec q : rt_size q = length (rt_elements q);
  rt_empty_spec q : rt_empty q = bool_decide (rt_elements q = []);
}.

(** The calls of the wrapper and what they return. *)
Inductive SpscCall (T : Type) := CTryPush (value : T) | CTryEmplace (value : T) | CTryPop | CFront | CPop | CSize | CEmpty.
Inductive SpscReply (T : Type) := RBool (b : bool) | RElement (x : option T) | RNothing | RNumber (n : nat).
Arguments CTryPush {T}. Arguments CTryEmplace {T}. Arguments CTryPop {T}. Arguments CFront {T}. Arguments CPop {T}.
Arguments CSize {T}. Arguments CEmpty {T}.
Arguments RBool {T}. Arguments RElement {T}. Arguments RNothing {T}. Arguments RNumber {T}.

Module SpscOps.
Section queue.
Context {T Q : Type} `{RigtorpQueue T Q}.

Definition SPSCQueue_init (capacity : nat) : Q := rt_make capacity.
Definition tryPush (value : T) (queue_ : Q) : Q * bool := rt_try_push value queue_.
(** The element is the one constructed from the arguments. *)
Definition tryEmplace (value : T) (queue_ : Q) : Q * bool := rt_try_push value queue_.
Definition tryPop (queue_ : Q) : option (Q * option T) :=
  match rt_front queue_ with
  | None => Some (queue_, None)
  | Some value => queue_ ← rt_pop queue_; Some (queue_, Some value)
  end.
Definition front (queue_ : Q) : option T := rt_front queue_.
Definition pop (queue_ : Q) : option Q := rt_pop queue_.
Definition size (queue_ : Q) : nat := rt_size queue_.
Definition empty (queue_ : Q) : bool := rt_empty queue_.

Definition call (c : SpscCall T) (q : Q) : option (Q * SpscReply T) :=
  match c with
  | CTryPush x => let '(q, ok) := tryPush x q in Some (q, RBool ok)
  | CTryEmplace x => let '(q, ok) := tryEmplace x q in Some (q, RBool ok)
  | CTryPop => '(q, x) ← tryPop q; Some (q, RElement x)
  | CFront => Some (q, RElement (front q))
  | CPop => q ← pop q; Some (q, RNothing)
  | CSize => Some (q, RNumber (size q))
  | CEmpty => Some (q, RBool (empty q))
  end.
Fixpoint calls (cs : list (SpscCall T)) (q : Q) : option (Q * list (SpscReply T)) :=
  match cs with
  | [] => Some (q, [])
  | c :: cs => '(q, r) ← call c q; '(q, rs) ← calls cs q; Some (q, r :: rs)
  end.
End queue.
End SpscOps.
Import SpscOps.

(** ** A bounded list behaves the same *)
#[export] Instance list_queue T : RigtorpQueue T (nat * list T) := {|
  rt_make n := (n, []);
  rt_front q := head q.2;
  rt_pop q := match q.2 with [] => None | _ :: l => Some (q.1, l) end;
  rt_try_push x q := if (length q.2 <? q.1)%nat then ((q.1, q.2 ++ [x]), true) else (q, false);
  rt_size q := length q.2;
  rt_empty q := match q.2 with [] => true | _ => false end;
  rt_capacity q := q.1;
|}.
#[export] Instance list_queue_laws T : RigtorpLaws T (nat * list T).
Proof.
  refine {| rt_elements := snd |}; [done|done|..].
  - intros [n l'] x l [= ->]. by exists (n, l).
  - by intros [n l] [= ->].
  - intros x [n l]. cbn [rt_try_push rt_capacity list_queue fst snd]. destruct (length l <? n)%nat; by rewrite ?app_nil_r.
  - done.
  - by intros [n []].
Defined.

(** The wrapper over any queue that keeps its laws gives the replies of the bounded
    list, for any calls of producer and consumer; the only failing call is [pop]
    on an empty queue, [tryPop] never fails. *)
Theorem spsc_queue_fifo {T Q} `{RigtorpLaws T Q} n (cs : list (SpscCall T)) :
  (1 ≤ n)%nat → snd <$> calls cs (SPSCQueue_init (Q := Q) n) = snd <$> calls cs (SPSCQueue_init (Q := nat * list T) n).
Proof.
  intros Hn. destruct (rt_make_spec n Hn) as [E0 C0]. unfold SPSCQueue_init. cbn [rt_make list_queue].
  assert (∀ (q : Q) m l, rt_elements q = l → rt_capacity q = m → snd <$> calls cs q = snd <$> calls cs (m, l)) as Hgen; [|by apply Hgen].
  clear. induction cs as [|c cs IH]; intros q m l El Cm; [done|].
  assert (∀ (q' : Q) l' r, rt_elements q' = l' → rt_capacity q' = m →
    snd <$> ('(q, rs) ← calls cs q'; Some (q, r :: rs)) = snd <$> ('(q, rs) ← calls cs (m, l'); Some (q, r :: rs))) as Hnext.
  { intros q' l' r E' C'. specialize (IH q' m l' E' C'). by destruct (calls cs q') as [[]|], (calls cs (m, l')) as [[]|]; simplify_eq/=. }
  assert (∀ x, snd <$> (let '(q', ok) := rt_try_push x q in '(q, rs) ← calls cs q'; Some (q, RBool ok :: rs)) =
    snd <$> (let '(q', ok) := rt_try_push x (m, l) in '(q, rs) ← calls cs q'; Some (q, RBool ok :: rs))) as Hpush.
  { intros x. pose proof (rt_push_spec x q) as Hp. destruct (rt_try_push x q) as [q' ok]. destruct Hp as (-> & E' & C'). rewrite El, Cm in *.
    cbn [rt_try_push list_queue fst snd]. destruct (length l <? m)%nat; apply Hnext; rewrite ?E', ?app_nil_r; done. }
  destruct c; cbn [calls call].
  - specialize (Hpush value). unfold tryPush. destruct (rt_try_push value q), (rt_try_push value (m, l)). exact Hpush.
  - specialize (Hpush value). unfold tryEmplace. destruct (rt_try_push value q), (rt_try_push value (m, l)). exact Hpush.
  - unfold tryPop. rewrite rt_front_spec, El. cbn [rt_front list_queue snd]. destruct l as [|x l]; [by apply (Hnext q [])|].
    destruct (rt_pop_spec q x l El) as (q' & -> & E' & C'). cbn. apply (Hnext q' l); [done|congruence].
  - unfold front. rewrite rt_front_spec, El. by apply Hnext.
  - unfold pop. destruct l as [|x l]; [|destruct (rt_pop_spec q x l El) as (q' & -> & E' & C'); cbn; apply (Hnext q' l); [done|congruence]].
    by rewrite rt_pop_empty.
  - unfold size. rewrite rt_size_spec, El. by apply Hnext.
  - unfold empty. rewrite rt_empty_spec, El. destruct l; by apply Hnext.
Qed.
